(* ===== verification/_CoqProject ===== *)
-Q . S2P
Prelude.v
ByteBuffer.v
ByteArray.v
ZlibStream.v
ByteCodec.v
ByteMessages.v
Encodings.v
Strings.v
CLib.v
FileUtil.v
Env.v
Util.v
Ragel.v
Hashes.v
Crypto.v
Timer.v
Locks.v
Thread.v
Scheduler.v
FiberSwitch.v
FiberOwnership.v
IOManager.v
EventLoop.v
FdManager.v
FdLaws.v
HookIo.v
Stream.v
StreamRead.v
LogFormatter.v
LogPattern.v
Logger.v
LoggerLaws.v
Config.v
ConfigLaws.v
JsonYaml.v
ProtoJson.v
ConfigLoad.v
LogConfig.v
LogConfigLaws.v
ServerConf.v
HttpTypes.v
Address.v
AddressMasks.v
AddressLaws.v
AddressText.v
Socket.v
SslSocket.v
TcpServer.v
Daemon.v
Http.v
HttpMessages.v
UriScanner.v
Uri.v
UriRoundtrip.v
LocalAddress.v
Servlet.v
HttpSession.v
HttpScanner.v
ClientScanner.v
HttpParser.v
HttpRoundtrip.v
ClientParser.v
HttpClient.v
ClientRoundtrip.v
ChunkedBody.v
HttpServer.v
HttpServerLaws.v
HttpConversation.v
ConnectionPool.v
ClientRequest.v
HttpExchange.v
