(* ===== verification/Prelude.v ===== *)
(** * server_frame: a verification library

    server_frame is a C++ library for network servers: fibers run by a pool of
    worker threads, an event loop over epoll and timers that wake them, system
    calls hooked so that they suspend a fiber and not a thread, a segmented byte
    buffer with typed readers and writers, addresses, URIs, logging and
    configuration, and an HTTP server and client on top of all that.  This library
    models its core as Rocq functions that evaluate, and proves what makes each
    part correct.  All paths below are under [src/server_frame/].

    ** How the program is put together

    [base/scheduler.cc] keeps a queue of fibers and callbacks and runs them on
    worker threads; the fibers themselves are in [base/fiber.cc].  [iomanager.cc]
    is a scheduler that also is a [TimerManager] ([base/timer.cc]): its idle fiber
    waits in [epoll_wait], at most until the next timer, and schedules the fibers
    and callbacks whose descriptor is ready or whose timer has expired.  [hook.cc]
    replaces the blocking calls of the C library: with the table of
    [base/fd_manager.cc] it makes each a loop that adds an event, suspends the
    fiber and tries again.  [socket.cc] and [stream/] wrap these calls.

    [tcp_server.cc] accepts connections on such a scheduler; for each one,
    [http/http_server.cc] loops: an [HttpSession] ([http/http_session.cc]) receives
    a request through a parser ([http/http_parser.cc] and a scanner generated by
    Ragel), which is answered by a document or by a [ServletDispatch]
    ([http/servlet.cc]), and the response is printed ([http/http.cc]) and sent.
    The other end is [http/http_connection.cc]: requests built from a URI
    ([http/uri.rl.cc]), a second scanner for responses, and a pool of connections.
    [config.cc] holds named variables with listeners that YAML documents set;
    [log.cc] has loggers whose definitions are one such variable.
    [bytearray.cc], [address.cc], [util.cc] and [util/] serve all of them.

    ** The files

    Foundations:
    - [Prelude.v] (this file): the monad [M St] of C++ code over a state [St],
      whose outcomes are a value ([Ret]), an exception ([Throw]), undefined
      behaviour with its kind ([Undef]: a failed assertion, a null pointer, an
      access out of bounds, ...), and fuel that ran out ([NoFuel]); [zoom], which
      runs a computation on a part of a larger state; bytes and characters, machine
      integers with their wrap-around ([u8] to [u64], [s32], [s64]); checked copies;
      lemmas on lists that several files share; the rewriting databases and
      tactics that run monadic code.
    - [CLib.v]: what the code uses of the C library: [atoi], [strtoull] and the like.
    - [Ragel.v]: Ragel's machines as tables, with the interpreter of the generated
      code and its safety.

    Containers and text:
    - [ByteBuffer.v]: the interface [ByteBuffer], a growing sequence of bytes with
      a cursor, with the laws of its operations.
    - [ByteArray.v]: [bytearray.{h,cc}] without the typed part.  The chain of
      [Node]s hanging from [root_] is a list, [cur_] an index into it, one past
      its end for the null pointer.  [wf] is the invariant, [abs] the buffer an
      array stands for; the last section is the instance of [ByteBuffer].
    - [ByteCodec.v]: the [WriteXxx] and [ReadXxx] of [bytearray.cc] and [endian.h],
      over any [ByteBuffer] and any byte order of the host; [ByteMessages.v] runs
      them on [ByteArray.v].
    - [Encodings.v], [Strings.v], [Hashes.v]: base64 and hexadecimal text; trimming,
      URL encoding, splitting, replacing and escaping; MurmurHash3, digests and
      HMAC ([util.cc], [util/hash_util.cc], [util/json_util.cc]).

    Scheduling and input and output:
    - [Timer.v]: [base/timer.cc].  The heap of timers, the set [timers_] as the
      list of its pointers in order, and a count of the wakeups asked for.
    - [Scheduler.v]: [base/fiber.cc] and [base/scheduler.cc].  [Scheduler::Run] is
      cut into the steps [Run_pick], [Run_task], [Run_back], [Run_after],
      [Run_callback] and [Run_idle] at the points where other threads can get in;
      a worker's phase says where it is.  [FiberOwnership.v]: who holds a fiber,
      and the discipline under which no fiber is held twice.
    - [IOManager.v]: [iomanager.{h,cc}].  The heap of [FdContext]s, the vector that
      grows, and the kernel behind the interface [Epoll] with the laws
      [EpollLaws].
    - [FdManager.v], [FdLaws.v]: [base/fd_manager.cc] and the calls of [hook.cc] that
      do not block, over a kernel of open descriptors with their flags.
    - [HookIo.v]: the blocking calls of [hook.cc] ([DoIo], [connect_with_timeout]) as
      a state machine driven by the answers of the kernel, events and timers, and
      the sleeps.
    - [Socket.v]: the class [Socket] ([socket.cc]).  [Stream.v]: [WriteFixSize] from
      memory and from a [ByteArray] ([stream/stream.cc], [stream/socket_stream.cc]).
    - [TcpServer.v]: [tcp_server.cc], the accepting fibers as tasks of a worker.
    - [Address.v] with [AddressMasks.v], [AddressLaws.v], [AddressText.v]: [address.cc].

    Logging and configuration:
    - [LogFormatter.v], [LogPattern.v]: the pattern scanner of [log.cc], its items,
      and the grammar it implements.  [Logger.v], [LoggerLaws.v]: loggers, appenders
      and the manager as a heap.
    - [Config.v], [ConfigLaws.v], [ConfigLoad.v]: [config.{h,cc}] over YAML nodes; each
      variable has a type, and the code of types is explicit.
    - [LogConfig.v], [LogConfigLaws.v]: the definitions of loggers as a variable and
      the listener that rebuilds the loggers.

    HTTP:
    - [HttpTypes.v], [Http.v], [HttpMessages.v]: the tables of [http/http.h], the map
      with keys that ignore case, requests and responses with their parameters,
      cookies and printing.
    - [HttpScanner.v], [ClientScanner.v], [UriScanner.v]: the three generated scanners
      ([http/parser/], [http/uri.rl.cc]) as tables for [Ragel.v].
    - [HttpSession.v]: the callbacks of [http/http_parser.cc] over a scanner given by
      the interface [Scanner], and [HttpSession::RecvRequest] over a connection that
      delivers its bytes in any pieces.  [HttpParser.v] implements [Scanner] by the
      generated one; [HttpRoundtrip.v] composes it with the printer.
    - [ClientParser.v], [HttpClient.v], [ClientRoundtrip.v], [ChunkedBody.v]: the parser
      of responses, [RecvResponse], what it makes of a printed response and of a
      chunked body.
    - [Uri.v], [UriRoundtrip.v]: [http/uri.rl.cc] around its scanner.
    - [Servlet.v]: [ServletDispatch], over any [fnmatch].
    - [HttpServer.v], [HttpServerLaws.v], [HttpConversation.v]: [http/http_server.cc]
      over a file system [FileSystem], and whole conversations with a client.
    - [ConnectionPool.v], [ClientRequest.v], [HttpExchange.v]: the pool, the requests
      built from URIs, and one exchange between [DoRequest] and [HandleClient].

    The process and what lies around it:
    - [Env.v]: [sys/env.cc], the command line, help, paths and variables.
      [Daemon.v]: the process of [sys/daemon.cc] that starts its child again.
    - [Locks.v]: the guards of [base/mutex.h] over a lock of readers and writers, and
      [CASLock] over its flag.  [Thread.v]: [base/thread.cc], the handshake between the
      constructor and the new thread.
    - [FiberSwitch.v]: [base/fiber.cc] once more, on one thread and from the inside: the
      registers [swapcontext] saves and loads and the thread-local pointers.
    - [EventLoop.v]: the loops of [Scheduler::Run] and [IOManager::Idle] for any number of
      workers, over the timers of [Timer.v] and the contexts of [IOManager.v], with the
      pipe that wakes them.
    - [FileUtil.v]: [FSUtil] of [util.cc], over the interface [Disk] with the laws
      [DiskLaws].  [Util.v]: the templates of [util.h] and the numbers and standard
      streams of [util.cc].
    - [StreamRead.v]: [ReadFixSize] into a [ByteArray], and the two ends together.
      [SslSocket.v]: [SSLSocket] of [socket.cc], over the answers of OpenSSL.
    - [ZlibStream.v]: [stream/zlib_stream.cc], over the interface [Zlib] with the laws
      [ZlibLaws].
    - [LocalAddress.v]: [Uri::CreateAddress] and [GetIPv4Inet], clients of [Address.v].
    - [JsonYaml.v]: [util/json_util.cc] and the conversions between JSON and YAML, over
      the interfaces of the two libraries.  [ProtoJson.v]: [PBToJsonString], over the
      reflection of protocol buffers.
    - [ServerConf.v]: [TcpServerConf] of [tcp_server.h] and its conversions.
    - [Crypto.v]: [util/crypto_util.cc], over the interface [OpenSSL] with the laws
      [OpenSSLLaws].

    ** What is shown

    - Byte arrays: the chain of blocks refines a flat buffer with a cursor
      ([ByteArray_refines_buffer]); whatever is called of what [call_ok] allows, no
      array reaches an access out of bounds ([reachable_safe]; the rest is in
      [Read_nothing_at_end] and [WriteToFile_negative_count]).  Messages of typed values round-trip between
      hosts of either byte order ([message_roundtrip]), truncated input throws
      ([truncated_item_throws]), arbitrary input ends ([ReadUint_total]).
    - Scheduling: the counter of active workers is exact, so [Stopping] does not
      answer true while work is left ([active_count_is_busy]); fibers scheduled only
      while nothing holds them are never entered twice
      ([disciplined_fibers_run_once]), a discipline [SwitchTo] breaks
      ([SwitchTo_races]).
    - Events: contexts, the counter of pending events and epoll's interest list
      agree after any interleaving of the sections, used as [event_ok] has it
      ([contexts_agree_with_epoll]); nothing that waits
      is lost or scheduled twice ([tasks_conserved]).
    - Timers: the set stays sorted though its keys are mutable
      ([reachable_timers_sound]); exactly the due timers fire
      ([ListExpiredCb_fires_due]); a new first timer wakes the idle thread
      ([no_lost_wakeup]).
    - Descriptors and hooks: every context belongs to an open socket that does not
      block ([fd_table_sound]), programs read their own flags back
      ([fcntl_roundtrip]); a hooked call ends, if it does, in one of three sound ways
      under every interleaving ([hooked_call_sound]), and once its timeout has been
      noted while it waits it returns nothing else ([armed_timeout_ends]; if it is
      noted before it waits, [timeout_lost]).
    - Sockets: a socket is connected only with a descriptor, under the calls that
      [sock_op] lists, and [Close] gives everything back ([sockets_safe]); timeouts are read back through hook and table
      ([timeout_roundtrip]); sends that take what they like still send everything
      once ([WriteFixSize_array_sends]); each fiber that waits takes at most one more client
      once [Stop] was called, and none when its task has run ([stop_ends_accepting]).
    - Addresses: texts of IPv6 addresses are read back ([IPv6_text_roundtrip]), the
      order is total ([addresses_ordered]), masks and networks ([masks_of_prefix]).
    - Logging: the pattern scanner implements a grammar ([Init_implements_grammar],
      [pattern_roundtrip]); no call on loggers follows a null or dangling
      pointer, and only a time too long for its buffer is undefined
      ([loggers_safe]).
    - Configuration: a name keeps its type ([names_keep_types]), a document sets what
      it names and listeners hear of it ([LoadFromYaml_sets]), values of containers
      round-trip ([containers_roundtrip]), and a change of the log configuration
      that its comparison notices makes the loggers it names as it says and takes
      level and appenders from those it no longer names ([log_config_applies]).
    - HTTP: the generated scanners never leave their buffers or fail an assertion
      ([parser_never_asserts], [client_scan_safe]), and where a request is cut into
      reads does not matter to the state that is reached, unless it is cut in its
      query ([feed_cuts_agree]).  A request or a
      response that is printed is what the other side receives
      ([request_received], [response_received], [chunked_body_received]); a hostile
      response can stop the process ([hostile_responses]) but not keep [RecvResponse]
      going for ever ([RecvResponse_ends]).  A printed request has a header twice only
      when its length was set by hand ([ToString_reads_back]).  URIs round-trip but for
      passwords like ports ([uri_roundtrip]).
    - Servers: [HandleClient] always ends, uses no file outside its root and answers
      in order ([HandleClient_serves]); conversations in which no
      head is cut and requests do not share a piece are answered in full
      ([conversation_answered]), and a request of [DoRequest] gets its answer
      ([request_is_answered]); dispatching ([dispatch_matches]).
    - Text: round trips of base64, hexadecimal and URL encoding, the behaviour of
      [split] and [replace] on every input, and that MurmurHash3 maps inputs of one
      length that differ in one aligned block to different values.
    - Process: [Init] accepts exactly the command lines of options, unless [readlink]
      fails, when it accepts all and reads nothing ([Init_reads_options]); the daemon restarts its child as often as it crashes
      ([daemon_restarts]); a [Thread] may be destroyed once its constructor has returned
      ([handshake_is_safe]).
    - Locks: guards exclude each other as they should in every interleaving
      ([guards_exclude]), and [CASLock] is a lock ([CASLock_is_a_lock]).
    - Fibers of one thread: within the discipline of [Run] every switch goes where it
      should and only the fiber that runs is in state [kExec] ([switching_is_sound]).
    - The event loop: when all workers wait, the pipe can wake one or the wait of one was
      computed to end when the first timer is due or before ([timers_not_overslept]); a
      signal starts a wait over ([interrupted_wait_oversleeps]), and for tasks this fails
      ([task_overslept]).
    - Keys and ciphers: what is encrypted is decrypted, within the memory given
      ([cipher_roundtrip]), keys are read back from their files ([generated_keys_work]),
      and files are closed ([key_files_closed]).
    - Streams: what is in one byte array reaches another at the other end, whatever the
      blocks and the kernels ([array_crosses]); what a compressing stream puts out a
      decompressing one turns back, with any positive size of buffers
      ([compressed_reads_back]); TLS sends and receives
      buffers in order ([ssl_sends_a_prefix], [ssl_fills_in_order]).
    - Files: [Rm] always ends and removes only what is below its argument
      ([Rm_removes]); [ListAllFile] finds every file once ([ListAllFile_finds_all]);
      [Mkdir] makes the parents ([Mkdir_makes_parents]).
    - Data: [BinarySearch] finds within the bounds ([BinarySearch_finds]), slices make
      up their vector ([Slice_partitions]), numbers are read back ([Atoi_reads_back]);
      JSON goes through YAML and back with scalars as texts and what is empty as null
      ([json_through_yaml]), and a message of protocol buffers becomes an object of its
      fields but groups, or stays null without any ([message_becomes_object]).

    Where the code departs from what it means to do, the theorem says what it
    does.  Of this kind are, in text and buffers: [WriteToFile_negative_count],
    [WriteInt32_overflows], [StringF16_truncates], [TrimRight_drops_one],
    [replace_empty_never_returns] and [Escape_correct_but_for_NULs]; in scheduling
    and hooks: [Idle_asserts_after_DelEvent], [AddEvent_resize_races],
    [Get_creates_twice], [ioctl_makes_it_block], [timeout_lost],
    [connect_succeeds_in_progress], [restart_spins], [Reconnect_never_connects] and
    [CreateUDP_connected_without_descriptor]; in addresses and URIs:
    [bare_IPv6_has_service], [unix_paths], [interfaces_by_name],
    [NetworkAddress_is_the_host], [masks_undefined], [empty_port_null],
    [port_shaped_password]; in logging and configuration: [percent_not_escaped],
    [file_starts_over], [nine_refused], [appender_changes_ignored],
    [define_from_string_levels], [silenced_forwards]; in HTTP:
    [cut_request_differs], [hostile_responses], [pipelined_request_lost],
    [unreadable_file_throws] and [pool_ignores_age]; in the process and its streams:
    [corrupt_input_is_ok], [no_room_never_returns], [Mv_loses_target],
    [Rm_keeps_sockets], [Slice_by_nothing], [interrupted_wait_dangles],
    [nested_SwapIn_loses_scheduler], [caller_thread_mistakes_itself],
    [ssl_writes_after_Close], [failed_handshake_stays_connected],
    [last_interface_wins], [task_overslept], [interrupted_wait_oversleeps],
    [short_string_overruns], [server_args_lost] and [workers_required].

    ** Fuel

    Loops that are not structural take fuel, and each has a theorem that the fuel
    given is enough.  The loops of [ByteArray.v] get one more than the number of
    blocks, which each round leaves one by one; the base-128 loops 5 and 10 rounds
    of 7 bits; [PARSE_PARAM], [split], [replace] and the pattern scanner one more
    than the length of the text, of which each round consumes a character;
    [CountBits] one more than the width; [Logger_Log] two, as the root has no root;
    [ListAllMember] one more than the nodes of the document; [WriteFixSize] one more
    than the bytes to send, [ReadFixSize] than those to receive, [BinarySearch] than the
    elements and [fread_loop] than the size of the file; the loops that receive from a
    connection, and the loop over the requests of a client, any number above the bytes
    that will be delivered, as every successful read delivers at least one; [Code_loop]
    of the compressors any number above the bytes zlib still puts out; [Rm] and
    [ListAllFile] one more than [PATH_MAX], as each level makes the path longer; the
    conversions of documents and messages their depth; reading a file of keys one more
    than its length.  Where the code does not end,
    [replace] of an empty string, [Slice] by nothing and a compressor with buffers of no
    bytes, the theorem says that no fuel is enough.

    ** Atomic steps

    A section under a lock is one step.  Between steps any other thread may act,
    so an invariant of the reachable states holds for all interleavings of these
    sections; data races of code outside them are not modelled, but for the
    cases cut open on purpose: [Yield] in front of the saving of the registers, the
    two halves of [AddEvent], the reports of [epoll_wait] against [Idle_event], the
    two sections of [FdContextManager::Get], and the points of a hooked call where
    timers and events get in.

    ** What is not modelled

    Calls of the system, of OpenSSL, zlib, yaml-cpp and jsoncpp are parameters: the
    kernel's answers and those of OpenSSL to a handshake and to each call are arguments,
    and so are those of [fork] and [waitpid]; the file system is the class [FileSystem]
    and, for the functions on directories, [Disk]; epoll is the class [Epoll], zlib
    [Zlib], yaml-cpp [Yaml], [YamlFields] and [YamlBuild], jsoncpp [Json], protocol
    buffers [Protobuf], keys and ciphers [OpenSSL], each with the laws its manual promises; [getaddrinfo], [inet_pton], [getifaddrs], [strftime] and [fnmatch]
    are functions that sections take.  Lines written to the log are left out wherever
    they have no effect on the state.

    Not modelled: [SpeedLimit] and the sizes of pieces it computes in floating point (the
    pieces are given); formatting by [vasprintf] and the conversions of locales; the YAML
    texts that loggers and servers print of themselves, which are output only; the pages of
    [http/servlet/] and mail, which [CMakeLists.txt] leaves out of the library and of which
    the status page and [email/smtp.cc] name classes that the repository does not have;
    configuration variables of unordered containers, whose order is the library's; the
    memory for stacks of fibers; copies of headers outside [src/server_frame/], examples
    and tests. *)
From stdpp Require Export base tactics numbers list.
From stdpp Require countable.
From Stdlib Require Export ZArith Lia.
From Stdlib Require String Strings.Byte.
From coqutil Require Export Byte.
From coqutil Require Import Word.LittleEndianList Z.bitblast Z.prove_Zeq_bitwise.
Export (notations) String.

(** ** Outcomes of C++ code *)

(** The C++ exceptions the modelled code throws. *)
Inductive exn :=
  | out_of_range
  | invalid_argument
  | length_error
  | logic_error.

(** Why the behaviour of a C++ execution is not defined, or its process aborted. *)
Inductive ub :=
  | null_deref
  | out_of_bounds
  | assert_failed
  | div_by_zero
  | signed_overflow
  | shift_too_far
  | uninitialised.

(** The result of running code from a state of type [St]: it returns a value,
    throws an exception (with the state at the throw: C++ does not roll back),
    is undefined or aborted, or needs more fuel than it was given. *)
Inductive result (St A : Type) :=
  | Ret (a : A) (s : St)
  | Throw (e : exn) (s : St)
  | Undef (u : ub)
  | NoFuel.
Arguments Ret {_ _} _ _.
Arguments Throw {_ _} _ _.
Arguments Undef {_ _} _.
Arguments NoFuel {_ _}.

Definition M (St A : Type) : Type := St → result St A.

#[export] Instance M_ret {St} : MRet (M St) := λ A a s, Ret a s.
#[export] Instance M_bind {St} : MBind (M St) := λ A B k m s,
  match m s with
  | Ret a s' => k a s'
  | Throw e s' => Throw e s'
  | Undef u => Undef u
  | NoFuel => NoFuel
  end.

#[export] Instance M_fmap {St} : FMap (M St) := λ A B f m, m ≫= λ a, mret (f a).

Definition throw {St A} (e : exn) : M St A := λ s, Throw e s.
Definition undef {St A} (u : ub) : M St A := λ _, Undef u.
Definition get {St} : M St St := λ s, Ret s s.
Definition modify {St} (f : St → St) : M St unit := λ s, Ret tt (f s).

(** An [assert] that aborts the process when its condition fails. *)
Definition massert {St} (b : bool) : M St unit :=
  if b then mret tt else undef assert_failed.

(** Two runs in sequence, when the first returns. *)
Lemma bind_Ret {St A B} (m : M St A) (k : A → M St B) s a s' :
  m s = Ret a s' → (m ≫= k) s = k a s'.
Proof. unfold mbind, M_bind. by intros ->. Qed.

Lemma bind_Throw {St A B} (m : M St A) (k : A → M St B) s e s' :
  m s = Throw e s' → (m ≫= k) s = Throw e s'.
Proof. unfold mbind, M_bind. by intros ->. Qed.

(** A run on a part of the state. *)
Definition zoom {St T A} (part : St → T) (put : T → St → St) (m : M T A) : M St A := λ s,
  match m (part s) with
  | Ret a t => Ret a (put t s)
  | Throw e t => Throw e (put t s)
  | Undef u => Undef u
  | NoFuel => NoFuel
  end.

Lemma zoom_Ret {St T A} (part : St → T) (put : T → St → St) (m : M T A) s a t :
  m (part s) = Ret a t → zoom part put m s = Ret a (put t s).
Proof. unfold zoom. by intros ->. Qed.

Lemma zoom_Throw {St T A} (part : St → T) (put : T → St → St) (m : M T A) s e t :
  m (part s) = Throw e t → zoom part put m s = Throw e (put t s).
Proof. unfold zoom. by intros ->. Qed.

Lemma massert_true {St B} (b : bool) (k : unit → M St B) s : b = true → (massert b ≫= k) s = k tt s.
Proof. by intros ->. Qed.

Lemma massert_Ret {St B} (b : bool) (k : unit → M St B) s a s' : (massert b ≫= k) s = Ret a s' → k tt s = Ret a s'.
Proof. by destruct b. Qed.

(** ** Machine integers *)

(** The value of a [w]-bit unsigned integer whose mathematical value is [z],
    and of a [w]-bit two's complement integer. *)
Definition wrap (w z : Z) : Z := (z mod 2 ^ w)%Z.
Definition swrap (w z : Z) : Z := (wrap w (z + 2 ^ (w - 1)) - 2 ^ (w - 1))%Z.

Abbreviation u8 := (wrap 8).
Abbreviation u16 := (wrap 16).
Abbreviation u32 := (wrap 32).
Abbreviation u64 := (wrap 64).
Abbreviation s32 := (swrap 32).
Abbreviation s64 := (swrap 64).

Definition in_u (w z : Z) : Prop := (0 ≤ z < 2 ^ w)%Z.
Definition in_s (w z : Z) : Prop := (- 2 ^ (w - 1) ≤ z < 2 ^ (w - 1))%Z.
#[export] Instance in_u_dec w z : Decision (in_u w z).
Proof. unfold in_u. apply _. Defined.
#[export] Instance in_s_dec w z : Decision (in_s w z).
Proof. unfold in_s. apply _. Defined.

(** Signed arithmetic that leaves the range of its type is undefined in C++;
    a compiler that is told to (gcc with [-fwrapv]) wraps around instead.  The
    development covers both: [wraps] says which of the two this build is. *)
Class OverflowMode := wraps : bool.

Definition sint {St} `{OverflowMode} (w z : Z) : M St Z :=
  if bool_decide (in_s w z) then mret z
  else if wraps then mret (swrap w z) else undef signed_overflow.

Section machine_ints.
Local Open Scope Z_scope.

Lemma wrap_range w z : 0 ≤ w → in_u w (wrap w z).
Proof. intros. apply Z.mod_pos_bound. lia. Qed.

Lemma wrap_small w z : in_u w z → wrap w z = z.
Proof. apply Z.mod_small. Qed.

Lemma swrap_small w z : 0 < w → in_s w z → swrap w z = z.
Proof.
  unfold in_s, swrap, wrap. intros Hw Hz.
  rewrite Z.mod_small; [lia|].
  replace (2 ^ w) with (2 * 2 ^ (w - 1)); [lia|].
  rewrite <- Z.pow_succ_r by lia. f_equal; lia.
Qed.

Lemma swrap_range w z : 0 < w → in_s w (swrap w z).
Proof.
  unfold in_s, swrap, wrap. intros Hw.
  pose proof (Z.mod_pos_bound (z + 2 ^ (w - 1)) (2 ^ w)).
  assert (2 ^ w = 2 * 2 ^ (w - 1)).
  { rewrite <- Z.pow_succ_r by lia. f_equal; lia. }
  lia.
Qed.

Lemma wrap_idemp w z : 0 ≤ w → wrap w (wrap w z) = wrap w z.
Proof. intros. by apply wrap_small, wrap_range. Qed.

Lemma swrap_wrap w z : 0 < w → swrap w (wrap w z) = swrap w z.
Proof.
  intros. unfold swrap, wrap. rewrite Zplus_mod_idemp_l. done.
Qed.

Lemma sint_spec {St} `{OverflowMode} w z (s : St) : 0 < w → wraps = true ∨ in_s w z →
  sint w z s = Ret (swrap w z) s.
Proof.
  intros Hw Hz. unfold sint. case_bool_decide.
  - by rewrite swrap_small.
  - destruct Hz as [->|]; done.
Qed.

Lemma in_u_s w z : in_u (w - 1) z → in_s w z.
Proof. unfold in_u, in_s. lia. Qed.

Lemma swrap_add_pow w z k : 0 < w → swrap w (z + k * 2 ^ w) = swrap w z.
Proof.
  intros. unfold swrap, wrap.
  replace (z + k * 2 ^ w + 2 ^ (w - 1)) with (z + 2 ^ (w - 1) + k * 2 ^ w) by lia.
  by rewrite Z_mod_plus_full.
Qed.

(** A [w]-bit integer has no bit from [w] on. *)
Lemma testbit_above w a i : in_u w a → w ≤ i → Z.testbit a i = false.
Proof.
  intros Ha Hi. destruct (decide (a = 0)) as [->|]; [apply Z.testbit_0_l|].
  unfold in_u in Ha. destruct (decide (0 ≤ w)); [|rewrite Z.pow_neg_r in Ha by lia; lia].
  apply Z.bits_above_log2; [lia|].
  apply Z.lt_le_trans with w; [apply Z.log2_lt_pow2; lia|lia].
Qed.

(** Exclusive or with a mask of ones is complement. *)
Lemma lxor_ones w a : 0 ≤ w → in_u w a → Z.lxor a (2 ^ w - 1) = 2 ^ w - 1 - a.
Proof.
  intros Hw Ha.
  assert (2 ^ w - 1 = Z.ones w) as -> by (rewrite Z.ones_equiv; lia).
  rewrite Z.sub_nocarry_ldiff; apply Z.bits_inj'; intros i Hi.
  - rewrite Z.lxor_spec, Z.ldiff_spec, Z.testbit_ones_nonneg by lia.
    destruct (Z.ltb_spec i w); [by destruct (Z.testbit a i)|].
    by rewrite (testbit_above w a).
  - rewrite Z.ldiff_spec, Z.testbit_0_l, Z.testbit_ones_nonneg by lia.
    destruct (Z.ltb_spec i w); simpl; [by rewrite andb_false_r|].
    by rewrite (testbit_above w a).
Qed.

(** Disjoint bits add. *)
Lemma lor_shiftl_add a b i : 0 ≤ i → in_u i a → Z.lor a (Z.shiftl b i) = a + b * 2 ^ i.
Proof.
  intros Hi Ha. rewrite <- Z.shiftl_mul_pow2 by done.
  assert (Z.land a (Z.shiftl b i) = 0) as Hland.
  { apply Z.bits_inj'. intros k Hk. rewrite Z.land_spec, Z.testbit_0_l.
    destruct (decide (k < i)); [rewrite Z.shiftl_spec_low by lia; by rewrite andb_false_r|].
    by rewrite (testbit_above i a) by (done || lia). }
  by rewrite <- Z.lxor_lor, <- Z.add_nocarry_lxor.
Qed.

Lemma wrap_swrap w z : 0 < w → wrap w (swrap w z) = wrap w z.
Proof.
  intros. unfold swrap, wrap. rewrite Zminus_mod_idemp_l. f_equal; lia.
Qed.
End machine_ints.

(** ** Bytes *)

Abbreviation bytes := (list byte).

#[export] Instance byte_eq_dec : EqDecision Init.Byte.byte := Byte.byte_eq_dec.
#[export] Instance byte_countable : countable.Countable Init.Byte.byte.
Proof.
  refine (countable.inj_countable byte.unsigned (λ z, Some (byte.of_Z z)) _). intros b. by rewrite byte.of_Z_unsigned.
Defined.

(** The bytes of a string literal. *)
Definition bs (s : String.string) : bytes := String.list_byte_of_string s.
Arguments bs s%_string.

(** The value of a byte as [unsigned char], and as [signed char]. *)
Abbreviation uchar := byte.unsigned.
Definition schar (b : byte) : Z := swrap 8 (uchar b).

Lemma uchar_range b : (0 ≤ uchar b < 256)%Z.
Proof. apply byte.unsigned_range. Qed.

Lemma uchar_of_Z z : uchar (byte.of_Z z) = u8 z.
Proof. apply byte.unsigned_of_Z. Qed.

(** ** Little-endian object representation *)

(** [bswap n v]: the [n]-byte integer whose bytes are those of [v] reversed. *)
Definition bswap (n : nat) (v : Z) : Z := le_combine (rev (le_split n v)).

Lemma bswap_split n v : le_split n (bswap n v) = rev (le_split n v).
Proof.
  unfold bswap. rewrite <- (split_le_combine (rev (le_split n v))) at 2.
  by rewrite length_rev, length_le_split.
Qed.

Lemma le_split_wrap n v : le_split n (wrap (8 * Z.of_nat n) v) = le_split n v.
Proof. unfold wrap. rewrite Z.mul_comm. symmetry. apply le_split_mod. Qed.

Lemma le_combine_split_wrap n v : le_combine (le_split n v) = wrap (8 * Z.of_nat n) v.
Proof. rewrite le_combine_split. unfold wrap. do 2 f_equal. lia. Qed.

Lemma bswap_bswap n v : bswap n (bswap n v) = wrap (8 * Z.of_nat n) v.
Proof.
  unfold bswap at 1. rewrite bswap_split, rev_involutive.
  apply le_combine_split_wrap.
Qed.

(** ** Overwriting a slice of a list *)

(** [splice p d l]: [l] with the elements from [p] on overwritten by [d], as
    [memcpy(l + p, d, |d|)] leaves it. *)
Definition splice {A} (p : nat) (d l : list A) : list A :=
  take p l ++ d ++ drop (p + length d) l.

Definition slice {A} (p n : nat) (l : list A) : list A := take n (drop p l).

Section splice.
Context {A : Type}.
Implicit Types (d l : list A) (p n : nat).

Lemma length_splice p d l : p + length d ≤ length l → length (splice p d l) = length l.
Proof. intros. unfold splice. rewrite !length_app, length_take, length_drop. lia. Qed.

Lemma lookup_splice p d l k : p + length d ≤ length l →
  splice p d l !! k = if decide (p ≤ k < p + length d) then d !! (k - p) else l !! k.
Proof.
  intros Hle. unfold splice.
  assert (length (take p l) = p) as Htk by (rewrite length_take; lia).
  destruct (decide (k < p)).
  { rewrite decide_False by lia. rewrite lookup_app_l by lia.
    by apply lookup_take_lt. }
  rewrite lookup_app_r, Htk by lia.
  destruct (decide (k < p + length d)).
  { rewrite decide_True by lia. by rewrite lookup_app_l by lia. }
  rewrite decide_False, lookup_app_r, lookup_drop by lia. f_equal; lia.
Qed.

Lemma splice_nil p l : p ≤ length l → splice p [] l = l.
Proof. intros. unfold splice. simpl. rewrite Nat.add_0_r. apply take_drop. Qed.

(** Two adjacent writes are one. *)
Lemma splice_splice p d1 d2 l : p ≤ length l →
  splice (p + length d1) d2 (splice p d1 l) = splice p (d1 ++ d2) l.
Proof.
  intros Hle. unfold splice.
  assert (length (take p l) = p) as Htk by (rewrite length_take; lia).
  rewrite (app_assoc (take p l) d1), take_app_length' by (rewrite length_app; lia).
  rewrite <- drop_drop, drop_app_length' by (rewrite length_app; lia).
  rewrite drop_drop, length_app, <- !app_assoc, Nat.add_assoc. done.
Qed.

Lemma length_slice p n l : p + n ≤ length l → length (slice p n l) = n.
Proof. intros. unfold slice. rewrite length_take, length_drop. lia. Qed.

Lemma lookup_slice p n l k : k < n → slice p n l !! k = l !! (p + k).
Proof. intros. unfold slice. rewrite lookup_take_lt by done. apply lookup_drop. Qed.

Lemma slice_app p n m l : slice p n l ++ slice (p + n) m l = slice p (n + m) l.
Proof.
  unfold slice. rewrite <- drop_drop.
  rewrite <- (take_drop n (take (n + m) (drop p l))).
  rewrite take_take, skipn_firstn_comm.
  do 2 f_equal; [lia|f_equal; lia].
Qed.

Lemma slice_0 p l : slice p 0 l = [].
Proof. done. Qed.

Lemma slice_all l : slice 0 (length l) l = l.
Proof. unfold slice. by rewrite drop_0, firstn_all. Qed.

(** Reading back what was just written. *)
Lemma slice_splice p d l : p + length d ≤ length l →
  slice p (length d) (splice p d l) = d.
Proof.
  intros. unfold slice, splice.
  assert (length (take p l) = p) as Htk by (rewrite length_take; lia).
  rewrite drop_app_length' by done. by rewrite take_app_length.
Qed.
End splice.

(** ** Differences of [size_t] values *)

(** [a - b] on [size_t]: the value wraps around when [b] is the larger. *)
Definition sz_sub (a b : nat) : Z :=
  if b <=? a then Z.of_nat (a - b) else (2 ^ 64 - Z.of_nat (b - a))%Z.

Lemma sz_sub_le a b : b ≤ a → sz_sub a b = Z.of_nat (a - b).
Proof. intros. unfold sz_sub. by rewrite (proj2 (Nat.leb_le b a)). Qed.

(** Dereferencing a pointer that may be null. *)
Definition deref {St A} (o : option A) : M St A :=
  match o with Some a => mret a | None => undef null_deref end.

(** [memcpy] into the block [dst] at [off], and out of it: [None] when the
    access leaves the block. *)
Definition memcpy_to (dst : bytes) (off : nat) (src : bytes) : option bytes :=
  if off + length src <=? length dst then Some (splice off src dst) else None.
Definition memcpy_from (src : bytes) (off n : nat) : option bytes :=
  if off + n <=? length src then Some (slice off n src) else None.

Lemma memcpy_to_Some dst off src :
  off + length src ≤ length dst → memcpy_to dst off src = Some (splice off src dst).
Proof. intros. unfold memcpy_to. by rewrite (proj2 (Nat.leb_le _ _)). Qed.

Lemma memcpy_from_Some src off n :
  off + n ≤ length src → memcpy_from src off n = Some (slice off n src).
Proof. intros. unfold memcpy_from. by rewrite (proj2 (Nat.leb_le _ _)). Qed.

(** Overwriting a prefix-delimited part of a list, then cutting it at the new end. *)
Lemma take_splice_app {A} (p s : nat) (d l junk : list A) :
  p ≤ s → s ≤ length l → p + length d ≤ length (l ++ junk) →
  take (s `max` (p + length d)) (splice p d (l ++ junk)) = splice p d (take s l).
Proof.
  rewrite length_app. intros Hp Hs Hd. apply list_eq. intros k.
  assert (length (splice p d (take s l)) = s `max` (p + length d)) as Hlen.
  { unfold splice. rewrite !length_app, length_take, length_drop, length_take. lia. }
  destruct (decide (k < s `max` (p + length d))).
  2:{ rewrite !lookup_ge_None_2; [done|lia|]. rewrite length_take. lia. }
  rewrite lookup_take_lt by done. unfold splice.
  assert (length (take p (l ++ junk)) = p) by (rewrite length_take, length_app; lia).
  assert (length (take p (take s l)) = p) by (rewrite !length_take; lia).
  destruct (decide (k < p)).
  { rewrite !lookup_app_l by lia. rewrite !lookup_take_lt by lia.
    by rewrite lookup_app_l by lia. }
  rewrite !(lookup_app_r (take p _)) by lia.
  destruct (decide (k < p + length d)).
  { rewrite !lookup_app_l by lia. f_equal. lia. }
  rewrite !(lookup_app_r d) by lia.
  rewrite !lookup_drop. rewrite lookup_take_lt, lookup_app_l by lia.
  f_equal. lia.
Qed.

Lemma slice_take {A} (p n s : nat) (l : list A) : p + n ≤ s → slice p n (take s l) = slice p n l.
Proof.
  intros. unfold slice. rewrite skipn_firstn_comm, take_take. f_equal. lia.
Qed.

(** [tmp[i++] = b] on an array of [cap] bytes that holds [tmp] so far. *)
Definition push {St} (cap : nat) (tmp : bytes) (b : Z) : M St bytes :=
  if length tmp <? cap then mret (tmp ++ [byte.of_Z b]) else undef out_of_bounds.

Lemma push_spec {St} cap tmp b (s : St) :
  length tmp < cap → push cap tmp b s = Ret (tmp ++ [byte.of_Z b]) s.
Proof. intros. unfold push. by rewrite (proj2 (Nat.ltb_lt _ _)). Qed.

(** *** Bits as arithmetic *)

Lemma land_ones_mod (a w : Z) : (0 ≤ w)%Z → Z.land a (2 ^ w - 1) = (a mod 2 ^ w)%Z.
Proof.
  intros. rewrite <- Z.land_ones by done. by rewrite Z.ones_equiv, Z.sub_1_r.
Qed.

(** Shifting in the next [w]-bit digit. *)
Lemma lor_shift_in (p c w : Z) : (0 ≤ w)%Z → in_u w c → Z.lor (Z.shiftl p w) c = (p * 2 ^ w + c)%Z.
Proof. intros. rewrite Z.lor_comm, lor_shiftl_add by done. lia. Qed.

Lemma of_uchar_mod b z : (z mod 256)%Z = uchar b → byte.of_Z z = b.
Proof.
  intros Hz. rewrite <- (byte.of_Z_unsigned b), <- Hz. apply byte.unsigned_inj.
  rewrite !byte.unsigned_of_Z. unfold byte.wrap. by rewrite Z.mod_mod.
Qed.
