(* ===== verification/ByteBuffer.v ===== *)
(** * The interface of a byte buffer

    What the typed readers and writers of [server_frame/bytearray.cc] rely on:
    a growing sequence of bytes with a cursor.  [ByteArray.v] implements it with
    a chain of memory blocks; [ByteCodec.v] uses nothing but it. *)
From S2P Require Import Prelude.

(** [YGW_LITTLE_ENDIAN] and [YGW_BIG_ENDIAN] of [endian.h]. *)
Inductive Endian := YGW_LITTLE_ENDIAN | YGW_BIG_ENDIAN.
#[export] Instance Endian_eq_dec : EqDecision Endian.
Proof. solve_decision. Defined.

(** The abstract buffer: the bytes held, and a cursor into them. *)
Record Buf := mkBuf { content : bytes; cursor : nat }.

(** What writing, advancing and the unread rest mean. *)
Definition abs_write (d : bytes) (b : Buf) : Buf :=
  mkBuf (splice (cursor b) d (content b)) (cursor b + length d).
Definition abs_advance (n : nat) (b : Buf) : Buf := mkBuf (content b) (cursor b + n).
Definition abs_left (b : Buf) : bytes := drop (cursor b) (content b).

(** The operations of a buffer of type [B], and the view that specifies them. *)
Class BufferOps (B : Type) := {
  buf_write : bytes → M B unit;
  buf_read : nat → M B bytes;
  buf_seek : nat → M B unit;
  buf_endian : B → Endian;
  buf_ok : B → Prop;
  buf_view : B → Buf;
  buf_capacity : B → nat
}.

Class ByteBuffer (B : Type) `{BufferOps B} := {
  buf_cursor_le b : buf_ok b → cursor (buf_view b) ≤ length (content (buf_view b));
  buf_content_le b : buf_ok b → length (content (buf_view b)) ≤ buf_capacity b;
  buf_write_law d b : buf_ok b → ∃ b', buf_write d b = Ret tt b' ∧ buf_ok b' ∧
    buf_view b' = abs_write d (buf_view b) ∧ buf_endian b' = buf_endian b;
  (* a read of no bytes needs room after the cursor *)
  buf_read_law n b : buf_ok b → n ≤ length (abs_left (buf_view b)) →
    0 < n ∨ cursor (buf_view b) < buf_capacity b →
    ∃ b', buf_read n b = Ret (take n (abs_left (buf_view b))) b' ∧ buf_ok b' ∧
      buf_view b' = abs_advance n (buf_view b) ∧ buf_endian b' = buf_endian b ∧
      buf_capacity b' = buf_capacity b;
  buf_read_short n b : buf_ok b → length (abs_left (buf_view b)) < n →
    buf_read n b = Throw out_of_range b;
  buf_seek_law v b : buf_ok b → v ≤ length (content (buf_view b)) →
    ∃ b', buf_seek v b = Ret tt b' ∧ buf_ok b' ∧
      buf_view b' = mkBuf (content (buf_view b)) v ∧ buf_endian b' = buf_endian b ∧
      buf_capacity b' = buf_capacity b
}.

(** ** The abstract buffer *)

Lemma abs_write_app d1 d2 b : cursor b ≤ length (content b) →
  abs_write d2 (abs_write d1 b) = abs_write (d1 ++ d2) b.
Proof.
  intros Hb. unfold abs_write. simpl. rewrite splice_splice, length_app by done.
  f_equal. lia.
Qed.

Lemma abs_write_nil b : cursor b ≤ length (content b) → abs_write [] b = b.
Proof.
  intros. destruct b. unfold abs_write. simpl in *. by rewrite splice_nil, Nat.add_0_r.
Qed.

Lemma abs_advance_add n m b : abs_advance m (abs_advance n b) = abs_advance (n + m) b.
Proof. unfold abs_advance. simpl. f_equal. lia. Qed.

Lemma abs_left_advance n b : abs_left (abs_advance n b) = drop n (abs_left b).
Proof. unfold abs_left. simpl. by rewrite drop_drop. Qed.

Lemma length_abs_left b : length (abs_left b) = length (content b) - cursor b.
Proof. apply length_drop. Qed.

(** What was written is what is left to read from where it was written. *)
Lemma abs_left_write d b : cursor b ≤ length (content b) →
  abs_left (mkBuf (content (abs_write d b)) (cursor b))
  = d ++ drop (length d) (abs_left b).
Proof.
  intros. unfold abs_left, abs_write, splice. simpl.
  rewrite drop_app_length' by (rewrite length_take; lia). by rewrite drop_drop.
Qed.
