(* ===== verification/ByteArray.v ===== *)
(** * The segmented byte buffer of [server_frame/bytearray.cc] *)
From S2P Require Import Prelude ByteBuffer.
From Stdlib Require Import ZArith Lia.

(** ** Data *)

(** [ByteArray::Node]: a memory block and its size.  The [next] pointers are
    the order of the list of nodes. *)
Record Node := mkNode { ptr : bytes; nsize : nat }.

(** The blocks hanging from [root_] are the list [root_], never empty.  [cur_]
    is the index of the current block; the index one past the last block is
    the null pointer that the last block's [next] holds. *)
Record ByteArray := mkByteArray {
  base_size_ : nat;
  position_ : nat;
  capacity_ : nat;
  size_ : nat;
  root_ : list Node;
  cur_ : nat;
  endian_ : Endian
}.

Definition set_position_ p ba := mkByteArray (base_size_ ba) p (capacity_ ba)
  (size_ ba) (root_ ba) (cur_ ba) (endian_ ba).
Definition set_capacity_ c ba := mkByteArray (base_size_ ba) (position_ ba) c
  (size_ ba) (root_ ba) (cur_ ba) (endian_ ba).
Definition set_size_ s ba := mkByteArray (base_size_ ba) (position_ ba) (capacity_ ba)
  s (root_ ba) (cur_ ba) (endian_ ba).
Definition set_root_ r ba := mkByteArray (base_size_ ba) (position_ ba) (capacity_ ba)
  (size_ ba) r (cur_ ba) (endian_ ba).
Definition set_cur_ c ba := mkByteArray (base_size_ ba) (position_ ba) (capacity_ ba)
  (size_ ba) (root_ ba) c (endian_ ba).
Definition set_endian_ e ba := mkByteArray (base_size_ ba) (position_ ba) (capacity_ ba)
  (size_ ba) (root_ ba) (cur_ ba) e.

Arguments set_position_ _ !_ /.
Arguments set_capacity_ _ !_ /.
Arguments set_size_ _ !_ /.
Arguments set_root_ _ !_ /.
Arguments set_cur_ _ !_ /.
Arguments set_endian_ _ !_ /.

(** The bytes [new char[s]] returns are not initialised: [raw k i] is whatever
    byte [i] of the [k]-th block of a chain happens to hold. *)
Class RawMemory := raw : nat → nat → byte.

(** ** Operations *)

Section operations.
Context `{RawMemory}.

Definition new_Node (k s : nat) : Node := mkNode (map (raw k) (seq 0 s)) s.

Definition new_ByteArray (base_size : nat) : ByteArray :=
  mkByteArray base_size 0 base_size 0 [new_Node 0 base_size] 0 YGW_BIG_ENDIAN.

Definition IsLittleEndian (ba : ByteArray) : bool :=
  bool_decide (endian_ ba = YGW_LITTLE_ENDIAN).

Definition SetIsLittleEndian (val : bool) (ba : ByteArray) : ByteArray :=
  if val then set_endian_ YGW_LITTLE_ENDIAN ba else set_endian_ YGW_BIG_ENDIAN ba.

Definition GetPosition (ba : ByteArray) : nat := position_ ba.
Definition GetBaseSize (ba : ByteArray) : nat := base_size_ ba.
Definition GetSize (ba : ByteArray) : nat := size_ ba.
Definition GetReadSize (ba : ByteArray) : Z := sz_sub (size_ ba) (position_ ba).
Definition GetCapacity (ba : ByteArray) : Z := sz_sub (capacity_ ba) (position_ ba).

(** [position % base_size_]: a division by zero when the base size is 0. *)
Definition mod_base {St} (position : nat) (ba : ByteArray) : M St nat :=
  if base_size_ ba =? 0 then undef div_by_zero else mret (position mod base_size_ ba).

(** [*cur] for the block number [cur]. *)
Definition node_at {St} (ba : ByteArray) (cur : nat) : M St Node := deref (root_ ba !! cur).

Definition Clear (ba : ByteArray) : ByteArray :=
  mkByteArray (base_size_ ba) 0 (base_size_ ba) 0 (take 1 (root_ ba)) 0 (endian_ ba).

(** [ceil(1.0 * size / base_size)]. *)
Definition block_count (size base_size : nat) : nat := (size + base_size - 1) / base_size.

(** The blocks appended by the [for] loop after [length ns] existing ones. *)
Definition append_nodes (base count : nat) (ns : list Node) : list Node :=
  ns ++ map (λ k, new_Node k base) (seq (length ns) count).

Definition AddCapacity (size : nat) : M ByteArray unit := λ ba,
  if size =? 0 then Ret tt ba else
  let old_cap := GetCapacity ba in
  if (Z.of_nat size <=? old_cap)%Z then Ret tt ba else
  if base_size_ ba =? 0 then Undef div_by_zero else
  let size := size - Z.to_nat old_cap in
  let count := block_count size (base_size_ ba) in
  let first := length (root_ ba) in
  let ba' := set_capacity_ (capacity_ ba + count * base_size_ ba)
               (set_root_ (append_nodes (base_size_ ba) count (root_ ba)) ba) in
  Ret tt (if (old_cap =? 0)%Z then set_cur_ first ba' else ba').

(** The [while (size > 0)] loop of [Write]. *)
Fixpoint Write_loop (fuel : nat) (buf : bytes) (bpos size npos ncap : nat) :
    M ByteArray unit := λ ba,
  if size =? 0 then Ret tt ba else
  match fuel with
  | O => NoFuel
  | S fuel =>
    match root_ ba !! cur_ ba with
    | None => Undef null_deref
    | Some cur =>
      if size <=? ncap then
        match memcpy_to (ptr cur) npos (slice bpos size buf) with
        | None => Undef out_of_bounds
        | Some p =>
          let ba1 := set_root_ (<[cur_ ba := mkNode p (nsize cur)]> (root_ ba)) ba in
          let ba2 := if nsize cur =? npos + size then set_cur_ (S (cur_ ba1)) ba1 else ba1 in
          Write_loop fuel buf (bpos + size) 0 npos ncap
            (set_position_ (position_ ba2 + size) ba2)
        end
      else
        match memcpy_to (ptr cur) npos (slice bpos ncap buf) with
        | None => Undef out_of_bounds
        | Some p =>
          let ba1 := set_root_ (<[cur_ ba := mkNode p (nsize cur)]> (root_ ba)) ba in
          let ba2 := set_cur_ (S (cur_ ba1)) (set_position_ (position_ ba1 + ncap) ba1) in
          match root_ ba2 !! cur_ ba2 with
          | None => Undef null_deref
          | Some next => Write_loop fuel buf (bpos + ncap) (size - ncap) 0 (nsize next) ba2
          end
        end
    end
  end.

Definition grow_size : M ByteArray unit :=
  modify (λ ba, if size_ ba <? position_ ba then set_size_ (position_ ba) ba else ba).

(** [Write(buf, size)], [size] being the length of [buf]. *)
Definition Write (buf : bytes) : M ByteArray unit :=
  let size := length buf in
  if size =? 0 then mret tt else
  AddCapacity size ;;
  ba ← get;
  npos ← mod_base (position_ ba) ba;
  cur ← node_at ba (cur_ ba);
  Write_loop (S (length (root_ ba))) buf 0 size npos (nsize cur - npos) ;;
  grow_size.

(** The [while (size > 0)] loop of [Read]: the bytes copied to the caller. *)
Fixpoint Read_loop (fuel : nat) (size npos ncap : nat) : M ByteArray bytes := λ ba,
  if size =? 0 then Ret [] ba else
  match fuel with
  | O => NoFuel
  | S fuel =>
    match root_ ba !! cur_ ba with
    | None => Undef null_deref
    | Some cur =>
      if size <=? ncap then
        match memcpy_from (ptr cur) npos size with
        | None => Undef out_of_bounds
        | Some d =>
          let ba1 := if nsize cur =? npos + size then set_cur_ (S (cur_ ba)) ba else ba in
          (app d <$> Read_loop fuel 0 npos ncap)
            (set_position_ (position_ ba1 + size) ba1)
        end
      else
        match memcpy_from (ptr cur) npos ncap with
        | None => Undef out_of_bounds
        | Some d =>
          let ba1 := set_cur_ (S (cur_ ba)) (set_position_ (position_ ba + ncap) ba) in
          match root_ ba1 !! cur_ ba1 with
          | None => Undef null_deref
          | Some next => (app d <$> Read_loop fuel (size - ncap) 0 (nsize next)) ba1
          end
        end
    end
  end.

(** [Read(buf, size)]: the [size] bytes stored to [buf]. *)
Definition Read (size : nat) : M ByteArray bytes :=
  ba ← get;
  if (GetReadSize ba <? Z.of_nat size)%Z then throw out_of_range else
  npos ← mod_base (position_ ba) ba;
  cur ← node_at ba (cur_ ba);
  Read_loop (S (length (root_ ba))) size npos (nsize cur - npos).
(** The [while (size > 0)] loop of the [const] overload of [Read]: [cur] is a
    local pointer, the object does not change. *)
Fixpoint Read_at_loop (fuel : nat) (cur size npos ncap : nat) : M ByteArray bytes := λ ba,
  if size =? 0 then Ret [] ba else
  match fuel with
  | O => NoFuel
  | S fuel =>
    match root_ ba !! cur with
    | None => Undef null_deref
    | Some node =>
      if size <=? ncap then
        match memcpy_from (ptr node) npos size with
        | None => Undef out_of_bounds
        | Some d =>
          let cur' := if nsize node =? npos + size then S cur else cur in
          (app d <$> Read_at_loop fuel cur' 0 npos ncap) ba
        end
      else
        match memcpy_from (ptr node) npos ncap with
        | None => Undef out_of_bounds
        | Some d =>
          match root_ ba !! S cur with
          | None => Undef null_deref
          | Some next => (app d <$> Read_at_loop fuel (S cur) (size - ncap) 0 (nsize next)) ba
          end
        end
    end
  end.

(** [Read(buf, size, position) const]. *)
Definition Read_at (size position : nat) : M ByteArray bytes :=
  ba ← get;
  if (sz_sub (size_ ba) position <? Z.of_nat size)%Z then throw out_of_range else
  npos ← mod_base position ba;
  cur ← node_at ba (cur_ ba);
  Read_at_loop (S (length (root_ ba))) (cur_ ba) size npos (nsize cur - npos).

(** The [while (v > cur_->size)] loop of [SetPosition] and the test after it. *)
Fixpoint seek_loop (fuel : nat) (v cur : nat) (ba : ByteArray) : result ByteArray nat :=
  match fuel with
  | O => NoFuel
  | S fuel =>
    match root_ ba !! cur with
    | None => Undef null_deref
    | Some node =>
      if nsize node <? v then seek_loop fuel (v - nsize node) (S cur) ba
      else Ret (if v =? nsize node then S cur else cur) ba
    end
  end.

Definition SetPosition (v : nat) : M ByteArray unit :=
  ba ← get;
  if capacity_ ba <? v then throw out_of_range else
  modify (set_position_ v) ;;
  grow_size ;;
  cur ← seek_loop (S (length (root_ ba))) v 0;
  modify (set_cur_ cur).

Definition ToString : M ByteArray bytes :=
  ba ← get;
  if (GetReadSize ba =? 0)%Z then mret [] else
  Read_at (Z.to_nat (GetReadSize ba)) (position_ ba).

(** The digits [std::hex] prints, in lower case. *)
Definition hex_digit (z : Z) : byte := byte.of_Z (if (z <? 10)%Z then z + 48 else z + 87)%Z.

(** [ss << std::setw(2) << std::setfill('0') << std::hex << (int)b << " "]. *)
Definition hex_byte (b : byte) : bytes :=
  [hex_digit (uchar b / 16); hex_digit (uchar b mod 16); byte.of_Z 32].

Definition ToHexString : M ByteArray bytes :=
  str ← ToString;
  mret (concat (imap (λ i b,
    (if (0 <? i) && (i mod 32 =? 0) then [byte.of_Z 10] else []) ++ hex_byte b) str)).

(** [struct iovec]: [iov_base] is [ptr + iov_off] of block [iov_node]. *)
Record iovec := mkIovec { iov_node : nat; iov_off : nat; iov_len : nat }.

(** The [while (len > 0)] loop the three buffer functions share. *)
Fixpoint iov_loop (fuel : nat) (cur len npos ncap : nat) (buffers : list iovec) :
    M ByteArray (list iovec) := λ ba,
  if len =? 0 then Ret buffers ba else
  match fuel with
  | O => NoFuel
  | S fuel =>
    match root_ ba !! cur with
    | None => Undef null_deref
    | Some _ =>
      if len <=? ncap then iov_loop fuel cur 0 npos ncap (buffers ++ [mkIovec cur npos len]) ba
      else
        match root_ ba !! S cur with
        | None => Undef null_deref
        | Some next =>
          iov_loop fuel (S cur) (len - ncap) 0 (nsize next) (buffers ++ [mkIovec cur npos ncap]) ba
        end
    end
  end.

(** [len > GetReadSize() ? GetReadSize() : len]. *)
Definition clamp_len (len : Z) (ba : ByteArray) : nat :=
  Z.to_nat (if (GetReadSize ba <? len)%Z then GetReadSize ba else len).

Definition GetReadBuffers (buffers : list iovec) (len : Z) : M ByteArray (list iovec * nat) :=
  ba ← get;
  let len := clamp_len len ba in
  if len =? 0 then mret (buffers, 0) else
  npos ← mod_base (position_ ba) ba;
  cur ← node_at ba (cur_ ba);
  bufs ← iov_loop (S (length (root_ ba))) (cur_ ba) len npos (nsize cur - npos) buffers;
  mret (bufs, len).

(** The overload with an explicit position: it walks [position / base_size_]
    blocks from [root_]. *)
Definition GetReadBuffers_at (buffers : list iovec) (len : Z) (position : nat) :
    M ByteArray (list iovec * nat) :=
  ba ← get;
  let len := clamp_len len ba in
  if len =? 0 then mret (buffers, 0) else
  npos ← mod_base position ba;
  let count := position / base_size_ ba in
  cur ← node_at ba count;
  bufs ← iov_loop (S (length (root_ ba))) count len npos (nsize cur - npos) buffers;
  mret (bufs, len).

Definition GetWriteBuffers (buffers : list iovec) (len : nat) : M ByteArray (list iovec * nat) :=
  if len =? 0 then mret (buffers, 0) else
  AddCapacity len ;;
  ba ← get;
  npos ← mod_base (position_ ba) ba;
  cur ← node_at ba (cur_ ba);
  bufs ← iov_loop (S (length (root_ ba))) (cur_ ba) len npos (nsize cur - npos) buffers;
  mret (bufs, len).

(** The [while (read_size > 0)] loop of [WriteToFile]: the bytes the stream
    receives.  A negative count breaks the precondition of [ostream::write]. *)
Fixpoint WriteToFile_loop (fuel : nat) (cur : nat) (read_size pos : Z) : M ByteArray bytes := λ ba,
  if (read_size <=? 0)%Z then Ret [] ba else
  match fuel with
  | O => NoFuel
  | S fuel =>
    let base := Z.of_nat (base_size_ ba) in
    let diff := (pos mod base)%Z in
    let len := ((if base <? read_size then base else read_size) - diff)%Z in
    match root_ ba !! cur with
    | None => Undef null_deref
    | Some node =>
      if (len <? 0)%Z then Undef out_of_bounds else
      match memcpy_from (ptr node) (Z.to_nat diff) (Z.to_nat len) with
      | None => Undef out_of_bounds
      | Some d => (app d <$> WriteToFile_loop fuel (S cur) (read_size - len) (pos + len)) ba
      end
    end
  end.

(** [opened]: whether the stream could be opened.  The result is [None] for
    [false], and the contents of the file for [true]. *)
Definition WriteToFile (opened : bool) : M ByteArray (option bytes) :=
  if negb opened then mret None else
  ba ← get;
  d ← WriteToFile_loop (S (length (root_ ba))) (cur_ ba) (GetReadSize ba) (Z.of_nat (position_ ba));
  mret (Some d).

(** The [while (!ifs.eof())] loop of [ReadFromFile] on a file holding [file]:
    a read that gets fewer than [base_size_] bytes reaches the end. *)
Fixpoint ReadFromFile_loop (fuel : nat) (file : bytes) : M ByteArray unit :=
  match fuel with
  | O => λ _, NoFuel
  | S fuel =>
    ba ← get;
    let chunk := take (base_size_ ba) file in
    Write chunk ;;
    if length chunk <? base_size_ ba then mret tt
    else ReadFromFile_loop fuel (drop (base_size_ ba) file)
  end.

(** [ReadFromFile] of a file that is absent ([None]) or holds some bytes. *)
Definition ReadFromFile (file : option bytes) : M ByteArray bool :=
  match file with
  | None => mret false
  | Some file => ReadFromFile_loop (S (length file)) file ;; mret true
  end.

End operations.

(** ** Traces of calls *)

(** The public operations that change the object, and those that look at it. *)
Inductive op :=
  | OWrite (d : bytes)
  | ORead (n : nat)
  | OSetPosition (v : nat)
  | OClear
  | OAddCapacity (n : nat)
  | OSetIsLittleEndian (val : bool)
  | OGetWriteBuffers (len : nat)
  | OReadFromFile (file : option bytes)
  | OReadAt (n position : nat)
  | OToString
  | OToHexString
  | OGetReadBuffers (len : nat)
  | OGetReadBuffersAt (len position : nat)
  | OWriteToFile (opened : bool).

Section traces.
Context `{RawMemory}.

Definition run_op (o : op) : M ByteArray unit :=
  match o with
  | OWrite d => Write d
  | ORead n => Read n ;; mret tt
  | OSetPosition v => SetPosition v
  | OClear => modify Clear
  | OAddCapacity n => AddCapacity n
  | OSetIsLittleEndian val => modify (SetIsLittleEndian val)
  | OGetWriteBuffers len => GetWriteBuffers [] len ;; mret tt
  | OReadFromFile file => ReadFromFile file ;; mret tt
  | OReadAt n position => Read_at n position ;; mret tt
  | OToString => ToString ;; mret tt
  | OToHexString => ToHexString ;; mret tt
  | OGetReadBuffers len => GetReadBuffers [] (Z.of_nat len) ;; mret tt
  | OGetReadBuffersAt len position => GetReadBuffers_at [] (Z.of_nat len) position ;; mret tt
  | OWriteToFile opened => WriteToFile opened ;; mret tt
  end.

(** The states an array of block size [base] can be in between calls; a call
    that throws leaves the state it throws from. *)
Inductive reachable (base : nat) : ByteArray → Prop :=
  | reachable_new : reachable base (new_ByteArray base)
  | reachable_ret o ba ba' : reachable base ba → run_op o ba = Ret tt ba' → reachable base ba'
  | reachable_throw o ba e ba' : reachable base ba → run_op o ba = Throw e ba' →
      reachable base ba'.
End traces.

(** ** The contents of a chain of blocks *)

(** Every block of the chain has the base size, and holds that many bytes. *)
Definition chain_ok (base : nat) (ns : list Node) : Prop :=
  Forall (λ n, nsize n = base ∧ length (ptr n) = base) ns.

(** The bytes of the chain, in address order. *)
Definition flat (ns : list Node) : bytes := concat (map ptr ns).

(** The class invariant. *)
Record wf (ba : ByteArray) : Prop := {
  wf_base : 0 < base_size_ ba;
  wf_root : root_ ba ≠ [];
  wf_chain : chain_ok (base_size_ ba) (root_ ba);
  wf_capacity : capacity_ ba = length (root_ ba) * base_size_ ba;
  wf_position : position_ ba ≤ size_ ba;
  wf_size : size_ ba ≤ capacity_ ba;
  wf_cur : cur_ ba = position_ ba / base_size_ ba
}.

(** The abstract buffer a byte array stands for: its first [size_] bytes. *)
Definition abs (ba : ByteArray) : Buf :=
  mkBuf (take (size_ ba) (flat (root_ ba))) (position_ ba).

Lemma chain_ok_lookup base ns i n :
  chain_ok base ns → ns !! i = Some n → nsize n = base ∧ length (ptr n) = base.
Proof. intros H Hi. by eapply Forall_lookup_1 in H. Qed.

Lemma chain_ok_insert base ns i p :
  chain_ok base ns → length p = base → chain_ok base (<[i := mkNode p base]> ns).
Proof. intros H ?. by apply Forall_insert. Qed.

Lemma length_flat base ns : chain_ok base ns → length (flat ns) = length ns * base.
Proof.
  unfold flat. induction 1 as [|n ns [_ Hn] _ IH]; simpl; [done|].
  rewrite length_app, IH. lia.
Qed.

Lemma div_mod_step base k : 0 < base ≤ k →
  k / base = S ((k - base) / base) ∧ k mod base = (k - base) mod base.
Proof.
  intros. assert (k = k - base + 1 * base) as Hk by lia. rewrite Hk at 1 3.
  rewrite Nat.div_add, Nat.Div0.mod_add by lia. lia.
Qed.

Lemma lookup_flat base ns k : 0 < base → chain_ok base ns →
  flat ns !! k = ns !! (k / base) ≫= λ n, ptr n !! (k mod base).
Proof.
  intros Hb Hc. revert k. unfold flat.
  induction Hc as [|n ns [_ Hn] _ IH]; intros k; [done|]. simpl.
  destruct (decide (k < base)).
  - rewrite Nat.div_small, Nat.mod_small by lia. simpl. by rewrite lookup_app_l by lia.
  - rewrite lookup_app_r by lia. rewrite Hn, IH.
    destruct (div_mod_step base k) as [-> ->]; [lia..|done].
Qed.

Lemma div_mod_cell base i off : off < base →
  (i * base + off) / base = i ∧ (i * base + off) mod base = off.
Proof.
  intros. rewrite Nat.add_comm, Nat.div_add, Nat.Div0.mod_add by lia.
  rewrite Nat.div_small, Nat.mod_small by lia. lia.
Qed.

(** Overwriting part of one block overwrites that part of the contents. *)
Lemma flat_insert base ns i n off d : chain_ok base ns → ns !! i = Some n →
  off + length d ≤ base →
  flat (<[i := mkNode (splice off d (ptr n)) (nsize n)]> ns)
  = splice (i * base + off) d (flat ns).
Proof.
  intros Hc Hi Hle. destruct (chain_ok_lookup _ _ _ _ Hc Hi) as [Hs Hl].
  assert (i < length ns) by (by eapply lookup_lt_Some).
  destruct (decide (base = 0)) as [->|].
  { destruct d; simpl in *; [|lia]. rewrite !splice_nil; try lia.
    destruct n; simpl in *. by rewrite list_insert_id. }
  assert (i * base + off + length d ≤ length (flat ns)).
  { rewrite (length_flat base) by done.
    assert (S i * base ≤ length ns * base) by (apply Nat.mul_le_mono_r; lia). lia. }
  apply list_eq. intros k. rewrite lookup_splice by done.
  rewrite !(lookup_flat base); try lia; try done.
  2:{ rewrite Hs. apply chain_ok_insert; [done|]. rewrite length_splice; lia. }
  pose proof (Nat.div_mod_eq k base) as Hk.
  pose proof (Nat.mod_upper_bound k base).
  destruct (decide (i = k / base)) as [->|Hne].
  - rewrite list_lookup_insert_eq by done. simpl. rewrite Hi. simpl.
    rewrite lookup_splice by lia.
    repeat case_decide; try lia; try done. f_equal. lia.
  - rewrite list_lookup_insert_ne by done. rewrite decide_False; [done|].
    intros [? ?]. apply Hne. apply Nat.div_unique with (k - i * base); lia.
Qed.

(** Reading part of one block reads that part of the contents. *)
Lemma slice_flat base ns i n off m : chain_ok base ns → ns !! i = Some n →
  off + m ≤ base → slice off m (ptr n) = slice (i * base + off) m (flat ns).
Proof.
  intros Hc Hi Hle. destruct (chain_ok_lookup _ _ _ _ Hc Hi) as [Hs Hl].
  assert (i < length ns) by (by eapply lookup_lt_Some).
  assert (i * base + off + m ≤ length (flat ns)).
  { rewrite (length_flat base) by done.
    assert (S i * base ≤ length ns * base) by (apply Nat.mul_le_mono_r; lia). lia. }
  apply list_eq. intros k. destruct (decide (k < m)).
  - rewrite !lookup_slice by done. rewrite (lookup_flat base) by (done || lia).
    rewrite <- Nat.add_assoc. destruct (div_mod_cell base i (off + k)) as [-> ->]; [lia|].
    by rewrite Hi.
  - rewrite !lookup_ge_None_2; try done; rewrite length_slice; lia.
Qed.

(** ** The loops, on a well-formed chain *)

Section loops.
Context `{RawMemory}.
Variable base : nat.
Hypothesis base_pos : 0 < base.

(** Position [p] is in block [p / base], which exists when [p] is below the
    capacity. *)
Lemma block_of_position (ns : list Node) p : p < length ns * base → is_Some (ns !! (p / base)).
Proof. intros. apply lookup_lt_is_Some. apply Nat.Div0.div_lt_upper_bound. lia. Qed.

Lemma next_position_same p m : p mod base + m < base → (p + m) / base = p / base.
Proof.
  intros. rewrite (Nat.div_mod_eq p base) at 1.
  rewrite Nat.mul_comm, <- Nat.add_assoc. apply div_mod_cell. lia.
Qed.

Lemma next_position_block p : (p + (base - p mod base)) / base = S (p / base) ∧
  (p + (base - p mod base)) mod base = 0.
Proof.
  pose proof (Nat.mod_upper_bound p base). pose proof (Nat.div_mod_eq p base).
  replace (p + (base - p mod base)) with (S (p / base) * base + 0) by lia.
  apply div_mod_cell. lia.
Qed.

Lemma next_position p m : p mod base + m ≤ base →
  (p + m) / base = if base =? p mod base + m then S (p / base) else p / base.
Proof.
  intros. destruct (Nat.eqb_spec base (p mod base + m)) as [E|E].
  - replace m with (base - p mod base) by lia. apply next_position_block.
  - apply next_position_same. lia.
Qed.

Lemma Write_loop_spec fuel : ∀ buf bpos size p c s ns e,
  chain_ok base ns → p + size ≤ length ns * base → bpos + size ≤ length buf →
  length ns < fuel + p / base → 0 < size →
  ∃ ns', Write_loop fuel buf bpos size (p mod base) (base - p mod base)
           (mkByteArray base p c s ns (p / base) e)
         = Ret tt (mkByteArray base (p + size) c s ns' ((p + size) / base) e) ∧
    chain_ok base ns' ∧ length ns' = length ns ∧
    flat ns' = splice p (slice bpos size buf) (flat ns).
Proof.
  induction fuel as [|fuel IH]; intros buf bpos size p c s ns e Hc Hp Hb Hf Hs.
  { exfalso. assert (p / base < length ns); [|lia].
    apply Nat.Div0.div_lt_upper_bound. lia. }
  destruct (block_of_position ns p) as [n Hn]; [lia|].
  destruct (chain_ok_lookup _ _ _ _ Hc Hn) as [Hsz Hlen].
  pose proof (Nat.mod_upper_bound p base). pose proof (Nat.div_mod_eq p base).
  pose proof (lookup_lt_Some _ _ _ Hn).
  simpl. rewrite (proj2 (Nat.eqb_neq size 0)) by lia. rewrite Hn.
  destruct (Nat.leb_spec size (base - p mod base)) as [Hle|Hgt].
  - rewrite memcpy_to_Some by (rewrite length_slice; lia).
    exists (<[p / base := mkNode (splice (p mod base) (slice bpos size buf) (ptr n)) (nsize n)]> ns).
    split_and!.
    + rewrite next_position by lia. rewrite Hsz.
      destruct fuel; simpl; by destruct (base =? p mod base + size).
    + rewrite Hsz. apply chain_ok_insert; [done|]. rewrite length_splice; rewrite ?length_slice; lia.
    + by rewrite length_insert.
    + erewrite flat_insert by (done || rewrite length_slice; lia). f_equal. lia.
  - rewrite memcpy_to_Some by (rewrite length_slice; lia). simpl.
    set (ns1 := <[p / base := _]> ns).
    assert (flat ns1 = splice p (slice bpos (base - p mod base) buf) (flat ns)) as Hflat.
    { unfold ns1. erewrite flat_insert by (done || rewrite length_slice; lia).
      f_equal. lia. }
    assert (chain_ok base ns1) as Hc1.
    { unfold ns1. rewrite Hsz. apply chain_ok_insert; [done|].
      rewrite length_splice; rewrite ?length_slice; lia. }
    assert (length ns1 = length ns) as Hl1 by (unfold ns1; by rewrite length_insert).
    destruct (next_position_block p) as [Hd Hm].
    destruct (block_of_position ns1 (p + (base - p mod base))) as [n' Hn']; [lia|].
    rewrite Hd in Hn'. rewrite Hn'.
    destruct (chain_ok_lookup _ _ _ _ Hc1 Hn') as [-> _].
    destruct (IH buf (bpos + (base - p mod base)) (size - (base - p mod base))
      (p + (base - p mod base)) c s ns1 e) as (ns' & Hrun & Hc' & Hl' & Hfl');
      try done; try lia.
    rewrite Hd, Hm, Nat.sub_0_r in Hrun.
    exists ns'. rewrite Hrun. split_and!; [|done|lia|].
    + do 2 f_equal; [lia|f_equal; lia].
    + rewrite Hfl', Hflat.
      replace (p + (base - p mod base))
        with (p + length (slice bpos (base - p mod base) buf)) by (rewrite length_slice; lia).
      rewrite splice_splice by (rewrite (length_flat base) by done; lia).
      f_equal. rewrite slice_app. f_equal. lia.
Qed.

Lemma Read_loop_spec fuel : ∀ size p c s ns e,
  chain_ok base ns → p + size ≤ length ns * base →
  length ns < fuel + p / base → 0 < size →
  Read_loop fuel size (p mod base) (base - p mod base)
    (mkByteArray base p c s ns (p / base) e)
  = Ret (slice p size (flat ns)) (mkByteArray base (p + size) c s ns ((p + size) / base) e).
Proof.
  induction fuel as [|fuel IH]; intros size p c s ns e Hc Hp Hf Hs.
  { exfalso. assert (p / base < length ns); [|lia].
    apply Nat.Div0.div_lt_upper_bound. lia. }
  destruct (block_of_position ns p) as [n Hn]; [lia|].
  destruct (chain_ok_lookup _ _ _ _ Hc Hn) as [Hsz Hlen].
  pose proof (Nat.mod_upper_bound p base). pose proof (Nat.div_mod_eq p base).
  simpl. rewrite (proj2 (Nat.eqb_neq size 0)) by lia. rewrite Hn.
  destruct (Nat.leb_spec size (base - p mod base)) as [Hle|Hgt].
  - rewrite memcpy_from_Some by lia.
    rewrite (slice_flat base ns (p / base)) by (done || lia).
    replace (p / base * base + p mod base) with p by lia.
    rewrite next_position by lia. rewrite Hsz.
    destruct fuel; destruct (base =? p mod base + size);
      unfold fmap, M_fmap, mbind, M_bind; simpl; by rewrite app_nil_r.
  - rewrite memcpy_from_Some by lia.
    rewrite (slice_flat base ns (p / base)) by (done || lia).
    replace (p / base * base + p mod base) with p by lia. simpl.
    destruct (next_position_block p) as [Hd Hm].
    destruct (block_of_position ns (p + (base - p mod base))) as [n' Hn']; [lia|].
    rewrite Hd in Hn'. rewrite Hn'.
    destruct (chain_ok_lookup _ _ _ _ Hc Hn') as [-> _].
    pose proof (IH (size - (base - p mod base)) (p + (base - p mod base)) c s ns e)
      as Hrun. rewrite Hd, Hm, Nat.sub_0_r in Hrun.
    unfold fmap, M_fmap. erewrite bind_Ret by (apply Hrun; done || lia).
    unfold mret, M_ret. rewrite slice_app. f_equal; [f_equal; lia|].
    f_equal; [lia|f_equal; lia].
Qed.
End loops.

(** ** The operations refine the abstract buffer *)

Section refinement.
Context `{RawMemory}.

Lemma new_Node_ok base k : nsize (new_Node k base) = base ∧ length (ptr (new_Node k base)) = base.
Proof. split; [done|]. simpl. by rewrite length_map, length_seq. Qed.

Lemma append_nodes_ok base count ns :
  chain_ok base ns → chain_ok base (append_nodes base count ns).
Proof.
  intros. apply Forall_app. split; [done|].
  apply Forall_forall. intros n [k [-> _]]%list_elem_of_fmap. apply new_Node_ok.
Qed.

Lemma length_append_nodes base count ns :
  length (append_nodes base count ns) = length ns + count.
Proof. unfold append_nodes. by rewrite length_app, length_map, length_seq. Qed.

Lemma flat_app ns1 ns2 : flat (ns1 ++ ns2) = flat ns1 ++ flat ns2.
Proof. unfold flat. by rewrite map_app, concat_app. Qed.

(** The blocks added are enough. *)
Lemma block_count_enough size base : 0 < base → size ≤ block_count size base * base.
Proof.
  intros. unfold block_count.
  pose proof (Nat.div_mod_eq (size + base - 1) base).
  pose proof (Nat.mod_upper_bound (size + base - 1) base). lia.
Qed.

Lemma wf_new base : 0 < base → wf (new_ByteArray base).
Proof.
  intros. constructor; simpl; try lia; [done| |].
  - constructor; [apply new_Node_ok|constructor].
  - by rewrite Nat.Div0.div_0_l.
Qed.

Lemma wf_length ba : wf ba → length (flat (root_ ba)) = capacity_ ba.
Proof. intros []. rewrite (length_flat (base_size_ ba)); [lia|done]. Qed.

Lemma length_content ba : wf ba → length (content (abs ba)) = size_ ba.
Proof. intros Hwf. simpl. rewrite length_take, wf_length by done. destruct Hwf. lia. Qed.

(** [AddCapacity] makes room for [size] more bytes and changes nothing else. *)
Lemma AddCapacity_spec size ba : wf ba → ∃ ba' junk,
  AddCapacity size ba = Ret tt ba' ∧ wf ba' ∧
  position_ ba + size ≤ capacity_ ba' ∧ flat (root_ ba') = flat (root_ ba) ++ junk ∧
  base_size_ ba' = base_size_ ba ∧ position_ ba' = position_ ba ∧
  size_ ba' = size_ ba ∧ endian_ ba' = endian_ ba.
Proof.
  intros [Hb Hne Hc Hcap Hpos Hsz Hcur]. unfold AddCapacity, GetCapacity.
  destruct (Nat.eqb_spec size 0) as [->|].
  { exists ba, []. rewrite app_nil_r. split_and!; try done; lia. }
  rewrite sz_sub_le by lia.
  destruct (Z.leb_spec (Z.of_nat size) (Z.of_nat (capacity_ ba - position_ ba))).
  { exists ba, []. rewrite app_nil_r. split_and!; try done; lia. }
  rewrite (proj2 (Nat.eqb_neq _ 0)) by lia. rewrite Nat2Z.id.
  set (count := block_count _ _).
  pose proof (block_count_enough (size - (capacity_ ba - position_ ba)) (base_size_ ba) Hb)
    as Hcnt. fold count in Hcnt.
  assert (wf (mkByteArray (base_size_ ba) (position_ ba)
    (capacity_ ba + count * base_size_ ba) (size_ ba)
    (append_nodes (base_size_ ba) count (root_ ba))
    (position_ ba / base_size_ ba) (endian_ ba))) as Hwf.
  { constructor; simpl; try lia; try done.
    - unfold append_nodes. by destruct (root_ ba).
    - by apply append_nodes_ok.
    - rewrite length_append_nodes. lia. }
  eexists _, (flat (drop (length (root_ ba)) (append_nodes (base_size_ ba) count (root_ ba)))).
  split; [|split; [exact Hwf|]].
  - f_equal. destruct ba as [base p cap s ns cu e]; simpl in *. subst.
    destruct (Z.eqb_spec (Z.of_nat (length ns * base - p)) 0); [|done].
    assert (length ns = p / base) as ->; [|done].
    apply Nat.div_unique with 0; lia.
  - simpl. split_and!; try done; [lia|]. rewrite <- flat_app. f_equal.
    unfold append_nodes. by rewrite drop_app_length.
Qed.

Lemma mod_base_ok {St} p ba (s : St) : wf ba →
  mod_base p ba s = Ret (p mod base_size_ ba) s.
Proof. intros []. unfold mod_base. by rewrite (proj2 (Nat.eqb_neq _ 0)) by lia. Qed.

(** The current block, when the position is below the capacity. *)
Lemma node_at_cur {St} ba (s : St) : wf ba → position_ ba < capacity_ ba →
  ∃ n, node_at ba (cur_ ba) s = Ret n s ∧ nsize n = base_size_ ba.
Proof.
  intros [] ?. destruct (block_of_position (base_size_ ba) wf_base0 (root_ ba) (position_ ba))
    as [n Hn]; [lia|]. unfold node_at. rewrite wf_cur0, Hn.
  exists n. split; [done|]. by eapply chain_ok_lookup.
Qed.

Lemma Write_spec d ba : wf ba → ∃ ba',
  Write d ba = Ret tt ba' ∧ wf ba' ∧ abs ba' = abs_write d (abs ba) ∧
  base_size_ ba' = base_size_ ba ∧ endian_ ba' = endian_ ba.
Proof.
  intros Hwf. unfold Write. destruct (Nat.eqb_spec (length d) 0) as [Hd|Hd].
  { exists ba. apply nil_length_inv in Hd as ->. split_and!; try done.
    unfold abs_write, abs. simpl. rewrite splice_nil, Nat.add_0_r; [done|].
    pose proof (length_content ba Hwf). destruct Hwf. simpl in *. lia. }
  destruct (AddCapacity_spec (length d) ba Hwf)
    as (ba1 & junk & Hrun & Hwf1 & Hcap & Hflat & Hbase & Hpos & Hsize & Hend).
  rewrite (bind_Ret _ _ _ _ _ Hrun). rewrite (bind_Ret get _ _ ba1 ba1) by done.
  rewrite (bind_Ret _ _ _ _ _ (mod_base_ok _ _ _ Hwf1)).
  destruct (node_at_cur ba1 ba1 Hwf1) as (n & Hn & Hns); [lia|].
  rewrite (bind_Ret _ _ _ _ _ Hn), Hns.
  destruct ba1 as [base p c s ns cu e]; simpl in *. subst s e base p.
  destruct Hwf1 as [Hb Hne Hc Hcap1 Hp1 Hs1 Hcu1]; simpl in *. subst cu.
  destruct (Write_loop_spec (base_size_ ba) Hb (S (length ns)) d 0 (length d)
    (position_ ba) c (size_ ba) ns (endian_ ba)) as (ns' & Hloop & Hc' & Hl' & Hf');
    try done; try lia.
  rewrite (bind_Ret _ _ _ _ _ Hloop). rewrite slice_all in Hf'.
  unfold grow_size, modify. simpl. eexists. split; [done|].
  assert (∀ ba', ba' = (if size_ ba <? position_ ba + length d
     then mkByteArray (base_size_ ba) (position_ ba + length d) c (position_ ba + length d) ns'
            ((position_ ba + length d) / base_size_ ba) (endian_ ba)
     else mkByteArray (base_size_ ba) (position_ ba + length d) c (size_ ba) ns'
            ((position_ ba + length d) / base_size_ ba) (endian_ ba)) →
    ba' = mkByteArray (base_size_ ba) (position_ ba + length d) c
            (size_ ba `max` (position_ ba + length d)) ns'
            ((position_ ba + length d) / base_size_ ba) (endian_ ba)) as Hmax.
  { intros ? ->. destruct (Nat.ltb_spec (size_ ba) (position_ ba + length d)); f_equal; lia. }
  erewrite (Hmax _ eq_refl). clear Hmax.
  assert (length (flat ns') = c) as Hlc.
  { rewrite (length_flat (base_size_ ba)) by done. lia. }
  split_and!; try done.
  - constructor; simpl; try lia; try done.
    destruct ns'; [|done]. destruct ns; done.
  - unfold abs, abs_write. simpl. f_equal. rewrite Hf', Hflat.
    apply take_splice_app; [lia| |].
    + rewrite wf_length by done. by destruct Hwf.
    + rewrite <- Hflat. rewrite (length_flat (base_size_ ba)) by done. lia.
Qed.

Lemma Read_spec n ba : wf ba → n ≤ size_ ba - position_ ba →
  0 < n ∨ position_ ba < capacity_ ba → ∃ ba',
  Read n ba = Ret (slice (position_ ba) n (content (abs ba))) ba' ∧ wf ba' ∧
  abs ba' = abs_advance n (abs ba) ∧ base_size_ ba' = base_size_ ba ∧
  endian_ ba' = endian_ ba ∧ capacity_ ba' = capacity_ ba.
Proof.
  intros Hwf Hn Hroom. assert (position_ ba < capacity_ ba) as Hpc by (destruct Hwf; lia).
  unfold Read. rewrite (bind_Ret get _ _ ba ba) by done.
  unfold GetReadSize. rewrite sz_sub_le by (by destruct Hwf).
  rewrite (proj2 (Z.ltb_ge _ _)) by lia.
  rewrite (bind_Ret _ _ _ _ _ (mod_base_ok _ _ _ Hwf)).
  destruct (node_at_cur ba ba Hwf Hpc) as (nd & Hnd & Hns).
  rewrite (bind_Ret _ _ _ _ _ Hnd), Hns.
  destruct (Nat.eq_dec n 0) as [->|Hn0].
  { exists ba. split_and!; try done. unfold abs_advance, abs. simpl. by rewrite Nat.add_0_r. }
  destruct ba as [base p c s ns cu e]; simpl in *.
  destruct Hwf as [Hb Hne Hc Hcap Hp Hs Hcu]; simpl in *. subst cu.
  eexists. split.
  { etransitivity; [apply (Read_loop_spec base Hb (S (length ns))); done || lia|].
    by rewrite slice_take by lia. }
  split_and!; try done. constructor; simpl; try lia; done.
Qed.

Lemma Read_short n ba : wf ba → size_ ba - position_ ba < n →
  Read n ba = Throw out_of_range ba.
Proof.
  intros Hwf Hn. unfold Read. rewrite (bind_Ret get _ _ ba ba) by done.
  unfold GetReadSize. rewrite sz_sub_le by (by destruct Hwf).
  by rewrite (proj2 (Z.ltb_lt _ _)) by lia.
Qed.

(** At the end of the last block the current block is the null pointer, and
    even a read of no bytes looks at its size. *)
Lemma Read_zero_at_end ba : wf ba → position_ ba = capacity_ ba →
  Read 0 ba = Undef null_deref.
Proof.
  intros Hwf Hpos. unfold Read. rewrite (bind_Ret get _ _ ba ba) by done.
  unfold GetReadSize. rewrite sz_sub_le by (by destruct Hwf).
  rewrite (proj2 (Z.ltb_ge _ _)) by lia.
  rewrite (bind_Ret _ _ _ _ _ (mod_base_ok _ _ _ Hwf)).
  destruct Hwf. unfold node_at. rewrite wf_cur0, lookup_ge_None_2; [done|].
  rewrite Hpos, wf_capacity0, Nat.div_mul; lia.
Qed.

Lemma seek_loop_spec ba : 0 < base_size_ ba → chain_ok (base_size_ ba) (root_ ba) →
  ∀ fuel v cur, cur < length (root_ ba) →
  v ≤ (length (root_ ba) - cur) * base_size_ ba → length (root_ ba) < fuel + cur →
  seek_loop fuel v cur ba = Ret (cur + v / base_size_ ba) ba.
Proof.
  intros Hb Hc. induction fuel as [|fuel IH]; intros v cur Hcur Hv Hf; [lia|]. simpl.
  destruct (lookup_lt_is_Some_2 _ _ Hcur) as [n Hn]. rewrite Hn.
  destruct (chain_ok_lookup _ _ _ _ Hc Hn) as [-> _].
  destruct (Nat.ltb_spec (base_size_ ba) v) as [Hlt|Hge].
  - assert (length (root_ ba) - cur ≠ 1) by (intros E; rewrite E in Hv; lia).
    rewrite IH; [|lia| |lia].
    + f_equal. destruct (div_mod_step (base_size_ ba) v) as [-> _]; lia.
    + replace (length (root_ ba) - cur) with (S (length (root_ ba) - S cur)) in Hv by lia. lia.
  - destruct (Nat.eqb_spec v (base_size_ ba)) as [->|].
    + rewrite Nat.div_same by lia. f_equal; lia.
    + rewrite Nat.div_small by lia. f_equal; lia.
Qed.

#[local] Arguments seek_loop : simpl never.

Lemma SetPosition_spec v ba : wf ba → v ≤ capacity_ ba → ∃ ba',
  SetPosition v ba = Ret tt ba' ∧ wf ba' ∧
  position_ ba' = v ∧ size_ ba' = size_ ba `max` v ∧ root_ ba' = root_ ba ∧
  capacity_ ba' = capacity_ ba ∧ base_size_ ba' = base_size_ ba ∧ endian_ ba' = endian_ ba.
Proof.
  intros [Hb Hne Hc Hcap Hp Hs Hcu] Hv.
  unfold SetPosition. rewrite (bind_Ret get _ _ ba ba) by done.
  rewrite (proj2 (Nat.ltb_ge _ _)) by lia.
  unfold grow_size, modify. unfold mbind, M_bind. simpl.
  assert (length (root_ ba) ≠ 0) by (by destruct (root_ ba)).
  destruct ba as [base p c s ns cu e]; simpl in *.
  destruct (Nat.ltb_spec s v); simpl;
    (erewrite seek_loop_spec by (simpl; done || lia)); simpl;
    (eexists; split; [done|]; simpl; split_and!; [constructor|..]; simpl; done || lia).
Qed.

Lemma SetPosition_beyond v ba : capacity_ ba < v → SetPosition v ba = Throw out_of_range ba.
Proof.
  intros Hv. unfold SetPosition. rewrite (bind_Ret get _ _ ba ba) by done.
  by rewrite (proj2 (Nat.ltb_lt _ _)) by done.
Qed.

(** Going back inside the data keeps it. *)
Lemma SetPosition_abs v ba : wf ba → v ≤ size_ ba → ∃ ba',
  SetPosition v ba = Ret tt ba' ∧ wf ba' ∧ abs ba' = mkBuf (content (abs ba)) v ∧
  base_size_ ba' = base_size_ ba ∧ endian_ ba' = endian_ ba ∧ capacity_ ba' = capacity_ ba.
Proof.
  intros Hwf Hv. destruct (SetPosition_spec v ba Hwf) as (ba' & Hr & Hwf' & Hp & Hs & Hro & ?);
    [destruct Hwf; lia|].
  exists ba'. destruct_and!. split_and!; try done. unfold abs. simpl.
  rewrite Hp, Hs, Hro. by rewrite Nat.max_l.
Qed.

Lemma wf_Clear ba : wf ba → wf (Clear ba).
Proof.
  intros [Hb Hne Hc Hcap Hp Hs Hcu]. constructor; simpl; try lia.
  - by destruct (root_ ba).
  - by apply Forall_take.
  - destruct (root_ ba); [done|]. simpl. lia.
  - by rewrite Nat.Div0.div_0_l.
Qed.

(** *** Views: the [const] operations *)

Lemma Read_at_loop_spec base ba : 0 < base → chain_ok base (root_ ba) →
  ∀ fuel size p, p + size ≤ length (root_ ba) * base →
  length (root_ ba) < fuel + p / base → 0 < size →
  Read_at_loop fuel (p / base) size (p mod base) (base - p mod base) ba
  = Ret (slice p size (flat (root_ ba))) ba.
Proof.
  intros Hb Hc. induction fuel as [|fuel IH]; intros size p Hp Hf Hs.
  { exfalso. assert (p / base < length (root_ ba)); [|lia].
    apply Nat.Div0.div_lt_upper_bound. lia. }
  destruct (block_of_position base Hb (root_ ba) p) as [n Hn]; [lia|].
  destruct (chain_ok_lookup _ _ _ _ Hc Hn) as [Hsz Hlen].
  pose proof (Nat.mod_upper_bound p base). pose proof (Nat.div_mod_eq p base).
  simpl. rewrite (proj2 (Nat.eqb_neq size 0)) by lia. rewrite Hn.
  destruct (Nat.leb_spec size (base - p mod base)) as [Hle|Hgt].
  - rewrite memcpy_from_Some by lia.
    rewrite (slice_flat base (root_ ba) (p / base)) by (done || lia).
    replace (p / base * base + p mod base) with p by lia.
    unfold fmap, M_fmap, mbind, M_bind. destruct fuel; simpl; by rewrite app_nil_r.
  - rewrite memcpy_from_Some by lia.
    rewrite (slice_flat base (root_ ba) (p / base)) by (done || lia).
    replace (p / base * base + p mod base) with p by lia. simpl.
    destruct (next_position_block base Hb p) as [Hd Hm].
    destruct (block_of_position base Hb (root_ ba) (p + (base - p mod base))) as [n' Hn']; [lia|].
    rewrite Hd in Hn'. rewrite Hn'. destruct (chain_ok_lookup _ _ _ _ Hc Hn') as [-> _].
    pose proof (IH (size - (base - p mod base)) (p + (base - p mod base))) as Hrun.
    rewrite Hd, Hm, Nat.sub_0_r in Hrun.
    unfold fmap, M_fmap. erewrite bind_Ret by (apply Hrun; done || lia).
    unfold mret, M_ret. rewrite slice_app. do 2 f_equal. lia.
Qed.

(** The [const] read starts in the current block whatever its [position] is:
    it is right for a position in that block. *)
Lemma Read_at_spec n p ba : wf ba → 0 < n → p + n ≤ size_ ba →
  p / base_size_ ba = position_ ba / base_size_ ba →
  Read_at n p ba = Ret (slice p n (content (abs ba))) ba.
Proof.
  intros Hwf Hn0 Hn Hsame. assert (p < capacity_ ba) as Hpc by (destruct Hwf; lia).
  unfold Read_at. rewrite (bind_Ret get _ _ ba ba) by done. rewrite sz_sub_le by lia.
  rewrite (proj2 (Z.ltb_ge _ _)) by lia.
  rewrite (bind_Ret _ _ _ _ _ (mod_base_ok _ _ _ Hwf)).
  destruct Hwf as [Hb Hne Hc Hcap Hp Hs Hcu].
  destruct (block_of_position _ Hb (root_ ba) p) as [nd Hnd]; [lia|].
  rewrite (bind_Ret (node_at ba (cur_ ba)) _ _ nd ba).
  2:{ unfold node_at. rewrite Hcu, <- Hsame, Hnd. done. }
  destruct (chain_ok_lookup _ _ _ _ Hc Hnd) as [-> _]. rewrite Hcu, <- Hsame.
  rewrite Read_at_loop_spec by (done || lia). simpl. by rewrite slice_take by lia.
Qed.

(** So what it reads is at that offset of the current block. *)
Lemma Read_at_block n p ba : wf ba → 0 < n → p + n ≤ size_ ba →
  let q := position_ ba / base_size_ ba * base_size_ ba + p mod base_size_ ba in
  q + n ≤ capacity_ ba → Read_at n p ba = Ret (slice q n (flat (root_ ba))) ba.
Proof.
  intros Hwf Hn0 Hn q Hq. unfold Read_at. rewrite (bind_Ret get _ _ ba ba) by done.
  rewrite sz_sub_le, (proj2 (Z.ltb_ge _ _)) by lia.
  rewrite (bind_Ret _ _ _ _ _ (mod_base_ok _ _ _ Hwf)).
  destruct Hwf as [Hb Hne Hc Hcap Hp Hs Hcu].
  destruct (div_mod_cell (base_size_ ba) (position_ ba / base_size_ ba) (p mod base_size_ ba))
    as [Hd Hm]; [apply Nat.mod_upper_bound; lia|]. fold q in Hd, Hm.
  destruct (block_of_position _ Hb (root_ ba) q) as [nd Hnd]; [lia|].
  rewrite (bind_Ret (node_at ba (cur_ ba)) _ _ nd ba).
  2:{ unfold node_at. by rewrite Hcu, <- Hd, Hnd. }
  destruct (chain_ok_lookup _ _ _ _ Hc Hnd) as [-> _]. rewrite Hcu, <- Hd, <- Hm.
  apply Read_at_loop_spec; done || lia.
Qed.

Lemma abs_left_slice ba : wf ba →
  slice (position_ ba) (size_ ba - position_ ba) (content (abs ba)) = abs_left (abs ba).
Proof.
  intros Hwf. unfold abs_left, slice. simpl. rewrite firstn_all2; [done|].
  rewrite length_drop. pose proof (length_content ba Hwf) as Hl. simpl in Hl. lia.
Qed.

Lemma ToString_spec ba : wf ba → ToString ba = Ret (abs_left (abs ba)) ba.
Proof.
  intros Hwf. unfold ToString. rewrite (bind_Ret get _ _ ba ba) by done.
  unfold GetReadSize. rewrite sz_sub_le by (by destruct Hwf).
  destruct (Z.eqb_spec (Z.of_nat (size_ ba - position_ ba)) 0).
  - rewrite <- abs_left_slice by done. replace (size_ ba - position_ ba) with 0 by lia. done.
  - rewrite Nat2Z.id, Read_at_spec by (done || destruct Hwf; lia). by rewrite abs_left_slice.
Qed.

(** *** The scatter-gather views *)

(** The bytes an [iovec] list designates, in order. *)
Definition iov_bytes (ns : list Node) (iovs : list iovec) : bytes :=
  concat (map (λ v, slice (iov_off v) (iov_len v) (default [] (ptr <$> ns !! iov_node v))) iovs).

(** Each [iovec] lies inside its block. *)
Definition iov_ok (ns : list Node) (v : iovec) : Prop :=
  0 < iov_len v ∧ ∃ n, ns !! iov_node v = Some n ∧ iov_off v + iov_len v ≤ length (ptr n).

Lemma iov_bytes_app ns l1 l2 : iov_bytes ns (l1 ++ l2) = iov_bytes ns l1 ++ iov_bytes ns l2.
Proof. unfold iov_bytes. by rewrite map_app, concat_app. Qed.

Lemma iov_loop_spec base ba : 0 < base → chain_ok base (root_ ba) →
  ∀ fuel size p bufs, p + size ≤ length (root_ ba) * base →
  length (root_ ba) < fuel + p / base → 0 < size →
  ∃ iovs, iov_loop fuel (p / base) size (p mod base) (base - p mod base) bufs ba
      = Ret (bufs ++ iovs) ba ∧
    iov_bytes (root_ ba) iovs = slice p size (flat (root_ ba)) ∧
    Forall (iov_ok (root_ ba)) iovs ∧ list_sum (map iov_len iovs) = size.
Proof.
  intros Hb Hc. induction fuel as [|fuel IH]; intros size p bufs Hp Hf Hs.
  { exfalso. assert (p / base < length (root_ ba)); [|lia].
    apply Nat.Div0.div_lt_upper_bound. lia. }
  destruct (block_of_position base Hb (root_ ba) p) as [n Hn]; [lia|].
  destruct (chain_ok_lookup _ _ _ _ Hc Hn) as [Hsz Hlen].
  pose proof (Nat.mod_upper_bound p base). pose proof (Nat.div_mod_eq p base).
  simpl. rewrite (proj2 (Nat.eqb_neq size 0)) by lia. rewrite Hn.
  assert (∀ m, m ≤ base - p mod base →
    iov_bytes (root_ ba) [mkIovec (p / base) (p mod base) m] = slice p m (flat (root_ ba))) as Hone.
  { intros m Hm. unfold iov_bytes. simpl. rewrite Hn. simpl. rewrite app_nil_r.
    rewrite (slice_flat base (root_ ba) (p / base)) by (done || lia). f_equal. lia. }
  destruct (Nat.leb_spec size (base - p mod base)) as [Hle|Hgt].
  - exists [mkIovec (p / base) (p mod base) size]. split_and!; [by destruct fuel|by apply Hone| |].
    + constructor; [|done]. split; [done|]. exists n. split; [done|]. simpl. lia.
    + simpl. lia.
  - destruct (next_position_block base Hb p) as [Hd Hm].
    destruct (block_of_position base Hb (root_ ba) (p + (base - p mod base))) as [n' Hn']; [lia|].
    rewrite Hd in Hn'. rewrite Hn'. destruct (chain_ok_lookup _ _ _ _ Hc Hn') as [-> _].
    destruct (IH (size - (base - p mod base)) (p + (base - p mod base))
      (bufs ++ [mkIovec (p / base) (p mod base) (base - p mod base)]))
      as (iovs & Hrun & Hby & Hok & Hsum); [lia..|].
    rewrite Hd, Hm, Nat.sub_0_r in Hrun. rewrite Hrun.
    exists ([mkIovec (p / base) (p mod base) (base - p mod base)] ++ iovs). split_and!.
    + by rewrite <- app_assoc.
    + rewrite iov_bytes_app, Hone, Hby, slice_app by lia. f_equal. lia.
    + constructor; [|done]. split; [simpl; lia|]. exists n. split; [done|]. simpl. lia.
    + simpl. rewrite Hsum. lia.
Qed.

Lemma clamp_len_spec len ba : wf ba → (0 ≤ len)%Z →
  clamp_len len ba = Z.to_nat len `min` (size_ ba - position_ ba).
Proof.
  intros [] ?. unfold clamp_len, GetReadSize. rewrite sz_sub_le by done.
  destruct (Z.ltb_spec (Z.of_nat (size_ ba - position_ ba)) len); lia.
Qed.

Lemma GetReadBuffers_spec bufs len ba : wf ba → (0 ≤ len)%Z → ∃ iovs,
  let n := Z.to_nat len `min` (size_ ba - position_ ba) in
  GetReadBuffers bufs len ba = Ret (bufs ++ iovs, n) ba ∧
  iov_bytes (root_ ba) iovs = slice (position_ ba) n (content (abs ba)) ∧
  Forall (iov_ok (root_ ba)) iovs.
Proof.
  intros Hwf Hlen. unfold GetReadBuffers. rewrite (bind_Ret get _ _ ba ba) by done.
  rewrite clamp_len_spec by done. set (n := _ `min` _).
  destruct (Nat.eqb_spec n 0) as [->|Hn].
  { exists []. rewrite app_nil_r. split_and!; done. }
  rewrite (bind_Ret _ _ _ _ _ (mod_base_ok _ _ _ Hwf)).
  destruct (node_at_cur ba ba Hwf) as (nd & Hnd & Hns); [destruct Hwf; lia|].
  rewrite (bind_Ret _ _ _ _ _ Hnd), Hns. destruct Hwf as [Hb Hne Hc Hcap Hp Hs Hcu].
  rewrite Hcu.
  destruct (iov_loop_spec _ ba Hb Hc (S (length (root_ ba))) n (position_ ba) bufs)
    as (iovs & Hrun & Hby & Hok & _); [lia..|].
  exists iovs. rewrite (bind_Ret _ _ _ _ _ Hrun). split_and!; [done| |done].
  simpl. by rewrite slice_take by lia.
Qed.

Lemma GetWriteBuffers_spec bufs len ba : wf ba → 0 < len → ∃ iovs ba' junk,
  GetWriteBuffers bufs len ba = Ret (bufs ++ iovs, len) ba' ∧ wf ba' ∧ abs ba' = abs ba ∧
  flat (root_ ba') = flat (root_ ba) ++ junk ∧
  iov_bytes (root_ ba') iovs = slice (position_ ba) len (flat (root_ ba')) ∧
  Forall (iov_ok (root_ ba')) iovs ∧ list_sum (map iov_len iovs) = len ∧
  position_ ba + len ≤ capacity_ ba'.
Proof.
  intros Hwf Hlen. unfold GetWriteBuffers. rewrite (proj2 (Nat.eqb_neq _ _)) by lia.
  destruct (AddCapacity_spec len ba Hwf)
    as (ba1 & junk & Hrun & Hwf1 & Hcap & Hflat & Hbase & Hpos & Hsize & Hend).
  rewrite (bind_Ret _ _ _ _ _ Hrun). rewrite (bind_Ret get _ _ ba1 ba1) by done.
  rewrite (bind_Ret _ _ _ _ _ (mod_base_ok _ _ _ Hwf1)).
  destruct (node_at_cur ba1 ba1 Hwf1) as (nd & Hnd & Hns); [lia|].
  rewrite (bind_Ret _ _ _ _ _ Hnd), Hns.
  pose proof Hwf1 as [Hb Hne Hc Hcap1 Hp Hs Hcu]. rewrite Hcu.
  destruct (iov_loop_spec _ ba1 Hb Hc (S (length (root_ ba1))) len (position_ ba1) bufs)
    as (iovs & Hloop & Hby & Hok & Hsum); [lia..|].
  exists iovs, ba1, junk. rewrite (bind_Ret _ _ _ _ _ Hloop). rewrite <- Hpos.
  split_and!; try done; [|lia]. unfold abs. rewrite Hflat, Hsize, Hpos. f_equal.
  rewrite take_app_le; [done|]. rewrite wf_length by done. by destruct Hwf.
Qed.

(** *** Files *)

Lemma ReadFromFile_loop_spec fuel : ∀ file ba, wf ba → length file < fuel → ∃ ba',
  ReadFromFile_loop fuel file ba = Ret tt ba' ∧ wf ba' ∧ abs ba' = abs_write file (abs ba).
Proof.
  induction fuel as [|fuel IH]; intros file ba Hwf Hf; [lia|]. simpl.
  rewrite (bind_Ret get _ _ ba ba) by done.
  destruct (Write_spec (take (base_size_ ba) file) ba Hwf)
    as (ba1 & Hrun & Hwf1 & Habs & Hbase & _).
  rewrite (bind_Ret _ _ _ _ _ Hrun). pose proof (wf_base _ Hwf).
  rewrite length_take. destruct (Nat.ltb_spec (base_size_ ba `min` length file) (base_size_ ba)).
  - exists ba1. split_and!; [done..|]. by rewrite Habs, firstn_all2 by lia.
  - destruct (IH (drop (base_size_ ba) file) ba1 Hwf1) as (ba2 & Hrun2 & Hwf2 & Habs2).
    { rewrite length_drop. lia. }
    exists ba2. split_and!; [done..|]. rewrite Habs2, Habs, abs_write_app, take_drop; [done|].
    rewrite length_content by done. simpl. by destruct Hwf.
Qed.

Lemma WriteToFile_loop_aligned ba : wf ba → ∀ fuel p r,
  p mod base_size_ ba = 0 → p + r ≤ capacity_ ba → length (root_ ba) < fuel + p / base_size_ ba →
  WriteToFile_loop fuel (p / base_size_ ba) (Z.of_nat r) (Z.of_nat p) ba
  = Ret (slice p r (flat (root_ ba))) ba.
Proof.
  intros [Hb Hne Hc Hcap Hpos Hs Hcu]. induction fuel as [|fuel IH]; intros p r Hal Hr Hf.
  { simpl. destruct (Z.leb_spec (Z.of_nat r) 0); [by replace r with 0 by lia|].
    exfalso. assert (p / base_size_ ba < length (root_ ba)); [|lia].
    apply Nat.Div0.div_lt_upper_bound. lia. }
  simpl. destruct (Z.leb_spec (Z.of_nat r) 0); [by replace r with 0 by lia|].
  rewrite <- Nat2Z.inj_mod, Hal, Z.sub_0_r.
  destruct (block_of_position _ Hb (root_ ba) p) as [n Hn]; [lia|]. rewrite Hn.
  destruct (chain_ok_lookup _ _ _ _ Hc Hn) as [Hsz Hlen].
  pose proof (Nat.div_mod_eq p (base_size_ ba)).
  assert ((if (Z.of_nat (base_size_ ba) <? Z.of_nat r)%Z then Z.of_nat (base_size_ ba) else Z.of_nat r)
    = Z.of_nat (base_size_ ba `min` r)) as ->.
  { destruct (Z.ltb_spec (Z.of_nat (base_size_ ba)) (Z.of_nat r)); lia. }
  set (m := base_size_ ba `min` r). rewrite (proj2 (Z.ltb_ge _ _)) by lia.
  rewrite !Nat2Z.id, memcpy_from_Some by lia.
  rewrite (slice_flat (base_size_ ba) (root_ ba) (p / base_size_ ba)) by (done || lia).
  replace (p / base_size_ ba * base_size_ ba + 0) with p by lia.
  rewrite <- Nat2Z.inj_add, <- Nat2Z.inj_sub by lia.
  unfold fmap, M_fmap. destruct (decide (base_size_ ba < r)).
  - destruct (next_position_block (base_size_ ba) Hb p) as [Hd Hm]. rewrite Hal, Nat.sub_0_r in *.
    replace m with (base_size_ ba) by lia.
    pose proof (IH (p + base_size_ ba) (r - base_size_ ba)) as Hrun. rewrite Hd in Hrun.
    rewrite (bind_Ret _ _ _ _ _ (Hrun Hm ltac:(lia) ltac:(lia))).
    unfold mret, M_ret. rewrite slice_app. do 2 f_equal. lia.
  - replace m with r by lia. rewrite Nat.sub_diag.
    rewrite (bind_Ret _ _ _ [] ba) by (by destruct fuel).
    unfold mret, M_ret. by rewrite app_nil_r.
Qed.

Lemma WriteToFile_loop_spec ba p r : wf ba → p + r ≤ capacity_ ba →
  p mod base_size_ ba = 0 ∨ base_size_ ba ≤ r →
  WriteToFile_loop (S (length (root_ ba))) (p / base_size_ ba) (Z.of_nat r) (Z.of_nat p) ba
  = Ret (slice p r (flat (root_ ba))) ba.
Proof.
  intros Hwf Hr Hal. destruct (decide (p mod base_size_ ba = 0)) as [Hz|Hz].
  { apply WriteToFile_loop_aligned; done || lia. }
  destruct Hal as [|Hbig]; [done|]. pose proof Hwf as [Hb Hne Hc Hcap Hpos Hs Hcu].
  cbn [WriteToFile_loop]. rewrite (proj2 (Z.leb_gt _ _)) by lia.
  assert ((if (Z.of_nat (base_size_ ba) <? Z.of_nat r)%Z then Z.of_nat (base_size_ ba) else Z.of_nat r) = Z.of_nat (base_size_ ba)) as ->.
  { destruct (Z.ltb_spec (Z.of_nat (base_size_ ba)) (Z.of_nat r)); lia. }
  rewrite <- Nat2Z.inj_mod.
  pose proof (Nat.mod_upper_bound p (base_size_ ba)).
  pose proof (Nat.div_mod_eq p (base_size_ ba)).
  destruct (block_of_position _ Hb (root_ ba) p) as [n Hn]; [lia|].
  rewrite Hn. destruct (chain_ok_lookup _ _ _ _ Hc Hn) as [Hsz Hlen].
  rewrite (proj2 (Z.ltb_ge _ _)) by lia. rewrite <- Nat2Z.inj_sub by lia. rewrite !Nat2Z.id.
  rewrite memcpy_from_Some by lia.
  rewrite (slice_flat (base_size_ ba) (root_ ba) (p / base_size_ ba)) by (done || lia).
  replace (p / base_size_ ba * base_size_ ba + p mod base_size_ ba) with p by lia.
  rewrite <- Nat2Z.inj_add, <- Nat2Z.inj_sub by lia.
  destruct (next_position_block (base_size_ ba) Hb p) as [Hd Hm]. rewrite <- Hd.
  unfold fmap, M_fmap. erewrite bind_Ret by (apply WriteToFile_loop_aligned; done || lia).
  unfold mret, M_ret. rewrite slice_app. do 2 f_equal. lia.
Qed.

Lemma WriteToFile_spec ba : wf ba →
  position_ ba mod base_size_ ba = 0 ∨ base_size_ ba ≤ size_ ba - position_ ba →
  WriteToFile true ba = Ret (Some (abs_left (abs ba))) ba.
Proof.
  intros Hwf Hal. unfold WriteToFile. cbn [negb]. rewrite (bind_Ret get _ _ ba ba) by done.
  unfold GetReadSize. rewrite sz_sub_le, (wf_cur _ Hwf) by (by destruct Hwf).
  erewrite bind_Ret by (apply WriteToFile_loop_spec; done || destruct Hwf; lia).
  rewrite <- abs_left_slice by done. simpl.
  by rewrite slice_take by (destruct Hwf; lia).
Qed.

(** With fewer bytes left than the position is into its block, the first count
    is negative. *)
Lemma WriteToFile_negative ba : wf ba →
  0 < size_ ba - position_ ba < position_ ba mod base_size_ ba →
  WriteToFile true ba = Undef out_of_bounds.
Proof.
  intros [Hb Hne Hc Hcap Hpos Hs Hcu] [Hr Hlt].
  assert (WriteToFile_loop (S (length (root_ ba))) (cur_ ba) (GetReadSize ba)
    (Z.of_nat (position_ ba)) ba = Undef out_of_bounds) as Hloop.
  { unfold GetReadSize. rewrite sz_sub_le by done. rewrite Hcu. cbn [WriteToFile_loop].
    pose proof (Nat.mod_upper_bound (position_ ba) (base_size_ ba)).
    rewrite (proj2 (Z.leb_gt _ _)) by lia.
    destruct (block_of_position _ Hb (root_ ba) (position_ ba)) as [n ->]; [lia|].
    rewrite (proj2 (Z.ltb_ge (Z.of_nat (base_size_ ba)) _)) by lia. rewrite <- Nat2Z.inj_mod.
    by rewrite (proj2 (Z.ltb_lt _ _)) by lia. }
  unfold WriteToFile, get, mbind, M_bind. cbn [negb]. by rewrite Hloop.
Qed.

(** *** The operations that only look *)

(** The object is left as it is, by a call that throws too. *)
Definition unchanged {A} (m : M ByteArray A) : Prop :=
  ∀ ba, match m ba with Ret _ ba' | Throw _ ba' => ba' = ba | _ => True end.

Lemma unchanged_ret {A} (a : A) : unchanged (mret a).
Proof. by intros ba. Qed.
Lemma unchanged_get : unchanged get.
Proof. by intros ba. Qed.
Lemma unchanged_fail {A} : (∀ e, unchanged (throw e : M ByteArray A)) ∧ ∀ u, unchanged (undef u : M ByteArray A).
Proof. by split; intros ? ba. Qed.
Lemma unchanged_bind {A B} (m : M ByteArray A) (k : A → M ByteArray B) : unchanged m → (∀ a, unchanged (k a)) → unchanged (m ≫= k).
Proof.
  intros Hm Hk ba. specialize (Hm ba). unfold mbind, M_bind. destruct (m ba) as [a ba'|e ba'|u|]; [|done..]. subst ba'. apply Hk.
Qed.
Lemma unchanged_mod_base position ba : unchanged (mod_base position ba).
Proof. intros ba'. unfold mod_base. by destruct (_ =? _). Qed.
Lemma unchanged_node_at ba cur : unchanged (node_at ba cur).
Proof. intros ba'. unfold node_at, deref. by destruct (root_ ba !! cur). Qed.

Lemma unchanged_Read_at_loop fuel : ∀ cur size npos ncap, unchanged (Read_at_loop fuel cur size npos ncap).
Proof.
  induction fuel as [|fuel IH]; intros cur size npos ncap ba; cbn [Read_at_loop]; destruct (size =? 0); try done.
  destruct (root_ ba !! cur) as [node|]; [|done]. destruct (size <=? ncap); (destruct (memcpy_from _ _ _); [|done]).
  - apply unchanged_bind; [apply IH|intros a; apply unchanged_ret].
  - destruct (root_ ba !! S cur); [|done]. apply unchanged_bind; [apply IH|intros a; apply unchanged_ret].
Qed.
Lemma unchanged_iov_loop fuel : ∀ cur len npos ncap bufs, unchanged (iov_loop fuel cur len npos ncap bufs).
Proof.
  induction fuel as [|fuel IH]; intros cur len npos ncap bufs ba; cbn [iov_loop]; destruct (len =? 0); try done.
  destruct (root_ ba !! cur) as [node|]; [|done]. destruct (len <=? ncap); [apply IH|]. destruct (root_ ba !! S cur); [apply IH|done].
Qed.
Lemma unchanged_WriteToFile_loop fuel : ∀ cur r p, unchanged (WriteToFile_loop fuel cur r p).
Proof.
  induction fuel as [|fuel IH]; intros cur r p ba; cbn [WriteToFile_loop]; destruct (r <=? 0)%Z; try done.
  destruct (root_ ba !! cur) as [node|]; [|done]. destruct (_ <? 0)%Z; [done|]. destruct (memcpy_from _ _ _); [|done].
  apply unchanged_bind; [apply IH|intros a; apply unchanged_ret].
Qed.

Create HintDb looks.
#[local] Hint Resolve unchanged_ret unchanged_get unchanged_bind unchanged_mod_base unchanged_node_at unchanged_Read_at_loop
  unchanged_iov_loop unchanged_WriteToFile_loop : looks.

Lemma unchanged_Read_at n p : unchanged (Read_at n p).
Proof. apply unchanged_bind; [apply unchanged_get|]. intros ba. destruct (_ <? _)%Z; [apply (proj1 unchanged_fail)|auto with looks]. Qed.
Lemma unchanged_ToString : unchanged ToString.
Proof. apply unchanged_bind; [apply unchanged_get|]. intros ba. destruct (_ =? _)%Z; [apply unchanged_ret|apply unchanged_Read_at]. Qed.
Lemma unchanged_GetReadBuffers bufs len : unchanged (GetReadBuffers bufs len).
Proof. apply unchanged_bind; [apply unchanged_get|]. intros ba. cbn zeta. destruct (_ =? _); auto 8 with looks. Qed.
Lemma unchanged_GetReadBuffers_at bufs len p : unchanged (GetReadBuffers_at bufs len p).
Proof. apply unchanged_bind; [apply unchanged_get|]. intros ba. cbn zeta. destruct (_ =? _); auto 8 with looks. Qed.
Lemma unchanged_WriteToFile opened : unchanged (WriteToFile opened).
Proof. unfold WriteToFile. destruct opened; cbn [negb]; auto 8 with looks. Qed.

(** The bytes left can be looked at from any position that has so many before the capacity. *)
Lemma GetReadBuffers_at_spec bufs len p ba : wf ba → (0 ≤ len)%Z →
  let n := Z.to_nat len `min` (size_ ba - position_ ba) in
  n = 0 ∨ p + n ≤ capacity_ ba → ∃ r, GetReadBuffers_at bufs len p ba = Ret r ba.
Proof.
  intros Hwf Hlen n Hn. unfold GetReadBuffers_at. rewrite (bind_Ret get _ _ ba ba) by done. rewrite clamp_len_spec by done. fold n.
  destruct (Nat.eqb_spec n 0) as [->|Hne]; [by eexists|]. destruct Hn as [?|Hn]; [done|].
  rewrite (bind_Ret _ _ _ _ _ (mod_base_ok _ _ _ Hwf)). destruct Hwf as [Hb Hnil Hc Hcap Hp Hs Hcu].
  destruct (block_of_position _ Hb (root_ ba) p) as [nd Hnd]; [lia|].
  rewrite (bind_Ret (node_at ba _) _ _ nd ba) by (unfold node_at; by rewrite Hnd).
  destruct (chain_ok_lookup _ _ _ _ Hc Hnd) as [-> _].
  destruct (iov_loop_spec _ ba Hb Hc (S (length (root_ ba))) n p bufs) as (iovs & Hrun & _); [lia..|].
  rewrite (bind_Ret _ _ _ _ _ Hrun). by eexists.
Qed.

Lemma Read_at_safe n p ba : wf ba → p ≤ size_ ba →
  (n ≤ size_ ba - p → position_ ba < capacity_ ba ∧
     position_ ba / base_size_ ba * base_size_ ba + p mod base_size_ ba + n ≤ capacity_ ba) →
  (∃ d, Read_at n p ba = Ret d ba) ∨ Read_at n p ba = Throw out_of_range ba.
Proof.
  intros Hwf Hp Hn. destruct (decide (n ≤ size_ ba - p)) as [Hle|Hgt]; [left|right].
  - destruct (Hn Hle) as [Hpos Hq]. destruct (decide (n = 0)) as [->|]; [|eexists; apply Read_at_block; done || lia].
    unfold Read_at. rewrite (bind_Ret get _ _ ba ba) by done. rewrite sz_sub_le, (proj2 (Z.ltb_ge _ _)) by lia.
    rewrite (bind_Ret _ _ _ _ _ (mod_base_ok _ _ _ Hwf)). destruct (node_at_cur ba ba Hwf Hpos) as (nd & Hnd & _).
    rewrite (bind_Ret _ _ _ _ _ Hnd). by eexists.
  - unfold Read_at. rewrite (bind_Ret get _ _ ba ba) by done. by rewrite sz_sub_le, (proj2 (Z.ltb_lt _ _)) by lia.
Qed.

Lemma WriteToFile_safe opened ba : wf ba →
  (opened = true → size_ ba = position_ ba ∨ position_ ba mod base_size_ ba = 0 ∨ base_size_ ba ≤ size_ ba - position_ ba) →
  ∃ r, WriteToFile opened ba = Ret r ba.
Proof.
  intros Hwf Hal. destruct opened; [|by eexists]. destruct (Hal eq_refl) as [Heq|Hal']; [|by eexists; apply WriteToFile_spec].
  unfold WriteToFile. cbn [negb]. rewrite (bind_Ret get _ _ ba ba) by done. unfold GetReadSize. rewrite sz_sub_le, Heq, Nat.sub_diag by lia.
  by eexists.
Qed.
End refinement.

(** ** The byte array implements the interface *)

#[export] Instance ByteArray_ops `{RawMemory} : BufferOps ByteArray := {|
  buf_write := Write;
  buf_read := Read;
  buf_seek := SetPosition;
  buf_endian := endian_;
  buf_ok := wf;
  buf_view := abs;
  buf_capacity := capacity_
|}.

#[export] Instance ByteArray_buffer `{RawMemory} : ByteBuffer ByteArray.
Proof.
  assert (∀ ba, wf ba → length (abs_left (abs ba)) = size_ ba - position_ ba) as Hleft.
  { intros ba Hwf. by rewrite length_abs_left, length_content. }
  split; cbn -[content abs abs_left abs_write abs_advance].
  - intros ba Hwf. rewrite length_content by done. by destruct Hwf.
  - intros ba Hwf. rewrite length_content by done. by destruct Hwf.
  - intros d ba Hwf. destruct (Write_spec d ba Hwf) as (ba' & ?). exists ba'. by destruct_and!.
  - intros n ba Hwf Hn Hroom. rewrite Hleft in Hn by done.
    destruct (Read_spec n ba Hwf) as (ba' & Hr & ?); [done..|].
    exists ba'. destruct_and!. done.
  - intros n ba Hwf Hn. rewrite Hleft in Hn by done. by apply Read_short.
  - intros v ba Hwf Hv. rewrite length_content in Hv by done.
    destruct (SetPosition_abs v ba Hwf Hv) as (ba' & ?). exists ba'. by destruct_and!.
Qed.

(** ** Properties *)

Section properties.
Context `{RawMemory}.

(** The calls that must not be made: a read of no bytes at the end of the last block; with a
    position of its own, a read from beyond the data, from beyond the blocks when counted
    from the current one, or of no bytes at that end, and buffers that would end beyond the
    blocks; and writing a file from within a block with less than a block left. *)
Definition call_ok (o : op) (ba : ByteArray) : Prop :=
  match o with
  | ORead n => n = 0 → position_ ba < capacity_ ba
  | OReadAt n p => p ≤ size_ ba ∧ (n ≤ size_ ba - p → position_ ba < capacity_ ba ∧
      position_ ba / base_size_ ba * base_size_ ba + p mod base_size_ ba + n ≤ capacity_ ba)
  | OGetReadBuffersAt len p => let n := len `min` (size_ ba - position_ ba) in n = 0 ∨ p + n ≤ capacity_ ba
  | OWriteToFile opened => opened = true →
      size_ ba = position_ ba ∨ position_ ba mod base_size_ ba = 0 ∨ base_size_ ba ≤ size_ ba - position_ ba
  | _ => True
  end.

Lemma run_op_safe o ba : wf ba → call_ok o ba → ∃ ba',
  (run_op o ba = Ret tt ba' ∨ run_op o ba = Throw out_of_range ba') ∧ wf ba'.
Proof.
  intros Hwf Hok. destruct o as [d|n|v| |n|val|len|file|n p| | |len|len p|opened]; cbn [run_op call_ok] in *.
  - destruct (Write_spec d ba Hwf) as (ba' & ? & ? & _). eauto.
  - destruct (decide (n ≤ size_ ba - position_ ba)) as [Hn|Hn].
    + destruct (Read_spec n ba Hwf Hn) as (ba' & Hr & Hwf' & _).
      { destruct n; [right; by apply Hok|left; lia]. }
      exists ba'. split; [|done]. left. by rewrite (bind_Ret _ _ _ _ _ Hr).
    + exists ba. split; [|done]. right. apply bind_Throw, Read_short; [done|lia].
  - destruct (decide (v ≤ capacity_ ba)) as [Hv|Hv].
    + destruct (SetPosition_spec v ba Hwf Hv) as (ba' & ? & ? & _). eauto.
    + exists ba. split; [|done]. right. apply SetPosition_beyond. lia.
  - exists (Clear ba). split; [by left|]. by apply wf_Clear.
  - destruct (AddCapacity_spec n ba Hwf) as (ba' & ? & ? & ? & _). eauto.
  - exists (SetIsLittleEndian val ba). split; [by left|].
    destruct Hwf, val; constructor; done.
  - destruct (Nat.eq_dec len 0) as [->|].
    { exists ba. split; [by left|done]. }
    destruct (GetWriteBuffers_spec [] len ba Hwf) as (iovs & ba' & ? & Hr & ? & _); [lia|].
    exists ba'. split; [|done]. left. by rewrite (bind_Ret _ _ _ _ _ Hr).
  - destruct file as [file|]; [|by exists ba; split; [left|]].
    destruct (ReadFromFile_loop_spec (S (length file)) file ba Hwf) as (ba' & Hr & ? & _); [lia|].
    exists ba'. split; [|done]. left. unfold ReadFromFile.
    rewrite (bind_Ret _ _ _ true ba'); [done|]. by rewrite (bind_Ret _ _ _ _ _ Hr).
  - destruct (Read_at_safe n p ba Hwf (proj1 Hok) (proj2 Hok)) as [[d Hr]|Hr]; exists ba; (split; [|done]).
    + left. by rewrite (bind_Ret _ _ _ _ _ Hr).
    + right. by apply bind_Throw.
  - exists ba. split; [left|done]. by rewrite (bind_Ret _ _ _ _ _ (ToString_spec ba Hwf)).
  - exists ba. split; [left|done]. unfold ToHexString. erewrite bind_Ret; [done|]. by rewrite (bind_Ret _ _ _ _ _ (ToString_spec ba Hwf)).
  - exists ba. split; [left|done]. destruct (GetReadBuffers_spec [] (Z.of_nat len) ba Hwf) as (iovs & Hr & _); [lia|].
    by rewrite (bind_Ret _ _ _ _ _ Hr).
  - exists ba. split; [left|done]. destruct (GetReadBuffers_at_spec [] (Z.of_nat len) p ba Hwf) as [r Hr]; [lia|by rewrite Nat2Z.id|].
    by rewrite (bind_Ret _ _ _ _ _ Hr).
  - exists ba. split; [left|done]. destruct (WriteToFile_safe opened ba Hwf Hok) as [r Hr]. by rewrite (bind_Ret _ _ _ _ _ Hr).
Qed.

Lemma unchanged_wf {A} (m : M ByteArray A) ba : unchanged m → wf ba → match (m ;; mret tt) ba with Ret _ ba' | Throw _ ba' => wf ba' | _ => True end.
Proof. intros Hm Hwf. specialize (Hm ba). unfold mbind, M_bind, mret, M_ret. destruct (m ba); by subst. Qed.

Lemma run_op_wf o ba r : wf ba → run_op o ba = r →
  match r with Ret _ ba' | Throw _ ba' => wf ba' | _ => True end.
Proof.
  intros Hwf <-. assert (call_ok o ba → match run_op o ba with Ret _ ba' | Throw _ ba' => wf ba' | _ => True end) as Hsafe.
  { intros Hok. by destruct (run_op_safe o ba Hwf Hok) as (ba' & [-> | ->] & ?). }
  destruct o as [d|n|v| |n|val|len|file|n p| | |len|len p|opened]; try (by apply Hsafe); cbn [run_op].
  - destruct (decide (n = 0 → position_ ba < capacity_ ba)) as [|Hn]; [by apply Hsafe|].
    destruct n; [|destruct Hn; lia]. unfold mbind, M_bind. rewrite Read_zero_at_end; [done|done|destruct Hwf; lia].
  - apply unchanged_wf; [apply unchanged_Read_at|done].
  - apply unchanged_wf; [apply unchanged_GetReadBuffers_at|done].
  - apply unchanged_wf; [apply unchanged_WriteToFile|done].
Qed.

Lemma reachable_wf base ba : 0 < base → reachable base ba → wf ba.
Proof.
  intros Hb. induction 1 as [|o ba ba' _ IH Hr|o ba e ba' _ IH Hr]; [by apply wf_new|..];
    by pose proof (run_op_wf _ _ _ IH Hr).
Qed.

(** C4: every array reachable from a new one with blocks of some size by any sequence of the
    calls of [op], throwing ones included, is well formed: the position is within the size,
    the size within the capacity, the capacity is that of the blocks of the chain, and
    the current block is the position's.  From there each of these calls that
    [call_ok] allows terminates and returns or throws [out_of_range], into a well-formed
    array: no null dereference, no access outside a block.  What [call_ok] leaves out is a
    read of no bytes at the end of the last block ([Read_nothing_at_end]), the two calls
    with a position of their own where they would leave the blocks, and writing a file from
    within a block with less than a block left ([WriteToFile_negative_count]). *)
Theorem reachable_safe base ba o : 0 < base → reachable base ba → call_ok o ba →
  wf ba ∧ ∃ ba', (run_op o ba = Ret tt ba' ∨ run_op o ba = Throw out_of_range ba') ∧ wf ba'.
Proof.
  intros Hb Hr Hok. pose proof (reachable_wf base ba Hb Hr) as Hwf.
  split; [done|]. by apply run_op_safe.
Qed.

(** C1: the chain of blocks implements a flat buffer with a cursor.  [Write]
    overwrites and extends the contents at the cursor; [Read] returns the bytes
    after it, or throws and changes nothing when there are fewer;
    [SetPosition] within the data moves the cursor and keeps the data, and
    beyond the capacity throws. *)
Theorem ByteArray_refines_buffer ba : wf ba →
  (∀ d, ∃ ba', Write d ba = Ret tt ba' ∧ wf ba' ∧ abs ba' = abs_write d (abs ba)) ∧
  (∀ n, 0 < n → n ≤ length (abs_left (abs ba)) → ∃ ba',
     Read n ba = Ret (take n (abs_left (abs ba))) ba' ∧ wf ba' ∧
     abs ba' = abs_advance n (abs ba)) ∧
  (∀ n, length (abs_left (abs ba)) < n → Read n ba = Throw out_of_range ba) ∧
  (∀ v, v ≤ length (content (abs ba)) → ∃ ba', SetPosition v ba = Ret tt ba' ∧ wf ba' ∧
     abs ba' = mkBuf (content (abs ba)) v) ∧
  (∀ v, capacity_ ba < v → SetPosition v ba = Throw out_of_range ba).
Proof.
  intros Hwf. split_and!.
  - intros d. destruct (Write_spec d ba Hwf) as (ba' & ? & ? & ? & _). eauto.
  - intros n Hn Hle. rewrite length_abs_left, length_content in Hle by done.
    destruct (Read_spec n ba Hwf Hle) as (ba' & Hr & ? & ? & _); [by left|].
    exists ba'. split_and!; done.
  - intros n Hn. rewrite length_abs_left, length_content in Hn by done. by apply Read_short.
  - intros v Hv. rewrite length_content in Hv by done.
    destruct (SetPosition_abs v ba Hwf Hv) as (ba' & ? & ? & ? & _). eauto.
  - intros v. apply SetPosition_beyond.
Qed.

(** [AddCapacity] makes room for the bytes asked for and keeps contents and
    cursor; [Clear] empties the array and keeps its first block only. *)
Theorem capacity_management n ba : wf ba →
  (∃ ba', AddCapacity n ba = Ret tt ba' ∧ wf ba' ∧ position_ ba + n ≤ capacity_ ba' ∧
     abs ba' = abs ba ∧ endian_ ba' = endian_ ba) ∧
  wf (Clear ba) ∧ abs (Clear ba) = mkBuf [] 0 ∧ capacity_ (Clear ba) = base_size_ ba.
Proof.
  intros Hwf. split; [|split; [by apply wf_Clear|done]].
  destruct (AddCapacity_spec n ba Hwf) as (ba' & junk & ? & ? & ? & Hf & ? & Hp & Hs & ?).
  exists ba'. split_and!; try done. unfold abs. rewrite Hf, Hp, Hs. f_equal.
  rewrite take_app_le; [done|]. rewrite wf_length by done. by destruct Hwf.
Qed.

(** The [const] views show the unread data.  [ToString] returns it; the
    [iovec]s of [GetReadBuffers] lie inside their blocks and together hold as
    much of it as was asked for; those of [GetWriteBuffers] cover exactly the
    [len] bytes after the cursor, without changing the data. *)
Theorem views_show_unread ba len : wf ba → 0 < len →
  ToString ba = Ret (abs_left (abs ba)) ba ∧
  (∃ iovs, GetReadBuffers [] (Z.of_nat len) ba
     = Ret (iovs, len `min` length (abs_left (abs ba))) ba ∧
     iov_bytes (root_ ba) iovs = take len (abs_left (abs ba)) ∧ Forall (iov_ok (root_ ba)) iovs) ∧
  (∃ iovs ba', GetWriteBuffers [] len ba = Ret (iovs, len) ba' ∧ wf ba' ∧ abs ba' = abs ba ∧
     iov_bytes (root_ ba') iovs = slice (position_ ba) len (flat (root_ ba')) ∧
     Forall (iov_ok (root_ ba')) iovs ∧ list_sum (map iov_len iovs) = len).
Proof.
  intros Hwf Hlen. split_and!; [by apply ToString_spec| |].
  - destruct (GetReadBuffers_spec [] (Z.of_nat len) ba Hwf) as (iovs & Hr & Hb & Hok); [lia|].
    rewrite Nat2Z.id in *. exists iovs.
    rewrite length_abs_left, length_content by done. split_and!; [done| |done].
    rewrite Hb, <- abs_left_slice by done. unfold slice. by rewrite take_take.
  - destruct (GetWriteBuffers_spec [] len ba Hwf Hlen) as (iovs & ba' & ? & ?).
    exists iovs, ba'. by destruct_and!.
Qed.

(** A file read into a new array by [ReadFromFile] is written back byte for
    byte by [WriteToFile] after [SetPosition(0)]. *)
Theorem file_roundtrip base file : 0 < base → ∃ ba1 ba2,
  ReadFromFile (Some file) (new_ByteArray base) = Ret true ba1 ∧
  SetPosition 0 ba1 = Ret tt ba2 ∧ WriteToFile true ba2 = Ret (Some file) ba2.
Proof.
  intros Hb.
  destruct (ReadFromFile_loop_spec (S (length file)) file (new_ByteArray base))
    as (ba1 & Hr & Hwf1 & Habs); [by apply wf_new|lia|].
  destruct (SetPosition_abs 0 ba1 Hwf1) as (ba2 & Hs & Hwf2 & Habs2 & _); [lia|].
  exists ba1, ba2. split_and!; [by unfold ReadFromFile; rewrite (bind_Ret _ _ _ _ _ Hr)|done|].
  rewrite WriteToFile_spec; [|done|left].
  - rewrite Habs2, Habs. unfold abs_left, abs_write, splice. simpl.
    by rewrite take_0, drop_nil, app_nil_r.
  - assert (position_ ba2 = 0) as ->; [by injection Habs2|]. apply Nat.Div0.mod_0_l.
Qed.

(** [WriteToFile] hands the stream a negative count when fewer bytes are
    left than the position is into its block: it only works from the start of a
    block, or with more than a block of data left. *)
Theorem WriteToFile_negative_count ba : wf ba →
  0 < size_ ba - position_ ba < position_ ba mod base_size_ ba →
  WriteToFile true ba = Undef out_of_bounds.
Proof. apply WriteToFile_negative. Qed.

(** The overload of [Read] with a position takes the offset from that
    position but the block from the cursor: what it returns are the bytes at
    that offset of the current block. *)
Theorem Read_at_uses_current_block n p ba : wf ba → 0 < n → p + n ≤ size_ ba →
  let q := position_ ba / base_size_ ba * base_size_ ba + p mod base_size_ ba in
  q + n ≤ capacity_ ba → Read_at n p ba = Ret (slice q n (flat (root_ ba))) ba.
Proof. intros Hwf Hn0 Hn q Hq. by apply Read_at_block. Qed.

(** A read of no bytes, such as that of an empty string, dereferences the
    null pointer when the position is the end of the last block. *)
Theorem Read_nothing_at_end ba : wf ba → position_ ba = capacity_ ba →
  Read 0 ba = Undef null_deref.
Proof. apply Read_zero_at_end. Qed.
End properties.

(** ** The properties at concrete arrays *)

Section examples.
Local Instance cc_memory : RawMemory := λ _ _, byte.of_Z 0xCC.

(** Two blocks of four bytes holding [server], the cursor at position [p]. *)
Definition server_at (p cur : nat) : ByteArray :=
  mkByteArray 4 p 8 6 [mkNode (bs "serv") 4; mkNode (bs "er__") 4] cur YGW_BIG_ENDIAN.

Lemma server_wf p : p ≤ 6 → wf (server_at p (p / 4)).
Proof. intros. constructor; simpl; try lia; try done. by repeat constructor. Qed.

Lemma reachable_safe_witness : wf (new_ByteArray 4) ∧ ∃ ba',
  (run_op (OWrite (bs "server")) (new_ByteArray 4) = Ret tt ba' ∨
   run_op (OWrite (bs "server")) (new_ByteArray 4) = Throw out_of_range ba') ∧ wf ba'.
Proof. apply (reachable_safe 4); [lia|constructor|done]. Defined.

Lemma ByteArray_refines_buffer_witness :
  (∀ d, ∃ ba', Write d (server_at 2 0) = Ret tt ba' ∧ wf ba' ∧
     abs ba' = abs_write d (mkBuf (bs "server") 2)) ∧
  (∀ n, 0 < n → n ≤ length (bs "rver") → ∃ ba',
     Read n (server_at 2 0) = Ret (take n (bs "rver")) ba' ∧ wf ba' ∧
     abs ba' = mkBuf (bs "server") (2 + n)) ∧
  (∀ n, 4 < n → Read n (server_at 2 0) = Throw out_of_range (server_at 2 0)) ∧
  (∀ v, v ≤ 6 → ∃ ba', SetPosition v (server_at 2 0) = Ret tt ba' ∧ wf ba' ∧
     abs ba' = mkBuf (bs "server") v) ∧
  (∀ v, 8 < v → SetPosition v (server_at 2 0) = Throw out_of_range (server_at 2 0)).
Proof. exact (ByteArray_refines_buffer (server_at 2 0) (server_wf 2 ltac:(lia))). Defined.

Lemma capacity_management_witness :
  (∃ ba', AddCapacity 9 (server_at 2 0) = Ret tt ba' ∧ wf ba' ∧ 11 ≤ capacity_ ba' ∧
     abs ba' = mkBuf (bs "server") 2 ∧ endian_ ba' = YGW_BIG_ENDIAN) ∧
  wf (Clear (server_at 2 0)) ∧ abs (Clear (server_at 2 0)) = mkBuf [] 0 ∧
  capacity_ (Clear (server_at 2 0)) = 4.
Proof. exact (capacity_management 9 (server_at 2 0) (server_wf 2 ltac:(lia))). Defined.

Lemma views_show_unread_witness :
  ToString (server_at 2 0) = Ret (bs "rver") (server_at 2 0) ∧
  (∃ iovs, GetReadBuffers [] 3 (server_at 2 0) = Ret (iovs, 3) (server_at 2 0) ∧
     iov_bytes (root_ (server_at 2 0)) iovs = bs "rve" ∧
     Forall (iov_ok (root_ (server_at 2 0))) iovs) ∧
  (∃ iovs ba', GetWriteBuffers [] 3 (server_at 2 0) = Ret (iovs, 3) ba' ∧ wf ba' ∧
     abs ba' = mkBuf (bs "server") 2 ∧
     iov_bytes (root_ ba') iovs = slice 2 3 (flat (root_ ba')) ∧
     Forall (iov_ok (root_ ba')) iovs ∧ list_sum (map iov_len iovs) = 3).
Proof.
  exact (views_show_unread (server_at 2 0) 3 (server_wf 2 ltac:(lia)) ltac:(lia)).
Defined.

Lemma file_roundtrip_witness : ∃ ba1 ba2,
  ReadFromFile (Some (bs "server_frame")) (new_ByteArray 5) = Ret true ba1 ∧
  SetPosition 0 ba1 = Ret tt ba2 ∧ WriteToFile true ba2 = Ret (Some (bs "server_frame")) ba2.
Proof. apply (file_roundtrip 5 (bs "server_frame")). lia. Defined.

(** Position 2 of the first block, with one byte left. *)
Lemma WriteToFile_negative_count_witness :
  WriteToFile true (mkByteArray 4 2 4 3 [mkNode (bs "serv") 4] 0 YGW_BIG_ENDIAN)
  = Undef out_of_bounds.
Proof.
  apply WriteToFile_negative_count; [|simpl; lia].
  constructor; simpl; try lia; try done. by repeat constructor.
Defined.

(** Asked for the two bytes at position 4, [er], the array gives [se]. *)
Lemma Read_at_uses_current_block_witness :
  Read_at 2 4 (server_at 1 0) = Ret (bs "se") (server_at 1 0).
Proof.
  exact (Read_at_uses_current_block 2 4 (server_at 1 0) (server_wf 1 ltac:(lia))
    ltac:(lia) ltac:(simpl; lia) ltac:(simpl; lia)).
Defined.

Lemma Read_nothing_at_end_witness :
  Read 0 (mkByteArray 4 4 4 4 [mkNode (bs "serv") 4] 1 YGW_BIG_ENDIAN) = Undef null_deref.
Proof.
  apply Read_nothing_at_end; [|done].
  constructor; simpl; try lia; try done. by repeat constructor.
Defined.
End examples.
