(* ===== verification/ZlibStream.v ===== *)
(** * Compression: [stream/zlib_stream.{h,cc}]

    The growing list of output buffers around a compressor or decompressor.  zlib
    itself is the interface [Zlib]: a call gets input and the room for output, and
    says what it left of the input and what it put out; [ZlibLaws] is what its manual
    promises.  [Encode] and [Decode] differ in the call only. *)
From stdpp Require Import list.
From S2P Require Import Prelude ByteBuffer ByteArray.

(** ** zlib *)

Definition Z_OK : Z := 0.
Definition Z_STREAM_ERROR : Z := -2.
Definition Z_DATA_ERROR : Z := -3.

(** The state of a stream, and [deflate] or [inflate]: the answer, the state, the rest
    of the input and the output, given the input, the room and whether to finish. *)
Class Zlib := {
  zst : Type;
  zstep : zst → bytes → nat → bool → Z * zst * bytes * bytes
}.

(** What is in use has taken some input and put out some output; the output of a
    finished stream codes its input.  [accepts] says which inputs are no errors. *)
Class ZlibLaws `{Zlib} := {
  running : zst → bytes → bytes → Prop;
  accepts : bytes → Prop;
  complete : bytes → Prop;
  coded : bytes → bytes → Prop;
  more : zst → bytes → bool → nat;
  accepts_prefix a b : accepts (a ++ b) → accepts a;
  zstep_law z ins outs input n fin : running z ins outs → accepts (ins ++ input) →
    ∃ ret z' taken rest out, zstep z input n fin = (ret, z', rest, out) ∧ ret ≠ Z_STREAM_ERROR ∧
      input = taken ++ rest ∧ length out ≤ n ∧ running z' (ins ++ taken) (outs ++ out) ∧
      (length out < n → rest = [] ∧ (fin = true → complete (ins ++ input) → coded (ins ++ input) (outs ++ out))) ∧
      (length out = n → 0 < n → more z' rest fin < more z input fin)
}.

Section stream.
Context `{Zlib}.

(** ** State *)

(** The buffers hold what was put out, and have room for [buff_size_] bytes each; the
    stream is gone after [deflateEnd] or [inflateEnd]. *)
Record ZlibStream := mkZlib { zstream_ : option zst; buffs_ : list bytes; buff_size_ : nat }.

Inductive Type_ := kZLib | kDeflate | kGZip.

(** The parameters that [deflateInit2] and [inflateInit2] get; [init] answers. *)
Definition Init_bits (type : Type_) (level window_bits memlevel : Z) : M unit Z :=
  massert ((0 <=? level) && (level <=? 9) || (level =? -1))%Z ;;
  massert ((8 <=? window_bits) && (window_bits <=? 15))%Z ;;
  massert ((1 <=? memlevel) && (memlevel <=? 9))%Z ;;
  mret (match type with kDeflate => - window_bits | kGZip => window_bits + 16 | kZLib => window_bits end)%Z.
Definition Create (init : Z → Z → Z → option zst) (buff_size : nat) (type : Type_) (level window_bits memlevel : Z) :
    M unit (option ZlibStream) :=
  bits ← Init_bits type level window_bits memlevel;
  mret (match init bits level memlevel with Some z => Some (mkZlib (Some z) [] buff_size) | None => None end).
(** [CreateGzip], [CreateZlib] and [CreateDeflate] pass the defaults. *)
Definition Create_default init buff_size type : M unit (option ZlibStream) := Create init buff_size type (-1) 15 8.

(** ** Coding *)

(** The last buffer, if it has room, or a new one; and those in front of it. *)
Definition room (s : ZlibStream) : list bytes * bytes :=
  match last (buffs_ s) with
  | Some b => if length b =? buff_size_ s then (buffs_ s, []) else (removelast (buffs_ s), b)
  | None => ([], [])
  end.

(** The loop for one piece of input, while the buffer got full. *)
Fixpoint Code_loop (fuel : nat) (input : bytes) (finish : bool) : M ZlibStream (option Z) := λ s,
  match fuel with
  | O => NoFuel
  | S fuel =>
    let '(front, b) := room s in
    let n := buff_size_ s - length b in
    match zstream_ s with
    | None => Ret (Some Z_STREAM_ERROR) (mkZlib None (front ++ [b]) (buff_size_ s))
    | Some z =>
      let '(ret, z, rest, out) := zstep z input n finish in
      if bool_decide (ret = Z_STREAM_ERROR) then Ret (Some ret) (mkZlib (Some z) (front ++ [b]) (buff_size_ s))
      else
        let s := mkZlib (Some z) (front ++ [b ++ out]) (buff_size_ s) in
        if length out =? n then Code_loop fuel rest finish s else Ret None s
    end
  end.

(** [avail_in] has 32 bits. *)
Definition avail_in (piece : bytes) : bytes := take (Z.to_nat (u32 (Z.of_nat (length piece)))) piece.

Fixpoint Code_pieces (fuel : nat) (v : list bytes) (finish : bool) : M ZlibStream (option Z) :=
  match v with
  | [] => mret None
  | piece :: v =>
    r ← Code_loop fuel (avail_in piece) (finish && bool_decide (v = []));
    match r with Some ret => mret (Some ret) | None => Code_pieces fuel v finish end
  end.

(** [flush] is [Z_FINISH] at the end when the last piece was there to finish. *)
Definition Code (fuel : nat) (v : list bytes) (finish : bool) : M ZlibStream Z :=
  r ← Code_pieces fuel v finish;
  match r with
  | Some ret => mret ret
  | None =>
    (if finish && negb (bool_decide (v = [])) then modify (λ s, mkZlib None (buffs_ s) (buff_size_ s)) else mret tt) ;;
    mret Z_OK
  end.

Definition ZWrite (fuel : nat) (data : bytes) : M ZlibStream Z := Code fuel [data] false.
(** From an array; [&buffers[0]] of an empty vector is out of bounds. *)
Definition ZWrite_array (fuel : nat) (ba : ByteArray) (len : Z) : M ZlibStream Z := λ s,
  match GetReadBuffers [] len ba with
  | Ret (iovs, _) _ =>
    if bool_decide (iovs = []) then Undef out_of_bounds
    else Code fuel (map (λ v, iov_bytes (root_ ba) [v]) iovs) false s
  | Throw e _ => Throw e s
  | Undef u => Undef u
  | NoFuel => NoFuel
  end.
Definition Flush (fuel : nat) : M ZlibStream Z := Code fuel [[]] true.
Definition ZRead : M ZlibStream Z := throw logic_error.

Definition GetResult (s : ZlibStream) : bytes := concat (buffs_ s).

Context `{RawMemory}.
Fixpoint Write_all (ds : list bytes) : M ByteArray unit :=
  match ds with [] => mret tt | d :: ds => Write d ;; Write_all ds end.
Definition GetByteArray (s : ZlibStream) : M ByteArray unit := Write_all (buffs_ s) ;; SetPosition 0.
End stream.

(** ** The buffers *)

Section laws.
Context `{ZlibLaws}.

(** Every buffer but the last one is full. *)
Definition blocks_ok (s : ZlibStream) : Prop :=
  ∃ front b, (buffs_ s = front ++ [b] ∨ buffs_ s = front ∧ b = []) ∧ Forall (λ b, length b = buff_size_ s) front ∧ length b ≤ buff_size_ s.

Lemma room_ok s front b : blocks_ok s → 0 < buff_size_ s → room s = (front, b) →
  GetResult s = concat front ++ b ∧ Forall (λ b, length b = buff_size_ s) front ∧ length b < buff_size_ s.
Proof.
  intros (f & c & Hb & Hf & Hc) Hpos. unfold room, GetResult. destruct Hb as [->|[-> ->]].
  - rewrite last_snoc. destruct (Nat.eqb_spec (length c) (buff_size_ s)) as [He|He]; intros [= <- <-].
    + rewrite app_nil_r. split; [done|]. split; [apply Forall_app; split; [done|by constructor]|done].
    + rewrite removelast_last, concat_app. cbn. rewrite app_nil_r. split_and!; [done..|lia].
  - destruct (last f) as [d|] eqn:Hd.
    + apply last_Some in Hd as [g ->]. apply Forall_app in Hf as [Hg Hd]. apply Forall_cons in Hd as [Hd _].
      rewrite Hd, Nat.eqb_refl. intros [= <- <-]. rewrite app_nil_r. split_and!; [done| |done]. apply Forall_app; split; [done|by constructor].
    + apply last_None in Hd as ->. intros [= <- <-]. by split_and!.
Qed.

(** A stream that took [ins] so far and put out what the buffers hold. *)
Record coding (s : ZlibStream) (ins : bytes) : Prop := {
  cd_size : 0 < buff_size_ s;
  cd_blocks : blocks_ok s;
  cd_running : ∃ z, zstream_ s = Some z ∧ running z ins (GetResult s)
}.

Lemma Code_loop_ok finish k : ∀ s ins input z, coding s ins → zstream_ s = Some z → running z ins (GetResult s) →
  accepts (ins ++ input) → more z input finish < k →
  ∃ s', (∀ fuel, k ≤ fuel → Code_loop fuel input finish s = Ret None s') ∧ coding s' (ins ++ input) ∧
    buff_size_ s' = buff_size_ s ∧ (finish = true → complete (ins ++ input) → coded (ins ++ input) (GetResult s')).
Proof.
  induction k as [|k IH]; intros s ins input z [Hpos Hb _] Hz Hr Ha Hm; [lia|].
  destruct (room s) as [front b] eqn:Hroom. destruct (room_ok s front b Hb Hpos Hroom) as (Hres & Hf & Hlen).
  set (n := buff_size_ s - length b). rewrite Hres in Hr.
  destruct (zstep_law z ins _ input n finish Hr Ha) as (ret & z' & taken & rest & out & Hs & Hret & Hin & Hout & Hr' & Hdone & Hfull).
  set (s1 := mkZlib (Some z') (front ++ [b ++ out]) (buff_size_ s)).
  assert (GetResult s1 = (concat front ++ b) ++ out) as Hres1.
  { unfold GetResult, s1. cbn [buffs_]. rewrite concat_app. cbn. by rewrite app_nil_r, app_assoc. }
  assert (coding s1 (ins ++ taken)) as Hs1.
  { split; [done| |exists z'; by rewrite Hres1]. exists front, (b ++ out). cbn. split_and!; [by left|done|rewrite length_app; lia]. }
  assert (∀ fuel, Code_loop (S fuel) input finish s = if length out =? n then Code_loop fuel rest finish s1 else Ret None s1) as Hrun.
  { intros fuel. cbn [Code_loop]. rewrite Hroom, Hz. fold n. rewrite Hs. by rewrite bool_decide_false. }
  destruct (Nat.eqb_spec (length out) n) as [He|He].
  - destruct (IH s1 (ins ++ taken) rest z') as (s' & Hall & Hc & Hsz & Hcoded); [done|done|by rewrite Hres1| |specialize (Hfull He); lia|].
    { by rewrite <- app_assoc, <- Hin. }
    rewrite <- app_assoc, <- Hin in Hc, Hcoded. exists s'. split; [|by split].
    intros [|fuel] Hfuel; [lia|]. rewrite Hrun. apply Hall. lia.
  - destruct Hdone as [-> Hcoded]; [lia|]. rewrite app_nil_r in Hin. subst taken. exists s1. split_and!; [|done|done|by rewrite Hres1].
    intros [|fuel] Hfuel; [lia|]. apply Hrun.
Qed.

Lemma avail_in_all d : (Z.of_nat (length d) < 2 ^ 32)%Z → avail_in d = d.
Proof. intros Hd. unfold avail_in. rewrite wrap_small by (unfold in_u; lia). by rewrite Nat2Z.id, firstn_all. Qed.

Fixpoint ZWrite_all (fuel : nat) (ds : list bytes) : M ZlibStream unit :=
  match ds with [] => mret tt | d :: ds => ZWrite fuel d ;; ZWrite_all fuel ds end.

Lemma ZWrite_all_ok ds : ∀ s ins, coding s ins → Forall (λ d, (Z.of_nat (length d) < 2 ^ 32)%Z) ds → accepts (ins ++ concat ds) →
  ∃ k s', (∀ fuel, k ≤ fuel → ZWrite_all fuel ds s = Ret tt s') ∧ coding s' (ins ++ concat ds) ∧ buff_size_ s' = buff_size_ s.
Proof.
  induction ds as [|d ds IH]; intros s ins Hc Hd Ha; [exists 0, s; cbn; by rewrite app_nil_r|].
  apply Forall_cons in Hd as [Hd Hds]. cbn [concat] in *. rewrite app_assoc in Ha. pose proof (accepts_prefix _ _ Ha) as Ha1.
  pose proof Hc as [_ _ (z & Hz & Hr)].
  destruct (Code_loop_ok false (S (more z d false)) s ins d z Hc Hz Hr Ha1) as (s1 & Hrun & Hc1 & Hs1 & _); [lia|].
  destruct (IH s1 _ Hc1 Hds Ha) as (k & s' & Hrun' & Hc' & Hs'). exists (S (more z d false) + k), s'.
  split; [|rewrite app_assoc; split; [done|congruence]]. intros fuel Hfuel. cbn [ZWrite_all].
  assert (ZWrite fuel d s = Ret Z_OK s1) as Hw.
  { unfold ZWrite, Code. cbn [Code_pieces andb]. rewrite avail_in_all by done. unfold mbind, M_bind. by rewrite Hrun by lia. }
  erewrite bind_Ret by exact Hw. apply Hrun'. lia.
Qed.

Lemma Flush_ok s ins : coding s ins → accepts ins →
  ∃ k s', (∀ fuel, k ≤ fuel → Flush fuel s = Ret Z_OK s') ∧ blocks_ok s' ∧ buff_size_ s' = buff_size_ s ∧
    (complete ins → coded ins (GetResult s')).
Proof.
  intros Hc Ha. pose proof Hc as [_ _ (z & Hz & Hr)].
  destruct (Code_loop_ok true (S (more z [] true)) s ins [] z Hc Hz Hr) as (s1 & Hrun & Hc1 & Hs1 & Hcoded); [by rewrite app_nil_r|lia|].
  rewrite app_nil_r in *. exists (S (more z [] true)), (mkZlib None (buffs_ s1) (buff_size_ s1)). split_and!; [|apply Hc1|done|by apply Hcoded].
  intros fuel Hfuel. unfold Flush, Code. cbn [Code_pieces]. unfold mbind, M_bind.
  change (avail_in []) with (@nil byte). by rewrite Hrun by lia.
Qed.

(** A stream that is made, written to in pieces and flushed. *)
Definition code_all (fuel : nat) (z : zst) (buff_size : nat) (ds : list bytes) : result ZlibStream Z :=
  (ZWrite_all fuel ds ;; Flush fuel) (mkZlib (Some z) [] buff_size).

Lemma code_all_ok z buff_size ds : running z [] [] → 0 < buff_size →
  Forall (λ d, (Z.of_nat (length d) < 2 ^ 32)%Z) ds → accepts (concat ds) →
  ∃ k s', (∀ fuel, k ≤ fuel → code_all fuel z buff_size ds = Ret Z_OK s') ∧ blocks_ok s' ∧ buff_size_ s' = buff_size ∧
    (complete (concat ds) → coded (concat ds) (GetResult s')).
Proof.
  intros Hz Hpos Hds Ha. assert (coding (mkZlib (Some z) [] buff_size) []) as Hc.
  { split; [done| |by exists z]. exists [], []. cbn. split_and!; [by right|constructor|lia]. }
  destruct (ZWrite_all_ok ds _ [] Hc Hds Ha) as (k1 & s1 & H1 & Hc1 & Hs1). cbn [app] in Hc1.
  destruct (Flush_ok s1 _ Hc1 Ha) as (k2 & s2 & H2 & Hb & Hs2 & Hcoded). exists (k1 + k2), s2.
  split_and!; [|done|by rewrite Hs2|done]. intros fuel Hfuel. unfold code_all. erewrite bind_Ret by (apply H1; lia). apply H2. lia.
Qed.

Lemma Write_all_ok `{RawMemory} ds : ∀ ba, wf ba → ∃ ba', Write_all ds ba = Ret tt ba' ∧ wf ba' ∧ abs ba' = abs_write (concat ds) (abs ba).
Proof.
  induction ds as [|d ds IH]; intros ba Hwf; cbn [Write_all concat].
  { exists ba. split_and!; [done|done|]. rewrite abs_write_nil; [done|]. rewrite length_content by done. cbn. by destruct Hwf. }
  destruct (Write_spec d ba Hwf) as (ba1 & Hr & Hwf1 & Ha1 & _). destruct (IH ba1 Hwf1) as (ba2 & Hr2 & Hwf2 & Ha2).
  exists ba2. erewrite bind_Ret by exact Hr. split_and!; [done..|]. rewrite Ha2, Ha1, abs_write_app; [done|].
  rewrite length_content by done. cbn. by destruct Hwf.
Qed.

(** A stream that is written to in any pieces and flushed ends, answers [Z_OK]
    throughout, and the result holds the coded form of what was written, however the
    output fell into buffers; every buffer but the last one is full, and no buffer
    has more than its size.  The same bytes are in the array of [GetByteArray], to be
    read from its start. *)
Theorem stream_codes `{RawMemory} (z : zst) (buff_size : nat) (ds : list bytes) (ba : ByteArray) :
  running z [] [] → 0 < buff_size → Forall (λ d, (Z.of_nat (length d) < 2 ^ 32)%Z) ds → accepts (concat ds) →
  complete (concat ds) → wf ba → position_ ba = 0 → size_ ba = 0 →
  ∃ k s ba', (∀ fuel, k ≤ fuel → code_all fuel z buff_size ds = Ret Z_OK s) ∧ coded (concat ds) (GetResult s) ∧ blocks_ok s ∧
    GetByteArray s ba = Ret tt ba' ∧ wf ba' ∧ abs ba' = mkBuf (GetResult s) 0.
Proof.
  intros Hz Hpos Hds Ha Hco Hwf Hp Hsz. destruct (code_all_ok z buff_size ds Hz Hpos Hds Ha) as (k & s & Hrun & Hb & _ & Hcoded).
  destruct (Write_all_ok (buffs_ s) ba Hwf) as (ba1 & Hw & Hwf1 & Ha1). destruct (SetPosition_abs 0 ba1 Hwf1) as (ba2 & Hs & Hwf2 & Ha2 & _); [lia|].
  exists k, s, ba2. split_and!; [done|by apply Hcoded|done| |done|].
  - unfold GetByteArray. by erewrite bind_Ret by exact Hw.
  - assert (abs ba = mkBuf [] 0) as He by (unfold abs; by rewrite Hp, Hsz). rewrite Ha2, Ha1, He.
    unfold abs_write, splice. cbn. by rewrite drop_nil, app_nil_r.
Qed.
End laws.

(** C34: what one stream compressed another one decompresses, in whatever pieces, each
    shorter than 2 to the 32 bytes, either of them was written, and whatever the sizes of
    their buffers, if they are positive (of size 0 see [no_room_never_returns]). *)
Theorem compressed_reads_back `{ZlibLaws} {H2 : Zlib} {L2 : @ZlibLaws H2} (z : zst) (z2 : @zst H2) (buff_size buff_size2 : nat)
    (ds : list bytes) :
  (∀ a b, coded a b → @accepts _ L2 b ∧ @complete _ L2 b ∧ ∀ c, @coded _ L2 b c → c = a) →
  running z [] [] → @running _ L2 z2 [] [] → 0 < buff_size → 0 < buff_size2 →
  Forall (λ d, (Z.of_nat (length d) < 2 ^ 32)%Z) ds → accepts (concat ds) → complete (concat ds) →
  ∃ k s, (∀ fuel, k ≤ fuel → code_all fuel z buff_size ds = Ret Z_OK s) ∧
    ∀ es, concat es = GetResult s → Forall (λ d, (Z.of_nat (length d) < 2 ^ 32)%Z) es →
      ∃ k2 s2, (∀ fuel, k2 ≤ fuel → code_all fuel z2 buff_size2 es = Ret Z_OK s2) ∧ GetResult s2 = concat ds.
Proof.
  intros Hinv Hz Hz2 Hb Hb2 Hds Ha Hco. destruct (code_all_ok z buff_size ds Hz Hb Hds Ha) as (k & s & Hrun & _ & _ & Hcoded).
  destruct (Hinv _ _ (Hcoded Hco)) as (Ha2 & Hco2 & Hback). exists k, s. split; [done|]. intros es Hes Hl.
  destruct (code_all_ok z2 buff_size2 es Hz2 Hb2 Hl) as (k2 & s2 & Hrun2 & _ & _ & Hcoded2); [by rewrite Hes|].
  exists k2, s2. split; [done|]. apply Hback. rewrite <- Hes. apply Hcoded2. by rewrite Hes.
Qed.

(** An answer that the data is no stream is taken for success: [Decode] looks for
    [Z_STREAM_ERROR] only, so that corrupt input gives an empty or cut result and
    [Z_OK]. *)
Theorem corrupt_input_is_ok `{Zlib} (z z' : zst) (d : bytes) (buff_size fuel : nat) : 0 < buff_size →
  (Z.of_nat (length d) < 2 ^ 32)%Z → zstep z d buff_size false = (Z_DATA_ERROR, z', d, []) →
  ∃ s, ZWrite (S fuel) d (mkZlib (Some z) [] buff_size) = Ret Z_OK s ∧ GetResult s = [].
Proof.
  intros Hpos Hd Hz. exists (mkZlib (Some z') [[]] buff_size). split; [|done]. unfold ZWrite, Code. cbn [Code_pieces andb].
  rewrite avail_in_all by done. unfold mbind, M_bind. cbn [Code_loop room buffs_ last length zstream_ buff_size_].
  rewrite Nat.sub_0_r, Hz. cbn [bool_decide]. rewrite bool_decide_false by done. cbn [length].
  by rewrite (proj2 (Nat.eqb_neq 0 buff_size)) by lia.
Qed.

(** With buffers of no bytes, which [Create] accepts, a write never returns. *)
Theorem no_room_never_returns `{ZlibLaws} (z : zst) (d : bytes) (fuel : nat) : running z [] [] → (∀ x, accepts x) →
  ZWrite fuel d (mkZlib (Some z) [] 0) = NoFuel.
Proof.
  intros Hr Ha. unfold ZWrite, Code, mbind, M_bind. cbn [Code_pieces andb]. unfold mbind, M_bind.
  assert (∀ input ins outs z l, Forall (λ b, b = []) l → running z ins outs →
    Code_loop fuel input false (mkZlib (Some z) l 0) = NoFuel) as Hloop; [|by rewrite (Hloop _ [] [] z [] (Forall_nil_2 _) Hr)].
  clear Hr z. induction fuel as [|fuel IH]; intros input ins outs z l Hl Hr; [done|]. cbn [Code_loop buff_size_ zstream_].
  assert (room (mkZlib (Some z) l 0) = (l, [])) as ->.
  { unfold room. cbn. destruct (last l) as [b|] eqn:E; [|by apply last_None in E as ->].
    apply last_Some in E as [g ->]. apply Forall_app in Hl as [_ Hb]. apply Forall_cons in Hb as [-> _]. done. }
  cbn [length Nat.sub].
  destruct (zstep_law z ins outs input 0 false Hr (Ha _)) as (ret & z' & taken & rest & out & Hs & Hret & _ & Hout & Hr' & _).
  rewrite Hs, bool_decide_false by done. destruct out; [|cbn in Hout; lia]. cbn. eapply IH; [|exact Hr'].
  apply Forall_app; split; [done|by constructor].
Qed.

(** ** Examples *)

(** Storing, with output held back until there is room. *)
#[local] Instance store : Zlib := {|
  zst := bytes; zstep z input n fin := (Z_OK, drop n (z ++ input), [], take n (z ++ input)) |}.
#[local] Instance store_laws : ZlibLaws.
Proof.
  refine {| running z ins outs := ins = outs ++ z; accepts _ := True; complete _ := True; coded a b := a = b;
            more z input _ := length (z ++ input) |}; [done|].
  intros z ins outs input n fin -> _. do 5 eexists. split; [reflexivity|]. split; [done|]. split; [by rewrite app_nil_r|].
  split; [rewrite length_take; lia|]. split; [by rewrite <- !app_assoc, take_drop|]. split.
  - rewrite length_take. intros Hn. split; [done|]. intros _ _. rewrite firstn_all2 by lia. by rewrite <- !app_assoc.
  - rewrite length_take, app_nil_r, length_drop. lia.
Defined.

#[local] Instance plain_memory : RawMemory := λ _ _, byte.of_Z 0.

Lemma stream_codes_witness : ∃ k s ba', (∀ fuel, k ≤ fuel → code_all fuel [] 4 [bs "abcdef"; bs "gh"] = Ret Z_OK s) ∧
  bs "abcdefgh" = GetResult s ∧ blocks_ok s ∧ GetByteArray s (new_ByteArray 4) = Ret tt ba' ∧ wf ba' ∧ abs ba' = mkBuf (GetResult s) 0.
Proof.
  apply (stream_codes (H0 := store_laws) [] 4 [bs "abcdef"; bs "gh"] (new_ByteArray 4)); try done; [lia|by repeat constructor|].
  apply wf_new. lia.
Defined.

Lemma compressed_reads_back_witness : ∃ k s, (∀ fuel, k ≤ fuel → code_all fuel [] 4 [bs "abc"; bs "def"] = Ret Z_OK s) ∧
  ∀ es, concat es = GetResult s → Forall (λ d, (Z.of_nat (length d) < 2 ^ 32)%Z) es →
    ∃ k2 s2, (∀ fuel, k2 ≤ fuel → code_all fuel [] 3 es = Ret Z_OK s2) ∧ GetResult s2 = bs "abcdef".
Proof.
  apply (compressed_reads_back (H0 := store_laws) (L2 := store_laws) [] [] 4 3 [bs "abc"; bs "def"]); try done; [|lia|lia|by repeat constructor].
  intros a b ->. split_and!; [done|done|]. by intros c ->.
Defined.

Lemma corrupt_input_is_ok_witness :
  let refuse : Zlib := {| zst := unit; zstep z input n fin := (Z_DATA_ERROR, tt, input, []) |} in
  ∃ s, @ZWrite refuse 1 (bs "junk") (@mkZlib refuse (Some tt) [] 4096) = Ret Z_OK s ∧ @GetResult refuse s = [].
Proof. intros refuse. apply (@corrupt_input_is_ok refuse tt tt (bs "junk") 4096 0); [lia|done|done]. Defined.

Lemma no_room_never_returns_witness : ∀ fuel, ZWrite fuel (bs "x") (mkZlib (Some []) [] 0) = NoFuel.
Proof. intros fuel. by apply (no_room_never_returns (H0 := store_laws) [] (bs "x") fuel). Defined.
