(* ===== verification/ByteCodec.v ===== *)
(** * The typed readers and writers of [server_frame/bytearray.cc]

    Fixed-width integers in the byte order of the array, zigzag and base-128
    integers, floating-point values (as bit patterns) and strings, over any
    implementation of the interface [ByteBuffer]; and [Byteswap] of [endian.h].

    The host's byte order is a parameter ([HostOrder]): the theorems hold for
    little-endian and big-endian hosts alike. *)
From S2P Require Import Prelude ByteBuffer.
From coqutil Require Import Word.LittleEndianList.
Local Open Scope Z_scope.

(** [YGW_BYTE_ORDER]. *)
Class HostOrder := YGW_BYTE_ORDER : Endian.

(** ** [endian.h] *)

(** [bswap_16], [bswap_32] and [bswap_64] of the value cast to unsigned, cast
    back to the type [T], [cast] being the conversion to [T]. *)
Definition Byteswap (n : nat) (cast : Z → Z) (value : Z) : Z := cast (bswap n value).

Definition ByteswapOnLittleEndian `{HostOrder} (n : nat) (cast : Z → Z) (t : Z) : Z :=
  match YGW_BYTE_ORDER with
  | YGW_BIG_ENDIAN => t
  | YGW_LITTLE_ENDIAN => Byteswap n cast t
  end.

Definition ByteswapOnBigEndian `{HostOrder} (n : nat) (cast : Z → Z) (t : Z) : Z :=
  match YGW_BYTE_ORDER with
  | YGW_BIG_ENDIAN => Byteswap n cast t
  | YGW_LITTLE_ENDIAN => t
  end.

(** The bytes in memory of an [n]-byte integer in the byte order [e], and the
    (unsigned) integer they hold. *)
Definition bytes_of (e : Endian) (n : nat) (v : Z) : bytes :=
  match e with YGW_LITTLE_ENDIAN => le_split n v | YGW_BIG_ENDIAN => rev (le_split n v) end.
Definition value_of (e : Endian) (d : bytes) : Z :=
  match e with YGW_LITTLE_ENDIAN => le_combine d | YGW_BIG_ENDIAN => le_combine (rev d) end.

(** ** Operations *)

Section codec.
Context {B : Type} `{BufferOps B} `{HostOrder} `{OverflowMode}.

(** The object representation of an [n]-byte integer on the host. *)
Definition object_bytes (n : nat) (v : Z) : bytes := bytes_of YGW_BYTE_ORDER n v.
Definition object_value (d : bytes) : Z := value_of YGW_BYTE_ORDER d.

(** *** Fixed-width integers *)

Definition WriteFint8 (value : Z) : M B unit := buf_write (object_bytes 1 value).
Definition WriteFuint8 (value : Z) : M B unit := buf_write (object_bytes 1 value).

(** The macro [XX(value)] of the writers. *)
Definition XX_write (n : nat) (cast : Z → Z) (value : Z) : M B unit :=
  b ← get;
  let value := if bool_decide (buf_endian b ≠ YGW_BYTE_ORDER) then Byteswap n cast value
               else value in
  buf_write (object_bytes n value).

Definition WriteFint16 : Z → M B unit := XX_write 2 (swrap 16).
Definition WriteFuint16 : Z → M B unit := XX_write 2 u16.
Definition WriteFint32 : Z → M B unit := XX_write 4 s32.
Definition WriteFuint32 : Z → M B unit := XX_write 4 u32.
Definition WriteFint64 : Z → M B unit := XX_write 8 s64.
Definition WriteFuint64 : Z → M B unit := XX_write 8 u64.

Definition ReadFint8 : M B Z := d ← buf_read 1; mret (swrap 8 (object_value d)).
Definition ReadFuint8 : M B Z := d ← buf_read 1; mret (u8 (object_value d)).

(** The macro [XX(type)] of the readers. *)
Definition XX_read (n : nat) (cast : Z → Z) : M B Z :=
  d ← buf_read n;
  let v := cast (object_value d) in
  b ← get;
  if bool_decide (buf_endian b = YGW_BYTE_ORDER) then mret v else mret (Byteswap n cast v).

Definition ReadFint16 : M B Z := XX_read 2 (swrap 16).
Definition ReadFuint16 : M B Z := XX_read 2 u16.
Definition ReadFint32 : M B Z := XX_read 4 s32.
Definition ReadFuint32 : M B Z := XX_read 4 u32.
Definition ReadFint64 : M B Z := XX_read 8 s64.
Definition ReadFuint64 : M B Z := XX_read 8 u64.

(** *** Zigzag *)

Definition EncodeZigzag32 (v : Z) : M B Z :=
  if v <? 0 then n ← sint 32 (- v); mret (u32 (u32 (u32 n * 2) - 1))
  else n ← sint 32 (v * 2); mret (u32 n).

Definition EncodeZigzag64 (v : Z) : M B Z :=
  if v <? 0 then n ← sint 64 (- v); mret (u64 (u64 (u64 n * 2) - 1))
  else n ← sint 64 (v * 2); mret (u64 n).

Definition DecodeZigzag32 (v : Z) : Z :=
  s32 (Z.lxor (Z.shiftr v 1) (u32 (- Z.land v 1))).

Definition DecodeZigzag64 (v : Z) : Z :=
  s64 (Z.lxor (Z.shiftr v 1) (u64 (- Z.land v 1))).

(** *** Base-128 integers *)

(** The [while (value >= 0x80)] loop and the assignment after it. *)
Fixpoint WriteUint_loop (cap fuel : nat) (value : Z) (tmp : bytes) : M B bytes :=
  if 0x80 <=? value then
    match fuel with
    | O => λ _, NoFuel
    | S fuel =>
      tmp ← push cap tmp (Z.lor (Z.land value 0x7F) 0x80);
      WriteUint_loop cap fuel (Z.shiftr value 7) tmp
    end
  else push cap tmp (u8 value).

Definition WriteUint32 (value : Z) : M B unit := tmp ← WriteUint_loop 5 5 value []; buf_write tmp.
Definition WriteUint64 (value : Z) : M B unit := tmp ← WriteUint_loop 10 10 value []; buf_write tmp.
Definition WriteInt32 (value : Z) : M B unit := v ← EncodeZigzag32 value; WriteUint32 v.
Definition WriteInt64 (value : Z) : M B unit := v ← EncodeZigzag64 value; WriteUint64 v.

(** The [for (int i = 0; i < w; i += 7)] loop. *)
Fixpoint ReadUint_loop (w : Z) (fuel : nat) (i result : Z) : M B Z :=
  if i <? w then
    match fuel with
    | O => λ _, NoFuel
    | S fuel =>
      b ← ReadFuint8;
      if b <? 0x80 then mret (Z.lor result (wrap w (Z.shiftl b i)))
      else ReadUint_loop w fuel (i + 7) (Z.lor result (wrap w (Z.shiftl (Z.land b 0x7f) i)))
    end
  else mret result.

Definition ReadUint32 : M B Z := ReadUint_loop 32 5 0 0.
Definition ReadUint64 : M B Z := ReadUint_loop 64 10 0 0.
Definition ReadInt32 : M B Z := DecodeZigzag32 <$> ReadUint32.
Definition ReadInt64 : M B Z := DecodeZigzag64 <$> ReadUint64.

(** *** Floating point: a [float] or [double] is its bit pattern *)

Definition WriteFloat (value : Z) : M B unit := WriteFuint32 value.
Definition WriteDouble (value : Z) : M B unit := WriteFuint64 value.
Definition ReadFloat : M B Z := ReadFuint32.
Definition ReadDouble : M B Z := ReadFuint64.

(** *** Strings *)

(** [std::string::size()]. *)
Definition ssize (value : bytes) : Z := Z.of_nat (length value).

Definition WriteStringF16 (value : bytes) : M B unit :=
  WriteFuint16 (u16 (ssize value)) ;; buf_write value.
Definition WriteStringF32 (value : bytes) : M B unit :=
  WriteFuint32 (u32 (ssize value)) ;; buf_write value.
Definition WriteStringF64 (value : bytes) : M B unit :=
  WriteFuint64 (ssize value) ;; buf_write value.
Definition WriteStringVint (value : bytes) : M B unit :=
  WriteUint64 (ssize value) ;; buf_write value.
Definition WriteStringWithoutLength (value : bytes) : M B unit := buf_write value.

(** [buff.resize(len); Read(&buff[0], len)]: a length over [max_size()] throws. *)
Definition read_buff (len : Z) : M B bytes :=
  if 2 ^ 63 - 1 <? len then throw length_error else buf_read (Z.to_nat len).

Definition ReadStringF16 : M B bytes := len ← ReadFuint16; read_buff len.
Definition ReadStringF32 : M B bytes := len ← ReadFuint32; read_buff len.
Definition ReadStringF64 : M B bytes := len ← ReadFuint64; read_buff len.
Definition ReadStringVint : M B bytes := len ← ReadUint64; read_buff len.

End codec.

(** ** Messages: sequences of typed values *)

Inductive item :=
  | Fint8 (v : Z) | Fuint8 (v : Z) | Fint16 (v : Z) | Fuint16 (v : Z)
  | Fint32 (v : Z) | Fuint32 (v : Z) | Fint64 (v : Z) | Fuint64 (v : Z)
  | Int32 (v : Z) | Uint32 (v : Z) | Int64 (v : Z) | Uint64 (v : Z)
  | Float (v : Z) | Double (v : Z)
  | StringF16 (s : bytes) | StringF32 (s : bytes) | StringF64 (s : bytes)
  | StringVint (s : bytes).

Section items.
Context {B : Type} `{BufferOps B} `{HostOrder} `{OverflowMode}.

Definition write_item (i : item) : M B unit :=
  match i with
  | Fint8 v => WriteFint8 v | Fuint8 v => WriteFuint8 v
  | Fint16 v => WriteFint16 v | Fuint16 v => WriteFuint16 v
  | Fint32 v => WriteFint32 v | Fuint32 v => WriteFuint32 v
  | Fint64 v => WriteFint64 v | Fuint64 v => WriteFuint64 v
  | Int32 v => WriteInt32 v | Uint32 v => WriteUint32 v
  | Int64 v => WriteInt64 v | Uint64 v => WriteUint64 v
  | Float v => WriteFloat v | Double v => WriteDouble v
  | StringF16 s => WriteStringF16 s | StringF32 s => WriteStringF32 s
  | StringF64 s => WriteStringF64 s | StringVint s => WriteStringVint s
  end.

(** The reader that matches the writer of an item: only the item's kind is used. *)
Definition read_item (i : item) : M B item :=
  match i with
  | Fint8 _ => Fint8 <$> ReadFint8 | Fuint8 _ => Fuint8 <$> ReadFuint8
  | Fint16 _ => Fint16 <$> ReadFint16 | Fuint16 _ => Fuint16 <$> ReadFuint16
  | Fint32 _ => Fint32 <$> ReadFint32 | Fuint32 _ => Fuint32 <$> ReadFuint32
  | Fint64 _ => Fint64 <$> ReadFint64 | Fuint64 _ => Fuint64 <$> ReadFuint64
  | Int32 _ => Int32 <$> ReadInt32 | Uint32 _ => Uint32 <$> ReadUint32
  | Int64 _ => Int64 <$> ReadInt64 | Uint64 _ => Uint64 <$> ReadUint64
  | Float _ => Float <$> ReadFloat | Double _ => Double <$> ReadDouble
  | StringF16 _ => StringF16 <$> ReadStringF16 | StringF32 _ => StringF32 <$> ReadStringF32
  | StringF64 _ => StringF64 <$> ReadStringF64 | StringVint _ => StringVint <$> ReadStringVint
  end.

(** The kind of an item, as an item with no contents. *)
Definition shape (i : item) : item :=
  match i with
  | Fint8 _ => Fint8 0 | Fuint8 _ => Fuint8 0 | Fint16 _ => Fint16 0 | Fuint16 _ => Fuint16 0
  | Fint32 _ => Fint32 0 | Fuint32 _ => Fuint32 0 | Fint64 _ => Fint64 0 | Fuint64 _ => Fuint64 0
  | Int32 _ => Int32 0 | Uint32 _ => Uint32 0 | Int64 _ => Int64 0 | Uint64 _ => Uint64 0
  | Float _ => Float 0 | Double _ => Double 0
  | StringF16 _ => StringF16 [] | StringF32 _ => StringF32 [] | StringF64 _ => StringF64 []
  | StringVint _ => StringVint []
  end.

Fixpoint write_items (its : list item) : M B unit :=
  match its with [] => mret tt | i :: its => write_item i ;; write_items its end.

Fixpoint read_items (its : list item) : M B (list item) :=
  match its with
  | [] => mret []
  | i :: its => v ← read_item i; vs ← read_items its; mret (v :: vs)
  end.

(** The values of the C++ types; [Int32] and [Int64] also ask that their
    encoder's arithmetic stay in range, unless this build wraps. *)
Definition item_ok (i : item) : Prop :=
  match i with
  | Fint8 v => in_s 8 v | Fuint8 v => in_u 8 v
  | Fint16 v => in_s 16 v | Fuint16 v => in_u 16 v
  | Fint32 v => in_s 32 v | Fuint32 v => in_u 32 v
  | Fint64 v => in_s 64 v | Fuint64 v => in_u 64 v
  | Int32 v => in_s 32 v ∧ (wraps = true ∨ - 2 ^ 31 < v < 2 ^ 30)
  | Uint32 v => in_u 32 v
  | Int64 v => in_s 64 v ∧ (wraps = true ∨ - 2 ^ 63 < v < 2 ^ 62)
  | Uint64 v => in_u 64 v
  | Float v => in_u 32 v | Double v => in_u 64 v
  | StringF16 s => in_u 16 (ssize s) | StringF32 s => in_u 32 (ssize s)
  | StringF64 s => in_u 63 (ssize s) | StringVint s => in_u 63 (ssize s)
  end.

Definition empty_string (i : item) : Prop :=
  match i with
  | StringF16 s | StringF32 s | StringF64 s | StringVint s => s = []
  | _ => False
  end.
End items.

(** ** Object representations *)

(** A conversion to an [n]-byte integer type keeps the low [8 * n] bits. *)
Class IsCast (n : nat) (cast : Z → Z) := {
  cast_split v : le_split n (cast v) = le_split n v;
  cast_wrap v : cast (wrap (8 * Z.of_nat n) v) = cast v
}.

Lemma wrap_IsCast n w : w = 8 * Z.of_nat n → IsCast n (wrap w).
Proof.
  intros ->. split; intros v; [apply le_split_wrap|]. apply wrap_idemp. lia.
Qed.

Lemma swrap_IsCast n w : w = 8 * Z.of_nat (S n) → IsCast (S n) (swrap w).
Proof.
  intros ->. split; intros v; [|apply swrap_wrap; lia].
  rewrite <- le_split_wrap, wrap_swrap by lia. apply le_split_wrap.
Qed.

#[export] Hint Extern 0 (IsCast _ (wrap _)) => exact (wrap_IsCast _ _ eq_refl) : core typeclass_instances.
#[export] Hint Extern 0 (IsCast _ (swrap _)) => exact (swrap_IsCast _ _ eq_refl) : core typeclass_instances.

Lemma length_bytes_of e n v : length (bytes_of e n v) = n.
Proof. destruct e; simpl; rewrite ?length_rev; apply length_le_split. Qed.

Lemma value_of_bytes_of e n v : value_of e (bytes_of e n v) = wrap (8 * Z.of_nat n) v.
Proof. destruct e; simpl; rewrite ?rev_involutive; apply le_combine_split_wrap. Qed.

Lemma bytes_of_bswap e e' n v : e ≠ e' → bytes_of e n (bswap n v) = bytes_of e' n v.
Proof. destruct e, e'; intros; try done; simpl; rewrite bswap_split, ?rev_involutive; done. Qed.

Lemma bytes_of_cast e n cast v : IsCast n cast → bytes_of e n (cast v) = bytes_of e n v.
Proof. intros []. destruct e; simpl; by rewrite cast_split0. Qed.

Lemma bswap_cast n cast v : IsCast n cast → bswap n (cast v) = bswap n v.
Proof. intros []. unfold bswap. by rewrite cast_split0. Qed.

Lemma Byteswap_Byteswap n cast v : IsCast n cast →
  Byteswap n cast (Byteswap n cast v) = cast v.
Proof.
  intros Hc. unfold Byteswap. rewrite bswap_cast, bswap_bswap by done. apply cast_wrap.
Qed.

(** ** Writers and readers, compositionally *)

Section contracts.
Context {B : Type} `{ByteBuffer B} `{HostOrder} `{OverflowMode}.

(** On a buffer in byte order [e], [w] writes exactly the bytes [d]. *)
Definition writes (e : Endian) (w : M B unit) (d : bytes) : Prop :=
  ∀ b, buf_ok b → buf_endian b = e → ∃ b', w b = Ret tt b' ∧ buf_ok b' ∧
    buf_view b' = abs_write d (buf_view b) ∧ buf_endian b' = e.

(** On a buffer in byte order [e] whose unread bytes start with [d], [r]
    consumes exactly [d] and returns [a]; if [slack] holds this also asks for
    room after [d]. *)
Definition reads (e : Endian) (slack : Prop) {A} (r : M B A) (d : bytes) (a : A) : Prop :=
  ∀ b rest, buf_ok b → buf_endian b = e → abs_left (buf_view b) = d ++ rest →
    (slack → (cursor (buf_view b) + length d < buf_capacity b)%nat) →
    ∃ b', r b = Ret a b' ∧ buf_ok b' ∧ buf_view b' = abs_advance (length d) (buf_view b) ∧
      buf_endian b' = e ∧ buf_capacity b' = buf_capacity b.

Lemma writes_buf e d : writes e (buf_write d) d.
Proof.
  intros b Hok He. destruct (buf_write_law d b Hok) as (b' & ? & ? & ? & ?).
  exists b'. split_and!; congruence.
Qed.

Lemma writes_seq e w1 w2 d1 d2 : writes e w1 d1 → writes e w2 d2 →
  writes e (w1 ;; w2) (d1 ++ d2).
Proof.
  intros Hw1 Hw2 b Hok He. destruct (Hw1 b Hok He) as (b1 & Hr1 & Hok1 & Hv1 & He1).
  destruct (Hw2 b1 Hok1 He1) as (b2 & Hr2 & Hok2 & Hv2 & He2).
  exists b2. rewrite (bind_Ret _ _ _ _ _ Hr1). split_and!; [done..| |done].
  rewrite Hv2, Hv1. apply abs_write_app. by apply buf_cursor_le.
Qed.

Lemma writes_ret e : writes e (mret tt) [].
Proof.
  intros b Hok He. exists b. split_and!; try done.
  symmetry. apply abs_write_nil. by apply buf_cursor_le.
Qed.

(** A pure first step. *)
Lemma writes_bind {A} e (m : M B A) a k d : (∀ b, m b = Ret a b) → writes e (k a) d →
  writes e (m ≫= k) d.
Proof. intros Hm Hk b Hok He. rewrite (bind_Ret _ _ _ _ _ (Hm b)). by apply Hk. Qed.

Lemma reads_ret {A} e (a : A) : reads e False (mret a) [] a.
Proof.
  intros b rest Hok He _ _. exists b. split_and!; try done.
  unfold abs_advance. simpl. rewrite Nat.add_0_r. by destruct (buf_view b).
Qed.

Lemma reads_mono {A} e (z z' : Prop) (r : M B A) d a :
  (z → z') → reads e z r d a → reads e z' r d a.
Proof. intros Hz Hr b rest ????. eapply Hr; eauto. Qed.

Lemma reads_bind {A A'} e z1 z2 (r : M B A) (k : A → M B A') d1 d2 a a' :
  reads e z1 r d1 a → reads e z2 (k a) d2 a' → reads e (z1 ∨ z2) (r ≫= k) (d1 ++ d2) a'.
Proof.
  intros Hk1 Hk2 b rest Hok He Hl Hz. rewrite <- app_assoc in Hl. rewrite length_app in Hz.
  destruct (Hk1 b (d2 ++ rest) Hok He Hl) as (b1 & Hr1 & Hok1 & Hv1 & He1 & Hc1).
  { intros ?. pose proof (Hz ltac:(tauto)). lia. }
  destruct (Hk2 b1 rest Hok1 He1) as (b2 & Hr2 & Hok2 & Hv2 & He2 & Hc2).
  { by rewrite Hv1, abs_left_advance, Hl, drop_app_length. }
  { intros ?. rewrite Hv1, Hc1. simpl. pose proof (Hz ltac:(tauto)). lia. }
  exists b2. rewrite (bind_Ret _ _ _ _ _ Hr1). split_and!; try done; [|congruence].
  by rewrite Hv2, Hv1, abs_advance_add, length_app.
Qed.

Lemma reads_bind0 {A A'} e z (r : M B A) (k : A → M B A') d1 d2 a a' :
  reads e False r d1 a → reads e z (k a) d2 a' → reads e z (r ≫= k) (d1 ++ d2) a'.
Proof. intros. eapply reads_mono; [|by eapply reads_bind]. tauto. Qed.

Lemma reads_fmap {A A'} e z (r : M B A) (f : A → A') d a :
  reads e z r d a → reads e z (f <$> r) d (f a).
Proof.
  intros Hr. unfold fmap, M_fmap. rewrite <- (app_nil_r d).
  eapply reads_mono; [|by eapply reads_bind; [done|apply reads_ret]]. tauto.
Qed.

Lemma reads_buf e d : reads e (d = []) (buf_read (length d)) d d.
Proof.
  intros b rest Hok He Hl Hz.
  destruct (buf_read_law (length d) b Hok) as (b' & Hr & Hok' & Hv & He' & Hc').
  - rewrite Hl, length_app. lia.
  - destruct d; [right|left; simpl; lia]. specialize (Hz eq_refl). simpl in Hz. lia.
  - exists b'. rewrite Hr, Hl, take_app_length. split_and!; congruence.
Qed.

(** *** Fixed-width integers *)

Lemma XX_write_spec e n cast v : IsCast n cast → writes e (XX_write n cast v) (bytes_of e n v).
Proof.
  intros Hc b Hok He. unfold XX_write. rewrite (bind_Ret get _ _ b b) by done.
  rewrite He. unfold object_bytes. case_bool_decide as Hd.
  - unfold Byteswap. rewrite bytes_of_cast, (bytes_of_bswap _ e) by done. by apply writes_buf.
  - rewrite <- Hd. by apply writes_buf.
Qed.

Lemma XX_read_spec e n cast v : (0 < n)%nat → IsCast n cast →
  reads e False (XX_read n cast) (bytes_of e n v) (cast v).
Proof.
  intros Hn Hc. unfold XX_read. rewrite <- (app_nil_r (bytes_of e n v)).
  pose proof (reads_buf e (bytes_of e n v)) as Hb. rewrite length_bytes_of in Hb.
  eapply reads_mono; [|eapply reads_bind; [exact Hb|]].
  { intros [Hnil|Hz]; [|exact Hz]. apply (f_equal length) in Hnil.
    rewrite length_bytes_of in Hnil. simpl in Hnil. lia. }
  intros b rest Hok He Hl _. rewrite (bind_Ret get _ _ b b) by done.
  exists b. split_and!; try done.
  2:{ unfold abs_advance. simpl. rewrite Nat.add_0_r. by destruct (buf_view b). }
  rewrite He. unfold object_value. case_bool_decide as Hd.
  - rewrite <- Hd, value_of_bytes_of, cast_wrap. done.
  - unfold Byteswap. rewrite <- (bytes_of_bswap YGW_BYTE_ORDER e) by done.
    rewrite value_of_bytes_of, cast_wrap, bswap_cast, bswap_bswap, cast_wrap by done. done.
Qed.

Lemma bytes_of_1 e e' v : bytes_of e 1 v = bytes_of e' 1 v.
Proof. by destruct e, e'. Qed.

Lemma ReadF8_spec e cast v : IsCast 1 cast →
  reads e False (d ← buf_read 1; mret (cast (object_value d))) (bytes_of e 1 v) (cast v).
Proof.
  intros Hc. rewrite <- (app_nil_r (bytes_of e 1 v)).
  pose proof (reads_buf e (bytes_of e 1 v)) as Hb. rewrite length_bytes_of in Hb.
  eapply reads_mono; [|eapply reads_bind; [exact Hb|]].
  { intros [Hnil|Hz]; [|exact Hz]. by destruct e. }
  simpl. unfold object_value. rewrite (bytes_of_1 e YGW_BYTE_ORDER), value_of_bytes_of, cast_wrap.
  apply reads_ret.
Qed.

(** *** Base-128 integers *)

(** The encoding of [v < 2 ^ (7 * (n + 1))]. *)
Fixpoint varint (n : nat) (v : Z) : bytes :=
  match n with
  | S n' => if 0x80 <=? v
    then byte.of_Z (Z.lor (Z.land v 0x7F) 0x80) :: varint n' (Z.shiftr v 7)
    else [byte.of_Z v]
  | O => [byte.of_Z v]
  end.

Lemma group_eq v : Z.lor (Z.land v 0x7F) 0x80 = v mod 128 + 128.
Proof.
  change 0x7F with (Z.ones 7). rewrite Z.land_ones by lia. change 0x80 with (Z.shiftl 1 7).
  rewrite lor_shiftl_add; [done|lia|]. apply wrap_range. lia.
Qed.

Lemma shiftr_range v m : 0 <= m → in_u (7 + m) v → in_u m (Z.shiftr v 7).
Proof.
  unfold in_u. intros ?. rewrite Z.shiftr_div_pow2, Z.pow_add_r by lia.
  change (2 ^ 7) with 128. intros ?.
  split; [apply Z.div_pos; lia|]. apply Z.div_lt_upper_bound; lia.
Qed.

Lemma length_varint n v : (length (varint n v) ≤ S n)%nat.
Proof.
  revert v. induction n as [|n IH]; intros v; simpl; [lia|].
  destruct (0x80 <=? v); simpl; [|lia]. specialize (IH (Z.shiftr v 7)). lia.
Qed.

Lemma varint_not_nil n v : varint n v ≠ [].
Proof. destruct n; simpl; [done|]. by destruct (0x80 <=? v). Qed.

(** The loop never leaves its [cap]-byte array. *)
Lemma WriteUint_loop_spec n : ∀ cap fuel v tmp (b : B),
  in_u (7 * Z.of_nat (S n)) v → (n ≤ fuel)%nat → (length tmp + S n ≤ cap)%nat →
  WriteUint_loop cap fuel v tmp b = Ret (tmp ++ varint n v) b.
Proof.
  assert (∀ cap v tmp (b : B), v < 0x80 → 0 ≤ v → (length tmp + 1 ≤ cap)%nat →
    push cap tmp (u8 v) b = Ret (tmp ++ [byte.of_Z v]) b) as Hlast.
  { intros cap v tmp b ???. unfold push. rewrite wrap_small by (unfold in_u; lia).
    by rewrite (proj2 (Nat.ltb_lt _ _)) by lia. }
  induction n as [|n IH]; intros cap fuel v tmp b Hv Hf Hcap; unfold in_u in Hv.
  - change (2 ^ (7 * Z.of_nat 1)) with 128 in Hv.
    assert (WriteUint_loop cap fuel v tmp = push cap tmp (u8 v)) as ->.
    { destruct fuel; simpl; by rewrite (proj2 (Z.leb_gt _ _)) by lia. }
    apply Hlast; lia.
  - destruct fuel as [|fuel]; [lia|]. simpl. destruct (Z.leb_spec 0x80 v); [|apply Hlast; lia].
    unfold push. rewrite (proj2 (Nat.ltb_lt _ _)) by lia. unfold mbind, M_bind, mret, M_ret.
    rewrite IH; [by rewrite <- app_assoc| |lia|rewrite length_app; simpl; lia].
    apply shiftr_range; [lia|]. unfold in_u.
    replace (7 + 7 * Z.of_nat (S n)) with (7 * Z.of_nat (S (S n))) by lia. done.
Qed.

Lemma ReadFuint8_spec e v : reads e False ReadFuint8 [byte.of_Z v] (u8 v).
Proof.
  replace [byte.of_Z v] with (bytes_of e 1 v) by (by destruct e).
  apply ReadF8_spec. apply _.
Qed.

Lemma ReadUint_loop_spec w e n : ∀ fuel i r v,
  0 ≤ i < w → in_u i r → in_u w (v * 2 ^ i) → 0 ≤ v → in_u (7 * Z.of_nat (S n)) v → (n < fuel)%nat →
  reads e False (ReadUint_loop w fuel i r) (varint n v) (r + v * 2 ^ i).
Proof.
  induction n as [|n IH]; intros fuel i r v Hi Hr Hv Hv0 Hn Hf;
    (destruct fuel as [|fuel]; [lia|]); simpl; rewrite (proj2 (Z.ltb_lt _ _)) by lia.
  - unfold in_u in Hn. change (2 ^ (7 * Z.of_nat 1)) with 128 in Hn. rewrite <- (app_nil_r [_]). eapply reads_bind0; [apply ReadFuint8_spec|].
    rewrite (wrap_small 8) by (unfold in_u; lia). rewrite (proj2 (Z.ltb_lt v 0x80)) by lia.
    rewrite wrap_small by (rewrite Z.shiftl_mul_pow2 by lia; done).
    rewrite lor_shiftl_add by (done || lia). apply reads_ret.
  - destruct (Z.leb_spec 0x80 v) as [Hbig|Hsmall].
    + rewrite group_eq. pose proof (Z.mod_pos_bound v 128 ltac:(lia)) as Hm.
      change (?x :: varint n ?y) with ([x] ++ varint n y). eapply reads_bind0; [apply ReadFuint8_spec|].
      rewrite (wrap_small 8) by (unfold in_u; lia). rewrite (proj2 (Z.ltb_ge _ 0x80)) by lia.
      change 0x7f with (Z.ones 7). rewrite Z.land_ones by lia. change (2 ^ 7) with 128.
      replace ((v mod 128 + 128) mod 128) with (v mod 128)
        by (rewrite Zplus_mod_idemp_l; symmetry; apply (Z_mod_plus_full v 1 128)).
      pose proof (Z.div_mod v 128 ltac:(lia)) as Hdm.
      assert (0 < 2 ^ i) by lia. unfold in_u in Hv, Hr.
      rewrite wrap_small by (unfold in_u; rewrite Z.shiftl_mul_pow2 by lia; nia).
      rewrite lor_shiftl_add by (done || lia).
      assert (Z.shiftr v 7 = v / 128) as Hsh by (by rewrite Z.shiftr_div_pow2 by lia).
      assert (2 ^ (i + 7) = 128 * 2 ^ i) as Hp by (rewrite Z.pow_add_r by lia; lia).
      replace (r + v * 2 ^ i)
        with (r + v mod 128 * 2 ^ i + Z.shiftr v 7 * 2 ^ (i + 7)) by (rewrite Hsh, Hp; nia).
      apply IH.
      * split; [lia|]. apply (Z.pow_lt_mono_r_iff 2); [lia..|]. nia.
      * unfold in_u. nia.
      * rewrite Hsh, Hp. unfold in_u. nia.
      * rewrite Hsh. apply Z.div_pos; lia.
      * apply shiftr_range; [lia|].
        replace (7 + 7 * Z.of_nat (S n)) with (7 * Z.of_nat (S (S n))) by lia. done.
      * lia.
    + rewrite <- (app_nil_r [_]). eapply reads_bind0; [apply ReadFuint8_spec|].
      rewrite (wrap_small 8) by (unfold in_u; lia). rewrite (proj2 (Z.ltb_lt v 0x80)) by lia.
      rewrite wrap_small by (rewrite Z.shiftl_mul_pow2 by lia; done).
      rewrite lor_shiftl_add by (done || lia). apply reads_ret.
Qed.

(** *** Zigzag *)

(** The encoding: even numbers for the non-negative, odd ones for the negative. *)
Definition zigzag (v : Z) : Z := if v <? 0 then - 2 * v - 1 else 2 * v.

Lemma zigzag_range w v : 0 < w → in_s w v → in_u w (zigzag v).
Proof.
  unfold in_s, in_u, zigzag. intros Hw Hv.
  assert (2 ^ w = 2 * 2 ^ (w - 1)) as ->.
  { rewrite <- Z.pow_succ_r by lia. f_equal. lia. }
  destruct (Z.ltb_spec v 0); lia.
Qed.

(** The domain on which the signed arithmetic of the encoders is defined. *)
Definition zigzag_defined (w v : Z) : Prop :=
  wraps = true ∨ - 2 ^ (w - 1) < v < 2 ^ (w - 2).

Lemma zigzag_arith w v (b : B) : 2 ≤ w → in_s w v → zigzag_defined w v →
  (if v <? 0 then n ← sint w (- v); mret (wrap w (wrap w (wrap w n * 2) - 1))
   else n ← sint w (v * 2); mret (wrap w n)) b = Ret (zigzag v) b.
Proof.
  intros Hw Hv Hd. pose proof (zigzag_range w v ltac:(lia) Hv) as Hz.
  assert (2 ^ (w - 1) = 2 * 2 ^ (w - 2)) as Hp.
  { rewrite <- Z.pow_succ_r by lia. f_equal. lia. }
  unfold in_s in Hv. unfold zigzag in *. destruct (Z.ltb_spec v 0).
  - erewrite bind_Ret by (apply sint_spec; [lia|]; destruct Hd; [by left|right; unfold in_s; lia]).
    unfold mret, M_ret. f_equal. rewrite wrap_swrap by lia.
    unfold wrap. rewrite Zmult_mod_idemp_l, Zminus_mod_idemp_l. fold (wrap w (- v * 2 - 1)).
    rewrite wrap_small; [lia|]. unfold in_u in *. lia.
  - erewrite bind_Ret by (apply sint_spec; [lia|]; destruct Hd; [by left|right; unfold in_s; lia]).
    unfold mret, M_ret. f_equal. rewrite wrap_swrap by lia.
    rewrite wrap_small; [lia|]. unfold in_u in *. lia.
Qed.

Lemma zigzag_decode w v : 2 ≤ w → in_s w v →
  swrap w (Z.lxor (Z.shiftr (zigzag v) 1) (wrap w (- Z.land (zigzag v) 1))) = v.
Proof.
  intros Hw Hv. change 1 with (Z.ones 1) at 2. rewrite Z.land_ones, Z.shiftr_div_pow2 by lia.
  change (2 ^ 1) with 2. unfold zigzag. unfold in_s in Hv. destruct (Z.ltb_spec v 0).
  - replace (-2 * v - 1) with (1 + (- v - 1) * 2) by lia.
    rewrite Z_mod_plus_full, Z_div_plus_full by lia. change (1 mod 2) with 1. change (1 / 2) with 0.
    assert (2 ^ w = 2 * 2 ^ (w - 1)) as Hp.
    { rewrite <- Z.pow_succ_r by lia. f_equal. lia. }
    replace (wrap w (- (1))) with (2 ^ w - 1).
    2:{ unfold wrap. apply Z.mod_unique with (-1); lia. }
    rewrite lxor_ones by (unfold in_u; lia).
    replace (2 ^ w - 1 - (0 + (- v - 1))) with (v + 1 * 2 ^ w) by lia.
    rewrite swrap_add_pow by lia. apply swrap_small; [lia|]. unfold in_s. lia.
  - rewrite (Z.mul_comm 2 v), Z_mod_mult, Z_div_mult by lia.
    change (wrap w (- 0)) with (wrap w 0). rewrite wrap_small by (unfold in_u; lia).
    rewrite Z.lxor_0_r. apply swrap_small; [lia|]. unfold in_s. lia.
Qed.

(** *** The base-128 and zigzag operations *)

Lemma WriteUint32_spec e v : in_u 32 v → writes e (WriteUint32 v) (varint 4 v).
Proof.
  unfold in_u. intros Hv. unfold WriteUint32.
  eapply writes_bind; [|apply writes_buf]. intros b. apply (WriteUint_loop_spec 4 5 5 v []); simpl; try lia.
  unfold in_u. change (2 ^ (7 * Z.of_nat 5)) with (2 ^ 35). lia.
Qed.

Lemma WriteUint64_spec e v : in_u 64 v → writes e (WriteUint64 v) (varint 9 v).
Proof.
  unfold in_u. intros Hv. unfold WriteUint64.
  eapply writes_bind; [|apply writes_buf]. intros b. apply (WriteUint_loop_spec 9 10 10 v []); simpl; try lia.
  unfold in_u. change (2 ^ (7 * Z.of_nat 10)) with (2 ^ 70). lia.
Qed.

Lemma ReadUint32_spec e v : in_u 32 v → reads e False ReadUint32 (varint 4 v) v.
Proof.
  unfold in_u. intros Hv. replace v with (0 + v * 2 ^ 0) at 2 by lia.
  apply ReadUint_loop_spec; unfold in_u; lia.
Qed.

Lemma ReadUint64_spec e v : in_u 64 v → reads e False ReadUint64 (varint 9 v) v.
Proof.
  unfold in_u. intros Hv. replace v with (0 + v * 2 ^ 0) at 2 by lia.
  apply ReadUint_loop_spec; unfold in_u; lia.
Qed.

Lemma WriteInt32_spec e v : in_s 32 v → zigzag_defined 32 v →
  writes e (WriteInt32 v) (varint 4 (zigzag v)).
Proof.
  intros Hv Hd. eapply writes_bind; [intros b; by apply (zigzag_arith 32)|].
  apply WriteUint32_spec. by apply zigzag_range.
Qed.

Lemma WriteInt64_spec e v : in_s 64 v → zigzag_defined 64 v →
  writes e (WriteInt64 v) (varint 9 (zigzag v)).
Proof.
  intros Hv Hd. eapply writes_bind; [intros b; by apply (zigzag_arith 64)|].
  apply WriteUint64_spec. by apply zigzag_range.
Qed.

Lemma ReadInt32_spec e v : in_s 32 v → reads e False ReadInt32 (varint 4 (zigzag v)) v.
Proof.
  intros Hv. rewrite <- (zigzag_decode 32 v) at 2 by done.
  apply (reads_fmap _ _ _ DecodeZigzag32), ReadUint32_spec. by apply zigzag_range.
Qed.

Lemma ReadInt64_spec e v : in_s 64 v → reads e False ReadInt64 (varint 9 (zigzag v)) v.
Proof.
  intros Hv. rewrite <- (zigzag_decode 64 v) at 2 by done.
  apply (reads_fmap _ _ _ DecodeZigzag64), ReadUint64_spec. by apply zigzag_range.
Qed.

(** *** Strings *)

Lemma reads_string e r d v : reads e False r d (ssize v) → in_u 63 (ssize v) →
  reads e (v = []) (len ← r; read_buff len) (d ++ v) v.
Proof.
  intros Hr Hv. eapply reads_bind0; [exact Hr|]. unfold read_buff, in_u in *.
  rewrite (proj2 (Z.ltb_ge _ _)) by lia. unfold ssize. rewrite Nat2Z.id. apply reads_buf.
Qed.

(** ** Messages *)

(** The bytes of an item. *)
Definition item_bytes (e : Endian) (i : item) : bytes :=
  match i with
  | Fint8 v | Fuint8 v => bytes_of e 1 v
  | Fint16 v | Fuint16 v => bytes_of e 2 v
  | Fint32 v | Fuint32 v | Float v => bytes_of e 4 v
  | Fint64 v | Fuint64 v | Double v => bytes_of e 8 v
  | Int32 v => varint 4 (zigzag v) | Uint32 v => varint 4 v
  | Int64 v => varint 9 (zigzag v) | Uint64 v => varint 9 v
  | StringF16 s => bytes_of e 2 (ssize s) ++ s
  | StringF32 s => bytes_of e 4 (ssize s) ++ s
  | StringF64 s => bytes_of e 8 (ssize s) ++ s
  | StringVint s => varint 9 (ssize s) ++ s
  end.

Lemma in_u_mono w w' v : 0 ≤ w ≤ w' → in_u w v → in_u w' v.
Proof. unfold in_u. intros. pose proof (Z.pow_le_mono_r 2 w w'). lia. Qed.

Lemma write_item_spec e i : item_ok i → writes e (write_item i) (item_bytes e i).
Proof.
  intros Hi. destruct i; simpl in Hi; unfold write_item, item_bytes.
  - rewrite (bytes_of_1 e YGW_BYTE_ORDER). apply writes_buf.
  - rewrite (bytes_of_1 e YGW_BYTE_ORDER). apply writes_buf.
  - apply XX_write_spec, _.
  - apply XX_write_spec, _.
  - apply XX_write_spec, _.
  - apply XX_write_spec, _.
  - apply XX_write_spec, _.
  - apply XX_write_spec, _.
  - destruct Hi. by apply WriteInt32_spec.
  - by apply WriteUint32_spec.
  - destruct Hi. by apply WriteInt64_spec.
  - by apply WriteUint64_spec.
  - apply XX_write_spec, _.
  - apply XX_write_spec, _.
  - apply writes_seq; [|apply writes_buf]. rewrite wrap_small by done. apply XX_write_spec, _.
  - apply writes_seq; [|apply writes_buf]. rewrite wrap_small by done. apply XX_write_spec, _.
  - apply writes_seq; [|apply writes_buf]. apply XX_write_spec, _.
  - apply writes_seq; [|apply writes_buf]. apply WriteUint64_spec. by apply (in_u_mono 63).
Qed.

(** [f] reads the bytes of [v] as [v] when the cast of the reader keeps [v]. *)
Lemma XX_read_small e n cast v : (0 < n)%nat → IsCast n cast → cast v = v →
  reads e False (XX_read n cast) (bytes_of e n v) v.
Proof. intros ?? Hv. rewrite <- Hv at 2. by apply XX_read_spec. Qed.

Lemma XX_read_u e n w v : (0 < n)%nat → w = 8 * Z.of_nat n → in_u w v →
  reads e False (XX_read n (wrap w)) (bytes_of e n v) v.
Proof. intros. apply XX_read_small; [done|by apply wrap_IsCast|by apply wrap_small]. Qed.

Lemma XX_read_s e n w v : w = 8 * Z.of_nat (S n) → in_s w v →
  reads e False (XX_read (S n) (swrap w)) (bytes_of e (S n) v) v.
Proof.
  intros. apply XX_read_small; [lia|by apply swrap_IsCast|apply swrap_small; [lia|done]].
Qed.

Lemma read_item_spec e i : item_ok i →
  reads e (empty_string i) (read_item i) (item_bytes e i) i.
Proof.
  intros Hi. destruct i; simpl in Hi; unfold read_item, item_bytes, empty_string; apply reads_fmap.
  - rewrite <- (swrap_small 8 v) at 2 by (done || lia). by apply ReadF8_spec, _.
  - rewrite <- (wrap_small 8 v) at 2 by done. by apply ReadF8_spec, _.
  - by apply XX_read_s.
  - by apply XX_read_u; [lia|..].
  - by apply XX_read_s.
  - by apply XX_read_u; [lia|..].
  - by apply XX_read_s.
  - by apply XX_read_u; [lia|..].
  - destruct Hi. by apply ReadInt32_spec.
  - by apply ReadUint32_spec.
  - destruct Hi. by apply ReadInt64_spec.
  - by apply ReadUint64_spec.
  - by apply XX_read_u; [lia|..].
  - by apply XX_read_u; [lia|..].
  - apply reads_string; [|by apply (in_u_mono 16)]. by apply XX_read_u; [lia|..].
  - apply reads_string; [|by apply (in_u_mono 32)]. by apply XX_read_u; [lia|..].
  - apply reads_string; [|done]. apply XX_read_u; [lia|done|]. by apply (in_u_mono 63).
  - apply reads_string; [|done]. apply ReadUint64_spec. by apply (in_u_mono 63).
Qed.

Definition items_bytes (e : Endian) (its : list item) : bytes := concat (map (item_bytes e) its).

Lemma write_items_spec e its : Forall item_ok its → writes e (write_items its) (items_bytes e its).
Proof.
  induction 1 as [|i its Hi _ IH]; simpl; [apply writes_ret|].
  apply writes_seq; [by apply write_item_spec|done].
Qed.

Lemma read_items_spec e its : Forall item_ok its →
  reads e (Exists empty_string its) (read_items its) (items_bytes e its) its.
Proof.
  induction 1 as [|i its Hi _ IH]; simpl.
  - eapply reads_mono; [|apply reads_ret]. done.
  - eapply reads_mono; [|eapply reads_bind; [by apply read_item_spec|]].
    2:{ apply (reads_fmap _ _ (read_items its) (cons i)), IH. }
    intros [|]; [by apply Exists_cons_hd|by apply Exists_cons_tl].
Qed.

(** ** Truncated input *)

(** When the unread bytes are a strict prefix of [d], [r] throws. *)
Definition short (e : Endian) {A} (r : M B A) (d : bytes) : Prop :=
  ∀ b rest, buf_ok b → buf_endian b = e → d = abs_left (buf_view b) ++ rest → rest ≠ [] →
    ∃ b', r b = Throw out_of_range b'.

Lemma short_buf e d n : n = length d → short e (buf_read n) d.
Proof.
  intros -> b rest Hok He Hd Hrest. exists b. apply buf_read_short; [done|].
  rewrite Hd, length_app. destruct rest; [done|]. simpl. lia.
Qed.

Lemma short_bind {A A'} e (r : M B A) (k : A → M B A') d1 d2 a :
  reads e False r d1 a → short e r d1 → short e (k a) d2 → short e (r ≫= k) (d1 ++ d2).
Proof.
  intros Hr Hs1 Hs2 b rest Hok He Hd Hrest.
  destruct (decide (length d1 ≤ length (abs_left (buf_view b)))%nat) as [Hle|Hgt].
  - destruct (app_eq_inv _ _ _ _ Hd) as [(l & Hl1 & Hl2)|(l & Hl1 & Hl2)].
    + assert (l = []) as ->.
      { apply (f_equal length) in Hl1. rewrite length_app in Hl1. apply nil_length_inv. lia. }
      rewrite app_nil_r in Hl1. simpl in Hl2.
      destruct (Hr b [] Hok He) as (b1 & Hr1 & Hok1 & Hv1 & He1 & _); [by rewrite app_nil_r|done|].
      destruct (Hs2 b1 rest Hok1 He1) as (b2 & Hr2); [|done|].
      { rewrite Hv1, abs_left_advance, <- Hl1, drop_ge by lia. by rewrite Hl2. }
      exists b2. by rewrite (bind_Ret _ _ _ _ _ Hr1).
    + destruct (Hr b l Hok He Hl1) as (b1 & Hr1 & Hok1 & Hv1 & He1 & _); [done|].
      destruct (Hs2 b1 rest Hok1 He1) as (b2 & Hr2); [|done|].
      { by rewrite Hv1, abs_left_advance, Hl1, drop_app_length. }
      exists b2. by rewrite (bind_Ret _ _ _ _ _ Hr1).
  - destruct (app_eq_inv _ _ _ _ Hd) as [(l & Hl1 & Hl2)|(l & Hl1 & Hl2)].
    2:{ rewrite Hl1, length_app in Hgt. lia. }
    destruct (Hs1 b l Hok He Hl1) as (b' & Hb').
    { intros ->. rewrite app_nil_r in Hl1. rewrite Hl1 in Hgt. lia. }
    exists b'. by apply bind_Throw.
Qed.

Lemma short_bind_nil {A A'} e (r : M B A) (k : A → M B A') d : short e r d → short e (r ≫= k) d.
Proof.
  intros Hs b rest Hok He Hd Hrest. destruct (Hs b rest Hok He Hd Hrest) as (b' & Hb').
  exists b'. by apply bind_Throw.
Qed.

Lemma short_XX e n cast v : short e (XX_read n cast) (bytes_of e n v).
Proof. apply short_bind_nil, short_buf. by rewrite length_bytes_of. Qed.

Lemma short_string e r d v : reads e False r d (ssize v) → short e r d → in_u 63 (ssize v) →
  short e (len ← r; read_buff len) (d ++ v).
Proof.
  intros Hr Hs Hv. eapply short_bind; [done..|]. unfold read_buff, in_u in *.
  rewrite (proj2 (Z.ltb_ge _ _)) by lia. apply short_buf. unfold ssize. apply Nat2Z.id.
Qed.

(** The integer read from a longer encoding needs all of it. *)
Lemma short_ReadUint_loop w e n : ∀ fuel i r v,
  0 ≤ i < w → in_u w (v * 2 ^ i) → 0 ≤ v → in_u (7 * Z.of_nat (S n)) v → (n < fuel)%nat →
  short e (ReadUint_loop w fuel i r) (varint n v).
Proof.
  induction n as [|n IH]; intros fuel i r v Hi Hv Hv0 Hn Hf;
    (destruct fuel as [|fuel]; [lia|]); simpl; rewrite (proj2 (Z.ltb_lt _ _)) by lia.
  { apply short_bind_nil. apply short_bind_nil. by apply short_buf. }
  destruct (Z.leb_spec 0x80 v) as [Hbig|Hsmall].
  2:{ apply short_bind_nil. apply short_bind_nil. by apply short_buf. }
  rewrite group_eq. pose proof (Z.mod_pos_bound v 128 ltac:(lia)) as Hm.
  change (?x :: varint n ?y) with ([x] ++ varint n y).
  eapply short_bind; [apply ReadFuint8_spec|apply short_bind_nil; by apply short_buf|].
  rewrite (wrap_small 8) by (unfold in_u; lia). rewrite (proj2 (Z.ltb_ge _ 0x80)) by lia.
  pose proof (Z.div_mod v 128 ltac:(lia)) as Hdm. assert (0 < 2 ^ i) by lia.
  assert (Z.shiftr v 7 = v / 128) as Hsh by (by rewrite Z.shiftr_div_pow2 by lia).
  assert (2 ^ (i + 7) = 128 * 2 ^ i) as Hp by (rewrite Z.pow_add_r by lia; lia).
  unfold in_u in Hv. apply IH.
  - split; [lia|]. apply (Z.pow_lt_mono_r_iff 2); [lia..|]. nia.
  - rewrite Hsh, Hp. unfold in_u. nia.
  - rewrite Hsh. apply Z.div_pos; lia.
  - apply shiftr_range; [lia|].
    replace (7 + 7 * Z.of_nat (S n)) with (7 * Z.of_nat (S (S n))) by lia. done.
  - lia.
Qed.

Lemma short_ReadUint32 e v : in_u 32 v → short e ReadUint32 (varint 4 v).
Proof. unfold in_u. intros. apply short_ReadUint_loop; unfold in_u; lia. Qed.

Lemma short_ReadUint64 e v : in_u 64 v → short e ReadUint64 (varint 9 v).
Proof. unfold in_u. intros. apply short_ReadUint_loop; unfold in_u; lia. Qed.

Lemma short_item e i : item_ok i → short e (read_item i) (item_bytes e i).
Proof.
  intros Hi. destruct i; simpl in Hi; unfold read_item, item_bytes; apply short_bind_nil.
  1, 2: apply short_bind_nil, short_buf; by rewrite length_bytes_of.
  1-6: apply short_XX.
  - destruct Hi. by apply short_bind_nil, short_ReadUint32, zigzag_range.
  - by apply short_ReadUint32.
  - destruct Hi. by apply short_bind_nil, short_ReadUint64, zigzag_range.
  - by apply short_ReadUint64.
  - apply short_XX.
  - apply short_XX.
  - apply short_string; [|apply short_XX|by apply (in_u_mono 16)]. by apply XX_read_u; [lia|..].
  - apply short_string; [|apply short_XX|by apply (in_u_mono 32)]. by apply XX_read_u; [lia|..].
  - apply short_string; [|apply short_XX|done].
    apply XX_read_u; [lia|done|]. by apply (in_u_mono 63).
  - apply short_string; [|apply short_ReadUint64|done]; [apply ReadUint64_spec|];
      by apply (in_u_mono 63).
Qed.

(** ** Any input *)

Lemma in_u_lor w a b : 0 ≤ w → in_u w a → in_u w b → in_u w (Z.lor a b).
Proof.
  intros Hw Ha Hb. unfold in_u in *. split; [apply Z.lor_nonneg; lia|].
  assert (Z.lor a b = wrap w (Z.lor a b)) as ->; [|by apply wrap_range].
  unfold wrap. rewrite <- Z.land_ones by done. apply Z.bits_inj'. intros k Hk.
  rewrite Z.land_spec, Z.testbit_ones_nonneg, Z.lor_spec by lia.
  destruct (Z.ltb_spec k w); [by rewrite andb_true_r|].
  by rewrite !(testbit_above w) by done.
Qed.

(** The decoders look at no more than the bytes their type needs, whatever the
    input: they return a value of the type or throw at the end of the data. *)
Lemma ReadUint_loop_total w fuel : ∀ i r b, 0 < w → 0 ≤ i → in_u w r → w ≤ i + 7 * Z.of_nat fuel →
  buf_ok b →
  (∃ v n b', ReadUint_loop w fuel i r b = Ret v b' ∧ in_u w v ∧ (n ≤ fuel)%nat ∧
    buf_ok b' ∧ buf_view b' = abs_advance n (buf_view b)) ∨
  (∃ b', ReadUint_loop w fuel i r b = Throw out_of_range b' ∧ abs_left (buf_view b') = []).
Proof.
  induction fuel as [|fuel IH]; intros i r b Hw Hi Hr Hf Hok; simpl;
    destruct (Z.ltb_spec i w); try lia.
  1, 3: left; exists r, 0%nat, b; split_and!; try done; try lia;
    unfold abs_advance; simpl; rewrite Nat.add_0_r; by destruct (buf_view b).
  destruct (abs_left (buf_view b)) as [|c rest] eqn:Hl.
  { right. exists b. split; [|done]. apply bind_Throw, bind_Throw, buf_read_short; [done|].
    rewrite Hl. simpl. lia. }
  destruct (ReadFuint8_spec (buf_endian b) (uchar c) b rest Hok eq_refl)
    as (b1 & Hr1 & Hok1 & Hv1 & _); [by rewrite byte.of_Z_unsigned|done|].
  rewrite (bind_Ret _ _ _ _ _ Hr1).
  assert (∀ x, in_u w (Z.lor r (wrap w x))) as Hlor.
  { intros x. apply in_u_lor; [lia|done|]. apply wrap_range. lia. }
  destruct (u8 (uchar c) <? 0x80).
  - left. eexists _, 1%nat, b1. split_and!; [done|apply Hlor|lia|done|done].
  - destruct (IH (i + 7) (Z.lor r (wrap w (Z.shiftl (Z.land (u8 (uchar c)) 0x7f) i))) b1)
      as [(v & n & b' & Hrun & Hv & Hn & Hok' & Hview)|(b' & Hrun & Hleft)];
      [done|lia|apply Hlor|lia|done| |].
    + left. exists v, (S n), b'. split_and!; try done; [lia|].
      rewrite Hview, Hv1. apply (abs_advance_add 1 n).
    + right. by exists b'.
Qed.
End contracts.

(** ** Properties *)

Lemma read_item_shape {B} `{BufferOps B} `{HostOrder} i :
  read_item (B := B) (shape i) = read_item i.
Proof. by destruct i. Qed.

Lemma read_items_shape {B} `{BufferOps B} `{HostOrder} its :
  read_items (B := B) (map shape its) = read_items its.
Proof. induction its as [|i its IH]; simpl; [done|]. by rewrite read_item_shape, IH. Qed.

(** C10: a message, any sequence of typed values, that a host of byte order [hw]
    writes into a buffer is read back unchanged by a host of byte order [hr]
    that reads the same kinds from the position where the message starts, and
    the bytes written depend on the buffer's byte order only.  Reading an empty
    string needs room after the end of the data. *)
Theorem message_roundtrip {B} `{ByteBuffer B} `{OverflowMode} (hw hr : HostOrder)
    (b : B) (its : list item) :
  buf_ok b → Forall item_ok its →
  ∃ b1, write_items (H0 := hw) its b = Ret tt b1 ∧ buf_ok b1 ∧
    buf_view b1 = abs_write (items_bytes (buf_endian b) its) (buf_view b) ∧
    ((Exists empty_string its → (cursor (buf_view b1) < buf_capacity b1)%nat) →
     ∃ b2 b3, buf_seek (cursor (buf_view b)) b1 = Ret tt b2 ∧
       read_items (H0 := hr) (map shape its) b2 = Ret its b3 ∧ buf_view b3 = buf_view b1).
Proof.
  intros Hok Hits.
  destruct (write_items_spec (H1 := hw) (buf_endian b) its Hits b Hok eq_refl)
    as (b1 & Hw & Hok1 & Hv1 & He1).
  exists b1. split_and!; [done..|]. intros Hslack.
  pose proof (buf_cursor_le b Hok) as Hcur. pose proof (buf_cursor_le b1 Hok1) as Hcur1.
  rewrite Hv1 in Hcur1, Hslack. simpl in Hcur1, Hslack.
  destruct (buf_seek_law (cursor (buf_view b)) b1 Hok1) as (b2 & Hs & Hok2 & Hv2 & He2 & Hc2).
  { rewrite Hv1. simpl. lia. }
  destruct (read_items_spec (H1 := hr) (buf_endian b) its Hits b2
    (drop (length (items_bytes (buf_endian b) its)) (abs_left (buf_view b))) Hok2)
    as (b3 & Hr & Hok3 & Hv3 & _); [congruence| | |].
  { rewrite Hv2, Hv1. by apply abs_left_write. }
  { rewrite Hc2, Hv2. simpl. done. }
  exists b2, b3. rewrite read_items_shape. split_and!; [done..|]. rewrite Hv3, Hv2, Hv1. done.
Qed.

(** Reading a typed value from a buffer whose unread bytes are a strict
    prefix of the value's encoding throws [out_of_range]: no kind of value is
    ever decoded from truncated data. *)
Theorem truncated_item_throws {B} `{ByteBuffer B} `{HostOrder} `{OverflowMode}
    (i : item) (b : B) rest :
  item_ok i → buf_ok b → rest ≠ [] →
  item_bytes (buf_endian b) i = abs_left (buf_view b) ++ rest →
  ∃ b', read_item (shape i) b = Throw out_of_range b'.
Proof.
  intros Hi Hok Hrest Hd. rewrite read_item_shape.
  by apply (short_item (buf_endian b) i Hi b rest Hok).
Qed.

(** On any input at all, [ReadUint32] and [ReadUint64] return a value of
    their type after at most 5 (10) bytes, or throw having consumed everything. *)
Theorem ReadUint_total {B} `{ByteBuffer B} `{HostOrder} (b : B) : buf_ok b →
  ((∃ v n b', ReadUint32 b = Ret v b' ∧ in_u 32 v ∧ (n ≤ 5)%nat ∧ buf_ok b' ∧
      buf_view b' = abs_advance n (buf_view b)) ∨
   (∃ b', ReadUint32 b = Throw out_of_range b' ∧ abs_left (buf_view b') = [])) ∧
  ((∃ v n b', ReadUint64 b = Ret v b' ∧ in_u 64 v ∧ (n ≤ 10)%nat ∧ buf_ok b' ∧
      buf_view b' = abs_advance n (buf_view b)) ∨
   (∃ b', ReadUint64 b = Throw out_of_range b' ∧ abs_left (buf_view b') = [])).
Proof.
  intros Hok. split.
  - apply (ReadUint_loop_total 32 5); unfold in_u; done || lia.
  - apply (ReadUint_loop_total 64 10); unfold in_u; done || lia.
Qed.

(** [WriteUint32] and [WriteUint64] never write past their 5-byte and
    10-byte arrays, and store at least one byte and at most that many. *)
Theorem WriteUint_bounds {B} `{ByteBuffer B} (b : B) v : buf_ok b →
  (in_u 32 v → ∃ d b', WriteUint32 v b = Ret tt b' ∧ (1 ≤ length d ≤ 5)%nat ∧
     buf_view b' = abs_write d (buf_view b)) ∧
  (in_u 64 v → ∃ d b', WriteUint64 v b = Ret tt b' ∧ (1 ≤ length d ≤ 10)%nat ∧
     buf_view b' = abs_write d (buf_view b)).
Proof.
  intros Hok. assert (∀ n, (1 ≤ length (varint n v) ≤ S n)%nat) as Hlen.
  { intros n. pose proof (length_varint n v). pose proof (varint_not_nil n v).
    destruct (varint n v); [done|]. simpl in *. lia. }
  split; intros Hv.
  - destruct (WriteUint32_spec (buf_endian b) v Hv b Hok eq_refl) as (b' & ? & ? & ? & ?).
    exists (varint 4 v), b'. by split_and!; try apply Hlen.
  - destruct (WriteUint64_spec (buf_endian b) v Hv b Hok eq_refl) as (b' & ? & ? & ? & ?).
    exists (varint 9 v), b'. by split_and!; try apply Hlen.
Qed.

(** [WriteInt32] has no defined behaviour for the values from [2 ^ 30] on,
    nor for the least one, unless the build makes signed arithmetic wrap: the
    encoder doubles (negates) the signed value. *)
Theorem WriteInt32_overflows {B} `{BufferOps B} `{OverflowMode} (b : B) v :
  wraps = false → in_s 32 v → 2 ^ 30 ≤ v ∨ v = - 2 ^ 31 →
  WriteInt32 v b = Undef signed_overflow.
Proof.
  intros Hm Hv Hd. unfold in_s in Hv. simpl in Hv.
  unfold WriteInt32, EncodeZigzag32, mbind, M_bind, sint. rewrite Hm.
  destruct (Z.ltb_spec v 0); rewrite bool_decide_eq_false_2; try done; unfold in_s; simpl; lia.
Qed.

(** A string longer than 65535 bytes does not survive [WriteStringF16]: its
    length is cut to 16 bits, and reading returns that many of its bytes. *)
Theorem StringF16_truncates {B} `{ByteBuffer B} `{HostOrder} (b : B) s :
  let n := Z.to_nat (u16 (ssize s)) in
  buf_ok b → 2 ^ 16 ≤ ssize s → n ≠ 0%nat →
  ∃ b1 b2 b3, WriteStringF16 s b = Ret tt b1 ∧
    buf_seek (cursor (buf_view b)) b1 = Ret tt b2 ∧
    ReadStringF16 b2 = Ret (take n s) b3 ∧ take n s ≠ s.
Proof.
  intros n Hok Hs Hn. set (e := buf_endian b).
  pose proof (wrap_range 16 (ssize s) ltac:(lia)) as Hu. unfold in_u in Hu.
  assert (n < length s)%nat as Hlt by (unfold n, ssize in *; lia).
  assert (writes e (WriteStringF16 s) (bytes_of e 2 (u16 (ssize s)) ++ s)) as Hw.
  { apply writes_seq; [|apply writes_buf]. apply XX_write_spec, _. }
  destruct (Hw b Hok eq_refl) as (b1 & Hr1 & Hok1 & Hv1 & He1).
  pose proof (buf_cursor_le b Hok) as Hcur. pose proof (buf_cursor_le b1 Hok1) as Hcur1.
  destruct (buf_seek_law (cursor (buf_view b)) b1 Hok1) as (b2 & Hr2 & Hok2 & Hv2 & He2 & _).
  { rewrite Hv1 in *. simpl in *. lia. }
  assert (reads e (take n s = []) ReadStringF16
    (bytes_of e 2 (u16 (ssize s)) ++ take n s) (take n s)) as Hr.
  { assert (ssize (take n s) = u16 (ssize s)) as Hlen.
    { unfold ssize at 1. rewrite length_take. unfold n. lia. }
    rewrite <- Hlen at 1. apply reads_string.
    - apply XX_read_u; [lia|done|]. unfold in_u. rewrite Hlen. lia.
    - unfold in_u. rewrite Hlen. lia. }
  destruct (Hr b2 (drop n s ++ drop (length (bytes_of e 2 (u16 (ssize s)) ++ s))
    (abs_left (buf_view b))) Hok2) as (b3 & Hr3 & _).
  - congruence.
  - rewrite Hv2, Hv1, abs_left_write by done. rewrite <- !app_assoc. f_equal.
    by rewrite app_assoc, take_drop.
  - intros Hnil. apply (f_equal length) in Hnil. rewrite length_take in Hnil. simpl in Hnil. lia.
  - exists b1, b2, b3. split_and!; [done..|]. intros E. apply (f_equal length) in E.
    rewrite length_take in E. lia.
Qed.
