(* ===== verification/ByteMessages.v ===== *)
(** * Messages in byte arrays

    The readers and writers of [ByteCodec.v] run on the chain of blocks of
    [ByteArray.v]: the instances at which their theorems are used, on small
    concrete arrays. *)
From S2P Require Import Prelude ByteBuffer ByteArray ByteCodec.
Local Open Scope Z_scope.

(** Memory that happens to hold [0xCC], as debuggers leave it. *)
Definition cc_memory : RawMemory := λ _ _, byte.of_Z 0xCC.

(** A message with one value of many kinds. *)
Definition sample : list item :=
  [Fint8 (-5); Fint32 (-123456789); Fuint64 (2 ^ 63 + 7); Int32 (-70000); Uint64 (2 ^ 40);
   StringF16 (bs "byte"); Double 0x3FF0000000000000; StringVint (bs "array")].

Section examples.
Local Existing Instance cc_memory.
Local Instance traps : OverflowMode := false.

Lemma sample_ok : Forall item_ok sample.
Proof. repeat constructor; vm_compute; done || (right; done). Qed.

(** The message in blocks of three bytes, on hosts of either order. *)
Lemma message_roundtrip_witness :
  ∃ b1, write_items (H0 := YGW_LITTLE_ENDIAN) sample (new_ByteArray 3) = Ret tt b1 ∧ buf_ok b1 ∧
    buf_view b1 = abs_write (items_bytes YGW_BIG_ENDIAN sample) (buf_view (new_ByteArray 3)) ∧
    ((Exists empty_string sample → (cursor (buf_view b1) < buf_capacity b1)%nat) →
     ∃ b2 b3, buf_seek 0 b1 = Ret tt b2 ∧
       read_items (H0 := YGW_BIG_ENDIAN) (map shape sample) b2 = Ret sample b3 ∧
       buf_view b3 = buf_view b1).
Proof.
  exact (message_roundtrip YGW_LITTLE_ENDIAN YGW_BIG_ENDIAN (new_ByteArray 3) sample
    (wf_new 3 ltac:(lia)) sample_ok).
Defined.

(** Three bytes of a four-byte integer. *)
Definition cut : ByteArray :=
  mkByteArray 3 0 3 3 [mkNode (bytes_of YGW_BIG_ENDIAN 3 0x010203) 3] 0 YGW_BIG_ENDIAN.

Lemma cut_ok : buf_ok cut.
Proof. constructor; simpl; try done; try lia. by repeat constructor. Qed.

Lemma truncated_item_throws_witness :
  ∃ b', read_item (H0 := YGW_LITTLE_ENDIAN) (shape (Fint32 0x01020304)) cut = Throw out_of_range b'.
Proof.
  exact (truncated_item_throws (H1 := YGW_LITTLE_ENDIAN) (Fint32 0x01020304) cut [byte.of_Z 4]
    ltac:(vm_compute; done) cut_ok ltac:(done) eq_refl).
Defined.

Lemma ReadUint_total_witness :
  ((∃ v n b', ReadUint32 (H0 := YGW_LITTLE_ENDIAN) cut = Ret v b' ∧ in_u 32 v ∧ (n ≤ 5)%nat ∧
      buf_ok b' ∧ buf_view b' = abs_advance n (buf_view cut)) ∨
   (∃ b', ReadUint32 (H0 := YGW_LITTLE_ENDIAN) cut = Throw out_of_range b' ∧
      abs_left (buf_view b') = [])) ∧
  ((∃ v n b', ReadUint64 (H0 := YGW_LITTLE_ENDIAN) cut = Ret v b' ∧ in_u 64 v ∧ (n ≤ 10)%nat ∧
      buf_ok b' ∧ buf_view b' = abs_advance n (buf_view cut)) ∨
   (∃ b', ReadUint64 (H0 := YGW_LITTLE_ENDIAN) cut = Throw out_of_range b' ∧
      abs_left (buf_view b') = [])).
Proof. exact (ReadUint_total (H1 := YGW_LITTLE_ENDIAN) cut cut_ok). Defined.

Lemma WriteUint_bounds_witness :
  (in_u 32 300 → ∃ d b', WriteUint32 300 cut = Ret tt b' ∧ (1 ≤ length d ≤ 5)%nat ∧
     buf_view b' = abs_write d (buf_view cut)) ∧
  (in_u 64 300 → ∃ d b', WriteUint64 300 cut = Ret tt b' ∧ (1 ≤ length d ≤ 10)%nat ∧
     buf_view b' = abs_write d (buf_view cut)).
Proof. exact (WriteUint_bounds cut 300 cut_ok). Defined.

Lemma WriteInt32_overflows_witness : WriteInt32 (2 ^ 30) cut = Undef signed_overflow.
Proof.
  apply (WriteInt32_overflows cut (2 ^ 30)); [done|vm_compute; done|left; done].
Defined.

(** A string one byte longer than 16 bits can count. *)
Lemma StringF16_truncates_witness :
  let s := repeat (byte.of_Z 97) (S (Z.to_nat (2 ^ 16))) in
  let n := Z.to_nat (u16 (ssize s)) in
  ∃ b1 b2 b3, WriteStringF16 (H0 := YGW_LITTLE_ENDIAN) s cut = Ret tt b1 ∧
    buf_seek (cursor (buf_view cut)) b1 = Ret tt b2 ∧
    ReadStringF16 (H0 := YGW_LITTLE_ENDIAN) b2 = Ret (take n s) b3 ∧ take n s ≠ s.
Proof.
  intros s n.
  assert (ssize s = 2 ^ 16 + 1) as Hs by (unfold ssize, s; rewrite repeat_length; lia).
  apply (StringF16_truncates (H1 := YGW_LITTLE_ENDIAN) cut s);
    [exact cut_ok|rewrite Hs; done|rewrite Hs; done].
Defined.
End examples.
