(* ===== verification/Encodings.v ===== *)
(** * Base64 and hexadecimal text of [server_frame/util/hash_util.cc] *)
From S2P Require Import Prelude.
Local Open Scope Z_scope.

(** The code of a character literal. *)
Definition chr (c : String.string) : Z := match bs c with b :: _ => uchar b | [] => 0 end.
Arguments chr c%_string.

(** ** Base64 *)

(** The value of a base64 character: the [if] cascade of [base64decode], on the
    plain [char] [c]. *)
Definition b64_val (b : byte) : option Z :=
  let c := schar b in
  if (chr "A" <=? c) && (c <=? chr "Z") then Some (c - chr "A")
  else if (chr "a" <=? c) && (c <=? chr "z") then Some (c - chr "a" + 26)
  else if (chr "0" <=? c) && (c <=? chr "9") then Some (c - chr "0" + 52)
  else if c =? chr "+" then Some 62
  else if c =? chr "/" then Some 63
  else None.

(** The [for (; i < 4 && ptr < end; ++i, ++ptr)] loop: [n] is [4 - i].  The
    result is [i], [padding], [packed] and what is left, or [None] where the
    function returns the empty string. *)
Fixpoint dec_quad (n i padding : nat) (packed : Z) (src : bytes) :
    option (nat * nat * Z * bytes) :=
  match n, src with
  | S n, c :: src =>
    if uchar c =? chr "=" then dec_quad n (S i) (S padding) (Z.shiftl packed 6) src
    else if (0 <? padding)%nat then None
    else v ← b64_val c; dec_quad n (S i) padding (Z.lor (Z.shiftl packed 6) v) src
  | _, _ => Some (i, padding, packed, src)
  end.

Section base64.
Context {St : Type}.

(** The [while (ptr < end)] loop, writing to a buffer of [cap] bytes. *)
Fixpoint dec_loop (fuel cap : nat) (src out : bytes) : M St bytes :=
  match src with
  | [] => mret out
  | _ =>
    match fuel with
    | O => λ _, NoFuel
    | S fuel =>
      match dec_quad 4 0 0 0 src with
      | None => mret []
      | Some (i, padding, packed, src) =>
        if negb (i =? 4)%nat then mret [] else
        if (0 <? padding)%nat && negb (bool_decide (src = [])) then mret [] else
        if (2 <? padding)%nat then mret [] else
        out ← push cap out (Z.land (Z.shiftr packed 16) 0xff);
        out ← (if negb (padding =? 2)%nat then push cap out (Z.land (Z.shiftr packed 8) 0xff)
               else mret out);
        out ← (if (padding =? 0)%nat then push cap out (Z.land packed 0xff) else mret out);
        dec_loop fuel cap src out
      end
    end
  end.

Definition base64decode (src : bytes) : M St bytes :=
  dec_loop (length src) (length src * 3 / 4) src [].

Definition base64 : bytes :=
  bs "ABCDEFGHIJKLMNOPQRSTUVWXYZabcdefghijklmnopqrstuvwxyz0123456789+/".

(** [base64[k]]. *)
Definition b64_chr (k : Z) : M St byte :=
  match base64 !! Z.to_nat k with Some c => mret c | None => undef out_of_bounds end.

(** The [for (; i < 3 && ptr < end; ++i, ++ptr)] loop: [n] is [3 - i]. *)
Fixpoint enc_take (n i : nat) (packed : Z) (src : bytes) : Z * nat * bytes :=
  match n, src with
  | S n, c :: src => enc_take n (S i) (Z.lor (Z.shiftl packed 8) (uchar c)) src
  | _, _ => (packed, i, src)
  end.

Fixpoint enc_loop (fuel : nat) (src ret : bytes) : M St bytes :=
  match src with
  | [] => mret ret
  | _ =>
    match fuel with
    | O => λ _, NoFuel
    | S fuel =>
      let '(packed, i, src) := enc_take 3 0 0 src in
      let padding := if (i =? 2)%nat then 1%nat else if (i =? 1)%nat then 2%nat else 0%nat in
      let packed := Nat.iter (3 - i) (λ packed, Z.shiftl packed 8) packed in
      c0 ← b64_chr (Z.shiftr packed 18);
      c1 ← b64_chr (Z.land (Z.shiftr packed 12) 0x3f);
      c2 ← (if negb (padding =? 2)%nat
            then c ← b64_chr (Z.land (Z.shiftr packed 6) 0x3f); mret [c] else mret []);
      c3 ← (if (padding =? 0)%nat
            then c ← b64_chr (Z.land packed 0x3f); mret [c] else mret []);
      enc_loop fuel src (ret ++ [c0; c1] ++ c2 ++ c3 ++ repeat (byte.of_Z (chr "=")) padding)
    end
  end.

Definition base64encode (data : bytes) : M St bytes := enc_loop (length data) data [].
End base64.

(** ** Hexadecimal *)

(** One nibble as a digit: [(c > 9) ? c + 'a' - 10 : c + '0']. *)
Definition hex_char (c : Z) : byte :=
  byte.of_Z (if 9 <? c then c + chr "a" - 10 else c + chr "0").

(** The loop of [hexstring_from_data(data, len, output)]. *)
Fixpoint hexstring_loop (buf : bytes) : bytes :=
  match buf with
  | [] => []
  | b :: buf =>
    hex_char (Z.land (Z.shiftr (uchar b) 4) 0xf) :: hex_char (Z.land (uchar b) 0xf)
      :: hexstring_loop buf
  end.

Definition hexstring_from_data (data : bytes) : bytes :=
  if (length data =? 0)%nat then [] else hexstring_loop data.

(** The value of a digit: the [switch] of [data_from_hexstring]. *)
Definition hex_val (b : byte) : option Z :=
  let c := schar b in
  if (chr "a" <=? c) && (c <=? chr "f") then Some (c - chr "a" + 10)
  else if (chr "A" <=? c) && (c <=? chr "F") then Some (c - chr "A" + 10)
  else if (chr "0" <=? c) && (c <=? chr "9") then Some (c - chr "0")
  else None.

Section hex.
Context {St : Type}.

(** The loop of [data_from_hexstring(hexstring, length, output)], writing to a
    buffer of [cap] bytes. *)
Fixpoint data_loop (cap : nat) (hexstring out : bytes) : M St bytes :=
  match hexstring with
  | [] => mret out
  | h :: hexstring =>
    match hex_val h with
    | None => throw invalid_argument
    | Some hi =>
      match hexstring with
      | [] => undef out_of_bounds
      | l :: hexstring =>
        match hex_val l with
        | None => throw invalid_argument
        | Some lo => out ← push cap out (Z.lor (u8 (Z.shiftl hi 4)) lo); data_loop cap hexstring out
        end
      end
    end
  end.

Definition data_from_hexstring (hexstring : bytes) : M St bytes :=
  if negb (length hexstring mod 2 =? 0)%nat then throw invalid_argument else
  if (length hexstring =? 0)%nat then mret [] else
  data_loop (length hexstring / 2) hexstring [].
End hex.

(** ** Bits and digits *)

Lemma uchar_in_u b : in_u 8 (uchar b).
Proof. pose proof (uchar_range b). unfold in_u. lia. Qed.

(** The value of a digit of the base64 alphabet. *)
Definition sextet (k : Z) : byte := default (byte.of_Z 0) (base64 !! Z.to_nat k).

Lemma b64_chr_ok {St} k (s : St) : 0 ≤ k < 64 → b64_chr k s = Ret (sextet k) s.
Proof.
  intros. unfold b64_chr, sextet.
  destruct (lookup_lt_is_Some_2 base64 (Z.to_nat k)) as [c ->]; [|done].
  change (length base64) with 64%nat. lia.
Qed.

Lemma all_below (n : nat) (P : Z → bool) :
  forallb (λ i, P (Z.of_nat i)) (seq 0 n) = true → ∀ k, 0 ≤ k < Z.of_nat n → P k = true.
Proof.
  intros H k Hk. rewrite forallb_forall in H. specialize (H (Z.to_nat k)).
  rewrite Z2Nat.id in H by lia. apply H. apply in_seq. lia.
Qed.

Definition sextet_ok (k : Z) : bool :=
  match b64_val (sextet k) with Some v => v =? k | None => false end &&
  negb (uchar (sextet k) =? chr "=").

Lemma all_sextets : forallb (λ i, sextet_ok (Z.of_nat i)) (seq 0 64) = true.
Proof. vm_compute. reflexivity. Qed.

Lemma b64_val_sextet k : 0 ≤ k < 64 →
  b64_val (sextet k) = Some k ∧ (uchar (sextet k) =? chr "=") = false.
Proof.
  intros Hk. pose proof (all_below 64 sextet_ok all_sextets k ltac:(lia)) as H.
  unfold sextet_ok in H. apply andb_prop in H as [H1 H2%negb_true_iff]. split; [|done].
  destruct (b64_val (sextet k)); [|done]. f_equal. lia.
Qed.

(** Lists by threes. *)
Lemma list3_ind {A} (P : list A → Prop) :
  P [] → (∀ a, P [a]) → (∀ a b, P [a; b]) → (∀ a b c l, P l → P (a :: b :: c :: l)) → ∀ l, P l.
Proof.
  intros H0 H1 H2 H3. fix IH 1. intros [|a [|b [|c l]]]; [done|done|done|]. apply H3, IH.
Qed.

(** ** Base64 *)

(** The encoding of a group: its number's four base-64 digits. *)
Definition digits (p : Z) : bytes :=
  [sextet (p / 2 ^ 18); sextet (p / 2 ^ 12 mod 64); sextet (p / 2 ^ 6 mod 64); sextet (p mod 64)].

Fixpoint encoded (d : bytes) : bytes :=
  match d with
  | [] => []
  | [a] => take 2 (digits (uchar a * 2 ^ 16)) ++ bs "=="
  | [a; b] => take 3 (digits (uchar a * 2 ^ 16 + uchar b * 2 ^ 8)) ++ bs "="
  | a :: b :: c :: d => digits (uchar a * 2 ^ 16 + uchar b * 2 ^ 8 + uchar c) ++ encoded d
  end.

Lemma enc_digits {St} p (s : St) : 0 ≤ p < 2 ^ 24 →
  b64_chr (Z.shiftr p 18) s = Ret (sextet (p / 2 ^ 18)) s ∧
  b64_chr (Z.land (Z.shiftr p 12) 0x3f) s = Ret (sextet (p / 2 ^ 12 mod 64)) s ∧
  b64_chr (Z.land (Z.shiftr p 6) 0x3f) s = Ret (sextet (p / 2 ^ 6 mod 64)) s ∧
  b64_chr (Z.land p 0x3f) s = Ret (sextet (p mod 64)) s.
Proof.
  intros Hp. rewrite !Z.shiftr_div_pow2 by lia. change 0x3f with (2 ^ 6 - 1).
  rewrite !land_ones_mod by lia.
  split_and!; apply b64_chr_ok; try (apply Z.mod_pos_bound; lia).
  split; [apply Z.div_pos; lia|]. apply Z.div_lt_upper_bound; lia.
Qed.

(** The number the loop packs from a group of one, two or three bytes. *)
Definition pack1 (a : byte) : Z := uchar a * 2 ^ 16.
Definition pack2 (a b : byte) : Z := uchar a * 2 ^ 16 + uchar b * 2 ^ 8.
Definition pack3 (a b c : byte) : Z := uchar a * 2 ^ 16 + uchar b * 2 ^ 8 + uchar c.

Lemma pack_range a b c : 0 ≤ pack1 a < 2 ^ 24 ∧ 0 ≤ pack2 a b < 2 ^ 24 ∧ 0 ≤ pack3 a b c < 2 ^ 24.
Proof.
  pose proof (uchar_range a). pose proof (uchar_range b). pose proof (uchar_range c).
  unfold pack1, pack2, pack3. lia.
Qed.

Lemma shift_in_uchar p a : Z.lor (Z.shiftl p 8) (uchar a) = p * 256 + uchar a.
Proof. apply (lor_shift_in p (uchar a) 8); [lia|apply uchar_in_u]. Qed.

Lemma enc_loop_1 {St} fuel a ret (s : St) :
  enc_loop (S fuel) [a] ret s
  = enc_loop fuel [] (ret ++ take 2 (digits (pack1 a)) ++ bs "==") s.
Proof.
  destruct (enc_digits (pack1 a) s) as (H0 & H1 & _); [apply (pack_range a a a)|].
  cbn [enc_loop enc_take]. rewrite shift_in_uchar.
  change (Nat.iter (3 - 1) _ ?p) with (Z.shiftl (Z.shiftl p 8) 8). rewrite Z.shiftl_shiftl by lia.
  rewrite Z.shiftl_mul_pow2 by lia. replace ((0 * 256 + uchar a) * 2 ^ (8 + 8)) with (pack1 a) by done.
  rewrite (bind_Ret _ _ _ _ _ H0), (bind_Ret _ _ _ _ _ H1). done.
Qed.

Lemma enc_loop_2 {St} fuel a b ret (s : St) :
  enc_loop (S fuel) [a; b] ret s
  = enc_loop fuel [] (ret ++ take 3 (digits (pack2 a b)) ++ bs "=") s.
Proof.
  destruct (enc_digits (pack2 a b) s) as (H0 & H1 & H2 & _); [apply (pack_range a b a)|].
  cbn [enc_loop enc_take]. rewrite !shift_in_uchar.
  change (Nat.iter (3 - 2) _ ?p) with (Z.shiftl p 8). rewrite Z.shiftl_mul_pow2 by lia.
  replace (((0 * 256 + uchar a) * 256 + uchar b) * 2 ^ 8) with (pack2 a b) by (unfold pack2; lia).
  rewrite (bind_Ret _ _ _ _ _ H0), (bind_Ret _ _ _ _ _ H1). cbn [negb Nat.eqb].
  erewrite bind_Ret by (by rewrite (bind_Ret _ _ _ _ _ H2)). done.
Qed.

Lemma enc_loop_3 {St} fuel a b c d ret (s : St) :
  enc_loop (S fuel) (a :: b :: c :: d) ret s
  = enc_loop fuel d (ret ++ digits (pack3 a b c)) s.
Proof.
  destruct (enc_digits (pack3 a b c) s) as (H0 & H1 & H2 & H3); [apply (pack_range a b c)|].
  cbn [enc_loop enc_take]. rewrite !shift_in_uchar.
  change (Nat.iter (3 - 3) _ ?p) with p.
  replace (((0 * 256 + uchar a) * 256 + uchar b) * 256 + uchar c) with (pack3 a b c)
    by (unfold pack3; lia).
  rewrite (bind_Ret _ _ _ _ _ H0), (bind_Ret _ _ _ _ _ H1). cbn [negb Nat.eqb].
  erewrite bind_Ret by (by rewrite (bind_Ret _ _ _ _ _ H2)).
  erewrite bind_Ret by (by rewrite (bind_Ret _ _ _ _ _ H3)). done.
Qed.

Lemma enc_loop_spec {St} (d : bytes) : ∀ fuel ret (s : St), (length d ≤ fuel)%nat →
  enc_loop fuel d ret s = Ret (ret ++ encoded d) s.
Proof.
  induction d as [|a|a b|a b c d IH] using list3_ind; intros fuel ret s Hf.
  { rewrite app_nil_r. by destruct fuel. }
  all: destruct fuel as [|fuel]; [simpl in Hf; lia|].
  - rewrite enc_loop_1. by destruct fuel.
  - rewrite enc_loop_2. by destruct fuel.
  - rewrite enc_loop_3, IH by (simpl in Hf; lia). by rewrite <- app_assoc.
Qed.

(** Decoding a group. *)
Lemma dec_digit n i packed k src : 0 ≤ k < 64 →
  dec_quad (S n) i 0 packed (sextet k :: src) = dec_quad n (S i) 0 (packed * 64 + k) src.
Proof.
  intros Hk. destruct (b64_val_sextet k Hk) as [Hv He]. cbn [dec_quad]. rewrite He, Hv.
  simpl. f_equal. apply (lor_shift_in packed k 6); [lia|]. unfold in_u. lia.
Qed.

Lemma dec_pad n i padding packed src :
  dec_quad (S n) i padding packed (byte.of_Z (chr "=") :: src)
  = dec_quad n (S i) (S padding) (packed * 64) src.
Proof. cbn [dec_quad]. by rewrite Z.shiftl_mul_pow2 by lia. Qed.

(** A number's four digits, and its value back from them. *)
Lemma digits_split p : 0 ≤ p < 2 ^ 24 → ∃ k0 k1 k2 k3,
  digits p = [sextet k0; sextet k1; sextet k2; sextet k3] ∧
  0 ≤ k0 < 64 ∧ 0 ≤ k1 < 64 ∧ 0 ≤ k2 < 64 ∧ 0 ≤ k3 < 64 ∧
  p = ((k0 * 64 + k1) * 64 + k2) * 64 + k3.
Proof.
  intros Hp. eexists _, _, _, _. split; [done|].
  change (2 ^ 18) with 262144. change (2 ^ 12) with 4096. change (2 ^ 6) with 64.
  change (2 ^ 24) with 16777216 in Hp. split_and!; try (apply Z.mod_pos_bound; lia); try lia.
  - apply Z.div_pos; lia.
  - apply Z.div_lt_upper_bound; lia.
  - Z.to_euclidean_division_equations. lia.
Qed.

(** The bytes back from the number. *)
Lemma unpack p : Z.land (Z.shiftr p 16) 0xff = p / 65536 mod 256 ∧
  Z.land (Z.shiftr p 8) 0xff = p / 256 mod 256 ∧ Z.land p 0xff = p mod 256.
Proof.
  rewrite !Z.shiftr_div_pow2 by lia. change 0xff with (2 ^ 8 - 1).
  by rewrite !land_ones_mod by lia.
Qed.

(** The bytes a complete group stands for. *)
Definition group (p : Z) : bytes :=
  [byte.of_Z (p / 65536 mod 256); byte.of_Z (p / 256 mod 256); byte.of_Z (p mod 256)].

Lemma dec_loop_step {St} fuel cap src out pad p src' (s : St) :
  src ≠ [] → dec_quad 4 0 0 0 src = Some (4%nat, pad, p, src') → (pad ≤ 2)%nat →
  (pad = 0%nat ∨ src' = []) → (length out + (3 - pad) ≤ cap)%nat →
  dec_loop (S fuel) cap src out s = dec_loop fuel cap src' (out ++ take (3 - pad) (group p)) s.
Proof.
  intros Hne Hq Hpad Hend Hcap. destruct src as [|c src]; [done|]. cbn [dec_loop]. rewrite Hq.
  destruct (unpack p) as (-> & -> & ->). cbn [negb Nat.eqb].
  rewrite (proj2 (Nat.ltb_ge 2 pad)) by done.
  assert ((0 <? pad)%nat && negb (bool_decide (src' = [])) = false) as ->.
  { destruct Hend as [->| ->]; [done|]. by rewrite bool_decide_true, andb_false_r. }
  rewrite (bind_Ret _ _ _ _ _ (push_spec cap out _ s ltac:(lia))).
  destruct pad as [|[|[|pad]]]; [..|lia]; cbn [negb Nat.eqb].
  - erewrite bind_Ret by (apply push_spec; rewrite length_app; simpl; lia).
    erewrite bind_Ret by (apply push_spec; rewrite !length_app; simpl; lia).
    by rewrite <- !app_assoc.
  - erewrite bind_Ret by (apply push_spec; rewrite length_app; simpl; lia).
    by rewrite <- !app_assoc.
  - done.
Qed.

Lemma group_pack a b c : group (pack3 a b c) = [a; b; c].
Proof.
  pose proof (uchar_range a). pose proof (uchar_range b). pose proof (uchar_range c).
  unfold group, pack3. change (2 ^ 16) with 65536. change (2 ^ 8) with 256.
  rewrite (of_uchar_mod a), (of_uchar_mod b), (of_uchar_mod c); [done|..];
    Z.to_euclidean_division_equations; lia.
Qed.

Lemma uchar_0 : uchar (byte.of_Z 0) = 0.
Proof. done. Qed.

Lemma group_pack2 a b : take 2 (group (pack2 a b)) = [a; b].
Proof.
  replace (pack2 a b) with (pack3 a b (byte.of_Z 0)).
  - by rewrite group_pack.
  - unfold pack3, pack2. rewrite uchar_0. lia.
Qed.

Lemma group_pack1 a : take 1 (group (pack1 a)) = [a].
Proof.
  replace (pack1 a) with (pack3 a (byte.of_Z 0) (byte.of_Z 0)).
  - by rewrite group_pack.
  - unfold pack3, pack1. rewrite uchar_0. lia.
Qed.

(** The low digits a padded group leaves out are zero. *)
Lemma low_digits p k0 k1 k2 k3 : 0 ≤ k1 < 64 → 0 ≤ k2 < 64 → 0 ≤ k3 < 64 →
  p = ((k0 * 64 + k1) * 64 + k2) * 64 + k3 →
  (p mod 2 ^ 8 = 0 → k3 = 0) ∧ (p mod 2 ^ 16 = 0 → k2 = 0 ∧ k3 = 0).
Proof.
  intros ??? ->. change (2 ^ 8) with 256. change (2 ^ 16) with 65536.
  split; intros; Z.to_euclidean_division_equations; lia.
Qed.

Lemma dec_quad_3 p src : 0 ≤ p < 2 ^ 24 →
  dec_quad 4 0 0 0 (digits p ++ src) = Some (4%nat, 0%nat, p, src).
Proof.
  intros Hp. destruct (digits_split p Hp) as (k0 & k1 & k2 & k3 & -> & ? & ? & ? & ? & ->).
  cbn [app]. by rewrite !dec_digit by done.
Qed.

Lemma dec_quad_2 p : 0 ≤ p < 2 ^ 24 → p mod 2 ^ 8 = 0 →
  dec_quad 4 0 0 0 (take 3 (digits p) ++ bs "=") = Some (4%nat, 1%nat, p, []).
Proof.
  intros Hp Hm. destruct (digits_split p Hp) as (k0 & k1 & k2 & k3 & -> & ? & ? & ? & ? & Heq).
  destruct (low_digits p k0 k1 k2 k3) as [H3 _]; [done..|]. rewrite (H3 Hm) in Heq.
  cbn [app take]. rewrite !dec_digit by done. change (bs "=") with [byte.of_Z (chr "=")].
  rewrite dec_pad. cbn [dec_quad]. do 3 f_equal. lia.
Qed.

Lemma dec_quad_1 p : 0 ≤ p < 2 ^ 24 → p mod 2 ^ 16 = 0 →
  dec_quad 4 0 0 0 (take 2 (digits p) ++ bs "==") = Some (4%nat, 2%nat, p, []).
Proof.
  intros Hp Hm. destruct (digits_split p Hp) as (k0 & k1 & k2 & k3 & -> & ? & ? & ? & ? & Heq).
  destruct (low_digits p k0 k1 k2 k3) as [_ H3]; [done..|].
  destruct (H3 Hm) as [-> ->]. cbn [app take]. rewrite !dec_digit by done.
  change (bs "==") with [byte.of_Z (chr "="); byte.of_Z (chr "=")].
  rewrite !dec_pad. cbn [dec_quad]. do 3 f_equal. lia.
Qed.

Lemma dec_loop_spec {St} (d : bytes) : ∀ fuel cap out (s : St),
  (length d ≤ fuel)%nat → (length out + length d ≤ cap)%nat →
  dec_loop fuel cap (encoded d) out s = Ret (out ++ d) s.
Proof.
  induction d as [|a|a b|a b c d IH] using list3_ind; intros fuel cap out s Hf Hcap.
  { rewrite app_nil_r. by destruct fuel. }
  all: destruct fuel as [|fuel]; [simpl in Hf; lia|].
  - rewrite (dec_loop_step _ _ _ _ 2 (pack1 a) []);
      [|done| |lia|by right|simpl in *; lia].
    + rewrite group_pack1. by destruct fuel.
    + apply dec_quad_1; [apply (pack_range a a a)|]. by apply Z_mod_mult.
  - rewrite (dec_loop_step _ _ _ _ 1 (pack2 a b) []);
      [|done| |lia|by right|simpl in *; lia].
    + rewrite group_pack2. by destruct fuel.
    + apply dec_quad_2; [apply (pack_range a b a)|]. unfold pack2.
      replace (uchar a * 2 ^ 16 + uchar b * 2 ^ 8) with ((uchar a * 2 ^ 8 + uchar b) * 2 ^ 8) by lia.
      by apply Z_mod_mult.
  - rewrite (dec_loop_step _ _ _ _ 0 (pack3 a b c) (encoded d));
      [|done| |lia|by left|simpl in *; lia].
    + rewrite group_pack, IH by (rewrite ?length_app; simpl in *; lia). by rewrite <- app_assoc.
    + apply dec_quad_3. apply (pack_range a b c).
Qed.

Lemma length_encoded d : length (encoded d) = (4 * ((length d + 2) / 3))%nat.
Proof.
  induction d as [|a|a b|a b c d IH] using list3_ind; try done.
  cbn [encoded]. rewrite length_app, IH. cbn [length digits].
  replace (S (S (S (length d))) + 2)%nat with (length d + 2 + 1 * 3)%nat by lia.
  rewrite Nat.div_add by lia. lia.
Qed.

(** *** Any input to the decoder *)

Lemma dec_quad_length n : ∀ i padding packed src i' padding' packed' src',
  dec_quad n i padding packed src = Some (i', padding', packed', src') →
  ((i' - i) + length src' = length src ∧ i ≤ i')%nat.
Proof.
  induction n as [|n IH]; intros i padding packed [|c src] i' padding' packed' src' H; simpl in H;
    simplify_eq; simpl; try lia.
  destruct (uchar c =? chr "="); [apply IH in H; lia|].
  destruct (0 <? padding)%nat; [done|]. destruct (b64_val c); [|done].
  apply IH in H. lia.
Qed.

(** The decoder stays inside its buffer, and returns. *)
Lemma dec_loop_total {St} fuel : ∀ cap src out (s : St), (length src ≤ fuel)%nat →
  (4 * length out + 3 * length src ≤ 4 * cap + 3)%nat → (length out ≤ cap)%nat →
  ∃ d, dec_loop fuel cap src out s = Ret d s ∧ (length d ≤ cap)%nat.
Proof.
  induction fuel as [|fuel IH]; intros cap src out s Hf Hcap Hout.
  { destruct src; [|simpl in Hf; lia]. by exists out. }
  destruct src as [|c src]; [by exists out|].
  assert (∃ d : bytes, Ret (A := bytes) [] s = Ret d s ∧ (length d ≤ cap)%nat) as Hnil
    by (exists []; split; [done|simpl; lia]).
  destruct (dec_quad 4 0 0 0 (c :: src)) as [[[[i pad] p] src']|] eqn:Hq.
  2:{ cbn [dec_loop]. by rewrite Hq. }
  destruct (dec_quad_length _ _ _ _ _ _ _ _ _ Hq) as [Hlen _].
  destruct (decide (i = 4%nat ∧ (pad ≤ 2)%nat ∧ (pad = 0%nat ∨ src' = []))) as [(-> & Hp & He)|Hbad].
  - rewrite (dec_loop_step _ _ _ _ pad p src') by (done || lia).
    destruct (IH cap src' (out ++ take (3 - pad) (group p)) s) as (d & Hd & Hl); [lia|..].
    + rewrite length_app, length_take. simpl in *. lia.
    + rewrite length_app, length_take. simpl in *. lia.
    + by exists d.
  - cbn [dec_loop]. rewrite Hq. destruct (Nat.eqb_spec i 4); [|done]. cbn [negb].
    destruct (Nat.ltb_spec 0 pad); simpl.
    + destruct (bool_decide_reflect (src' = [])); [|done]. simpl.
      destruct pad as [|[|[|pad]]]; try done; exfalso; apply Hbad; (split_and!; [done|lia|by right]).
    + exfalso. apply Hbad. split_and!; [done|lia|left; lia].
Qed.

(** ** Hexadecimal *)

Definition hex_ok (k : Z) : bool :=
  match hex_val (hex_char k) with Some v => v =? k | None => false end.

Lemma all_hex : forallb (λ i, hex_ok (Z.of_nat i)) (seq 0 16) = true.
Proof. vm_compute. reflexivity. Qed.

Lemma hex_val_char k : 0 ≤ k < 16 → hex_val (hex_char k) = Some k.
Proof.
  intros Hk. pose proof (all_below 16 hex_ok all_hex k ltac:(lia)) as H. unfold hex_ok in H.
  destruct (hex_val (hex_char k)); [|done]. f_equal. lia.
Qed.

Lemma nibbles b : let h := Z.land (Z.shiftr (uchar b) 4) 0xf in let l := Z.land (uchar b) 0xf in
  0 ≤ h < 16 ∧ 0 ≤ l < 16 ∧ byte.of_Z (Z.lor (u8 (Z.shiftl h 4)) l) = b.
Proof.
  intros h l. pose proof (uchar_range b). subst h l. change 0xf with (2 ^ 4 - 1).
  rewrite !land_ones_mod, Z.shiftr_div_pow2 by lia. change (2 ^ 4) with 16.
  split_and!; try (apply Z.mod_pos_bound; lia).
  rewrite wrap_small.
  2:{ rewrite Z.shiftl_mul_pow2 by lia. unfold in_u. Z.to_euclidean_division_equations. lia. }
  rewrite (lor_shift_in _ _ 4); [|lia|unfold in_u; Z.to_euclidean_division_equations; lia].
  apply of_uchar_mod. Z.to_euclidean_division_equations. lia.
Qed.

Lemma length_hexstring_loop d : length (hexstring_loop d) = (2 * length d)%nat.
Proof. induction d as [|b d IH]; simpl; [done|]. rewrite IH. lia. Qed.

Lemma data_loop_hexstring {St} (d : bytes) : ∀ cap out (s : St), (length out + length d ≤ cap)%nat →
  data_loop cap (hexstring_loop d) out s = Ret (out ++ d) s.
Proof.
  induction d as [|b d IH]; intros cap out s Hcap; cbn [hexstring_loop data_loop].
  { by rewrite app_nil_r. }
  destruct (nibbles b) as (Hh & Hl & Hb). rewrite !hex_val_char by done.
  erewrite bind_Ret by (apply push_spec; simpl in Hcap; lia). rewrite Hb.
  rewrite IH by (rewrite length_app; simpl in *; lia). by rewrite <- app_assoc.
Qed.

(** What the decoder does with any text of even length. *)
Lemma data_loop_total {St} cap n : ∀ t out (s : St), length t = (2 * n)%nat →
  (length out + n ≤ cap)%nat →
  (Forall (λ c, is_Some (hex_val c)) t ∧
   ∃ d, data_loop cap t out s = Ret (out ++ d) s ∧ length d = n) ∨
  (Exists (λ c, hex_val c = None) t ∧ data_loop cap t out s = Throw invalid_argument s).
Proof.
  induction n as [|n IH]; intros [|h [|l t]] out s Hlen Hcap; simpl in Hlen; try lia.
  { left. split; [constructor|]. exists []. by rewrite app_nil_r. }
  cbn [data_loop]. destruct (hex_val h) as [hi|] eqn:Hh.
  2:{ right. split; [|done]. by constructor. }
  destruct (hex_val l) as [lo|] eqn:Hl.
  2:{ right. split; [|done]. by apply Exists_cons_tl, Exists_cons_hd. }
  erewrite bind_Ret by (apply push_spec; lia).
  destruct (IH t (out ++ [byte.of_Z (Z.lor (u8 (Z.shiftl hi 4)) lo)]) s)
    as [(Hall & d & Hd & Hld)|(Hex & Hd)]; [lia|rewrite length_app; simpl; lia| |].
  - left. split; [by repeat constructor; eauto|]. eexists. rewrite Hd, <- app_assoc.
    split; [done|]. simpl. lia.
  - right. split; [by apply Exists_cons_tl, Exists_cons_tl|done].
Qed.

(** ** Properties *)

(** Decoding a base64 encoding gives the data back, for any data; the
    encoding of [n] bytes has [4 * ceil(n / 3)] characters. *)
Theorem base64_roundtrip {St} (d : bytes) (s : St) : ∃ t,
  base64encode d s = Ret t s ∧ length t = (4 * ((length d + 2) / 3))%nat ∧
  base64decode t s = Ret d s.
Proof.
  exists (encoded d). unfold base64encode, base64decode. rewrite enc_loop_spec by done.
  split_and!; [done|apply length_encoded|].
  rewrite dec_loop_spec; [done|..]; rewrite length_encoded;
    pose proof (Nat.div_mod_eq (length d + 2) 3);
    pose proof (Nat.mod_upper_bound (length d + 2) 3); [lia|].
  change (length []) with 0%nat. replace (4 * ((length d + 2) / 3) * 3)%nat with (3 * ((length d + 2) / 3) * 4)%nat by lia.
  rewrite Nat.div_mul by lia. lia.
Qed.

(** On any input, [base64decode] returns, and never stores past the
    [size * 3 / 4] bytes of its buffer. *)
Theorem base64decode_safe {St} (t : bytes) (s : St) : ∃ d,
  base64decode t s = Ret d s ∧ (length d ≤ length t * 3 / 4)%nat.
Proof.
  pose proof (Nat.div_mod_eq (length t * 3) 4). pose proof (Nat.mod_upper_bound (length t * 3) 4).
  apply dec_loop_total; change (length []) with 0%nat; lia.
Qed.

(** [data_from_hexstring] inverts [hexstring_from_data]. *)
Theorem hexstring_roundtrip {St} (d : bytes) (s : St) :
  data_from_hexstring (hexstring_from_data d) s = Ret d s.
Proof.
  unfold hexstring_from_data. destruct (Nat.eqb_spec (length d) 0) as [Hd|Hd].
  { by apply nil_length_inv in Hd as ->. }
  unfold data_from_hexstring. rewrite length_hexstring_loop.
  rewrite (Nat.mul_comm 2), Nat.Div0.mod_mul, Nat.div_mul by lia.
  rewrite (proj2 (Nat.eqb_neq (length d * 2) 0)) by lia. cbn [negb Nat.eqb].
  rewrite data_loop_hexstring; [done|]. change (length []) with 0%nat. lia.
Qed.

(** [data_from_hexstring] throws [invalid_argument] exactly for the texts of
    odd length or with a character that is no hexadecimal digit, and otherwise
    returns a byte for every two digits, inside its buffer. *)
Theorem data_from_hexstring_total {St} (t : bytes) (s : St) :
  ((length t mod 2)%nat = 0%nat ∧ Forall (λ c, is_Some (hex_val c)) t ∧
   ∃ d, data_from_hexstring t s = Ret d s ∧ length d = (length t / 2)%nat) ∨
  (((length t mod 2)%nat ≠ 0%nat ∨ Exists (λ c, hex_val c = None) t) ∧
   data_from_hexstring t s = Throw invalid_argument s).
Proof.
  unfold data_from_hexstring.
  destruct (Nat.eqb_spec (length t mod 2) 0) as [Hm|Hm]; simpl; [|right; tauto].
  destruct (Nat.eqb_spec (length t) 0) as [Hz|Hz].
  { left. apply nil_length_inv in Hz as ->. split_and!; [done|constructor|by exists []]. }
  pose proof (Nat.div_mod_eq (length t) 2).
  destruct (data_loop_total (length t / 2) (length t / 2) t [] s)
    as [(Hall & d & Hd & Hl)|(Hex & Hd)]; [lia|simpl; lia| |].
  - left. split_and!; [done..|]. by exists d.
  - right. split; [by right|done].
Qed.
