(* ===== verification/Strings.v ===== *)
(** * Text utilities of [util.cc], [hash_util.cc] and [json_util.cc]

    The member functions of [std::string] the code calls, then the functions
    themselves: trimming, paths, URL encoding, replacement, splitting and JSON
    escaping.  A plain [char] is a byte; [std::string::npos] is [None]. *)
From S2P Require Import Prelude Encodings.

(** ** [std::string] *)

(** The first and the last index whose character satisfies [P]. *)
Fixpoint find_if (P : byte → bool) (s : bytes) : option nat :=
  match s with
  | [] => None
  | c :: s => if P c then Some 0 else S <$> find_if P s
  end.

Fixpoint rfind_if (P : byte → bool) (s : bytes) : option nat :=
  match s with
  | [] => None
  | c :: s => match rfind_if P s with
              | Some i => Some (S i)
              | None => if P c then Some 0 else None
              end
  end.

(** [find_first_of] from [pos] on. *)
Definition find_from (P : byte → bool) (s : bytes) (pos : nat) : option nat :=
  Nat.add pos <$> find_if P (drop pos s).

Fixpoint starts_with (f s : bytes) : bool :=
  match f, s with
  | [], _ => true
  | a :: f, b :: s => bool_decide (a = b) && starts_with f s
  | _ :: _, [] => false
  end.

(** [find(f, pos)]: an empty [f] is found at any position up to the size. *)
Fixpoint find_sub (f s : bytes) : option nat :=
  if starts_with f s then Some 0 else
  match s with [] => None | _ :: s => S <$> find_sub f s end.

Definition find_str (f s : bytes) (pos : nat) : option nat :=
  if length s <? pos then None else Nat.add pos <$> find_sub f (drop pos s).

Definition is_in (delimit : bytes) (c : byte) : bool := bool_decide (c ∈ delimit).
Definition is_char (a c : byte) : bool := bool_decide (c = a).

(** [substr(pos)] and [substr(pos, n)] for [pos] up to the size. *)
Definition substr (s : bytes) (pos n : nat) : bytes := slice pos n s.
Definition substr_from (s : bytes) (pos : nat) : bytes := drop pos s.

(** ** Case and blanks *)

Definition toupper (b : byte) : byte :=
  if (97 <=? uchar b)%Z && (uchar b <=? 122)%Z then byte.of_Z (uchar b - 32) else b.
Definition tolower (b : byte) : byte :=
  if (65 <=? uchar b)%Z && (uchar b <=? 90)%Z then byte.of_Z (uchar b + 32) else b.

Definition ToUpper (name : bytes) : bytes := map toupper name.
Definition ToLower (name : bytes) : bytes := map tolower name.

Definition Trim (str delimit : bytes) : bytes :=
  match find_if (λ c, negb (is_in delimit c)) str with
  | None => []
  | Some begin_ =>
    match rfind_if (λ c, negb (is_in delimit c)) str with
    | None => substr_from str begin_
    | Some end_ => substr str begin_ (end_ - begin_ + 1)
    end
  end.

Definition TrimLeft (str delimit : bytes) : bytes :=
  match find_if (λ c, negb (is_in delimit c)) str with
  | None => []
  | Some begin_ => substr_from str begin_
  end.

Definition TrimRight (str delimit : bytes) : bytes :=
  match rfind_if (λ c, negb (is_in delimit c)) str with
  | None => []
  | Some end_ => substr str 0 end_
  end.

(** ** Paths *)

Definition slash : byte := byte.of_Z 47.

Definition Dirname (filename : bytes) : bytes :=
  if length filename =? 0 then bs "." else
  match rfind_if (is_char slash) filename with
  | Some 0 => bs "/"
  | None => bs "."
  | Some pos => substr filename 0 pos
  end.

Definition Basename (filename : bytes) : bytes :=
  if length filename =? 0 then filename else
  match rfind_if (is_char slash) filename with
  | None => filename
  | Some pos => substr_from filename (pos + 1)
  end.

(** The [NULL]-terminated table of extensions. *)
Definition content_type_table : list (bytes * bytes) :=
  [(bs "txt", bs "text/plain"); (bs "c", bs "text/plain"); (bs "h", bs "text/plain");
   (bs "html", bs "text/html"); (bs "htm", bs "text/htm"); (bs "css", bs "text/css");
   (bs "gif", bs "image/gif"); (bs "jpg", bs "image/jpeg"); (bs "jpeg", bs "image/jpeg");
   (bs "png", bs "image/png"); (bs "pdf", bs "application/pdf");
   (bs "ps", bs "application/postscript")].

(** [!strcasecmp(a, b)]. *)
Definition strcase_eq (a b : bytes) : bool := bool_decide (ToLower a = ToLower b).

Fixpoint content_type_of (table : list (bytes * bytes)) (extension : bytes) : option bytes :=
  match table with
  | [] => None
  | (e, t) :: table => if strcase_eq e extension then Some t else content_type_of table extension
  end.

(** The C string functions see [path] up to its first NUL. *)
Definition c_str (s : bytes) : bytes :=
  match find_if (is_char (byte.of_Z 0)) s with Some i => take i s | None => s end.

Definition GuessContentType (path : bytes) : bytes :=
  let path := c_str path in
  match rfind_if (is_char (byte.of_Z 46)) path with
  | None => bs "application/misc"
  | Some i =>
    let last_period := drop i path in
    if bool_decide (slash ∈ last_period) then bs "application/misc" else
    default (bs "application/misc") (content_type_of content_type_table (drop 1 last_period))
  end.

(** ** URLs *)

Definition uri_chars : list Z := [
   0; 0; 0; 0; 0; 0; 0; 0; 0; 0; 0; 0; 0; 0; 0; 0; 0; 0; 0; 0; 0; 0; 0; 0; 0; 0; 0; 0; 0; 0; 0; 0;
   0; 0; 0; 0; 0; 0; 0; 0; 0; 0; 0; 0; 0; 1; 1; 0; 1; 1; 1; 1; 1; 1; 1; 1; 1; 1; 0; 0; 0; 1; 0; 0;
   0; 1; 1; 1; 1; 1; 1; 1; 1; 1; 1; 1; 1; 1; 1; 1; 1; 1; 1; 1; 1; 1; 1; 1; 1; 1; 1; 0; 0; 0; 0; 1;
   0; 1; 1; 1; 1; 1; 1; 1; 1; 1; 1; 1; 1; 1; 1; 1; 1; 1; 1; 1; 1; 1; 1; 1; 1; 1; 1; 0; 0; 0; 1; 0;
   0; 0; 0; 0; 0; 0; 0; 0; 0; 0; 0; 0; 0; 0; 0; 0; 0; 0; 0; 0; 0; 0; 0; 0; 0; 0; 0; 0; 0; 0; 0; 0;
   0; 0; 0; 0; 0; 0; 0; 0; 0; 0; 0; 0; 0; 0; 0; 0; 0; 0; 0; 0; 0; 0; 0; 0; 0; 0; 0; 0; 0; 0; 0; 0;
   0; 0; 0; 0; 0; 0; 0; 0; 0; 0; 0; 0; 0; 0; 0; 0; 0; 0; 0; 0; 0; 0; 0; 0; 0; 0; 0; 0; 0; 0; 0; 0;
   0; 0; 0; 0; 0; 0; 0; 0; 0; 0; 0; 0; 0; 0; 0; 0; 0; 0; 0; 0; 0; 0; 0; 0; 0; 0; 0; 0; 0; 0; 0; 0]%Z.

Definition xdigit_chars : list Z := [
   0; 0; 0; 0; 0; 0; 0; 0; 0; 0; 0; 0; 0; 0; 0; 0; 0; 0; 0; 0; 0; 0; 0; 0; 0; 0; 0; 0; 0; 0; 0; 0;
   0; 0; 0; 0; 0; 0; 0; 0; 0; 0; 0; 0; 0; 0; 0; 0; 0; 1; 2; 3; 4; 5; 6; 7; 8; 9; 0; 0; 0; 0; 0; 0;
   0; 10; 11; 12; 13; 14; 15; 0; 0; 0; 0; 0; 0; 0; 0; 0; 0; 0; 0; 0; 0; 0; 0; 0; 0; 0; 0; 0; 0; 0; 0; 0;
   0; 10; 11; 12; 13; 14; 15; 0; 0; 0; 0; 0; 0; 0; 0; 0; 0; 0; 0; 0; 0; 0; 0; 0; 0; 0; 0; 0; 0; 0; 0; 0;
   0; 0; 0; 0; 0; 0; 0; 0; 0; 0; 0; 0; 0; 0; 0; 0; 0; 0; 0; 0; 0; 0; 0; 0; 0; 0; 0; 0; 0; 0; 0; 0;
   0; 0; 0; 0; 0; 0; 0; 0; 0; 0; 0; 0; 0; 0; 0; 0; 0; 0; 0; 0; 0; 0; 0; 0; 0; 0; 0; 0; 0; 0; 0; 0;
   0; 0; 0; 0; 0; 0; 0; 0; 0; 0; 0; 0; 0; 0; 0; 0; 0; 0; 0; 0; 0; 0; 0; 0; 0; 0; 0; 0; 0; 0; 0; 0;
   0; 0; 0; 0; 0; 0; 0; 0; 0; 0; 0; 0; 0; 0; 0; 0; 0; 0; 0; 0; 0; 0; 0; 0; 0; 0; 0; 0; 0; 0; 0; 0]%Z.

Definition CHAR_IS_UNRESERVED (c : byte) : bool :=
  negb (nth (Z.to_nat (uchar c)) uri_chars 0 =? 0)%Z.

Definition hexdigits : bytes := bs "0123456789ABCDEF".
Definition hexdigit (k : Z) : byte := nth (Z.to_nat k) hexdigits (byte.of_Z 0).

(** [isxdigit], false on the negative values of a plain [char]. *)
Definition isxdigit (b : byte) : bool :=
  let c := schar b in
  ((48 <=? c) && (c <=? 57) || (65 <=? c) && (c <=? 70) || (97 <=? c) && (c <=? 102))%Z.

Definition space : byte := byte.of_Z 32.
Definition plus : byte := byte.of_Z 43.
Definition percent : byte := byte.of_Z 37.

(** The loops work on the buffer [ss], allocated at the first character that
    has to change, with the [i] characters before it. *)
Definition allocate (str : bytes) (i : nat) (ss : option bytes) : bytes :=
  match ss with Some ss => ss | None => take i str end.

Fixpoint UrlEncode_loop (str : bytes) (space_as_plus : bool) (i : nat) (rest : bytes)
    (ss : option bytes) : option bytes :=
  match rest with
  | [] => ss
  | c :: rest =>
    let ss :=
      if negb (CHAR_IS_UNRESERVED c) then
        let buf := allocate str i ss in
        Some (if bool_decide (c = space) && space_as_plus then buf ++ [plus]
              else buf ++ [percent; hexdigit (Z.shiftr (uchar c) 4);
                           hexdigit (Z.land (schar c) 0xf)])
      else (λ buf, buf ++ [c]) <$> ss in
    UrlEncode_loop str space_as_plus (S i) rest ss
  end.

Definition UrlEncode (str : bytes) (space_as_plus : bool) : bytes :=
  default str (UrlEncode_loop str space_as_plus 0 str None).

(** The value of a hexadecimal digit in the table. *)
Definition xdigit (b : byte) : Z := nth (Z.to_nat (uchar b)) xdigit_chars 0%Z.

Fixpoint UrlDecode_loop (str : bytes) (space_as_plus : bool) (i : nat) (rest : bytes)
    (ss : option bytes) : option bytes :=
  match rest with
  | [] => ss
  | c :: rest1 =>
    if bool_decide (c = plus) && space_as_plus then
      UrlDecode_loop str space_as_plus (S i) rest1 (Some (allocate str i ss ++ [space]))
    else
      let keep := UrlDecode_loop str space_as_plus (S i) rest1 ((λ buf, buf ++ [c]) <$> ss) in
      match rest1 with
      | h :: l :: rest2 =>
        if bool_decide (c = percent) && isxdigit h && isxdigit l then
          UrlDecode_loop str space_as_plus (S (S (S i))) rest2
            (Some (allocate str i ss ++ [byte.of_Z (Z.lor (Z.shiftl (xdigit h) 4) (xdigit l))]))
        else keep
      | _ => keep
      end
  end.

Definition UrlDecode (str : bytes) (space_as_plus : bool) : bytes :=
  default str (UrlDecode_loop str space_as_plus 0 str None).

(** ** Replacing and splitting *)

(** [replace(str, find, replaceWith)] with two characters; [None] is the fuel
    running out, here and below. *)
Fixpoint replace_char_loop (fuel : nat) (find replaceWith : byte) (str : bytes)
    (index : option nat) : option bytes :=
  match index with
  | None => Some str
  | Some index =>
    match fuel with
    | O => None
    | S fuel =>
      let str := <[index := replaceWith]> str in
      replace_char_loop fuel find replaceWith str (find_from (is_char find) str (index + 1))
    end
  end.

Definition replace_char (str : bytes) (find replaceWith : byte) : option bytes :=
  replace_char_loop (S (length str)) find replaceWith str (find_from (is_char find) str 0).

(** The loop of the overloads that replace a character or a string with a
    string: [find] is the search, [flen] the length of what it finds. *)
Fixpoint replace_loop (fuel : nat) (find : bytes → nat → option nat) (flen : nat)
    (replaceWith str : bytes) (index : option nat) : option bytes :=
  match index with
  | None => Some str
  | Some index =>
    match fuel with
    | O => None
    | S fuel =>
      let str := take index str ++ replaceWith ++ substr_from str (index + flen) in
      replace_loop fuel find flen replaceWith str (find str (index + length replaceWith))
    end
  end.

Definition replace_char_str (str : bytes) (find : byte) (replaceWith : bytes) : option bytes :=
  replace_loop (S (length str)) (find_from (is_char find)) 1 replaceWith str
    (find_from (is_char find) str 0).

Definition replace_str (fuel : nat) (str find replaceWith : bytes) : option bytes :=
  replace_loop fuel (find_str find) (length find) replaceWith str (find_str find str 0).

(** The loop of [split]: [max] is a [size_t], [P] the separator test. *)
Fixpoint split_loop (fuel : nat) (P : byte → bool) (str : bytes) (max : Z) (last : nat)
    (pos : option nat) (result : list bytes) : option (list bytes) :=
  match pos with
  | None => Some (result ++ [substr_from str last])
  | Some pos =>
    match fuel with
    | O => None
    | S fuel =>
      let result := result ++ [substr str last (pos - last)] in
      let last := pos + 1 in
      let max := u64 (max - 1) in
      if (max =? 1)%Z then Some (result ++ [substr_from str last])
      else split_loop fuel P str max last (find_from P str last) result
    end
  end.

Definition split_if (P : byte → bool) (str : bytes) (max : Z) : option (list bytes) :=
  if length str =? 0 then Some [] else
  split_loop (S (length str)) P str max 0 (find_from P str 0) [].

(** The overloads with one delimiter and with a set of them. *)
Definition split (str : bytes) (delim : byte) (max : Z) : option (list bytes) :=
  split_if (is_char delim) str max.
Definition split_any (str delims : bytes) (max : Z) : option (list bytes) :=
  split_if (is_in delims) str max.

(** [random_string]: [rand] is the sequence of values [rand()] returns. *)
Definition random_string (rand : nat → Z) (len : nat) (chars : bytes) : bytes :=
  if (len =? 0) || (length chars =? 0) then [] else
  map (λ i, nth (Z.to_nat (rand i mod Z.of_nat (length chars))) chars (byte.of_Z 0)) (seq 0 len).

(** ** JSON text *)

(** The character after the backslash, for the characters that need one: form
    feed, tab, carriage return, newline, backspace, double quote, backslash. *)
Definition json_escape (c : byte) : option byte :=
  let code := uchar c in
  if (code =? 12)%Z then Some (byte.of_Z 102)
  else if (code =? 9)%Z then Some (byte.of_Z 116)
  else if (code =? 13)%Z then Some (byte.of_Z 114)
  else if (code =? 10)%Z then Some (byte.of_Z 110)
  else if (code =? 8)%Z then Some (byte.of_Z 98)
  else if (code =? 34)%Z then Some (byte.of_Z 34)
  else if (code =? 92)%Z then Some (byte.of_Z 92)
  else None.

Definition needs_escape (c : byte) : bool :=
  match json_escape c with Some _ => true | None => false end.

Definition NeedEscape (v : bytes) : bool := existsb needs_escape v.

Definition escape_size (v : bytes) : nat :=
  foldl (λ size c, size + (if needs_escape c then 2 else 1)) 0 v.

Definition escape_char (c : byte) : bytes :=
  match json_escape c with Some e => [byte.of_Z 92; e] | None => [c] end.

(** [rt.resize(size)], then an [append] per character. *)
Definition Escape (v : bytes) : bytes :=
  if escape_size v =? length v then v
  else foldl (λ rt c, rt ++ escape_char c) (repeat (byte.of_Z 0) (escape_size v)) v.

(** ** Searching *)

Lemma find_if_Some P s i : find_if P s = Some i → ∃ a c b,
  s = a ++ c :: b ∧ length a = i ∧ P c = true ∧ Forall (λ c, P c = false) a.
Proof.
  revert i. induction s as [|c s IH]; intros i Hi; simpl in Hi; [done|].
  destruct (P c) eqn:HP.
  - injection Hi as <-. by exists [], c, s.
  - destruct (find_if P s) as [j|]; [|done]. injection Hi as <-.
    destruct (IH j eq_refl) as (a & c' & b & -> & <- & ? & ?).
    exists (c :: a), c', b. repeat split; try done. by constructor.
Qed.

Lemma find_if_None P s : find_if P s = None → Forall (λ c, P c = false) s.
Proof.
  induction s as [|c s IH]; simpl; [constructor|]. destruct (P c) eqn:HP; [done|].
  destruct (find_if P s); [done|]. constructor; [done|by apply IH].
Qed.

Lemma rfind_if_None P s : rfind_if P s = None → Forall (λ c, P c = false) s.
Proof.
  induction s as [|c s IH]; simpl; [constructor|].
  destruct (rfind_if P s); [done|]. destruct (P c) eqn:HP; [done|].
  intros _. constructor; [done|by apply IH].
Qed.

Lemma rfind_if_Some P s i : rfind_if P s = Some i → ∃ a c b,
  s = a ++ c :: b ∧ length a = i ∧ P c = true ∧ Forall (λ c, P c = false) b.
Proof.
  revert i. induction s as [|c s IH]; intros i Hi; simpl in Hi; [done|].
  destruct (rfind_if P s) as [j|] eqn:Hj.
  - injection Hi as <-. destruct (IH j eq_refl) as (a & c' & b & -> & <- & ? & ?).
    by exists (c :: a), c', b.
  - destruct (P c) eqn:HP; [|done]. injection Hi as <-.
    exists [], c, s. repeat split; try done. by apply rfind_if_None.
Qed.

Lemma slice_prefix {A} (a b : list A) : slice 0 (length a) (a ++ b) = a.
Proof. unfold slice. by rewrite drop_0, take_app_length. Qed.

(** ** Trimming and paths *)

(** [t] is [s] with delimiters removed at the front ([l]), the back ([r]) or both. *)
Lemma TrimLeft_spec s d : ∃ a, s = a ++ TrimLeft s d ∧ Forall (λ c, c ∈ d) a ∧
  (∀ c, TrimLeft s d !! 0 = Some c → c ∉ d).
Proof.
  assert (∀ c, negb (is_in d c) = false → c ∈ d) as Hin.
  { intros c Hc. apply negb_false_iff in Hc. unfold is_in in Hc. by apply bool_decide_eq_true in Hc. }
  unfold TrimLeft. destruct (find_if _ s) as [i|] eqn:Hf.
  - apply find_if_Some in Hf as (a & c & b & -> & <- & Hc & Ha). exists a.
    unfold substr_from. rewrite drop_app_length. repeat split; [by eapply Forall_impl|].
    intros c' [= <-]. apply negb_true_iff in Hc. by apply bool_decide_eq_false in Hc.
  - exists s. rewrite app_nil_r. repeat split; [|done].
    apply find_if_None in Hf. by eapply Forall_impl.
Qed.

Lemma rfind_if_app P a b :
  rfind_if P (a ++ b) = match rfind_if P b with
                        | Some i => Some (length a + i) | None => rfind_if P a end.
Proof.
  induction a as [|c a IH]; simpl; [by destruct (rfind_if P b)|]. rewrite IH.
  by destruct (rfind_if P b).
Qed.

Lemma Trim_spec s d : ∃ a b, s = a ++ Trim s d ++ b ∧
  Forall (λ c, c ∈ d) a ∧ Forall (λ c, c ∈ d) b ∧
  (∀ c, head (Trim s d) = Some c → c ∉ d) ∧ (∀ c, last (Trim s d) = Some c → c ∉ d).
Proof.
  assert (∀ c, negb (is_in d c) = false → c ∈ d) as Hin.
  { intros c Hc. apply negb_false_iff in Hc. unfold is_in in Hc. by apply bool_decide_eq_true in Hc. }
  assert (∀ c, negb (is_in d c) = true → c ∉ d) as Hout.
  { intros c Hc. apply negb_true_iff in Hc. by apply bool_decide_eq_false in Hc. }
  unfold Trim. destruct (find_if _ s) as [i|] eqn:Hf.
  2:{ exists s, []. apply find_if_None in Hf. rewrite app_nil_r.
      repeat split; try done. by eapply Forall_impl. }
  apply find_if_Some in Hf as (a & c & b & -> & <- & Hc & Ha).
  destruct (rfind_if (λ c, negb (is_in d c)) (a ++ c :: b)) as [j|] eqn:Hr.
  2:{ apply rfind_if_None in Hr. apply Forall_app in Hr as [_ Hr].
      apply Forall_cons in Hr as [Hr _]. congruence. }
  rewrite rfind_if_app in Hr.
  destruct (rfind_if (λ c, negb (is_in d c)) (c :: b)) as [k|] eqn:Hk.
  2:{ apply rfind_if_None, Forall_cons in Hk as [Hk _]. congruence. }
  injection Hr as <-. apply rfind_if_Some in Hk as (m & e & b' & Heq & <- & He & Hb').
  exists a, b'. rewrite Heq.
  assert (substr (a ++ m ++ e :: b') (length a) (length a + length m - length a + 1) = m ++ [e]) as ->.
  { unfold substr, slice. rewrite drop_app_length.
    replace (length a + length m - length a + 1) with (length (m ++ [e])) by (rewrite length_app; simpl; lia).
    replace (m ++ e :: b') with ((m ++ [e]) ++ b') by (by rewrite <- app_assoc).
    apply take_app_length. }
  repeat split.
  - by rewrite <- app_assoc.
  - by eapply Forall_impl.
  - by eapply Forall_impl.
  - intros x Hx. destruct m as [|y m]; simpl in *; simplify_eq; by apply Hout.
  - intros x Hx. rewrite last_snoc in Hx. injection Hx as <-. by apply Hout.
Qed.

(** [TrimRight] takes one character too many: it returns what precedes the last
    character to keep. *)
Lemma TrimRight_spec s d :
  (Forall (λ c, c ∈ d) s ∧ TrimRight s d = []) ∨
  (∃ a c b, s = a ++ c :: b ∧ (c ∉ d) ∧ Forall (λ c, c ∈ d) b ∧ TrimRight s d = a).
Proof.
  unfold TrimRight. destruct (rfind_if _ s) as [i|] eqn:Hr.
  - right. apply rfind_if_Some in Hr as (a & c & b & -> & <- & Hc & Hb).
    exists a, c, b. unfold substr. rewrite slice_prefix. repeat split.
    + apply negb_true_iff in Hc. by apply bool_decide_eq_false in Hc.
    + eapply Forall_impl; [done|]. intros x Hx. apply negb_false_iff in Hx. unfold is_in in Hx.
      by apply bool_decide_eq_true in Hx.
  - left. split; [|done]. apply rfind_if_None in Hr. eapply Forall_impl; [done|].
    intros x Hx. apply negb_false_iff in Hx. unfold is_in in Hx. by apply bool_decide_eq_true in Hx.
Qed.

Lemma path_spec f :
  ((slash ∉ f) ∧ Dirname f = bs "." ∧ Basename f = f) ∨
  (∃ b, f = slash :: b ∧ (slash ∉ b) ∧ Dirname f = bs "/" ∧ Basename f = b) ∨
  (∃ a b, a ≠ [] ∧ f = a ++ slash :: b ∧ (slash ∉ b) ∧ Dirname f = a ∧ Basename f = b).
Proof.
  assert (∀ l, Forall (λ c, is_char slash c = false) l → slash ∉ l) as Hno.
  { intros l Hl Hin. rewrite Forall_forall in Hl. specialize (Hl _ Hin).
    unfold is_char in Hl. by rewrite bool_decide_true in Hl. }
  unfold Dirname, Basename. destruct (Nat.eqb_spec (length f) 0) as [Hf|Hf].
  { left. apply nil_length_inv in Hf as ->. split_and!; try done. by apply not_elem_of_nil. }
  destruct (rfind_if (is_char slash) f) as [i|] eqn:Hr.
  2:{ left. split_and!; try done. by apply Hno, rfind_if_None. }
  apply rfind_if_Some in Hr as (a & c & b & -> & <- & Hc & Hb). right.
  unfold is_char in Hc. apply bool_decide_eq_true in Hc as ->.
  assert (substr_from (a ++ slash :: b) (length a + 1) = b) as ->.
  { unfold substr_from. rewrite <- drop_drop, drop_app_length. done. }
  destruct a as [|x a].
  - left. exists b. split_and!; try done. by apply Hno.
  - right. exists (x :: a), b. unfold substr.
    rewrite (slice_prefix (x :: a)). split_and!; try done. by apply Hno.
Qed.

(** ** URLs *)

(** What the encoder emits for a character. *)
Definition url_char (p : bool) (c : byte) : bytes :=
  if CHAR_IS_UNRESERVED c then [c]
  else if bool_decide (c = space) && p then [plus]
  else [percent; hexdigit (Z.shiftr (uchar c) 4); hexdigit (Z.land (schar c) 0xf)].

Lemma UrlEncode_loop_Some str p rest : ∀ i buf,
  UrlEncode_loop str p i rest (Some buf) = Some (buf ++ concat (map (url_char p) rest)).
Proof.
  induction rest as [|c rest IH]; intros i buf; simpl; [by rewrite app_nil_r|].
  unfold url_char at 1. destruct (CHAR_IS_UNRESERVED c); simpl; rewrite IH.
  - by rewrite <- app_assoc.
  - destruct (bool_decide (c = space) && p); by rewrite <- app_assoc.
Qed.

Lemma UrlEncode_loop_None p rest : ∀ pre,
  default (pre ++ rest) (UrlEncode_loop (pre ++ rest) p (length pre) rest None)
  = pre ++ concat (map (url_char p) rest).
Proof.
  induction rest as [|c rest IH]; intros pre; simpl; [done|].
  destruct (CHAR_IS_UNRESERVED c) eqn:Hc; simpl.
  - specialize (IH (pre ++ [c])). rewrite length_app, <- !app_assoc in IH.
    rewrite Nat.add_1_r in IH. simpl in IH. rewrite IH. unfold url_char at 2. by rewrite Hc.
  - rewrite UrlEncode_loop_Some, take_app_length. simpl. unfold url_char at 2. rewrite Hc.
    destruct (bool_decide (c = space) && p); by rewrite <- app_assoc.
Qed.

Lemma UrlEncode_spec s p : UrlEncode s p = concat (map (url_char p) s).
Proof. apply (UrlEncode_loop_None p s []). Qed.

(** What the decoder returns. *)
Fixpoint url_decoded (p : bool) (rest : bytes) : bytes :=
  match rest with
  | [] => []
  | c :: rest1 =>
    if bool_decide (c = plus) && p then space :: url_decoded p rest1
    else
      let keep := c :: url_decoded p rest1 in
      match rest1 with
      | h :: l :: rest2 =>
        if bool_decide (c = percent) && isxdigit h && isxdigit l then
          byte.of_Z (Z.lor (Z.shiftl (xdigit h) 4) (xdigit l)) :: url_decoded p rest2
        else keep
      | _ => keep
      end
  end.

(** Lists, by the tail and the tail two further. *)
Lemma list_skip_ind {A} (P : list A → Prop) : P [] →
  (∀ c l, P l → (∀ h k l', l = h :: k :: l' → P l') → P (c :: l)) → ∀ l, P l.
Proof.
  intros H0 HS l.
  assert (P l ∧ ∀ h k l', l = h :: k :: l' → P l') as [? _]; [|done].
  enough (P l ∧ (∀ h l', l = h :: l' → P l') ∧ ∀ h k l', l = h :: k :: l' → P l') by tauto.
  induction l as [|c l (IH & IH1 & IH2)]; [by repeat split|].
  split; [by apply HS|]. split; [by intros ?? [= <- <-]|]. intros ??? [= <- ->]. by eapply IH1.
Qed.

Lemma UrlDecode_loop_Some str p rest : ∀ i buf,
  UrlDecode_loop str p i rest (Some buf) = Some (buf ++ url_decoded p rest).
Proof.
  induction rest as [|c rest IH IH2] using list_skip_ind; intros i buf.
  { simpl. by rewrite app_nil_r. }
  cbn [UrlDecode_loop url_decoded]. destruct (bool_decide (c = plus) && p).
  { rewrite IH. simpl. by rewrite <- app_assoc. }
  assert (UrlDecode_loop str p (S i) rest ((λ buf, buf ++ [c]) <$> Some buf)
    = Some (buf ++ c :: url_decoded p rest)) as Hkeep.
  { simpl. rewrite IH. by rewrite <- app_assoc. }
  destruct rest as [|h [|l rest]]; [done|done|].
  destruct (bool_decide (c = percent) && isxdigit h && isxdigit l); [|done].
  rewrite (IH2 _ _ _ eq_refl). simpl. by rewrite <- app_assoc.
Qed.

Lemma UrlDecode_loop_None p rest : ∀ pre,
  default (pre ++ rest) (UrlDecode_loop (pre ++ rest) p (length pre) rest None)
  = pre ++ url_decoded p rest.
Proof.
  induction rest as [|c rest IH IH2] using list_skip_ind; intros pre; [done|].
  cbn [UrlDecode_loop url_decoded]. destruct (bool_decide (c = plus) && p).
  { rewrite UrlDecode_loop_Some. simpl. by rewrite take_app_length, <- app_assoc. }
  assert (default (pre ++ c :: rest) (UrlDecode_loop (pre ++ c :: rest) p (S (length pre)) rest
    ((λ buf, buf ++ [c]) <$> None)) = pre ++ c :: url_decoded p rest) as Hkeep.
  { specialize (IH (pre ++ [c])). rewrite length_app, <- !app_assoc in IH.
    rewrite Nat.add_1_r in IH. done. }
  destruct rest as [|h [|l rest]]; [done|done|].
  destruct (bool_decide (c = percent) && isxdigit h && isxdigit l); [|done].
  rewrite UrlDecode_loop_Some. simpl. by rewrite take_app_length, <- app_assoc.
Qed.

Lemma UrlDecode_spec s p : UrlDecode s p = url_decoded p s.
Proof. apply (UrlDecode_loop_None p s []). Qed.

(** The tables, checked on all 256 characters. *)
Lemma hexdigits_decode c :
  isxdigit (hexdigit (Z.shiftr (uchar c) 4)) = true ∧
  isxdigit (hexdigit (Z.land (schar c) 0xf)) = true ∧
  byte.of_Z (Z.lor (Z.shiftl (xdigit (hexdigit (Z.shiftr (uchar c) 4))) 4)
                   (xdigit (hexdigit (Z.land (schar c) 0xf)))) = c.
Proof. destruct c; vm_compute; repeat split. Qed.

Lemma reserved_marks : CHAR_IS_UNRESERVED plus = false ∧ CHAR_IS_UNRESERVED percent = false.
Proof. by vm_compute. Qed.

Lemma url_decoded_char p c rest :
  url_decoded p (url_char p c ++ rest) = c :: url_decoded p rest.
Proof.
  destruct reserved_marks as [Hplus Hpercent]. unfold url_char.
  destruct (CHAR_IS_UNRESERVED c) eqn:Hc.
  - cbn [app url_decoded].
    rewrite (bool_decide_false (c = plus)) by (intros ->; congruence).
    rewrite (bool_decide_false (c = percent)) by (intros ->; congruence).
    by destruct rest as [|h [|l rest]].
  - destruct (bool_decide (c = space) && p) eqn:Hs.
    + apply andb_prop in Hs as [Hs%bool_decide_eq_true ->]. by subst c.
    + destruct (hexdigits_decode c) as (Hh & Hl & Heq). cbn [app url_decoded].
      rewrite Hh, Hl, Heq. by rewrite (bool_decide_true (percent = percent)) by done.
Qed.

(** ** Replacing *)

(** [find_from] looks at the rest only. *)
Lemma find_from_app P d r : find_from P (d ++ r) (length d) = Nat.add (length d) <$> find_if P r.
Proof. unfold find_from. by rewrite drop_app_length. Qed.

Lemma find_str_app f d r : find_str f (d ++ r) (length d) = Nat.add (length d) <$> find_sub f r.
Proof.
  unfold find_str. rewrite length_app, (proj2 (Nat.ltb_ge _ _)) by lia. by rewrite drop_app_length.
Qed.

(** A string of [n] or more characters to find makes the loop finish: every
    round leaves at least one character less to search. *)
Section replace.
Context (find : bytes → nat → option nat) (search : bytes → option nat) (flen : nat).
Context (replaceWith : bytes) (spec : bytes → bytes).
Hypothesis find_rest : ∀ d r, find (d ++ r) (length d) = Nat.add (length d) <$> search r.
Hypothesis flen_pos : 0 < flen.
Hypothesis search_bound : ∀ r i, search r = Some i → i + flen ≤ length r.
Hypothesis spec_none : ∀ r, search r = None → spec r = r.
Hypothesis spec_some : ∀ r i, search r = Some i →
  spec r = take i r ++ replaceWith ++ spec (drop (i + flen) r).

Lemma replace_loop_spec fuel : ∀ d r, length r < fuel →
  replace_loop fuel find flen replaceWith (d ++ r) (find (d ++ r) (length d)) = Some (d ++ spec r).
Proof.
  induction fuel as [|fuel IH]; intros d r Hf; [lia|].
  rewrite find_rest. destruct (search r) as [i|] eqn:Hs; simpl.
  2:{ by rewrite spec_none. }
  pose proof (search_bound r i Hs). rewrite (spec_some r i Hs).
  rewrite take_app_add. unfold substr_from.
  replace (length d + i + flen) with (length d + (i + flen)) by lia.
  rewrite drop_app_add, <- !app_assoc.
  rewrite (app_assoc (take i r)), (app_assoc d).
  replace (length d + i + length replaceWith) with (length (d ++ take i r ++ replaceWith)).
  2:{ rewrite !length_app, length_take. lia. }
  rewrite IH by (rewrite length_drop; lia). by rewrite <- !app_assoc.
Qed.
End replace.

(** The leftmost occurrences of [f] that do not overlap, replaced by [r]:
    [skip] characters of an occurrence are still to be dropped. *)
Fixpoint substituted (f r : bytes) (skip : nat) (s : bytes) : bytes :=
  match s with
  | [] => []
  | c :: s' =>
    match skip with
    | S skip => substituted f r skip s'
    | O => if starts_with f s then r ++ substituted f r (length f - 1) s'
           else c :: substituted f r 0 s'
    end
  end.

Lemma substituted_skip f r k s : k ≤ length s → substituted f r k s = substituted f r 0 (drop k s).
Proof.
  revert s. induction k as [|k IH]; intros [|c s] Hk; simpl in *; try lia; [done|done|].
  apply IH. lia.
Qed.

Lemma starts_with_length f s : starts_with f s = true → length f ≤ length s.
Proof.
  revert s. induction f as [|a f IH]; intros [|b s] H; simpl in *; try lia.
  apply andb_prop in H as [_ H]. apply IH in H. lia.
Qed.

Lemma find_sub_bound f s i : find_sub f s = Some i → i + length f ≤ length s.
Proof.
  revert i. induction s as [|c s IH]; intros i H; cbn [find_sub] in H.
  - destruct (starts_with f []) eqn:Hs; [|done]. injection H as <-. by apply starts_with_length.
  - destruct (starts_with f (c :: s)) eqn:Hs.
    + injection H as <-. by apply starts_with_length.
    + destruct (find_sub f s) as [j|]; [|done]. injection H as <-.
      specialize (IH j eq_refl). simpl. lia.
Qed.

Lemma substituted_none f r s : f ≠ [] → find_sub f s = None → substituted f r 0 s = s.
Proof.
  intros Hf. induction s as [|c s IH]; intros H; [done|]. cbn [find_sub] in H. cbn [substituted].
  destruct (starts_with f (c :: s)); [done|].
  destruct (find_sub f s); [done|]. by rewrite IH.
Qed.

Lemma substituted_some f r s i : f ≠ [] → find_sub f s = Some i →
  substituted f r 0 s = take i s ++ r ++ substituted f r 0 (drop (i + length f) s).
Proof.
  intros Hf. revert i. induction s as [|c s IH]; intros i H.
  { apply find_sub_bound in H. destruct f; [done|simpl in H; lia]. }
  cbn [find_sub] in H. cbn [substituted]. destruct (starts_with f (c :: s)) eqn:Hs.
  - injection H as <-. simpl. f_equal. apply starts_with_length in Hs.
    destruct f as [|a f]; [done|]. simpl in *. rewrite Nat.sub_0_r.
    apply substituted_skip. lia.
  - destruct (find_sub f s) as [j|]; [|done]. injection H as <-.
    simpl. by rewrite (IH j eq_refl).
Qed.

(** Replacing characters. *)
Lemma find_if_bound P s i : find_if P s = Some i → i + 1 ≤ length s.
Proof.
  intros H. apply find_if_Some in H as (a & c & b & -> & <- & _).
  rewrite length_app. simpl. lia.
Qed.

Definition replaced_char (find : byte) (r : bytes) (s : bytes) : bytes :=
  concat (map (λ c, if is_char find c then r else [c]) s).

Lemma replaced_char_none find r s :
  Forall (λ c, is_char find c = false) s → replaced_char find r s = s.
Proof.
  unfold replaced_char. induction 1 as [|c s Hc _ IH]; simpl; [done|]. by rewrite Hc, IH.
Qed.

Lemma replaced_char_some find r s i : find_if (is_char find) s = Some i →
  replaced_char find r s = take i s ++ r ++ replaced_char find r (drop (i + 1) s).
Proof.
  intros H. apply find_if_Some in H as (a & c & b & -> & <- & Hc & Ha).
  rewrite take_app_length, <- drop_drop, drop_app_length. simpl.
  rewrite <- (replaced_char_none find r a) at 2 by done.
  unfold replaced_char. rewrite map_app, concat_app. simpl. by rewrite Hc.
Qed.

(** Replacing a character in place does what the string overload does. *)
Lemma replace_char_loop_spec fuel find r : ∀ d s, length s < fuel →
  replace_char_loop fuel find r (d ++ s) (find_from (is_char find) (d ++ s) (length d))
  = Some (d ++ map (λ c, if is_char find c then r else c) s).
Proof.
  induction fuel as [|fuel IH]; intros d s Hf; [lia|].
  rewrite find_from_app. destruct (find_if (is_char find) s) as [i|] eqn:Hs; simpl.
  - apply find_if_Some in Hs as (a & c & b & -> & <- & Hc & Ha).
    rewrite insert_app_r, (insert_app_r_alt a) by lia. rewrite Nat.sub_diag. simpl.
    replace (length d + length a + 1) with (length (d ++ a ++ [r]))
      by (rewrite !length_app; simpl; lia).
    replace (d ++ a ++ r :: b) with ((d ++ a ++ [r]) ++ b) by (by rewrite <- !app_assoc).
    rewrite IH by (rewrite length_app in Hf; simpl in Hf; lia).
    rewrite map_app, <- !app_assoc. simpl. rewrite Hc. do 3 f_equal.
    clear -Ha. induction Ha as [|x a Hx _ IH]; simpl; [done|]. by rewrite Hx, <- IH.
  - apply find_if_None in Hs. do 2 f_equal. clear -Hs.
    induction Hs as [|x a Hx _ IH]; simpl; [done|]. by rewrite Hx, <- IH.
Qed.

(** An empty string is found over and over again. *)
Lemma replace_empty_diverges fuel : ∀ r str index, index ≤ length str →
  replace_loop fuel (find_str []) 0 r str (Some index) = None.
Proof.
  induction fuel as [|fuel IH]; intros r str index Hi; [done|]. cbn [replace_loop].
  unfold substr_from. rewrite Nat.add_0_r.
  set (str' := take index str ++ r ++ drop index str).
  assert (index + length r ≤ length str') as Hle.
  { unfold str'. rewrite !length_app, length_take, length_drop. lia. }
  assert (find_str [] str' (index + length r) = Some (index + length r)) as ->.
  { unfold find_str. rewrite (proj2 (Nat.ltb_ge _ _)) by done.
    destruct (drop (index + length r) str'); simpl; f_equal; lia. }
  by apply IH.
Qed.

(** ** Splitting *)

(** The pieces with the delimiter between them. *)
Fixpoint joined (delim : byte) (pieces : list bytes) : bytes :=
  match pieces with
  | [] => []
  | [p] => p
  | p :: pieces => p ++ delim :: joined delim pieces
  end.

Lemma split_loop_spec fuel delim str : ∀ max last result,
  last ≤ length str → length str - last < fuel → in_u 64 max → ∃ pieces,
  split_loop fuel (is_char delim) str max last (find_from (is_char delim) str last) result
    = Some (result ++ pieces) ∧
  pieces ≠ [] ∧ joined delim pieces = drop last str ∧
  Forall (λ p, delim ∉ p) (removelast pieces) ∧
  ((2 ≤ max)%Z → (Z.of_nat (length pieces) ≤ max)%Z).
Proof.
  induction fuel as [|fuel IH]; intros max last result Hl Hf Hmax; [lia|].
  unfold find_from. destruct (find_if (is_char delim) (drop last str)) as [i|] eqn:Hs; simpl.
  2:{ exists [drop last str]. split_and!; try done. simpl; lia. }
  apply find_if_Some in Hs as (a & c & b & Hd & <- & Hc & Ha).
  unfold is_char in Hc. apply bool_decide_eq_true in Hc as ->.
  assert (delim ∉ a) as Hna.
  { intros Hin. rewrite Forall_forall in Ha. specialize (Ha _ Hin).
    unfold is_char in Ha. by rewrite bool_decide_true in Ha. }
  assert (drop (last + length a + 1) str = b) as Hb.
  { rewrite <- Nat.add_assoc, <- drop_drop, Hd, <- drop_drop, drop_app_length. done. }
  assert (length str = last + length a + S (length b)) as Hlen.
  { apply (f_equal length) in Hd. rewrite length_drop, length_app in Hd. simpl in Hd. lia. }
  assert (substr str last (last + length a - last) = a) as ->.
  { unfold substr, slice. rewrite Hd. replace (last + length a - last) with (length a) by lia.
    apply take_app_length. }
  unfold substr_from. rewrite Hb. destruct (Z.eqb_spec (u64 (max - 1)) 1) as [H1|H1].
  - exists [a; b]. rewrite <- app_assoc. split_and!; [done|done| |by repeat constructor|].
    { by rewrite Hd. }
    intros. unfold in_u in Hmax. rewrite wrap_small in H1 by (unfold in_u; lia). simpl. lia.
  - destruct (IH (u64 (max - 1)) (last + length a + 1) (result ++ [a]))
      as (pieces & Hr & Hne & Hj & Hp & Hm); [lia|lia|by apply wrap_range|].
    exists (a :: pieces). rewrite Hr, <- app_assoc.
    destruct pieces as [|p pieces]; [done|]. split_and!; try done.
    + change (joined delim (a :: p :: pieces)) with (a ++ delim :: joined delim (p :: pieces)).
      by rewrite Hj, Hb.
    + change (removelast (a :: p :: pieces)) with (a :: removelast (p :: pieces)). by constructor.
    + intros. unfold in_u in Hmax. rewrite wrap_small in H1, Hm by (unfold in_u; lia).
      specialize (Hm ltac:(lia)). simpl in *. lia.
Qed.

(** ** JSON text *)

Lemma foldl_append (f : byte → bytes) v : ∀ rt, foldl (λ rt c, rt ++ f c) rt v = rt ++ concat (map f v).
Proof.
  induction v as [|c v IH]; intros rt; simpl; [by rewrite app_nil_r|]. by rewrite IH, app_assoc.
Qed.

Lemma escape_longer v : length v ≤ length (concat (map escape_char v)).
Proof.
  induction v as [|c v IH]; simpl; [lia|]. rewrite length_app.
  unfold escape_char at 1. destruct (json_escape c); simpl; lia.
Qed.

Lemma escape_size_length v : escape_size v = length (concat (map escape_char v)).
Proof.
  assert (∀ n, foldl (λ size c, size + (if needs_escape c then 2 else 1)) n v
    = n + length (concat (map escape_char v))) as Hfold; [|apply Hfold].
  induction v as [|c v IH]; intros n; simpl; [lia|]. rewrite IH, length_app.
  unfold escape_char at 2, needs_escape. destruct (json_escape c); simpl; lia.
Qed.

Lemma escape_size_same v : escape_size v = length v ↔ NeedEscape v = false.
Proof.
  rewrite escape_size_length. unfold NeedEscape. induction v as [|c v IH]; simpl; [done|].
  rewrite length_app. pose proof (escape_longer v). unfold escape_char at 1, needs_escape at 1.
  destruct (json_escape c); simpl; [split; [lia|done]|]. rewrite <- IH. split; lia.
Qed.

Lemma url_roundtrip_ok s p : UrlDecode (UrlEncode s p) p = s.
Proof.
  rewrite UrlDecode_spec, UrlEncode_spec.
  induction s as [|c s IH]; simpl; [done|]. by rewrite url_decoded_char, IH.
Qed.

(** A text without NULs is a whole C string. *)
Lemma c_str_id s : byte.of_Z 0 ∉ s → c_str s = s.
Proof.
  intros Hn. unfold c_str. destruct (find_if (is_char (byte.of_Z 0)) s) as [i|] eqn:E; [|done].
  exfalso. apply Hn. apply find_if_Some in E as (a & c & b & -> & _ & Hc & _). unfold is_char in Hc. apply bool_decide_eq_true in Hc as ->.
  apply elem_of_app. right. by left.
Qed.

(** ** Properties *)

(** [UrlDecode] inverts [UrlEncode], for every string and either treatment
    of blanks. *)
Theorem url_roundtrip (s : bytes) (p : bool) : UrlDecode (UrlEncode s p) p = s.
Proof. apply url_roundtrip_ok. Qed.

(** [split] returns pieces that, joined with the delimiter, give the string
    back; only the last of them can hold the delimiter, and there are at most
    [max] of them when [max] is two or more. *)
Theorem split_joined (str : bytes) (delim : byte) (max : Z) : str ≠ [] → in_u 64 max →
  ∃ pieces, split str delim max = Some pieces ∧ joined delim pieces = str ∧
    Forall (λ p, delim ∉ p) (removelast pieces) ∧
    ((2 ≤ max)%Z → (Z.of_nat (length pieces) ≤ max)%Z).
Proof.
  intros Hne Hmax. unfold split, split_if.
  destruct (Nat.eqb_spec (length str) 0) as [H0|_]; [by apply nil_length_inv in H0|].
  destruct (split_loop_spec (S (length str)) delim str max 0 [])
    as (pieces & Hr & _ & Hj & Hp & Hm); [lia|lia|done|].
  by exists pieces.
Qed.

(** The three overloads of [replace] terminate, on a string to find that is
    not empty, and replace every leftmost occurrence that does not overlap an
    earlier one; the replacement itself is not searched again. *)
Theorem replace_correct (str f r : bytes) (c c' : byte) : f ≠ [] →
  replace_str (S (length str)) str f r = Some (substituted f r 0 str) ∧
  replace_char_str str c r = Some (concat (map (λ x, if is_char c x then r else [x]) str)) ∧
  replace_char str c c' = Some (map (λ x, if is_char c x then c' else x) str).
Proof.
  intros Hf. assert (0 < length f) by (destruct f; [done|simpl; lia]). split_and!.
  - apply (replace_loop_spec (find_str f) (find_sub f) (length f) r (substituted f r 0)
      (find_str_app f)) with (d := []); try done.
    + apply find_sub_bound.
    + intros s. by apply substituted_none.
    + intros s i. by apply substituted_some.
    + lia.
  - apply (replace_loop_spec (find_from (is_char c)) (find_if (is_char c)) 1 r (replaced_char c r)
      (find_from_app (is_char c))) with (d := []); try lia.
    + apply find_if_bound.
    + intros s Hs. by apply replaced_char_none, find_if_None.
    + intros s i. apply replaced_char_some.
  - apply (replace_char_loop_spec _ c c' []). lia.
Qed.

(** [replace] of an empty string never returns: each round finds the empty
    string again, right after the replacement it has inserted. *)
Theorem replace_empty_never_returns (fuel : nat) (str r : bytes) :
  replace_str fuel str [] r = None.
Proof.
  unfold replace_str.
  assert (find_str [] str 0 = Some 0) as -> by (unfold find_str; by destruct str).
  apply replace_empty_diverges. lia.
Qed.

(** [Trim] removes exactly the delimiters at both ends and [TrimLeft] those
    at the front: what is removed are delimiters, and what is kept does not
    start (end) with one. *)
Theorem trim_correct (s d : bytes) :
  (∃ a b, s = a ++ Trim s d ++ b ∧ Forall (λ c, c ∈ d) a ∧ Forall (λ c, c ∈ d) b ∧
    (∀ c, head (Trim s d) = Some c → c ∉ d) ∧ (∀ c, last (Trim s d) = Some c → c ∉ d)) ∧
  (∃ a, s = a ++ TrimLeft s d ∧ Forall (λ c, c ∈ d) a ∧
    (∀ c, TrimLeft s d !! 0 = Some c → c ∉ d)).
Proof. split; [apply Trim_spec|apply TrimLeft_spec]. Qed.

(** [TrimRight] also removes the last character that is not a delimiter. *)
Theorem TrimRight_drops_one (a b d : bytes) (c : byte) :
  c ∉ d → Forall (λ c, c ∈ d) b → TrimRight (a ++ c :: b) d = a.
Proof.
  intros Hc Hb. destruct (TrimRight_spec (a ++ c :: b) d) as [[Hall _]|(a' & c' & b' & Heq & Hc' & Hb' & ->)].
  { apply Forall_app in Hall as [_ Hall]. by apply Forall_cons in Hall as [? _]. }
  destruct (app_eq_inv _ _ _ _ Heq) as [(l & -> & Hl)|(l & -> & Hl)];
    (destruct l as [|x l]; [by rewrite app_nil_r|]); injection Hl as -> ->;
    exfalso; [apply Forall_app in Hb' as [_ Hb']|(clear Hb'; apply Forall_app in Hb as [_ Hb'])];
    by apply Forall_cons in Hb' as [? _].
Qed.

(** [Dirname] and [Basename] cut a path at its last slash. *)
Theorem path_split (f : bytes) :
  ((slash ∉ f) ∧ Dirname f = bs "." ∧ Basename f = f) ∨
  (∃ b, f = slash :: b ∧ (slash ∉ b) ∧ Dirname f = bs "/" ∧ Basename f = b) ∨
  (∃ a b, a ≠ [] ∧ f = a ++ slash :: b ∧ (slash ∉ b) ∧ Dirname f = a ∧ Basename f = b).
Proof. apply path_spec. Qed.

(** [Escape] returns a string with nothing to escape as it is; any other
    comes back escaped, but behind as many NUL characters as the escaped text is
    long: the result is sized first and then appended to. *)
Theorem Escape_correct_but_for_NULs (v : bytes) :
  Escape v = if NeedEscape v
    then repeat (byte.of_Z 0) (length (concat (map escape_char v))) ++ concat (map escape_char v)
    else v.
Proof.
  unfold Escape. rewrite foldl_append, escape_size_length. pose proof (escape_size_same v) as Hs.
  rewrite escape_size_length in Hs. destruct (Nat.eqb_spec (length (concat (map escape_char v))) (length v)).
  - by rewrite (proj1 Hs).
  - destruct (NeedEscape v); [done|]. by destruct (proj2 Hs).
Qed.

(** ** The properties at concrete strings *)

Lemma split_joined_witness : bs "a/b/c" ≠ [] ∧ ∃ pieces,
  split (bs "a/b/c") slash 2 = Some pieces ∧ joined slash pieces = bs "a/b/c" ∧
  Forall (λ p, slash ∉ p) (removelast pieces) ∧ ((2 ≤ 2)%Z → (Z.of_nat (length pieces) ≤ 2)%Z).
Proof.
  split; [done|].
  apply (split_joined (bs "a/b/c") slash 2); [done|unfold in_u; lia].
Defined.

Lemma replace_correct_witness :
  replace_str 6 (bs "aXXbX") (bs "XX") (bs "XYX") = Some (bs "aXYXbX") ∧
  replace_char_str (bs "aXXbX") (byte.of_Z 97) (bs "XYX") = Some (bs "XYXXXbX") ∧
  replace_char (bs "aXXbX") (byte.of_Z 97) (byte.of_Z 98) = Some (bs "bXXbX").
Proof.
  exact (replace_correct (bs "aXXbX") (bs "XX") (bs "XYX") (byte.of_Z 97) (byte.of_Z 98) ltac:(done)).
Defined.

Lemma TrimRight_drops_one_witness : TrimRight (bs "abc  ") (bs " ") = bs "ab".
Proof.
  apply (TrimRight_drops_one (bs "ab") (bs "  ") (bs " ") (byte.of_Z 99)).
  - apply (bool_decide_unpack (byte.of_Z 99 ∉ bs " ")). by vm_compute.
  - apply (bool_decide_unpack (Forall (λ c, c ∈ bs " ") (bs "  "))). by vm_compute.
Defined.
