(* ===== verification/CLib.v ===== *)
(** * Numbers in text: [strtol] and [atoi] of the C library, and decimal printing *)
From stdpp Require Import list.
From Stdlib Require Import DecimalString DecimalN.
From S2P Require Import Prelude.
Local Open Scope Z_scope.

(** ** Reading *)

Definition is_xdigit (b : byte) : bool :=
  let c := uchar b in (48 <=? c) && (c <=? 57) || (65 <=? c) && (c <=? 70) || (97 <=? c) && (c <=? 102).

Definition is_space (b : byte) : bool := let c := uchar b in (9 <=? c) && (c <=? 13) || (c =? 32).
Definition digit_value (b : byte) : option Z :=
  let c := uchar b in
  if (48 <=? c) && (c <=? 57) then Some (c - 48)
  else if (65 <=? c) && (c <=? 90) then Some (c - 55)
  else if (97 <=? c) && (c <=? 122) then Some (c - 87)
  else None.

Fixpoint strtol_digits (base acc : Z) (s : bytes) : Z :=
  match s with
  | [] => acc
  | b :: s =>
    match digit_value b with
    | Some d => if d <? base then strtol_digits base (acc * base + d) s else acc
    | None => acc
    end
  end.

Fixpoint skip_spaces (s : bytes) : bytes :=
  match s with
  | b :: s' => if is_space b then skip_spaces s' else s
  | [] => []
  end.

(** [strtol(s, NULL, base)] of the C library for base 10 and 16: blanks, a sign, [0x],
    digits; a number that is too large is the largest one.  The text ends at the
    NUL that follows it. *)
Definition strtol (base : Z) (s : bytes) : Z :=
  let s := skip_spaces s in
  let '(neg, s) := match s with
    | b :: s' => if uchar b =? 45 then (true, s') else if uchar b =? 43 then (false, s') else (false, s)
    | [] => (false, s)
    end in
  let s := match s with
    | z :: x :: h :: s' =>
      if (base =? 16) && (uchar z =? 48) && ((uchar x =? 120) || (uchar x =? 88)) && is_xdigit h then h :: s' else s
    | _ => s
    end in
  let n := strtol_digits base 0 s in
  if neg : bool then Z.max (- 2 ^ 63) (- n) else Z.min (2 ^ 63 - 1) n.

(** [atoi] is [strtol] cut to an [int]. *)
Definition atoi (s : bytes) : Z := s32 (strtol 10 s).

Lemma strtol_digits_end base a b post acc : digit_value b = None →
  strtol_digits base acc (a ++ b :: post) = strtol_digits base acc a.
Proof.
  intros Hb. revert acc. induction a as [|c a IH]; intros acc; cbn; [by rewrite Hb|].
  destruct (digit_value c) as [d|]; [|done]. case_match; [apply IH|done].
Qed.

(** Numbers without blanks, sign and prefix. *)
Lemma strtol_plain base a s : is_xdigit a = true →
  match s with x :: _ => negb ((uchar x =? 120) || (uchar x =? 88)) | [] => true end = true →
  strtol base (a :: s) = Z.min (2 ^ 63 - 1) (strtol_digits base 0 (a :: s)).
Proof.
  intros Ha Hx. unfold strtol.
  assert (is_space a = false ∧ (uchar a =? 45) = false ∧ (uchar a =? 43) = false) as (H1 & H2 & H3).
  { unfold is_xdigit, is_space in *. lia. }
  cbn [skip_spaces]. rewrite H1, H2, H3. destruct s as [|x [|h s]]; [done..|].
  apply negb_true_iff in Hx. by rewrite Hx, andb_false_r.
Qed.

(** ** Printing *)

(** A number as a stream prints it. *)
Definition dec (n : N) : bytes := bs (NilZero.string_of_uint (N.to_uint n)).

Lemma strtol_digit_step base acc c v s n : digit_value c = Some v → v < base → n = acc * base + v →
  strtol_digits base acc (c :: s) = strtol_digits base n s.
Proof. intros Hc Hv ->. cbn. rewrite Hc. by rewrite (proj2 (Z.ltb_lt _ _)). Qed.

Lemma strtol_acc d p b post : digit_value b = None →
  strtol_digits 10 (Zpos p) (bs (NilEmpty.string_of_uint d) ++ b :: post) = Zpos (Pos.of_uint_acc d p).
Proof.
  intros Hb. revert p. induction d; intros p; cbn [Pos.of_uint_acc]; [cbn; by rewrite Hb|..]; rewrite <- IHd;
    match goal with |- _ = strtol_digits 10 ?n ?x => transitivity (strtol_digits 10 n x); [|done] end;
    (eapply strtol_digit_step; [vm_compute; reflexivity|lia|lia]).
Qed.

Lemma strtol_digits_dec d b post : digit_value b = None →
  strtol_digits 10 0 (bs (NilEmpty.string_of_uint d) ++ b :: post) = Z.of_N (N.of_uint d).
Proof.
  intros Hb. induction d; [cbn; by rewrite Hb|exact IHd|..];
    exact (strtol_acc d _ b post Hb).
Qed.

(** What was printed is read back. *)
Lemma strtol_dec n b post : digit_value b = None → strtol_digits 10 0 (dec n ++ b :: post) = Z.of_N n.
Proof.
  intros Hb. rewrite <- (DecimalN.Unsigned.of_to n) at 2. unfold dec, NilZero.string_of_uint.
  destruct (N.to_uint n) eqn:E; [by apply (strtol_digits_dec (Decimal.D0 Decimal.Nil))|by apply strtol_digits_dec..].
Qed.

Lemma dec_digits n : ∃ a s, dec n = a :: s ∧ forallb (λ b, (48 <=? uchar b) && (uchar b <=? 57)) (a :: s) = true.
Proof.
  unfold dec. assert (∀ u, forallb (λ b, (48 <=? uchar b) && (uchar b <=? 57)) (bs (NilEmpty.string_of_uint u)) = true) as Hu.
  { intros u. induction u as [|u IH|u IH|u IH|u IH|u IH|u IH|u IH|u IH|u IH|u IH]; [done|exact IH..]. }
  unfold NilZero.string_of_uint. destruct (N.to_uint n) as [|u|u|u|u|u|u|u|u|u|u]; do 2 eexists; (split; [reflexivity|]);
    [done|exact (Hu u)..].
Qed.

Lemma atoi_dec n b post : Z.of_N n < 2 ^ 31 → digit_value b = None → uchar b ≠ 120 → uchar b ≠ 88 →
  atoi (dec n ++ b :: post) = Z.of_N n.
Proof.
  intros Hn Hb H1 H2. unfold atoi. destruct (dec_digits n) as (a & s & Hd & Hs). rewrite Hd. cbn [app].
  cbn [forallb] in Hs. apply andb_true_iff in Hs as [Ha Hs].
  rewrite strtol_plain; [|unfold is_xdigit; lia|].
  - change (a :: s ++ b :: post) with ((a :: s) ++ b :: post). rewrite <- Hd, strtol_dec by done.
    rewrite Z.min_r by lia. apply swrap_small; unfold in_s; lia.
  - destruct s as [|x s]; cbn [app]; [lia|]. cbn in Hs. lia.
Qed.
