(* ===== verification/FileUtil.v ===== *)
(** * Files: [FSUtil] of [util.cc]

    Making, listing, removing and moving files, over what the system does to a disk:
    the interface [Disk], whose laws [DiskLaws] say of each call what its manual says.
    The names that are removed are recorded. *)
From stdpp Require Import gmap list.
From S2P Require Import Prelude Strings CLib.

(** ** The system *)

Inductive dtype := DT_DIR | DT_REG | DT_OTHER.
#[export] Instance dtype_eq_dec : EqDecision dtype.
Proof. solve_decision. Defined.

(** [lstat] gives the mode; [readdir] what [opendir] and [readdir] list; the calls that
    change the disk give the new one, or none when they fail; [realpath] gives a name. *)
Class Disk := {
  disk : Type;
  d_lstat : disk → bytes → option Z;
  d_access : disk → bytes → bool;
  d_readdir : disk → bytes → option (list (bytes * dtype));
  d_mkdir : disk → bytes → option disk;
  d_unlink : disk → bytes → option disk;
  d_rmdir : disk → bytes → option disk;
  d_rename : disk → bytes → bytes → option disk;
  d_symlink : disk → bytes → bytes → option disk;
  d_realpath : disk → bytes → option bytes;
  d_creates : disk → bytes → option disk
}.

Definition PATH_MAX : nat := N.to_nat 4096.

Class DiskLaws `{Disk} := {
  access_exists s p : d_access s p = true → is_Some (d_lstat s p);
  listed_clean s p es : d_readdir s p = Some es → Forall (λ e, c_str e.1 = e.1) es;
  short_names s p : is_Some (d_lstat s p) → length p < PATH_MAX;
  mkdir_makes s p s' : d_mkdir s p = Some s' → is_Some (d_lstat s' p) ∧ ∀ q, is_Some (d_lstat s q) → is_Some (d_lstat s' q);
  unlink_removes s p s' : d_unlink s p = Some s' → d_lstat s' p = None;
  rmdir_removes s p s' : d_rmdir s p = Some s' → d_lstat s' p = None
}.

Section files.
Context `{Disk}.

(** The disk, and the names that calls which remove things were given. *)
Record Fs := mkFs { on_disk : disk; removed : list bytes }.
Definition change (call : disk → option disk) : M Fs bool := λ s,
  match call (on_disk s) with Some d => Ret true (mkFs d (removed s)) | None => Ret false s end.
Definition remove (call : disk → bytes → option disk) (p : bytes) : M Fs bool := λ s,
  match call (on_disk s) p with
  | Some d => Ret true (mkFs d (removed s ++ [p]))
  | None => Ret false (mkFs (on_disk s) (removed s ++ [p]))
  end.

(** ** Listing *)

Definition dots (name : bytes) : bool := bool_decide (name = bs ".") || bool_decide (name = bs "..").
Definition below (path name : bytes) : bytes := path ++ [slash] ++ name.
Definition has_subfix (filename subfix : bytes) : bool :=
  if bool_decide (subfix = []) then true
  else if (length filename <? length subfix) then false
  else bool_decide (substr_from filename (length filename - length subfix) = subfix).

(** The loop over the entries; [rec] lists a directory behind the files found so far. *)
Fixpoint list_walk (rec : list bytes → bytes → option (list bytes)) (path subfix : bytes) (entries : list (bytes * dtype))
    (files : list bytes) : option (list bytes) :=
  match entries with
  | [] => Some files
  | (name, DT_DIR) :: entries =>
    if dots name then list_walk rec path subfix entries files
    else match rec files (below path name) with Some files => list_walk rec path subfix entries files | None => None end
  | (name, DT_REG) :: entries =>
    list_walk rec path subfix entries (if has_subfix name subfix then files ++ [below path name] else files)
  | (name, DT_OTHER) :: entries => list_walk rec path subfix entries files
  end.

(** [None] is for fuel that ran out; [d] does not change. *)
Fixpoint ListAllFile (fuel : nat) (d : disk) (files : list bytes) (path subfix : bytes) : option (list bytes) :=
  match fuel with
  | O => None
  | S fuel =>
    if negb (d_access d (c_str path)) then Some files
    else match d_readdir d (c_str path) with
         | None => Some files
         | Some entries => list_walk (λ files p, ListAllFile fuel d files p subfix) path subfix entries files
         end
  end.

(** ** Making *)

Definition lstat (p : bytes) : M Fs (option Z) := λ s, Ret (d_lstat (on_disk s) (c_str p)) s.

Definition mkdir_one (dirname : bytes) : M Fs bool := λ s,
  if d_access (on_disk s) dirname then Ret true s else change (λ d, d_mkdir d dirname) s.

(** The positions of the slashes behind the first character, from [i] on. *)
Fixpoint cuts (i : nat) (s : bytes) : list nat :=
  match s with
  | [] => []
  | c :: s => (if is_char slash c then [i] else []) ++ cuts (S i) s
  end.
Fixpoint mkdir_all (path : bytes) (ends : list nat) : M Fs bool :=
  match ends with
  | [] => mkdir_one path
  | i :: ends => ok ← mkdir_one (take i path); if (ok : bool) then mkdir_all path ends else mret false
  end.
(** [path + 1] of an empty name is behind its terminator. *)
Definition Mkdir (dirname : bytes) : M Fs bool :=
  let dirname := c_str dirname in
  st ← lstat dirname;
  match st with
  | Some _ => mret true
  | None => match dirname with [] => undef out_of_bounds | _ :: rest => mkdir_all dirname (cuts 1 rest) end
  end.

Definition OpenForWrite (filename : bytes) : M Fs bool :=
  ok ← change (λ d, d_creates d (c_str filename));
  if (ok : bool) then mret true
  else Mkdir (Dirname filename) ;; change (λ d, d_creates d (c_str filename)).

(** ** Removing *)

Definition Unlink (filename : bytes) (exist : bool) : M Fs bool :=
  st ← lstat filename;
  if negb exist && bool_decide (st = None) then mret true else remove d_unlink (c_str filename).

Definition S_IFDIR_ : Z := 0x4000.

(** The loop over the entries; only the last answer is kept. *)
Fixpoint rm_walk (rec : bytes → M Fs bool) (path : bytes) (entries : list (bytes * dtype)) (ret : bool) : M Fs bool :=
  match entries with
  | [] => mret ret
  | (name, _) :: entries =>
    if dots name then rm_walk rec path entries ret else ret ← rec (below path name); rm_walk rec path entries ret
  end.

Fixpoint Rm (fuel : nat) (path : bytes) : M Fs bool :=
  match fuel with
  | O => λ _, NoFuel
  | S fuel =>
    st ← lstat path;
    match st : option Z with
    | None => mret true
    | Some mode =>
      if bool_decide (Z.land mode S_IFDIR_ = 0)%Z then Unlink path false
      else
        s ← get;
        match d_readdir (on_disk s) (c_str path) with
        | None => mret false
        | Some entries =>
          ret ← rm_walk (Rm fuel) path entries true;
          ok ← remove d_rmdir (c_str path);
          mret (if (ok : bool) then ret else false)
        end
    end
  end.

Definition Mv (fuel : nat) (from to : bytes) : M Fs bool :=
  ok ← Rm fuel to;
  if (ok : bool) then change (λ d, d_rename d (c_str from) (c_str to)) else mret false.
Definition Symlink (fuel : nat) (from to : bytes) : M Fs bool :=
  ok ← Rm fuel to;
  if (ok : bool) then change (λ d, d_symlink d (c_str from) (c_str to)) else mret false.

(** ** Names *)

(** [rpath] is kept when it fails. *)
Definition Realpath (path rpath : bytes) : M Fs (bool * bytes) :=
  st ← lstat path;
  match st : option Z with
  | None => mret (false, rpath)
  | Some _ => s ← get; mret (match d_realpath (on_disk s) (c_str path) with Some p => (true, p) | None => (false, rpath) end)
  end.
End files.

(** [getcwd] writes into a text of 256 bytes, which keeps its length. *)
Definition GetCurDir (cwd : option bytes) : bytes :=
  match cwd with
  | Some name => if (length name <? 256) then name ++ replicate (256 - length name) (byte.of_Z 0) else bs "./"
  | None => bs "./"
  end.

(** [content] of the file, if it can be read; [kill] tells of a process. *)
Definition IsRunningPidfile (exists_ : bool) (content : option bytes) (kill : Z → bool) : bool :=
  if negb exists_ then false
  else match content with
       | None | Some [] => false
       | Some s =>
         let line := match find_if (is_char (byte.of_Z 10)) s with Some i => take i s | None => s end in
         if bool_decide (line = []) then false
         else let pid := atoi (c_str line) in if (pid <=? 1)%Z then false else kill pid
       end.

(** ** Names without a terminator *)

Definition clean (s : bytes) : Prop := c_str s = s.

Lemma clean_iff s : clean s ↔ byte.of_Z 0 ∉ s.
Proof.
  unfold clean, c_str. destruct (find_if (is_char (byte.of_Z 0)) s) as [i|] eqn:E.
  - apply find_if_Some in E as (a & c & b & -> & <- & Hc & _). unfold is_char in Hc. apply bool_decide_eq_true in Hc as ->.
    rewrite take_app_length. split.
    + intros He. apply (f_equal length) in He. rewrite length_app in He. cbn in He. lia.
    + intros Hn. destruct Hn. apply elem_of_app. right. by left.
  - split; [|done]. intros _ Hin. apply find_if_None in E. rewrite Forall_forall in E. specialize (E _ Hin).
    unfold is_char in E. by rewrite bool_decide_true in E.
Qed.

Lemma clean_below path name : clean path → clean name → clean (below path name).
Proof. rewrite !clean_iff. unfold below. rewrite !elem_of_app, list_elem_of_singleton. intros ?? [?|[?|?]]; done. Qed.

Lemma length_below path name : length (below path name) = S (length path + length name).
Proof. unfold below. rewrite !length_app. cbn. lia. Qed.

Section laws.
Context `{DiskLaws}.

(** ** Making *)

Definition exists_on (s : Fs) (p : bytes) : Prop := is_Some (d_lstat (on_disk s) p).

(** [s'] has all that [s] has. *)
Definition grown (s s' : Fs) : Prop := ∀ q, exists_on s q → exists_on s' q.

Lemma mkdir_one_ok p s : ∃ r s', mkdir_one p s = Ret r s' ∧ grown s s' ∧ (r = true → exists_on s' p) ∧
  (r = false → d_access (on_disk s) p = false ∧ d_mkdir (on_disk s) p = None).
Proof.
  unfold mkdir_one, change, grown, exists_on. destruct (d_access (on_disk s) p) eqn:Ha.
  - exists true, s. split_and!; try done. intros _. by apply access_exists.
  - destruct (d_mkdir (on_disk s) p) as [d|] eqn:Hm; do 2 eexists; (split; [reflexivity|]); split_and!; try done; cbn.
    + by destruct (mkdir_makes _ _ _ Hm).
    + intros _. by destruct (mkdir_makes _ _ _ Hm).
Qed.

Lemma mkdir_all_ok path ends : ∀ s, ∃ r s', mkdir_all path ends s = Ret r s' ∧ grown s s' ∧
  (r = true → exists_on s' path ∧ ∀ i, i ∈ ends → exists_on s' (take i path)) ∧
  (r = false → ∃ q s1, (q = path ∨ ∃ i, i ∈ ends ∧ q = take i path) ∧ grown s s1 ∧
    d_access (on_disk s1) q = false ∧ d_mkdir (on_disk s1) q = None).
Proof.
  induction ends as [|i ends IH]; intros s; cbn [mkdir_all].
  - destruct (mkdir_one_ok path s) as (r & s' & He & Hg & Ht & Hf). exists r, s'. split_and!; [done|done| |].
    + intros Hr. split; [by apply Ht|]. intros i Hi. by apply not_elem_of_nil in Hi.
    + intros Hr. exists path, s. destruct (Hf Hr). split_and!; [by left|by intros q|done|done].
  - destruct (mkdir_one_ok (take i path) s) as (r & s1 & He & Hg & Ht & Hf). erewrite bind_Ret by exact He. destruct r.
    + destruct (IH s1) as (r & s' & He' & Hg' & Ht' & Hf'). exists r, s'. split_and!; [done|by intros q Hq; apply Hg', Hg| |].
      * intros Hr. destruct (Ht' Hr) as [Hp Hall]. split; [done|]. intros j [->|Hj]%elem_of_cons; [by apply Hg', Ht|by apply Hall].
      * intros Hr. destruct (Hf' Hr) as (q & s2 & Hq & Hg2 & ?). exists q, s2. split_and!; [|by intros x Hx; apply Hg2, Hg|by destruct_and!..].
        destruct Hq as [->|(j & Hj & ->)]; [by left|right; exists j; split; [by right|done]].
    + exists false, s1. split_and!; [done|done|done|]. intros _. destruct (Hf eq_refl). exists (take i path), s.
      split_and!; [right; exists i; split; [by left|done]|by intros q|done|done].
Qed.

(** [Mkdir] makes a directory with all that lead to it: when it answers [true], the
    name and, if it was not there before, each of its beginnings up to a slash exist,
    and nothing that was there is gone; when it answers [false], the system refused to
    make one of them, which was not there.  An empty name is undefined. *)
Theorem Mkdir_makes_parents (path : bytes) (s : Fs) : clean path →
  (path = [] → d_lstat (on_disk s) [] = None → Mkdir path s = Undef out_of_bounds) ∧
  (path ≠ [] → ∃ r s', Mkdir path s = Ret r s' ∧ grown s s' ∧
    (r = true → exists_on s' path ∧ (¬ exists_on s path → ∀ i, i ∈ cuts 1 (tail path) → exists_on s' (take i path))) ∧
    (r = false → ¬ exists_on s path ∧ ∃ q s1, (q = path ∨ ∃ i, i ∈ cuts 1 (tail path) ∧ q = take i path) ∧ grown s s1 ∧
      d_access (on_disk s1) q = false ∧ d_mkdir (on_disk s1) q = None)).
Proof.
  intros Hc. unfold Mkdir. rewrite Hc. split.
  - intros -> Hl. unfold lstat, mbind, M_bind. change (c_str []) with (@nil byte). cbn [on_disk]. by rewrite Hl.
  - intros Hp. unfold lstat. rewrite Hc. unfold mbind, M_bind. destruct (d_lstat (on_disk s) path) as [m|] eqn:Hl.
    + exists true, s. split_and!; [done|by intros q| |done]. intros _. split; [by exists m|]. intros Hn. destruct Hn. by exists m.
    + destruct path as [|c rest]; [done|]. destruct (mkdir_all_ok (c :: rest) (cuts 1 rest) s) as (r & s' & He & Hg & Ht & Hf).
      exists r, s'. split_and!; [done|done| |].
      * intros Hr. destruct (Ht Hr). by split.
      * intros Hr. split; [unfold exists_on; rewrite Hl; by intros []|by apply Hf].
Qed.

(** ** Removing *)

(** [path] itself, or a name reached from it through names that are no dots. *)
Inductive under (path : bytes) : bytes → Prop :=
  | under_self : under path path
  | under_step name n : dots name = false → under (below path name) n → under path n.

(** A run that returns, with what [Rm] promises on the way. *)
Definition removes (path : bytes) (s : Fs) (r : result Fs bool) (Q : bool → Fs → Prop) : Prop :=
  match r with
  | Ret b s' => Q b s' ∧ ∃ ns, removed s' = removed s ++ ns ∧ Forall (under path) ns
  | _ => False
  end.

Lemma removes_bind path s (m : M Fs bool) k P Q :
  removes path s (m s) P → (∀ b s1, P b s1 → removes path s1 (k b s1) Q) → removes path s ((m ≫= k) s) Q.
Proof.
  unfold removes, mbind, M_bind. destruct (m s) as [b s1| | |]; try done. intros [HP (ns & Hns & Hf)] Hk. specialize (Hk b s1 HP).
  destruct (k b s1) as [b' s2| | |]; try done. destruct Hk as [HQ (ns' & Hns' & Hf')]. split; [done|]. exists (ns ++ ns').
  rewrite Hns', Hns, <- app_assoc. split; [done|]. by apply Forall_app.
Qed.
Lemma removes_ret path s b (Q : bool → Fs → Prop) : Q b s → removes path s (Ret b s) Q.
Proof. intros HQ. split; [done|]. exists []. by rewrite app_nil_r. Qed.
Lemma removes_below path name s r Q : dots name = false → removes (below path name) s r Q → removes path s r Q.
Proof.
  intros Hd. unfold removes. destruct r as [b s'| | |]; try done. intros [HQ (ns & Hns & Hf)]. split; [done|]. exists ns.
  split; [done|]. eapply Forall_impl; [exact Hf|]. intros n Hn. by eapply under_step.
Qed.
Lemma removes_mono path s r (P Q : bool → Fs → Prop) : (∀ b s', P b s' → Q b s') → removes path s r P → removes path s r Q.
Proof. unfold removes. destruct r; naive_solver. Qed.
Lemma remove_ok call path s : (∀ d p d', call d p = Some d' → d_lstat d' p = None) →
  removes path s (remove call path s) (λ b s', b = true → ¬ exists_on s' path).
Proof.
  intros Hcall. unfold remove, removes. destruct (call (on_disk s) path) as [d|] eqn:He;
    (split; [|exists [path]; split; [done|by constructor; [constructor|]]]); [|done].
  intros _. unfold exists_on. cbn. rewrite (Hcall _ _ _ He). by intros [].
Qed.

Lemma Rm_ok fuel : ∀ path s, clean path → PATH_MAX < length path + fuel → 0 < fuel →
  removes path s (Rm fuel path s) (λ b s', b = true → ¬ exists_on s' path).
Proof.
  induction fuel as [|fuel IH]; intros path s Hc Hf Hpos; [lia|]. cbn [Rm]. rewrite Hc. unfold lstat at 1. rewrite Hc.
  unfold mbind at 1, M_bind at 1. destruct (d_lstat (on_disk s) path) as [mode|] eqn:Hl.
  2:{ apply removes_ret. intros _. unfold exists_on. rewrite Hl. by intros []. }
  assert (0 < fuel) as Hfuel by (pose proof (short_names (on_disk s) path ltac:(by rewrite Hl)); lia).
  case_bool_decide.
  - unfold Unlink, lstat. rewrite Hc. unfold mbind, M_bind. rewrite Hl. cbn. apply remove_ok. by apply unlink_removes.
  - unfold mbind at 1, M_bind at 1, get at 1. destruct (d_readdir (on_disk s) path) as [es|] eqn:Hr; [|by apply removes_ret]. pose proof (listed_clean _ _ _ Hr) as Hes. clear Hr Hl.
    apply (removes_bind _ _ _ _ (λ _ _, True)).
    + clear mode H1. revert s. generalize true. induction Hes as [|[name t] es Hn Hes IHes]; intros ret s; [by apply removes_ret|].
      cbn [rm_walk]. destruct (dots name) eqn:Hd; [apply IHes|]. apply (removes_bind _ _ _ _ (λ _ _, True)); [|intros b s1 _; apply IHes].
      eapply removes_below; [exact Hd|]. eapply removes_mono; [|apply IH; [by apply clean_below|rewrite length_below; lia|done]]. done.
    + intros b s1 _. eapply removes_bind; [apply (remove_ok d_rmdir); by apply rmdir_removes|].
      intros [] s2 H2; apply removes_ret; [|done]. intros _. by apply H2.
Qed.

Lemma Rm_ends path s fuel : clean path → PATH_MAX < fuel →
  ∃ r s' ns, Rm fuel path s = Ret r s' ∧ (r = true → ¬ exists_on s' path) ∧ removed s' = removed s ++ ns ∧ Forall (under path) ns.
Proof.
  intros Hc Hf. pose proof (Rm_ok fuel path s Hc) as Hr. unfold removes in Hr.
  destruct (Rm fuel path s) as [r s'| | |]; try (destruct Hr; lia). destruct Hr as [Hr (ns & ? & ?)]; [lia..|]. by exists r, s', ns.
Qed.

(** C37: [Rm] always ends, removes nothing but the name it is given and names reached
    from it through entries that are neither [.] nor [..], without following links, and
    after [true] the name is gone. *)
Theorem Rm_removes (path : bytes) (s : Fs) (fuel : nat) : clean path → PATH_MAX < fuel →
  ∃ r s' ns, Rm fuel path s = Ret r s' ∧ (r = true → ¬ exists_on s' path) ∧ removed s' = removed s ++ ns ∧ Forall (under path) ns.
Proof. apply Rm_ends. Qed.

(** ** Moving and listing *)

(** [Mv] and [Symlink] remove the target first: when the system then refuses, they
    answer [false] and what was at the target is gone. *)
Theorem Mv_loses_target (from to : bytes) (s s1 : Fs) (fuel : nat) : clean to → PATH_MAX < fuel → Rm fuel to s = Ret true s1 →
  (d_rename (on_disk s1) (c_str from) to = None → Mv fuel from to s = Ret false s1 ∧ ¬ exists_on s1 to) ∧
  (d_symlink (on_disk s1) (c_str from) to = None → Symlink fuel from to s = Ret false s1 ∧ ¬ exists_on s1 to).
Proof.
  intros Hc Hf Hr. destruct (Rm_ends to s fuel Hc Hf) as (r & s' & ns & Hr' & Hgone & _). rewrite Hr in Hr'. injection Hr' as <- <-.
  unfold Mv, Symlink, change, mbind, M_bind. rewrite Hr, Hc. split; intros ->; (split; [done|by apply Hgone]).
Qed.

(** The test for a directory looks at one bit of the type, which sockets and block
    devices have too: [Rm] takes them for directories that cannot be opened, and
    neither they nor a directory that holds one can be removed. *)
Theorem Rm_keeps_sockets (path : bytes) (s : Fs) (mode : Z) (fuel : nat) : clean path →
  d_lstat (on_disk s) path = Some mode → Z.land mode 0xF000 = 0xC000%Z ∨ Z.land mode 0xF000 = 0x6000%Z →
  d_readdir (on_disk s) path = None → Rm (S fuel) path s = Ret false s.
Proof.
  intros Hc Hl Hm Hr. cbn [Rm]. rewrite Hc. unfold lstat, get, mbind, M_bind. rewrite Hc, Hl, bool_decide_false; [by rewrite Hr|].
  intros H0'. assert (Z.testbit (Z.land mode 0xF000) 14 = true) as Hb by (by destruct Hm as [->| ->]).
  rewrite Z.land_spec in Hb. apply andb_true_iff in Hb as [Hb _]. assert (Z.testbit (Z.land mode S_IFDIR_) 14 = true) as Hb2.
  { rewrite Z.land_spec, Hb. done. }
  by rewrite H0', Z.bits_0 in Hb2.
Qed.

(** The regular files below a directory, through directories only. *)
Inductive reaches (d : disk) (path : bytes) : bytes → bytes → Prop :=
  | reaches_file name es : d_access d path = true → d_readdir d path = Some es → (name, DT_REG) ∈ es →
      reaches d path name (below path name)
  | reaches_dir name file p es : d_access d path = true → d_readdir d path = Some es → (name, DT_DIR) ∈ es → dots name = false →
      reaches d (below path name) file p → reaches d path file p.

Definition ends_with (subfix s : bytes) : Prop := ∃ front, s = front ++ subfix.

Lemma has_subfix_iff name subfix : has_subfix name subfix = true ↔ ends_with subfix name.
Proof.
  unfold has_subfix, ends_with. case_bool_decide as He; [subst; split; [intros _; exists name; by rewrite app_nil_r|done]|].
  destruct (Nat.ltb_spec (length name) (length subfix)) as [Hl|Hl].
  - split; [done|]. intros [f ->]. rewrite length_app in Hl. lia.
  - rewrite bool_decide_eq_true. unfold substr_from. split.
    + intros Hd. exists (take (length name - length subfix) name). rewrite <- Hd at 2. by rewrite take_drop.
    + intros [f ->]. rewrite length_app, Nat.add_sub. by rewrite drop_app_length.
Qed.

(** What is found from [path] on, behind what was found before. *)
Definition lists (d : disk) (path subfix : bytes) (files : list bytes) (r : option (list bytes)) : Prop :=
  ∃ l, r = Some (files ++ l) ∧ ∀ p, p ∈ l ↔ ∃ file, reaches d path file p ∧ ends_with subfix file.

(** What the entries of a directory lead to. *)
Definition leads (d : disk) (path subfix : bytes) (e : bytes * dtype) (p : bytes) : Prop :=
  match e with
  | (name, DT_REG) => ends_with subfix name ∧ p = below path name
  | (name, DT_DIR) => dots name = false ∧ ∃ file, reaches d (below path name) file p ∧ ends_with subfix file
  | (_, DT_OTHER) => False
  end.

Lemma reaches_leads d path subfix es p : d_access d path = true → d_readdir d path = Some es →
  (∃ e, e ∈ es ∧ leads d path subfix e p) ↔ ∃ file, reaches d path file p ∧ ends_with subfix file.
Proof.
  intros Ha Hr. split.
  - intros ([name []] & Hin & Hl); cbn in Hl; [|..|done].
    + destruct Hl as (Hd & file & Hre & Hs). exists file. split; [by eapply reaches_dir|done].
    + destruct Hl as [Hs ->]. exists name. split; [by eapply reaches_file|done].
  - intros (file & Hre & Hs). destruct Hre as [name es' _ Hr' Hin|name file p es' _ Hr' Hin Hd Hre]; rewrite Hr in Hr'; injection Hr' as <-.
    + by exists (name, DT_REG).
    + exists (name, DT_DIR). split; [done|]. split; [done|]. by exists file.
Qed.

Lemma leads_cons d path subfix e left p :
  (∃ e', e' ∈ e :: left ∧ leads d path subfix e' p) ↔ leads d path subfix e p ∨ ∃ e', e' ∈ left ∧ leads d path subfix e' p.
Proof.
  split.
  - intros (e' & [->|Hin]%elem_of_cons & Hl); [by left|right; by exists e'].
  - intros [Hl|(e' & Hin & Hl)]; [exists e|exists e']; (split; [|done]); [by left|by right].
Qed.

Lemma list_walk_ok d path subfix (rec : list bytes → bytes → option (list bytes)) left : clean path →
  Forall (λ e, c_str e.1 = e.1) left →
  (∀ files name, clean name → lists d (below path name) subfix files (rec files (below path name))) →
  ∀ files, ∃ l, list_walk rec path subfix left files = Some (files ++ l) ∧ ∀ p, p ∈ l ↔ ∃ e, e ∈ left ∧ leads d path subfix e p.
Proof.
  intros Hc Hes Hrec. induction Hes as [|[name t] left Hn Hes IH]; intros files.
  { exists []. rewrite app_nil_r. split; [done|]. intros p. split; [by intros ?%not_elem_of_nil|by intros (? & ?%not_elem_of_nil & _)]. }
  destruct t; cbn [list_walk]; [destruct (dots name) eqn:Hd| |].
  - destruct (IH files) as (l & Hw & Hl). exists l. split; [done|]. intros p. rewrite leads_cons, Hl. cbn. rewrite Hd. split; [tauto|].
    by intros [[? _]|?].
  - destruct (Hrec files name Hn) as (l1 & -> & Hl1). destruct (IH (files ++ l1)) as (l & Hw & Hl). exists (l1 ++ l). rewrite app_assoc.
    split; [done|]. intros p. rewrite elem_of_app, leads_cons, Hl, Hl1. cbn. rewrite Hd. tauto.
  - pose proof (has_subfix_iff name subfix) as Hs. destruct (has_subfix name subfix).
    + destruct (IH (files ++ [below path name])) as (l & Hw & Hl). exists (below path name :: l). rewrite <- app_assoc in Hw.
      split; [done|]. intros p. rewrite elem_of_cons, leads_cons, Hl. cbn. tauto.
    + destruct (IH files) as (l & Hw & Hl). exists l. split; [done|]. intros p. rewrite leads_cons, Hl. cbn. split; [tauto|].
      intros [[? _]|?]; [by apply Hs in H1|done].
  - destruct (IH files) as (l & Hw & Hl). exists l. split; [done|]. intros p. rewrite leads_cons, Hl. cbn. tauto.
Qed.

Lemma ListAllFile_ok d subfix fuel : ∀ path files, clean path → PATH_MAX < length path + fuel → 0 < fuel →
  lists d path subfix files (ListAllFile fuel d files path subfix).
Proof.
  induction fuel as [|fuel IH]; intros path files Hc Hf Hpos; [lia|]. cbn [ListAllFile]. rewrite Hc.
  destruct (d_access d path) eqn:Ha; cbn [negb]; [|exists []; rewrite app_nil_r; split; [done|]].
  2:{ intros p. split; [by intros ?%not_elem_of_nil|]. by intros (file & [name es Ha'|name file' p' es Ha'] & _); rewrite Ha in Ha'. }
  assert (0 < fuel) as Hfuel by (pose proof (short_names d path (access_exists _ _ Ha)); lia).
  destruct (d_readdir d path) as [es|] eqn:Hr.
  2:{ exists []; rewrite app_nil_r; split; [done|]. intros p. split; [by intros ?%not_elem_of_nil|].
      by intros (file & [name es _ Hr'|name file' p' es _ Hr'] & _); rewrite Hr in Hr'. }
  destruct (list_walk_ok d path subfix (λ files p, ListAllFile fuel d files p subfix) es Hc (listed_clean _ _ _ Hr)) with files
    as (l & Hw & Hl).
  - intros files' name Hn. apply IH; [by apply clean_below|rewrite length_below; lia|done].
  - exists l. split; [done|]. intros p. rewrite Hl. by apply reaches_leads.
Qed.

(** [ListAllFile] always ends and appends exactly the regular files below the
    directory, at any depth, whose names end with what is asked for; links are not
    followed. *)
Theorem ListAllFile_finds_all (d : disk) (path subfix : bytes) (files : list bytes) (fuel : nat) : clean path → PATH_MAX < fuel →
  ∃ l, ListAllFile fuel d files path subfix = Some (files ++ l) ∧
    ∀ p, p ∈ l ↔ ∃ file, reaches d path file p ∧ ends_with subfix file.
Proof. intros Hc Hf. apply (ListAllFile_ok d subfix fuel path files Hc); lia. Qed.
End laws.

(** The name of the current directory comes with NULs up to 256 characters. *)
Theorem GetCurDir_padded (name : bytes) : length name < 256 →
  length (GetCurDir (Some name)) = 256 ∧ (clean name → c_str (GetCurDir (Some name)) = name ∧ GetCurDir (Some name) ≠ name).
Proof.
  intros Hl. unfold GetCurDir. rewrite (proj2 (Nat.ltb_lt _ _)) by done. rewrite length_app, length_replicate. split; [lia|].
  intros Hc. split.
  - apply clean_iff in Hc. unfold c_str. destruct (256 - length name) as [|n] eqn:Hn; [lia|]. cbn [replicate].
    assert (find_if (is_char (byte.of_Z 0)) (name ++ byte.of_Z 0 :: replicate n (byte.of_Z 0)) = Some (length name)) as ->.
    { clear Hl Hn. induction name as [|c name IH]; [done|]. apply not_elem_of_cons in Hc as [H1 H2]. cbn.
      unfold is_char at 1. rewrite bool_decide_false by congruence. by rewrite IH. }
    by rewrite take_app_length.
  - intros He. apply (f_equal length) in He. rewrite length_app, length_replicate in He. lia.
Qed.

(** ** Examples *)

(** A disk of names with modes; nothing can be moved, and directories go with what is
    in them. *)
Definition child_of (path name : bytes) : option bytes :=
  if starts_with (path ++ [slash]) name then
    let rest := drop (S (length path)) name in
    if bool_decide (slash ∈ rest) || bool_decide (byte.of_Z 0 ∈ rest) then None else Some rest
  else None.
#[local] Instance small_disk : Disk := {|
  disk := gmap bytes Z;
  d_lstat d p := if length p <? PATH_MAX then d !! p else None;
  d_access d p := (length p <? PATH_MAX) && bool_decide (is_Some (d !! p));
  d_readdir d p :=
    match d !! p with
    | Some mode =>
      if bool_decide (Z.land mode 0xF000 = 0x4000)%Z then
        Some (omap (λ e, match child_of p e.1 with
                         | Some name => Some (name, if bool_decide (Z.land e.2 0xF000 = 0x4000)%Z then DT_DIR
                                                    else if bool_decide (Z.land e.2 0xF000 = 0x8000)%Z then DT_REG else DT_OTHER)
                         | None => None
                         end) (map_to_list d))
      else None
    | None => None
    end;
  d_mkdir d p := if length p <? PATH_MAX then Some (<[p := 0x41ff%Z]> d) else None;
  d_unlink d p := Some (delete p d);
  d_rmdir d p := Some (delete p d);
  d_rename _ _ _ := None;
  d_symlink _ _ _ := None;
  d_realpath _ p := Some p;
  d_creates d p := Some (<[p := 0x81a4%Z]> d)
|}.
#[local] Instance small_disk_laws : DiskLaws.
Proof.
  split; cbn -[PATH_MAX Nat.ltb].
  - intros s p [Hl He]%andb_true_iff. rewrite Hl. by apply bool_decide_eq_true in He.
  - intros s p es Hes. destruct (s !! p) as [m|]; [|done]. case_bool_decide; [|done]. injection Hes as <-.
    apply Forall_forall. intros [name t] (e & _ & He)%list_elem_of_omap. unfold child_of in He.
    destruct (starts_with _ _); [|done]. destruct (bool_decide (slash ∈ _)); [done|]. case_bool_decide; [done|].
    injection He as <- _. by apply clean_iff.
  - intros s p. destruct (Nat.ltb_spec (length p) PATH_MAX) as [Hl|Hl]; [done|]. by intros [m Hm].
  - intros s p s'. destruct (length p <? PATH_MAX) eqn:Hl; [|done]. intros [= <-]. rewrite lookup_insert_eq. split; [by eexists|].
    intros q. destruct (length q <? PATH_MAX); [|done]. destruct (decide (p = q)) as [->|Hq]; [by rewrite lookup_insert_eq|by rewrite lookup_insert_ne].
  - intros s p s' [= <-]. rewrite lookup_delete_eq. by destruct (length p <? PATH_MAX).
  - intros s p s' [= <-]. rewrite lookup_delete_eq. by destruct (length p <? PATH_MAX).
Defined.

Definition some_disk : Fs := mkFs (list_to_map
  [(bs "/srv", 0x41ff%Z); (bs "/srv/a.yml", 0x81a4%Z); (bs "/srv/sub", 0x41ff%Z); (bs "/srv/sub/b.yml", 0x81a4%Z); (bs "/srv/c", 0x81a4%Z);
   (bs "/run", 0xC1ff%Z)]) [].

Definition says_true (r : result Fs bool) : bool := match r with Ret b _ => b | _ => false end.

Lemma Mkdir_makes_parents_witness : ∃ r s', Mkdir (bs "/srv/x/y") some_disk = Ret r s' ∧ r = true ∧
  exists_on s' (bs "/srv/x") ∧ exists_on s' (bs "/srv/c").
Proof.
  destruct (proj2 (Mkdir_makes_parents (bs "/srv/x/y") some_disk ltac:(reflexivity))) as (r & s' & He & Hg & Ht & _); [done|].
  exists r, s'. split; [exact He|]. assert (says_true (Mkdir (bs "/srv/x/y") some_disk) = true) as Hr by (by vm_compute).
  rewrite He in Hr. cbn in Hr. subst r. split; [done|]. split.
  - apply (proj2 (Ht eq_refl)) with (i := 6); [|by right; left].
    intros [m Hm]. vm_compute in Hm. done.
  - apply Hg. vm_compute. by eexists.
Defined.

Lemma Rm_removes_witness : ∃ r s' ns, Rm (N.to_nat 4097) (bs "/srv") some_disk = Ret r s' ∧ (r = true → ¬ exists_on s' (bs "/srv")) ∧
  removed s' = removed some_disk ++ ns ∧ Forall (under (bs "/srv")) ns.
Proof. apply (Rm_removes (bs "/srv") some_disk (N.to_nat 4097)); [reflexivity|unfold PATH_MAX; lia]. Defined.

Lemma Mv_loses_target_witness : ∃ s1, Mv (N.to_nat 4097) (bs "/none") (bs "/srv/c") some_disk = Ret false s1 ∧ ¬ exists_on s1 (bs "/srv/c").
Proof.
  assert (says_true (Rm (N.to_nat 4097) (bs "/srv/c") some_disk) = true) as Hr by (by vm_compute).
  destruct (Rm (N.to_nat 4097) (bs "/srv/c") some_disk) as [[] s1| | |] eqn:He; [|done..]. exists s1. apply (Mv_loses_target (bs "/none") (bs "/srv/c") some_disk s1 (N.to_nat 4097)); [reflexivity|unfold PATH_MAX; lia|exact He|done].
Defined.

Lemma Rm_keeps_sockets_witness : Rm 1 (bs "/run") some_disk = Ret false some_disk.
Proof. apply (Rm_keeps_sockets (bs "/run") some_disk 0xC1ff); [reflexivity|by vm_compute|by left|by vm_compute]. Defined.

Lemma ListAllFile_finds_all_witness : ∃ l, ListAllFile (N.to_nat 4097) (on_disk some_disk) [] (bs "/srv") (bs ".yml") = Some ([] ++ l) ∧
  bs "/srv/sub/b.yml" ∈ l.
Proof.
  destruct (ListAllFile_finds_all (on_disk some_disk) (bs "/srv") (bs ".yml") [] (N.to_nat 4097)) as (l & He & _); [reflexivity|unfold PATH_MAX; lia|].
  exists l. split; [exact He|].
  assert (bool_decide (bs "/srv/sub/b.yml" ∈ default [] (ListAllFile (N.to_nat 4097) (on_disk some_disk) [] (bs "/srv") (bs ".yml"))) = true) as Hin
    by (by vm_compute).
  rewrite He in Hin. by apply bool_decide_eq_true in Hin.
Defined.

Lemma GetCurDir_padded_witness : length (GetCurDir (Some (bs "/srv"))) = 256 ∧ c_str (GetCurDir (Some (bs "/srv"))) = bs "/srv".
Proof.
  destruct (GetCurDir_padded (bs "/srv")) as [Hl Hc]; [cbn; lia|]. split; [exact Hl|]. apply Hc. reflexivity.
Defined.
