(* ===== verification/Env.v ===== *)
(** * The environment of the process: [sys/env.{h,cc}]

    The options of the command line, the lines of help, the place of the program and
    the variables of the environment.  What [readlink] answers is given; the table of
    [setenv] is a part of the state. *)
From stdpp Require Import gmap list.
From S2P Require Import Prelude Strings.

(** ** State *)

Record Env := mkEnv {
  args_ : gmap bytes bytes; helps_ : list (bytes * bytes); program_ : bytes; exe_ : bytes; cwd_ : bytes;
  environ : gmap bytes bytes }.

Definition set_args (f : gmap bytes bytes → gmap bytes bytes) (e : Env) : Env :=
  mkEnv (f (args_ e)) (helps_ e) (program_ e) (exe_ e) (cwd_ e) (environ e).
Definition set_helps (f : list (bytes * bytes) → list (bytes * bytes)) (e : Env) : Env :=
  mkEnv (args_ e) (f (helps_ e)) (program_ e) (exe_ e) (cwd_ e) (environ e).
Definition set_place (exe cwd : bytes) (e : Env) : Env := mkEnv (args_ e) (helps_ e) (program_ e) exe cwd (environ e).
Definition set_program (p : bytes) (e : Env) : Env := mkEnv (args_ e) (helps_ e) p (exe_ e) (cwd_ e) (environ e).
Definition set_environ (f : gmap bytes bytes → gmap bytes bytes) (e : Env) : Env :=
  mkEnv (args_ e) (helps_ e) (program_ e) (exe_ e) (cwd_ e) (f (environ e)).

(** ** Options *)

Definition Add (key val : bytes) : M Env unit := modify (set_args (<[key := val]>)).
Definition Has (key : bytes) (e : Env) : bool := bool_decide (is_Some (args_ e !! key)).
Definition Del (key : bytes) : M Env unit := modify (set_args (delete key)).
Definition Get (key default_value : bytes) (e : Env) : bytes := default default_value (args_ e !! key).

Definition minus : byte := byte.of_Z 45.
Definition begins (c : byte) (s : bytes) : bool := bool_decide (head s = Some c).

(** The loop over the arguments behind the name of the program. *)
Fixpoint Init_loop (args : list bytes) (now_key : option bytes) : M Env bool :=
  match args with
  | [] => match now_key with Some k => Add k [] ;; mret true | None => mret true end
  | arg :: args =>
    if begins minus arg then
      if (1 <? length arg) then
        match now_key with Some k => Add k [] | None => mret tt end ;;
        Init_loop args (Some (tail arg))
      else mret false
    else
      match now_key with
      | Some k => Add k arg ;; Init_loop args None
      | None => mret false
      end
  end.

(** [link] is what [readlink] wrote into the 256 bytes of [path]: all of them when the
    name is longer, without a terminator.  [return -1] is [true]. *)
Definition path_size : nat := 256.
Definition directory (exe : bytes) : bytes :=
  match rfind_if (is_char slash) exe with Some pos => take pos exe | None => exe end ++ [slash].
Definition Init (link : option bytes) (argv : list bytes) : M Env bool :=
  match link with
  | None => mret true
  | Some path =>
    if (path_size <=? length path) then undef out_of_bounds
    else
      modify (set_place (c_str path) (directory (c_str path))) ;;
      match argv with
      | [] => undef null_deref
      | program :: args => modify (set_program program) ;; Init_loop args None
      end
  end.

(** ** Help *)

Definition RemoveHelp (key : bytes) : M Env unit := modify (set_helps (filter (λ h, h.1 ≠ key))).
Definition AddHelp (key desc : bytes) : M Env unit := RemoveHelp key ;; modify (set_helps (λ l, l ++ [(key, desc)])).
Definition newline : bytes := [byte.of_Z 10].
Definition PrintHelp (e : Env) : bytes :=
  bs "Usage: " ++ program_ e ++ bs " [options]" ++ newline ++
  concat (map (λ h, bs "    -" ++ h.1 ++ bs " : " ++ h.2 ++ newline) (helps_ e)).

(** ** The environment, and paths *)

(** [setenv] refuses an empty name and one with an equals sign. *)
Definition settable_name (name : bytes) : bool := negb (bool_decide (name = [])) && negb (bool_decide (byte.of_Z 61 ∈ name)).
Definition SetEnv (key val : bytes) : M Env bool :=
  if settable_name (c_str key) then modify (set_environ (<[c_str key := c_str val]>)) ;; mret true else mret false.
Definition GetEnv (key default_value : bytes) (e : Env) : bytes := default default_value (environ e !! c_str key).

Definition GetAbsolutePath (path : bytes) (e : Env) : bytes :=
  match path with
  | [] => [slash]
  | c :: _ => if is_char slash c then path else cwd_ e ++ path
  end.

(** [work_path] is the variable [server.work_path], if it is registered. *)
Definition GetAbsoluteWorkPath (work_path : option bytes) (path : bytes) : M Env bytes :=
  match path with
  | [] => mret [slash]
  | c :: _ =>
    if is_char slash c then mret path
    else match work_path with Some w => mret (w ++ [slash] ++ path) | None => undef null_deref end
  end.

Definition GetConfigPath (e : Env) : bytes := GetAbsolutePath (Get (bs "c") (bs "conf") e) e.

(** ** Command lines *)

(** An option: its name, and its value if one follows.  A value does not begin with a
    minus sign, which would make it the next name. *)
Definition valid_option (o : bytes * option bytes) : Prop :=
  o.1 ≠ [] ∧ match o.2 with Some v => begins minus v = false | None => True end.
Definition print_option (o : bytes * option bytes) : list bytes :=
  (minus :: o.1) :: (match o.2 with Some v => [v] | None => [] end).
Definition command_line (opts : list (bytes * option bytes)) : list bytes := concat (map print_option opts).
Definition settle (opts : list (bytes * option bytes)) (m : gmap bytes bytes) : gmap bytes bytes :=
  foldl (λ m o, <[o.1 := default [] o.2]> m) m opts.

Lemma begins_minus k : begins minus (minus :: k) = true.
Proof. done. Qed.
Lemma long_enough k : k ≠ [] → (1 <? length (minus :: k)) = true.
Proof. intros Hk. destruct k; [done|]. done. Qed.

(** A name that waits for its value gets none when the next argument is a name. *)
Lemma Init_loop_pending opts k e : Forall valid_option opts →
  Init_loop (command_line opts) (Some k) e = Init_loop (command_line opts) None (set_args <[k := []]> e).
Proof.
  destruct opts as [|[k' v] opts]; [done|]. intros [[Hk _] _]%Forall_cons. cbn [fst] in Hk.
  cbn [command_line map concat print_option fst snd app]. cbn [Init_loop].
  by rewrite begins_minus, long_enough.
Qed.

Lemma Init_loop_reads opts e : Forall valid_option opts →
  Init_loop (command_line opts) None e = Ret true (set_args (settle opts) e).
Proof.
  revert e. induction opts as [|[k v] opts IH]; intros e Hv; [by destruct e|].
  apply Forall_cons in Hv as [[Hk Hval] Hv]. cbn [fst snd] in Hk, Hval.
  unfold command_line. cbn [map concat print_option fst snd app]. cbn [Init_loop]. rewrite begins_minus, long_enough by done.
  cbn [tail]. unfold mbind, M_bind, mret, M_ret. destruct v as [v|]; cbn [app].
  - cbn [Init_loop]. rewrite Hval. unfold mbind, M_bind, Add, modify. fold (command_line opts). by rewrite IH.
  - fold (command_line opts). by rewrite Init_loop_pending, IH.
Qed.

Lemma Init_loop_returns args : ∀ nk e, ∃ r e', Init_loop args nk e = Ret r e'.
Proof.
  induction args as [|a args IH]; intros nk e; cbn [Init_loop]; [by destruct nk; do 2 eexists|].
  destruct (begins minus a), nk; try destruct (1 <? length a); try (by do 2 eexists); apply IH.
Qed.

Lemma Init_loop_accepts args : ∀ nk e e', Init_loop args nk e = Ret true e' →
  match nk with Some k => k ≠ [] | None => True end →
  ∃ opts, Forall valid_option opts ∧ (match nk with Some k => [minus :: k] | None => [] end) ++ args = command_line opts.
Proof.
  induction args as [|a args IH]; intros nk e e' He Hk; cbn [Init_loop] in He.
  { destruct nk as [k|]; [exists [(k, None)]|exists []]; (split; [by repeat constructor|done]). }
  destruct (begins minus a) eqn:Ha.
  - destruct (Nat.ltb_spec 1 (length a)) as [Hl|]; [|done].
    destruct a as [|c [|d a]]; cbn in Hl; [lia..|]. unfold begins in Ha. apply bool_decide_eq_true in Ha. injection Ha as ->.
    assert (∃ e1, Init_loop args (Some (d :: a)) e1 = Ret true e') as [e1 H1].
    { destruct nk; eexists; exact He. }
    destruct (IH _ _ _ H1) as (opts & Hv & Heq); [done|]. destruct nk as [k|].
    + exists ((k, None) :: opts). split; [by constructor|]. unfold command_line in *. cbn [map concat print_option fst snd app] in *. by rewrite <- Heq.
    + by exists opts.
  - destruct nk as [k|]; [|done]. destruct (IH None _ _ He I) as (opts & Hv & Heq).
    exists ((k, Some a) :: opts). split; [by constructor|]. unfold command_line in *. cbn [map concat print_option fst snd app] in *. by rewrite <- Heq.
Qed.

Lemma settle_app before o after m : settle (before ++ o :: after) m = settle after (<[o.1 := default [] o.2]> (settle before m)).
Proof. unfold settle. by rewrite foldl_app. Qed.

Lemma settle_other opts m key : key ∉ map fst opts → settle opts m !! key = m !! key.
Proof.
  revert m. induction opts as [|o opts IH]; intros m Hk; [done|]. cbn in Hk. apply not_elem_of_cons in Hk as [H1 H2].
  unfold settle. cbn [foldl]. fold (settle opts (<[o.1 := default [] o.2]> m)). rewrite IH by done. by apply lookup_insert_ne.
Qed.

(** With the name of the program read, [Init] returns, and its answer is whether the
    arguments are options; then they are what it has stored. *)
Lemma Init_reads (path program : bytes) (args : list bytes) (e : Env) : length path < path_size → ∃ r e', Init (Some path) (program :: args) e = Ret r e' ∧
  (r = true ↔ ∃ opts, Forall valid_option opts ∧ args = command_line opts) ∧
  ∀ opts, Forall valid_option opts → args = command_line opts →
    program_ e' = program ∧ exe_ e' = c_str path ∧ cwd_ e' = directory (c_str path) ∧
    (∀ before k v after, opts = before ++ (k, v) :: after → k ∉ map fst after →
      Has k e' = true ∧ ∀ d, Get k d e' = default [] v) ∧
    ∀ k, k ∉ map fst opts → Has k e' = Has k e ∧ ∀ d, Get k d e' = Get k d e.
Proof.
  unfold Init; intros Hl. rewrite (proj2 (Nat.leb_gt _ _)) by done.
  set (e1 := set_program program (set_place (c_str path) (directory (c_str path)) e)).
  destruct (Init_loop_returns args None e1) as (r & e' & He). exists r, e'. split; [done|]. split.
  - split.
    + intros ->. destruct (Init_loop_accepts args None e1 e' He I) as (opts & Hv & Heq). by exists opts.
    + intros (opts & Hv & ->). rewrite Init_loop_reads in He by done. by injection He.
  - intros opts Hv ->. rewrite Init_loop_reads in He by done. injection He as _ <-. split_and!; [done..| |].
    + intros before k v after -> Hk. unfold Has, Get. cbn [args_ set_args].
      rewrite settle_app, settle_other by done. cbn [fst snd]. rewrite lookup_insert_eq. by split.
    + intros k Hk. unfold Has, Get. cbn [args_ set_args]. by rewrite settle_other by done.
Qed.

(** C36: When [readlink] gives the name of the program and the name is shorter than the 256
    bytes it is read into, [Init] answers [true] to exactly the command lines that are
    options, names with a minus sign each with one value behind it or none, and then the
    arguments are the options, the last one of a name, with an empty text for no value; to
    any other command line with the program's name it answers [false].  Otherwise it reads
    nothing of the command line: when [readlink] fails, it answers [true] to whatever it is
    and changes nothing, since the -1 it returns is a [bool]; when the name takes up all of
    the 256 bytes, it is undefined, and so it is for a command line without even the name
    of the program. *)
Theorem Init_reads_options (e : Env) :
  (∀ argv, Init None argv e = Ret true e) ∧
  (∀ path argv, path_size ≤ length path → Init (Some path) argv e = Undef out_of_bounds) ∧
  (∀ path, length path < path_size → Init (Some path) [] e = Undef null_deref) ∧
  ∀ path program args, length path < path_size → ∃ r e', Init (Some path) (program :: args) e = Ret r e' ∧
    (r = true ↔ ∃ opts, Forall valid_option opts ∧ args = command_line opts) ∧
    ∀ opts, Forall valid_option opts → args = command_line opts →
      program_ e' = program ∧ exe_ e' = c_str path ∧ cwd_ e' = directory (c_str path) ∧
      (∀ before k v after, opts = before ++ (k, v) :: after → k ∉ map fst after →
        Has k e' = true ∧ ∀ d, Get k d e' = default [] v) ∧
      ∀ k, k ∉ map fst opts → Has k e' = Has k e ∧ ∀ d, Get k d e' = Get k d e.
Proof.
  split_and!; [done| | |].
  - intros path argv Hl. unfold Init. by rewrite (proj2 (Nat.leb_le _ _)).
  - intros path Hl. unfold Init. by rewrite (proj2 (Nat.leb_gt _ _)).
  - intros path program args Hl. by apply Init_reads.
Qed.

(** ** Paths *)

(** After [Init] a relative path is one below the directory the program is in, and
    so is the configuration, [conf] there unless the option [c] says another place; an
    empty path, also that of an option without a value, is the root. *)
Theorem config_is_found (path program : bytes) (opts : list (bytes * option bytes)) (e : Env) :
  length path < path_size → Forall valid_option opts → args_ e = ∅ →
  ∃ e', Init (Some path) (program :: command_line opts) e = Ret true e' ∧
    (∀ p, p ≠ [] → begins slash p = false → GetAbsolutePath p e' = directory (c_str path) ++ p) ∧
    (bs "c" ∉ map fst opts → GetConfigPath e' = directory (c_str path) ++ bs "conf") ∧
    ∀ before v after, opts = before ++ (bs "c", v) :: after → bs "c" ∉ map fst after →
      GetConfigPath e' = match v with
                         | Some (c :: p) => if is_char slash c then c :: p else directory (c_str path) ++ c :: p
                         | _ => [slash]
                         end.
Proof.
  intros Hl Hv Hargs. destruct (Init_reads path program (command_line opts) e Hl) as (r & e' & He & Hr & Hopts).
  destruct (Hopts opts Hv eq_refl) as (_ & _ & Hcwd & Hlast & Hno). exists e'. split; [|split_and!].
  - rewrite He. f_equal. apply Hr. by exists opts.
  - intros [|c p] Hp Hc; [done|]. unfold GetAbsolutePath, begins, is_char in *. cbn [head] in Hc.
    rewrite bool_decide_false; [by rewrite Hcwd|]. apply bool_decide_eq_false in Hc. congruence.
  - intros Hc. destruct (Hno _ Hc) as [_ Hg]. unfold GetConfigPath. rewrite Hg. unfold Get. rewrite Hargs, lookup_empty. cbn. by rewrite Hcwd.
  - intros before v after Ho Hc. destruct (Hlast _ _ _ _ Ho Hc) as [_ Hg]. unfold GetConfigPath. rewrite Hg.
    destruct v as [[|c p]|]; cbn; [done| |done]. by rewrite Hcwd.
Qed.

(** ** Help and variables *)

(** Whatever is added and removed, no option has two lines of help, and the last
    one added for a name is printed behind all the others. *)
Theorem help_once (key desc : bytes) (e : Env) : NoDup (map fst (helps_ e)) →
  (∃ e', AddHelp key desc e = Ret tt e' ∧ NoDup (map fst (helps_ e')) ∧
    helps_ e' = filter (λ h, h.1 ≠ key) (helps_ e) ++ [(key, desc)]) ∧
  ∃ e', RemoveHelp key e = Ret tt e' ∧ NoDup (map fst (helps_ e')) ∧ ∀ h, h ∈ helps_ e' ↔ h ∈ helps_ e ∧ h.1 ≠ key.
Proof.
  intros Hd. assert (NoDup (map fst (filter (λ h, h.1 ≠ key) (helps_ e)))) as Hf.
  { eapply sublist_NoDup; [exact Hd|]. apply fmap_sublist, sublist_filter. }
  split; eexists; (split; [reflexivity|]); cbn [helps_ set_helps].
  - split; [|done]. rewrite map_app. apply NoDup_app. split; [done|]. split; [|by apply NoDup_singleton].
    cbn. intros k Hk ->%list_elem_of_singleton. apply list_elem_of_fmap in Hk as (h & Heq & Hh). by apply list_elem_of_filter in Hh as [? _].
  - split; [done|]. intros h. rewrite list_elem_of_filter. tauto.
Qed.

(** A variable that was set is read back, as a C string, and no other one changes;
    a name [setenv] refuses sets nothing. *)
Theorem variable_read_back (key val : bytes) (e : Env) : ∃ r e', SetEnv key val e = Ret r e' ∧
  r = settable_name (c_str key) ∧ (r = true → ∀ d, GetEnv key d e' = c_str val) ∧
  (r = false → e' = e) ∧ ∀ other, c_str other ≠ c_str key → ∀ d, GetEnv other d e' = GetEnv other d e.
Proof.
  unfold SetEnv. destruct (settable_name (c_str key)); do 2 eexists; (split; [reflexivity|]); split_and!; try done.
  - intros _ d. unfold GetEnv. cbn. by rewrite lookup_insert_eq.
  - intros other Ho d. unfold GetEnv. cbn. by rewrite lookup_insert_ne.
Qed.

(** ** Examples *)

Definition no_env : Env := mkEnv ∅ [] [] [] [] ∅.

Lemma Init_reads_options_witness : ∃ r e', Init (Some (bs "/bin/x")) [bs "x"; bs "-p"; bs "80"; bs "-d"] no_env = Ret r e' ∧
  r = true ∧ Get (bs "p") [] e' = bs "80".
Proof.
  destruct (proj2 (proj2 (proj2 (Init_reads_options no_env))) (bs "/bin/x") (bs "x") [bs "-p"; bs "80"; bs "-d"]) as (r & e' & He & Hr & H).
  { cbn. unfold path_size. lia. }
  exists r, e'. assert (Forall valid_option [(bs "p", Some (bs "80")); (bs "d", None)]) as Hv by (by repeat constructor).
  split; [exact He|]. split; [apply Hr; by eexists|]. destruct (H _ Hv eq_refl) as (_ & _ & _ & Hl & _).
  destruct (Hl [] (bs "p") (Some (bs "80")) [(bs "d", None)] eq_refl) as [_ Hg]; [cbn; by rewrite list_elem_of_singleton|].
  apply Hg.
Defined.

Lemma config_is_found_witness : ∃ e',
  Init (Some (bs "/opt/server/bin/main")) (bs "main" :: command_line [(bs "c", Some (bs "etc")); (bs "d", None)]) no_env = Ret true e' ∧
  GetConfigPath e' = bs "/opt/server/bin/etc".
Proof.
  destruct (config_is_found (bs "/opt/server/bin/main") (bs "main") [(bs "c", Some (bs "etc")); (bs "d", None)] no_env)
    as (e' & He & _ & _ & H).
  - cbn. unfold path_size. lia.
  - by repeat constructor.
  - done.
  - exists e'. split; [exact He|]. rewrite (H [] (Some (bs "etc")) [(bs "d", None)] eq_refl); [done|].
    cbn. by rewrite list_elem_of_singleton.
Defined.

Lemma help_once_witness : ∃ e', AddHelp (bs "d") (bs "run as daemon") no_env = Ret tt e' ∧ helps_ e' = [(bs "d", bs "run as daemon")].
Proof.
  destruct (help_once (bs "d") (bs "run as daemon") no_env (NoDup_nil_2)) as [(e' & He & _ & Hh) _]. by exists e'.
Defined.
