(* ===== verification/Util.v ===== *)
(** * Templates of [server_frame/util.h], and the number and stream functions of [util.cc]

    Searching a sorted array, cutting a vector in slices, joining, numbers in text, and
    reading and writing a fixed number of bytes of a standard stream, at once or piece by
    piece.  The pauses that [SpeedLimit] makes between the pieces are not modelled, nor
    is the size of a piece, which is computed in floating point: it is given. *)
From stdpp Require Import list.
From S2P Require Import Prelude Strings CLib.
Local Open Scope Z_scope.

(** ** BinarySearch *)

Section search.
Context `{OverflowMode} {T : Type}.
(** [operator<] of the elements. *)
Variable ltb : T → T → bool.

Definition at_ {St} (arr : list T) (i : Z) : M St T :=
  if i <? 0 then undef out_of_bounds else match arr !! Z.to_nat i with Some x => mret x | None => undef out_of_bounds end.

(** The numbers are [int]s; the quotient of a division is cut towards zero. *)
Fixpoint BinarySearch_loop {St} (fuel : nat) (arr : list T) (v : T) (begin_ end_ : Z) : M St Z :=
  match fuel with
  | O => λ _, NoFuel
  | S fuel =>
    if begin_ <=? end_ then
      sum ← sint 32 (begin_ + end_);
      let m := Z.quot sum 2 in
      x ← at_ arr m;
      if ltb v x then e ← sint 32 (m - 1); BinarySearch_loop fuel arr v begin_ e
      else if ltb x v then b ← sint 32 (m + 1); BinarySearch_loop fuel arr v b end_
      else mret m
    else sint 32 (- begin_ - 1)
  end.

Definition BinarySearch {St} (arr : list T) (length_ : Z) (v : T) : M St Z :=
  BinarySearch_loop (S (length arr)) arr v 0 (length_ - 1).
End search.

(** ** Slice and Join *)

(** [Slice]: [dst] gets the pieces; every turn takes [size] elements. *)
Fixpoint Slice_loop {T} (fuel : nat) (dst : list (list T)) (src : list T) (size left_ pos : nat) : option (list (list T) * nat * nat) :=
  match fuel with
  | O => None
  | S fuel =>
    if (size <? left_)%nat then Slice_loop fuel (dst ++ [slice pos size src]) src size (left_ - size) (pos + size)
    else Some (dst, left_, pos)
  end.
Definition Slice {T} (fuel : nat) (dst : list (list T)) (src : list T) (size : nat) : option (list (list T)) :=
  '(dst, left_, pos) ← Slice_loop fuel dst src size (length src) 0;
  Some (if (0 <? left_)%nat then dst ++ [slice pos left_ src] else dst).

(** [Join] of strings. *)
Fixpoint Join_loop (tag : bytes) (first : bool) (l : list bytes) (ss : bytes) : bytes :=
  match l with
  | [] => ss
  | x :: l => Join_loop tag false l ((if first then ss else ss ++ tag) ++ x)
  end.
Definition Join (l : list bytes) (tag : bytes) : bytes := Join_loop tag true l [].

(** ** Numbers in text *)

(** [strtoull(s, NULL, 10)]: blanks, a sign, digits; a number that is too large is the
    largest one, and a minus sign negates modulo [2^64]. *)
Definition strtoull (s : bytes) : Z :=
  let s := skip_spaces s in
  let '(neg, s) := match s with
    | b :: s' => if uchar b =? 45 then (true, s') else if uchar b =? 43 then (false, s') else (false, s)
    | [] => (false, s)
    end in
  let n := strtol_digits 10 0 s in
  if 2 ^ 64 <=? n then 2 ^ 64 - 1 else if neg : bool then u64 (- n) else n.

Definition ToChar (str : bytes) : Z := match str with [] => 0 | c :: _ => schar c end.
Definition Atoi (str : bytes) : Z := if bool_decide (str = []) then 0 else s64 (strtoull (c_str str)).

(** ** Standard streams *)

(** What is left in an [istream], and whether it converts to true. *)
Record istream := mkIn { rest : bytes; in_good : bool }.
(** [is.read(p, n)]: the bytes, whose number is [gcount()]; too few of them set
    [failbit]. *)
Definition is_read (n : nat) : M istream bytes := λ st,
  if in_good st then Ret (take n (rest st)) (mkIn (drop n (rest st)) (n <=? length (rest st))%nat) else Ret [] st.

(** What was written to an [ostream], how much more its device takes, and whether it
    converts to true. *)
Record ostream := mkOut { written : bytes; room_left : nat; out_good : bool }.
Definition os_write (d : bytes) : M ostream unit := λ os,
  if out_good os then Ret tt (mkOut (written os ++ take (room_left os) d) (room_left os - length d) (length d <=? room_left os)%nat)
  else Ret tt os.

(** [ReadFixFromStream]: [data] is what is in the buffer already; every turn that does
    not fill it leaves the stream bad. *)
Fixpoint ReadFix_loop (fuel : nat) (data : bytes) (size : nat) : M istream bytes := λ st,
  if negb (in_good st && (length data <? size)%nat) then Ret data st else
  match fuel with
  | O => NoFuel
  | S fuel => (d ← is_read (size - length data); ReadFix_loop fuel (data ++ d) size) st
  end.
Definition ReadFixFromStream (size : nat) : M istream (bool * bytes) :=
  data ← ReadFix_loop 2 [] size; mret ((length data =? size)%nat, data).

(** [ReadFixFromStreamWithSpeed] in pieces of [per] bytes. *)
Fixpoint ReadSpeed_loop (fuel per : nat) (data : bytes) (size : nat) : M istream bytes := λ st,
  if negb (in_good st && (length data <? size)%nat) then Ret data st else
  match fuel with
  | O => NoFuel
  | S fuel =>
    (d ← is_read (if per <? size - length data then per else size - length data)%nat; ReadSpeed_loop fuel per (data ++ d) size) st
  end.
Definition ReadFixFromStreamWithSpeed (per size : nat) : M istream (bool * bytes) :=
  data ← ReadSpeed_loop (S (S size)) per [] size; mret ((length data =? size)%nat, data).

(** [WriteFixToStreamWithSpeed]: it counts what it has asked for, whether or not it was
    written. *)
Fixpoint WriteSpeed_loop (fuel per : nat) (data : bytes) (offset : nat) : M ostream nat := λ os,
  if negb (out_good os && (offset <? length data)%nat) then Ret offset os else
  match fuel with
  | O => NoFuel
  | S fuel =>
    let s := (if per <? length data - offset then per else length data - offset)%nat in
    (os_write (slice offset s data);; WriteSpeed_loop fuel per data (offset + s)) os
  end.
Definition WriteFixToStreamWithSpeed (per : nat) (data : bytes) : M ostream bool :=
  offset ← WriteSpeed_loop (S (length data)) per data 0; mret (offset =? length data)%nat.

(** [WriteToStream] of the bytes of a value or of a vector. *)
Definition WriteToStream (data : bytes) : M ostream bool := λ os,
  if out_good os then (os_write data;; s ← get; mret (out_good s)) os else Ret false os.

(** ** Searching *)

Section laws.
Context `{OverflowMode} {T : Type}.
Variable ltb : T → T → bool.
(** What [operator<] of a strict weak order has: an element that is not on one side of
    two that are in order is on the other. *)
Hypothesis between : ∀ a b c, ltb a b = true → ltb a c = true ∨ ltb c b = true.

Definition sorted_ (arr : list T) : Prop := ∀ i j x y, (i < j)%nat → arr !! i = Some x → arr !! j = Some y → ltb y x = false.

(** Where [v] is, or where it would have to be inserted. *)
Definition found_at (arr : list T) (v : T) (r : Z) : Prop :=
  0 ≤ r ∧ (∃ x, arr !! Z.to_nat r = Some x ∧ ltb v x = false ∧ ltb x v = false) ∨
  r < 0 ∧ ∃ k, r = - Z.of_nat k - 1 ∧ (k ≤ length arr)%nat ∧
    Forall (λ x, ltb x v = true) (take k arr) ∧ Forall (λ x, ltb v x = true) (drop k arr).

Lemma sint_in {St} z (s : St) : in_s 32 z → sint 32 z s = Ret z s.
Proof. intros Hz. unfold sint. by rewrite bool_decide_true. Qed.

Lemma below_all arr v m x : sorted_ arr → arr !! m = Some x → ltb x v = true → Forall (λ x, ltb x v = true) (take (S m) arr).
Proof.
  intros Hs Hm Hx. apply Forall_lookup. intros i y Hi. apply lookup_take_Some in Hi as [Hi Hlt].
  destruct (decide (i = m)) as [->|]; [by simplify_eq|].
  destruct (between _ _ y Hx) as [Hy|]; [|done]. by rewrite (Hs i m y x) in Hy by (done || lia).
Qed.

Lemma above_all arr v m x : sorted_ arr → arr !! m = Some x → ltb v x = true → Forall (λ x, ltb v x = true) (drop m arr).
Proof.
  intros Hs Hm Hx. apply Forall_lookup. intros i y Hi. rewrite lookup_drop in Hi.
  destruct (decide (i = 0)%nat) as [->|]; [rewrite Nat.add_0_r in Hi; by simplify_eq|].
  destruct (between _ _ y Hx) as [|Hy]; [done|]. by rewrite (Hs m (m + i)%nat x y) in Hy by (done || lia).
Qed.

Lemma search_from {St} arr v (s : St) : sorted_ arr → Z.of_nat (length arr) ≤ 2 ^ 30 → ∀ fuel (b n : nat),
  (b + n ≤ length arr)%nat → (n < fuel)%nat →
  Forall (λ x, ltb x v = true) (take b arr) → Forall (λ x, ltb v x = true) (drop (b + n) arr) →
  ∃ r, BinarySearch_loop ltb fuel arr v (Z.of_nat b) (Z.of_nat (b + n) - 1) s = Ret r s ∧ found_at arr v r.
Proof.
  intros Hs Hlen. induction fuel as [|fuel IH]; intros b n Hn Hf Hb Ha; [lia|]. cbn [BinarySearch_loop].
  destruct (Z.leb_spec (Z.of_nat b) (Z.of_nat (b + n) - 1)) as [Hle|Hgt].
  - rewrite (bind_Ret _ _ _ _ _ (sint_in (Z.of_nat b + (Z.of_nat (b + n) - 1)) s ltac:(unfold in_s; lia))).
    set (m := ((b + (b + n - 1)) / 2)%nat).
    assert (b ≤ m < b + n)%nat as Hm.
    { unfold m. pose proof (Nat.div_mod_eq (b + (b + n - 1)) 2). pose proof (Nat.mod_upper_bound (b + (b + n - 1)) 2). lia. }
    assert (Z.quot (Z.of_nat b + (Z.of_nat (b + n) - 1)) 2 = Z.of_nat m) as ->.
    { rewrite Z.quot_div_nonneg by lia. unfold m. rewrite Nat2Z.inj_div. f_equal. lia. }
    destruct (lookup_lt_is_Some_2 arr m) as [x Hx]; [lia|].
    assert (at_ arr (Z.of_nat m) s = Ret x s) as Hat.
    { unfold at_. rewrite (proj2 (Z.ltb_ge _ _)) by lia. by rewrite Nat2Z.id, Hx. }
    rewrite (bind_Ret _ _ _ _ _ Hat). destruct (ltb v x) eqn:E1; [|destruct (ltb x v) eqn:E2].
    + rewrite (bind_Ret _ _ _ _ _ (sint_in (Z.of_nat m - 1) s ltac:(unfold in_s; lia))).
      destruct (IH b (m - b)%nat) as (r & Hr & ?); [lia|lia|done| |].
      { replace (b + (m - b))%nat with m by lia. by eapply above_all. }
      exists r. split; [|done]. rewrite <- Hr. f_equal. lia.
    + rewrite (bind_Ret _ _ _ _ _ (sint_in (Z.of_nat m + 1) s ltac:(unfold in_s; lia))).
      destruct (IH (S m) (b + n - S m)%nat) as (r & Hr & ?); [lia|lia|by eapply below_all| |].
      { by replace (S m + (b + n - S m))%nat with (b + n)%nat by lia. }
      exists r. split; [|done]. rewrite <- Hr. f_equal; lia.
    + exists (Z.of_nat m). split; [done|]. left. split; [lia|]. exists x. by rewrite Nat2Z.id.
  - assert (n = 0)%nat as -> by lia. rewrite sint_in by (unfold in_s; lia). eexists. split; [done|].
    right. split; [lia|]. exists b. rewrite Nat.add_0_r in Ha. split_and!; (done || lia).
Qed.

(** C40: [BinarySearch] of a sorted array of up to 2^30 elements returns, reads only
    elements of the array, and its sums stay in the range of [int]: the answer is an
    index of an element that is neither smaller nor larger, or minus one more than the
    index where the value belongs, with all smaller elements in front of it and all larger
    ones behind. *)
Theorem BinarySearch_finds {St} (arr : list T) (v : T) (s : St) : sorted_ arr → Z.of_nat (length arr) ≤ 2 ^ 30 →
  ∃ r, BinarySearch ltb arr (Z.of_nat (length arr)) v s = Ret r s ∧ found_at arr v r.
Proof.
  intros Hs Hlen. apply (search_from arr v s Hs Hlen (S (length arr)) 0 (length arr)); [lia|lia|by rewrite take_0|].
  by rewrite Nat.add_0_l, drop_ge by lia.
Qed.
End laws.

(** ** Slicing *)

Lemma Slice_loop_ok {T} (src : list T) size fuel : (0 < size)%nat → ∀ dst left_ pos, (left_ < fuel)%nat → (pos + left_ = length src)%nat →
  ∃ ps left' pos', Slice_loop fuel dst src size left_ pos = Some (dst ++ ps, left', pos') ∧ (pos' + left' = length src)%nat ∧
    (left' ≤ size)%nat ∧ ((0 < left_)%nat → (0 < left')%nat) ∧ Forall (λ p, length p = size) ps ∧ concat ps ++ drop pos' src = drop pos src.
Proof.
  intros Hsize. induction fuel as [|fuel IH]; intros dst left_ pos Hf Hp; [lia|]. cbn [Slice_loop].
  destruct (Nat.ltb_spec size left_) as [Hlt|Hge].
  - destruct (IH (dst ++ [slice pos size src]) (left_ - size)%nat (pos + size)%nat)
      as (ps & l' & p' & Hr & Hp' & Hl' & H0 & Hall & Hc); [lia..|].
    exists (slice pos size src :: ps), l', p'. split_and!; [by rewrite Hr, <- app_assoc|done|done|lia| |].
    + constructor; [|done]. apply length_slice. lia.
    + cbn [concat]. rewrite <- app_assoc, Hc. unfold slice. rewrite <- drop_drop. apply take_drop.
  - exists [], left_, pos. rewrite app_nil_r. split_and!; try done; lia.
Qed.

(** [Slice] cuts a vector into pieces of [size] elements, in order and with nothing
    lost; only the last may be shorter, and none is empty.  What the result held before
    stays in front. *)
Theorem Slice_partitions {T} (dst : list (list T)) (src : list T) (size : nat) : (0 < size)%nat →
  ∃ ps, Slice (S (length src)) dst src size = Some (dst ++ ps) ∧ concat ps = src ∧
    Forall (λ p, length p = size) (removelast ps) ∧ Forall (λ p, 0 < length p ≤ size)%nat ps.
Proof.
  intros Hs. destruct (Slice_loop_ok src size (S (length src)) Hs dst (length src) 0) as (ps & l' & p' & Hr & Hp & Hl & H0 & Hall & Hc); [lia..|].
  unfold Slice. rewrite Hr. cbn [option_bind mbind]. rewrite drop_0 in Hc.
  assert (Forall (λ p, 0 < length p ≤ size)%nat ps) as Hall' by (eapply Forall_impl; [exact Hall|]; cbn; lia).
  destruct (Nat.ltb_spec 0 l') as [Hpos|Hnil].
  - exists (ps ++ [slice p' l' src]). assert (slice p' l' src = drop p' src) as Hd by (unfold slice; apply take_ge; rewrite length_drop; lia).
    rewrite <- app_assoc. split; [done|]. split; [by rewrite concat_app, Hd; cbn; rewrite app_nil_r|].
    split; [by rewrite removelast_last|]. apply Forall_app. split; [done|]. repeat constructor; rewrite length_slice; lia.
  - assert (p' = length src) as -> by lia. rewrite drop_all, app_nil_r in Hc. destruct ps as [|p ps].
    + exists []. by rewrite app_nil_r.
    + exfalso. cbn [concat] in Hc. apply (f_equal length) in Hc. rewrite length_app in Hc. apply Forall_cons in Hall' as [? _]. lia.
Qed.

(** Cut in pieces of nothing, [Slice] of a vector that is not empty never ends. *)
Theorem Slice_by_nothing {T} (dst : list (list T)) (src : list T) (fuel : nat) : src ≠ [] → Slice fuel dst src 0 = None.
Proof.
  intros Hs. unfold Slice. assert (0 < length src)%nat as Hpos by (destruct src; cbn; done || lia).
  enough (∀ pos dst, Slice_loop fuel dst src 0 (length src) pos = None) as -> by done.
  induction fuel as [|fuel IH]; intros pos dst'; [done|]. cbn [Slice_loop].
  rewrite (proj2 (Nat.ltb_lt _ _)) by lia. rewrite Nat.sub_0_r. apply IH.
Qed.

(** ** Numbers in text *)

(** A number as a stream prints it. *)
Definition decimal (z : Z) : bytes := if z <? 0 then byte.of_Z 45 :: dec (Z.to_N (- z)) else dec (Z.to_N z).

Lemma c_str_decimal z : c_str (decimal z) = decimal z.
Proof.
  apply c_str_id. assert (∀ n, byte.of_Z 0 ∉ dec n) as Hn.
  { intros n H. destruct (dec_digits n) as (a & s & E & Hd). rewrite E in H. apply list_elem_of_In in H.
    rewrite forallb_forall in Hd. specialize (Hd _ H). by vm_compute in Hd. }
  unfold decimal. case_match; [|apply Hn]. rewrite not_elem_of_cons. split; [done|apply Hn].
Qed.

Lemma strtol_digits_all n : strtol_digits 10 0 (dec n) = Z.of_N n.
Proof.
  assert (digit_value (byte.of_Z 0) = None) as H0 by reflexivity.
  rewrite <- (strtol_digits_end 10 (dec n) (byte.of_Z 0) [] 0 H0). by apply strtol_dec.
Qed.

Lemma strtoull_dec n : strtoull (dec n) = if 2 ^ 64 <=? Z.of_N n then 2 ^ 64 - 1 else Z.of_N n.
Proof.
  unfold strtoull. pose proof (strtol_digits_all n) as Hn. destruct (dec_digits n) as (a & s & Hd & Hs). rewrite Hd in *.
  cbn [forallb] in Hs. apply andb_true_iff in Hs as [Ha _].
  assert (is_space a = false ∧ (uchar a =? 45) = false ∧ (uchar a =? 43) = false) as (H1 & H2 & H3) by (unfold is_space; lia).
  cbn [skip_spaces]. by rewrite H1, H2, H3, Hn.
Qed.

(** [TypeUtil::Atoi] reads back every number of 64 bits with a sign; a number too large
    for 64 bits without one is read as -1, and the empty text as 0. *)
Theorem Atoi_reads_back (z : Z) : (in_s 64 z → Atoi (decimal z) = z) ∧ (2 ^ 64 ≤ z → Atoi (decimal z) = -1) ∧ Atoi [] = 0.
Proof.
  assert (decimal z ≠ []) as Hne by (unfold decimal; case_match; [done|]; by destruct (dec_digits (Z.to_N z)) as (a & s & -> & _)).
  assert (Atoi (decimal z) = s64 (strtoull (decimal z))) as -> by (unfold Atoi; by rewrite bool_decide_false, c_str_decimal).
  unfold decimal. split_and!; [|intros Hz; rewrite (proj2 (Z.ltb_ge _ _)) by lia|done].
  - intros Hz. unfold in_s in Hz. destruct (Z.ltb_spec z 0) as [Hn|Hn].
    + unfold strtoull. cbn [skip_spaces]. change (is_space (byte.of_Z 45)) with false. cbn iota beta.
      change (uchar (byte.of_Z 45) =? 45) with true. cbn iota beta. rewrite strtol_digits_all, Z2N.id by lia.
      rewrite (proj2 (Z.leb_gt _ _)), Z.opp_involutive by lia. rewrite swrap_wrap by lia. by apply swrap_small.
    + rewrite strtoull_dec, Z2N.id by lia. rewrite (proj2 (Z.leb_gt _ _)) by lia. by apply swrap_small.
  - rewrite strtoull_dec, Z2N.id by lia. by rewrite (proj2 (Z.leb_le _ _)).
Qed.

(** ** Streams *)

Lemma ReadSpeed_loop_ok per size fuel : (0 < per)%nat → ∀ data st, in_good st = true → (length data ≤ size)%nat → (size - length data < fuel)%nat →
  let k := (size - length data)%nat in
  ReadSpeed_loop fuel per data size st = Ret (data ++ take k (rest st)) (mkIn (drop k (rest st)) (k <=? length (rest st))%nat).
Proof.
  intros Hper. induction fuel as [|fuel IH]; intros data st Hg Hd Hf; [lia|]. cbn zeta. cbn [ReadSpeed_loop]. rewrite Hg. cbn [andb].
  destruct (Nat.ltb_spec (length data) size) as [Hlt|Hge]; cbn [negb].
  2:{ assert (size - length data = 0)%nat as -> by lia. rewrite take_0, drop_0, app_nil_r. destruct st as [r g]. cbn in *. by subst. }
  set (k := (size - length data)%nat). set (s := if (per <? k)%nat then per else k).
  assert (0 < s ≤ k)%nat as Hs by (unfold s; destruct (Nat.ltb_spec per k); lia).
  unfold is_read at 1, mbind, M_bind. rewrite Hg. destruct (Nat.leb_spec s (length (rest st))) as [Hr|Hr].
  - rewrite IH; [|done|rewrite length_app, length_take; lia|rewrite length_app, length_take; lia]. cbn [rest].
    assert (size - length (data ++ take s (rest st)) = k - s)%nat as -> by (rewrite length_app, length_take; lia).
    rewrite <- app_assoc, take_take_drop, drop_drop, length_drop. replace (s + (k - s))%nat with k by lia. f_equal. f_equal.
    destruct (Nat.leb_spec (k - s) (length (rest st) - s)), (Nat.leb_spec k (length (rest st))); done || lia.
  - assert (∀ f d, ReadSpeed_loop f per d size (mkIn (drop s (rest st)) false) = Ret d (mkIn (drop s (rest st)) false)) as -> by (by intros []).
    rewrite !take_ge, !drop_ge by lia. f_equal. f_equal. symmetry. apply Nat.leb_gt. lia.
Qed.

Lemma ReadFix_is_one_piece fuel size : ∀ data st, ReadFix_loop fuel data size st = ReadSpeed_loop fuel size data size st.
Proof.
  induction fuel as [|fuel IH]; intros data st; cbn [ReadFix_loop ReadSpeed_loop]; [done|]. case_match; [done|].
  rewrite (proj2 (Nat.ltb_ge _ _)) by lia. unfold mbind, M_bind. destruct (is_read _ _); done.
Qed.

(** Reading a fixed number of bytes at the pace of a speed limit gives what reading them
    at once gives, and leaves the stream the same: the first bytes of the stream, and true
    exactly when there were enough of them. *)
Theorem paced_read_is_read (per size : nat) (st : istream) : (0 < per)%nat →
  ReadFixFromStreamWithSpeed per size st = ReadFixFromStream size st ∧
  (in_good st = true → ReadFixFromStream size st
    = Ret ((size <=? length (rest st))%nat, take size (rest st)) (mkIn (drop size (rest st)) (size <=? length (rest st))%nat)).
Proof.
  intros Hper.
  assert (∀ g fuel p, in_good st = g → (0 < p)%nat → (size < fuel)%nat ∨ p = size ∧ (1 < fuel)%nat →
    ReadSpeed_loop fuel p [] size st = if g then Ret (take size (rest st)) (mkIn (drop size (rest st)) (size <=? length (rest st))%nat) else Ret [] st) as Hone.
  { intros g fuel p Hg Hp [Hf|[-> Hf]]; (destruct g; [|destruct fuel; cbn; by rewrite Hg]).
    - rewrite ReadSpeed_loop_ok by (done || cbn; lia). cbn [length]. by rewrite Nat.sub_0_r.
    - destruct fuel as [|fuel]; [lia|]. cbn [ReadSpeed_loop]. rewrite Hg. cbn [andb length].
      rewrite (proj2 (Nat.ltb_lt _ _)) by lia. cbn [negb]. rewrite Nat.sub_0_r, Nat.ltb_irrefl.
      unfold is_read at 1, mbind, M_bind. rewrite Hg. cbn [app]. destruct fuel as [|fuel]; [lia|]. cbn [ReadSpeed_loop in_good].
      destruct (Nat.leb_spec size (length (rest st))); cbn [andb negb]; [|done].
      by rewrite (proj2 (Nat.ltb_ge _ _)) by (rewrite length_take; lia). }
  assert (ReadFixFromStream size st = if in_good st
    then Ret ((size <=? length (rest st))%nat, take size (rest st)) (mkIn (drop size (rest st)) (size <=? length (rest st))%nat)
    else Ret ((0 =? size)%nat, []) st) as Hread.
  { unfold ReadFixFromStream, mbind, M_bind. rewrite ReadFix_is_one_piece.
    destruct (decide (size = 0)%nat) as [->|]; [cbn; rewrite andb_false_r; destruct st as [r []]; by cbn|].
    rewrite (Hone _ 2%nat size eq_refl) by lia. destruct (in_good st); [|done]. rewrite length_take. unfold mret, M_ret. do 2 f_equal.
    destruct (Nat.leb_spec size (length (rest st))), (Nat.eqb_spec (size `min` length (rest st)) size); done || lia. }
  rewrite Hread. split; [|by intros ->]. unfold ReadFixFromStreamWithSpeed, mbind, M_bind.
  rewrite (Hone _ (S (S size)) per eq_refl) by lia. destruct (in_good st); [|done]. rewrite length_take. unfold mret, M_ret. do 2 f_equal.
  destruct (Nat.leb_spec size (length (rest st))), (Nat.eqb_spec (size `min` length (rest st)) size); done || lia.
Qed.

Lemma WriteSpeed_loop_ok per data fuel : (0 < per)%nat → ∀ os offset, out_good os = true → (offset ≤ length data)%nat → (length data - offset < fuel)%nat →
  let k := (length data - offset)%nat in let r := room_left os in
  WriteSpeed_loop fuel per data offset os = if (k <=? r)%nat then Ret (length data) (mkOut (written os ++ drop offset data) (r - k) true)
    else Ret (offset + ((r / per + 1) * per) `min` k)%nat (mkOut (written os ++ take r (drop offset data)) 0 false).
Proof.
  intros Hper. induction fuel as [|fuel IH]; intros os offset Hg Ho Hf; [lia|]. cbn zeta. cbn [WriteSpeed_loop]. rewrite Hg. cbn [andb].
  destruct (Nat.ltb_spec offset (length data)) as [Hlt|Hge]; cbn [negb].
  2:{ assert (offset = length data) as -> by lia. rewrite Nat.sub_diag, drop_all, app_nil_r, Nat.sub_0_r. destruct os. cbn in *. by subst. }
  set (k := (length data - offset)%nat) in *. set (s := if (per <? k)%nat then per else k). set (r := room_left os).
  assert (0 < s ≤ k ∧ s ≤ per)%nat as [Hs Hsp] by (unfold s; destruct (Nat.ltb_spec per k); lia).
  assert (length (slice offset s data) = s) as Hsl by (apply length_slice; unfold k in Hs; lia).
  unfold os_write at 1, mbind, M_bind. rewrite Hg, Hsl. fold r. destruct (Nat.leb_spec s r) as [Hr|Hr].
  - rewrite IH by (done || lia). cbn [written room_left]. rewrite (take_ge (slice _ _ _)) by lia.
    replace (length data - (offset + s))%nat with (k - s)%nat by lia. rewrite <- app_assoc. unfold slice. rewrite <- drop_drop, take_drop.
    destruct (Nat.leb_spec (k - s) (r - s)), (Nat.leb_spec k r); try lia; [do 2 f_equal; lia|].
    assert (s = per) as Hse by (unfold s; destruct (Nat.ltb_spec per k); lia). f_equal.
    + assert (r / per = (r - s) / per + 1)%nat as ->; [|lia].
      transitivity ((r - s + 1 * per) / per)%nat; [f_equal; lia|apply Nat.div_add; lia].
    + rewrite <- app_assoc, take_take_drop. by replace (s + (r - s))%nat with r by lia.
  - rewrite (proj2 (Nat.leb_gt k r)) by lia. assert (∀ f o w n, WriteSpeed_loop f per data o (mkOut w n false) = Ret o (mkOut w n false)) as -> by (by intros []).
    assert (s = ((r / per + 1) * per) `min` k)%nat as <-.
    { rewrite Nat.div_small by lia. unfold s. destruct (Nat.ltb_spec per k); lia. }
    f_equal. f_equal; [|lia]. f_equal. unfold slice. rewrite take_take. f_equal. lia.
Qed.

(** Writing at the pace of a speed limit answers true when all was written; when the
    device has no room for all, it takes the first bytes, and the answer is true all the
    same if the piece that failed was the last one. *)
Theorem paced_write_reports (per : nat) (data : bytes) (os : ostream) : (0 < per)%nat → out_good os = true →
  ∃ b os', WriteFixToStreamWithSpeed per data os = Ret b os' ∧ written os' = written os ++ take (room_left os) data ∧
    out_good os' = (length data <=? room_left os)%nat ∧
    (b = true ↔ (length data ≤ room_left os ∨ length data ≤ (room_left os / per + 1) * per)%nat).
Proof.
  intros Hper Hg. unfold WriteFixToStreamWithSpeed, mbind, M_bind. rewrite WriteSpeed_loop_ok by (done || lia). rewrite Nat.sub_0_r, drop_0.
  destruct (Nat.leb_spec (length data) (room_left os)); unfold mret, M_ret; do 2 eexists; (split; [reflexivity|]); cbn.
  - split_and!; [by rewrite take_ge|done|]. rewrite Nat.eqb_refl. split; [by left|done].
  - split_and!; [done|done|]. rewrite Nat.eqb_eq. split; [right; lia|intros [|]; lia].
Qed.

(** ** Examples *)

#[local] Instance wrap_around : OverflowMode := true.

(** 7 belongs at index 2 of 1, 5, 9. *)
Lemma BinarySearch_finds_witness : ∃ r, BinarySearch Z.ltb [1; 5; 9] 3 7 tt = Ret r tt ∧ r = -3 ∧ found_at Z.ltb [1; 5; 9] 7 r.
Proof.
  assert (∀ a b c, (a <? b) = true → (a <? c) = true ∨ (c <? b) = true) as Hlt by (intros a b c Hab; rewrite !Z.ltb_lt in *; lia).
  destruct (BinarySearch_finds Z.ltb Hlt [1; 5; 9] 7 tt) as (r & Hr & Hf).
  - intros i j x y Hij Hx Hy. destruct i as [|[|[|i]]], j as [|[|[|j]]]; cbn in *; simplify_eq; (lia || done).
  - cbn. lia.
  - exists r. split; [exact Hr|]. split; [|done]. vm_compute in Hr. by injection Hr.
Defined.

Lemma Slice_partitions_witness : ∃ ps, Slice 8 [[0]] [1; 2; 3; 4; 5; 6; 7] 3 = Some ([[0]] ++ ps) ∧ concat ps = [1; 2; 3; 4; 5; 6; 7] ∧
  ps = [[1; 2; 3]; [4; 5; 6]; [7]].
Proof.
  destruct (Slice_partitions [[0]] [1; 2; 3; 4; 5; 6; 7] 3 ltac:(lia)) as (ps & Hr & Hc & _). exists ps.
  split; [exact Hr|]. split; [done|]. vm_compute in Hr. by injection Hr.
Defined.

Lemma Slice_by_nothing_witness : Slice 1000 [] [1] 0 = None.
Proof. by apply Slice_by_nothing. Defined.

Lemma Atoi_reads_back_witness : Atoi (bs "-42") = -42 ∧ Atoi (bs "18446744073709551616") = -1.
Proof.
  split.
  - refine (proj1 (Atoi_reads_back (-42)) _). unfold in_s. lia.
  - refine (proj1 (proj2 (Atoi_reads_back (2 ^ 64))) _). lia.
Defined.

Lemma paced_read_is_read_witness : ReadFixFromStreamWithSpeed 2 5 (mkIn (bs "abcdefg") true) = Ret (true, bs "abcde") (mkIn (bs "fg") true) ∧
  ReadFixFromStreamWithSpeed 2 5 (mkIn (bs "abcd") true) = Ret (false, bs "abcd") (mkIn [] false).
Proof.
  split.
  - destruct (paced_read_is_read 2 5 (mkIn (bs "abcdefg") true) ltac:(lia)) as [-> Hr]. by apply Hr.
  - destruct (paced_read_is_read 2 5 (mkIn (bs "abcd") true) ltac:(lia)) as [-> Hr]. by apply Hr.
Defined.

(** Four of five bytes fit, and the answer is true. *)
Lemma paced_write_reports_witness : ∃ b os', WriteFixToStreamWithSpeed 3 (bs "abcde") (mkOut [] 4 true) = Ret b os' ∧ b = true ∧
  written os' = bs "abcd" ∧ out_good os' = false.
Proof.
  destruct (paced_write_reports 3 (bs "abcde") (mkOut [] 4 true) ltac:(lia) eq_refl) as (b & os' & Hr & Hw & Hg & Hb).
  exists b, os'. split; [done|]. split; [apply Hb; right; cbn; lia|]. by rewrite Hw, Hg.
Defined.
