(* ===== verification/Ragel.v ===== *)
(** * Scanners generated by Ragel

    The files [*.rl.cc] hold automata in the goto style: a label [st<n>] and a
    [case] for every state, and a label [tr<n>] for every transition with actions.
    Here an automaton is a table with the same labels; [exec] is the run through
    them, in which an action sees the position [p] and changes a store of type
    [S]. *)
From stdpp Require Import list.
From S2P Require Import Prelude Strings CLib.
Local Open Scope Z_scope.

(** ** Tables *)

(** [goto tr<n>] and [goto st<n>]. *)
Inductive label := Tr (n : Z) | St (n : Z).

(** The characters from [from] to [upto] go to [goes]. *)
Record arc := mkArc { from : Z; upto : Z; goes : label }.

(** A [case]: whether it looks at the character itself or at [_widec], and its
    arcs; any other character goes to [st0]. *)
Record row := mkRow { wide_ : bool; arcs : list arc }.
Abbreviation plain := (mkRow false).
Abbreviation wide := (mkRow true).

(** What a label [tr<n>] does: its actions, then [goto st<into>]. *)
Record target (A : Type) := go { on_way : list A; into : Z }.
Arguments go {_}.
Arguments on_way {_}.
Arguments into {_}.

(** A stretch of the generated file. *)
Record part (A : Type) := mkPart { labels : list (Z * target A); rows : list (Z * row) }.
Arguments mkPart {_}.
Arguments labels {_}.
Arguments rows {_}.

Declare Scope ragel_scope.
Delimit Scope ragel_scope with ragel.
Notation "x ~> l" := (mkArc x x l) (at level 60) : ragel_scope.
Notation "x -- y ~> l" := (mkArc x y l) (at level 60, y at next level) : ragel_scope.

Fixpoint assoc {B} (k : Z) (l : list (Z * B)) : option B :=
  match l with
  | [] => None
  | (i, b) :: l => if i =? k then Some b else assoc k l
  end.

Fixpoint find_arc (c : Z) (l : list arc) : option label :=
  match l with
  | [] => None
  | a :: l => if (from a <=? c) && (c <=? upto a) then Some (goes a) else find_arc c l
  end.

(** ** Runs *)

Section machine.
Context {A S : Type}.
Variable table : list (part A).
(** [_widec] of a character. *)
Variable widec : Z → Z.
(** The actions, and those that end in [goto _out]. *)
Variable act : A → Z → S → S.
Variable breaks : A → bool.

Definition row_of (cs : Z) : option row := assoc cs (flat_map rows table).
Definition follow (l : label) : option (target A) :=
  match l with
  | St n => Some (go [] n)
  | Tr n => assoc n (flat_map labels table)
  end.

(** The transition of state [cs] on a character, [None] for [st0]. *)
Definition next (cs : Z) (b : byte) : option (target A) :=
  r ← row_of cs; l ← find_arc (if wide_ r then widec (schar b) else schar b) (arcs r); follow l.

Definition run_actions (acts : list A) (p : Z) (s : S) : S := foldl (λ s a, act a p s) s acts.

(** From the [case] of [cs] at position [p] on: the state and the position at
    [_out], the store, and whether the run was left before the end of the input. *)
Fixpoint exec (cs p : Z) (data : bytes) (s : S) : Z * Z * S * bool :=
  match data with
  | [] => (cs, p, s, false)
  | b :: data =>
    match next cs b with
    | None => (0, p, s, true)
    | Some t =>
      let s := run_actions (on_way t) p s in
      if existsb breaks (on_way t) then (into t, p + 1, s, true) else exec (into t) (p + 1) data s
    end
  end.

(** The run reads all of [data] and arrives in [cs']. *)
Definition reads (cs p : Z) (s : S) (data : bytes) (cs' : Z) (s' : S) : Prop :=
  exec cs p data s = (cs', p + Z.of_nat (length data), s', false).

Lemma exec_app cs p a b s : exec cs p (a ++ b) s =
  let '(cs', p', s', out) := exec cs p a s in
  if out : bool then (cs', p', s', true) else exec cs' p' b s'.
Proof.
  revert cs p s. induction a as [|c a IH]; intros cs p s; cbn; [by destruct b|].
  destruct (next cs c) as [t|]; [|done]. by destruct (existsb breaks (on_way t)).
Qed.

(** A scan in pieces is a scan of the whole, as far as the automaton goes. *)
Lemma exec_reads cs p s a cs' s' b : reads cs p s a cs' s' →
  exec cs p (a ++ b) s = exec cs' (p + Z.of_nat (length a)) b s'.
Proof. intros H. by rewrite exec_app, H. Qed.

Lemma reads_app cs p s a cs1 s1 b cs2 s2 : reads cs p s a cs1 s1 →
  reads cs1 (p + Z.of_nat (length a)) s1 b cs2 s2 → reads cs p s (a ++ b) cs2 s2.
Proof. unfold reads. intros Ha Hb. rewrite exec_app, Ha, Hb, length_app. do 3 f_equal. lia. Qed.

Lemma reads_nil cs p s : reads cs p s [] cs s.
Proof. unfold reads. cbn. do 3 f_equal. lia. Qed.

Lemma reads_one cs p s b t : next cs b = Some t → existsb breaks (on_way t) = false →
  reads cs p s [b] (into t) (run_actions (on_way t) p s).
Proof. unfold reads. cbn. by intros -> ->. Qed.

Lemma reads_cons cs p s b data t cs' s' : next cs b = Some t → existsb breaks (on_way t) = false →
  reads (into t) (p + 1) (run_actions (on_way t) p s) data cs' s' → reads cs p s (b :: data) cs' s'.
Proof. intros H1 H2 H3. eapply (reads_app _ _ _ [b] _ _ data); [by apply reads_one|exact H3]. Qed.

(** ** Invariants *)

(** Every transition of the table. *)
Definition edges_of (r : Z * row) : list (Z * target A) :=
  omap (λ a, pair r.1 <$> follow (goes a)) (arcs r.2).
Definition edges : list (Z * target A) := flat_map edges_of (flat_map rows table).

Lemma assoc_elem {B} k (l : list (Z * B)) b : assoc k l = Some b → (k, b) ∈ l.
Proof.
  induction l as [|[i x] l IH]; cbn; [done|]. destruct (Z.eqb_spec i k) as [->|]; intros H.
  - injection H as ->. by left.
  - right. by apply IH.
Qed.

Lemma find_arc_elem c l x : find_arc c l = Some x → ∃ a, a ∈ l ∧ goes a = x.
Proof.
  induction l as [|a l IH]; cbn; [done|]. destruct (_ && _); intros H.
  - injection H as <-. exists a. split; [by left|done].
  - destruct (IH H) as (a' & ? & ?). exists a'. split; [by right|done].
Qed.

Lemma next_edge cs b t : next cs b = Some t → (cs, t) ∈ edges.
Proof.
  unfold next. intros (r & Hr & (l & Hl & Ht)%bind_Some)%bind_Some.
  apply assoc_elem in Hr. apply find_arc_elem in Hl as (a & Ha & <-).
  apply list_elem_of_In, in_flat_map. exists (cs, r). split; [by apply list_elem_of_In|].
  apply list_elem_of_In, list_elem_of_omap. exists a. split; [done|]. cbn. by rewrite Ht.
Qed.

(** The arc behind a transition, and the characters it is for. *)
Lemma next_arc cs b t : next cs b = Some t → ∃ r a, (cs, r) ∈ flat_map rows table ∧ a ∈ arcs r ∧
  follow (goes a) = Some t ∧ from a ≤ (if wide_ r then widec (schar b) else schar b) ≤ upto a.
Proof.
  unfold next. intros (r & Hr & (l & Hl & Ht)%bind_Some)%bind_Some. exists r.
  apply assoc_elem in Hr. set (c := if wide_ r then _ else _) in *. clearbody c.
  assert (∃ a, a ∈ arcs r ∧ goes a = l ∧ from a ≤ c ≤ upto a) as (a & Ha & <- & Hc); [|by exists a].
  clear Hr Ht. induction (arcs r) as [|a l' IH]; cbn in Hl; [done|].
  destruct ((from a <=? c) && (c <=? upto a)) eqn:E.
  - injection Hl as <-. exists a. split_and!; [by left|done|lia..].
  - destruct (IH Hl) as (a' & ? & ? & ?). exists a'. split_and!; [by right|done|lia..].
Qed.

(** What holds along a run, [I] before every character, [J] where it is left. *)
Lemma exec_inv (I J : Z → Z → S → Prop) n :
  (∀ cs t p s, (cs, t) ∈ edges → 0 ≤ p < n → I cs p s →
     (if existsb breaks (on_way t) then J else I) (into t) (p + 1) (run_actions (on_way t) p s)) →
  (∀ cs p s, I cs p s → J 0 p s) →
  ∀ data cs p s, p + Z.of_nat (length data) = n → 0 ≤ p → I cs p s →
  let '(cs', p', s', out) := exec cs p data s in p ≤ p' ≤ n ∧ (if out : bool then J else I) cs' p' s'.
Proof.
  intros Hstep H0 data. induction data as [|b data IH]; intros cs p s Hn Hp HI; cbn [length] in Hn; cbn [exec].
  { split; [lia|done]. }
  destruct (next cs b) as [t|] eqn:Ht; [|split; [lia|by eapply H0]].
  pose proof (Hstep _ _ p s (next_edge _ _ _ Ht) ltac:(lia) HI) as Hs.
  destruct (existsb breaks (on_way t)); [split; [lia|done]|].
  specialize (IH (into t) (p + 1) _ ltac:(lia) ltac:(lia) Hs).
  destruct (exec _ _ _ _) as [[[cs' p'] s'] out]. destruct IH. split; [lia|done].
Qed.

(** The store has no influence on the states. *)
Lemma exec_states cs p s data cs2 p2 s2 : cs = cs2 →
  let '(c1, p1, _, o1) := exec cs p data s in let '(c2, p2', _, o2) := exec cs2 p2 data s2 in
  c1 = c2 ∧ o1 = o2 ∧ p1 - p = p2' - p2.
Proof.
  intros <-. revert cs p s p2 s2. induction data as [|b data IH]; intros cs p s p2 s2; cbn.
  { split_and!; [done..|lia]. }
  destruct (next cs b) as [t|]; [|split_and!; [done..|lia]]. destruct (existsb _ _); [split_and!; [done..|lia]|].
  specialize (IH (into t) (p + 1) (run_actions (on_way t) p s) (p2 + 1) (run_actions (on_way t) p2 s2)).
  destruct (exec _ (p + 1) _ _) as [[[? ?] ?] ?]. destruct (exec _ (p2 + 1) _ _) as [[[? ?] ?] ?].
  destruct IH as (? & ? & ?). split_and!; [done..|lia].
Qed.

(** A run that did not move is where it was, or in the error state. *)
Lemma exec_still data cs p s : let '(cs', p', _, _) := exec cs p data s in p ≤ p' ∧ (p' = p → cs' = cs ∨ cs' = 0).
Proof.
  revert cs p s. induction data as [|b data IH]; intros cs p s; cbn; [split; [lia|by left]|].
  destruct (next cs b) as [t|]; [|split; [lia|by right]]. destruct (existsb _ _); [lia|].
  specialize (IH (into t) (p + 1) (run_actions (on_way t) p s)).
  destruct (exec _ (p + 1) _ _) as [[[? ?] ?] ?]. lia.
Qed.

(** ** Loops *)

(** On the characters of [P] the state [cs] goes to [cs'] and nothing else happens. *)
Definition steps (cs cs' : Z) (P : byte → bool) : Prop := ∀ b, P b = true → next cs b = Some (go [] cs').

Lemma reads_steps cs cs' P b p s : steps cs cs' P → P b = true → reads cs p s [b] cs' s.
Proof. intros H Hb. by apply (reads_one cs p s b (go [] cs')), eq_refl; apply H. Qed.

Lemma reads_loop cs P data p s : steps cs cs P → forallb P data = true → reads cs p s data cs s.
Proof.
  intros H. revert p. induction data as [|b data IH]; intros p Hd; [apply reads_nil|].
  apply andb_true_iff in Hd as [Hb Hd]. by apply (reads_cons _ _ _ _ _ (go [] cs)), IH; [apply H|..].
Qed.

(** A fixed text without actions. *)
Fixpoint silent (cs : Z) (s : bytes) : option Z :=
  match s with
  | [] => Some cs
  | b :: s => t ← next cs b; match on_way t with [] => silent (into t) s | _ => None end
  end.

Lemma silent_reads cs s cs' : silent cs s = Some cs' → ∀ p x, reads cs p x s cs' x.
Proof.
  revert cs. induction s as [|b s IH]; intros cs H p x; cbn in H; [injection H as ->; apply reads_nil|].
  apply bind_Some in H as ([acts d] & Ht & H). cbn in H. destruct acts; [|done].
  by eapply reads_cons; [exact Ht|done|apply IH].
Qed.

(** How much of the word [w] has been spelled, in any case, after another character. *)
Definition spells (w : bytes) (o : option nat) (b : byte) : option nat :=
  i ← o; if decide (w !! i = Some (tolower b)) then Some (i + 1)%nat else None.

(** Text that stays in the states [C] and does nothing, while [spelled] tells from the
    state how much of a word it spells. *)
Definition class_ok (C : list Z) (P : byte → bool) (w : bytes) (spelled : Z → option nat) : Prop :=
  ∀ c b, c ∈ C → P b = true → ∃ c', next c b = Some (go [] c') ∧ c' ∈ C ∧ spelled c' = spells w (spelled c) b.

Lemma class_silent C P w spelled : class_ok C P w spelled → ∀ s c, c ∈ C → forallb P s = true →
  ∃ c', silent c s = Some c' ∧ c' ∈ C ∧ spelled c' = foldl (spells w) (spelled c) s.
Proof.
  intros HC s. induction s as [|b s IH]; intros c Hc Hs; [by exists c|].
  cbn in Hs. apply andb_true_iff in Hs as [Hb Hs]. destruct (HC c b Hc Hb) as (c1 & Hn & Hc1 & Hs1).
  destruct (IH c1 Hc1 Hs) as (c' & Hr & Hc' & Hs'). exists c'. split; [|split; [done|by rewrite Hs', Hs1]].
  cbn. rewrite Hn. exact Hr.
Qed.

Lemma spells_none w s : foldl (spells w) None s = None.
Proof. by induction s. Qed.

Lemma spells_all w s i : foldl (spells w) (Some i) s = Some (length w) ↔ (i ≤ length w)%nat ∧ map tolower s = drop i w.
Proof.
  revert i. induction s as [|b s IH]; intros i; cbn [foldl].
  - split.
    + intros [= ->]. by rewrite drop_ge.
    + intros [Hi Hd]. f_equal. symmetry in Hd. apply (f_equal length) in Hd. rewrite length_drop in Hd. cbn in Hd. lia.
  - unfold spells at 2. cbn [mbind option_bind]. case_decide as Hw.
    + rewrite IH. cbn [map]. rewrite (drop_S _ _ _ Hw), Nat.add_1_r. split; intros [Hl Hd]; [split; [|by rewrite Hd]|].
      * apply lookup_lt_Some in Hw. lia.
      * injection Hd as Hd. split; [|done]. apply lookup_lt_Some in Hw. lia.
    + rewrite spells_none. split; [done|]. intros [Hi Hd]. destruct Hw. cbn [map] in Hd.
      rewrite <- (Nat.add_0_r i), <- lookup_drop, <- Hd. done.
Qed.

Definition percent : byte := byte.of_Z 37.

(** Characters of [P], and percent signs with two hexadecimal digits. *)
Fixpoint pct_text (P : byte → bool) (s : bytes) : bool :=
  match s with
  | [] => true
  | b :: s =>
    if bool_decide (b = percent) then
      match s with
      | x :: y :: s => is_xdigit x && is_xdigit y && pct_text P s
      | _ => false
      end
    else P b && pct_text P s
  end.

(** Such text is read by a loop of three states. *)
Lemma reads_pct cs c1 c2 P : steps cs cs P → steps cs c1 (λ b, bool_decide (b = percent)) →
  steps c1 c2 is_xdigit → steps c2 cs is_xdigit → ∀ data p s, pct_text P data = true → reads cs p s data cs s.
Proof.
  intros HP H0 H1 H2 data. remember (length data) as n eqn:Hn. revert data Hn.
  induction (lt_wf n) as [n _ IH]. intros [|b data] -> p s Hd; [apply reads_nil|]. cbn in Hd.
  case_bool_decide as Hb.
  - destruct data as [|x [|y data]]; [done..|]. rewrite !andb_true_iff in Hd. destruct Hd as [[Hx Hy] Hd].
    apply (reads_cons _ _ _ _ _ (go [] c1)); [by apply H0, bool_decide_eq_true|done|].
    apply (reads_cons _ _ _ _ _ (go [] c2)); [by apply H1|done|].
    apply (reads_cons _ _ _ _ _ (go [] cs)); [by apply H2|done|]. eapply IH; [|done|done]. cbn. lia.
  - apply andb_true_iff in Hd as [Hc Hd]. apply (reads_cons _ _ _ _ _ (go [] cs)); [by apply HP|done|].
    eapply IH; [|done|done]. cbn. lia.
Qed.

(** From [c] a character of [P], or a percent sign with two hexadecimal digits, leads to
    a state of [C]; the actions [acts] are at its first character. *)
Definition pct_goes (P : byte → bool) (acts : list A) (C : list Z) (c : Z) : Prop :=
  (∀ b, P b = true → ∃ c', next c b = Some (go acts c') ∧ c' ∈ C) ∧
  ∃ c1 c2, next c percent = Some (go acts c1) ∧ steps c1 c2 is_xdigit ∧
    ∀ b, is_xdigit b = true → ∃ c', next c2 b = Some (go [] c') ∧ c' ∈ C.

Lemma pct_unit P P1 acts C c b data p s : pct_goes P1 acts C c → existsb breaks acts = false →
  pct_text P (b :: data) = true → (P b = true → P1 b = true) → ∃ one rest c', b :: data = one ++ rest ∧ (length rest <= length data)%nat ∧
    pct_text P rest = true ∧ c' ∈ C ∧ reads c p s one c' (run_actions acts p s).
Proof.
  intros [HP (c1 & c2 & H0 & H1 & H2)] Hbr Hd HP1. cbn in Hd. case_bool_decide as Hb.
  - subst b. destruct data as [|x [|y data]]; [done..|]. rewrite !andb_true_iff in Hd. destruct Hd as [[Hx Hy] Hd].
    destruct (H2 y Hy) as (c' & Hn & Hc'). exists [percent; x; y], data, c'. split_and!; [done|cbn; lia|done|done|].
    apply (reads_cons _ _ _ _ _ _ _ _ H0 Hbr).
    apply (reads_cons _ _ _ _ _ (go [] c2)); [by apply H1|done|]. by apply (reads_one _ _ _ _ _ Hn).
  - apply andb_true_iff in Hd as [Hc Hd]. destruct (HP b (HP1 Hc)) as (c' & Hn & Hc').
    exists [b], data, c'. split_and!; [done|lia|done|done|]. by apply (reads_one _ _ _ _ _ Hn).
Qed.

Lemma class_pct P C : (∀ c, c ∈ C → pct_goes P [] C c) → ∀ data c p s, c ∈ C → pct_text P data = true →
  ∃ c', c' ∈ C ∧ reads c p s data c' s.
Proof.
  intros HC data. remember (length data) as n eqn:Hn. revert data Hn.
  induction (lt_wf n) as [n _ IH]. intros [|b data] -> c p s Hc Hd.
  { exists c. split; [done|apply reads_nil]. }
  destruct (pct_unit P P [] C c b data p s (HC c Hc) eq_refl Hd id) as (one & rest & c1 & E & Hl & Hr & Hc1 & H1).
  edestruct (IH (length rest)) as (c' & Hc' & H2); [cbn; lia|done|exact Hc1|exact Hr|].
  exists c'. split; [done|]. rewrite E. by eapply reads_app.
Qed.

(** The first character may be confined to [P1]. *)
Lemma enters_pct P P1 acts C c0 : pct_goes P1 acts C c0 → existsb breaks acts = false → (∀ c, c ∈ C → pct_goes P [] C c) →
  ∀ b data p s, pct_text P (b :: data) = true → (P b = true → P1 b = true) → ∃ c', c' ∈ C ∧ reads c0 p s (b :: data) c' (run_actions acts p s).
Proof.
  intros H0 Hbr HC b data p s Hd Hb.
  destruct (pct_unit P P1 acts C c0 b data p s H0 Hbr Hd Hb) as (one & rest & c1 & E & Hl & Hr & Hc1 & H1).
  destruct (class_pct P C HC rest c1 (p + Z.of_nat (length one)) (run_actions acts p s) Hc1 Hr) as (c' & Hc' & H2).
  exists c'. split; [done|]. rewrite E. by eapply reads_app.
Qed.
End machine.

(** ** Checking tables *)

(** A property of all characters, by evaluation. *)
Definition all_bytes : bytes := map (λ n, byte.of_Z (Z.of_nat n)) (seq 0 256).

Lemma in_all_bytes (b : byte) : b ∈ all_bytes.
Proof.
  apply list_elem_of_fmap. exists (Z.to_nat (uchar b)). pose proof (byte.unsigned_range b).
  split; [|apply elem_of_seq; lia]. by rewrite Z2Nat.id, byte.of_Z_unsigned by lia.
Qed.

Lemma check_bytes (P : byte → bool) : forallb P all_bytes = true → ∀ b, P b = true.
Proof. intros H b. rewrite forallb_forall in H. apply H, list_elem_of_In, in_all_bytes. Qed.

#[export] Instance target_eq_dec {A} `{EqDecision A} : EqDecision (target A).
Proof. solve_decision. Defined.

Definition target_is {A} `{EqDecision A} (o : option (target A)) (t : target A) : bool := bool_decide (o = Some t).

(** Transitions that agree for a class of characters. *)
Lemma check_next {A} `{EqDecision A} (f : byte → option (target A)) P t :
  forallb (λ b, implb (P b) (target_is (f b) t)) all_bytes = true → ∀ b, P b = true → f b = Some t.
Proof.
  intros H b Hb. pose proof (check_bytes _ H b) as Hc. cbn in Hc. rewrite Hb in Hc.
  by apply bool_decide_eq_true in Hc.
Qed.

(** Transitions into the states [C] that do [acts], on the characters of [P]; [spelled]
    goes on from [o]. *)
Definition steps_into {A} `{EqDecision A} (f : byte → option (target A)) (acts : list A) (C : list Z) (P : byte → bool)
    (w : bytes) (o : option nat) (spelled : Z → option nat) : bool :=
  forallb (λ b, implb (P b) match f b with
    | Some t => bool_decide (on_way t = acts) && bool_decide (into t ∈ C) && bool_decide (spelled (into t) = spells w o b)
    | None => false
    end) all_bytes.

Lemma steps_into_ok {A} `{EqDecision A} (f : byte → option (target A)) acts C P w o spelled :
  steps_into f acts C P w o spelled = true →
  ∀ b, P b = true → ∃ c', f b = Some (go acts c') ∧ c' ∈ C ∧ spelled c' = spells w o b.
Proof.
  intros H b Hb. pose proof (check_bytes _ H b) as Hc. cbn in Hc. rewrite Hb in Hc. cbn in Hc.
  destruct (f b) as [[a c']|]; [|done]. rewrite !andb_true_iff, !bool_decide_eq_true in Hc. cbn in Hc.
  destruct Hc as [[-> Hin] Hs]. by exists c'.
Qed.

Lemma class_check {A} `{EqDecision A} table widec C P w spelled :
  forallb (λ c, steps_into (next (A:=A) table widec c) [] C P w (spelled c) spelled) C = true →
  class_ok table widec C P w spelled.
Proof.
  intros H c b Hc Hb. rewrite forallb_forall in H. apply (steps_into_ok _ _ _ P); [|done]. by apply H, list_elem_of_In.
Qed.

Lemma next_all {A} `{EqDecision A} table widec C b t :
  forallb (λ c, target_is (next (A:=A) table widec c b) t) C = true → ∀ c, c ∈ C → next table widec c b = Some t.
Proof. intros H c Hc. rewrite forallb_forall in H. apply list_elem_of_In, H in Hc. by apply bool_decide_eq_true in Hc. Qed.

Definition pct_check {A} `{EqDecision A} (f : Z → byte → option (target A)) P acts C c : bool :=
  let goes acts C c P := steps_into (f c) acts C P [] None (λ _, None) in
  goes acts C c P &&
  match f c percent with
  | Some t => bool_decide (on_way t = acts) &&
    match f (into t) (byte.of_Z 48) with
    | Some t2 => goes [] [into t2] (into t) is_xdigit && goes [] C (into t2) is_xdigit
    | None => false
    end
  | None => false
  end.

Lemma pct_check_ok {A} `{EqDecision A} table widec P acts C c :
  pct_check (next (A:=A) table widec) P acts C c = true → pct_goes table widec P acts C c.
Proof.
  unfold pct_check. rewrite andb_true_iff. intros [H1 H2]. split.
  { intros b Hb. destruct (steps_into_ok _ _ _ _ _ _ _ H1 b Hb) as (c' & ? & ? & _). by exists c'. }
  destruct (next table widec c percent) as [[a c1]|]; [|done]. cbn [on_way into] in H2.
  rewrite andb_true_iff, bool_decide_eq_true in H2. destruct H2 as [-> H2].
  destruct (next table widec c1 (byte.of_Z 48)) as [[a2 c2]|]; [|done]. cbn [on_way into] in H2.
  apply andb_true_iff in H2 as [H2 H3]. exists c1, c2. split_and!; [done| |].
  - intros b Hb. destruct (steps_into_ok _ _ _ _ _ _ _ H2 b Hb) as (c' & Hn & Hc' & _). apply list_elem_of_singleton in Hc'.
    by rewrite Hn, Hc'.
  - intros b Hb. destruct (steps_into_ok _ _ _ _ _ _ _ H3 b Hb) as (c' & ? & ? & _). by exists c'.
Qed.

(** ** Offsets *)

(** A token in a buffer of [n] bytes. *)
Definition inside (n off len : Z) : Prop := 0 ≤ off ∧ 0 ≤ len ∧ off + len ≤ n.

Lemma distance_inside at_ p n : 0 ≤ at_ ≤ p → p ≤ n < 2 ^ 31 → u64 (p - at_) = p - at_ ∧ inside n at_ (u64 (p - at_)).
Proof. intros H1 H2. unfold inside. rewrite wrap_small by (unfold in_u; lia). lia. Qed.
