(* ===== verification/Hashes.v ===== *)
(** * Hash functions of [server_frame/util/hash_util.cc]

    MurmurHash3 (32 bits), the multiplicative hash, the digests and HMAC.  MD5
    and SHA-1 are OpenSSL's: a function of the bytes hashed, which is a
    parameter of the definitions that use it. *)
From S2P Require Import Prelude ByteBuffer ByteCodec Encodings Strings.
From coqutil Require Import Word.LittleEndianList.
Local Open Scope Z_scope.

(** ** Operations *)

(** The macro [ROTL], on 32 bits. *)
Definition ROTL (x r : Z) : Z := Z.lor (u32 (Z.shiftl x r)) (Z.shiftr x (32 - r)).

Definition fmix32 (h : Z) : Z :=
  let h := Z.lxor h (Z.shiftr h 16) in
  let h := u32 (h * 0x85ebca6b) in
  let h := Z.lxor h (Z.shiftr h 13) in
  let h := u32 (h * 0xc2b2ae35) in
  let h := Z.lxor h (Z.shiftr h 16) in
  h.

Definition seed1 : Z := 0xcc9e2d51.
Definition seed2 : Z := 0x1b873593.

(** What is done to a block before it is mixed in, and mixing it in. *)
Definition scramble (s : Z) : Z := u32 (ROTL (u32 (s * seed1)) 15 * seed2).
Definition mix (h s : Z) : Z := u32 (u32 (ROTL (Z.lxor h s) 13 * 5) + 0xe6546b64).

Section murmur.
Context `{HostOrder}.

(** [ptr[i]]: the [i]-th four bytes as an integer of the host. *)
Definition block_at (str : bytes) (i : nat) : Z := value_of YGW_BYTE_ORDER (slice (4 * i) 4 str).

(** The [for (int i = 0; i < blk; i++)] loop. *)
Fixpoint block_loop (str : bytes) (n i : nat) (h : Z) : Z :=
  match n with
  | O => h
  | S n => block_loop str n (S i) (mix h (scramble (block_at str i)))
  end.

(** The [switch(len & 3)] with its fall-through cases. *)
Definition tail_value (tail : bytes) (k : nat) : Z :=
  let byte_at i := uchar (nth i tail (byte.of_Z 0)) in
  let s := 0 in
  let s := if (k =? 3)%nat then Z.lor s (Z.shiftl (byte_at 2%nat) 16) else s in
  let s := if (2 <=? k)%nat then Z.lor s (Z.shiftl (byte_at 1%nat) 8) else s in
  if (1 <=? k)%nat then Z.lor s (byte_at 0%nat) else s.

(** [murmur3_hash(data, size, seed)] on [size] bytes; [size] fits an [int]. *)
Definition murmur3_bytes (str : bytes) (seed : Z) : Z :=
  let len := length str in
  let blk := (len / 4)%nat in
  let h := block_loop str blk 0 seed in
  let k := (len mod 4)%nat in
  let h := if (k =? 0)%nat then h
           else Z.lxor h (scramble (tail_value (drop (blk * 4) str) k)) in
  fmix32 (Z.lxor h (Z.of_nat len)).

(** The overloads: [None] is a null pointer. *)
Definition murmur3_hash_data (data : option bytes) (seed : Z) : Z :=
  match data with None => 0 | Some str => murmur3_bytes str seed end.

(** A C string is hashed up to its NUL. *)
Definition murmur3_hash (str : option bytes) (seed : Z) : Z :=
  match str with None => 0 | Some str => murmur3_bytes (c_str str) seed end.

Definition murmur3_hash64_data (str : option bytes) (seed seed2 : Z) : Z :=
  Z.lor (u64 (Z.shiftl (murmur3_hash_data str seed) 32)) (murmur3_hash_data str seed2).
Definition murmur3_hash64 (str : option bytes) (seed seed2 : Z) : Z :=
  Z.lor (u64 (Z.shiftl (murmur3_hash str seed) 32)) (murmur3_hash str seed2).
End murmur.

(** [h = 31 * h + *str], the character converted from plain [char]. *)
Definition quick_step (h : Z) (c : byte) : Z := u32 (u32 (31 * h) + u32 (schar c)).

Definition quick_hash (str : bytes) : Z := foldl quick_step 0 (c_str str).

(** The overload with a size never moves its pointer. *)
Fixpoint quick_hash_loop (str : bytes) (n : nat) (h : Z) : Z :=
  match n with
  | O => h
  | S n => quick_hash_loop str n (quick_step h (nth 0 str (byte.of_Z 0)))
  end.

Definition quick_hash_data (tmp : bytes) : Z := quick_hash_loop tmp (length tmp) 0.

(** ** Digests *)

(** OpenSSL's [Init], [Update]s and [Final]: the digest of all the bytes given
    to the updates. *)
Section digests.
Variables MD5 SHA1 : bytes → bytes.

Definition md5sum (data : bytes) : bytes := MD5 data.
Definition sha1sum (data : bytes) : bytes := SHA1 data.
Definition md5 (data : bytes) : bytes := hexstring_from_data (take 16 (md5sum data)).
Definition sha1 (data : bytes) : bytes := hexstring_from_data (take 20 (sha1sum data)).
End digests.

Section hmac.
Variable Digest : bytes → bytes.
Variables B L : nat.

(** [xorStruct]. *)
Definition xor_char (value : Z) (c : byte) : byte := byte.of_Z (Z.lxor (uchar c) value).

(** [append(B - keyLocal.size(), '\0')]: the count wraps around, and [append]
    throws, when the key is longer than a block; a digest of length [L <= B]
    is not. *)
Definition pad_key (keyLocal : bytes) : option bytes :=
  if (length keyLocal <=? B)%nat
  then Some (keyLocal ++ repeat (byte.of_Z 0) (B - length keyLocal)) else None.

Definition hmac (text key : bytes) : option bytes :=
  keyLocal ← pad_key (if (B <? length key)%nat then Digest key else key);
  let ipad := map (xor_char 0x36) keyLocal in
  let opad := map (xor_char 0x5c) keyLocal in
  let result := Digest (take B ipad ++ text) in
  Some (Digest (take B opad ++ take L result)).
End hmac.

(** ** Bijections of the 32-bit integers *)

(** A right inverse on the [w]-bit integers makes a function injective there. *)
Definition inverts (f g : Z → Z) : Prop := ∀ x, in_u 32 x → g (f x) = x.

Lemma inverts_inj f g x y : inverts f g → in_u 32 x → in_u 32 y → f x = f y → x = y.
Proof. intros Hg Hx Hy Hf. rewrite <- (Hg x Hx), <- (Hg y Hy). by rewrite Hf. Qed.

(** Multiplication by an odd number, undone by its inverse modulo [2 ^ 32]. *)
Lemma mul_inverts a b : (a * b) mod 2 ^ 32 = 1 → inverts (λ x, u32 (x * a)) (λ x, u32 (x * b)).
Proof.
  intros Hab x Hx. unfold wrap. rewrite Zmult_mod_idemp_l, <- Z.mul_assoc, <- Zmult_mod_idemp_r, Hab.
  rewrite Z.mul_1_r. by apply Z.mod_small.
Qed.

Lemma add_inverts a : inverts (λ x, u32 (x + a)) (λ x, u32 (x - a)).
Proof.
  intros x Hx. unfold wrap. rewrite Zminus_mod_idemp_l. replace (x + a - a) with x by lia.
  by apply Z.mod_small.
Qed.

Lemma in_u_lxor w a b : 0 ≤ w → in_u w a → in_u w b → in_u w (Z.lxor a b).
Proof.
  intros Hw Ha Hb. unfold in_u in *. split; [apply Z.lxor_nonneg; lia|].
  assert (Z.lxor a b = wrap w (Z.lxor a b)) as ->; [|by apply wrap_range].
  unfold wrap. rewrite <- Z.land_ones by done. apply Z.bits_inj'. intros k Hk.
  rewrite Z.land_spec, Z.testbit_ones_nonneg, Z.lxor_spec by lia.
  destruct (Z.ltb_spec k w); [by rewrite andb_true_r|].
  by rewrite !(testbit_above w) by done.
Qed.

Lemma in_u_shiftr w a k : 0 ≤ k → in_u w a → in_u w (Z.shiftr a k).
Proof.
  unfold in_u. intros Hk Ha. rewrite Z.shiftr_div_pow2 by done.
  assert (0 < 2 ^ k) by lia. split; [apply Z.div_pos; lia|].
  apply Z.div_lt_upper_bound; [lia|]. nia.
Qed.

(** Exclusive or with itself shifted right by at least half the width. *)
Lemma xorshift_half_inverts k : 16 ≤ k →
  inverts (λ x, Z.lxor x (Z.shiftr x k)) (λ x, Z.lxor x (Z.shiftr x k)).
Proof.
  intros Hk x Hx. cbv beta. rewrite Z.shiftr_lxor, Z.shiftr_shiftr by lia.
  assert (Z.shiftr x (k + k) = 0) as ->.
  { unfold in_u in Hx. rewrite Z.shiftr_div_pow2 by lia. apply Z.div_small.
    pose proof (Z.pow_le_mono_r 2 32 (k + k)). lia. }
  by rewrite Z.lxor_0_r, Z.lxor_assoc, Z.lxor_nilpotent, Z.lxor_0_r.
Qed.

(** By 13 of 32 bits it takes two more terms. *)
Lemma xorshift13_inverts :
  inverts (λ x, Z.lxor x (Z.shiftr x 13))
    (λ y, Z.lxor y (Z.lxor (Z.shiftr y 13) (Z.shiftr y 26))).
Proof.
  intros x Hx. cbv beta. rewrite !Z.shiftr_lxor, !Z.shiftr_shiftr by lia.
  change (13 + 13) with 26. change (13 + 26) with 39.
  assert (Z.shiftr x 39 = 0) as ->.
  { unfold in_u in Hx. rewrite Z.shiftr_div_pow2 by lia. apply Z.div_small. lia. }
  rewrite Z.lxor_0_r. apply Z.bits_inj'. intros i Hi. rewrite !Z.lxor_spec.
  by destruct (Z.testbit x i), (Z.testbit (Z.shiftr x 13) i), (Z.testbit (Z.shiftr x 26) i).
Qed.

(** A rotation is undone by the complementary one. *)
Lemma ROTL_bits x r i : 0 < r < 32 → in_u 32 x → 0 ≤ i →
  Z.testbit (ROTL x r) i = if i <? 32 then Z.testbit x ((i - r) mod 32) else false.
Proof.
  intros Hr Hx Hi. unfold ROTL, wrap. rewrite Z.lor_spec.
  destruct (Z.ltb_spec i 32).
  - rewrite Z.mod_pow2_bits_low, Z.shiftl_spec, Z.shiftr_spec by lia.
    destruct (decide (i < r)).
    + rewrite (Z.testbit_neg_r x (i - r)) by lia. simpl.
      replace ((i - r) mod 32) with (i + (32 - r)); [done|].
      apply Z.mod_unique with (-1); lia.
    + rewrite Z.mod_small by lia. rewrite (testbit_above 32 x (i + (32 - r))) by (done || lia).
      by rewrite orb_false_r.
  - rewrite Z.mod_pow2_bits_high, Z.shiftr_spec by lia. simpl.
    apply (testbit_above 32); [done|lia].
Qed.

Lemma ROTL_range x r : 0 < r < 32 → in_u 32 x → in_u 32 (ROTL x r).
Proof.
  intros Hr Hx. unfold ROTL. apply in_u_lor; [lia|by apply wrap_range|].
  apply in_u_shiftr; [lia|done].
Qed.

Lemma ROTL_inverts r : 0 < r < 32 → inverts (λ x, ROTL x r) (λ x, ROTL x (32 - r)).
Proof.
  intros Hr x Hx. apply Z.bits_inj'. intros i Hi.
  rewrite ROTL_bits; [|lia|by apply ROTL_range|done].
  destruct (Z.ltb_spec i 32).
  - pose proof (Z.mod_pos_bound (i - (32 - r)) 32 ltac:(lia)).
    rewrite ROTL_bits by (done || lia). rewrite (proj2 (Z.ltb_lt _ 32)) by lia.
    rewrite Zminus_mod_idemp_l. f_equal.
    replace (i - (32 - r) - r) with (i + (-1) * 32) by lia.
    rewrite Z_mod_plus_full. by apply Z.mod_small.
  - symmetry. by apply (testbit_above 32).
Qed.

Lemma lxor_inverts s : in_u 32 s → inverts (λ x, Z.lxor x s) (λ x, Z.lxor x s).
Proof. intros Hs x Hx. cbv beta. by rewrite Z.lxor_assoc, Z.lxor_nilpotent, Z.lxor_0_r. Qed.

Ltac u32_range := first
  [ done | lia
  | apply wrap_range; lia
  | apply in_u_lxor; [lia|u32_range|u32_range]
  | apply in_u_shiftr; [lia|u32_range]
  | apply ROTL_range; [lia|u32_range] ].

Lemma fmix32_range h : in_u 32 h → in_u 32 (fmix32 h).
Proof. intros. unfold fmix32. u32_range. Qed.

Lemma fmix32_inj x y : in_u 32 x → in_u 32 y → fmix32 x = fmix32 y → x = y.
Proof.
  intros Hx Hy H. unfold fmix32 in H.
  apply (inverts_inj _ _ _ _ (xorshift_half_inverts 16 ltac:(lia))) in H; [|u32_range..].
  apply (inverts_inj _ _ _ _ (mul_inverts 0xc2b2ae35 2127672349 eq_refl)) in H; [|u32_range..].
  apply (inverts_inj _ _ _ _ xorshift13_inverts) in H; [|u32_range..].
  apply (inverts_inj _ _ _ _ (mul_inverts 0x85ebca6b 2781581891 eq_refl)) in H; [|u32_range..].
  by apply (inverts_inj _ _ _ _ (xorshift_half_inverts 16 ltac:(lia))) in H.
Qed.

(** ** The rounds of MurmurHash3 *)

Lemma scramble_range s : in_u 32 (scramble s).
Proof. apply wrap_range. lia. Qed.

Lemma scramble_inj x y : in_u 32 x → in_u 32 y → scramble x = scramble y → x = y.
Proof.
  intros Hx Hy H. unfold scramble in H.
  apply (inverts_inj _ _ _ _ (mul_inverts seed2 1458385051 eq_refl)) in H; [|u32_range..].
  apply (inverts_inj _ _ _ _ (ROTL_inverts 15 ltac:(lia))) in H; [|u32_range..].
  by apply (inverts_inj _ _ _ _ (mul_inverts seed1 3739302833 eq_refl)) in H.
Qed.

Lemma mix_range h s : in_u 32 (mix h s).
Proof. apply wrap_range. lia. Qed.

Lemma mix_lxor_inj x y : in_u 32 x → in_u 32 y →
  u32 (u32 (ROTL x 13 * 5) + 0xe6546b64) = u32 (u32 (ROTL y 13 * 5) + 0xe6546b64) → x = y.
Proof.
  intros Hx Hy H. apply (inverts_inj _ _ _ _ (add_inverts 0xe6546b64)) in H; [|u32_range..].
  apply (inverts_inj _ _ _ _ (mul_inverts 5 3435973837 eq_refl)) in H; [|u32_range..].
  by apply (inverts_inj _ _ _ _ (ROTL_inverts 13 ltac:(lia))) in H.
Qed.

Lemma mix_inj_l h h' s : in_u 32 h → in_u 32 h' → in_u 32 s → mix h s = mix h' s → h = h'.
Proof.
  intros Hh Hh' Hs H. apply mix_lxor_inj in H; [|u32_range..].
  by apply (inverts_inj _ _ _ _ (lxor_inverts s Hs)) in H.
Qed.

Lemma mix_inj_r h s s' : in_u 32 h → in_u 32 s → in_u 32 s' → mix h s = mix h s' → s = s'.
Proof.
  intros Hh Hs Hs' H. apply mix_lxor_inj in H; [|u32_range..].
  rewrite !(Z.lxor_comm h) in H. by apply (inverts_inj _ _ _ _ (lxor_inverts h Hh)) in H.
Qed.

Section rounds.
Context `{HostOrder}.

Lemma block_loop_range str n : ∀ i h, in_u 32 h → in_u 32 (block_loop str n i h).
Proof. induction n as [|n IH]; intros i h Hh; simpl; [done|]. apply IH, mix_range. Qed.

Lemma block_loop_app str n m : ∀ i h,
  block_loop str (n + m) i h = block_loop str m (i + n) (block_loop str n i h).
Proof.
  induction n as [|n IH]; intros i h; simpl; [f_equal; lia|]. rewrite IH. f_equal. lia.
Qed.

Lemma block_loop_ext s1 s2 n : ∀ i h,
  (∀ j, (i ≤ j < i + n)%nat → block_at s1 j = block_at s2 j) →
  block_loop s1 n i h = block_loop s2 n i h.
Proof.
  induction n as [|n IH]; intros i h Hj; simpl; [done|].
  rewrite (Hj i) by lia. apply IH. intros j ?. apply Hj. lia.
Qed.

Lemma block_loop_inj str n : ∀ i h h', in_u 32 h → in_u 32 h' →
  block_loop str n i h = block_loop str n i h' → h = h'.
Proof.
  induction n as [|n IH]; intros i h h' Hh Hh' Heq; simpl in Heq; [done|].
  apply IH in Heq; [|apply mix_range..].
  by eapply mix_inj_l; [..|exact Heq]; [| |apply scramble_range].
Qed.

Lemma value_of_inj e x y : length x = length y → value_of e x = value_of e y → x = y.
Proof.
  assert (∀ l l' : bytes, length l = length l' → le_combine l = le_combine l' → l = l') as Hle.
  { intros l l' Hl Heq. rewrite <- (split_le_combine l), <- (split_le_combine l'), Hl. by rewrite Heq. }
  intros Hl Heq. destruct e; simpl in Heq; [by apply Hle|].
  apply Hle in Heq; [|by rewrite !length_rev]. apply (f_equal (@rev _)) in Heq.
  by rewrite !rev_involutive in Heq.
Qed.

Lemma value_of_range e (x : bytes) n : (length x ≤ n)%nat → in_u (8 * Z.of_nat n) (value_of e x).
Proof.
  intros Hx.
  assert (∀ l : bytes, (length l ≤ n)%nat → in_u (8 * Z.of_nat n) (le_combine l)) as Hle.
  { intros l Hl. pose proof (le_combine_bound l). unfold in_u.
    pose proof (Z.pow_le_mono_r 2 (8 * Z.of_nat (length l)) (8 * Z.of_nat n)). lia. }
  destruct e; apply Hle; rewrite ?length_rev; done.
Qed.

Lemma block_at_range str i : in_u 32 (block_at str i).
Proof.
  apply (value_of_range _ _ 4). unfold slice. rewrite length_take. lia.
Qed.

Lemma le_combine_cons b (t : bytes) :
  le_combine (b :: t) = Z.lor (uchar b) (Z.shiftl (le_combine t) 8).
Proof. done. Qed.

Lemma tail_value_combine (t : bytes) : (length t < 4)%nat → tail_value t (length t) = le_combine t.
Proof.
  intros Ht. destruct t as [|b0 [|b1 [|b2 [|b3 t]]]]; simpl in Ht; try lia; [done|..];
    unfold tail_value; simpl nth; cbn [length Nat.eqb Nat.leb];
    rewrite !le_combine_cons; change (le_combine []) with 0;
    rewrite ?Z.lor_0_l, ?Z.shiftl_0_l, ?Z.lor_0_r; [done|..].
  - apply Z.lor_comm.
  - rewrite Z.shiftl_lor, Z.shiftl_shiftl by lia. change (8 + 8) with 16.
    rewrite Z.lor_comm. f_equal. apply Z.lor_comm.
Qed.

(** The part of two strings outside a stretch of the same length. *)
Lemma slice_outside (a x y b : bytes) p n : length x = length y →
  (p + n ≤ length a ∨ length a + length x ≤ p)%nat →
  slice p n (a ++ x ++ b) = slice p n (a ++ y ++ b).
Proof.
  intros Hl [Hp|Hp]; unfold slice.
  - rewrite !drop_app_le, !take_app_le by (rewrite ?length_drop; lia). done.
  - rewrite !drop_app_ge by lia. by rewrite Hl.
Qed.

(** Hashing with the block [x] or [y] of four bytes at the same place. *)
Lemma murmur3_block a x y b seed : in_u 32 seed → (length a mod 4)%nat = 0%nat →
  length x = 4%nat → length y = 4%nat → in_u 32 (Z.of_nat (length (a ++ x ++ b))) →
  murmur3_bytes (a ++ x ++ b) seed = murmur3_bytes (a ++ y ++ b) seed → x = y.
Proof.
  intros Hseed Ha Hx Hy Hlen Heq. unfold murmur3_bytes in Heq.
  assert (length (a ++ y ++ b) = length (a ++ x ++ b)) as Hl by (rewrite !length_app; lia).
  rewrite Hl in Heq. set (n := length (a ++ x ++ b)) in *. set (i := (length a / 4)%nat).
  pose proof (Nat.div_mod_eq (length a) 4). pose proof (Nat.div_mod_eq n 4).
  pose proof (Nat.mod_upper_bound n 4).
  assert (n = length a + 4 + length b)%nat as Hn by (unfold n; rewrite !length_app; lia).
  assert (n / 4 = i + (1 + (n / 4 - i - 1)))%nat as Hblk by (unfold i; lia).
  assert (slice (4 * i) 4 (a ++ x ++ b) = x ∧ slice (4 * i) 4 (a ++ y ++ b) = y) as [Hsx Hsy].
  { unfold slice. replace (4 * i)%nat with (length a) by (unfold i; lia).
    rewrite !drop_app_length. split; by apply take_app_length'. }
  assert (drop (n / 4 * 4) (a ++ x ++ b) = drop (n / 4 * 4) (a ++ y ++ b)) as Htail.
  { rewrite !drop_app_ge by lia. by rewrite Hx, Hy. }
  rewrite Htail in Heq. apply fmix32_inj in Heq.
  2, 3: destruct (n mod 4 =? 0)%nat; repeat first
    [ done | lia | apply block_loop_range | apply in_u_lxor | apply scramble_range ].
  rewrite !(Z.lxor_comm _ (Z.of_nat n)) in Heq.
  apply (f_equal (Z.lxor (Z.of_nat n))) in Heq.
  rewrite <- !Z.lxor_assoc, !Z.lxor_nilpotent, !Z.lxor_0_l in Heq.
  assert (block_loop (a ++ x ++ b) (n / 4) 0 seed = block_loop (a ++ y ++ b) (n / 4) 0 seed) as Hb.
  { destruct (n mod 4 =? 0)%nat; [done|].
    apply (inverts_inj _ _ _ _ (lxor_inverts _ (scramble_range _))) in Heq;
      [done|by apply block_loop_range..]. }
  rewrite Hblk, !block_loop_app in Hb.
  rewrite (block_loop_ext (a ++ x ++ b) (a ++ y ++ b) i) in Hb.
  2:{ intros j ?. unfold block_at. f_equal. apply slice_outside; [lia|unfold i in *; lia]. }
  rewrite (block_loop_ext (a ++ x ++ b) (a ++ y ++ b) (n / 4 - i - 1)) in Hb.
  2:{ intros j ?. unfold block_at. f_equal. apply slice_outside; [lia|unfold i in *; lia]. }
  apply block_loop_inj in Hb; [|apply mix_range..]. cbn [block_loop] in Hb.
  apply mix_inj_r in Hb; [|by apply block_loop_range|apply scramble_range..].
  apply scramble_inj in Hb; [|apply block_at_range..].
  unfold block_at in Hb. rewrite Nat.add_0_l, Hsx, Hsy in Hb. apply value_of_inj in Hb; [done|lia].
Qed.

(** Hashing with the tail [x] or [y] of up to three bytes. *)
Lemma murmur3_tail a x y seed : in_u 32 seed → (length a mod 4)%nat = 0%nat →
  (length x < 4)%nat → length x = length y → in_u 32 (Z.of_nat (length (a ++ x))) →
  murmur3_bytes (a ++ x) seed = murmur3_bytes (a ++ y) seed → x = y.
Proof.
  intros Hseed Ha Hx Hy Hlen Heq. unfold murmur3_bytes in Heq.
  assert (length (a ++ y) = length (a ++ x)) as Hl by (rewrite !length_app; lia).
  rewrite Hl in Heq. set (n := length (a ++ x)) in *.
  assert (n = length a + length x)%nat as Hn by (unfold n; by rewrite length_app).
  pose proof (Nat.div_mod_eq (length a) 4).
  assert (n / 4 = length a / 4 ∧ n mod 4 = length x)%nat as [Hdiv Hmod].
  { replace n with (length x + length a / 4 * 4)%nat by lia.
    rewrite Nat.div_add, Nat.Div0.mod_add, Nat.div_small, Nat.mod_small by lia. lia. }
  assert (n / 4 * 4 = length a)%nat as Hoff by lia.
  rewrite Hoff, !drop_app_length, Hmod in Heq.
  assert (block_loop (a ++ x) (n / 4) 0 seed = block_loop (a ++ y) (n / 4) 0 seed) as Hb.
  { apply block_loop_ext. intros j ?. unfold block_at. f_equal.
    rewrite <- (app_nil_r x), <- (app_nil_r y). apply slice_outside; [done|lia]. }
  rewrite Hb in Heq. set (h := block_loop _ _ _ _) in Heq.
  assert (in_u 32 h) as Hh by (by apply block_loop_range).
  assert (∀ t : bytes, (length t < 4)%nat → in_u 32 (le_combine t)) as Hrange.
  { intros t Ht. apply (value_of_range YGW_LITTLE_ENDIAN t 4). lia. }
  apply fmix32_inj in Heq.
  2, 3: destruct (length x =? 0)%nat; repeat first [ done | lia | apply in_u_lxor | apply scramble_range ].
  rewrite !(Z.lxor_comm _ (Z.of_nat n)) in Heq.
  apply (f_equal (Z.lxor (Z.of_nat n))) in Heq.
  rewrite <- !Z.lxor_assoc, !Z.lxor_nilpotent, !Z.lxor_0_l in Heq.
  destruct (Nat.eqb_spec (length x) 0) as [Hz|Hz].
  { destruct x, y; try done. }
  rewrite tail_value_combine in Heq by done. rewrite Hy in Heq.
  rewrite tail_value_combine in Heq by lia.
  rewrite !(Z.lxor_comm h) in Heq.
  apply (inverts_inj _ _ _ _ (lxor_inverts h Hh)) in Heq; [|apply scramble_range..].
  apply scramble_inj in Heq; [|apply Hrange; lia..].
  by apply (value_of_inj YGW_LITTLE_ENDIAN).
Qed.
End rounds.

(** ** Properties *)

(** MurmurHash3 never collides on two inputs of the same length that differ
    in a single aligned block of four bytes, or in the tail of up to three: the
    rounds and the final mixing are bijections of the 32-bit integers.  This
    holds on hosts of either byte order. *)
Theorem murmur3_single_block `{HostOrder} (a x y b : bytes) (seed : Z) :
  in_u 32 seed → in_u 32 (Z.of_nat (length (a ++ x ++ b))) →
  (length a mod 4)%nat = 0%nat → length x = length y →
  length x = 4%nat ∨ (b = [] ∧ (length x < 4)%nat) → x ≠ y →
  murmur3_hash_data (Some (a ++ x ++ b)) seed ≠ murmur3_hash_data (Some (a ++ y ++ b)) seed.
Proof.
  intros Hseed Hlen Ha Hxy Hsize Hne Heq. apply Hne. simpl in Heq.
  destruct Hsize as [Hx|[-> Hx]].
  - by eapply murmur3_block; [..|exact Heq]; try lia.
  - rewrite !app_nil_r in *. by eapply murmur3_tail; [..|exact Heq].
Qed.

(** The [quick_hash] overload with a size looks at the first byte only: the
    hash of two inputs of one length is the same when their first bytes are. *)
Theorem quick_hash_data_first_byte (c : byte) (s t : bytes) :
  length s = length t → quick_hash_data (c :: s) = quick_hash_data (c :: t).
Proof.
  intros Hl. unfold quick_hash_data. simpl length. rewrite Hl.
  generalize (S (length t)) 0. intros n. induction n as [|n IH]; intros h; simpl; [done|].
  apply IH.
Qed.

(** [hmac] with a digest of [L <= B] bytes is the HMAC of RFC 2104 for any
    key: a long key is replaced by its digest, and the key padded with zeros to
    a block is never too long. *)
Theorem hmac_rfc2104 (Digest : bytes → bytes) (B L : nat) (text key : bytes) :
  (∀ d, length (Digest d) = L) → (L ≤ B)%nat →
  let k0 := if (B <? length key)%nat then Digest key else key in
  let k := k0 ++ repeat (byte.of_Z 0) (B - length k0) in
  length k = B ∧
  hmac Digest B L text key
  = Some (Digest (map (xor_char 0x5c) k ++ Digest (map (xor_char 0x36) k ++ text))).
Proof.
  intros HD HL k0 k.
  assert (length k0 ≤ B)%nat as Hk0.
  { unfold k0. destruct (Nat.ltb_spec B (length key)); [|lia]. rewrite HD. done. }
  assert (length k = B) as Hk by (unfold k; rewrite length_app, repeat_length; lia).
  split; [done|]. unfold hmac, pad_key. fold k0.
  rewrite (proj2 (Nat.leb_le _ _)) by done. simpl. fold k.
  by rewrite !firstn_all2 by (rewrite ?length_map, ?HD, ?Hk; done).
Qed.

Section examples.
Local Instance little : HostOrder := YGW_LITTLE_ENDIAN.

Lemma murmur3_single_block_witness :
  murmur3_hash_data (Some (bs "ygw_" ++ bs "fibe" ++ bs "r")) 1060627423
  ≠ murmur3_hash_data (Some (bs "ygw_" ++ bs "hook" ++ bs "r")) 1060627423.
Proof.
  apply (murmur3_single_block (bs "ygw_") (bs "fibe") (bs "hook") (bs "r") 1060627423);
    try (unfold in_u; simpl; lia); try done; by left.
Defined.

Lemma quick_hash_data_first_byte_witness :
  quick_hash_data (bs "abc") = quick_hash_data (bs "axy").
Proof. exact (quick_hash_data_first_byte (byte.of_Z 97) (bs "bc") (bs "xy") eq_refl). Defined.

(** With the identity on the first two bytes for a digest, and blocks of four. *)
Lemma hmac_rfc2104_witness :
  let Digest d := take 2 (d ++ [byte.of_Z 0; byte.of_Z 0]) in
  length (bs "key" ++ repeat (byte.of_Z 0) 1) = 4%nat ∧
  hmac Digest 4 2 (bs "text") (bs "key")
  = Some (Digest (map (xor_char 0x5c) (bs "key" ++ [byte.of_Z 0])
                  ++ Digest (map (xor_char 0x36) (bs "key" ++ [byte.of_Z 0]) ++ bs "text"))).
Proof.
  intros Digest.
  apply (hmac_rfc2104 Digest 4 2 (bs "text") (bs "key")); [|lia].
  intros d. unfold Digest. rewrite length_take, length_app.
  change (length [byte.of_Z 0; byte.of_Z 0]) with 2%nat. lia.
Defined.
End examples.
