(* ===== verification/Crypto.v ===== *)
(** * Ciphers and keys: [util/crypto_util.{h,cc}]

    The calls of OpenSSL behind [CryptoUtil] and [RSACipher], with the memory the results
    are written to and the files the keys are kept in.  OpenSSL is the interface
    [OpenSSL], what its manual promises the laws [OpenSSLLaws]. *)
From stdpp Require Import list gmap.
From S2P Require Import Prelude.
Local Open Scope Z_scope.

(** ** OpenSSL *)

(** Ciphers with contexts ([None]: the call fails), keys with their texts. *)
Class OpenSSL := {
  EVP_CIPHER : Type;
  EVP_aes_256_ecb : EVP_CIPHER; EVP_aes_128_ecb : EVP_CIPHER; EVP_aes_256_cbc : EVP_CIPHER; EVP_aes_128_cbc : EVP_CIPHER;
  key_length : EVP_CIPHER → nat; iv_length : EVP_CIPHER → nat; block_size : EVP_CIPHER → nat;
  EVP_CIPHER_CTX : Type;
  EVP_CipherInit_ex : EVP_CIPHER → bytes → bytes → bool → EVP_CIPHER_CTX;
  EVP_CipherUpdate : EVP_CIPHER_CTX → bytes → option (bytes * EVP_CIPHER_CTX);
  EVP_CipherFinal_ex : EVP_CIPHER_CTX → option bytes;
  RSA : Type;
  RSA_size : RSA → nat;
  RSA_generate_key : Z → option RSA;
  RSA_public_encrypt : RSA → Z → bytes → option bytes;
  RSA_private_encrypt : RSA → Z → bytes → option bytes;
  RSA_public_decrypt : RSA → Z → bytes → option bytes;
  RSA_private_decrypt : RSA → Z → bytes → option bytes;
  PEM_RSAPublicKey : RSA → bytes; PEM_RSAPrivateKey : RSA → bytes;
  PEM_read_RSAPublicKey : bytes → option RSA; PEM_read_RSAPrivateKey : bytes → option RSA }.

(** A context for encrypting takes any data and puts out at most a block more; one for
    decrypting with the same key gives them back.  The texts of a key are read back as
    its public and its private part, and what one part encrypts, in as many bytes as the
    key has, the other decrypts. *)
Class OpenSSLLaws (O : OpenSSL) := {
  aes_lengths : key_length EVP_aes_256_ecb = 32%nat ∧ key_length EVP_aes_128_ecb = 16%nat ∧
    key_length EVP_aes_256_cbc = 32%nat ∧ key_length EVP_aes_128_cbc = 16%nat ∧
    iv_length EVP_aes_256_ecb = 0%nat ∧ iv_length EVP_aes_128_ecb = 0%nat ∧ iv_length EVP_aes_256_cbc = 16%nat ∧ iv_length EVP_aes_128_cbc = 16%nat;
  cipher_inverse c key iv data : length key = key_length c → length iv = iv_length c → ∃ o1 c1 o2,
    EVP_CipherUpdate (EVP_CipherInit_ex c key iv true) data = Some (o1, c1) ∧ EVP_CipherFinal_ex c1 = Some o2 ∧
    (length o1 + length o2 ≤ length data + block_size c)%nat ∧ ∃ p1 c2 p2,
    EVP_CipherUpdate (EVP_CipherInit_ex c key iv false) (o1 ++ o2) = Some (p1, c2) ∧ EVP_CipherFinal_ex c2 = Some p2 ∧ p1 ++ p2 = data;
  key_parts n rsa : RSA_generate_key n = Some rsa → ∃ pub pri,
    PEM_read_RSAPublicKey (PEM_RSAPublicKey rsa) = Some pub ∧ PEM_read_RSAPrivateKey (PEM_RSAPrivateKey rsa) = Some pri ∧
    ∀ padding m c, (RSA_public_encrypt pub padding m = Some c → length c = RSA_size pub ∧ RSA_private_decrypt pri padding c = Some m) ∧
      (RSA_private_encrypt pri padding m = Some c → length c = RSA_size pri ∧ RSA_public_decrypt pub padding c = Some m) }.

Section crypto.
Context `{OpenSSL}.

(** ** Memory *)

(** The memory of a result; what is written over its end is undefined. *)
Definition write_at (off : nat) (d : bytes) : M bytes unit := λ out,
  match memcpy_to out off d with Some out => Ret tt out | None => Undef out_of_bounds end.
(** Reading [n] bytes from a pointer to [p]. *)
Definition read_from {St} (p : bytes) (n : nat) : M St bytes :=
  match memcpy_from p 0 n with Some d => mret d | None => undef out_of_bounds end.

(** ** CryptoUtil *)

(** [*out_len] is what is returned when there is no error. *)
Definition Crypto (cipher : EVP_CIPHER) (enc : bool) (key iv in_ : bytes) (in_len : nat) : M bytes Z :=
  key ← read_from key (key_length cipher);
  iv ← read_from iv (iv_length cipher);
  in_ ← read_from in_ in_len;
  match EVP_CipherUpdate (EVP_CipherInit_ex cipher key iv enc) in_ with
  | None => mret (-1)
  | Some (o, ctx) =>
    write_at 0 o ;;
    match EVP_CipherFinal_ex ctx with
    | None => mret (-1)
    | Some f => write_at (length o) f ;; mret (s32 (Z.of_nat (length o + length f)))
    end
  end.

Definition AES256Ecb (key in_ : bytes) (in_len : nat) (encode : bool) : M bytes Z := Crypto EVP_aes_256_ecb encode key [] in_ in_len.
Definition AES128Ecb (key in_ : bytes) (in_len : nat) (encode : bool) : M bytes Z := Crypto EVP_aes_128_ecb encode key [] in_ in_len.
Definition AES256Cbc (key iv in_ : bytes) (in_len : nat) (encode : bool) : M bytes Z := Crypto EVP_aes_256_cbc encode key iv in_ in_len.
Definition AES128Cbc (key iv in_ : bytes) (in_len : nat) (encode : bool) : M bytes Z := Crypto EVP_aes_128_cbc encode key iv in_ in_len.

(** ** Files *)

(** The files that may be written, their contents, and how many are open. *)
Record Files := mkFiles { disk : gmap bytes bytes; writable : bytes → bool; opened : nat }.

Definition set_opened n w := mkFiles (disk w) (writable w) n.
Definition set_disk d w := mkFiles d (writable w) (opened w).

(** [fopen] for ["w+"] and for ["r+"], and [fclose]. *)
Definition fopen_w (path : bytes) : M Files bool :=
  w ← get;
  if writable w path then modify (λ w, set_opened (opened w + 1) (set_disk (<[path := []]> (disk w)) w)) ;; mret true else mret false.
Definition fopen_r (path : bytes) : M Files (option bytes) :=
  w ← get;
  match disk w !! path with
  | Some d => if writable w path then modify (λ w, set_opened (opened w + 1) w) ;; mret (Some d) else mret None
  | None => mret None
  end.
Definition fwrite (path d : bytes) : M Files unit := modify (λ w, set_disk (<[path := d]> (disk w)) w).
Definition fclose : M Files unit := modify (λ w, set_opened (opened w - 1) w).

(** The loop that reads a file in pieces of 1024 bytes. *)
Fixpoint fread_all (fuel : nat) (rest str : bytes) : option bytes :=
  match fuel with
  | O => None
  | S fuel => let d := take 1024 rest in
    if (0 <? length d)%nat then fread_all fuel (drop 1024 rest) (str ++ d) else Some str
  end.

(** ** RSACipher *)

Record RSACipher := mkRSACipher { pubkey_ : option RSA; prikey_ : option RSA; pubkey_str_ : bytes; prikey_str_ : bytes }.

Definition GenerateKey (pubkey_file prikey_file : bytes) (length_ : Z) : M Files Z :=
  match RSA_generate_key length_ with
  | None => mret (-1)
  | Some rsa =>
    fp ← fopen_w pubkey_file;
    if negb fp then mret (-2) else
    fwrite pubkey_file (PEM_RSAPublicKey rsa) ;; fclose ;;
    fp ← fopen_w prikey_file;
    if negb fp then mret (-3) else
    fwrite prikey_file (PEM_RSAPrivateKey rsa) ;; fclose ;;
    mret 0
  end.

(** One key from its file, with its text. *)
Definition read_key (PEM_read : bytes → option RSA) (file : bytes) : M Files (option (RSA * bytes)) :=
  fp ← fopen_r file;
  match fp with
  | None => mret None
  | Some text =>
    match PEM_read text with
    | None => fclose ;; mret None
    | Some key =>
      match fread_all (S (length text)) text [] with
      | None => λ _, NoFuel
      | Some str => fclose ;; mret (Some (key, str))
      end
    end
  end.

Definition Create (pubkey_file prikey_file : bytes) : M Files (option RSACipher) :=
  pub ← read_key PEM_read_RSAPublicKey pubkey_file;
  match pub with
  | None => mret None
  | Some (pubkey, pubstr) =>
    pri ← read_key PEM_read_RSAPrivateKey prikey_file;
    match pri with
    | None => mret None
    | Some (prikey, pristr) => mret (Some (mkRSACipher (Some pubkey) (Some prikey) pubstr pristr))
    end
  end.

(** One of the four calls with a key, into memory; without a key it is undefined. *)
Definition with_key (call : RSA → Z → bytes → option bytes) (key : option RSA) (from : bytes) (padding : Z) : M bytes Z :=
  rsa ← deref key;
  match call rsa padding from with
  | None => mret (-1)
  | Some d => write_at 0 d ;; mret (Z.of_nat (length d))
  end.

Definition PrivateEncrypt (c : RSACipher) (from : bytes) (padding : Z) : M bytes Z := with_key RSA_private_encrypt (prikey_ c) from padding.
Definition PublicEncrypt (c : RSACipher) (from : bytes) (padding : Z) : M bytes Z := with_key RSA_public_encrypt (pubkey_ c) from padding.
Definition PrivateDecrypt (c : RSACipher) (from : bytes) (padding : Z) : M bytes Z := with_key RSA_private_decrypt (prikey_ c) from padding.
Definition PublicDecrypt (c : RSACipher) (from : bytes) (padding : Z) : M bytes Z := with_key RSA_public_decrypt (pubkey_ c) from padding.

(** [std::string::resize]. *)
Definition resize (n : nat) (s : bytes) : bytes := take n s ++ replicate (n - length s) Byte.x00.

(** The same into a string, which has to be large enough already. *)
Definition into_string (call : M bytes Z) : M bytes Z :=
  len ← call;
  (if 0 <=? len then modify (resize (Z.to_nat len)) else mret tt) ;;
  mret len.
Definition PrivateEncrypt_string c from padding := into_string (PrivateEncrypt c from padding).
Definition PublicEncrypt_string c from padding := into_string (PublicEncrypt c from padding).
Definition PrivateDecrypt_string c from padding := into_string (PrivateDecrypt c from padding).
Definition PublicDecrypt_string c from padding := into_string (PublicDecrypt c from padding).

Definition GetPubRSASize (c : RSACipher) : Z := match pubkey_ c with Some k => Z.of_nat (RSA_size k) | None => -1 end.
Definition GetPriRSASize (c : RSACipher) : Z := match prikey_ c with Some k => Z.of_nat (RSA_size k) | None => -1 end.

(** ** Lemmas *)

Lemma write_at_ok off d out : (off + length d ≤ length out)%nat → write_at off d out = Ret tt (splice off d out).
Proof. intros Hl. unfold write_at. by rewrite memcpy_to_Some. Qed.

Lemma read_from_ok {St} p n (s : St) : (n ≤ length p)%nat → read_from p n s = Ret (take n p) s.
Proof. intros Hl. unfold read_from. by rewrite memcpy_from_Some by lia. Qed.

Lemma length_splice_in (d out : bytes) off : (off + length d ≤ length out)%nat → length (splice off d out) = length out.
Proof. intros. unfold splice. rewrite !length_app, length_take, length_drop. lia. Qed.

(** Both outputs in a row. *)
Lemma Crypto_ok cipher enc key iv in_ n o ctx f out : (key_length cipher ≤ length key)%nat → (iv_length cipher ≤ length iv)%nat → (n ≤ length in_)%nat →
  EVP_CipherUpdate (EVP_CipherInit_ex cipher (take (key_length cipher) key) (take (iv_length cipher) iv) enc) (take n in_) = Some (o, ctx) →
  EVP_CipherFinal_ex ctx = Some f → (length o + length f ≤ length out)%nat → Z.of_nat (length o + length f) < 2 ^ 31 →
  Crypto cipher enc key iv in_ n out = Ret (Z.of_nat (length o + length f)) (splice 0 (o ++ f) out).
Proof.
  intros Hk Hi Hn Hu Hf Hl Hb. unfold Crypto.
  rewrite (bind_Ret _ _ _ _ _ (read_from_ok _ _ _ Hk)), (bind_Ret _ _ _ _ _ (read_from_ok _ _ _ Hi)), (bind_Ret _ _ _ _ _ (read_from_ok _ _ _ Hn)), Hu.
  rewrite (bind_Ret _ _ _ _ _ (write_at_ok 0 o out ltac:(lia))), Hf.
  rewrite (bind_Ret _ _ _ _ _ (write_at_ok (length o) f (splice 0 o out) ltac:(rewrite length_splice_in by lia; lia))).
  unfold mret, M_ret. rewrite swrap_small by (unfold in_s; lia). f_equal. apply (splice_splice 0 o f). lia.
Qed.

Lemma fread_all_ok fuel : ∀ rest str, (length rest < fuel)%nat → fread_all fuel rest str = Some (str ++ rest).
Proof.
  induction fuel as [|fuel IH]; intros rest str Hf; [lia|]. cbn [fread_all]. destruct rest as [|b rest]; [rewrite firstn_nil; cbn; by rewrite app_nil_r|].
  rewrite (proj2 (Nat.ltb_lt _ _)) by (rewrite length_take; cbn [length]; lia).
  rewrite IH by (rewrite length_drop; cbn [length] in *; lia). by rewrite <- app_assoc, take_drop.
Qed.

Lemma read_key_ok PEM file text key w : disk w !! file = Some text → writable w file = true → PEM text = Some key →
  read_key PEM file w = Ret (Some (key, text)) w.
Proof.
  intros Hd Hw Hp. unfold read_key, fopen_r. unfold mbind, M_bind, get, mret, M_ret, modify. rewrite Hd, Hw, Hp, fread_all_ok by lia.
  destruct w as [d wr n]. cbn. unfold fclose, modify, set_opened. cbn. do 2 f_equal. lia.
Qed.

Lemma read_key_closes PEM file w : ∃ r, read_key PEM file w = Ret r w.
Proof.
  unfold read_key, fopen_r. unfold mbind, M_bind, get, mret, M_ret, modify. destruct (disk w !! file) as [text|]; [|by eexists].
  destruct (writable w file); [|by eexists]. rewrite fread_all_ok by lia.
  destruct (PEM text); eexists; destruct w as [d wr n]; unfold fclose, modify, set_opened; cbn; do 2 f_equal; lia.
Qed.

Lemma with_key_ok call rsa from padding d out : call rsa padding from = Some d → (length d ≤ length out)%nat →
  into_string (with_key call (Some rsa) from padding) out = Ret (Z.of_nat (length d)) d.
Proof.
  intros Hc Hl. assert (with_key call (Some rsa) from padding out = Ret (Z.of_nat (length d)) (splice 0 d out)) as Hk.
  { unfold with_key. rewrite (bind_Ret (deref (Some rsa)) _ out rsa out), Hc by done. by rewrite (bind_Ret _ _ _ _ _ (write_at_ok 0 d out ltac:(lia))). }
  unfold into_string. rewrite (bind_Ret _ _ _ _ _ Hk). rewrite (proj2 (Z.leb_le 0 _)) by lia. unfold mbind, M_bind, modify, mret, M_ret. f_equal.
  rewrite Nat2Z.id. unfold resize. rewrite length_splice_in by lia. replace (length d - length out)%nat with 0%nat by lia. cbn. rewrite app_nil_r.
  apply (slice_splice 0 d out). lia.
Qed.

(** ** Properties *)

(** What one of the ciphers made of some data it turns back into them, with the same key
    and the same vector, as long as the memory it writes to has room for a block more;
    nothing else in that memory changes. *)
Theorem cipher_roundtrip `{!OpenSSLLaws _} (cipher : EVP_CIPHER) (key iv data out out2 : bytes) :
  (key_length cipher ≤ length key)%nat → (iv_length cipher ≤ length iv)%nat →
  (length data + block_size cipher ≤ length out)%nat → (length data ≤ length out2)%nat → Z.of_nat (length out) < 2 ^ 31 → ∃ n out',
  Crypto cipher true key iv data (length data) out = Ret (Z.of_nat n) out' ∧ (n ≤ length data + block_size cipher)%nat ∧
  drop n out' = drop n out ∧
  Crypto cipher false key iv out' n out2 = Ret (Z.of_nat (length data)) (splice 0 data out2).
Proof.
  intros Hk Hi Hl Hl2 Hb.
  destruct (cipher_inverse cipher (take (key_length cipher) key) (take (iv_length cipher) iv) data) as (o1 & c1 & o2 & Hu & Hf & Hlen & p1 & c2 & p2 & Hu2 & Hf2 & Hp);
    [rewrite length_take; lia..|].
  exists (length o1 + length o2)%nat, (splice 0 (o1 ++ o2) out). split_and!; [|done| |].
  - eapply Crypto_ok; try done; [by rewrite firstn_all|lia|lia].
  - unfold splice. rewrite take_0, app_nil_l, Nat.add_0_l, length_app, drop_app_length' by (by rewrite length_app). done.
  - rewrite <- Hp, length_app. eapply Crypto_ok; try done; [rewrite length_splice_in by (rewrite length_app; lia); lia| | |].
    + rewrite <- Hu2. f_equal. rewrite <- length_app. apply (slice_splice 0 (o1 ++ o2) out). rewrite length_app. lia.
    + rewrite <- length_app, Hp. lia.
    + rewrite <- length_app, Hp. lia.
Qed.

(** Every way through [GenerateKey] and [Create] closes the files it opened, and [Create]
    changes none. *)
Theorem key_files_closed (pubkey_file prikey_file : bytes) (len : Z) (w : Files) :
  (∃ r w', GenerateKey pubkey_file prikey_file len w = Ret r w' ∧ opened w' = opened w ∧ r ∈ [-1; -2; -3; 0]) ∧
  (∃ r, Create pubkey_file prikey_file w = Ret r w).
Proof.
  split.
  - unfold GenerateKey. destruct (RSA_generate_key len) as [rsa|]; [|eexists _, _; split; [done|split; [done|by left]]].
    unfold fopen_w, fwrite, fclose. unfold mbind, M_bind, get, modify, mret, M_ret.
    destruct (writable w pubkey_file); cbn; [destruct (writable w prikey_file); cbn|]; eexists _, _; (split; [reflexivity|]);
      (split; [cbn; lia|]); rewrite ?elem_of_cons; auto.
  - unfold Create. destruct (read_key_closes PEM_read_RSAPublicKey pubkey_file w) as [[[pub s1]|] Hr]; rewrite (bind_Ret _ _ _ _ _ Hr); [|by eexists].
    destruct (read_key_closes PEM_read_RSAPrivateKey prikey_file w) as [[[pri s2]|] Hr2]; rewrite (bind_Ret _ _ _ _ _ Hr2); by eexists.
Qed.

(** Keys that were generated into two files are loaded from them, with their texts, and
    decrypt what each other encrypts: a message, into strings that are large enough. *)
Theorem generated_keys_work `{!OpenSSLLaws _} (pubkey_file prikey_file : bytes) (len padding : Z) (w w' : Files) :
  pubkey_file ≠ prikey_file → GenerateKey pubkey_file prikey_file len w = Ret 0 w' → ∃ c,
  Create pubkey_file prikey_file w' = Ret (Some c) w' ∧
  disk w' !! pubkey_file = Some (pubkey_str_ c) ∧ disk w' !! prikey_file = Some (prikey_str_ c) ∧
  ∀ m to n d, PublicEncrypt_string c m padding to = Ret (Z.of_nat n) d → GetPubRSASize c ≤ Z.of_nat (length to) → (length m ≤ length to)%nat →
    Z.of_nat n = GetPubRSASize c ∧ PrivateDecrypt_string c d padding to = Ret (Z.of_nat (length m)) m.
Proof.
  intros Hne Hg. unfold GenerateKey in Hg. destruct (RSA_generate_key len) as [rsa|] eqn:Hgen; [|done].
  destruct (key_parts len rsa Hgen) as (pub & pri & Hpub & Hpri & Hpair).
  unfold fopen_w, fwrite, fclose in Hg. unfold mbind, M_bind, get, modify, mret, M_ret in Hg.
  destruct (writable w pubkey_file) eqn:W1; cbn in Hg; [|done]. destruct (writable w prikey_file) eqn:W2; cbn in Hg; [|done]. injection Hg as <-.
  set (w' := set_opened _ _).
  assert (disk w' !! pubkey_file = Some (PEM_RSAPublicKey rsa)) as H1 by (cbn; by rewrite !lookup_insert_ne, lookup_insert_eq by done).
  assert (disk w' !! prikey_file = Some (PEM_RSAPrivateKey rsa)) as H2 by (cbn; by rewrite lookup_insert_eq).
  exists (mkRSACipher (Some pub) (Some pri) (PEM_RSAPublicKey rsa) (PEM_RSAPrivateKey rsa)). split; [|split; [done|split; [done|]]].
  { unfold Create. rewrite (bind_Ret _ _ _ _ _ (read_key_ok _ _ _ _ w' H1 W1 Hpub)), (bind_Ret _ _ _ _ _ (read_key_ok _ _ _ _ w' H2 W2 Hpri)). done. }
  intros m to n d He Hs Hm. unfold GetPubRSASize in *. cbn in Hs |- *.
  unfold PublicEncrypt_string, PublicEncrypt in He. cbn [pubkey_] in He. destruct (RSA_public_encrypt pub padding m) as [e|] eqn:Ee.
  - destruct (proj1 (Hpair padding m e) Ee) as [Hlen Hdec]. rewrite (with_key_ok _ _ _ _ e) in He by (done || lia). injection He as He <-. split; [lia|].
    unfold PrivateDecrypt_string, PrivateDecrypt. cbn [prikey_]. by apply with_key_ok.
  - unfold into_string, with_key in He. unfold mbind, M_bind in He. cbn in He. rewrite Ee in He. cbn in He. injection He as He _. lia.
Qed.

(** The calls with a string write as many bytes as the key has into it, whatever its
    size: into a shorter one they write over its end. *)
Theorem short_string_overruns (c : RSACipher) (key : RSA) (m e to : bytes) (padding : Z) :
  pubkey_ c = Some key → RSA_public_encrypt key padding m = Some e → (length to < length e)%nat →
  PublicEncrypt_string c m padding to = Undef out_of_bounds.
Proof.
  intros Hk He Hl. unfold PublicEncrypt_string, PublicEncrypt, into_string, with_key. rewrite Hk. unfold mbind, M_bind. cbn. rewrite He.
  unfold write_at, memcpy_to. by rewrite (proj2 (Nat.leb_gt _ _)) by (cbn; lia).
Qed.
End crypto.

(** ** An example *)

(** A cipher that adds the first byte of its key to every byte, with an empty last block,
    and keys that turn bytes around and fill them up to 8. *)
Module Toy.
Definition shift (k : Z) (d : bytes) : bytes := map (λ b, byte.of_Z (uchar b + k)) d.
Definition pad (d : bytes) : bytes := byte.of_Z (Z.of_nat (length d)) :: d ++ replicate (7 - length d) Byte.x00.
Definition seal (padding : Z) (d : bytes) : option bytes := if decide (length d ≤ 7)%nat then Some (pad d) else None.
Definition unseal (padding : Z) (d : bytes) : option bytes :=
  match d with n :: d => Some (take (Z.to_nat (uchar n)) d) | [] => None end.

#[export] Instance openssl : OpenSSL := {|
  EVP_CIPHER := nat * nat; EVP_aes_256_ecb := (32, 0)%nat; EVP_aes_128_ecb := (16, 0)%nat; EVP_aes_256_cbc := (32, 16)%nat; EVP_aes_128_cbc := (16, 16)%nat;
  key_length := fst; iv_length := snd; block_size _ := 16%nat;
  EVP_CIPHER_CTX := Z;
  EVP_CipherInit_ex c key iv enc := let k := match key with b :: _ => uchar b | [] => 0 end in if enc then k else - k;
  EVP_CipherUpdate k d := Some (shift k d, k);
  EVP_CipherFinal_ex _ := Some [];
  RSA := unit; RSA_size _ := 8%nat;
  RSA_generate_key n := if n <? 512 then None else Some tt;
  RSA_public_encrypt _ := seal; RSA_private_encrypt _ := seal; RSA_public_decrypt _ := unseal; RSA_private_decrypt _ := unseal;
  PEM_RSAPublicKey _ := bs "public"; PEM_RSAPrivateKey _ := bs "private";
  PEM_read_RSAPublicKey d := if decide (d = bs "public") then Some tt else None;
  PEM_read_RSAPrivateKey d := if decide (d = bs "private") then Some tt else None |}.

Lemma shift_back k d : shift (- k) (shift k d) = d.
Proof.
  unfold shift. rewrite map_map. rewrite <- (map_id d) at 2. apply map_ext. intros b. apply of_uchar_mod. rewrite uchar_of_Z. unfold wrap.
  change (2 ^ 8) with 256. rewrite Zplus_mod_idemp_l. replace (uchar b + k + - k) with (uchar b) by lia. apply Z.mod_small. pose proof (uchar_range b). lia.
Qed.

Lemma seal_unseal padding d c : seal padding d = Some c → length c = 8%nat ∧ unseal padding c = Some d.
Proof.
  unfold seal. destruct (decide _) as [Hl|]; [|done]. intros [= <-]. unfold pad, unseal. cbn [length]. rewrite length_app, length_replicate. split; [lia|].
  rewrite uchar_of_Z, wrap_small by (unfold in_u; lia). by rewrite Nat2Z.id, take_app_length.
Qed.

#[export] Instance openssl_laws : OpenSSLLaws openssl.
Proof.
  constructor.
  - done.
  - intros c key iv data _ _. set (k := match key with b :: _ => uchar b | [] => 0 end).
    exists (shift k data), k, []. cbn. fold k. split_and!; [done|done|unfold shift; rewrite length_map; lia|].
    exists (shift (- k) (shift k data ++ [])), (- k), []. split_and!; [done|done|]. by rewrite !app_nil_r, shift_back.
  - intros n rsa _. exists tt, tt. split_and!; [done|done|]. intros padding m c. split; apply seal_unseal.
Qed.
End Toy.

#[local] Existing Instances Toy.openssl Toy.openssl_laws.

Definition sample_key : bytes := replicate 32 (byte.of_Z 7).
Definition zeroed (n : nat) : bytes := replicate n Byte.x00.

Lemma cipher_roundtrip_witness : ∃ n out',
  AES256Cbc sample_key sample_key (bs "attack") 6 true (zeroed 24) = Ret (Z.of_nat n) out' ∧
  AES256Cbc sample_key sample_key out' n false (zeroed 8) = Ret 6 (bs "attack" ++ zeroed 2).
Proof.
  destruct (cipher_roundtrip EVP_aes_256_cbc sample_key sample_key (bs "attack") (zeroed 24) (zeroed 8)) as (n & out' & H1 & _ & _ & H2);
    [by apply Nat.leb_le; vm_compute|by apply Nat.leb_le; vm_compute|by apply Nat.leb_le; vm_compute|by apply Nat.leb_le; vm_compute|vm_compute; reflexivity|].
  exists n, out'. split; [exact H1|exact H2].
Defined.

Definition no_files : Files := mkFiles ∅ (λ _, true) 0.

Definition generated : Files :=
  mkFiles (<[bs "b" := bs "private"]> (<[bs "b" := []]> (<[bs "a" := bs "public"]> (<[bs "a" := []]> ∅)))) (λ _, true) 0.

Lemma generated_keys_work_witness : ∃ w' c, GenerateKey (bs "a") (bs "b") 1024 no_files = Ret 0 w' ∧ Create (bs "a") (bs "b") w' = Ret (Some c) w' ∧
  disk w' !! bs "a" = Some (pubkey_str_ c).
Proof.
  assert (GenerateKey (bs "a") (bs "b") 1024 no_files = Ret 0 generated) as Hg by reflexivity.
  destruct (generated_keys_work (bs "a") (bs "b") 1024 4 no_files generated ltac:(done) Hg) as (c & H1 & H2 & _). by exists generated, c.
Defined.

Lemma short_string_overruns_witness :
  PublicEncrypt_string (mkRSACipher (Some tt) None [] []) (bs "hi") 4 [] = Undef out_of_bounds.
Proof. exact (short_string_overruns (mkRSACipher (Some tt) None [] []) tt (bs "hi") (Toy.pad (bs "hi")) [] 4 eq_refl eq_refl ltac:(apply Nat.ltb_lt; vm_compute; reflexivity)). Defined.
