(* ===== verification/Timer.v ===== *)
(** * Timers: [server_frame/base/timer.cc]

    A [std::set] of pointers to timers, ordered by what they point to.  The
    clock is an argument of every operation that reads it, as is the address a
    new timer gets; each operation is the section that runs under the write
    lock, so a run of several threads is a sequence of these operations. *)
From S2P Require Import Prelude.
From stdpp Require Import gmap sorting.
Local Open Scope Z_scope.

(** ** Data *)

Record Timer := mkTimer {
  recurring_ : bool;
  ms_ : Z;
  next_ : Z;
  cb_ : option nat
}.

Definition null_timer : Timer := mkTimer false 0 0 None.

(** [timers_] lists the set in its order; [heap] is the memory the pointers
    point to.  [notified] counts the calls of [OnTimerInsertedAtFront]. *)
Record TimerManager := mkManager {
  timers_ : list nat;
  heap : gmap nat Timer;
  tickled_ : bool;
  previouse_time_ : Z;
  notified : nat
}.

Definition set_timers_ l st := mkManager l (heap st) (tickled_ st) (previouse_time_ st) (notified st).
Definition set_heap h st := mkManager (timers_ st) h (tickled_ st) (previouse_time_ st) (notified st).
Definition set_tickled_ b st := mkManager (timers_ st) (heap st) b (previouse_time_ st) (notified st).
Definition set_previouse_time_ t st :=
  mkManager (timers_ st) (heap st) (tickled_ st) t (notified st).
Definition set_notified n st :=
  mkManager (timers_ st) (heap st) (tickled_ st) (previouse_time_ st) n.

Arguments set_timers_ _ !_ /.
Arguments set_heap _ !_ /.
Arguments set_tickled_ _ !_ /.
Arguments set_previouse_time_ _ !_ /.
Arguments set_notified _ !_ /.

(** What a pointer points to. *)
Definition timer_at (h : gmap nat Timer) (p : nat) : Timer := default null_timer (h !! p).
Definition next_at (h : gmap nat Timer) (p : nat) : Z := next_ (timer_at h p).

(** ** The set *)

(** [Timer::Comparator] on pointers that are not null, by the values compared:
    the time and the address. *)
Definition Comparator (lhs rhs : Z * nat) : bool :=
  if fst lhs <? fst rhs then true
  else if fst rhs <? fst lhs then false
  else (snd lhs <? snd rhs)%nat.

Definition key (h : gmap nat Timer) (p : nat) : Z * nat := (next_at h p, p).
Definition less (h : gmap nat Timer) (p q : nat) : bool := Comparator (key h p) (key h q).

(** [std::set::lower_bound]: the index of the first element not below [k]. *)
Fixpoint lower_bound (h : gmap nat Timer) (k : Z * nat) (l : list nat) : nat :=
  match l with
  | [] => O
  | q :: l => if Comparator (key h q) k then S (lower_bound h k l) else O
  end.

(** [std::set::find]: the index, or [None] for [end()]. *)
Definition set_find (h : gmap nat Timer) (p : nat) (l : list nat) : option nat :=
  let i := lower_bound h (key h p) l in
  match l !! i with
  | None => None
  | Some q => if less h p q then None else Some i
  end.

(** [std::set::insert]: nothing when an equivalent element is there. *)
Definition set_insert (h : gmap nat Timer) (p : nat) (l : list nat) : list nat :=
  match set_find h p l with
  | Some _ => l
  | None => let i := lower_bound h (key h p) l in take i l ++ p :: drop i l
  end.

(** [std::set::erase] of an iterator: undefined for [end()]. *)
Definition set_erase (it : option nat) : M TimerManager unit :=
  match it with
  | None => undef out_of_bounds
  | Some i => modify (λ st, set_timers_ (delete i (timers_ st)) st)
  end.

(** ** Operations *)

(** [timers_.find(shared_from_this())]. *)
Definition find_this (p : nat) : M TimerManager (option nat) :=
  st ← get; mret (set_find (heap st) p (timers_ st)).

Definition get_timer (p : nat) : M TimerManager Timer := st ← get; mret (timer_at (heap st) p).
Definition put_timer (p : nat) (t : Timer) : M TimerManager unit :=
  modify (λ st, set_heap (<[p := t]> (heap st)) st).

Definition OnTimerInsertedAtFront : M TimerManager unit :=
  modify (λ st, set_notified (S (notified st)) st).

(** [TimerManager::AddTimer(val, lock)]. *)
Definition AddTimer_lock (val : nat) : M TimerManager unit :=
  modify (λ st, set_timers_ (set_insert (heap st) val (timers_ st)) st) ;;
  st ← get;
  let at_front := bool_decide (head (timers_ st) = Some val) && negb (tickled_ st) in
  (if at_front then modify (set_tickled_ true) else mret tt) ;;
  (if at_front then OnTimerInsertedAtFront else mret tt).

(** The constructor, at the address [p] and the time [now]. *)
Definition new_Timer (p : nat) (now ms : Z) (cb : option nat) (recurring : bool) :
    M TimerManager unit := put_timer p (mkTimer recurring ms (u64 (now + ms)) cb).

Definition AddTimer (p : nat) (now ms : Z) (cb : option nat) (recurring : bool) :
    M TimerManager nat :=
  new_Timer p now ms cb recurring ;; AddTimer_lock p ;; mret p.

Definition Cancel (this : nat) : M TimerManager bool :=
  t ← get_timer this;
  match cb_ t with
  | Some _ =>
    put_timer this (mkTimer (recurring_ t) (ms_ t) (next_ t) None) ;;
    it ← find_this this;
    set_erase it ;;
    mret true
  | None => mret false
  end.

Definition Refresh (this : nat) (now : Z) : M TimerManager bool :=
  t ← get_timer this;
  match cb_ t with
  | None => mret false
  | Some _ =>
    it ← find_this this;
    match it with
    | None => mret false
    | Some _ =>
      set_erase it ;;
      put_timer this (mkTimer (recurring_ t) (ms_ t) (u64 (now + ms_ t)) (cb_ t)) ;;
      modify (λ st, set_timers_ (set_insert (heap st) this (timers_ st)) st) ;;
      mret true
    end
  end.

Definition Reset (this : nat) (now ms : Z) (from_now : bool) : M TimerManager bool :=
  t ← get_timer this;
  if (ms =? ms_ t) && negb from_now then mret true else
  match cb_ t with
  | None => mret false
  | Some _ =>
    it ← find_this this;
    match it with
    | None => mret false
    | Some _ =>
      set_erase it ;;
      let start := if from_now then now else u64 (next_ t - ms_ t) in
      put_timer this (mkTimer (recurring_ t) ms (u64 (start + ms)) (cb_ t)) ;;
      AddTimer_lock this ;;
      mret true
    end
  end.

(** [~0ull] when there is no timer. *)
Definition GetNextTimer (now_ms : Z) : M TimerManager Z :=
  modify (set_tickled_ false) ;;
  st ← get;
  match timers_ st with
  | [] => mret (2 ^ 64 - 1)
  | next :: _ =>
    if next_at (heap st) next <=? now_ms then mret 0
    else mret (u64 (next_at (heap st) next - now_ms))
  end.

Definition DetectClockRollover (now_ms : Z) : M TimerManager bool :=
  st ← get;
  let rollover := (now_ms <? previouse_time_ st) &&
                  (now_ms <? u64 (previouse_time_ st - 60 * 60 * 1000)) in
  modify (set_previouse_time_ now_ms) ;;
  mret rollover.

(** The loop that moves [it] past the timers due at [now_ms]. *)
Fixpoint skip_now (h : gmap nat Timer) (now_ms : Z) (l : list nat) : nat :=
  match l with
  | [] => O
  | q :: l => if next_at h q =? now_ms then S (skip_now h now_ms l) else O
  end.

(** The [for (auto& timer : expired)] loop: the callbacks pushed to [cbs]. *)
Fixpoint fire_loop (now_ms : Z) (expired : list nat) : M TimerManager (list (option nat)) :=
  match expired with
  | [] => mret []
  | timer :: expired =>
    t ← get_timer timer;
    (if recurring_ t then
       put_timer timer (mkTimer (recurring_ t) (ms_ t) (u64 (now_ms + ms_ t)) (cb_ t)) ;;
       modify (λ st, set_timers_ (set_insert (heap st) timer (timers_ st)) st)
     else put_timer timer (mkTimer (recurring_ t) (ms_ t) (next_ t) None)) ;;
    cbs ← fire_loop now_ms expired;
    mret (cb_ t :: cbs)
  end.

(** [now_timer] is the address of the timer made to search for [now_ms]. *)
Definition ListExpiredCb (now_ms : Z) (now_timer : nat) : M TimerManager (list (option nat)) :=
  st ← get;
  match timers_ st with
  | [] => mret []
  | first :: _ =>
    rollover ← DetectClockRollover now_ms;
    if negb rollover && (now_ms <? next_at (heap st) first) then mret [] else
    let it := if rollover then length (timers_ st)
              else lower_bound (heap st) (now_ms, now_timer) (timers_ st) in
    let it := (it + skip_now (heap st) now_ms (drop it (timers_ st)))%nat in
    let expired := take it (timers_ st) in
    modify (set_timers_ (drop it (timers_ st))) ;;
    fire_loop now_ms expired
  end.

Definition HasTimer : M TimerManager bool :=
  st ← get; mret (negb (bool_decide (timers_ st = []))).

Definition new_TimerManager (now : Z) : TimerManager := mkManager [] ∅ false now 0.

(** ** Runs *)

Inductive call :=
  | CAddTimer (p : nat) (now ms : Z) (cb : option nat) (recurring : bool)
  | CCancel (p : nat)
  | CRefresh (p : nat) (now : Z)
  | CReset (p : nat) (now ms : Z) (from_now : bool)
  | CGetNextTimer (now : Z)
  | CListExpiredCb (now : Z) (now_timer : nat).

Definition run_call (c : call) : M TimerManager unit :=
  match c with
  | CAddTimer p now ms cb recurring => AddTimer p now ms cb recurring ;; mret tt
  | CCancel p => Cancel p ;; mret tt
  | CRefresh p now => Refresh p now ;; mret tt
  | CReset p now ms from_now => Reset p now ms from_now ;; mret tt
  | CGetNextTimer now => GetNextTimer now ;; mret tt
  | CListExpiredCb now q => ListExpiredCb now q ;; mret tt
  end.

(** What a caller can do: a new timer is at an address no timer in memory has,
    and the other calls are made through pointers to timers. *)
Definition call_ok (c : call) (st : TimerManager) : Prop :=
  match c with
  | CAddTimer p _ _ _ _ => heap st !! p = None
  | CCancel p | CRefresh p _ | CReset p _ _ _ => is_Some (heap st !! p)
  | _ => True
  end.

Inductive reachable : TimerManager → Prop :=
  | reachable_new now : reachable (new_TimerManager now)
  | reachable_call c st st' : reachable st → call_ok c st → run_call c st = Ret tt st' →
      reachable st'.

(** ** The order *)

Lemma Comparator_lt a b : Comparator a b = true ↔
  fst a < fst b ∨ (fst a = fst b ∧ (snd a < snd b)%nat).
Proof.
  unfold Comparator. destruct (Z.ltb_spec (fst a) (fst b)), (Z.ltb_spec (fst b) (fst a)),
    (Nat.ltb_spec (snd a) (snd b)); split; intros; try done; try lia.
Qed.

Definition lt_in (h : gmap nat Timer) (p q : nat) : Prop := less h p q = true.

Lemma lt_in_alt h p q : lt_in h p q ↔
  next_at h p < next_at h q ∨ (next_at h p = next_at h q ∧ (p < q)%nat).
Proof. apply Comparator_lt. Qed.

#[export] Instance lt_in_dec h : RelDecision (lt_in h).
Proof. intros p q. unfold lt_in. apply _. Defined.

#[export] Instance lt_in_trans h : Transitive (lt_in h).
Proof. intros p q r. rewrite !lt_in_alt. lia. Qed.

(** The set is in order. *)
Definition in_order (h : gmap nat Timer) (l : list nat) : Prop := StronglySorted (lt_in h) l.

Lemma in_order_nodup h l : in_order h l → NoDup l.
Proof.
  induction 1 as [|p l Hs IH Hp]; [constructor|]. constructor; [|done].
  intros Hin. rewrite Forall_forall in Hp. specialize (Hp _ Hin). rewrite lt_in_alt in Hp. lia.
Qed.

(** Only the times of the members matter. *)
Lemma in_order_ext h h' l : (∀ p, p ∈ l → next_at h' p = next_at h p) →
  in_order h l → in_order h' l.
Proof.
  intros Hext Hs. induction Hs as [|p l Hs IH Hp]; [constructor|]. constructor.
  - apply IH. intros q Hq. apply Hext. by right.
  - rewrite Forall_forall in *. intros q Hq. rewrite lt_in_alt, !Hext by (by left || by right).
    rewrite <- lt_in_alt. by apply Hp.
Qed.

Lemma in_order_app h l1 l2 : in_order h (l1 ++ l2) ↔
  in_order h l1 ∧ in_order h l2 ∧ ∀ p q, p ∈ l1 → q ∈ l2 → lt_in h p q.
Proof.
  induction l1 as [|p l1 IH]; simpl.
  - split; [intros; split_and!; [constructor|done|]; intros p q Hp; by apply elem_of_nil in Hp|tauto].
  - split.
    + intros H. inversion H as [|? ? Hs Hp]; subst. apply IH in Hs as (Hs1 & Hs2 & Hs).
      apply Forall_app in Hp as [Hp1 Hp2]. split_and!; [by constructor|done|].
      intros a b [->|Ha]%elem_of_cons Hb; [|by apply Hs]. by eapply Forall_forall in Hp2.
    + intros (Hs1 & Hs2 & Hs). inversion Hs1 as [|? ? Hs1' Hp]; subst. constructor.
      * apply IH. split_and!; [done|done|]. intros a b Ha Hb. apply Hs; [by right|done].
      * apply Forall_app. split; [done|]. apply Forall_forall. intros b Hb. apply Hs; [by left|done].
Qed.

(** [lower_bound] splits an ordered set into what is below the key and the rest. *)
Lemma lower_bound_spec h k l : in_order h l →
  (∀ q, q ∈ take (lower_bound h k l) l → Comparator (key h q) k = true) ∧
  (∀ q, q ∈ drop (lower_bound h k l) l → Comparator (key h q) k = false).
Proof.
  induction 1 as [|p l Hs IH Hp]; simpl.
  - split; intros q Hq; by apply elem_of_nil in Hq.
  - destruct (Comparator (key h p) k) eqn:Hc; simpl.
    + destruct IH as [IH1 IH2]. split; [|done].
      intros q [->|Hq]%elem_of_cons; [done|by apply IH1].
    + split; [intros q Hq; by apply elem_of_nil in Hq|].
      intros q [->|Hq]%elem_of_cons; [done|].
      eapply Forall_forall in Hp; [|done]. destruct (Comparator (key h q) k) eqn:Hq'; [|done].
      apply lt_in_alt in Hp. apply Comparator_lt in Hq'. rewrite <- not_true_iff_false in Hc.
      exfalso. apply Hc, Comparator_lt. simpl in *. lia.
Qed.

Lemma set_find_Some h p l i : in_order h l → set_find h p l = Some i → l !! i = Some p.
Proof.
  unfold set_find. intros Hs H.
  destruct (lower_bound_spec h (key h p) l Hs) as [_ Hge].
  destruct (l !! lower_bound h (key h p) l) as [q|] eqn:Hq; [|done].
  destruct (less h p q) eqn:Hl; [done|]. injection H as <-. rewrite Hq. f_equal.
  assert (Comparator (key h q) (key h p) = false) as Hge'.
  { apply Hge. apply list_elem_of_lookup. exists 0%nat. by rewrite lookup_drop, Nat.add_0_r. }
  rewrite <- not_true_iff_false in Hl, Hge'. rewrite Comparator_lt in Hge'.
  unfold less in Hl. rewrite Comparator_lt in Hl. simpl in *. lia.
Qed.

Lemma set_find_in h p l : in_order h l → p ∈ l → ∃ i, set_find h p l = Some i ∧ l !! i = Some p.
Proof.
  intros Hs Hin. destruct (lower_bound_spec h (key h p) l Hs) as [Hlt Hge]. unfold set_find.
  set (i := lower_bound h (key h p) l) in *.
  assert (p ∈ drop i l) as Hd.
  { rewrite <- (take_drop i l) in Hin. apply elem_of_app in Hin as [Hin|Hin]; [|done].
    apply Hlt, Comparator_lt in Hin. lia. }
  assert (in_order h (drop i l)) as Hsd.
  { rewrite <- (take_drop i l) in Hs. by apply in_order_app in Hs as (_ & ? & _). }
  destruct (drop i l) as [|q r] eqn:Hdr; [by apply elem_of_nil in Hd|].
  assert (l !! i = Some q) as Hq.
  { rewrite <- (Nat.add_0_r i), <- lookup_drop, Hdr. done. }
  rewrite Hq. apply elem_of_cons in Hd as [->|Hd].
  - assert (less h q q = false) as ->; [|by exists i].
    apply not_true_iff_false. intros Hl. apply lt_in_alt in Hl. lia.
  - exfalso. inversion Hsd as [|? ? _ Hp]; subst. eapply Forall_forall in Hp; [|done].
    specialize (Hge q ltac:(by left)). rewrite <- not_true_iff_false in Hge. by apply Hge.
Qed.

Lemma set_find_notin h p l : in_order h l → p ∉ l → set_find h p l = None.
Proof.
  intros Hs Hin. destruct (set_find h p l) as [i|] eqn:Hf; [|done]. exfalso. apply Hin.
  apply list_elem_of_lookup. exists i. by apply set_find_Some in Hf.
Qed.

(** Inserting a timer that is not a member. *)
Lemma set_insert_spec h p l : in_order h l → p ∉ l →
  in_order h (set_insert h p l) ∧ set_insert h p l ≡ₚ p :: l ∧
  (head (set_insert h p l) = Some p ↔ ∀ q, q ∈ l → lt_in h p q).
Proof.
  intros Hs Hin. unfold set_insert. rewrite set_find_notin by done.
  destruct (lower_bound_spec h (key h p) l Hs) as [Hlt Hge].
  set (i := lower_bound h (key h p) l) in *.
  assert (∀ q, q ∈ drop i l → lt_in h p q) as Hgt.
  { intros q Hq. pose proof (Hge q Hq) as Hc. rewrite <- not_true_iff_false, Comparator_lt in Hc.
    apply lt_in_alt. simpl in Hc. assert (p ≠ q); [|lia].
    intros ->. apply Hin. rewrite <- (take_drop i l). apply elem_of_app. by right. }
  pose proof Hs as Hs'. rewrite <- (take_drop i l) in Hs'.
  apply in_order_app in Hs' as (Hs1 & Hs2 & _).
  split_and!.
  - apply in_order_app. split_and!; [done| |].
    + constructor; [done|]. by apply Forall_forall.
    + intros a b Ha [->|Hb]%elem_of_cons; [by apply Hlt|].
      transitivity p; [by apply Hlt|by apply Hgt].
  - rewrite <- (take_drop i l) at 3. by rewrite Permutation_middle.
  - split.
    + intros Hh q Hq. rewrite <- (take_drop i l) in Hq. apply elem_of_app in Hq as [Hq|Hq]; [|by apply Hgt].
      destruct (take i l) as [|a t] eqn:Ht; [by apply elem_of_nil in Hq|].
      simpl in Hh. injection Hh as ->. exfalso. apply Hin.
      rewrite <- (take_drop i l), Ht. by left.
    + intros Hall. destruct (take i l) as [|a t] eqn:Ht; [done|]. exfalso.
      assert (a ∈ l) as Ha by (rewrite <- (take_drop i l), Ht; by left).
      specialize (Hall a Ha). assert (lt_in h a p) as Hap by (apply Hlt; by left).
      rewrite lt_in_alt in *. lia.
Qed.

(** Erasing a member. *)
Lemma delete_spec h p l i : in_order h l → l !! i = Some p →
  in_order h (delete i l) ∧ (∀ q, q ∈ delete i l ↔ q ∈ l ∧ q ≠ p).
Proof.
  intros Hs Hi. pose proof (take_drop_middle l i p Hi) as Heq. rewrite delete_take_drop.
  rewrite <- Heq in Hs. apply in_order_app in Hs as (Hs1 & Hs2 & Hs).
  inversion Hs2 as [|? ? Hs2' Hp]; subst. rewrite Forall_forall in Hp.
  assert (∀ q, lt_in h q q → False) as Hirr by (intros q; rewrite lt_in_alt; lia).
  split.
  - apply in_order_app. split_and!; [done|done|]. intros a b Ha Hb. apply Hs; [done|by right].
  - intros q. rewrite <- Heq at 3. rewrite !elem_of_app, elem_of_cons. split.
    + intros [Hq|Hq]; (split; [tauto|]); intros ->.
      * apply (Hirr p), Hs; [done|by left].
      * by apply (Hirr p), Hp.
    + tauto.
Qed.

(** ** The invariant *)

Record timers_ok (st : TimerManager) : Prop := {
  ok_order : in_order (heap st) (timers_ st);
  ok_members p : p ∈ timers_ st → is_Some (heap st !! p);
  (* a timer that can still fire is in the set *)
  ok_armed p t : heap st !! p = Some t → cb_ t ≠ None → p ∈ timers_ st
}.

Lemma timer_at_insert h p t q : timer_at (<[p := t]> h) q = if decide (q = p) then t else timer_at h q.
Proof.
  unfold timer_at. destruct (decide (q = p)) as [->|].
  - by rewrite lookup_insert_eq.
  - by rewrite lookup_insert_ne by done.
Qed.

Lemma in_order_insert_other h p t l : p ∉ l → in_order h l → in_order (<[p := t]> h) l.
Proof.
  intros Hp. apply in_order_ext. intros q Hq. unfold next_at. rewrite timer_at_insert.
  rewrite decide_False; [done|]. by intros ->.
Qed.

Lemma in_order_insert_next h p t l : next_ t = next_at h p → in_order h l → in_order (<[p := t]> h) l.
Proof.
  intros Ht. apply in_order_ext. intros q Hq. unfold next_at. rewrite timer_at_insert.
  by destruct (decide (q = p)) as [->|].
Qed.

(** [AddTimer_lock] on a timer that is not in the set. *)
Lemma AddTimer_lock_spec p st : in_order (heap st) (timers_ st) → p ∉ timers_ st → ∃ st',
  AddTimer_lock p st = Ret tt st' ∧ heap st' = heap st ∧
  in_order (heap st') (timers_ st') ∧ timers_ st' ≡ₚ p :: timers_ st ∧
  previouse_time_ st' = previouse_time_ st ∧ (notified st ≤ notified st')%nat ∧
  (tickled_ st = true → tickled_ st' = true) ∧
  (tickled_ st = false → (∀ q, q ∈ timers_ st → lt_in (heap st) p q) →
     tickled_ st' = true ∧ (notified st < notified st')%nat) ∧
  (tickled_ st = false → ¬ (∀ q, q ∈ timers_ st → lt_in (heap st) p q) → tickled_ st' = false).
Proof.
  intros Hs Hp. destruct (set_insert_spec _ p _ Hs Hp) as (Hs' & Hperm & Hhead).
  unfold AddTimer_lock, mbind, M_bind, modify, get, mret, M_ret.
  destruct st as [l h tk prev nt]; simpl in *.
  destruct (bool_decide_reflect (head (set_insert h p l) = Some p)) as [Hh|Hh], tk; simpl;
    eexists; (split; [reflexivity|]); simpl; split_and!; try done; try lia;
    intros; exfalso; tauto.
Qed.

Lemma get_timer_ok p st : get_timer p st = Ret (timer_at (heap st) p) st.
Proof. done. Qed.

Lemma timer_at_Some h p t : h !! p = Some t → timer_at h p = t.
Proof. unfold timer_at. by intros ->. Qed.

(** Adding a timer with [timers_ok] for the others. *)
Lemma timers_ok_add p t st st' :
  in_order (heap st') (timers_ st') → timers_ st' ≡ₚ p :: timers_ st →
  heap st' = heap st → heap st !! p = Some t →
  (∀ q, q ∈ timers_ st → is_Some (heap st !! q)) →
  (∀ q t, q ≠ p → heap st !! q = Some t → cb_ t ≠ None → q ∈ timers_ st) → timers_ok st'.
Proof.
  intros Hs Hperm Hh Hp Hm Ha. split; [done| |].
  - intros q. rewrite Hperm, Hh. intros [->|Hq]%elem_of_cons; [by eexists|by apply Hm].
  - intros q t'. rewrite Hperm, Hh. intros Hq Hcb. destruct (decide (q = p)) as [->|]; [by left|].
    right. by eapply Ha.
Qed.

Lemma AddTimer_ok p now ms cb recurring st : timers_ok st → heap st !! p = None → ∃ st',
  AddTimer p now ms cb recurring st = Ret p st' ∧ timers_ok st' ∧
  timers_ st' ≡ₚ p :: timers_ st ∧
  heap st' = <[p := mkTimer recurring ms (u64 (now + ms)) cb]> (heap st) ∧
  (notified st ≤ notified st')%nat ∧ (tickled_ st = true → tickled_ st' = true) ∧
  (tickled_ st = false → (∀ q, q ∈ timers_ st → lt_in (heap st') p q) →
     tickled_ st' = true ∧ (notified st < notified st')%nat) ∧
  (tickled_ st = false → ¬ (∀ q, q ∈ timers_ st → lt_in (heap st') p q) → tickled_ st' = false).
Proof.
  intros [Hs Hm Ha] Hp. assert (p ∉ timers_ st) as Hnin.
  { intros Hin. apply Hm in Hin. rewrite Hp in Hin. by destruct Hin. }
  set (t := mkTimer recurring ms (u64 (now + ms)) cb).
  destruct (AddTimer_lock_spec p (set_heap (<[p := t]> (heap st)) st))
    as (st' & Hr & Hh & Hs' & Hperm & _ & Hn & Htk & Hf1 & Hf2).
  { by apply in_order_insert_other. } { done. }
  exists st'. unfold AddTimer, new_Timer, put_timer. fold t.
  split.
  { unfold modify. rewrite (bind_Ret _ _ _ tt (set_heap (<[p := t]> (heap st)) st)) by done.
    by rewrite (bind_Ret _ _ _ _ _ Hr). }
  simpl in *. rewrite Hh in *. split_and!; try done.
  eapply (timers_ok_add p t (set_heap (<[p := t]> (heap st)) st)); simpl; try done.
  - by rewrite Hh.
  - by rewrite lookup_insert_eq.
  - intros q Hq. destruct (decide (q = p)) as [->|]; [done|].
    rewrite lookup_insert_ne by done. by apply Hm.
  - intros q t' Hne. rewrite lookup_insert_ne by done. by apply Ha.
Qed.

(** Cancelling. *)
Lemma Cancel_ok p t st : timers_ok st → heap st !! p = Some t → ∃ st',
  Cancel p st = Ret (bool_decide (cb_ t ≠ None)) st' ∧ timers_ok st' ∧
  tickled_ st' = tickled_ st ∧ notified st' = notified st ∧
  (∀ q, q ∈ timers_ st' ↔ q ∈ timers_ st ∧ (cb_ t = None ∨ q ≠ p)) ∧
  heap st' = <[p := mkTimer (recurring_ t) (ms_ t) (next_ t) None]> (heap st).
Proof.
  intros [Hs Hm Ha] Hp. unfold Cancel.
  rewrite (bind_Ret _ _ _ _ _ (get_timer_ok p st)), (timer_at_Some _ _ _ Hp).
  destruct (cb_ t) as [c|] eqn:Hcb.
  2:{ exists st. split_and!; try done; [tauto|].
      destruct t as [r m n cb]; simpl in *. subst. by rewrite insert_id. }
  set (t' := mkTimer (recurring_ t) (ms_ t) (next_ t) None).
  set (st1 := set_heap (<[p := t']> (heap st)) st).
  rewrite (bind_Ret (put_timer p t') _ _ tt st1) by done.
  assert (in_order (heap st1) (timers_ st1)) as Hs1.
  { apply in_order_insert_next; [|done]. unfold next_at. by rewrite (timer_at_Some _ _ _ Hp). }
  assert (p ∈ timers_ st1) as Hin by (eapply Ha; [done|by rewrite Hcb]).
  destruct (set_find_in _ _ _ Hs1 Hin) as (i & Hf & Hi).
  rewrite (bind_Ret (find_this p) _ _ (Some i) st1)
    by (unfold find_this, mbind, M_bind, get, mret, M_ret; by rewrite Hf).
  destruct (delete_spec _ _ _ _ Hs1 Hi) as [Hs2 Hel].
  eexists. split; [reflexivity|]. simpl in Hel |- *. split_and!; try done.
  - split; simpl; [done| |].
    + intros q Hq%Hel. destruct (decide (q = p)) as [->|]; [tauto|].
      rewrite lookup_insert_ne by done. apply Hm. tauto.
    + intros q tq. destruct (decide (q = p)) as [->|]; [rewrite lookup_insert_eq; by intros [= <-]|].
      rewrite lookup_insert_ne by done. intros Hq Hcq. apply Hel. split; [by eapply Ha|done].
  - intros q. rewrite Hel. split; [intros [? ?]; split; [done|by right]|by intros [? [?|?]]].
Qed.

(** Taking a member out of the set before changing its time. *)
Lemma erase_found p t st : timers_ok st → heap st !! p = Some t → cb_ t ≠ None → ∃ i st1,
  find_this p st = Ret (Some i) st ∧ set_erase (Some i) st = Ret tt st1 ∧
  heap st1 = heap st ∧ tickled_ st1 = tickled_ st ∧ notified st1 = notified st ∧
  previouse_time_ st1 = previouse_time_ st ∧
  in_order (heap st1) (timers_ st1) ∧ (∀ q, q ∈ timers_ st1 ↔ q ∈ timers_ st ∧ q ≠ p).
Proof.
  intros [Hs Hm Ha] Hp Hcb. assert (p ∈ timers_ st) as Hin by (by eapply Ha).
  destruct (set_find_in _ _ _ Hs Hin) as (i & Hf & Hi).
  destruct (delete_spec _ _ _ _ Hs Hi) as [Hs2 Hel].
  exists i, (set_timers_ (delete i (timers_ st)) st). split_and!; try done.
  unfold find_this, mbind, M_bind, get, mret, M_ret. by rewrite Hf.
Qed.

Lemma Refresh_ok p t now st : timers_ok st → heap st !! p = Some t → ∃ st',
  Refresh p now st = Ret (bool_decide (cb_ t ≠ None)) st' ∧ timers_ok st' ∧
  (∀ q, q ∈ timers_ st' ↔ q ∈ timers_ st) ∧
  heap st' = <[p := if decide (cb_ t = None) then t
                    else mkTimer (recurring_ t) (ms_ t) (u64 (now + ms_ t)) (cb_ t)]> (heap st).
Proof.
  intros Hok Hp. unfold Refresh.
  rewrite (bind_Ret _ _ _ _ _ (get_timer_ok p st)), (timer_at_Some _ _ _ Hp).
  destruct (decide (cb_ t = None)) as [Hcb|Hcb].
  { exists st. rewrite Hcb. split_and!; try done. by rewrite insert_id. }
  destruct (erase_found p t st Hok Hp Hcb) as (i & st1 & Hf & He & Hh & _ & _ & _ & Hs1 & Hel).
  destruct (cb_ t) as [c|] eqn:Hc; [|done].
  rewrite (bind_Ret _ _ _ _ _ Hf), (bind_Ret _ _ _ _ _ He).
  set (t' := mkTimer (recurring_ t) (ms_ t) (u64 (now + ms_ t)) (Some c)).
  destruct Hok as [Hs Hm Ha].
  assert (p ∉ timers_ st1) as Hnin by (intros Hin; apply Hel in Hin; tauto).
  assert (in_order (<[p := t']> (heap st1)) (timers_ st1)) as Hs2 by (by apply in_order_insert_other).
  destruct (set_insert_spec _ _ _ Hs2 Hnin) as (Hs3 & Hperm & _).
  eexists. split; [unfold mbind, M_bind, put_timer, modify, mret, M_ret; simpl; reflexivity|].
  simpl. split_and!.
  - eapply (timers_ok_add p t' (set_heap (<[p := t']> (heap st1)) st1)); simpl; try done.
    + by rewrite lookup_insert_eq.
    + intros q [Hq Hne]%Hel. rewrite lookup_insert_ne, Hh by done. by apply Hm.
    + intros q tq Hne. rewrite lookup_insert_ne, Hh by done. intros Hq Hcq. apply Hel.
      split; [by eapply Ha|done].
  - intros q. rewrite Hperm, elem_of_cons, Hel.
    assert (p ∈ timers_ st) by (eapply Ha; [done|by rewrite Hc]).
    destruct (decide (q = p)) as [->|]; [split; [done|by left]|].
    split; [by intros [?|[? _]]|intros; by right].
  - by rewrite Hh.
Qed.

Lemma Reset_ok p t now ms from_now st : timers_ok st → heap st !! p = Some t → ∃ st' b,
  Reset p now ms from_now st = Ret b st' ∧ timers_ok st' ∧
  (∀ q, q ∈ timers_ st' ↔ q ∈ timers_ st) ∧ (notified st ≤ notified st')%nat ∧
  (st' = st ∨ ∃ t', heap st' = <[p := t']> (heap st) ∧ cb_ t ≠ None ∧
    t' = mkTimer (recurring_ t) ms (u64 ((if from_now then now else u64 (next_ t - ms_ t)) + ms)) (cb_ t) ∧
    (tickled_ st = true → tickled_ st' = true) ∧
    (tickled_ st = false → (∀ q, q ∈ timers_ st → q ≠ p → lt_in (heap st') p q) →
       tickled_ st' = true ∧ (notified st < notified st')%nat) ∧
    (tickled_ st = false → ¬ (∀ q, q ∈ timers_ st → q ≠ p → lt_in (heap st') p q) →
       tickled_ st' = false)).
Proof.
  intros Hok Hp. unfold Reset.
  rewrite (bind_Ret _ _ _ _ _ (get_timer_ok p st)), (timer_at_Some _ _ _ Hp).
  destruct ((ms =? ms_ t) && negb from_now).
  { exists st, true. split_and!; try done. by left. }
  destruct (decide (cb_ t = None)) as [Hcb|Hcb].
  { exists st, false. rewrite Hcb. split_and!; try done. by left. }
  destruct (erase_found p t st Hok Hp Hcb) as (i & st1 & Hf & He & Hh & Htk & Hnt & _ & Hs1 & Hel).
  destruct (cb_ t) as [c|] eqn:Hc; [|done].
  rewrite (bind_Ret _ _ _ _ _ Hf), (bind_Ret _ _ _ _ _ He).
  set (t' := mkTimer _ _ _ _). destruct Hok as [Hs Hm Ha].
  assert (p ∉ timers_ st1) as Hnin by (intros Hin; apply Hel in Hin; tauto).
  set (st2 := set_heap (<[p := t']> (heap st1)) st1).
  rewrite (bind_Ret (put_timer p t') _ _ tt st2) by done.
  destruct (AddTimer_lock_spec p st2) as (st' & Hr & Hh' & Hs' & Hperm & _ & Hn & Htk1 & Hf1 & Hf2).
  { by apply in_order_insert_other. } { done. }
  rewrite (bind_Ret _ _ _ _ _ Hr). exists st', true. simpl in *.
  split_and!; [done| | |lia|].
  - eapply (timers_ok_add p t' st2); simpl; try done.
    + by rewrite lookup_insert_eq.
    + intros q [Hq Hne]%Hel. rewrite lookup_insert_ne, Hh by done. by apply Hm.
    + intros q tq Hne. rewrite lookup_insert_ne, Hh by done. intros Hq Hcq. apply Hel.
      split; [by eapply Ha|done].
  - intros q. rewrite Hperm, elem_of_cons, Hel.
    assert (p ∈ timers_ st) by (eapply Ha; [done|by rewrite Hc]).
    destruct (decide (q = p)) as [->|]; [split; [done|by left]|].
    split; [by intros [?|[? _]]|intros; by right].
  - right. exists t'. rewrite Hh', Hh, Htk, Hnt in *. split_and!; try done.
    + intros Ht Hall. apply Hf1; [done|]. intros q [Hq Hne]%Hel. by apply Hall.
    + intros Ht Hall. apply Hf2; [done|]. intros Hall'. apply Hall. intros q Hq Hne.
      apply Hall', Hel. done.
Qed.

(** ** Expiry *)

(** A timer after it fired at [now]. *)
Definition fired (now : Z) (t : Timer) : Timer :=
  if recurring_ t then mkTimer true (ms_ t) (u64 (now + ms_ t)) (cb_ t)
  else mkTimer false (ms_ t) (next_ t) None.

Lemma fire_loop_spec now ex : ∀ st, in_order (heap st) (timers_ st) → NoDup ex →
  (∀ p, p ∈ ex → p ∉ timers_ st) → ∃ st',
  fire_loop now ex st = Ret (map (λ p, cb_ (timer_at (heap st) p)) ex) st' ∧
  in_order (heap st') (timers_ st') ∧
  (∀ q, q ∈ timers_ st' ↔ q ∈ timers_ st ∨ (q ∈ ex ∧ recurring_ (timer_at (heap st) q) = true)) ∧
  (∀ q, heap st' !! q = if decide (q ∈ ex) then Some (fired now (timer_at (heap st) q))
                        else heap st !! q) ∧
  tickled_ st' = tickled_ st ∧ notified st' = notified st ∧
  previouse_time_ st' = previouse_time_ st.
Proof.
  induction ex as [|p ex IH]; intros st Hs Hnd Hdis.
  { exists st. split_and!; try done.
    intros q. split; [by left|]. intros [|[Hq _]]; [done|]. by apply elem_of_nil in Hq. }
  apply NoDup_cons in Hnd as [Hp Hnd]. cbn [fire_loop].
  rewrite (bind_Ret _ _ _ _ _ (get_timer_ok p st)). set (t := timer_at (heap st) p).
  assert (p ∉ timers_ st) as Hpn by (apply Hdis; by left).
  set (st0 := set_heap (<[p := fired now t]> (heap st)) st).
  assert (in_order (heap st0) (timers_ st0)) as Hs0 by (by apply in_order_insert_other).
  destruct (set_insert_spec _ p _ Hs0 Hpn) as (Hsi & Hperm & _).
  set (st1 := if recurring_ t then set_timers_ (set_insert (heap st0) p (timers_ st0)) st0 else st0).
  assert (in_order (heap st1) (timers_ st1) ∧ heap st1 = heap st0 ∧
    (∀ q, q ∈ timers_ st1 ↔ q ∈ timers_ st ∨ (q = p ∧ recurring_ t = true)) ∧
    tickled_ st1 = tickled_ st ∧ notified st1 = notified st ∧
    previouse_time_ st1 = previouse_time_ st) as (Hs1 & Hh1 & Hel1 & Htk & Hnt & Hpr).
  { unfold st1. destruct (recurring_ t); simpl; split_and!; try done; intros q.
    - simpl in Hperm. rewrite Hperm, elem_of_cons.
      split; [intros [->|?]; [by right|by left]|intros [?|[-> _]]; [by right|by left]].
    - split; [by left|by intros [?|[_ ?]]]. }
  destruct (IH st1) as (st' & Hr & Hs' & Hel & Hlk & Htk' & Hnt' & Hpr'); [done|done| |].
  { intros q Hq Hin. apply Hel1 in Hin as [Hin|[-> _]]; [|done].
    eapply Hdis; [|exact Hin]. by right. }
  assert (∀ q, q ∈ ex → timer_at (heap st1) q = timer_at (heap st) q) as Hat.
  { intros q Hq. rewrite Hh1. unfold st0. simpl. rewrite timer_at_insert.
    rewrite decide_False; [done|]. by intros ->. }
  exists st'. split_and!; try congruence.
  - erewrite (bind_Ret _ _ st tt st1).
    + rewrite (bind_Ret _ _ _ _ _ Hr). unfold mret, M_ret. simpl. do 2 f_equal.
      apply map_ext_in. intros q Hq. rewrite Hat; [done|]. by apply list_elem_of_In.
    + unfold st1, st0, fired. destruct t as [[] m n c]; done.
  - intros q. rewrite Hel, Hel1, elem_of_cons. split.
    + intros [[Hq|[-> Hq]]|[Hq Hr']]; [by left|right; split; [by left|done]|].
      right. rewrite <- Hat by done. split; [by right|done].
    + intros [Hq|[[->|Hq] Hr']]; [by left; left|by left; right|].
      right. rewrite Hat by done. done.
  - intros q. rewrite Hlk. destruct (decide (q ∈ ex)) as [Hq|Hq].
    + rewrite decide_True by (by right). by rewrite Hat.
    + rewrite Hh1. unfold st0. simpl. destruct (decide (q = p)) as [->|Hne].
      * rewrite decide_True by (by left). by rewrite lookup_insert_eq.
      * rewrite decide_False; [by rewrite lookup_insert_ne|].
        intros [?|?]%elem_of_cons; done.
Qed.

(** The cut: what is due at [now] is exactly what is taken. *)
Lemma due_cut h now q0 l : in_order h l →
  let n := (lower_bound h (now, q0) l + skip_now h now (drop (lower_bound h (now, q0) l) l))%nat in
  (∀ q, q ∈ take n l → next_at h q ≤ now) ∧ (∀ q, q ∈ drop n l → now < next_at h q).
Proof.
  intros Hs n. destruct (lower_bound_spec h (now, q0) l Hs) as [Hlt Hge].
  set (i := lower_bound h (now, q0) l) in *.
  assert (∀ r, in_order h r → (∀ q, q ∈ r → now ≤ next_at h q) →
    (∀ q, q ∈ take (skip_now h now r) r → next_at h q ≤ now) ∧
    (∀ q, q ∈ drop (skip_now h now r) r → now < next_at h q)) as Hskip.
  { induction 1 as [|p r Hr IH Hp]; intros Hle; simpl.
    { split; intros q Hq; by apply elem_of_nil in Hq. }
    destruct (Z.eqb_spec (next_at h p) now) as [He|He]; simpl.
    - destruct IH as [IH1 IH2]; [intros q Hq; apply Hle; by right|].
      split; [|done]. intros q [->|Hq]%elem_of_cons; [lia|by apply IH1].
    - split; [intros q Hq; by apply elem_of_nil in Hq|].
      pose proof (Hle p ltac:(by left)). intros q [->|Hq]%elem_of_cons; [lia|].
      eapply Forall_forall in Hp; [|done]. apply lt_in_alt in Hp. lia. }
  destruct (Hskip (drop i l)) as [Hs1 Hs2].
  { rewrite <- (take_drop i l) in Hs. by apply in_order_app in Hs as (_ & ? & _). }
  { intros q Hq%Hge. rewrite <- not_true_iff_false, Comparator_lt in Hq. simpl in Hq. lia. }
  unfold n. rewrite <- drop_drop. split; [|done].
  intros q Hq. rewrite <- (slice_app 0 i (skip_now h now (drop i l)) l : take i l ++ _ = take _ l) in Hq.
  apply elem_of_app in Hq as [Hq|Hq]; [|by apply Hs1].
  apply Hlt, Comparator_lt in Hq. simpl in Hq. lia.
Qed.

(** The clock went back more than an hour since it was last looked at. *)
Definition rolled_over (now : Z) (st : TimerManager) : bool :=
  (now <? previouse_time_ st) && (now <? u64 (previouse_time_ st - 60 * 60 * 1000)).

Definition due (now : Z) (st : TimerManager) (p : nat) : Prop :=
  rolled_over now st = true ∨ next_at (heap st) p ≤ now.

Lemma expire_ok now st ex rest : timers_ok st → timers_ st = ex ++ rest → ∃ st',
  fire_loop now ex (set_timers_ rest (set_previouse_time_ now st))
    = Ret (map (λ p, cb_ (timer_at (heap st) p)) ex) st' ∧ timers_ok st' ∧
  (∀ q, q ∈ timers_ st' ↔ q ∈ rest ∨ (q ∈ ex ∧ recurring_ (timer_at (heap st) q) = true)) ∧
  (∀ q, heap st' !! q = if decide (q ∈ ex) then Some (fired now (timer_at (heap st) q))
                        else heap st !! q).
Proof.
  intros [Hs Hm Ha] Heq. rewrite Heq in Hs. pose proof (in_order_nodup _ _ Hs) as Hnd.
  apply NoDup_app in Hnd as (Hnd & Hdis & _). apply in_order_app in Hs as (_ & Hs & _).
  destruct (fire_loop_spec now ex (set_timers_ rest (set_previouse_time_ now st)))
    as (st' & Hr & Hs' & Hel & Hlk & _); [done..|].
  exists st'. split_and!; try done. split; [done| |].
  - intros p [Hp|[Hp _]]%Hel; rewrite Hlk; (destruct (decide (p ∈ ex)); [by eexists|]); [|done].
    apply Hm. rewrite Heq. apply elem_of_app. by right.
  - intros p t. rewrite Hlk, Hel. destruct (decide (p ∈ ex)) as [Hp|Hp].
    + intros [= <-] Hcb. right. split; [done|]. simpl in *. unfold fired in Hcb.
      by destruct (recurring_ (timer_at (heap st) p)).
    + intros Hl Hcb. left. pose proof (Ha p t Hl Hcb) as Hin. rewrite Heq in Hin.
      by apply elem_of_app in Hin as [?|?].
Qed.

Lemma ListExpiredCb_ok now q0 st : timers_ok st → ∃ ex rest st',
  ListExpiredCb now q0 st = Ret (map (λ p, cb_ (timer_at (heap st) p)) ex) st' ∧ timers_ok st' ∧
  timers_ st = ex ++ rest ∧ (∀ p, p ∈ ex → due now st p) ∧ (∀ p, p ∈ rest → ¬ due now st p) ∧
  (∀ p, p ∈ timers_ st' ↔ p ∈ rest ∨ (p ∈ ex ∧ recurring_ (timer_at (heap st) p) = true)) ∧
  (∀ p, heap st' !! p = if decide (p ∈ ex) then Some (fired now (timer_at (heap st) p))
                        else heap st !! p).
Proof.
  intros Hok. pose proof Hok as [Hs Hm Ha]. unfold ListExpiredCb.
  rewrite (bind_Ret get _ _ st st) by done.
  destruct (timers_ st) as [|first l] eqn:Hl.
  { exists [], [], st. rewrite Hl. split_and!; try done; intros p.
    - intros Hp. by apply elem_of_nil in Hp.
    - intros Hp. by apply elem_of_nil in Hp.
    - split; [intros Hp; by apply elem_of_nil in Hp|].
      intros [Hp|[Hp _]]; by apply elem_of_nil in Hp. }
  rewrite <- Hl in *. set (st1 := set_previouse_time_ now st).
  rewrite (bind_Ret (DetectClockRollover now) _ _ (rolled_over now st) st1) by done.
  destruct (rolled_over now st) eqn:Hro.
  - cbn [negb andb].
    rewrite drop_all. cbn [skip_now]. rewrite Nat.add_0_r, take_ge, drop_all by lia.
    destruct (expire_ok now st (timers_ st) []) as (st' & Hr & Hok' & Hel & Hlk);
      [done|by rewrite app_nil_r|].
    exists (timers_ st), [], st'. rewrite app_nil_r. split_and!; try done.
    + intros p _. by left.
    + intros p Hp. by apply elem_of_nil in Hp.
  - destruct (due_cut (heap st) now q0 (timers_ st) Hs) as [Hle Hgt]. cbn [negb andb].
    destruct (Z.ltb_spec now (next_at (heap st) first)) as [Hf|Hf].
    + exists [], (timers_ st), st1. split_and!; try done.
      * intros p Hp. by apply elem_of_nil in Hp.
      * intros p Hp [?|Hd]; [congruence|]. rewrite Hl in Hp, Hs.
        apply elem_of_cons in Hp as [->|Hp]; [lia|]. inversion Hs as [|? ? _ Hfa]; subst.
        eapply Forall_forall in Hfa; [|done]. apply lt_in_alt in Hfa. lia.
      * intros p. split; [by left|]. intros [Hp|[Hp _]]; [done|by apply elem_of_nil in Hp].
    + set (n := (lower_bound _ _ _ + _)%nat) in *.
      destruct (expire_ok now st (take n (timers_ st)) (drop n (timers_ st)))
        as (st' & Hr & Hok' & Hel & Hlk); [done|by rewrite take_drop|].
      exists (take n (timers_ st)), (drop n (timers_ st)), st'. split_and!; try done.
      * by rewrite take_drop.
      * intros p Hp. right. by apply Hle.
      * intros p Hp%Hgt [?|?]; [congruence|lia].
Qed.

Lemma GetNextTimer_ok now st : timers_ok st → ∃ d,
  GetNextTimer now st = Ret d (set_tickled_ false st) ∧
  (timers_ st = [] → d = 2 ^ 64 - 1) ∧
  (∀ first l, timers_ st = first :: l →
     (∀ p, p ∈ timers_ st → next_at (heap st) first ≤ next_at (heap st) p) ∧
     d = if next_at (heap st) first <=? now then 0 else u64 (next_at (heap st) first - now)).
Proof.
  intros [Hs Hm Ha]. unfold GetNextTimer, mbind, M_bind, modify, get, mret, M_ret.
  destruct st as [l h tk pr nt]; simpl in *. destruct l as [|first l].
  { eexists. split_and!; [reflexivity|done|done]. }
  exists (if next_at h first <=? now then 0 else u64 (next_at h first - now)). split_and!.
  - by destruct (next_at h first <=? now).
  - done.
  - intros ? ? [= <- <-]. split; [|done]. inversion Hs as [|? ? _ Hfa]; subst.
    intros p [->|Hp]%elem_of_cons; [lia|]. eapply Forall_forall in Hfa; [|done].
    apply lt_in_alt in Hfa. lia.
Qed.

(** ** Runs *)

Lemma run_call_ok c st : timers_ok st → call_ok c st → ∃ st', run_call c st = Ret tt st' ∧ timers_ok st'.
Proof.
  intros Hok Hc. assert (∀ {A} (m : M TimerManager A) a st', m st = Ret a st' →
    (m ;; mret tt) st = Ret tt st') as Hseq.
  { intros A m a st' Hm. by rewrite (bind_Ret _ _ _ _ _ Hm). }
  destruct c as [p now ms cb r|p|p now|p now ms f|now|now q]; simpl in *.
  - destruct (AddTimer_ok p now ms cb r st Hok Hc) as (st' & Hr & Hok' & _). eauto.
  - destruct Hc as [t Ht]. destruct (Cancel_ok p t st Hok Ht) as (st' & Hr & Hok' & _). eauto.
  - destruct Hc as [t Ht]. destruct (Refresh_ok p t now st Hok Ht) as (st' & Hr & Hok' & _). eauto.
  - destruct Hc as [t Ht].
    destruct (Reset_ok p t now ms f st Hok Ht) as (st' & b & Hr & Hok' & _). eauto.
  - destruct (GetNextTimer_ok now st Hok) as (d & Hr & _). eexists. split; [eauto|].
    destruct Hok. by split.
  - destruct (ListExpiredCb_ok now q st Hok) as (ex & rest & st' & Hr & Hok' & _). eauto.
Qed.

Lemma timers_ok_new now : timers_ok (new_TimerManager now).
Proof.
  split; simpl; [constructor| |].
  - intros p Hp. by apply elem_of_nil in Hp.
  - intros p t Hp. by rewrite lookup_empty in Hp.
Qed.

Lemma reachable_timers_ok st : reachable st → timers_ok st.
Proof.
  induction 1 as [now|c st st' _ IH Hc Hr]; [apply timers_ok_new|].
  destruct (run_call_ok c st IH Hc) as (st2 & Hr2 & Hok2). rewrite Hr in Hr2. by injection Hr2 as ->.
Qed.

(** Calls that can only bring the next expiry forward through [AddTimer_lock]. *)
Inductive scheduling : call → Prop :=
  | sched_add p now ms cb r : scheduling (CAddTimer p now ms cb r)
  | sched_cancel p : scheduling (CCancel p)
  | sched_reset p now ms f : scheduling (CReset p now ms f).

Inductive runs : TimerManager → TimerManager → Prop :=
  | runs_refl st : runs st st
  | runs_step st c st1 st2 : runs st st1 → scheduling c → call_ok c st1 →
      run_call c st1 = Ret tt st2 → runs st st2.

(** Since the idle thread looked at [st0]: either it has been notified, or no
    timer is due before those it saw. *)
Record watched (st0 st : TimerManager) : Prop := {
  watched_ok : timers_ok st;
  watched_mono : (notified st0 ≤ notified st)%nat;
  watched_tickled : tickled_ st = true → (notified st0 < notified st)%nat;
  watched_front : tickled_ st = false → ∀ p, p ∈ timers_ st →
    ∃ q, q ∈ timers_ st0 ∧ next_at (heap st0) q ≤ next_at (heap st) p
}.

Lemma not_first h p (l : list nat) : ¬ (∀ q, q ∈ l → lt_in h p q) → ∃ q, q ∈ l ∧ next_at h q ≤ next_at h p.
Proof.
  intros Hn. destruct (decide (Forall (lt_in h p) l)) as [Hf|Hf].
  - exfalso. apply Hn. by apply Forall_forall.
  - apply not_Forall_Exists in Hf; [|apply _]. apply Exists_exists in Hf as (q & Hq & Hl).
    exists q. split; [done|]. change (¬ lt_in h p q) in Hl. rewrite lt_in_alt in Hl. lia.
Qed.

Lemma next_at_insert h p t q :
  next_at (<[p := t]> h) q = if decide (q = p) then next_ t else next_at h q.
Proof. unfold next_at. rewrite timer_at_insert. by destruct (decide (q = p)). Qed.

(** A timer [p] put in the set behind others that are due no later. *)
Lemma watched_insert st0 st st' p t : watched st0 st → timers_ok st' →
  heap st' = <[p := t]> (heap st) → (notified st ≤ notified st')%nat →
  (∀ q, q ∈ timers_ st' → q = p ∨ (q ∈ timers_ st ∧ q ≠ p)) →
  (tickled_ st = true → tickled_ st' = true) →
  (tickled_ st = false → (∀ q, q ∈ timers_ st → q ≠ p → lt_in (heap st') p q) →
     tickled_ st' = true ∧ (notified st < notified st')%nat) →
  (tickled_ st = false → ¬ (∀ q, q ∈ timers_ st → q ≠ p → lt_in (heap st') p q) →
     tickled_ st' = false) →
  watched st0 st'.
Proof.
  intros [Hok Hmono Htk Hfr] Hok' Hh Hn Hel Ht Hf Hnf.
  assert ((∀ q, q ∈ timers_ st → q ≠ p → lt_in (heap st') p q) ∨
    (¬ (∀ q, q ∈ timers_ st → q ≠ p → lt_in (heap st') p q) ∧
     ∃ q, q ∈ timers_ st ∧ q ≠ p ∧ next_at (heap st') q ≤ next_at (heap st') p)) as Hcase.
  { destruct (decide (Forall (lt_in (heap st') p) (filter (λ q, q ≠ p) (timers_ st)))) as [Hd|Hd].
    - left. intros q Hq Hne. rewrite Forall_forall in Hd. apply Hd. by apply list_elem_of_filter.
    - right. rewrite Forall_forall in Hd. split.
      + intros Hall. apply Hd. intros q [? ?]%list_elem_of_filter. by apply Hall.
      + destruct (not_first _ _ _ Hd) as (q & [? ?]%list_elem_of_filter & ?). by exists q. }
  split; [done|lia| |].
  - intros Ht'. destruct (tickled_ st) eqn:Hts; [pose proof (Htk eq_refl); lia|].
    destruct Hcase as [Hall|[Hnall _]]; [by destruct (Hf eq_refl Hall); lia|].
    rewrite Hnf in Ht' by done. done.
  - intros Ht' q Hq. destruct (tickled_ st) eqn:Hts; [rewrite Ht in Ht' by done; done|].
    destruct Hcase as [Hall|[_ (q1 & Hq1 & Hne & Hle)]].
    { destruct (Hf eq_refl Hall) as [? _]. congruence. }
    apply Hel in Hq as [->|[Hq Hqp]].
    + destruct (Hfr eq_refl q1 Hq1) as (q0 & Hq0 & Hle0). exists q0. split; [done|].
      rewrite Hh, (next_at_insert _ _ _ q1), decide_False in Hle by done. rewrite Hh. lia.
    + rewrite Hh, next_at_insert, decide_False by done. by apply Hfr.
Qed.

Lemma watched_call st0 c st st' : watched st0 st → scheduling c → call_ok c st →
  run_call c st = Ret tt st' → watched st0 st'.
Proof.
  intros Hw Hc Hok Hr. pose proof (watched_ok _ _ Hw) as Hst. destruct Hc as [p now ms cb r|p|p now ms f];
    simpl in Hok, Hr.
  - destruct (AddTimer_ok p now ms cb r st Hst Hok)
      as (st2 & Hr2 & Hok2 & Hperm & Hh & Hn & Ht & Hf & Hnf).
    rewrite (bind_Ret _ _ _ _ _ Hr2) in Hr. injection Hr as <-.
    assert (∀ q, q ∈ timers_ st → q ≠ p) as Hne.
    { intros q Hq ->. destruct (ok_members _ Hst _ Hq) as [? ?]. congruence. }
    eapply watched_insert; try done.
    + intros q. rewrite Hperm. intros [->|Hq]%elem_of_cons; [by left|right; split; [done|by apply Hne]].
    + intros Hts Hall. apply Hf; [done|]. intros q Hq. apply Hall; [done|by apply Hne].
    + intros Hts Hall. apply Hnf; [done|]. intros Hall'. apply Hall. intros q Hq _. by apply Hall'.
  - destruct Hok as [t Ht]. destruct (Cancel_ok p t st Hst Ht) as (st2 & Hr2 & Hok2 & Htk & Hn & Hel & Hh).
    rewrite (bind_Ret _ _ _ _ _ Hr2) in Hr. injection Hr as <-.
    destruct Hw as [_ Hmono Htk0 Hfr]. split; [done|by rewrite Hn|by rewrite Htk, Hn|].
    rewrite Htk. intros Hts q [Hq _]%Hel. destruct (Hfr Hts q Hq) as (q0 & Hq0 & Hle).
    exists q0. split; [done|]. rewrite Hh, next_at_insert. destruct (decide (q = p)) as [->|]; [|done].
    simpl. unfold next_at in Hle at 2. by rewrite (timer_at_Some _ _ _ Ht) in Hle.
  - destruct Hok as [t Ht].
    destruct (Reset_ok p t now ms f st Hst Ht) as (st2 & b & Hr2 & Hok2 & Hel & Hn & Hcase).
    rewrite (bind_Ret _ _ _ _ _ Hr2) in Hr. injection Hr as <-.
    destruct Hcase as [->|(t' & Hh & Hcb & _ & Htk & Hf & Hnf)]; [done|].
    eapply watched_insert; try done.
    intros q Hq%Hel. destruct (decide (q = p)); [by left|by right].
Qed.

(** ** Properties *)

(** C17: in every state reachable by any sequence of calls, the set is in the
    order of its comparator although the timers it points to change, its members
    are in memory, and every timer that can still fire is in it.  From there
    every call returns: in particular [Cancel] never erases the end iterator. *)
Theorem reachable_timers_sound (st : TimerManager) (c : call) : reachable st → call_ok c st →
  timers_ok st ∧ ∃ st', run_call c st = Ret tt st' ∧ timers_ok st'.
Proof.
  intros Hr Hc. pose proof (reachable_timers_ok st Hr) as Hok.
  split; [done|]. by apply run_call_ok.
Qed.

(** C18: [ListExpiredCb] returns the callbacks of exactly the timers that are due
    at [now] (of all, when the clock went back more than an hour), in the order
    of the set; periodic ones stay in the set with their next time, the others
    leave it for good, and no other timer is touched. *)
Theorem ListExpiredCb_fires_due (st : TimerManager) (now : Z) (now_timer : nat) : timers_ok st →
  ∃ ex rest st',
  ListExpiredCb now now_timer st = Ret (map (λ p, cb_ (timer_at (heap st) p)) ex) st' ∧
  timers_ok st' ∧ timers_ st = ex ++ rest ∧
  (∀ p, p ∈ ex → due now st p) ∧ (∀ p, p ∈ rest → ¬ due now st p) ∧
  (∀ p, p ∈ timers_ st' ↔ p ∈ rest ∨ (p ∈ ex ∧ recurring_ (timer_at (heap st) p) = true)) ∧
  (∀ p, heap st' !! p = if decide (p ∈ ex) then Some (fired now (timer_at (heap st) p))
                        else heap st !! p).
Proof. apply ListExpiredCb_ok. Qed.

(** No wakeup is lost.  After [GetNextTimer] told the idle thread how long
    to sleep, if additions, resets and cancellations leave a timer that is due
    before all those it saw, then [OnTimerInsertedAtFront] has been called. *)
Theorem no_lost_wakeup (st st0 st' : TimerManager) (now d : Z) (p : nat) :
  timers_ok st → GetNextTimer now st = Ret d st0 → runs st0 st' →
  p ∈ timers_ st' → (∀ q, q ∈ timers_ st0 → next_at (heap st') p < next_at (heap st0) q) →
  (notified st0 < notified st')%nat.
Proof.
  intros Hok Hr Hruns Hp Hearly. destruct (GetNextTimer_ok now st Hok) as (d' & Hr' & _).
  rewrite Hr in Hr'. injection Hr' as <- ->.
  assert (watched (set_tickled_ false st) st') as Hw.
  { clear Hp Hearly. remember (set_tickled_ false st) as s0. induction Hruns as [|s0 c s1 s2 _ IH Hc Hcok Hrc].
    - subst. destruct Hok. split; simpl; [by split|done|done|]. intros _ q Hq. by exists q.
    - eapply watched_call; [by apply IH|done..]. }
  destruct Hw as [_ _ Htk Hfr]. destruct (tickled_ st') eqn:Ht; [by apply Htk|].
  destruct (Hfr eq_refl p Hp) as (q & Hq & Hle). specialize (Hearly q Hq). lia.
Qed.

(** [GetNextTimer] returns the time to the earliest timer of the set, 0 when
    it is due, and the largest value when there is none. *)
Theorem GetNextTimer_earliest (st : TimerManager) (now : Z) : timers_ok st → ∃ d,
  GetNextTimer now st = Ret d (set_tickled_ false st) ∧
  (timers_ st = [] → d = 2 ^ 64 - 1) ∧
  (∀ first l, timers_ st = first :: l →
     (∀ p, p ∈ timers_ st → next_at (heap st) first ≤ next_at (heap st) p) ∧
     d = if next_at (heap st) first <=? now then 0 else u64 (next_at (heap st) first - now)).
Proof. apply GetNextTimer_ok. Qed.

(** Cancelling a timer that can still fire takes it, and only it, out of the
    set, and it cannot fire or be cancelled again. *)
Theorem Cancel_once (st : TimerManager) (p : nat) (t : Timer) :
  timers_ok st → heap st !! p = Some t → cb_ t ≠ None → ∃ st',
  Cancel p st = Ret true st' ∧ timers_ok st' ∧
  (∀ q, q ∈ timers_ st' ↔ q ∈ timers_ st ∧ q ≠ p) ∧ Cancel p st' = Ret false st'.
Proof.
  intros Hok Hp Hcb. destruct (Cancel_ok p t st Hok Hp) as (st' & Hr & Hok' & _ & _ & Hel & Hh).
  rewrite bool_decide_true in Hr by done. exists st'. split_and!; try done.
  - intros q. rewrite Hel. split; [by intros [? [?|?]]|]. intros [? ?]. split; [done|by right].
  - unfold Cancel. rewrite (bind_Ret _ _ _ _ _ (get_timer_ok p st')).
    unfold timer_at. rewrite Hh, lookup_insert_eq. done.
Qed.

(** ** The properties at a concrete manager *)

(** Two timers, due at 5 and at 7; the second is periodic. *)
Definition two_timers : TimerManager :=
  mkManager [1; 0]%nat {[0%nat := mkTimer true 3 7 (Some 20%nat); 1%nat := mkTimer false 2 5 (Some 10%nat)]}
    false 3 0.

Lemma two_timers_ok : timers_ok two_timers.
Proof.
  split; simpl.
  - repeat constructor.
  - intros p [->|[->|Hp]%elem_of_cons]%elem_of_cons; [by eexists..|by apply elem_of_nil in Hp].
  - intros p t Hp _. unfold two_timers in Hp. simpl in Hp.
    destruct (decide (p = 0%nat)) as [->|]; [by right; left|].
    destruct (decide (p = 1%nat)) as [->|]; [by left|].
    by rewrite lookup_insert_ne, lookup_singleton_ne in Hp by done.
Qed.

Lemma reachable_timers_sound_witness :
  timers_ok (new_TimerManager 3) ∧
  ∃ st', run_call (CAddTimer 1 3 2 (Some 10%nat) false) (new_TimerManager 3) = Ret tt st' ∧
    timers_ok st'.
Proof. apply reachable_timers_sound; [constructor|done]. Defined.

Lemma ListExpiredCb_fires_due_witness : ∃ ex rest st',
  ListExpiredCb 5 9 two_timers = Ret (map (λ p, cb_ (timer_at (heap two_timers) p)) ex) st' ∧
  timers_ok st' ∧ timers_ two_timers = ex ++ rest ∧
  (∀ p, p ∈ ex → due 5 two_timers p) ∧ (∀ p, p ∈ rest → ¬ due 5 two_timers p) ∧
  (∀ p, p ∈ timers_ st' ↔
     p ∈ rest ∨ (p ∈ ex ∧ recurring_ (timer_at (heap two_timers) p) = true)) ∧
  (∀ p, heap st' !! p = if decide (p ∈ ex) then Some (fired 5 (timer_at (heap two_timers) p))
                        else heap two_timers !! p).
Proof. exact (ListExpiredCb_fires_due two_timers 5 9 two_timers_ok). Defined.

(** The idle thread sees 5; then a timer due at 4 is added. *)
Lemma no_lost_wakeup_witness : ∃ st', (notified two_timers < notified st')%nat.
Proof.
  destruct (run_call (CAddTimer 2 3 1 (Some 30%nat) false) (set_tickled_ false two_timers)) as [[] st'|?|?|]
    eqn:E; [|by vm_compute in E..].
  exists st'. apply (no_lost_wakeup two_timers (set_tickled_ false two_timers) st' 3 2 2 two_timers_ok).
  - reflexivity.
  - eapply runs_step; [constructor|constructor| |exact E]. done.
  - vm_compute in E. injection E as <-. by left.
  - vm_compute in E. injection E as <-. intros q.
    intros [->|[->|Hp]%elem_of_cons]%elem_of_cons; [done..|by apply elem_of_nil in Hp].
Defined.

Lemma GetNextTimer_earliest_witness : ∃ d,
  GetNextTimer 3 two_timers = Ret d (set_tickled_ false two_timers) ∧
  (timers_ two_timers = [] → d = 2 ^ 64 - 1) ∧
  (∀ first l, timers_ two_timers = first :: l →
     (∀ p, p ∈ timers_ two_timers → next_at (heap two_timers) first ≤ next_at (heap two_timers) p) ∧
     d = if next_at (heap two_timers) first <=? 3 then 0
         else u64 (next_at (heap two_timers) first - 3)).
Proof. exact (GetNextTimer_earliest two_timers 3 two_timers_ok). Defined.

Lemma Cancel_once_witness : ∃ st', Cancel 1 two_timers = Ret true st' ∧ timers_ok st' ∧
  (∀ q, q ∈ timers_ st' ↔ q ∈ [1; 0]%nat ∧ q ≠ 1%nat) ∧ Cancel 1 st' = Ret false st'.
Proof.
  exact (Cancel_once two_timers 1 (mkTimer false 2 5 (Some 10%nat)) two_timers_ok eq_refl ltac:(done)).
Defined.
