(* ===== verification/Locks.v ===== *)
(** * Locks and their guards: [base/mutex.{h,cc}]

    The locks of pthread as what they promise, a count of readers and a writer, and the
    guards [ScopedLockImpl], [ReadScopedLockImpl] and [WriteScopedLockImpl], which
    remember whether they hold their lock.  [Mutex] and [Spinlock] are locks with
    writers only.  [CASLock] is its own implementation, over an atomic flag. *)
From stdpp Require Import list.
From S2P Require Import Prelude.

(** ** Locks *)

Record RWMutex := mkLock { readers : nat; writer : bool }.
Definition new_RWMutex : RWMutex := mkLock 0 false.

(** [None] while the caller has to wait. *)
Definition rdlock (l : RWMutex) : option RWMutex := if writer l then None else Some (mkLock (S (readers l)) false).
Definition wrlock (l : RWMutex) : option RWMutex := if writer l || negb (readers l =? 0) then None else Some (mkLock 0 true).
(** [None] when nobody holds the lock, which is undefined. *)
Definition unlock (l : RWMutex) : option RWMutex :=
  if writer l then Some (mkLock (readers l) false)
  else match readers l with S n => Some (mkLock n false) | O => None end.

(** ** Guards *)

(** A guard for writing or for reading, and whether it holds the lock. *)
Record Guard := mkGuard { for_writing : bool; locked_ : bool }.

(** The lock and the guards on it. *)
Record Sys := mkSys { lock_ : RWMutex; guards : list Guard }.
Definition deref_guard (i : nat) : M Sys Guard := λ s, match guards s !! i with Some g => Ret g s | None => Undef null_deref end.
Definition put_guard (i : nat) (g : Guard) : M Sys unit := modify (λ s, mkSys (lock_ s) (<[i := g]> (guards s))).
Definition put_lock (l : RWMutex) : M Sys unit := modify (λ s, mkSys l (guards s)).

(** [lock()], which is also what the constructor does; [false] while it waits. *)
Definition Guard_lock (i : nat) : M Sys bool :=
  g ← deref_guard i;
  if locked_ g then mret true
  else
    s ← get;
    match (if for_writing g then wrlock (lock_ s) else rdlock (lock_ s)) with
    | None => mret false
    | Some l => put_lock l ;; put_guard i (mkGuard (for_writing g) true) ;; mret true
    end.

(** [unlock()], which is also what the destructor does. *)
Definition Guard_unlock (i : nat) : M Sys bool :=
  g ← deref_guard i;
  if locked_ g then
    s ← get;
    match unlock (lock_ s) with
    | None => undef assert_failed
    | Some l => put_lock l ;; put_guard i (mkGuard (for_writing g) false) ;; mret true
    end
  else mret true.

Inductive gop := GLock (i : nat) | GUnlock (i : nat).
Definition run_gop (o : gop) : M Sys bool := match o with GLock i => Guard_lock i | GUnlock i => Guard_unlock i end.
Definition gop_valid (o : gop) (s : Sys) : Prop := is_Some (guards s !! match o with GLock i | GUnlock i => i end).

(** Guards come when they are constructed, not holding the lock yet. *)
Inductive guarded : Sys → Prop :=
  | guarded_none : guarded (mkSys new_RWMutex [])
  | guarded_new s w : guarded s → guarded (mkSys (lock_ s) (guards s ++ [mkGuard w false]))
  | guarded_op s o r s' : guarded s → run_gop o s = Ret r s' → guarded s'.

(** ** What guards keep *)

Definition holds (w : bool) (g : Guard) : bool := eqb (for_writing g) w && locked_ g.
Definition held (w : bool) (gs : list Guard) : nat := length (filter (λ g, holds w g = true) gs).
Arguments held _ _ : simpl never.

Record lock_ok (s : Sys) : Prop := {
  lk_readers : readers (lock_ s) = held false (guards s);
  lk_writer : Nat.b2n (writer (lock_ s)) = held true (guards s);
  lk_excl : writer (lock_ s) = true → readers (lock_ s) = 0
}.

Lemma held_replace w gs i g g' : gs !! i = Some g →
  held w (<[i := g']> gs) + Nat.b2n (holds w g) = held w gs + Nat.b2n (holds w g').
Proof.
  intros Hi. apply list_elem_of_split_length in Hi as (l1 & l2 & -> & ->). rewrite insert_app_r_alt, Nat.sub_diag by done. cbn [list_insert insert].
  unfold held. rewrite !filter_app, !filter_cons, !length_app. destruct (holds w g), (holds w g'); repeat case_decide; cbn in *; try done; lia.
Qed.

Lemma held_pos w gs i g : gs !! i = Some g → holds w g = true → 0 < held w gs.
Proof.
  intros Hi Hg. unfold held. assert (g ∈ filter (λ g, holds w g = true) gs) as Hin.
  { apply list_elem_of_filter. split; [done|]. by eapply list_elem_of_lookup_2. }
  destruct (filter _ gs); [by apply not_elem_of_nil in Hin|cbn; lia].
Qed.

Lemma held_two w gs i j g g' : i ≠ j → gs !! i = Some g → gs !! j = Some g' → holds w g = true → holds w g' = true → 1 < held w gs.
Proof.
  intros Hij Hi Hj Hg Hg'. pose proof (held_replace w gs i g (mkGuard (for_writing g) false) Hi) as H. rewrite Hg in H.
  assert (holds w (mkGuard (for_writing g) false) = false) as Hf by (unfold holds; cbn; apply andb_false_r). rewrite Hf in H.
  assert (0 < held w (<[i := mkGuard (for_writing g) false]> gs)).
  { eapply held_pos; [|exact Hg']. by rewrite list_lookup_insert_ne. }
  cbn in H. lia.
Qed.

Lemma run_gop_ok o s : lock_ok s → gop_valid o s → ∃ r s', run_gop o s = Ret r s' ∧ lock_ok s' ∧ length (guards s') = length (guards s) ∧
  match o with
  | GLock i => (r = true ↔ ∃ w, guards s' !! i = Some (mkGuard w true)) ∧ (r = false → s' = s)
  | GUnlock i => r = true ∧ ∃ w, guards s' !! i = Some (mkGuard w false)
  end.
Proof.
  intros [Hr Hw He] [g Hi]. destruct s as [[n w] gs], g as [gw gl]. cbn [lock_ guards readers writer] in *.
  assert (∀ i g', gs !! i = Some (mkGuard gw gl) → <[i := g']> gs !! i = Some g') as Hget.
  { intros i g' H. apply list_lookup_insert_eq. by eapply lookup_lt_Some. }
  destruct o as [i|i]; cbn in Hi; cbn [run_gop]; unfold Guard_lock, Guard_unlock, deref_guard, mbind, M_bind, get, put_lock, put_guard, modify;
    cbn [guards lock_]; rewrite Hi; cbn [locked_ for_writing]; destruct gl; cbn [lock_ readers writer].
  - exists true, (mkSys (mkLock n w) gs). split_and!; try done. split; [|done]. by exists gw.
  - destruct gw; unfold wrlock, rdlock; cbn [writer readers].
    + pose proof (held_replace true gs i _ (mkGuard true true) Hi) as H1. pose proof (held_replace false gs i _ (mkGuard true true) Hi) as H2.
      cbn in H1, H2. destruct w; cbn [orb].
      { exists false, (mkSys (mkLock n true) gs). split_and!; try done. split; [done|]. intros [w' H]. cbn in H. by rewrite Hi in H. }
      destruct (Nat.eqb_spec n 0) as [->|Hn]; cbn [negb].
      * do 2 eexists. split; [reflexivity|]. cbn in *. rewrite length_insert. split_and!; [split; cbn; try done; lia|done|split; [intros _; exists true; by apply Hget|done]|done].
      * exists false, (mkSys (mkLock n false) gs). split_and!; try done. split; [done|]. intros [w' H]. cbn in H. by rewrite Hi in H.
    + pose proof (held_replace true gs i _ (mkGuard false true) Hi) as H1. pose proof (held_replace false gs i _ (mkGuard false true) Hi) as H2.
      cbn in H1, H2. destruct w.
      { exists false, (mkSys (mkLock n true) gs). split_and!; try done. split; [done|]. intros [w' H]. cbn in H. by rewrite Hi in H. }
      do 2 eexists. split; [reflexivity|]. cbn in *. rewrite length_insert. split_and!; [split; cbn; try done; lia|done|split; [intros _; exists false; by apply Hget|done]|done].
  - pose proof (held_replace true gs i _ (mkGuard gw false) Hi) as H1. pose proof (held_replace false gs i _ (mkGuard gw false) Hi) as H2.
    pose proof (held_pos gw gs i _ Hi) as Hp. unfold unlock. cbn [writer readers].
    destruct gw; cbn in H1, H2, Hp; specialize (Hp eq_refl).
    + destruct w; [|cbn in Hw; lia]. do 2 eexists. split; [reflexivity|]. cbn in *. rewrite length_insert.
      split_and!; [split; cbn; try done; lia|done|done|exists true; by apply Hget].
    + destruct w; [specialize (He eq_refl); lia|]. destruct n as [|n]; [lia|]. do 2 eexists. split; [reflexivity|]. cbn in *. rewrite length_insert.
      split_and!; [split; cbn; try done; lia|done|done|exists false; by apply Hget].
  - exists true, (mkSys (mkLock n w) gs). split_and!; try done. by exists gw.
Qed.

Lemma guarded_ok s : guarded s → lock_ok s.
Proof.
  induction 1 as [|s w _ [Hr Hw He]|s o r s' _ IH He]; [done| |].
  - split; cbn; [| |done]; unfold held in *; rewrite filter_app, length_app, filter_cons_False, filter_nil; cbn; try lia;
      unfold holds; cbn; rewrite andb_false_r; done.
  - assert (gop_valid o s) as Hv.
    { unfold gop_valid. destruct o as [i|i]; cbn in He; unfold Guard_lock, Guard_unlock, mbind, M_bind, deref_guard in He; by destruct (guards s !! i). }
    destruct (run_gop_ok o s IH Hv) as (r' & s1 & He' & Hok & _). rewrite He in He'. by injection He' as _ <-.
Qed.

(** Whatever guards do, in whatever order their threads get in, a guard for writing
    holds the lock alone; no guard ever releases a lock that is not held; and when no
    guard holds the lock any more it is free. *)
Theorem guards_exclude (s : Sys) (o : gop) : guarded s → gop_valid o s →
  (∃ r s', run_gop o s = Ret r s' ∧ guarded s') ∧
  (∀ i j w w', i ≠ j → guards s !! i = Some (mkGuard w true) → guards s !! j = Some (mkGuard w' true) → w = false ∧ w' = false) ∧
  (Forall (λ g, locked_ g = false) (guards s) → lock_ s = new_RWMutex) ∧
  (∀ i w, guards s !! i = Some (mkGuard w true) → lock_ s ≠ new_RWMutex).
Proof.
  intros Hs Hv. pose proof (guarded_ok s Hs) as Hok. destruct (run_gop_ok o s Hok Hv) as (r & s' & He & _). split.
  { exists r, s'. split; [done|]. by eapply guarded_op. }
  destruct Hok as [Hr Hw Hex]. destruct s as [[n w0] gs]. cbn [lock_ readers writer guards] in *. split_and!.
  - intros i j w w' Hij Hi Hj. destruct w, w'; [| | |done]; exfalso.
    + pose proof (held_two true gs i j _ _ Hij Hi Hj eq_refl eq_refl). destruct w0; cbn in Hw; lia.
    + pose proof (held_pos true gs i _ Hi eq_refl). pose proof (held_pos false gs j _ Hj eq_refl). destruct w0; [specialize (Hex eq_refl)|cbn in Hw]; lia.
    + pose proof (held_pos true gs j _ Hj eq_refl). pose proof (held_pos false gs i _ Hi eq_refl). destruct w0; [specialize (Hex eq_refl)|cbn in Hw]; lia.
  - intros Hall. assert (∀ w, held w gs = 0) as H0.
    { intros w. unfold held. clear -Hall. induction Hall as [|g gs Hg _ IH]; [done|]. rewrite filter_cons_False; [done|].
      unfold holds. by rewrite Hg, andb_false_r. }
    rewrite H0 in Hr, Hw. subst n. by destruct w0.
  - intros i w Hi [= -> ->]. pose proof (held_pos w gs i _ Hi ltac:(by destruct w)) as Hp. cbn in Hw. destruct w; lia.
Qed.

(** ** The lock over an atomic flag *)

(** Where each thread is: it does not want the lock, it spins in [lock()], it has it. *)
Inductive pc := Outside | Spinning | Inside.
Record CASLock := mkCas { flag : bool; pcs : list pc }.

Inductive cas_op := CEnter (i : nat) | CTestAndSet (i : nat) | CClear (i : nat).
(** One step of a thread: [lock()] begins, one round of its loop, [unlock()]. *)
Definition cas_step (o : cas_op) (s : CASLock) : option CASLock :=
  match o with
  | CEnter i => match pcs s !! i with Some Outside => Some (mkCas (flag s) (<[i := Spinning]> (pcs s))) | _ => None end
  | CTestAndSet i =>
    match pcs s !! i with
    | Some Spinning => Some (mkCas true (if flag s then pcs s else <[i := Inside]> (pcs s)))
    | _ => None
    end
  | CClear i => match pcs s !! i with Some Inside => Some (mkCas false (<[i := Outside]> (pcs s))) | _ => None end
  end.
Inductive cas_reachable (n : nat) : CASLock → Prop :=
  | cas_start : cas_reachable n (mkCas false (replicate n Outside))
  | cas_next s o s' : cas_reachable n s → cas_step o s = Some s' → cas_reachable n s'.

(** The promise: a lock that one thread owns or nobody. *)
Definition owner (s : CASLock) (o : option nat) : Prop :=
  match o with
  | Some i => pcs s !! i = Some Inside ∧ ∀ j, pcs s !! j = Some Inside → j = i
  | None => ∀ j, pcs s !! j ≠ Some Inside
  end.

(** C16: [CASLock] implements a lock: in every interleaving of its loops at most one
    thread is inside, the flag says whether one is, each step either leaves the owner
    as it is, or gives a free lock to a thread that spins, or frees the lock of its
    owner; and a thread that spins on a free lock gets in at its next round. *)
Theorem CASLock_is_a_lock (n : nat) (s : CASLock) : cas_reachable n s →
  (∃ o, owner s o ∧ flag s = bool_decide (o ≠ None) ∧
    ∀ op s', cas_step op s = Some s' → ∃ o', owner s' o' ∧
      (o' = o ∨ o = None ∧ (∃ i, op = CTestAndSet i ∧ o' = Some i) ∨ o' = None ∧ ∃ i, op = CClear i ∧ o = Some i)) ∧
  ∀ i, flag s = false → pcs s !! i = Some Spinning → ∃ s', cas_step (CTestAndSet i) s = Some s' ∧ owner s' (Some i).
Proof.
  assert (∀ s o op s', owner s o → flag s = bool_decide (o ≠ None) → cas_step op s = Some s' → ∃ o', owner s' o' ∧
    flag s' = bool_decide (o' ≠ None) ∧
    (o' = o ∨ o = None ∧ (∃ i, op = CTestAndSet i ∧ o' = Some i) ∨ o' = None ∧ ∃ i, op = CClear i ∧ o = Some i)) as Hstep.
  { clear. intros s o op s' Ho Hf Hs. assert (∀ i p j x, pcs s !! i = Some p → <[i := x]> (pcs s) !! j = if decide (i = j) then Some x else pcs s !! j) as Hins.
    { intros i p j x Hi. destruct (decide (i = j)) as [<-|Hij]; [apply list_lookup_insert_eq; by eapply lookup_lt_Some|by apply list_lookup_insert_ne]. }
    destruct op as [i|i|i]; cbn in Hs; destruct (pcs s !! i) as [[]|] eqn:Hi; try done; injection Hs as <-.
    - exists o. split; [|split; [done|by left]]. destruct o as [k|]; unfold owner in *; cbn [pcs].
      + destruct Ho as [Hk Hall]. split; [|intros j]; rewrite (Hins _ _ _ _ Hi); case_decide; try congruence; by apply Hall.
      + intros j. rewrite (Hins _ _ _ _ Hi). case_decide; [done|apply Ho].
    - destruct (flag s) eqn:Hflag.
      + exists o. split; [exact Ho|]. split; [exact Hf|by left].
      + destruct o as [k|]; [done|]. exists (Some i). split; [|split; [done|right; left; split; [done|by exists i]]]. unfold owner in *. cbn [pcs].
        split; [|intros j]; rewrite (Hins _ _ _ _ Hi); case_decide; try done. intros Hj. by destruct (Ho j).
    - destruct o as [k|]; unfold owner in *; [|by destruct (Ho i)]. destruct Ho as [Hk Hall]. pose proof (Hall _ Hi) as ->.
      exists None. split; [|split; [done|right; right; split; [done|by exists k]]]. cbn [pcs]. intros j. rewrite (Hins _ _ _ _ Hi).
      case_decide; [done|]. intros Hj. by apply Hall in Hj. }
  intros Hr. assert (∃ o, owner s o ∧ flag s = bool_decide (o ≠ None)) as (o & Ho & Hf).
  { induction Hr as [|s op s' _ (o & Ho & Hf) Hs].
    - exists None. split; [|done]. cbn. intros j Hj. by apply lookup_replicate in Hj as [? _].
    - destruct (Hstep _ _ _ _ Ho Hf Hs) as (o' & ? & ? & _). by exists o'. }
  split.
  - exists o. split_and!; [done..|]. intros op s' Hs. destruct (Hstep _ _ _ _ Ho Hf Hs) as (o' & ? & _ & ?). by exists o'.
  - intros i Hfree Hi. assert (cas_step (CTestAndSet i) s = Some (mkCas true (<[i := Inside]> (pcs s)))) as Hs.
    { cbn. by rewrite Hi, Hfree. }
    eexists. split; [exact Hs|]. destruct (Hstep _ _ _ _ Ho Hf Hs) as (o' & Ho' & Hf' & _). cbn in Hf'. destruct o' as [k|]; [|done].
    assert (i = k) as ->; [|done]. apply Ho'. cbn. apply list_lookup_insert_eq. by eapply lookup_lt_Some.
Qed.

(** ** Examples *)

Lemma guards_exclude_witness : let s := mkSys (mkLock 0 false) [mkGuard true false; mkGuard false false] in
  ∃ r s', run_gop (GLock 0) s = Ret r s' ∧ guarded s'.
Proof.
  intros s. assert (guarded s) as Hs.
  { apply (guarded_new (mkSys new_RWMutex [mkGuard true false]) false), (guarded_new (mkSys new_RWMutex []) true), guarded_none. }
  apply (guards_exclude s (GLock 0) Hs). by eexists.
Defined.

Lemma CASLock_is_a_lock_witness : ∃ o, owner (mkCas true [Inside; Spinning]) o ∧ true = bool_decide (o ≠ None).
Proof.
  assert (cas_reachable 2 (mkCas true [Inside; Spinning])) as Hr.
  { eapply (cas_next 2 (mkCas false [Spinning; Spinning]) (CTestAndSet 0)); [|done].
    eapply (cas_next 2 (mkCas false [Spinning; Outside]) (CEnter 1)); [|done]. eapply (cas_next 2 _ (CEnter 0)); [apply cas_start|done]. }
  destruct (CASLock_is_a_lock 2 _ Hr) as [(o & Ho & Hf & _) _]. exists o. split; [exact Ho|exact Hf].
Defined.
