(* ===== verification/Thread.v ===== *)
(** * Threads: [base/thread.{h,cc}] and the [Semaphore] of [base/mutex.cc]

    The constructor of [Thread] starts [Run] with a pointer to the object and waits on a
    semaphore until [Run] has taken what it needs.  The object may be destroyed from
    then on; a step of [Run] that touches it later would be undefined. *)
From stdpp Require Import list.
From S2P Require Import Prelude.

(** ** State *)

(** Where the constructor is: it made the thread and waits, it returned, it threw. *)
Inductive creator := CNew | CWaiting | CMade | CThrew.

(** The steps of [Run] that are to come: it reads the name, stores the id, reads the
    name again, takes the callback, notifies, and calls the callback. *)
Inductive runner := RName | RId | RSetName | RSwap | RNotify | RCall | RDone.

Record Thread := mkThread {
  id_ : Z; cb_ : option nat; semaphore_ : nat; thread_ : bool; alive : bool;
  made : creator; run_at : option runner; taken : option nat; called : list nat }.

(** [id_] is -1 and [cb] the callback that was given. *)
Definition new_Thread (cb : nat) : Thread := mkThread (-1) (Some cb) 0 false true CNew None None [].

Definition set_run (r : runner) (t : Thread) : Thread :=
  mkThread (id_ t) (cb_ t) (semaphore_ t) (thread_ t) (alive t) (made t) (Some r) (taken t) (called t).
Definition set_made (c : creator) (t : Thread) : Thread :=
  mkThread (id_ t) (cb_ t) (semaphore_ t) (thread_ t) (alive t) c (run_at t) (taken t) (called t).
Definition set_alive (b : bool) (t : Thread) : Thread :=
  mkThread (id_ t) (cb_ t) (semaphore_ t) (thread_ t) b (made t) (run_at t) (taken t) (called t).
Definition set_sem (n : nat) (t : Thread) : Thread :=
  mkThread (id_ t) (cb_ t) n (thread_ t) (alive t) (made t) (run_at t) (taken t) (called t).
Definition set_thread (b : bool) (t : Thread) : Thread :=
  mkThread (id_ t) (cb_ t) (semaphore_ t) b (alive t) (made t) (run_at t) (taken t) (called t).

(** ** The semaphore *)

Definition Notify : M Thread bool := modify (λ t, set_sem (S (semaphore_ t)) t) ;; mret true.
(** [sem_wait] fails when a signal interrupts it; [false] while it waits. *)
Definition Wait (interrupted : bool) : M Thread bool := λ t,
  if interrupted then Throw logic_error t
  else match semaphore_ t with O => Ret false t | S n => Ret true (set_sem n t) end.

(** ** The constructor, [Run], [Join] and the destructor *)

Definition touch {A} (m : M Thread A) : M Thread A := λ t, if alive t then m t else Undef null_deref.

(** [pthread_create] succeeds or not; a constructor that throws leaves no object. *)
Definition Create (ok : bool) : M Thread bool := λ t,
  if ok then Ret true (set_thread true (set_made CWaiting (set_run RName t)))
  else Throw logic_error (set_alive false (set_made CThrew t)).
Definition Await (interrupted : bool) : M Thread bool := λ t,
  match Wait interrupted t with
  | Ret true t => Ret true (set_made CMade t)
  | Throw e t => Throw e (set_alive false (set_made CThrew t))
  | r => r
  end.

(** One step of [Run]; [tid] is what [GetThreadId] answers. *)
Definition Run (tid : Z) : M Thread bool := λ t,
  match run_at t with
  | None | Some RDone => Ret false t
  | Some RName => touch (λ t, Ret true (set_run RId t)) t
  | Some RId => touch (λ t, Ret true (set_run RSetName (mkThread tid (cb_ t) (semaphore_ t) (thread_ t) (alive t) (made t) (run_at t) (taken t) (called t)))) t
  | Some RSetName => touch (λ t, Ret true (set_run RSwap t)) t
  | Some RSwap => touch (λ t, Ret true (set_run RNotify (mkThread (id_ t) None (semaphore_ t) (thread_ t) (alive t) (made t) (run_at t) (cb_ t) (called t)))) t
  | Some RNotify => touch (Notify ;; modify (set_run RCall) ;; mret true) t
  | Some RCall =>
    match taken t with
    | Some cb => Ret true (mkThread (id_ t) (cb_ t) (semaphore_ t) (thread_ t) (alive t) (made t) (Some RDone) None (called t ++ [cb]))
    | None => Undef null_deref
    end
  end.

(** [false] while the thread runs; an error of [pthread_join] throws. *)
Definition Join (ok : bool) : M Thread bool := λ t,
  if thread_ t then
    match run_at t with
    | Some RDone => if ok then Ret true (set_thread false t) else Throw logic_error t
    | _ => Ret false t
    end
  else Ret true t.
Definition Destroy : M Thread bool := λ t, Ret true (set_alive false t).

Inductive event := ECreate (ok : bool) | EAwait (interrupted : bool) | ERun (tid : Z) | EJoin (ok : bool) | EDestroy.
Definition run_event (e : event) : M Thread bool :=
  match e with
  | ECreate ok => Create ok
  | EAwait interrupted => Await interrupted
  | ERun tid => Run tid
  | EJoin ok => Join ok
  | EDestroy => Destroy
  end.
(** When each can happen: the owner joins and destroys an object that was made. *)
Definition may (e : event) (t : Thread) : Prop :=
  match e with
  | ECreate _ => made t = CNew
  | EAwait _ => made t = CWaiting
  | ERun _ => run_at t ≠ None
  | EJoin _ | EDestroy => made t = CMade ∧ alive t = true
  end.
Definition after (r : result Thread bool) : option Thread :=
  match r with Ret _ t | Throw _ t => Some t | _ => None end.
Definition quiet (e : event) : Prop := e ≠ EAwait true.

Inductive thread_reachable (cb : nat) : Thread → Prop :=
  | thread_start : thread_reachable cb (new_Thread cb)
  | thread_next t e t' : thread_reachable cb t → may e t → quiet e → after (run_event e t) = Some t' → thread_reachable cb t'.

(** ** The handshake *)

(** Whether [Run] has notified, and whether it has taken the callback. *)
Definition notified (r : option runner) : bool := match r with Some RCall | Some RDone => true | _ => false end.
Definition swapped (r : option runner) : bool := match r with Some RNotify => true | _ => notified r end.
Definition has_id (r : option runner) : bool := match r with Some RSetName | Some RSwap => true | _ => swapped r end.

Record thread_ok (cb : nat) (t : Thread) : Prop := {
  th_sem : semaphore_ t = if notified (run_at t) then (match made t with CMade => 0 | _ => 1 end) else 0;
  th_made : made t = CMade → notified (run_at t) = true;
  th_new : made t = CNew ∨ made t = CThrew → run_at t = None;
  th_alive : alive t = false → made t = CThrew ∨ made t = CMade;
  th_waiting : made t = CWaiting → run_at t ≠ None;
  th_cb : cb_ t = if swapped (run_at t) then None else Some cb;
  th_taken : taken t = match run_at t with Some RNotify | Some RCall => Some cb | _ => None end;
  th_called : called t = match run_at t with Some RDone => [cb] | _ => [] end
}.

(** Closes the goals about one slot of the invariant. *)
Ltac slot :=
  intros; cbn in *; subst;
  repeat match goal with
         | H : ?a = ?a → _ |- _ => specialize (H eq_refl)
         | H : _ ∨ _ → _ |- _ => first [specialize (H (or_introl eq_refl)) | specialize (H (or_intror eq_refl)) | clear H]
         | H : _ ∨ _ |- _ => destruct H
         | H : _ ∧ _ |- _ => destruct H
         end;
  try congruence; auto.
(** All slots, from those of the state before. *)
Ltac slots H := destruct H as [H1 H2 H3 H4 H5 H6 H7 H8]; cbn in *; subst; split; slot.

Lemma touch_alive {A} cb t (m : M Thread A) : thread_ok cb t → run_at t ≠ None → notified (run_at t) = false → touch m t = m t.
Proof.
  intros [_ Hm Hn Ha _ _ _ _] Hr Hnot. unfold touch. destruct (alive t); [done|]. destruct (Ha eq_refl) as [H|H].
  - by rewrite Hn in Hr by (by right).
  - by rewrite Hm in Hnot.
Qed.

Lemma Run_ok cb tid t : thread_ok cb t → run_at t ≠ None → ∃ r t', Run tid t = Ret r t' ∧ thread_ok cb t' ∧ run_at t' ≠ None.
Proof.
  intros Ht Hr. unfold Run. pose proof (@touch_alive bool cb t) as Hto. destruct (run_at t) as [[]|] eqn:Hrun; [..|done];
    try (rewrite Hto by done); destruct t as [id c sem th al md ra tk cl]; cbn in Hrun; subst ra;
    try (do 2 eexists; split; [reflexivity|]; split; [|done]; destruct md; slots Ht).
  destruct Ht as [H1 H2 H3 H4 H5 H6 H7 H8]. cbn in *. subst. do 2 eexists. split; [reflexivity|]. split; [|done]. destruct md; split; slot.
Qed.

Lemma run_event_ok cb e t : thread_ok cb t → may e t → quiet e → ∃ t', after (run_event e t) = Some t' ∧ thread_ok cb t'.
Proof.
  intros Ht Hm Hq. destruct t as [id c sem th al md ra tk cl]. destruct e as [ok|i|tid|ok|]; cbn [run_event may] in *.
  - cbn in Hm. subst md. assert (ra = None) as -> by (apply Ht; by left).
    destruct ok; eexists; (split; [reflexivity|]); slots Ht.
  - destruct i; [by destruct Hq|]. cbn in Hm. subst md. unfold Await, Wait. cbn [semaphore_].
    destruct sem as [|n]; eexists; (split; [reflexivity|]); [done|].
    pose proof (th_sem _ _ Ht) as Hs. cbn in Hs. destruct (notified ra) eqn:Hn; [|done]. injection Hs as ->.
    destruct ra as [[]|]; try done; slots Ht.
  - destruct (Run_ok cb tid _ Ht Hm) as (r & t' & He & Ht' & _). exists t'. by rewrite He.
  - unfold Join. cbn in *. destruct Hm as [-> ->], th; [|by eexists]. destruct ra as [[]|]; try (by eexists).
    destruct ok; (eexists; split; [reflexivity|]); [|done]. slots Ht.
  - cbn in *. destruct Hm as [-> ->]. eexists. split; [reflexivity|]. slots Ht.
Qed.

Lemma thread_reachable_ok cb t : thread_reachable cb t → thread_ok cb t.
Proof.
  induction 1 as [|t e t' _ IH Hm Hq He]; [split; slot|].
  destruct (run_event_ok cb e t IH Hm Hq) as (t1 & He' & Ht). rewrite He in He'. by injection He' as <-.
Qed.

(** C35: however the new thread and its owner get in, a [Thread] can be destroyed as soon
    as its constructor has returned: [Run] does not touch the object any more, has taken
    the callback out of it, and calls it exactly once; and a constructor that waits is
    woken once [Run] has got that far. *)
Theorem handshake_is_safe (cb : nat) (t : Thread) (e : event) : thread_reachable cb t → may e t → quiet e →
  (∃ t', after (run_event e t) = Some t') ∧
  (made t = CMade → cb_ t = None ∧ (run_at t = Some RCall ∧ taken t = Some cb ∧ called t = [] ∨ run_at t = Some RDone ∧ called t = [cb])) ∧
  (made t = CWaiting → notified (run_at t) = true → ∃ t', Await false t = Ret true t' ∧ made t' = CMade) ∧
  length (called t) ≤ 1.
Proof.
  intros Hr Hm Hq. pose proof (thread_reachable_ok cb t Hr) as Ht. destruct (run_event_ok cb e t Ht Hm Hq) as (t' & He & _).
  destruct Ht as [H1 H2 H3 H4 H5 H6 H7 H8]. split_and!.
  - by exists t'.
  - intros Hmade. specialize (H2 Hmade). destruct (run_at t) as [[]|]; cbn in *; try done; naive_solver.
  - intros Hw Hn. unfold Await, Wait. rewrite H1, Hn, Hw. by eexists.
  - rewrite H8. destruct (run_at t) as [[]|]; cbn; lia.
Qed.

(** A signal that interrupts the wait makes the constructor throw while [Run] still
    has the pointer: its next step follows it to an object that is gone. *)
Theorem interrupted_wait_dangles (cb : nat) (tid : Z) : ∃ t1 t2,
  run_event (ECreate true) (new_Thread cb) = Ret true t1 ∧ run_event (EAwait true) t1 = Throw logic_error t2 ∧
  run_event (ERun tid) t2 = Undef null_deref.
Proof. by do 2 eexists. Qed.

(** ** Examples *)

Fixpoint run_events (es : list event) (t : Thread) : option Thread :=
  match es with [] => Some t | e :: es => match after (run_event e t) with Some t => run_events es t | None => None end end.

Lemma reach_after cb t e : thread_reachable cb t → may e t → quiet e →
  match after (run_event e t) with Some t' => thread_reachable cb t' | None => True end.
Proof. intros Hr Hm Hq. destruct (after (run_event e t)) eqn:He; [by eapply thread_next|done]. Qed.

Lemma handshake_is_safe_witness : ∃ t, run_events [ECreate true; ERun 7; ERun 7; ERun 7; ERun 7; ERun 7; EAwait false] (new_Thread 3) = Some t ∧
  made t = CMade ∧ cb_ t = None ∧ ∃ t', after (run_event EDestroy t) = Some t'.
Proof.
  pose proof (reach_after 3 _ (ECreate true) (thread_start 3) eq_refl ltac:(done)) as R. cbn in R.
  do 5 (apply (reach_after 3 _ (ERun 7)) in R; [cbn in R|done|done]).
  apply (reach_after 3 _ (EAwait false)) in R as Hr; [cbn in Hr|done|done].
  match type of Hr with thread_reachable _ ?x => set (t := x) in Hr end.
  assert (made t = CMade) as Hm by reflexivity. assert (alive t = true) as Ha by reflexivity.
  assert (run_events [ECreate true; ERun 7; ERun 7; ERun 7; ERun 7; ERun 7; EAwait false] (new_Thread 3) = Some t) as He by reflexivity.
  destruct (handshake_is_safe 3 t EDestroy Hr (conj Hm Ha)) as (H1 & H2 & _); [done|]. exists t. split; [exact He|]. split; [exact Hm|].
  split; [by apply H2|exact H1].
Defined.
