(* ===== verification/Scheduler.v ===== *)
(** * Fibers and their scheduler: [base/fiber.cc] and [base/scheduler.{h,cc}]

    Worker threads take fibers and callbacks from a shared queue and run them.
    Each operation below is one section of code that the other threads cannot
    interleave with as far as the queue is concerned; the loop of
    [Scheduler::Run] is cut where other threads can get in between, and a run of
    the program is any sequence of these operations.

    A fiber's saved registers are modelled by whether they are up to date
    ([saved_]): [swapcontext] into a fiber whose context has not been saved
    since it last ran starts a second execution on the same stack. *)
From stdpp Require Import sets list.
From S2P Require Import Prelude.

(** ** Data *)

Inductive State := kInit | kHold | kExec | kTerm | kReady | kExcept.
#[export] Instance State_eq_dec : EqDecision State.
Proof. solve_decision. Defined.

(** [cb_] is the callback's name, [None] for null. *)
Record Fiber := mkFiber { state_ : State; saved_ : bool; cb_ : option nat }.

(** An entry of the queue: [thread_id_] is [None] for -1, any thread. *)
Record FiberAndThread := mkFT {
  ft_fiber : option nat; ft_cb : option nat; thread_id_ : option nat
}.

(** Where a worker is in the loop of [Run]. *)
Inductive phase :=
  | PPick                              (* at the top of the loop *)
  | PGot (ft : FiberAndThread)         (* took an entry *)
  | PNone                              (* found nothing to take *)
  | PRun (f : nat) (is_cb : bool)      (* the fiber [f] is executing *)
  | PLeave (f : nat) (is_cb : bool)    (* [f] is about to swap out *)
  | PBack (f : nat) (is_cb : bool)     (* [SwapIn] has returned *)
  | PAfter (f : nat) (is_cb : bool)    (* no longer counted as active *)
  | PIdle                              (* the idle fiber is executing *)
  | PDone.                             (* the loop has ended *)

(** The variables of one thread's [Run]: [idle_term] says that the idle fiber has
    ended, [is_root] that this is the thread that made the scheduler. *)
Record Worker := mkWorker {
  ph : phase; cb_fiber : option nat; idle_term : bool; is_root : bool
}.
Definition new_Worker (root : bool) : Worker := mkWorker PPick None false root.

(** The fibers are in the list [mem]; a fiber is its index there.  Of the root
    fiber, which runs [Run] itself, the state is enough; of the vector [threads_]
    its size. *)
Record Scheduler := mkScheduler {
  fibers_ : list FiberAndThread;
  mem : list Fiber;
  active_thread_count_ : Z;
  idle_thread_count_ : Z;
  stopping_ : bool;
  auto_stop_ : bool;
  thread_count_ : nat;
  threads_ : nat;
  root_fiber_ : option State;
  tickles : nat;
  workers : list Worker
}.

Definition set_fibers_ q s := mkScheduler q (mem s) (active_thread_count_ s) (idle_thread_count_ s)
  (stopping_ s) (auto_stop_ s) (thread_count_ s) (threads_ s)
  (root_fiber_ s) (tickles s) (workers s).
Definition set_mem m s := mkScheduler (fibers_ s) m (active_thread_count_ s) (idle_thread_count_ s)
  (stopping_ s) (auto_stop_ s) (thread_count_ s) (threads_ s)
  (root_fiber_ s) (tickles s) (workers s).
Definition set_active a s := mkScheduler (fibers_ s) (mem s) a (idle_thread_count_ s)
  (stopping_ s) (auto_stop_ s) (thread_count_ s) (threads_ s)
  (root_fiber_ s) (tickles s) (workers s).
Definition set_idle i s := mkScheduler (fibers_ s) (mem s) (active_thread_count_ s) i
  (stopping_ s) (auto_stop_ s) (thread_count_ s) (threads_ s)
  (root_fiber_ s) (tickles s) (workers s).
Definition set_stopping b s := mkScheduler (fibers_ s) (mem s) (active_thread_count_ s) (idle_thread_count_ s)
  b (auto_stop_ s) (thread_count_ s) (threads_ s)
  (root_fiber_ s) (tickles s) (workers s).
Definition set_auto_stop b s := mkScheduler (fibers_ s) (mem s) (active_thread_count_ s) (idle_thread_count_ s)
  (stopping_ s) b (thread_count_ s) (threads_ s)
  (root_fiber_ s) (tickles s) (workers s).
Definition set_threads n s := mkScheduler (fibers_ s) (mem s) (active_thread_count_ s) (idle_thread_count_ s)
  (stopping_ s) (auto_stop_ s) (thread_count_ s) n
  (root_fiber_ s) (tickles s) (workers s).
Definition set_root r s := mkScheduler (fibers_ s) (mem s) (active_thread_count_ s) (idle_thread_count_ s)
  (stopping_ s) (auto_stop_ s) (thread_count_ s) (threads_ s)
  r (tickles s) (workers s).
Definition set_tickles t s := mkScheduler (fibers_ s) (mem s) (active_thread_count_ s) (idle_thread_count_ s)
  (stopping_ s) (auto_stop_ s) (thread_count_ s) (threads_ s)
  (root_fiber_ s) t (workers s).
Definition set_workers w s := mkScheduler (fibers_ s) (mem s) (active_thread_count_ s) (idle_thread_count_ s)
  (stopping_ s) (auto_stop_ s) (thread_count_ s) (threads_ s)
  (root_fiber_ s) (tickles s) w.

(** ** Fibers *)

Definition get_fiber (f : nat) : M Scheduler Fiber := s ← get; deref (mem s !! f).
Definition put_fiber (f : nat) (x : Fiber) : M Scheduler unit :=
  modify (λ s, set_mem (<[f := x]> (mem s)) s).
Definition set_state (f : nat) (st : State) : M Scheduler unit :=
  x ← get_fiber f; put_fiber f (mkFiber st (saved_ x) (cb_ x)).

(** A fiber that has ended or has not started. *)
Definition resettable (st : State) : bool :=
  bool_decide (st = kTerm) || bool_decide (st = kExcept) || bool_decide (st = kInit).

(** [new Fiber(cb)], with a context ready to enter. *)
Definition new_Fiber (cb : option nat) : M Scheduler nat :=
  s ← get;
  modify (set_mem (mem s ++ [mkFiber kInit true cb])) ;;
  mret (length (mem s)).

Definition Reset (f : nat) (cb : option nat) : M Scheduler unit :=
  x ← get_fiber f;
  massert (resettable (state_ x)) ;;
  put_fiber f (mkFiber kInit true cb).

Definition when {St} (b : bool) (m : M St unit) : M St unit := if b then m else mret tt.
Definition massert_or {St} (u : ub) (b : bool) : M St unit := if b then mret tt else undef u.

(** The first half of [SwapIn], on the thread that enters the fiber: entering a
    context that is not saved is undefined. *)
Definition SwapIn (f : nat) : M Scheduler unit :=
  x ← get_fiber f;
  massert (negb (bool_decide (state_ x = kExec))) ;;
  massert_or out_of_bounds (saved_ x) ;;
  put_fiber f (mkFiber kExec false (cb_ x)).

(** [SwapOut] saves the context. *)
Definition SwapOut (f : nat) : M Scheduler unit :=
  x ← get_fiber f; put_fiber f (mkFiber (state_ x) true (cb_ x)).

(** [YieldToReady] and [YieldToHold], up to [SwapOut]. *)
Definition Yield (f : nat) (st : State) : M Scheduler unit :=
  x ← get_fiber f;
  massert (bool_decide (state_ x = kExec)) ;;
  set_state f st.

(** The end of [MainFunc]: the callback returned, or threw. *)
Definition MainFunc_end (f : nat) (threw : bool) : M Scheduler unit :=
  x ← get_fiber f;
  put_fiber f (if threw then mkFiber kExcept (saved_ x) (cb_ x) else mkFiber kTerm (saved_ x) None).

(** ** The queue *)

Definition Tickle : M Scheduler unit := modify (λ s, set_tickles (S (tickles s)) s).

Definition is_task (ft : FiberAndThread) : bool :=
  match ft_fiber ft, ft_cb ft with None, None => false | _, _ => true end.

Definition ScheduleNoLock (ft : FiberAndThread) : M Scheduler bool :=
  s ← get;
  let need_tickle := bool_decide (fibers_ s = []) in
  when (is_task ft) (modify (set_fibers_ (fibers_ s ++ [ft]))) ;;
  mret need_tickle.

Definition Schedule (ft : FiberAndThread) : M Scheduler unit :=
  need_tickle ← ScheduleNoLock ft;
  when need_tickle Tickle.

(** The overload for a range: one tickle for all of it. *)
Fixpoint Schedule_loop (fts : list FiberAndThread) (need_tickle : bool) : M Scheduler bool :=
  match fts with
  | [] => mret need_tickle
  | ft :: fts => n ← ScheduleNoLock ft; Schedule_loop fts (n || need_tickle)
  end.
Definition Schedule_range (fts : list FiberAndThread) : M Scheduler unit :=
  need_tickle ← Schedule_loop fts false;
  when need_tickle Tickle.

Definition state_of (m : list Fiber) (f : nat) : option State := state_ <$> m !! f.

(** The [while (it != fibers_.end())] loop of [Run]: the entry taken, what is
    left of the queue, and [tickle_me]; [None] is the assertion failing. *)
Fixpoint pick (m : list Fiber) (self : nat) (q : list FiberAndThread) :
    option (option FiberAndThread * list FiberAndThread * bool) :=
  match q with
  | [] => Some (None, [], false)
  | it :: q =>
    let skip tickle_me :=
      '(ft, q, t) ← pick m self q; Some (ft, it :: q, tickle_me || t) in
    match thread_id_ it with
    | Some t => if negb (t =? self) then skip true
                else if negb (is_task it) then None
                else if bool_decide (ft_fiber it ≫= state_of m = Some kExec) then skip false
                else Some (Some it, q, negb (bool_decide (q = [])))
    | None => if negb (is_task it) then None
              else if bool_decide (ft_fiber it ≫= state_of m = Some kExec) then skip false
              else Some (Some it, q, negb (bool_decide (q = [])))
    end
  end.

Definition Stopping (s : Scheduler) : bool :=
  auto_stop_ s && stopping_ s && bool_decide (fibers_ s = []) && (active_thread_count_ s =? 0)%Z.

(** [threads > 0] is asserted; with [use_caller] this thread is one of them. *)
Definition new_Scheduler (threads : nat) (use_caller : bool) : option Scheduler :=
  if bool_decide (0 < threads) then
    Some (mkScheduler [] [] 0 0 true false (if use_caller then threads - 1 else threads) 0
            (if use_caller then Some kInit else None) 0 [])
  else None.

Definition Start : M Scheduler unit :=
  s ← get;
  if negb (stopping_ s) then mret tt else
  modify (set_stopping false) ;;
  massert (bool_decide (threads_ s = 0)) ;;
  modify (set_threads (thread_count_ s)) ;;
  modify (λ s, set_workers (workers s ++ replicate (thread_count_ s) (new_Worker false)) s).

(** [root_fiber_->Call()]: the caller's thread enters [Run]; a root fiber that has
    ended resumes after its last [Back], at an assertion that fails, and one that
    runs has no context to enter. *)
Definition Call : M Scheduler unit :=
  s ← get;
  match root_fiber_ s with
  | Some kInit => modify (set_root (Some kExec)) ;;
                  modify (λ s, set_workers (workers s ++ [new_Worker true]) s)
  | Some kExec => undef out_of_bounds
  | _ => undef assert_failed
  end.

Fixpoint Tickle_n (n : nat) : M Scheduler unit :=
  match n with 0 => mret tt | S n => Tickle ;; Tickle_n n end.

Definition has_root (s : Scheduler) : bool := bool_decide (root_fiber_ s ≠ None).

(** [Stop] until it waits for the threads to end. *)
Definition Stop : M Scheduler unit :=
  modify (set_auto_stop true) ;;
  s ← get;
  early ← (if bool_decide (root_fiber_ s = Some kTerm ∨ root_fiber_ s = Some kInit)
              && bool_decide (thread_count_ s = 0)
           then modify (set_stopping true) ;; s ← get; mret (Stopping s)
           else mret false);
  if (early : bool) then mret tt else
  modify (set_stopping true) ;;
  Tickle_n (thread_count_ s) ;;
  when (has_root s) Tickle ;;
  s ← get;
  when (has_root s && negb (Stopping s)) Call ;;
  modify (set_threads 0).

(** ** The loop of [Run] *)

Definition get_worker (self : nat) : M Scheduler Worker := s ← get; deref (workers s !! self).
Definition put_worker (self : nat) (w : Worker) : M Scheduler unit :=
  modify (λ s, set_workers (<[self := w]> (workers s)) s).
Definition goto (self : nat) (p : phase) : M Scheduler unit :=
  w ← get_worker self; put_worker self (mkWorker p (cb_fiber w) (idle_term w) (is_root w)).
Definition add_active (d : Z) : M Scheduler unit :=
  modify (λ s, set_active (active_thread_count_ s + d) s).

(** From the top of the loop through the block under the lock, and the tickle. *)
Definition Run_pick (self : nat) : M Scheduler unit :=
  s ← get;
  match pick (mem s) self (fibers_ s) with
  | None => undef assert_failed
  | Some (ft, q, tickle_me) =>
    modify (set_fibers_ q) ;;
    match ft with
    | Some ft => add_active 1 ;; goto self (PGot ft)
    | None => goto self PNone
    end ;;
    when tickle_me Tickle
  end.

Definition live (st : State) : bool := negb (bool_decide (st = kTerm) || bool_decide (st = kExcept)).

(** An entry that is a callback runs on this worker's [cb_fiber]. *)
Definition Run_callback (self : nat) (ft : FiberAndThread) : M Scheduler unit :=
  match ft_cb ft with
  | Some cb =>
    w ← get_worker self;
    f ← match cb_fiber w with
        | Some f => Reset f (Some cb) ;; mret f
        | None => new_Fiber (Some cb)
        end;
    SwapIn f ;;
    put_worker self (mkWorker (PRun f true) (Some f) (idle_term w) (is_root w))
  | None => add_active (-1) ;; goto self PPick
  end.

Definition live_fiber (m : list Fiber) (f : nat) : bool :=
  match state_of m f with Some st => live st | None => false end.

(** What is done with the entry taken, up to entering a fiber. *)
Definition Run_task (self : nat) (ft : FiberAndThread) : M Scheduler unit :=
  s ← get;
  match ft_fiber ft with
  | Some f => if live_fiber (mem s) f then SwapIn f ;; goto self (PRun f false) else Run_callback self ft
  | None => Run_callback self ft
  end.

(** When no entry was taken: the loop ends with the idle fiber, or enters it. *)
Definition Run_idle (self : nat) : M Scheduler unit :=
  w ← get_worker self;
  if idle_term w then 
    put_worker self (mkWorker PDone (cb_fiber w) true (is_root w)) ;;
    when (is_root w) (modify (set_root (Some kTerm)))
  else
  modify (λ s, set_idle (idle_thread_count_ s + 1) s) ;;
  goto self PIdle.

(** [Scheduler::Idle] runs until it yields or ends, and [Run] resumes. *)
Definition Idle_step (self : nat) : M Scheduler unit :=
  s ← get;
  w ← get_worker self;
  modify (λ s, set_idle (idle_thread_count_ s - 1) s) ;;
  put_worker self (mkWorker PPick (cb_fiber w) (Stopping s) (is_root w)).

(** After [SwapIn] returned: the count first, then the fiber's state. *)
Definition Run_back (self : nat) (f : nat) (is_cb : bool) : M Scheduler unit :=
  add_active (-1) ;; goto self (PAfter f is_cb).

Definition Run_after (self : nat) (f : nat) (is_cb : bool) : M Scheduler unit :=
  x ← get_fiber f;
  w ← get_worker self;
  if is_cb then
    if bool_decide (state_ x = kReady) then
      Schedule (mkFT (Some f) None None) ;; put_worker self (mkWorker PPick None (idle_term w) (is_root w))
    else if bool_decide (state_ x = kExcept) || bool_decide (state_ x = kTerm) then
      Reset f None ;; goto self PPick
    else set_state f kHold ;; put_worker self (mkWorker PPick None (idle_term w) (is_root w))
  else
    (if bool_decide (state_ x = kReady) then Schedule (mkFT (Some f) None None)
     else if live (state_ x) then set_state f kHold else mret tt) ;;
    goto self PPick.

(** A fiber's code calls [SwitchTo(thread)] on the worker [self]: the part before
    [YieldToHold]; the result says whether it follows. *)
Definition SwitchTo (self f : nat) (thread : option nat) : M Scheduler bool :=
  if bool_decide (thread = None ∨ thread = Some self) then mret false
  else Schedule (mkFT (Some f) None thread) ;; mret true.

(** ** Runs *)

(** How the code of a fiber gives up its thread: by yielding, or at its end. *)
Inductive leave := LReady | LHold | LTerm | LExcept.

Inductive event :=
  | ESchedule (ft : FiberAndThread)      (* any thread, any time *)
  | ENew (cb : option nat)               (* a fiber is made *)
  | EStart
  | EStop
  | EWorker (self : nat)                 (* the next section of a worker's loop *)
  | ELeave (self : nat) (l : leave).     (* the fiber on this worker leaves *)

Definition leave_fiber (f : nat) (l : leave) : M Scheduler unit :=
  match l with
  | LReady => Yield f kReady
  | LHold => Yield f kHold
  | LTerm => MainFunc_end f false
  | LExcept => MainFunc_end f true
  end.

(** The next section of the worker's loop; while its fiber runs there is none. *)
Definition worker_step (self : nat) : M Scheduler unit :=
  w ← get_worker self;
  match ph w with
  | PPick => Run_pick self
  | PGot ft => Run_task self ft
  | PNone => Run_idle self
  | PRun _ _ => mret tt
  | PLeave f is_cb => SwapOut f ;; goto self (PBack f is_cb)
  | PBack f is_cb => Run_back self f is_cb
  | PAfter f is_cb => Run_after self f is_cb
  | PIdle => Idle_step self
  | PDone => mret tt
  end.

Definition leave_step (self : nat) (l : leave) : M Scheduler unit :=
  w ← get_worker self;
  match ph w with
  | PRun f is_cb => leave_fiber f l ;; goto self (PLeave f is_cb)
  | _ => mret tt
  end.

Definition run_event (e : event) : M Scheduler unit :=
  match e with
  | ESchedule ft => Schedule ft
  | ENew cb => f ← new_Fiber cb; mret tt
  | EStart => Start
  | EStop => Stop
  | EWorker self => worker_step self
  | ELeave self l => leave_step self l
  end.

Fixpoint run_events (es : list event) : M Scheduler unit :=
  match es with [] => mret tt | e :: es => run_event e ;; run_events es end.

Inductive reachable : Scheduler → Prop :=
  | reachable_new n b s : new_Scheduler n b = Some s → reachable s
  | reachable_step s e s' : reachable s → run_event e s = Ret tt s' → reachable s'.

(** ** The workers that are counted *)

(** A worker holds an entry it has taken, until [--active_thread_count_]. *)
Definition busy (w : Worker) : bool :=
  match ph w with PGot _ | PRun _ _ | PLeave _ _ | PBack _ _ => true | _ => false end.

Definition busy_count (ws : list Worker) : nat := length (filter busy ws).

Lemma busy_count_insert ws i w w' : ws !! i = Some w →
  (busy_count (<[i := w']> ws) + Nat.b2n (busy w) = busy_count ws + Nat.b2n (busy w'))%nat.
Proof.
  intros Hi. rewrite <- (take_drop_middle ws i w Hi) at 2.
  rewrite (insert_take_drop ws i w' (lookup_lt_Some _ _ _ Hi)).
  unfold busy_count. rewrite !filter_app, !filter_cons, !length_app.
  destruct (busy w), (busy w'); repeat case_decide; simpl in *; try done; lia.
Qed.

Lemma busy_count_app ws1 ws2 : busy_count (ws1 ++ ws2) = (busy_count ws1 + busy_count ws2)%nat.
Proof. unfold busy_count. by rewrite filter_app, length_app. Qed.

Lemma busy_count_new n b : busy_count (replicate n (new_Worker b)) = 0%nat.
Proof. induction n; [done|]. unfold busy_count in *. simpl. rewrite filter_cons_False; [done|by intros []]. Qed.

(** How much the counter is ahead of the workers it counts. *)
Definition excess (s : Scheduler) : Z := active_thread_count_ s - Z.of_nat (busy_count (workers s)).

(** Code that neither moves a worker nor touches the counter, and code that
    changes the excess by [d]. *)
Definition keeps {A} (m : M Scheduler A) : Prop := ∀ s a s', m s = Ret a s' →
  workers s' = workers s ∧ active_thread_count_ s' = active_thread_count_ s.

Lemma keeps_ret {A} (a : A) : keeps (mret a).
Proof. by intros s ? ? [= -> ->]. Qed.
Lemma keeps_get : keeps get.
Proof. by intros s ? ? [= -> ->]. Qed.
Lemma keeps_undef {A} u : keeps (undef u : M Scheduler A).
Proof. by intros s ? ?. Qed.
Lemma keeps_bind {A B} (m : M Scheduler A) (k : A → M Scheduler B) :
  keeps m → (∀ a, keeps (k a)) → keeps (m ≫= k).
Proof.
  intros Hm Hk s b s'. unfold mbind, M_bind. destruct (m s) eqn:E; try done. intros Hr.
  destruct (Hm _ _ _ E), (Hk _ _ _ _ Hr). split; congruence.
Qed.
Lemma keeps_modify f : (∀ s, workers (f s) = workers s) →
  (∀ s, active_thread_count_ (f s) = active_thread_count_ s) → keeps (modify f).
Proof. intros H1 H2 s ? ? [= _ <-]. by rewrite H1, H2. Qed.
Lemma keeps_deref {A} (o : option A) : keeps (deref o).
Proof. destruct o; [apply keeps_ret|apply keeps_undef]. Qed.
Lemma keeps_if {A} (b : bool) (m n : M Scheduler A) : keeps m → keeps n → keeps (if b then m else n).
Proof. by destruct b. Qed.

Ltac head_of t := lazymatch t with ?f _ => head_of f | _ => t end.
Ltac keep :=
  intros; repeat match goal with
  | |- keeps (mret _) => apply keeps_ret
  | |- keeps get => apply keeps_get
  | |- keeps (undef _) => apply keeps_undef
  | |- keeps (_ ≫= _) => apply keeps_bind; [|intros ?]
  | |- keeps (modify _) => apply keeps_modify; reflexivity
  | |- keeps (deref _) => apply keeps_deref
  | |- keeps (if _ then _ else _) => apply keeps_if
  | H : ?P |- ?P => exact H
  | |- keeps ?m => let h := head_of m in progress unfold h
  end.

(** What the queue and the fibers do does not concern the counter. *)
Lemma keeps_ops f st cb b ft u :
  keeps (SwapIn f) ∧ keeps (SwapOut f) ∧ keeps (Yield f st) ∧ keeps (MainFunc_end f b) ∧
  keeps (Reset f cb) ∧ keeps (new_Fiber cb) ∧ keeps (Schedule ft) ∧ keeps Tickle ∧
  keeps (set_state f st) ∧ keeps (get_fiber u).
Proof. split_and!; keep. Qed.

(** The worker [self] is counted or not ([b]) and the excess is [e]. *)
Definition counted (self : nat) (b : bool) (e : Z) (s : Scheduler) : Prop :=
  ∃ w, workers s !! self = Some w ∧ busy w = b ∧ excess s = e.

(** Code after which this holds with [b'] and [e']. *)
Definition counts {A} (self : nat) (b : bool) (e : Z) (b' : bool) (e' : Z) (m : M Scheduler A) : Prop :=
  ∀ s a s', counted self b e s → m s = Ret a s' → counted self b' e' s'.

Lemma counts_keeps {A} self b e (m : M Scheduler A) : keeps m → counts self b e b e m.
Proof.
  intros Hm s a s' (w & Hw & Hb & He) Hr. destruct (Hm _ _ _ Hr) as [H1 H2].
  exists w. unfold excess. rewrite H1, H2. done.
Qed.

Lemma counts_bind {A B} self b e b1 e1 b2 e2 (m : M Scheduler A) (k : A → M Scheduler B) :
  counts self b e b1 e1 m → (∀ a, counts self b1 e1 b2 e2 (k a)) → counts self b e b2 e2 (m ≫= k).
Proof.
  intros Hm Hk s x s' Hs. unfold mbind, M_bind. destruct (m s) eqn:E; try done. intros Hr.
  eapply Hk; [|exact Hr]. by eapply Hm.
Qed.

Lemma counts_add self b e d : counts self b e b (e + d) (add_active d).
Proof.
  intros s a s' (w & Hw & Hb & He) [= <- <-]. exists w. split_and!; [done..|].
  unfold excess in *. simpl. lia.
Qed.

Lemma counts_put self b e w' : counts self b e (busy w') (e + Z.b2z b - Z.b2z (busy w')) (put_worker self w').
Proof.
  intros s a s' (w & Hw & Hb & He) [= <- <-]. exists w'. split_and!; [|done|].
  - apply list_lookup_insert_eq. by eapply lookup_lt_Some.
  - pose proof (busy_count_insert _ _ _ w' Hw) as Hc. unfold excess in *. simpl. rewrite Hb in Hc.
    destruct b, (busy w'); simpl in *; lia.
Qed.

Lemma counts_goto self b e p : let b' := busy (mkWorker p None false false) in
  counts self b e b' (e + Z.b2z b - Z.b2z b') (goto self p).
Proof.
  intros b'. unfold goto. eapply counts_bind; [apply counts_keeps; keep|].
  intros w. exact (counts_put self b e (mkWorker p (cb_fiber w) (idle_term w) (is_root w))).
Qed.

Lemma counts_get_fiber {B} self b e b' e' f (k : Fiber → M Scheduler B) :
  (∀ x, counts self b e b' e' (k x)) → counts self b e b' e' (get_fiber f ≫= k).
Proof. intros Hk. eapply counts_bind; [apply counts_keeps; keep|done]. Qed.

Lemma counts_eq {A} self b e b' e' e'' (m : M Scheduler A) :
  counts self b e b' e' m → e' = e'' → counts self b e b' e'' m.
Proof. by intros H <-. Qed.

(** The code leaves the excess as it is, whatever happens to the worker. *)
Definition balanced {A} (self : nat) (b : bool) (e : Z) (m : M Scheduler A) : Prop :=
  ∀ s a s', counted self b e s → m s = Ret a s' → excess s' = e.

Lemma balanced_counts {A} self b e b' e' (m : M Scheduler A) :
  counts self b e b' e' m → e' = e → balanced self b e m.
Proof. intros Hm -> s a s' Hs Hr. by destruct (Hm _ _ _ Hs Hr) as (w & _ & _ & ?). Qed.

Lemma balanced_keeps {A} self b e (m : M Scheduler A) : keeps m → balanced self b e m.
Proof. intros Hm. eapply balanced_counts; [by apply counts_keeps|done]. Qed.

Lemma balanced_bind {A B} self b e b1 (m : M Scheduler A) (k : A → M Scheduler B) :
  counts self b e b1 e m → (∀ a, balanced self b1 e (k a)) → balanced self b e (m ≫= k).
Proof.
  intros Hm Hk s x s' Hs. unfold mbind, M_bind. destruct (m s) eqn:E; try done. intros Hr.
  eapply Hk; [|exact Hr]. by eapply Hm.
Qed.

Lemma counts_take self e ft : counts self false e true e (add_active 1 ;; goto self (PGot ft)).
Proof.
  eapply counts_bind; [apply counts_add|]. intros _. eapply counts_eq; [apply counts_goto|]. simpl. lia.
Qed.

Lemma counts_drop self e p : busy (mkWorker p None false false) = false →
  counts self true e false e (add_active (-1) ;; goto self p).
Proof.
  intros Hp. eapply counts_bind; [apply counts_add|]. intros _.
  pose proof (counts_goto self true (e + -1) p) as H. cbv zeta in H. rewrite Hp in H.
  eapply counts_eq; [exact H|]. simpl. lia.
Qed.

Ltac balance :=
  intros; cbv zeta; repeat match goal with
  | |- balanced _ _ _ (if ?b then _ else _) => destruct b
  | |- balanced _ _ _ (match ?x with _ => _ end) => destruct x
  | |- balanced _ _ _ (match ?x with _ => _ end ≫= _) => destruct x
  | |- balanced _ _ _ (add_active _ ≫= _) =>
      eapply balanced_counts; [apply counts_drop; reflexivity|reflexivity]
  | |- balanced _ _ _ ((add_active _ ≫= _) ≫= _) => eapply balanced_bind; [apply counts_take|intros ?]
  | |- balanced _ _ _ (goto _ _) => eapply balanced_counts; [apply counts_goto|]
  | |- balanced _ _ _ (put_worker _ _) => eapply balanced_counts; [apply counts_put|]
  | |- balanced _ _ _ (goto _ _ ≫= _) =>
      eapply balanced_bind; [eapply counts_eq; [apply counts_goto|]|intros ?]
  | |- balanced _ _ _ (put_worker _ _ ≫= _) =>
      eapply balanced_bind; [eapply counts_eq; [apply counts_put|]|intros ?]
  | |- balanced _ _ _ (_ ≫= _) =>
      eapply balanced_bind; [apply counts_keeps; solve [keep; auto]|intros ?]
  | |- balanced _ _ _ _ => apply balanced_keeps; solve [keep; auto]
  | |- _ = _ => simpl; lia
  end.

(** Every section of the loop keeps the excess. *)
Lemma Run_pick_balanced self e : balanced self false e (Run_pick self).
Proof. unfold Run_pick. balance. Qed.

Lemma Run_task_balanced self ft e : balanced self true e (Run_task self ft).
Proof. unfold Run_task, Run_callback. balance. Qed.

Lemma Run_idle_balanced self e : balanced self false e (Run_idle self).
Proof. unfold Run_idle. balance. Qed.

Lemma Idle_step_balanced self e : balanced self false e (Idle_step self).
Proof. unfold Idle_step. balance. Qed.

Lemma Run_back_balanced self f c e : balanced self true e (Run_back self f c).
Proof. unfold Run_back. balance. Qed.

Lemma Run_after_balanced self f c e : balanced self false e (Run_after self f c).
Proof. unfold Run_after. balance. Qed.

Lemma get_worker_bind {A} self (k : Worker → M Scheduler A) s :
  (get_worker self ≫= k) s =
  match workers s !! self with Some w => k w s | None => Undef null_deref end.
Proof. unfold get_worker, mbind, M_bind. simpl. by destruct (workers s !! self). Qed.

Lemma worker_step_excess self s s' : worker_step self s = Ret tt s' → excess s' = excess s.
Proof.
  unfold worker_step. rewrite get_worker_bind. destruct (workers s !! self) as [w|] eqn:Hw; [|done].
  assert (∀ m, balanced self (busy w) (excess s) m → m s = Ret tt s' → excess s' = excess s) as Hm.
  { intros m Hb Hr. eapply Hb; [|exact Hr]. by exists w. }
  unfold busy in Hm. destruct (ph w); apply Hm.
  - apply Run_pick_balanced.
  - apply Run_task_balanced.
  - apply Run_idle_balanced.
  - balance.
  - balance.
  - apply Run_back_balanced.
  - apply Run_after_balanced.
  - apply Idle_step_balanced.
  - balance.
Qed.

Lemma leave_step_excess self l s s' : leave_step self l s = Ret tt s' → excess s' = excess s.
Proof.
  unfold leave_step. rewrite get_worker_bind. destruct (workers s !! self) as [w|] eqn:Hw; [|done].
  destruct (ph w) as [| | |f c| | | | |] eqn:Hph; try by intros [= <-].
  assert (balanced self true (excess s) (leave_fiber f l ;; goto self (PLeave f c))) as Hb.
  { eapply balanced_bind; [apply counts_keeps; destruct l; keep|balance]. }
  apply Hb. exists w. unfold busy. by rewrite Hph.
Qed.

Lemma keeps_excess {A} (m : M Scheduler A) s a s' : keeps m → m s = Ret a s' → excess s' = excess s.
Proof. intros Hm Hr. destruct (Hm _ _ _ Hr) as [H1 H2]. unfold excess. by rewrite H1, H2. Qed.

(** Code that keeps the excess; a weaker [keeps]. *)
Definition even {A} (m : M Scheduler A) : Prop := ∀ s a s', m s = Ret a s' → excess s' = excess s.

Lemma even_keeps {A} (m : M Scheduler A) : keeps m → even m.
Proof. intros Hm s a s'. by apply keeps_excess. Qed.

Lemma even_bind {A B} (m : M Scheduler A) (k : A → M Scheduler B) :
  even m → (∀ a, even (k a)) → even (m ≫= k).
Proof.
  intros Hm Hk s b s'. unfold mbind, M_bind. destruct (m s) eqn:E; try done. intros Hr.
  rewrite (Hk _ _ _ _ Hr). by apply (Hm _ _ _ E).
Qed.

(** Threads start at the top of the loop. *)
Lemma even_new_workers (n : Scheduler → nat) b :
  even (modify (λ s, set_workers (workers s ++ replicate (n s) (new_Worker b)) s)).
Proof.
  intros s a s' [= _ <-]. unfold excess. simpl. by rewrite busy_count_app, busy_count_new, Nat.add_0_r.
Qed.

Lemma Start_even : even Start.
Proof.
  unfold Start. apply even_bind; [apply even_keeps; keep|intros s].
  case_match; [apply even_keeps; keep|].
  do 3 (apply even_bind; [apply even_keeps; keep|intros _]). apply (even_new_workers thread_count_).
Qed.

Lemma Call_even : even Call.
Proof.
  unfold Call. apply even_bind; [apply even_keeps; keep|intros s].
  destruct (root_fiber_ s) as [[]|]; try solve [apply even_keeps; keep].
  apply even_bind; [apply even_keeps; keep|intros _]. apply (even_new_workers (λ _, 1%nat)).
Qed.

Lemma keeps_Tickle_n n : keeps (Tickle_n n).
Proof. induction n; keep. Qed.

Lemma Stop_even : even Stop.
Proof.
  unfold Stop. do 3 (apply even_bind; [apply even_keeps; keep|intros ?]).
  case_match; [apply even_keeps; keep|]. apply even_bind; [apply even_keeps; keep|intros _].
  apply even_bind; [apply even_keeps, keeps_Tickle_n|intros _].
  do 2 (apply even_bind; [apply even_keeps; keep|intros ?]).
  apply even_bind; [|intros _; apply even_keeps; keep].
  unfold when. case_match; [apply Call_even|apply even_keeps; keep].
Qed.

Lemma run_event_excess e s s' : run_event e s = Ret tt s' → excess s' = excess s.
Proof.
  destruct e as [ft|cb| | |self|self l]; simpl.
  - apply keeps_excess. keep.
  - apply keeps_excess. keep.
  - apply Start_even.
  - apply Stop_even.
  - apply worker_step_excess.
  - apply leave_step_excess.
Qed.

Lemma reachable_excess s : reachable s → excess s = 0%Z.
Proof.
  induction 1 as [n b s Hs|s e s' _ IH He].
  - unfold new_Scheduler in Hs. case_bool_decide; [|done]. by injection Hs as <-.
  - by rewrite (run_event_excess _ _ _ He).
Qed.

(** ** Properties *)

(** C9: in every reachable state, whatever the threads do, [active_thread_count_]
    is the number of workers that have taken an entry and not finished with it,
    so the scheduler says it is stopping only with nothing queued and nothing
    running. *)
Theorem active_count_is_busy (s : Scheduler) : reachable s →
  active_thread_count_ s = Z.of_nat (length (filter busy (workers s))) ∧
  (Stopping s = true → fibers_ s = [] ∧ ∀ i w, workers s !! i = Some w → busy w = false).
Proof.
  intros Hs%reachable_excess. unfold excess, busy_count in Hs. split; [lia|].
  unfold Stopping. rewrite !andb_true_iff, bool_decide_eq_true, Z.eqb_eq. intros [[_ Hq] Ha].
  split; [done|]. intros i w Hw. destruct (busy w) eqn:Hb; [|done].
  assert (w ∈ filter busy (workers s)) as Hin.
  { apply list_elem_of_filter. rewrite Hb. split; [done|]. by eapply list_elem_of_lookup_2. }
  assert (length (filter busy (workers s)) = 0%nat) as Hl by lia.
  apply nil_length_inv in Hl. rewrite Hl in Hin. by apply elem_of_nil in Hin.
Qed.

(** One worker, with one callback taken and running. *)
Definition one_running : list event :=
  [EStart; ESchedule (mkFT None (Some 7) None); EWorker 0; EWorker 0].

Lemma reachable_events es s s' : reachable s → run_events es s = Ret tt s' → reachable s'.
Proof.
  revert s. induction es as [|e es IH]; intros s Hs Hr; [by injection Hr as <-|].
  cbn [run_events] in Hr. unfold mbind, M_bind in Hr. destruct (run_event e s) as [[] s1|?|?|] eqn:E; try done.
  eapply IH; [|exact Hr]. by eapply reachable_step.
Qed.

Lemma active_count_is_busy_witness : ∃ s, reachable s ∧ active_thread_count_ s = 1%Z ∧
  active_thread_count_ s = Z.of_nat (length (filter busy (workers s))) ∧
  (Stopping s = true → fibers_ s = [] ∧ ∀ i w, workers s !! i = Some w → busy w = false).
Proof.
  destruct (run_events one_running (mkScheduler [] [] 0 0 true false 1 0 None 0 [])) as [[] s|?|?|] eqn:E;
    [|by vm_compute in E..].
  assert (reachable s) as Hs by (eapply reachable_events; [by eapply (reachable_new 1 false)|exact E]).
  exists s. split; [done|]. split; [by vm_compute in E; injection E as <-|]. exact (active_count_is_busy s Hs).
Defined.
