(* ===== verification/FiberSwitch.v ===== *)
(** * Switching between the fibers of a thread: [base/fiber.cc]

    One thread, its fibers, and whose code the processor runs.  [Scheduler.v] looks at
    a fiber from the outside; here are the registers that [swapcontext] saves and loads,
    and the thread-local pointers [t_fiber], [t_thread_fiber] and that of
    [Scheduler::GetMainFiber].

    The code of a thread before it has fibers is that of its first one, number 0; other
    code has the number of the fiber it was made for.  Memory for stacks and the counters
    of fibers are not modelled. *)
From stdpp Require Import list.
From S2P Require Import Prelude Scheduler.

(** ** Data *)

(** [f_regs]: whose code the saved registers go on with, and whether that code has ended
    (all it has left is an assertion); [None] when there is nothing to go on with.
    [f_caller]: made with [use_caller]. *)
Record FiberX := mkFib { f_state : State; f_stack : bool; f_caller : bool; f_cb : option nat; f_regs : option (nat * bool) }.
#[export] Instance FiberX_eq_dec : EqDecision FiberX.
Proof. solve_decision. Defined.

Record Thread := mkThread {
  code : nat;
  t_fiber : option nat;
  t_thread_fiber : option nat;
  t_scheduler_fiber : option nat;
  fibs : list FiberX }.

Definition set_code (c : nat) (t : Thread) : Thread := mkThread c (t_fiber t) (t_thread_fiber t) (t_scheduler_fiber t) (fibs t).
Definition set_t_fiber (f : option nat) (t : Thread) : Thread := mkThread (code t) f (t_thread_fiber t) (t_scheduler_fiber t) (fibs t).
Definition set_thread_fiber (f : option nat) (t : Thread) : Thread := mkThread (code t) (t_fiber t) f (t_scheduler_fiber t) (fibs t).
Definition set_fibs (l : list FiberX) (t : Thread) : Thread := mkThread (code t) (t_fiber t) (t_thread_fiber t) (t_scheduler_fiber t) l.

Definition fib (f : nat) : M Thread FiberX := λ t, match fibs t !! f with Some x => Ret x t | None => Undef null_deref end.
Definition put_fib (f : nat) (x : FiberX) : M Thread unit := modify (λ t, set_fibs (<[f := x]> (fibs t)) t).
Definition put_state (f : nat) (st : State) : M Thread unit :=
  x ← fib f; put_fib f (mkFib st (f_stack x) (f_caller x) (f_cb x) (f_regs x)).
Definition put_regs (f : nat) (r : option (nat * bool)) : M Thread unit :=
  x ← fib f; put_fib f (mkFib (f_state x) (f_stack x) (f_caller x) (f_cb x) r).

(** ** The thread-local pointers *)

Definition SetThis (f : option nat) : M Thread unit := modify (set_t_fiber f).

(** [Fiber::Fiber()], the fiber of the thread itself. *)
Definition new_thread_fiber : M Thread nat :=
  t ← get;
  modify (set_fibs (fibs t ++ [mkFib kExec false false None None])) ;;
  SetThis (Some (length (fibs t))) ;; mret (length (fibs t)).

Definition GetThis : M Thread nat :=
  t ← get;
  match t_fiber t with
  | Some f => mret f
  | None => f ← new_thread_fiber; modify (set_thread_fiber (Some f)) ;; mret f
  end.

(** ** Contexts *)

(** [Fiber::Fiber(cb, stack_size, use_caller)]; [makecontext] lets the registers begin the
    fiber's own code. *)
Definition new_fiber (cb : option nat) (use_caller : bool) : M Thread nat :=
  t ← get;
  modify (set_fibs (fibs t ++ [mkFib kInit true use_caller cb (Some (length (fibs t), false))])) ;;
  mret (length (fibs t)).

Definition Reset (f : nat) (cb : option nat) : M Thread unit :=
  x ← fib f;
  massert (f_stack x) ;;
  massert (resettable (f_state x)) ;;
  put_fib f (mkFib kInit true false cb (Some (f, false))).

(** [swapcontext]: the running code is saved in one context, and the code of the other
    goes on.  Registers serve once; code that has ended runs into its assertion.
    [ends]: the code that saves itself here has ended. *)
Definition swapcontext (from to : nat) (ends : bool) : M Thread unit :=
  t ← get;
  put_regs from (Some (code t, ends)) ;;
  y ← fib to;
  match f_regs y with
  | None => undef uninitialised
  | Some (c, true) => undef assert_failed
  | Some (c, false) => put_regs to None ;; modify (set_code c)
  end.

(** A pointer that must not be null. *)
Definition some_fiber (o : option nat) : M Thread nat := deref o.

Definition SwapIn (f : nat) : M Thread unit :=
  SetThis (Some f) ;;
  x ← fib f;
  massert (negb (bool_decide (f_state x = kExec))) ;;
  put_state f kExec ;;
  t ← get; main ← some_fiber (t_scheduler_fiber t);
  swapcontext main f false.

Definition SwapOut (f : nat) (ends : bool) : M Thread unit :=
  t ← get;
  SetThis (t_thread_fiber t) ;;
  main ← some_fiber (t_scheduler_fiber t);
  swapcontext f main ends.

Definition Call (f : nat) : M Thread unit :=
  SetThis (Some f) ;;
  put_state f kExec ;;
  t ← get; main ← some_fiber (t_thread_fiber t);
  swapcontext main f false.

Definition Back (f : nat) (ends : bool) : M Thread unit :=
  t ← get;
  SetThis (t_thread_fiber t) ;;
  main ← some_fiber (t_thread_fiber t);
  swapcontext f main ends.

(** [YieldToReady] and [YieldToHold]. *)
Definition Yield (st : State) : M Thread unit :=
  cur ← GetThis;
  x ← fib cur;
  massert (bool_decide (f_state x = kExec)) ;;
  put_state cur st ;;
  SwapOut cur false.
Definition YieldToReady : M Thread unit := Yield kReady.
Definition YieldToHold : M Thread unit := Yield kHold.

(** The end of [MainFunc] and of [CallerMainFunc], behind the callback of [cur], the fiber
    that was current when this code began: its own. *)
Definition MainFunc_end (threw : bool) : M Thread unit :=
  t ← get;
  let cur := code t in
  x ← fib cur;
  put_fib cur (if threw then mkFib kExcept (f_stack x) (f_caller x) (f_cb x) (f_regs x)
               else mkFib kTerm (f_stack x) (f_caller x) None (f_regs x)) ;;
  if f_caller x then Back cur true else SwapOut cur true.

(** ** Steps *)

(** What the running code can do next. *)
Inductive fop := FNew (cb : option nat) (use_caller : bool) | FReset (f : nat) (cb : option nat) | FSwapIn (f : nat) | FCall (f : nat)
  | FYield (hold : bool) | FEnd (threw : bool).
Definition run_fop (o : fop) : M Thread unit :=
  match o with
  | FNew cb use_caller => new_fiber cb use_caller ;; mret tt
  | FReset f cb => Reset f cb
  | FSwapIn f => SwapIn f
  | FCall f => Call f
  | FYield hold => if hold then YieldToHold else YieldToReady
  | FEnd threw => MainFunc_end threw
  end.

Definition after (r : result Thread unit) : option Thread := match r with Ret _ t => Some t | _ => None end.
Fixpoint run_fops (os : list fop) (t : Thread) : option Thread :=
  match os with [] => Some t | o :: os => t' ← after (run_fop o t); run_fops os t' end.

(** A thread of the pool, whose own fiber is the scheduler's; and the thread that made
    the scheduler, where [Run] is the code of fiber 1, called from fiber 0. *)
Definition pool_thread : Thread := mkThread 0 (Some 0) (Some 0) (Some 0) [mkFib kExec false false None None].
Definition caller_thread : Thread := mkThread 0 (Some 0) (Some 0) (Some 1)
  [mkFib kExec false false None None; mkFib kInit true true (Some 0) (Some (1, false))].

(** ** The discipline, and what it keeps *)

Definition ended (st : State) : bool := bool_decide (st = kTerm) || bool_decide (st = kExcept).

(** What the code around fibers does: [Run], the code of fiber [m], enters fibers that can
    go on; fibers yield and end; the thread calls the scheduler's fiber, if that is not its
    own. *)
Definition may (m : nat) (t : Thread) (o : fop) : Prop :=
  match o with
  | FNew _ use_caller => use_caller = false
  | FReset f _ => f ≠ 0 ∧ f ≠ m ∧ f ≠ code t ∧ ∃ x, fibs t !! f = Some x ∧ resettable (f_state x) = true
  | FSwapIn f => code t = m ∧ f ≠ 0 ∧ f ≠ m ∧ ∃ x, fibs t !! f = Some x ∧ f_state x ≠ kExec ∧ ended (f_state x) = false
  | FCall f => code t = 0 ∧ m ≠ 0 ∧ f = m ∧ ∃ x, fibs t !! f = Some x ∧ ended (f_state x) = false
  | FYield _ => code t ≠ m ∧ code t ≠ 0
  | FEnd _ => code t ≠ 0
  end.

(** Where the code goes. *)
Definition goes (m : nat) (t : Thread) (o : fop) : nat :=
  match o with
  | FNew _ _ | FReset _ _ => code t
  | FSwapIn f | FCall f => f
  | FYield _ => m
  | FEnd _ => if bool_decide (code t = m) then 0 else m
  end.

Record sound (m : nat) (t : Thread) : Prop := {
  sd_thread : t_thread_fiber t = Some 0;
  sd_main : t_scheduler_fiber t = Some m;
  sd_code : code t < length (fibs t);
  sd_this : t_fiber t = Some (code t) ∨ code t = m ∧ t_fiber t = Some 0;
  sd_regs : ∀ f x, fibs t !! f = Some x → f ≠ code t → ∃ b, f_regs x = Some (f, b) ∧ (b = true → ended (f_state x) = true);
  sd_exec : ∀ f x, fibs t !! f = Some x → f ≠ 0 → f ≠ m → (f_state x = kExec ↔ f = code t);
  sd_own : ∃ x, fibs t !! 0 = Some x ∧ f_state x = kExec;
  sd_run : ∃ x, fibs t !! m = Some x ∧ (code t ≠ 0 → f_state x = kExec);
  sd_kinds : ∀ f x, fibs t !! f = Some x → (f ≠ 0 → f_stack x = true) ∧ f_caller x = bool_decide (f = m ∧ m ≠ 0) }.

Definition with_regs (r : option (nat * bool)) (x : FiberX) : FiberX := mkFib (f_state x) (f_stack x) (f_caller x) (f_cb x) r.
Definition with_state (st : State) (x : FiberX) : FiberX := mkFib st (f_stack x) (f_caller x) (f_cb x) (f_regs x).

Lemma swapcontext_ok from to ends t x y c : fibs t !! from = Some x → fibs t !! to = Some y → from ≠ to → f_regs y = Some (c, false) →
  swapcontext from to ends t = Ret tt (set_code c (set_fibs (<[to := with_regs None y]> (<[from := with_regs (Some (code t, ends)) x]> (fibs t))) t)).
Proof.
  intros Hx Hy Hne Hc. unfold swapcontext, put_regs, fib, put_fib, modify, get, mbind, M_bind. cbn. rewrite Hx. cbn.
  rewrite list_lookup_insert_ne, Hy by done. cbn. rewrite Hc. cbn. by rewrite list_lookup_insert_ne, Hy by done.
Qed.

(** A switch from the running code to another fiber. *)
Lemma switch_sound m t x y x' y' b this to : sound m t → fibs t !! code t = Some x → fibs t !! to = Some y → to ≠ code t →
  (f_stack x' = f_stack x ∧ f_caller x' = f_caller x) → (f_stack y' = f_stack y ∧ f_caller y' = f_caller y) →
  f_regs x' = Some (code t, b) → (b = true → ended (f_state x') = true) →
  (code t = 0 → f_state x' = kExec) → (code t = m → to ≠ 0 → f_state x' = kExec) → (code t ≠ 0 → code t ≠ m → f_state x' ≠ kExec) →
  f_state y' = kExec → (to ≠ 0 → to ≠ m → code t = m) → this = Some to ∨ to = m ∧ this = Some 0 →
  sound m (mkThread to this (t_thread_fiber t) (t_scheduler_fiber t) (<[to := y']> (<[code t := x']> (fibs t)))).
Proof.
  intros [Ht Hm Hc Hthis Hregs Hexec Hown Hrun Hkinds] Hx Hy Hne [Hs1 Hc1] [Hs2 Hc2] Hr Hb H0 Hmx Hother Hye Hto Hthis'.
  assert (∀ f z, <[to := y']> (<[code t := x']> (fibs t)) !! f = Some z →
    f = to ∧ z = y' ∨ f = code t ∧ f ≠ to ∧ z = x' ∨ f ≠ to ∧ f ≠ code t ∧ fibs t !! f = Some z) as Hl.
  { intros f z Hz. apply list_lookup_insert_Some in Hz as [(<- & <- & _)|[Hft Hz]]; [by left|right].
    apply list_lookup_insert_Some in Hz as [(<- & <- & _)|[Hfc Hz]]; [by left|by right]. }
  assert (∀ f z, fibs t !! f = Some z → f ≠ to → f ≠ code t → <[to := y']> (<[code t := x']> (fibs t)) !! f = Some z) as Hfar.
  { intros f z Hz ? ?. by rewrite !list_lookup_insert_ne. }
  assert (<[to := y']> (<[code t := x']> (fibs t)) !! to = Some y') as Hgto.
  { apply list_lookup_insert_eq. rewrite length_insert. by eapply lookup_lt_Some. }
  assert (<[to := y']> (<[code t := x']> (fibs t)) !! code t = Some x') as Hgc.
  { rewrite list_lookup_insert_ne by done. by apply list_lookup_insert_eq. }
  constructor; cbn; try done.
  - rewrite !length_insert. by eapply lookup_lt_Some.
  - intros f z Hz Hf. destruct (Hl f z Hz) as [[-> ->]|[(-> & _ & ->)|(_ & Hfc & Hz')]]; [done|by exists b|by apply Hregs].
  - intros f z Hz Hf0 Hfm. destruct (Hl f z Hz) as [[-> ->]|[(-> & Hft & ->)|(Hft & Hfc & Hz')]]; [done| |].
    + split; [intros He; by destruct (Hother Hf0 Hfm)|done].
    + rewrite (Hexec f z Hz' Hf0 Hfm). split; intros; done.
  - destruct (decide (to = 0)) as [->|]; [by exists y'|]. destruct (decide (code t = 0)) as [E|].
    + exists x'. split; [rewrite <- Hgc; by rewrite E|by apply H0].
    + destruct Hown as (z & Hz & He). exists z. split; [by apply Hfar|done].
  - destruct (decide (to = m)) as [->|]; [by exists y'|]. destruct (decide (code t = m)) as [E|Hcm].
    + exists x'. split; [rewrite <- Hgc; by rewrite E|]. intros. by apply Hmx.
    + destruct Hrun as (z & Hz & He). exists z. split; [by apply Hfar|]. intros Ht0. destruct Hcm. by apply Hto.
  - intros f z Hz. destruct (Hl f z Hz) as [[-> ->]|[(-> & _ & ->)|(_ & _ & Hz')]].
    + rewrite Hs2, Hc2. by apply Hkinds.
    + rewrite Hs1, Hc1. by apply Hkinds.
    + by apply Hkinds.
Qed.

Lemma regs_live m t f x : sound m t → fibs t !! f = Some x → f ≠ code t → ended (f_state x) = false → f_regs x = Some (f, false).
Proof.
  intros Hs Hx Hf He. destruct (sd_regs _ _ Hs f x Hx Hf) as ([] & Hr & Hb); [|done]. by rewrite Hb in He.
Qed.

(** The steps within the discipline: each returns, and goes where it should. *)
Definition stays (m : nat) (o : fop) (t : Thread) : Prop := ∃ t', run_fop o t = Ret tt t' ∧ sound m t' ∧ code t' = goes m t o.

Lemma code_fiber m t : sound m t → ∃ x, fibs t !! code t = Some x.
Proof. intros Hs. apply lookup_lt_is_Some_2, Hs. Qed.

Lemma SwapIn_sound m t f : sound m t → may m t (FSwapIn f) → stays m (FSwapIn f) t.
Proof.
  intros Hs (Hc & Hf0 & Hfm & y & Hy & Hne & He). destruct (code_fiber m t Hs) as [x Hx]. unfold stays. cbn [run_fop goes].
  assert (f_state x = kExec) as Hxe.
  { destruct (sd_run _ _ Hs) as (x0 & Hx0 & Hr). rewrite Hc, Hx0 in Hx. injection Hx as <-. destruct (decide (code t = 0)) as [E|]; [|by apply Hr].
    destruct (sd_own _ _ Hs) as (z & Hz & ?). rewrite <- E, Hc, Hx0 in Hz. by injection Hz as <-. }
  pose proof (regs_live m t f y Hs Hy ltac:(congruence) He) as Hregs.
  unfold SwapIn, SetThis, put_state, fib, put_fib, modify, get, mbind, M_bind. cbn. rewrite Hy, bool_decide_false by done. cbn. rewrite Hy. cbn.
  rewrite (sd_main _ _ Hs). cbn. rewrite <- Hc.
  rewrite (swapcontext_ok _ _ _ _ x (with_state kExec y) f); [|cbn; by rewrite list_lookup_insert_ne by congruence|
    cbn; apply list_lookup_insert_eq; by eapply lookup_lt_Some|congruence|exact Hregs].
  eexists. split; [reflexivity|]. split; [|done]. unfold set_code, set_fibs. cbn.
  rewrite (list_insert_insert_ne _ (code t) f), list_insert_insert_eq by congruence.
  subst m. apply (switch_sound _ t x y) with (b := false); try done; try congruence; by left.
Qed.

Lemma Call_sound m t f : sound m t → may m t (FCall f) → stays m (FCall f) t.
Proof.
  intros Hs (Hc & Hm0 & -> & y & Hy & He). destruct (sd_own _ _ Hs) as (x & Hx & Hxe). unfold stays. cbn [run_fop goes].
  pose proof (regs_live m t m y Hs Hy ltac:(congruence) He) as Hregs.
  unfold Call, SetThis, put_state, fib, put_fib, modify, get, mbind, M_bind. cbn. rewrite Hy. cbn. rewrite (sd_thread _ _ Hs). cbn.
  rewrite (swapcontext_ok _ _ _ _ x (with_state kExec y) m); [|cbn; by rewrite list_lookup_insert_ne by congruence|
    cbn; apply list_lookup_insert_eq; by eapply lookup_lt_Some|congruence|exact Hregs].
  eexists. split; [reflexivity|]. split; [|done]. unfold set_code, set_fibs. cbn.
  rewrite (list_insert_insert_ne _ 0 m), list_insert_insert_eq by congruence. rewrite <- Hc in Hx. rewrite <- Hc.
  apply (switch_sound _ t x y) with (b := false); try done; try congruence; by left.
Qed.

(** Leaving a fiber, for the scheduler's or the thread's. *)
Lemma leave_sound m t x x' y to ends : sound m t → fibs t !! code t = Some x → fibs t !! to = Some y → to ≠ code t → to = m ∨ to = 0 →
  f_stack x' = f_stack x ∧ f_caller x' = f_caller x → f_state y = kExec → (ends = true → ended (f_state x') = true) →
  code t ≠ 0 → (code t = m → to = 0) → f_state x' ≠ kExec →
  ∃ t', swapcontext (code t) to ends (set_t_fiber (Some 0) (set_fibs (<[code t := x']> (fibs t)) t)) = Ret tt t' ∧ sound m t' ∧ code t' = to.
Proof.
  intros Hs Hx Hy Hne Hto Hk Hye Hends Hc0 Hcm Hxe.
  assert (f_regs y = Some (to, false)) as Hregs by (apply (regs_live m t to y); try done; by rewrite Hye).
  rewrite (swapcontext_ok _ _ _ _ x' y to); [|cbn; apply list_lookup_insert_eq; by eapply lookup_lt_Some|
    cbn; by rewrite list_lookup_insert_ne by congruence|congruence|exact Hregs].
  eexists. split; [reflexivity|]. split; [|done]. unfold set_code, set_fibs. cbn. rewrite list_insert_insert_eq.
  apply (switch_sound _ t x y) with (b := ends); try done; try congruence.
  - intros E Ht0. by destruct Ht0; apply Hcm.
  - intros Ht0 Htm. by destruct Hto.
  - destruct Hto as [-> | ->]; [by right|by left].
Qed.

Lemma running_exec m t x : sound m t → fibs t !! code t = Some x → f_state x = kExec.
Proof.
  intros Hs Hx. destruct (decide (code t = 0)) as [E|Hc0].
  { destruct (sd_own _ _ Hs) as (z & Hz & ?). rewrite E in Hx. congruence. }
  destruct (decide (code t = m)) as [E|Hcm]; [|by apply (sd_exec _ _ Hs _ _ Hx)].
  destruct (sd_run _ _ Hs) as (z & Hz & Hr). rewrite <- E, Hx in Hz. injection Hz as <-. by apply Hr.
Qed.

Lemma Yield_sound m t hold : sound m t → may m t (FYield hold) → stays m (FYield hold) t.
Proof.
  intros Hs [Hcm Hc0]. destruct (code_fiber m t Hs) as [x Hx]. destruct (sd_run _ _ Hs) as (y & Hy & Hye). unfold stays. cbn [run_fop goes].
  assert (t_fiber t = Some (code t)) as Hthis by (by destruct (sd_this _ _ Hs) as [|[]]).
  assert (∀ st, st ≠ kExec → ∃ t', Yield st t = Ret tt t' ∧ sound m t' ∧ code t' = m) as HY; [|destruct hold; by apply HY].
  intros st Hst. unfold Yield, GetThis, SwapOut, SetThis, put_state, fib, put_fib, modify, get, mbind, M_bind. cbn. rewrite Hthis. cbn.
  rewrite Hx, bool_decide_true by (by apply (running_exec m t)). cbn. rewrite Hx. cbn. rewrite (sd_main _ _ Hs), (sd_thread _ _ Hs). cbn.
  apply (leave_sound m t x (with_state st x) y m false); try done; [by left|by apply Hye].
Qed.

Lemma End_sound m t threw : sound m t → may m t (FEnd threw) → stays m (FEnd threw) t.
Proof.
  intros Hs Hc0. cbn in Hc0. destruct (code_fiber m t Hs) as [x Hx]. unfold stays. cbn [run_fop goes].
  destruct (sd_kinds _ _ Hs _ _ Hx) as [_ Hcaller].
  unfold MainFunc_end, SwapOut, Back, SetThis, fib, put_fib, modify, get, mbind, M_bind. cbn. rewrite Hx. cbn. rewrite Hcaller.
  set (x' := if threw then _ else _). assert (f_stack x' = f_stack x ∧ f_caller x' = f_caller x ∧ ended (f_state x') = true ∧ f_state x' ≠ kExec) as (H1 & H2 & H3 & H4) by (by destruct threw).
  case_bool_decide as Hcm; cbn; rewrite ?(sd_main _ _ Hs), (sd_thread _ _ Hs); cbn.
  - destruct Hcm as [Hcm _]. rewrite bool_decide_true by done. destruct (sd_own _ _ Hs) as (y & Hy & Hye).
    apply (leave_sound m t x x' y 0 true); try done; by right.
  - rewrite bool_decide_false by naive_solver. destruct (sd_run _ _ Hs) as (y & Hy & Hye).
    apply (leave_sound m t x x' y m true); try done; [naive_solver|by left|by apply Hye|naive_solver].
Qed.

(** Making and resetting fibers that do not run. *)
Lemma New_sound m t cb : sound m t → stays m (FNew cb false) t.
Proof.
  intros [Ht Hm Hc Hthis Hregs Hexec Hown Hrun Hkinds]. unfold stays. cbn.
  eexists. split; [reflexivity|]. split; [|done].
  assert (∀ f z, (fibs t ++ [mkFib kInit true false cb (Some (length (fibs t), false))]) !! f = Some z →
    fibs t !! f = Some z ∨ f = length (fibs t) ∧ z = mkFib kInit true false cb (Some (length (fibs t), false))) as Hl.
  { intros f z Hz. apply lookup_app_Some in Hz as [Hz|[Hge Hz]]; [by left|right].
    apply list_lookup_singleton_Some in Hz as [Hz <-]. split; [lia|done]. }
  assert (m < length (fibs t)) as Hml by (destruct Hrun as (z & Hz & _); by eapply lookup_lt_Some).
  constructor; cbn; try done.
  - rewrite length_app. cbn. lia.
  - intros f z Hz Hf. destruct (Hl f z Hz) as [Hz'|[-> ->]]; [by apply Hregs|]. by exists false.
  - intros f z Hz H0 Hfm. destruct (Hl f z Hz) as [Hz'|[-> ->]]; [by apply Hexec|]. cbn. split; [done|lia].
  - destruct Hown as (z & Hz & ?). exists z. split; [|done]. by apply lookup_app_l_Some.
  - destruct Hrun as (z & Hz & ?). exists z. split; [|done]. by apply lookup_app_l_Some.
  - intros f z Hz. destruct (Hl f z Hz) as [Hz'|[-> ->]]; [by apply Hkinds|]. cbn. split; [done|]. rewrite bool_decide_false; [done|lia].
Qed.

Lemma Reset_sound m t f cb : sound m t → may m t (FReset f cb) → stays m (FReset f cb) t.
Proof.
  intros Hs (Hf0 & Hfm & Hfc & x & Hx & Hr). unfold stays. cbn [run_fop goes].
  pose proof (sd_kinds _ _ Hs _ _ Hx) as [Hst _].
  unfold Reset, fib, put_fib, modify, mbind, M_bind. cbn. rewrite Hx. cbn. rewrite Hst, Hr by done. cbn.
  eexists. split; [reflexivity|]. split; [|done]. destruct Hs as [Ht Hm Hc Hthis Hregs Hexec Hown Hrun Hkinds].
  assert (∀ g z, <[f := mkFib kInit true false cb (Some (f, false))]> (fibs t) !! g = Some z →
    g = f ∧ z = mkFib kInit true false cb (Some (f, false)) ∨ g ≠ f ∧ fibs t !! g = Some z) as Hl.
  { intros g z Hz. apply list_lookup_insert_Some in Hz as [(<- & <- & _)|[? ?]]; [by left|by right]. }
  constructor; cbn; try done.
  - by rewrite length_insert.
  - intros g z Hz Hg. destruct (Hl g z Hz) as [[-> ->]|[_ Hz']]; [by exists false|by apply Hregs].
  - intros g z Hz H0 Hgm. destruct (Hl g z Hz) as [[-> ->]|[_ Hz']]; [by cbn|by apply Hexec].
  - rewrite list_lookup_insert_ne by done. done.
  - rewrite list_lookup_insert_ne by done. done.
  - intros g z Hz. destruct (Hl g z Hz) as [[-> ->]|[_ Hz']]; [|by apply Hkinds]. cbn. split; [done|]. by rewrite bool_decide_false by naive_solver.
Qed.

Lemma switch_step_sound m t o : sound m t → may m t o → stays m o t.
Proof.
  intros Hs Ho. destruct o as [cb c|f cb|f|f|hold|threw].
  - cbn in Ho. subst c. by apply New_sound.
  - by apply Reset_sound.
  - by apply SwapIn_sound.
  - by apply Call_sound.
  - by apply Yield_sound.
  - by apply End_sound.
Qed.

(** What a thread gets to within the discipline. *)
Inductive switching (m : nat) : Thread → Prop :=
  | switching_pool : m = 0 → switching m pool_thread
  | switching_caller : m = 1 → switching m caller_thread
  | switching_step t o t' : switching m t → may m t o → run_fop o t = Ret tt t' → switching m t'.

Lemma switching_sound m t : switching m t → sound m t.
Proof.
  induction 1 as [Hm|Hm|t o t' _ IH Ho Hr].
  - subst m. constructor; cbn; try done; try lia; try (by left); try (by eexists);
      intros [|f] x Hx; cbn in Hx; simplify_eq; try done; try (intros; lia); by cbn.
  - subst m. constructor; cbn; try done; try lia; try (by left); try (by eexists);
      intros [|[|f]] x Hx; cbn in Hx; simplify_eq; try done; try (intros; lia); cbn; try done. intros _. by exists false.
  - destruct (switch_step_sound m t o IH Ho) as (t1 & Hr1 & Hs1 & _). congruence.
Qed.

(** ** Outside the discipline *)

(** The code of the thread itself can never go on. *)
Definition lost (t : Thread) : Prop :=
  code t ≠ 0 ∧ (∀ f x, fibs t !! f = Some x → ∀ b, f_regs x ≠ Some (0, b)) ∧ ∃ x, fibs t !! 0 = Some x ∧ f_stack x = false.

Definition keeps_lost {A} (k : M Thread A) : Prop := ∀ t a t', lost t → k t = Ret a t' → lost t'.

Lemma keeps_lost_bind {A C} (k : M Thread A) (h : A → M Thread C) : keeps_lost k → (∀ a, keeps_lost (h a)) → keeps_lost (k ≫= h).
Proof.
  intros Hk Hh t b t' Hl. unfold mbind, M_bind. destruct (k t) as [a t1| | |] eqn:E; try done. intros Hr. eapply Hh; [|exact Hr]. by eapply Hk.
Qed.
Lemma keeps_lost_same {A} (k : M Thread A) : (∀ t a t', k t = Ret a t' → code t' = code t ∧ fibs t' = fibs t) → keeps_lost k.
Proof. intros Hk t a t' (Hc & Hr & Hx) Ha. destruct (Hk t a t' Ha) as [Hc' Hf']. unfold lost. by rewrite Hc', Hf'. Qed.
Lemma keeps_lost_ret {A} (a : A) : keeps_lost (mret a).
Proof. apply keeps_lost_same. by intros ??? [= <- <-]. Qed.
Lemma keeps_lost_get : keeps_lost get.
Proof. apply keeps_lost_same. by intros ??? [= <- <-]. Qed.
Lemma keeps_lost_SetThis f : keeps_lost (SetThis f).
Proof. apply keeps_lost_same. by intros ??? [= <- <-]. Qed.
Lemma keeps_lost_assert b : keeps_lost (massert b).
Proof. apply keeps_lost_same. destruct b; [by intros ??? [= <- <-]|done]. Qed.
Lemma keeps_lost_some o : keeps_lost (some_fiber o).
Proof. apply keeps_lost_same. destruct o; [by intros ??? [= <- <-]|done]. Qed.

Lemma lost_put t f x y : lost t → fibs t !! f = Some x → (∀ b, f_regs y ≠ Some (0, b)) → f_stack y = f_stack x →
  lost (set_fibs (<[f := y]> (fibs t)) t).
Proof.
  intros (Hc & Hr & z & Hz & Hzs) Hx Hy Hs. split; [done|]. split.
  - intros g w Hw. cbn in Hw. apply list_lookup_insert_Some in Hw as [(<- & <- & _)|[_ Hw]]; [done|by eapply Hr].
  - cbn. destruct (decide (f = 0)) as [->|].
    + exists y. rewrite Hx in Hz. injection Hz as <-. split; [apply list_lookup_insert_eq; by eapply lookup_lt_Some|congruence].
    + exists z. by rewrite list_lookup_insert_ne.
Qed.

Lemma keeps_lost_put_state f st : keeps_lost (put_state f st).
Proof.
  intros t a t' Hl. unfold put_state, fib, put_fib, modify, mbind, M_bind. destruct (fibs t !! f) as [x|] eqn:Hx; [|done].
  intros [= _ <-]. eapply lost_put; [done|done| |done]. cbn. destruct Hl as (_ & Hr & _). by eapply Hr.
Qed.

Lemma keeps_lost_swapcontext from to ends : keeps_lost (swapcontext from to ends).
Proof.
  intros t a t' Hl. unfold swapcontext, put_regs, fib, put_fib, modify, get, mbind, M_bind.
  destruct (fibs t !! from) as [x|] eqn:Hx; [|done]. cbn.
  assert (lost (set_fibs (<[from := with_regs (Some (code t, ends)) x]> (fibs t)) t)) as Hl1.
  { eapply lost_put; [done|done| |done]. cbn. intros b [= E]. by destruct Hl as [Hc _]. }
  unfold with_regs in Hl1. destruct (<[from := _]> (fibs t) !! to) as [y|] eqn:Hy; [|done].
  destruct (f_regs y) as [[c []]|] eqn:Hc; [done| |done]. cbn. rewrite Hy. cbn. intros [= _ <-].
  pose proof (lost_put _ to y (with_regs None y) Hl1 Hy (λ b, ltac:(done)) eq_refl) as (_ & H2 & H3).
  split; [|by split]. cbn. intros ->. destruct Hl1 as (_ & Hr & _). by apply (Hr to y Hy false).
Qed.

Lemma keeps_lost_GetThis : keeps_lost GetThis.
Proof.
  intros t a t' Hl. unfold GetThis, get, mbind, M_bind. destruct (t_fiber t) as [f|]; [by intros [= _ <-]|]. cbn. intros [= _ <-].
  destruct Hl as (Hc & Hr & z & Hz & Hzs). split; [done|]. cbn. split.
  - intros f x Hx. apply lookup_app_Some in Hx as [Hx|[_ Hx]]; [by eapply Hr|]. apply list_lookup_singleton_Some in Hx as [_ <-]. done.
  - exists z. split; [by apply lookup_app_l_Some|done].
Qed.

Lemma keeps_lost_fib f : keeps_lost (fib f).
Proof. apply keeps_lost_same. intros t a t'. unfold fib. destruct (fibs t !! f); [by intros [= <- <-]|done]. Qed.

Create HintDb lost.
#[local] Hint Resolve keeps_lost_ret keeps_lost_get keeps_lost_SetThis keeps_lost_assert keeps_lost_some keeps_lost_put_state
  keeps_lost_swapcontext keeps_lost_GetThis keeps_lost_fib : lost.
Ltac lost_step := repeat (first [solve [auto with lost nocore] | apply keeps_lost_bind; [|intros ?] | case_match]).


Lemma keeps_lost_step o : keeps_lost (run_fop o).
Proof.
  destruct o as [cb c|f cb|f|f|hold|threw]; cbn [run_fop].
  - intros t a t' (Hc & Hr & z & Hz & Hzs). unfold new_fiber, get, modify, mbind, M_bind. cbn. intros [= _ <-]. split; [done|]. cbn. split.
    + intros f x Hx. apply lookup_app_Some in Hx as [Hx|[_ Hx]]; [by eapply Hr|]. apply list_lookup_singleton_Some in Hx as [_ <-].
      intros b [= E]. apply lookup_lt_Some in Hz. lia.
    + exists z. split; [by apply lookup_app_l_Some|done].
  - intros t a t' Hl. unfold Reset, fib, put_fib, modify, mbind, M_bind. destruct (fibs t !! f) as [x|] eqn:Hx; [|done].
    destruct (f_stack x) eqn:Hst; [|done]. cbn. destruct (resettable (f_state x)); [|done]. cbn. intros [= _ <-].
    eapply lost_put; [done|done| |by rewrite Hst]. cbn. intros b [= -> _]. destruct Hl as (_ & _ & z & Hz & Hzs). congruence.
  - unfold SwapIn. lost_step.
  - unfold Call. lost_step.
  - unfold YieldToHold, YieldToReady, Yield, SwapOut. lost_step.
  - intros t a t' Hl. unfold MainFunc_end, fib, put_fib, modify, get. unfold mbind, M_bind. destruct (fibs t !! code t) as [x|] eqn:Hx; [|done].
    intros Hr. assert (lost (set_fibs (<[code t := if threw then mkFib kExcept (f_stack x) (f_caller x) (f_cb x) (f_regs x)
      else mkFib kTerm (f_stack x) (f_caller x) None (f_regs x)]> (fibs t)) t)) as Hl1.
    { eapply lost_put; [done|done| |by destruct threw]. destruct Hl as (_ & Hr' & _). intros b. destruct threw; by apply (Hr' _ _ Hx). }
    assert (keeps_lost (if f_caller x then Back (code t) true else SwapOut (code t) true)) as Hk by (unfold Back, SwapOut; lost_step).
    by apply (Hk _ _ _ Hl1 Hr).
Qed.

Lemma lost_for_ever os : ∀ t t', lost t → run_fops os t = Some t' → lost t'.
Proof.
  induction os as [|o os IH]; intros t t' Hl; cbn; [by intros [= <-]|]. destruct (run_fop o t) as [[] t1| | |] eqn:E; try done. cbn.
  intros Hr. eapply IH; [|exact Hr]. by eapply keeps_lost_step.
Qed.

(** ** Properties *)

(** C8: Within the discipline of [Run], every switch returns and goes where it should: into
    the fiber entered, back to the scheduler's from one that yields or ends, and from that
    back to the thread's.  All other code can go on where it stopped, no matter how the
    switches came; only the running fiber and those of the scheduler and the thread are in
    state [kExec], and on a thread of the pool [t_fiber] is the running fiber. *)
Theorem switching_is_sound (m : nat) (t : Thread) (o : fop) : switching m t → may m t o →
  ∃ t', run_fop o t = Ret tt t' ∧ code t' = goes m t o ∧ (m = 0 → t_fiber t' = Some (code t')) ∧
    (∀ f x, fibs t' !! f = Some x → f ≠ code t' → ∃ b, f_regs x = Some (f, b) ∧ (b = true → ended (f_state x) = true)) ∧
    (∀ f x, fibs t' !! f = Some x → f ≠ 0 → f ≠ m → (f_state x = kExec ↔ f = code t')).
Proof.
  intros Ht Ho. destruct (switch_step_sound m t o (switching_sound m t Ht) Ho) as (t' & Hr & Hs & Hg). exists t'. split_and!; try done.
  - intros ->. by destruct (sd_this _ _ Hs) as [|[-> ?]].
  - apply (sd_regs _ _ Hs).
  - apply (sd_exec _ _ Hs).
Qed.

(** A fiber that is entered from another fiber, and not from the scheduler's, yields
    back to that other one, while [t_fiber] names the thread; the code of the scheduler
    never runs again on this thread, whatever is done. *)
Theorem nested_SwapIn_loses_scheduler : ∃ t, run_fops [FNew (Some 5) false; FNew (Some 6) false; FSwapIn 1; FSwapIn 2; FYield true] pool_thread = Some t ∧
  code t = 1 ∧ t_fiber t = Some 0 ∧ ∀ os t', run_fops os t = Some t' → code t' ≠ 0.
Proof.
  eexists. split; [vm_compute; reflexivity|]. split; [done|]. split; [done|]. intros os t' Hr. apply (lost_for_ever os _ _) in Hr; [by destruct Hr|].
  split; [done|]. split; [|by eexists]. intros [|[|[|f]]] x Hx; cbn in Hx; simplify_eq; done.
Qed.

(** On the thread that made the scheduler, [t_fiber] names the thread's own fiber, and
    not the scheduler's, whenever a fiber has given control back to [Run]; if that code
    yields then, it does so for the wrong fiber, and goes on with registers that are not
    there. *)
Theorem caller_thread_mistakes_itself : ∃ t, switching 1 t ∧ code t = 1 ∧ t_fiber t = Some 0 ∧
  run_fop (FYield true) t = Undef uninitialised.
Proof.
  assert (∀ os t t', switching 1 t → run_fops os t = Some t' → (∀ pre o post t1, os = pre ++ o :: post → run_fops pre t = Some t1 → may 1 t1 o) → switching 1 t') as Hsw.
  { induction os as [|o os IH]; intros t t' Ht Hr Hm; cbn in Hr; [by injection Hr as <-|].
    destruct (run_fop o t) as [[] t1| | |] eqn:E; try done. cbn in Hr. eapply IH; [|exact Hr|].
    - eapply switching_step; [done| |exact E]. by apply (Hm [] o os t).
    - intros pre o' post t2 -> Hp. apply (Hm (o :: pre) o' post t2); [done|]. cbn. by rewrite E. }
  eexists. split; [eapply (Hsw [FCall 1; FNew (Some 5) false; FSwapIn 2; FYield true] caller_thread); [by apply switching_caller|vm_compute; reflexivity|]|].
  - intros pre o post t1 Hos Hp. destruct pre as [|o1 [|o2 [|o3 [|o4 pre]]]]; cbn in Hos; simplify_eq; vm_compute in Hp; simplify_eq; cbn.
    + split_and!; try done. by eexists.
    + done.
    + split_and!; try done. by eexists.
    + done.
    + by destruct pre.
  - split; [done|]. split; [done|]. vm_compute. reflexivity.
Qed.

Lemma switching_is_sound_witness : ∃ t', run_fop (FSwapIn 1) (set_fibs [mkFib kExec false false None None; mkFib kInit true false (Some 5) (Some (1, false))] pool_thread)
  = Ret tt t' ∧ code t' = 1 ∧ t_fiber t' = Some 1.
Proof.
  destruct (switching_is_sound 0 (set_fibs [mkFib kExec false false None None; mkFib kInit true false (Some 5) (Some (1, false))] pool_thread) (FSwapIn 1))
    as (t' & Hr & Hc & Ht & _).
  - apply (switching_step _ pool_thread (FNew (Some 5) false)); [by apply switching_pool|done|reflexivity].
  - cbn. split_and!; try done. by eexists.
  - exists t'. split; [done|]. split; [done|]. by rewrite Ht, Hc.
Defined.
