(* ===== verification/FiberOwnership.v ===== *)
(** * Who holds a fiber: the ownership discipline of the scheduler

    The queue and the workers of [Scheduler.v] hold fibers.  When fibers are
    scheduled only while nothing holds them, no fiber is ever entered twice. *)
From stdpp Require Import sets list.
From S2P Require Import Prelude Scheduler.

(** ** One place for every fiber

    When fibers are scheduled only while no queue entry and no worker holds them,
    no fiber is ever entered twice, whatever the order of events. *)

Definition opt_list {A} (o : option A) : list A := match o with Some a => [a] | None => [] end.

(** The fibers a worker holds, and all that are held; [cb_fiber] is the running
    fiber when that is a callback's. *)
Definition ph_fibers (p : phase) : list nat :=
  match p with
  | PGot ft => opt_list (ft_fiber ft)
  | PRun f false | PLeave f false | PBack f false | PAfter f false => [f]
  | _ => []
  end.
Definition w_fibers (w : Worker) : list nat := ph_fibers (ph w) ++ opt_list (cb_fiber w).
Definition q_fibers (q : list FiberAndThread) : list nat := omap ft_fiber q.
Definition held (s : Scheduler) : list nat := q_fibers (fibers_ s) ++ concat (w_fibers <$> workers s).

(** A fiber that can be entered, and a callback's fiber that can be used again. *)
Definition parked (m : list Fiber) (f : nat) : Prop :=
  ∃ x, m !! f = Some x ∧ saved_ x = true ∧ state_ x ≠ kExec.
Definition reusable (m : list Fiber) (f : nat) : Prop :=
  ∃ x, m !! f = Some x ∧ saved_ x = true ∧ resettable (state_ x) = true.

Definition ph_ok (m : list Fiber) (p : phase) (cbf : option nat) : Prop :=
  match p with
  | PRun f c => (∃ x, m !! f = Some x ∧ state_ x = kExec) ∧
                (if c then cbf = Some f else ∀ g, cbf = Some g → reusable m g)
  | PLeave f c => (∃ x, m !! f = Some x ∧ state_ x ≠ kExec) ∧
                  (if c then cbf = Some f else ∀ g, cbf = Some g → reusable m g)
  | PBack f c | PAfter f c => parked m f ∧
                  (if c then cbf = Some f else ∀ g, cbf = Some g → reusable m g)
  | PGot ft => (∀ f, ft_fiber ft = Some f → parked m f) ∧ ∀ g, cbf = Some g → reusable m g
  | _ => ∀ g, cbf = Some g → reusable m g
  end.
Definition worker_ok (m : list Fiber) (w : Worker) : Prop := ph_ok m (ph w) (cb_fiber w).

Record exclusive (s : Scheduler) : Prop := {
  ex_once : NoDup (held s);
  ex_mem : ∀ f, f ∈ held s → f < length (mem s);
  ex_tasks : ∀ ft, ft ∈ fibers_ s → is_task ft = true;
  ex_free : ∀ f, f < length (mem s) → f ∉ concat (w_fibers <$> workers s) → parked (mem s) f;
  ex_workers : ∀ i w, workers s !! i = Some w → worker_ok (mem s) w
}.

(** Fibers are scheduled only while free: made, and not held. *)
Definition disciplined (s : Scheduler) (e : event) : Prop :=
  match e with
  | ESchedule ft =>
      match ft_fiber ft with Some f => f < length (mem s) ∧ f ∉ held s | None => True end
  | _ => True
  end.
#[export] Instance disciplined_dec s e : Decision (disciplined s e).
Proof. destruct e as [ft|cb| | |self|self l]; simpl; [destruct (ft_fiber ft)|..]; apply _. Defined.

Lemma reusable_parked m f : reusable m f → parked m f.
Proof.
  intros (x & ? & ? & Hr). exists x. split_and!; [done..|]. intros Hx. by rewrite Hx in Hr.
Qed.

(** What is known of a worker depends on the fibers it holds only. *)
Lemma worker_ok_frame m m' w : worker_ok m w → (∀ f, f ∈ w_fibers w → m' !! f = m !! f) → worker_ok m' w.
Proof.
  destruct w as [p cbf t r]. unfold worker_ok, w_fibers. cbn [ph cb_fiber]. intros Hw Hm.
  assert (∀ g, g ∈ opt_list cbf → m' !! g = m !! g) as Hcb.
  { intros g Hg. apply Hm. set_solver. }
  assert ((∀ g, cbf = Some g → reusable m g) → ∀ g, cbf = Some g → reusable m' g) as Hre.
  { intros H g ->. destruct (H g eq_refl) as (x & Hx & ?). exists x. rewrite Hcb by set_solver. done. }
  assert (∀ (P : Fiber → Prop) (f : nat) (c : bool), (c = false → m' !! f = m !! f) →
    (∃ x, m !! f = Some x ∧ P x) ∧ (if c then cbf = Some f else ∀ g, cbf = Some g → reusable m g) →
    (∃ x, m' !! f = Some x ∧ P x) ∧ (if c then cbf = Some f else ∀ g, cbf = Some g → reusable m' g)) as Hph.
  { intros P f c Hf [(x & Hx & HP) Hc]. split; [|destruct c; [done|by apply Hre]].
    exists x. split; [|done]. destruct c; [|by rewrite Hf]. rewrite Hcb; [done|]. subst. set_solver. }
  destruct p as [|ft| |f c|f c|f c|f c| |]; simpl in Hw |- *; try by apply Hre.
  - destruct Hw as [Hg Hc]. split; [|by apply Hre]. intros f Hf. destruct (Hg f Hf) as (x & Hx & ?).
    exists x. rewrite Hm; [done|]. simpl. rewrite Hf. set_solver.
  - apply Hph; [|done]. intros ->. apply Hm. simpl. set_solver.
  - apply Hph; [|done]. intros ->. apply Hm. simpl. set_solver.
  - apply (Hph (λ x, saved_ x = true ∧ state_ x ≠ kExec)); [|done]. intros ->. apply Hm. simpl. set_solver.
  - apply (Hph (λ x, saved_ x = true ∧ state_ x ≠ kExec)); [|done]. intros ->. apply Hm. simpl. set_solver.
Qed.

(** The fibers of the other workers. *)
Definition others (i : nat) (ws : list Worker) : list nat :=
  concat (w_fibers <$> take i ws) ++ concat (w_fibers <$> drop (S i) ws).

Lemma held_split i w ws : ws !! i = Some w → concat (w_fibers <$> ws) ≡ₚ w_fibers w ++ others i ws.
Proof.
  intros Hw. rewrite <- (take_drop_middle ws i w Hw) at 1.
  rewrite fmap_app, concat_app, fmap_cons. simpl. unfold others. solve_Permutation.
Qed.

Lemma others_insert i w ws : others i (<[i:=w]> ws) = others i ws.
Proof. unfold others. by rewrite take_insert_ge, drop_insert_lt by lia. Qed.

Lemma held_insert i w ws : i < length ws →
  concat (w_fibers <$> <[i:=w]> ws) ≡ₚ w_fibers w ++ others i ws.
Proof. intros Hi. rewrite (held_split i w), others_insert; [done|]. by apply list_lookup_insert_eq. Qed.

Lemma others_elem i j w ws : ws !! j = Some w → i ≠ j → ∀ f, f ∈ w_fibers w → f ∈ others i ws.
Proof.
  intros Hj Hne f Hf. unfold others. rewrite elem_of_app. destruct (decide (j < i)).
  - left. rewrite list_elem_of_In, in_concat. exists (w_fibers w).
    rewrite <- !list_elem_of_In. split; [|done]. apply list_elem_of_fmap_2, (list_elem_of_lookup_2 _ j).
    by rewrite lookup_take_lt.
  - right. rewrite list_elem_of_In, in_concat. exists (w_fibers w).
    rewrite <- !list_elem_of_In. split; [|done].
    apply list_elem_of_fmap_2, (list_elem_of_lookup_2 _ (j - S i)%nat).
    rewrite lookup_drop. rewrite <- Hj. f_equal. lia.
Qed.

(** A step of one worker, which touches its own fibers and new ones only: what
    it lets go ([l]) is left parked. *)
Lemma exclusive_step self w w' l s s' :
  exclusive s → workers s !! self = Some w → workers s' = <[self:=w']> (workers s) →
  length (mem s) ≤ length (mem s') →
  (∀ f, f < length (mem s) → f ∉ w_fibers w → mem s' !! f = mem s !! f) →
  q_fibers (fibers_ s') ++ w_fibers w' ++ l ≡ₚ
    q_fibers (fibers_ s) ++ w_fibers w ++ seq (length (mem s)) (length (mem s') - length (mem s)) →
  (∀ ft, ft ∈ fibers_ s' → is_task ft = true) →
  (∀ f, f ∈ w_fibers w ∨ length (mem s) ≤ f < length (mem s') → f ∉ w_fibers w' → parked (mem s') f) →
  worker_ok (mem s') w' →
  exclusive s'.
Proof.
  intros [Honce Hmem Htasks Hfree Hws] Hw Hw' Hlen Hsame Hperm Htasks' Hrel Hok.
  pose proof (lookup_lt_Some _ _ _ Hw) as Hlt.
  assert (held s ≡ₚ q_fibers (fibers_ s) ++ w_fibers w ++ others self (workers s)) as Hh.
  { unfold held. by rewrite (held_split self w) by done. }
  assert (held s' ≡ₚ q_fibers (fibers_ s') ++ w_fibers w' ++ others self (workers s)) as Hh'.
  { unfold held. by rewrite Hw', held_insert by done. }
  assert (held s' ++ l ≡ₚ held s ++ seq (length (mem s)) (length (mem s') - length (mem s))) as Hall.
  { rewrite Hh, Hh'.
    transitivity ((q_fibers (fibers_ s') ++ w_fibers w' ++ l) ++ others self (workers s)); [solve_Permutation|].
    rewrite Hperm. solve_Permutation. }
  assert (NoDup (held s' ++ l)) as Hnd.
  { rewrite Hall. apply NoDup_app. split_and!; [done| |apply NoDup_seq].
    intros f Hf. rewrite elem_of_seq. specialize (Hmem f Hf). lia. }
  split.
  - by apply NoDup_app in Hnd as [? _].
  - intros f Hf. assert (f ∈ held s' ++ l) as Hin by set_solver. rewrite Hall in Hin.
    apply elem_of_app in Hin as [Hin|Hin]; [specialize (Hmem f Hin); lia|].
    apply elem_of_seq in Hin. lia.
  - done.
  - intros f Hf Hno. rewrite Hw', held_insert in Hno by done.
    destruct (decide (f ∈ w_fibers w)); [apply Hrel; set_solver|].
    destruct (decide (length (mem s) ≤ f)); [apply Hrel; [right; lia|set_solver]|].
    unfold parked. rewrite Hsame by (lia || done). apply Hfree; [lia|].
    rewrite (held_split self w) by done. set_solver.
  - intros i v Hi. rewrite Hw' in Hi. destruct (decide (i = self)) as [->|Hne].
    { rewrite list_lookup_insert_eq in Hi by done. by injection Hi as <-. }
    rewrite list_lookup_insert_ne in Hi by done. apply (worker_ok_frame (mem s)); [by eapply Hws|].
    intros f Hf. assert (f ∈ others self (workers s)) as Hof by (eapply others_elem; [exact Hi|done|done]).
    apply Hsame; [apply Hmem; rewrite Hh; set_solver|].
    rewrite Hh, !NoDup_app in Honce. intros Hfw. by apply Honce in Hof.
Qed.

(** ** What the operations do *)

Definition elsewhere (self : nat) (ft : FiberAndThread) : bool :=
  match thread_id_ ft with Some t => negb (t =? self) | None => false end.
Definition executing (m : list Fiber) (ft : FiberAndThread) : bool :=
  bool_decide (ft_fiber ft ≫= state_of m = Some kExec).
Definition eligible (m : list Fiber) (self : nat) (ft : FiberAndThread) : bool :=
  negb (elsewhere self ft) && negb (executing m ft).

(** [pick] takes the first eligible entry, or leaves the queue as it is. *)
Lemma pick_spec m self q : Forall (λ ft, is_task ft = true) q →
  (∃ a ft b, q = a ++ ft :: b ∧ Forall (λ x, eligible m self x = false) a ∧ eligible m self ft = true ∧
     pick m self q = Some (Some ft, a ++ b, existsb (elsewhere self) a || bool_decide (b ≠ []))) ∨
  Forall (λ x, eligible m self x = false) q ∧
  pick m self q = Some (None, q, existsb (elsewhere self) q).
Proof.
  induction q as [|it q IH]; intros Hq; [by right|]. inversion Hq as [|? ? Hit Hq']; subst.
  cbn [pick]. fold (executing m it).
  assert (thread_id_ it = None ∨ ∃ t, thread_id_ it = Some t) as Ht.
  { destruct (thread_id_ it) as [t|]; [right; by eexists|by left]. }
  assert (∀ sk : bool, sk = elsewhere self it → eligible m self it = false →
    let r := '(ft, q0, t) ← pick m self q; Some (ft, it :: q0, sk || t) in
    (∃ a ft b, it :: q = a ++ ft :: b ∧ Forall (λ x, eligible m self x = false) a ∧
       eligible m self ft = true ∧
       r = Some (Some ft, a ++ b, existsb (elsewhere self) a || bool_decide (b ≠ []))) ∨
    Forall (λ x, eligible m self x = false) (it :: q) ∧ r = Some (None, it :: q, existsb (elsewhere self) (it :: q)))
    as Hskip.
  { intros sk -> Hel r. subst r. destruct (IH Hq') as [(a & ft & b & -> & Ha & Hft & ->)|[Ha ->]].
    - left. exists (it :: a), ft, b. split_and!; [done|by constructor|done|]. simpl. by rewrite orb_assoc.
    - right. split; [by constructor|done]. }
  assert (eligible m self it = true → elsewhere self it = false →
    (∃ a ft b, it :: q = a ++ ft :: b ∧ Forall (λ x, eligible m self x = false) a ∧
       eligible m self ft = true ∧
       Some (Some it, q, negb (bool_decide (q = []))) =
       Some (Some ft, a ++ b, existsb (elsewhere self) a || bool_decide (b ≠ [])))) as Htake.
  { intros Hel _. exists [], it, q. split_and!; [done|done|done|]. simpl. do 2 f_equal.
    by rewrite bool_decide_not. }
  destruct (elsewhere self it) eqn:Hew; [|destruct (executing m it) eqn:Hex].
  - assert (∃ t, thread_id_ it = Some t ∧ (t =? self) = false) as (t & -> & ->).
    { unfold elsewhere in Hew. destruct (thread_id_ it) as [t|]; [|done]. exists t. by destruct (t =? self). }
    apply Hskip; [done|]. unfold eligible. by rewrite Hew.
  - rewrite Hit. cbn [negb]. destruct Ht as [Ht|[t Ht]].
    + rewrite Ht. apply (Hskip false); [done|]. unfold eligible. by rewrite Hew, Hex.
    + unfold elsewhere in Hew. rewrite Ht in Hew |- *. rewrite Hew.
      apply (Hskip false); [done|]. unfold eligible, elsewhere. by rewrite Ht, Hew, Hex.
  - left. rewrite Hit. cbn [negb].
    assert (eligible m self it = true) as Hel by (unfold eligible; by rewrite Hew, Hex).
    destruct Ht as [Ht|[t Ht]]; rewrite Ht; [by apply Htake|].
    unfold elsewhere in Hew. rewrite Ht in Hew. rewrite Hew. by apply Htake.
Qed.

(** Runs the monadic code of the goal as far as the hypotheses [H: _ = _] in hand allow. *)
Ltac run := cbv [mbind M_bind mret M_ret get modify undef massert massert_or deref get_fiber
  put_fiber set_state get_worker put_worker goto add_active Schedule ScheduleNoLock new_Fiber
  Reset SwapIn SwapOut Yield MainFunc_end set_fibers_ set_mem set_active set_idle set_stopping
  set_auto_stop set_threads set_root set_workers];
  cbn [fibers_ mem active_thread_count_ idle_thread_count_ stopping_ auto_stop_ thread_count_ threads_
    root_fiber_ tickles workers ph cb_fiber idle_term is_root ft_fiber ft_cb thread_id_ state_ saved_ cb_].

Definition safe_step (m : M Scheduler unit) (s : Scheduler) : Prop :=
  ∃ s', m s = Ret tt s' ∧ exclusive s' ∧ length (workers s') = length (workers s).

Lemma q_fibers_app q1 q2 : q_fibers (q1 ++ q2) = q_fibers q1 ++ q_fibers q2.
Proof. apply omap_app. Qed.

Lemma q_fibers_cons ft q : q_fibers (ft :: q) = opt_list (ft_fiber ft) ++ q_fibers q.
Proof. unfold q_fibers. simpl. by destruct (ft_fiber ft). Qed.

Lemma ph_ok_reusable m w : worker_ok m w → (∀ f, ph w ≠ PRun f true ∧ ph w ≠ PLeave f true ∧
  ph w ≠ PBack f true ∧ ph w ≠ PAfter f true) → ∀ g, cb_fiber w = Some g → reusable m g.
Proof.
  unfold worker_ok. destruct (ph w) as [|ft| |f c|f c|f c|f c| |]; simpl; intros Hok Hne; try done.
  - by destruct Hok.
  - destruct c; [by destruct (Hne f)|by destruct Hok].
  - destruct c; [by destruct (Hne f) as (_ & ? & _)|by destruct Hok].
  - destruct c; [by destruct (Hne f) as (_ & _ & ? & _)|by destruct Hok].
  - destruct c; [by destruct (Hne f) as (_ & _ & _ & ?)|by destruct Hok].
Qed.

Lemma parked_queue s f : exclusive s → f ∈ q_fibers (fibers_ s) → parked (mem s) f.
Proof.
  intros Hex Hf. apply (ex_free _ Hex).
  - apply (ex_mem _ Hex). unfold held. set_solver.
  - pose proof (ex_once _ Hex) as Hnd. unfold held in Hnd. apply NoDup_app in Hnd as (_ & Hd & _). by apply Hd.
Qed.

Lemma when_Tickle b s : ∃ t, when b Tickle s = Ret tt (set_tickles t s).
Proof. destruct b; [by eexists|]. exists (tickles s). by destruct s. Qed.

Lemma exclusive_tickles t s : exclusive s → exclusive (set_tickles t s).
Proof. by intros []; split. Qed.

(** [when_Tickle], and the state after it. *)
Ltac tickle := match goal with |- context [when ?b Tickle ?s] =>
  destruct (when_Tickle b s) as [? ->]; eexists; split; [reflexivity|];
  split; [apply exclusive_tickles|apply length_insert] end.

Lemma Run_pick_safe self w s : exclusive s → workers s !! self = Some w → ph w = PPick →
  safe_step (Run_pick self) s.
Proof.
  intros Hex Hw Hph. pose proof (ex_workers _ Hex _ _ Hw) as Hok.
  assert (Forall (λ ft, is_task ft = true) (fibers_ s)) as Hq by (apply Forall_forall, (ex_tasks _ Hex)).
  unfold safe_step, Run_pick. run. unfold worker_ok in Hok. rewrite Hph in Hok.
  assert (w_fibers w = opt_list (cb_fiber w)) as Hwf by (unfold w_fibers; by rewrite Hph).
  destruct (pick_spec (mem s) self (fibers_ s) Hq) as [(a & ft & b & Hab & _ & Hel & ->)|[_ ->]]; run; rewrite Hw; run;
    tickle.
  - eapply (exclusive_step self w _ [] s); cbn; try done.
    + rewrite Nat.sub_diag, Hab, Hwf, !app_nil_r, !q_fibers_app, q_fibers_cons. cbn. unfold w_fibers. cbn.
      solve_Permutation.
    + intros y Hy. apply (ex_tasks _ Hex). rewrite Hab. set_solver.
    + intros f [Hf|Hf] Hnf; [|lia]. exfalso. apply Hnf. rewrite Hwf in Hf. unfold w_fibers. cbn. set_solver.
    + split; [|done]. intros f Hf. apply parked_queue; [done|]. rewrite Hab, q_fibers_app, q_fibers_cons, Hf.
      set_solver.
  - eapply (exclusive_step self w _ [] s); cbn; try done.
    + rewrite Nat.sub_diag, Hwf, !app_nil_r. done.
    + intros y Hy. by apply (ex_tasks _ Hex).
    + intros f [Hf|Hf] Hnf; [|lia]. exfalso. apply Hnf. rewrite Hwf in Hf. unfold w_fibers. cbn. set_solver.
Qed.

Lemma SwapIn_ok f s : parked (mem s) f → ∃ cb,
  SwapIn f s = Ret tt (set_mem (<[f := mkFiber kExec false cb]> (mem s)) s).
Proof.
  intros (x & Hx & Hs & Hst). exists (cb_ x). run. rewrite Hx. run.
  by rewrite Hs, bool_decide_eq_false_2 by done.
Qed.

Lemma Fiber_Reset_ok f cb s : reusable (mem s) f →
  Reset f cb s = Ret tt (set_mem (<[f := mkFiber kInit true cb]> (mem s)) s).
Proof. intros (x & Hx & _ & Hst). run. rewrite Hx. run. by rewrite Hst. Qed.

Lemma goto_ok self w p s : workers s !! self = Some w →
  goto self p s = Ret tt (set_workers (<[self := mkWorker p (cb_fiber w) (idle_term w) (is_root w)]> (workers s)) s).
Proof. intros Hw. run. by rewrite Hw. Qed.

(** The state of [s] with its memory and its worker [self] replaced. *)
Lemma safe_step_intro self w w' m' s s' : exclusive s → workers s !! self = Some w →
  fibers_ s' = fibers_ s → mem s' = m' → workers s' = <[self:=w']> (workers s) →
  length m' = length (mem s) →
  (∀ f, f < length (mem s) → f ∉ w_fibers w → m' !! f = mem s !! f) →
  (∃ l, w_fibers w' ++ l ≡ₚ w_fibers w ∧ ∀ f, f ∈ l → parked m' f) →
  worker_ok m' w' → exclusive s' ∧ length (workers s') = length (workers s).
Proof.
  intros Hex Hw Hf Hm Hw' Hlen Hsame (l & Hl & Hrel) Hok.
  split; [|by rewrite Hw', length_insert]. subst m'.
  apply (exclusive_step self w w' l s); try done.
  - by rewrite Hlen.
  - by rewrite Hlen, Nat.sub_diag, Hf, Hl, app_nil_r.
  - rewrite Hf. apply (ex_tasks _ Hex).
  - intros f [Hfw|Hfw] Hn; [|lia]. apply Hrel. rewrite <- Hl in Hfw. set_solver.
Qed.

Lemma worker_nodup self w s : exclusive s → workers s !! self = Some w → NoDup (w_fibers w).
Proof.
  intros Hex Hw. pose proof (ex_once _ Hex) as Hnd. unfold held in Hnd.
  apply NoDup_app in Hnd as (_ & _ & Hnd). rewrite (held_split self w) in Hnd by done.
  by apply NoDup_app in Hnd as [? _].
Qed.

Lemma parked_insert_ne m f g x : f ≠ g → parked m f → parked (<[g:=x]> m) f.
Proof. intros Hne (y & Hy & ?). exists y. by rewrite list_lookup_insert_ne. Qed.

Lemma reusable_insert_ne m f g x : f ≠ g → reusable m f → reusable (<[g:=x]> m) f.
Proof. intros Hne (y & Hy & ?). exists y. by rewrite list_lookup_insert_ne. Qed.

Lemma parked_lt m f : parked m f → f < length m.
Proof. intros (x & Hx & _). by eapply lookup_lt_Some. Qed.

Lemma w_fibers_goto w p : w_fibers (mkWorker p (cb_fiber w) (idle_term w) (is_root w)) =
  ph_fibers p ++ opt_list (cb_fiber w).
Proof. done. Qed.

(** The callback of an entry: the fiber [g] is the worker's own or a new one, at
    the end of the memory [m']. *)
Lemma callback_safe self w ft g m' s s' : exclusive s → workers s !! self = Some w → ph w = PGot ft →
  fibers_ s' = fibers_ s →
  workers s' = <[self := mkWorker (PRun g true) (Some g) (idle_term w) (is_root w)]> (workers s) →
  (cb_fiber w = Some g ∧ length m' = length (mem s) ∨
   cb_fiber w = None ∧ g = length (mem s) ∧ length m' = S (length (mem s))) →
  (∀ f, f < length (mem s) → f ≠ g → m' !! f = mem s !! f) →
  mem s' = m' → (∃ x, m' !! g = Some x ∧ state_ x = kExec) →
  exclusive s' ∧ length (workers s') = length (workers s).
Proof.
  intros Hex Hw Hph Hf Hw' Hg Hsame Hm Hx. split; [|by rewrite Hw', length_insert].
  pose proof (ex_workers _ Hex _ _ Hw) as Hok. unfold worker_ok in Hok. rewrite Hph in Hok. destruct Hok as [Hft Hre].
  pose proof (worker_nodup _ _ _ Hex Hw) as Hnd.
  assert (w_fibers w = opt_list (ft_fiber ft) ++ opt_list (cb_fiber w)) as Hwf.
  { unfold w_fibers. by rewrite Hph. }
  subst m'. eapply (exclusive_step self w _ (opt_list (ft_fiber ft)) s); try done.
  - destruct Hg as [[_ ->]|(_ & _ & ->)]; lia.
  - intros f Hlt Hnf. apply Hsame; [done|]. intros ->. destruct Hg as [[Hc _]|(_ & -> & _)]; [|lia].
    apply Hnf. rewrite Hwf, Hc. set_solver.
  - rewrite Hf, Hwf. unfold w_fibers. cbn. destruct Hg as [[-> ->]|(-> & -> & ->)].
    + rewrite Nat.sub_diag. cbn. solve_Permutation.
    + replace (S (length (mem s)) - length (mem s))%nat with 1%nat by lia. cbn. solve_Permutation.
  - rewrite Hf. apply (ex_tasks _ Hex).
  - intros f Hcase Hnf. assert (f ≠ g) as Hne by (intros ->; apply Hnf; by left).
    destruct Hcase as [Hfw|Hlt].
    + rewrite Hwf in Hfw, Hnd. assert (f ∈ opt_list (ft_fiber ft)) as Hin.
      { apply elem_of_app in Hfw as [?|Hfw]; [done|]. exfalso. destruct Hg as [[Hc _]|(Hc & _ & _)].
        - rewrite Hc in Hfw. set_solver.
        - rewrite Hc in Hfw. set_solver. }
      destruct (ft_fiber ft) as [f'|]; [|set_solver]. assert (f = f') as -> by set_solver.
      destruct (Hft f' eq_refl) as (y & Hy & Hp). exists y. split; [|done].
      rewrite Hsame; [done| |done]. by eapply lookup_lt_Some.
    + destruct Hg as [[_ Hl]|(_ & -> & Hl)]; rewrite Hl in Hlt; lia.
Qed.

Lemma Run_callback_safe self w ft s : exclusive s → workers s !! self = Some w → ph w = PGot ft →
  safe_step (Run_callback self ft) s.
Proof.
  intros Hex Hw Hph. pose proof (ex_workers _ Hex _ _ Hw) as Hok. unfold worker_ok in Hok. rewrite Hph in Hok.
  destruct Hok as [Hft Hre]. unfold safe_step, Run_callback.
  destruct (ft_cb ft) as [cb|] eqn:Hcb; [rewrite get_worker_bind, Hw; destruct (cb_fiber w) as [g|] eqn:Hc|].
  - pose proof (Hre g eq_refl) as Hg. rewrite (bind_Ret _ _ _ g _ (bind_Ret _ _ _ _ _ (Fiber_Reset_ok g _ s Hg))).
    pose proof (parked_lt _ _ (reusable_parked _ _ Hg)) as Hlt.
    rewrite (bind_Ret _ _ _ tt (set_mem (<[g:=mkFiber kExec false (Some cb)]> (mem s)) s)).
    2:{ run. rewrite list_lookup_insert_eq by done. run. rewrite bool_decide_eq_false_2 by done. cbn.
        by rewrite list_insert_insert_eq. }
    eexists. split; [done|]. eapply (callback_safe self w ft g (<[g:=mkFiber kExec false (Some cb)]> (mem s))); try done.
    + left. by rewrite length_insert.
    + intros f Hf Hne. by rewrite list_lookup_insert_ne.
    + eexists. split; [by apply list_lookup_insert_eq|done].
  - rewrite (bind_Ret _ _ _ (length (mem s)) (set_mem (mem s ++ [mkFiber kInit true (Some cb)]) s)) by done.
    rewrite (bind_Ret _ _ _ tt (set_mem (mem s ++ [mkFiber kExec false (Some cb)]) s)).
    2:{ run. rewrite lookup_app_r, Nat.sub_diag by done. cbn. rewrite bool_decide_eq_false_2 by done. cbn.
        by rewrite insert_app_r_alt, Nat.sub_diag by done. }
    eexists. split; [done|]. eapply (callback_safe self w ft (length (mem s)) (mem s ++ [mkFiber kExec false (Some cb)])); try done.
    + right. rewrite length_app. cbn. split_and!; [done|done|lia].
    + intros f Hf Hne. by apply lookup_app_l.
    + eexists. split; [by apply list_lookup_middle|done].
  - rewrite (bind_Ret _ _ _ tt (set_active (active_thread_count_ s + -1) s)) by done.
    rewrite (goto_ok _ w) by done. eexists. split; [done|].
    eapply (safe_step_intro self w _ (mem s)); try done.
    exists (opt_list (ft_fiber ft)). split.
    + unfold w_fibers. rewrite Hph. cbn. solve_Permutation.
    + intros f Hf. destruct (ft_fiber ft); [|set_solver]. apply Hft. set_solver.
Qed.

Lemma Run_task_safe self w ft s : exclusive s → workers s !! self = Some w → ph w = PGot ft →
  safe_step (Run_task self ft) s.
Proof.
  intros Hex Hw Hph. unfold safe_step, Run_task. rewrite (bind_Ret _ _ s s s) by done.
  destruct (ft_fiber ft) as [f|] eqn:Hf; [|by eapply Run_callback_safe].
  destruct (live_fiber (mem s) f); [|by eapply Run_callback_safe].
  pose proof (ex_workers _ Hex _ _ Hw) as Hok. unfold worker_ok in Hok. rewrite Hph in Hok.
  destruct Hok as [Hft Hre]. pose proof (worker_nodup _ _ _ Hex Hw) as Hnd.
  assert (w_fibers w = f :: opt_list (cb_fiber w)) as Hwf.
  { unfold w_fibers. rewrite Hph. cbn. by rewrite Hf. }
  destruct (SwapIn_ok f s (Hft f Hf)) as [cb Hsw]. rewrite (bind_Ret _ _ _ _ _ Hsw).
  rewrite (goto_ok _ w) by done. eexists. split; [done|].
  pose proof (parked_lt _ _ (Hft f Hf)) as Hlt.
  eapply (safe_step_intro self w _ (<[f:=mkFiber kExec false cb]> (mem s))); try done.
  - by rewrite length_insert.
  - intros g Hg Hn. rewrite list_lookup_insert_ne; [done|]. intros ->. apply Hn. rewrite Hwf. set_solver.
  - exists []. split; [|set_solver]. rewrite Hwf. by rewrite app_nil_r.
  - split; [eexists; split; [by apply list_lookup_insert_eq|done]|]. intros g Hg. cbn in Hg. apply reusable_insert_ne.
    + intros ->. rewrite Hwf, Hg in Hnd. apply NoDup_cons in Hnd as [Hnd _]. set_solver.
    + by apply Hre.
Qed.

(** A worker that moves on without touching a fiber. *)
Lemma goto_safe self w w' s s' : exclusive s → workers s !! self = Some w →
  fibers_ s' = fibers_ s → mem s' = mem s → workers s' = <[self:=w']> (workers s) →
  w_fibers w' = w_fibers w → worker_ok (mem s) w' →
  exclusive s' ∧ length (workers s') = length (workers s).
Proof.
  intros Hex Hw ? ? ? Hwf ?. eapply (safe_step_intro self w w' (mem s)); try done.
  exists []. split; [by rewrite Hwf, app_nil_r|set_solver].
Qed.

(** The parts of the invariant that a worker's own flags do not touch. *)
Lemma Run_idle_safe self w s : exclusive s → workers s !! self = Some w → ph w = PNone →
  safe_step (Run_idle self) s.
Proof.
  intros Hex Hw Hph. pose proof (ex_workers _ Hex _ _ Hw) as Hok. unfold worker_ok in Hok. rewrite Hph in Hok.
  assert (w_fibers w = opt_list (cb_fiber w)) as Hwf by (unfold w_fibers; by rewrite Hph).
  unfold safe_step, Run_idle. rewrite get_worker_bind, Hw. unfold when.
  destruct (idle_term w); [destruct (is_root w)|]; run; rewrite ?Hw; run;
    (eexists; split; [reflexivity|]; eapply (goto_safe self w); done).
Qed.

Lemma Idle_step_safe self w s : exclusive s → workers s !! self = Some w → ph w = PIdle →
  safe_step (Idle_step self) s.
Proof.
  intros Hex Hw Hph. pose proof (ex_workers _ Hex _ _ Hw) as Hok. unfold worker_ok in Hok. rewrite Hph in Hok.
  assert (w_fibers w = opt_list (cb_fiber w)) as Hwf by (unfold w_fibers; by rewrite Hph).
  unfold safe_step, Idle_step. run. rewrite Hw. run.
  eexists. split; [reflexivity|]. eapply (goto_safe self w); done.
Qed.

Lemma Run_back_safe self w f c s : exclusive s → workers s !! self = Some w → ph w = PBack f c →
  safe_step (Run_back self f c) s.
Proof.
  intros Hex Hw Hph. pose proof (ex_workers _ Hex _ _ Hw) as Hok. unfold worker_ok in Hok. rewrite Hph in Hok.
  unfold safe_step, Run_back. run. rewrite Hw. run. eexists. split; [reflexivity|].
  eapply (goto_safe self w); try done. unfold w_fibers. by rewrite Hph.
Qed.

(** What a worker does to the fiber [f] it has, and to no other. *)
Lemma touch_safe self w w' f x s s' : exclusive s → workers s !! self = Some w →
  f ∈ w_fibers w → fibers_ s' = fibers_ s → mem s' = <[f:=x]> (mem s) →
  workers s' = <[self:=w']> (workers s) → w_fibers w' = w_fibers w →
  worker_ok (<[f:=x]> (mem s)) w' → exclusive s' ∧ length (workers s') = length (workers s).
Proof.
  intros Hex Hw Hf ? ? ? Hwf ?. eapply (safe_step_intro self w w' (<[f:=x]> (mem s))); try done.
  - by rewrite length_insert.
  - intros g _ Hg. rewrite list_lookup_insert_ne; [done|]. by intros <-.
  - exists []. split; [by rewrite Hwf, app_nil_r|set_solver].
Qed.

Lemma SwapOut_safe self w f c s : exclusive s → workers s !! self = Some w → ph w = PLeave f c →
  safe_step (SwapOut f ;; goto self (PBack f c)) s.
Proof.
  intros Hex Hw Hph. pose proof (ex_workers _ Hex _ _ Hw) as Hok. unfold worker_ok in Hok. rewrite Hph in Hok.
  pose proof (worker_nodup _ _ _ Hex Hw) as Hnd. destruct Hok as [(x & Hx & Hst) Hc].
  pose proof (lookup_lt_Some _ _ _ Hx) as Hlt.
  unfold safe_step. run. rewrite Hx. run. rewrite Hw. run. eexists. split; [reflexivity|].
  unfold w_fibers in Hnd. rewrite Hph in Hnd. 
  eapply (touch_safe self w _ f (mkFiber (state_ x) true (cb_ x))); try done.
  - unfold w_fibers. rewrite Hph. destruct c; cbn; [rewrite Hc|]; set_solver.
  - unfold w_fibers. by rewrite Hph.
  - split; [eexists; split; [by apply list_lookup_insert_eq|done]|]. destruct c; [done|]. intros g Hg.
    cbn in Hg. apply reusable_insert_ne; [|by apply Hc].
    intros ->. rewrite Hg in Hnd. cbn in Hnd. apply NoDup_cons in Hnd as [Hnd _]. set_solver.
Qed.

Lemma Schedule_ok ft s : ∃ t,
  Schedule ft s = Ret tt (set_tickles t (set_fibers_ (if is_task ft then fibers_ s ++ [ft] else fibers_ s) s)).
Proof.
  unfold Schedule, ScheduleNoLock.
  set (s1 := set_fibers_ (if is_task ft then fibers_ s ++ [ft] else fibers_ s) s).
  destruct (when_Tickle (bool_decide (fibers_ s = [])) s1) as [t Ht]. exists t. rewrite <- Ht.
  subst s1. run. unfold when at 2. destruct (is_task ft); [done|]. by destruct s.
Qed.

(** A fiber that is ready goes from its worker back to the queue. *)
Lemma requeue_safe self w w' f s s' : exclusive s → workers s !! self = Some w → parked (mem s) f →
  fibers_ s' = fibers_ s ++ [mkFT (Some f) None None] → mem s' = mem s →
  workers s' = <[self:=w']> (workers s) → w_fibers w = f :: w_fibers w' →
  worker_ok (mem s) w' → exclusive s' ∧ length (workers s') = length (workers s).
Proof.
  intros Hex Hw Hp Hf Hm Hw' Hwf Hok. split; [|by rewrite Hw', length_insert].
  eapply (exclusive_step self w w' [] s); rewrite ?Hm; try done.
  - rewrite Nat.sub_diag, Hf, q_fibers_app, Hwf. cbn. solve_Permutation.
  - intros ft Hft. rewrite Hf in Hft. apply elem_of_app in Hft as [Hft|Hft]; [by apply (ex_tasks _ Hex)|].
    apply list_elem_of_singleton in Hft. by subst.
  - intros g [Hg|Hg] Hn; [|lia]. rewrite Hwf in Hg. by apply elem_of_cons in Hg as [->|].
Qed.

(** A worker lets its fiber go, in the state [x]. *)
Lemma release_safe self w w' f x s s' : exclusive s → workers s !! self = Some w → parked (mem s) f →
  fibers_ s' = fibers_ s → mem s' = <[f:=x]> (mem s) → saved_ x = true → state_ x ≠ kExec →
  workers s' = <[self:=w']> (workers s) → w_fibers w = f :: w_fibers w' →
  worker_ok (mem s) w' → exclusive s' ∧ length (workers s') = length (workers s).
Proof.
  intros Hex Hw Hp Hf Hm Hs Hst Hw' Hwf Hok. pose proof (parked_lt _ _ Hp) as Hlt.
  pose proof (worker_nodup _ _ _ Hex Hw) as Hnd. rewrite Hwf in Hnd. apply NoDup_cons in Hnd as [Hnf _].
  eapply (safe_step_intro self w w' (<[f:=x]> (mem s))); try done.
  - by rewrite length_insert.
  - intros g _ Hg. rewrite list_lookup_insert_ne; [done|]. intros <-. apply Hg. rewrite Hwf. by left.
  - exists [f]. split; [rewrite Hwf; solve_Permutation|]. intros g ->%list_elem_of_singleton.
    exists x. by rewrite list_lookup_insert_eq.
  - eapply worker_ok_frame; [exact Hok|]. intros g Hg. rewrite list_lookup_insert_ne; [done|]. by intros <-.
Qed.

Lemma leave_fiber_ok f l s x : mem s !! f = Some x → state_ x = kExec → ∃ x', state_ x' ≠ kExec ∧
  leave_fiber f l s = Ret tt (set_mem (<[f:=x']> (mem s)) s).
Proof.
  intros Hx Hst. destruct l; cbn [leave_fiber]; run; rewrite Hx; run; rewrite ?Hst, ?bool_decide_eq_true_2 by done; cbn;
    rewrite ?Hx; cbn; (eexists; split; cycle 1; [reflexivity|done]).
Qed.

Lemma leave_step_safe self l s : exclusive s → self < length (workers s) → safe_step (leave_step self l) s.
Proof.
  intros Hex [w Hw]%lookup_lt_is_Some. unfold safe_step, leave_step. rewrite get_worker_bind, Hw.
  destruct (ph w) as [| | |f c| | | | |] eqn:Hph; try (by eexists; split; [reflexivity|]).
  pose proof (ex_workers _ Hex _ _ Hw) as Hok. unfold worker_ok in Hok. rewrite Hph in Hok.
  pose proof (worker_nodup _ _ _ Hex Hw) as Hnd. destruct Hok as [(x & Hx & Hst) Hc].
  pose proof (lookup_lt_Some _ _ _ Hx) as Hlt.
  destruct (leave_fiber_ok f l s x Hx Hst) as (x' & Hst' & Hl). rewrite (bind_Ret _ _ _ _ _ Hl), (goto_ok _ w) by done.
  eexists. split; [reflexivity|]. unfold w_fibers in Hnd. rewrite Hph in Hnd.
  eapply (touch_safe self w _ f x'); try done.
  - unfold w_fibers. rewrite Hph. destruct c; cbn; [rewrite Hc|]; set_solver.
  - unfold w_fibers. by rewrite Hph.
  - split; [eexists; split; [by apply list_lookup_insert_eq|done]|]. destruct c; [done|]. intros g Hg.
    cbn in Hg. apply reusable_insert_ne; [|by apply Hc].
    intros ->. rewrite Hg in Hnd. cbn in Hnd. apply NoDup_cons in Hnd as [Hnd _]. set_solver.
Qed.

Lemma after_fiber_safe self w f s : exclusive s → workers s !! self = Some w → ph w = PAfter f false →
  safe_step (Run_after self f false) s.
Proof.
  intros Hex Hw Hph. pose proof (ex_workers _ Hex _ _ Hw) as Hok. unfold worker_ok in Hok. rewrite Hph in Hok.
  destruct Hok as [Hp Hc]. pose proof Hp as (x & Hx & Hs & Hst).
  assert (w_fibers w = f :: opt_list (cb_fiber w)) as Hwf by (unfold w_fibers; by rewrite Hph).
  unfold safe_step, Run_after. rewrite (bind_Ret _ _ s x s) by (run; by rewrite Hx).
  rewrite get_worker_bind, Hw. case_bool_decide; [|destruct (live (state_ x)) eqn:Hl].
  - destruct (Schedule_ok (mkFT (Some f) None None) s) as [t Hsch].
    rewrite (bind_Ret _ _ _ _ _ Hsch), (goto_ok _ w) by done.
    eexists. split; [reflexivity|]. by eapply (requeue_safe self w _ f).
  - rewrite (bind_Ret _ _ s tt (set_mem (<[f:=mkFiber kHold (saved_ x) (cb_ x)]> (mem s)) s)).
    2:{ run. by rewrite Hx. }
    rewrite (goto_ok _ w) by done. eexists. split; [reflexivity|].
    by eapply (release_safe self w _ f (mkFiber kHold (saved_ x) (cb_ x))).
  - rewrite (bind_Ret _ _ s tt s) by done. rewrite (goto_ok _ w) by done. eexists. split; [reflexivity|].
    eapply (release_safe self w _ f x); try done. cbn. by rewrite list_insert_id.
Qed.

Lemma after_cb_safe self w f s : exclusive s → workers s !! self = Some w → ph w = PAfter f true →
  safe_step (Run_after self f true) s.
Proof.
  intros Hex Hw Hph. pose proof (ex_workers _ Hex _ _ Hw) as Hok. unfold worker_ok in Hok. rewrite Hph in Hok.
  destruct Hok as [Hp Hc]. pose proof Hp as (x & Hx & Hs & Hst).
  assert (w_fibers w = [f]) as Hwf by (unfold w_fibers; rewrite Hph; cbn; by rewrite Hc).
  unfold safe_step, Run_after. rewrite (bind_Ret _ _ s x s) by (run; by rewrite Hx).
  rewrite get_worker_bind, Hw. case_bool_decide; [|case_match eqn:Hd].
  - destruct (Schedule_ok (mkFT (Some f) None None) s) as [t Hsch]. rewrite (bind_Ret _ _ _ _ _ Hsch).
    eexists. split; [reflexivity|]. by eapply (requeue_safe self w _ f).
  - assert (reusable (mem s) f) as Hr.
    { exists x. split_and!; [done..|]. unfold resettable. destruct (state_ x); try done. }
    rewrite (bind_Ret _ _ _ _ _ (Fiber_Reset_ok f None s Hr)), (goto_ok _ w) by done.
    eexists. split; [reflexivity|]. eapply (touch_safe self w _ f (mkFiber kInit true None)); try done.
    + rewrite Hwf. by left.
    + rewrite Hwf. unfold w_fibers. cbn. by rewrite Hc.
    + intros g Hg. cbn in Hg. rewrite Hc in Hg. injection Hg as <-. exists (mkFiber kInit true None).
      rewrite list_lookup_insert_eq by by eapply lookup_lt_Some. done.
  - rewrite (bind_Ret _ _ s tt (set_mem (<[f:=mkFiber kHold (saved_ x) (cb_ x)]> (mem s)) s)).
    2:{ run. by rewrite Hx. }
    eexists. split; [reflexivity|]. by eapply (release_safe self w _ f (mkFiber kHold (saved_ x) (cb_ x))).
Qed.

Lemma worker_step_safe self s : exclusive s → self < length (workers s) → safe_step (worker_step self) s.
Proof.
  intros Hex [w Hw]%lookup_lt_is_Some. unfold safe_step, worker_step. rewrite get_worker_bind, Hw.
  destruct (ph w) as [|ft| |f c|f c|f c|f c| |] eqn:Hph; try (by eexists; split; [reflexivity|]).
  - by eapply Run_pick_safe.
  - by eapply Run_task_safe.
  - by eapply Run_idle_safe.
  - by eapply SwapOut_safe.
  - by eapply Run_back_safe.
  - destruct c; [by eapply after_cb_safe|by eapply after_fiber_safe].
  - by eapply Idle_step_safe.
Qed.

(** ** Starting, stopping and scheduling *)

Definition fresh_worker (w : Worker) : Prop := ph w = PPick ∧ cb_fiber w = None.

(** Code that touches neither the queue nor the fibers, and at most adds workers
    at the top of their loop. *)
Definition grows {A} (m : M Scheduler A) : Prop := ∀ s a s', m s = Ret a s' →
  fibers_ s' = fibers_ s ∧ mem s' = mem s ∧ ∃ ws, workers s' = workers s ++ ws ∧ Forall fresh_worker ws.

Lemma grows_modify f : (∀ s, fibers_ (f s) = fibers_ s) → (∀ s, mem (f s) = mem s) →
  (∀ s, ∃ ws, workers (f s) = workers s ++ ws ∧ Forall fresh_worker ws) → grows (modify f).
Proof. intros H1 H2 H3 s a s' [= _ <-]. by rewrite H1, H2. Qed.

Lemma grows_flag f : (∀ s, fibers_ (f s) = fibers_ s) → (∀ s, mem (f s) = mem s) →
  (∀ s, workers (f s) = workers s) → grows (modify f).
Proof. intros. apply grows_modify; [done..|]. intros s. exists []. by rewrite app_nil_r. Qed.

Lemma grows_pure {A} (m : M Scheduler A) : (∀ s a s', m s = Ret a s' → s' = s) → grows m.
Proof. intros Hm s a s' ->%Hm. split_and!; [done..|]. exists []. by rewrite app_nil_r. Qed.

Lemma grows_bind {A B} (m : M Scheduler A) (k : A → M Scheduler B) :
  grows m → (∀ a, grows (k a)) → grows (m ≫= k).
Proof.
  intros Hm Hk s b s'. unfold mbind, M_bind. destruct (m s) eqn:E; try done. intros Hr.
  destruct (Hm _ _ _ E) as (? & ? & ws1 & Hw1 & ?), (Hk _ _ _ _ Hr) as (? & ? & ws2 & Hw2 & ?).
  split_and!; [congruence..|]. exists (ws1 ++ ws2). rewrite Hw2, Hw1, app_assoc. split; [done|].
  by apply Forall_app.
Qed.

Ltac grow := repeat match goal with
  | |- grows (_ ≫= _) => apply grows_bind; [|intros ?]
  | |- grows (modify _) => apply grows_flag; reflexivity
  | |- grows (if _ then _ else _) => case_match
  | |- grows (when _ _) => unfold when
  | |- grows Tickle => unfold Tickle
  | |- grows (massert _) => unfold massert
  | |- grows _ => apply grows_pure; intros ?s0 ?a0 ?s1 [=]; congruence
  end.

Lemma grows_Start : grows Start.
Proof.
  unfold Start. grow. apply grows_modify; [done..|]. intros s'. eexists. split; [reflexivity|].
  by apply Forall_replicate.
Qed.

Lemma grows_Tickle_n n : grows (Tickle_n n).
Proof. induction n as [|n IH]; cbn [Tickle_n]; grow; done. Qed.

Lemma grows_Call : grows Call.
Proof.
  unfold Call. grow. destruct (root_fiber_ a) as [[]|]; grow.
  apply grows_modify; [done..|]. intros s'. eexists. split; [reflexivity|]. by repeat constructor.
Qed.

Lemma grows_Stop : grows Stop.
Proof. unfold Stop. grow; first [apply grows_Tickle_n|apply grows_Call|idtac]. Qed.

Lemma fresh_fibers ws : Forall fresh_worker ws → concat (w_fibers <$> ws) = [].
Proof.
  induction 1 as [|w ws [Hp Hc] _ IH]; [done|]. rewrite fmap_cons. cbn. rewrite IH.
  unfold w_fibers. by rewrite Hp, Hc.
Qed.

Lemma exclusive_grows {A} (m : M Scheduler A) s a s' : grows m → m s = Ret a s' → exclusive s → exclusive s'.
Proof.
  intros Hm Hr Hex. destruct (Hm _ _ _ Hr) as (Hf & Hmem & ws & Hws & Hfr).
  assert (concat (w_fibers <$> workers s') = concat (w_fibers <$> workers s)) as Hc.
  { by rewrite Hws, fmap_app, concat_app, (fresh_fibers ws), app_nil_r. }
  destruct Hex as [H1 H2 H3 H4 H5]. split; unfold held; rewrite ?Hf, ?Hc, ?Hmem; try done.
  intros i w. rewrite Hws. intros [Hi|[_ Hi]]%lookup_app_Some; [by eapply H5|].
  apply list_elem_of_lookup_2 in Hi. rewrite Forall_forall in Hfr. destruct (Hfr _ Hi) as [Hp Hcb].
  unfold worker_ok. rewrite Hp. cbn. by rewrite Hcb.
Qed.

Lemma exclusive_Schedule ft s s' : exclusive s → disciplined s (ESchedule ft) →
  Schedule ft s = Ret tt s' → exclusive s'.
Proof.
  intros Hex Hd Hr. destruct (Schedule_ok ft s) as [t Ht]. rewrite Ht in Hr. injection Hr as <-.
  apply exclusive_tickles. destruct (is_task ft) eqn:Hit; [|by destruct s].
  destruct Hex as [H1 H2 H3 H4 H5].
  assert (held (set_fibers_ (fibers_ s ++ [ft]) s) ≡ₚ opt_list (ft_fiber ft) ++ held s) as Hh.
  { unfold held. cbn. rewrite q_fibers_app, q_fibers_cons. cbn. solve_Permutation. }
  assert (∀ f, ft_fiber ft = Some f → f < length (mem s) ∧ f ∉ held s) as Hd'.
  { intros f Hf. cbn in Hd. by rewrite Hf in Hd. }
  split; cbn [mem workers fibers_ set_fibers_]; try done.
  - rewrite Hh. destruct (ft_fiber ft) as [f|]; [|done]. cbn. apply NoDup_cons. split; [|done].
    by apply (Hd' f).
  - intros f. rewrite Hh. destruct (ft_fiber ft) as [g|]; [|by apply H2]. cbn. intros [->|Hf]%elem_of_cons.
    + by apply (Hd' g).
    + by apply H2.
  - intros x [Hx| ->%list_elem_of_singleton]%elem_of_app; [by apply H3|done].
Qed.

Lemma exclusive_new cb s : exclusive s → exclusive (set_mem (mem s ++ [mkFiber kInit true cb]) s).
Proof.
  intros [H1 H2 H3 H4 H5]. split; cbn [mem workers fibers_ set_mem]; try done.
  - intros f Hf. specialize (H2 f Hf). rewrite length_app. cbn. lia.
  - intros f Hf Hn. rewrite length_app in Hf. cbn in Hf. destruct (decide (f = length (mem s))) as [->|].
    + eexists. split; [by apply list_lookup_middle|done].
    + destruct (H4 f) as (x & Hx & ?); [lia|done|]. exists x. by rewrite lookup_app_l by lia.
  - intros i w Hw. apply (worker_ok_frame (mem s)); [by eapply H5|]. intros f Hf.
    apply lookup_app_l, H2. unfold held. apply elem_of_app. right. rewrite (held_split i w) by done.
    set_solver.
Qed.

(** The states reached by disciplined events. *)
Inductive reachable_disciplined : Scheduler → Prop :=
  | disc_new n b s : new_Scheduler n b = Some s → reachable_disciplined s
  | disc_step s e s' : reachable_disciplined s → disciplined s e → run_event e s = Ret tt s' →
      reachable_disciplined s'.

Lemma disciplined_exclusive s : reachable_disciplined s → exclusive s.
Proof.
  induction 1 as [n b s Hs|s e s' _ IH Hd Hr].
  - unfold new_Scheduler in Hs. case_bool_decide; [|done]. injection Hs as <-.
    split; cbn; try done; [apply NoDup_nil_2|set_solver|set_solver|lia].
  - destruct e as [ft|cb| | |self|self l]; cbn in Hr.
    + by eapply exclusive_Schedule.
    + injection Hr as <-. by apply exclusive_new.
    + by eapply exclusive_grows; [apply grows_Start|..].
    + by eapply exclusive_grows; [apply grows_Stop|..].
    + unfold worker_step in Hr. rewrite get_worker_bind in Hr. destruct (workers s !! self) as [w|] eqn:Hw; [|done].
      destruct (worker_step_safe self s IH) as (s2 & Hr2 & Hex & _); [by eapply lookup_lt_Some|].
      unfold worker_step in Hr2. rewrite get_worker_bind, Hw in Hr2. congruence.
    + unfold leave_step in Hr. rewrite get_worker_bind in Hr. destruct (workers s !! self) as [w|] eqn:Hw; [|done].
      destruct (leave_step_safe self l s IH) as (s2 & Hr2 & Hex & _); [by eapply lookup_lt_Some|].
      unfold leave_step in Hr2. rewrite get_worker_bind, Hw in Hr2. congruence.
Qed.

(** ** Properties *)

(** The queue's entry taken is the first that is neither meant for another
    thread nor a fiber that runs now; the others stay in order, and the other
    threads are woken when something they could take is left. *)
Theorem pick_first_eligible (m : list Fiber) (self : nat) (q : list FiberAndThread) :
  Forall (λ ft, is_task ft = true) q →
  (∃ a ft b, q = a ++ ft :: b ∧ Forall (λ x, eligible m self x = false) a ∧ eligible m self ft = true ∧
     pick m self q = Some (Some ft, a ++ b, existsb (elsewhere self) a || bool_decide (b ≠ []))) ∨
  Forall (λ x, eligible m self x = false) q ∧
  pick m self q = Some (None, q, existsb (elsewhere self) q).
Proof. apply pick_spec. Qed.

(** C7: if fibers are scheduled only while neither the queue nor a worker holds
    them, then in every reachable state no fiber is held twice, and every step of
    every worker returns: no assertion of [Run], [SwapIn] or [Reset] fails and no
    fiber is entered whose registers are not saved. *)
Theorem disciplined_fibers_run_once (s : Scheduler) (self : nat) (l : leave) :
  reachable_disciplined s → self < length (workers s) →
  NoDup (held s) ∧ (∃ s', worker_step self s = Ret tt s') ∧ (∃ s', leave_step self l s = Ret tt s').
Proof.
  intros Hs%disciplined_exclusive Hl. split; [apply (ex_once _ Hs)|].
  destruct (worker_step_safe self s Hs Hl) as (s1 & ? & _).
  destruct (leave_step_safe self l s Hs Hl) as (s2 & ? & _). split; by eexists.
Qed.

(** [SwitchTo] breaks that rule: a fiber on worker 0 queues itself for worker 1
    and then yields; between the two halves of [YieldToHold] worker 1 enters it,
    although its registers are not saved yet. *)
Theorem SwitchTo_races : ∃ s1 s2 s3 s,
  reachable s1 ∧ SwitchTo 0 0 (Some 1) s1 = Ret true s2 ∧
  leave_step 0 LHold s2 = Ret tt s3 ∧ worker_step 1 s3 = Ret tt s ∧
  worker_step 1 s = Undef out_of_bounds.
Proof.
  destruct (run_events [EStart; ESchedule (mkFT None (Some 7) None); EWorker 0; EWorker 0]
    (mkScheduler [] [] 0 0 true false 2 0 None 0 [])) as [[] s1|?|?|] eqn:E; [|by vm_compute in E..].
  assert (reachable s1) as Hs.
  { eapply reachable_events; [by eapply (reachable_new 2 false)|exact E]. }
  exists s1. vm_compute in E. injection E as <-. do 3 eexists. split; [exact Hs|].
  split_and!; vm_compute; reflexivity.
Qed.

Lemma pick_first_eligible_witness : let q := [mkFT (Some 0) None (Some 1); mkFT None (Some 7) None] in
  (∃ a ft b, q = a ++ ft :: b ∧ Forall (λ x, eligible [] 0 x = false) a ∧ eligible [] 0 ft = true ∧
     pick [] 0 q = Some (Some ft, a ++ b, existsb (elsewhere 0) a || bool_decide (b ≠ []))) ∨
  Forall (λ x, eligible [] 0 x = false) q ∧ pick [] 0 q = Some (None, q, existsb (elsewhere 0) q).
Proof. apply pick_first_eligible. by repeat constructor. Defined.

(** Disciplined events in sequence. *)
Fixpoint all_disciplined (es : list event) (s : Scheduler) : bool :=
  match es with
  | [] => true
  | e :: es => bool_decide (disciplined s e) &&
      match run_event e s with Ret _ s' => all_disciplined es s' | _ => false end
  end.

Lemma reachable_disciplined_events es s s' : reachable_disciplined s → all_disciplined es s = true →
  run_events es s = Ret tt s' → reachable_disciplined s'.
Proof.
  revert s. induction es as [|e es IH]; intros s Hs Hd Hr; [by injection Hr as <-|].
  cbn [run_events all_disciplined] in *. unfold mbind, M_bind in Hr.
  destruct (run_event e s) as [[] s1|?|?|] eqn:E; try done.
  apply andb_true_iff in Hd as [Hd Hes]. apply bool_decide_eq_true in Hd.
  eapply IH; [|exact Hes|exact Hr]. by eapply disc_step.
Qed.

(** Two workers; a fiber is made and queued, the second worker runs it, it yields
    and is queued again. *)
Lemma disciplined_fibers_run_once_witness : ∃ s, reachable_disciplined s ∧ fibers_ s = [mkFT (Some 0) None None] ∧
  NoDup (held s) ∧ (∃ s', worker_step 1 s = Ret tt s') ∧ (∃ s', leave_step 1 LReady s = Ret tt s').
Proof.
  set (es := [EStart; ENew (Some 7); ESchedule (mkFT (Some 0) None None); EWorker 1; EWorker 1;
              ELeave 1 LReady; EWorker 1; EWorker 1; EWorker 1]).
  set (s0 := mkScheduler [] [] 0 0 true false 2 0 None 0 []).
  destruct (run_events es s0) as [[] s|?|?|] eqn:E; [|by vm_compute in E..].
  exists s. assert (reachable_disciplined s) as Hs.
  { apply (reachable_disciplined_events es s0); [by apply (disc_new 2 false)|by vm_compute|done]. }
  split; [exact Hs|]. vm_compute in E. injection E as <-. split; [reflexivity|].
  apply (disciplined_fibers_run_once _ 1 LReady Hs). cbn. lia.
Defined.
