(* ===== verification/IOManager.v ===== *)
(** * The event loop's bookkeeping: [iomanager.{h,cc}]

    For every descriptor an [FdContext] says which events are waited for and what
    to schedule when they happen; [epoll] is told the same.  Every operation finds
    the context under the manager's lock and works on it under the context's own
    lock: these two sections are separate definitions where other threads can come
    in between.  The kernel's [epoll_ctl] is an interface, [Epoll].  The loops of the
    workers around these sections are in [EventLoop.v]. *)
From stdpp Require Import sets gmap.
From S2P Require Import Prelude Scheduler.

Local Open Scope Z_scope.

(** ** The kernel *)

Definition EPOLLIN : Z := 1.
Definition EPOLLOUT : Z := 4.
Definition EPOLLERR : Z := 8.
Definition EPOLLHUP : Z := 16.
Definition EPOLLET : Z := 2 ^ 31.

Inductive EpollCtlOp := EPOLL_CTL_ADD | EPOLL_CTL_MOD | EPOLL_CTL_DEL.

(** The interest list of an [epoll] instance, and [epoll_ctl] on it; [None] is an
    error, which leaves the list as it was. *)
Class Epoll := {
  kernel : Type;
  interest : kernel → gmap Z Z;
  epoll_ctl : EpollCtlOp → Z → Z → kernel → option kernel
}.

(** What its manual says: the entry is added, replaced or removed. *)
Class EpollLaws (E : Epoll) := {
  epoll_add fd ev k k' : epoll_ctl EPOLL_CTL_ADD fd ev k = Some k' →
    interest k' = <[fd := ev]> (interest k);
  epoll_mod fd ev k k' : epoll_ctl EPOLL_CTL_MOD fd ev k = Some k' →
    interest k' = <[fd := ev]> (interest k);
  epoll_del fd ev k k' : epoll_ctl EPOLL_CTL_DEL fd ev k = Some k' →
    interest k' = delete fd (interest k)
}.

(** ** Data *)

(** [IOManager::Event] has the values of the [epoll] flags. *)
Definition kNone : Z := 0.
Definition kRead : Z := 1.
Definition kWrite : Z := 4.

(** [scheduler], [fiber] and [cb] are null when [None]. *)
Record EventContext := mkEventContext {
  scheduler : option nat; fiber : option nat; cb : option nat
}.
Definition no_context : EventContext := mkEventContext None None None.

Record FdContext := mkFdContext {
  read_ : EventContext; write_ : EventContext; fd : Z; events_ : Z
}.
Definition new_FdContext (fd : Z) : FdContext := mkFdContext no_context no_context fd kNone.

(** [fd_contexts_] holds pointers, which are positions in [heap]; [scheduled]
    records the calls of [Schedule] with the scheduler they are made on.  Of the
    pipe that wakes the idle thread only the end it reads, [tickle_fd], matters. *)
Record IOManager `{Epoll} := mkIOManager {
  fd_contexts_ : list nat;
  heap : list FdContext;
  pending_event_count_ : Z;
  kern : kernel;
  scheduled : list (nat * FiberAndThread);
  tickle_fd : Z
}.

Section iomanager.
Context `{E : Epoll}.

Definition set_contexts v h (s : IOManager) := mkIOManager _ v h (pending_event_count_ s) (kern s) (scheduled s) (tickle_fd s).
Definition set_heap h (s : IOManager) := mkIOManager _ (fd_contexts_ s) h (pending_event_count_ s) (kern s) (scheduled s) (tickle_fd s).
Definition set_pending n (s : IOManager) := mkIOManager _ (fd_contexts_ s) (heap s) n (kern s) (scheduled s) (tickle_fd s).
Definition set_kern k (s : IOManager) := mkIOManager _ (fd_contexts_ s) (heap s) (pending_event_count_ s) k (scheduled s) (tickle_fd s).
Definition set_scheduled l (s : IOManager) := mkIOManager _ (fd_contexts_ s) (heap s) (pending_event_count_ s) (kern s) l (tickle_fd s).

Definition get_ctx (p : nat) : M IOManager FdContext := s ← get; deref (heap s !! p).
Definition put_ctx (p : nat) (c : FdContext) : M IOManager unit := modify (λ s, set_heap (<[p := c]> (heap s)) s).
(** [++] and [--] of the atomic counter. *)
Definition count (d : Z) : M IOManager unit := modify (λ s, set_pending (u64 (pending_event_count_ s + d)) s).

(** ** Contexts *)

Definition has (events event : Z) : bool := negb (Z.land events event =? 0).
Definition without (events event : Z) : Z := Z.land events (Z.lnot event).

Inductive side := SRead | SWrite.
Definition sel (d : side) (c : FdContext) : EventContext := match d with SRead => read_ c | SWrite => write_ c end.
Definition upd (d : side) (x : EventContext) (c : FdContext) : FdContext :=
  match d with
  | SRead => mkFdContext x (write_ c) (fd c) (events_ c)
  | SWrite => mkFdContext (read_ c) x (fd c) (events_ c)
  end.
Definition set_events (ev : Z) (c : FdContext) : FdContext := mkFdContext (read_ c) (write_ c) (fd c) ev.

(** Which of the two contexts, and the assertion that there is one. *)
Definition GetContext (event : Z) : M IOManager side :=
  if event =? kRead then mret SRead else if event =? kWrite then mret SWrite else undef assert_failed.

Definition ResetContext : EventContext := no_context.

(** [Schedule] moves the callback or the fiber out of the context. *)
Definition TriggerEvent (p : nat) (event : Z) : M IOManager unit :=
  c ← get_ctx p;
  massert (has (events_ c) event) ;;
  d ← GetContext event;
  let x := sel d c in
  sch ← deref (scheduler x);
  let '(ft, x') := match cb x with
                   | Some f => (mkFT None (Some f) None, mkEventContext None (fiber x) None)
                   | None => (mkFT (fiber x) None None, mkEventContext None None None)
                   end in
  modify (λ s, set_scheduled (scheduled s ++ [(sch, ft)]) s) ;;
  put_ctx p (upd d x' (set_events (without (events_ c) event) c)).

(** ** The vector of contexts *)

(** [resize], then a new context wherever there is none. *)
Definition ContextResize (size : nat) : M IOManager unit :=
  modify (λ s,
    let n := length (fd_contexts_ s) in
    set_contexts (take size (fd_contexts_ s) ++ seq (length (heap s)) (size - n))
                 (heap s ++ map (λ i, new_FdContext (Z.of_nat i)) (seq n (size - n))) s).

(** The constructor: [k] is the new, empty [epoll] instance, [tickle] the pipe. *)
Definition new_IOManager (k : kernel) (tickle : Z) : option IOManager :=
  match epoll_ctl EPOLL_CTL_ADD tickle (Z.lor EPOLLIN EPOLLET) k with
  | Some k => match ContextResize 32 (mkIOManager _ [] [] 0 k [] tickle) with Ret _ s => Some s | _ => None end
  | None => None
  end.

(** [fd_contexts_[fd]] for an [int]. *)
Definition at_fd (fd : Z) : M IOManager nat :=
  s ← get;
  if fd <? 0 then undef out_of_bounds else
  match fd_contexts_ s !! Z.to_nat fd with Some p => mret p | None => undef out_of_bounds end.

Definition in_range (fd : Z) (s : IOManager) : bool := fd <? Z.of_nat (length (fd_contexts_ s)).

(** The start of [AddEvent] under the read lock: [None] when the vector is too
    small, which is then made larger under the write lock. *)
Definition AddEvent_find (fd : Z) : M IOManager (option nat) :=
  s ← get;
  if in_range fd s then p ← at_fd fd; mret (Some p) else mret None.
Definition AddEvent_grow (fd : Z) : M IOManager nat :=
  ContextResize (Z.to_nat (fd * 3 / 2)) ;; at_fd fd.

Definition find_context (fd : Z) : M IOManager nat :=
  p ← AddEvent_find fd;
  match p with Some p => mret p | None => AddEvent_grow fd end.

(** ** The operations, under the context's lock *)

(** [epoll_ctl(epfd_, op, fd, &epevent)], and whether it succeeded. *)
Definition ctl (op : EpollCtlOp) (fd ev : Z) : M IOManager bool :=
  s ← get;
  match epoll_ctl op fd ev (kern s) with
  | Some k => modify (set_kern k) ;; mret true
  | None => mret false
  end.

Definition is_empty_ctx (x : EventContext) : bool :=
  bool_decide (scheduler x = None) && bool_decide (fiber x = None) && bool_decide (cb x = None).

(** [Scheduler::GetThis()], and [Fiber::GetThis()] with its state, are those of
    the calling thread. *)
Record Caller := mkCaller { this_scheduler : option nat; this_fiber : nat; this_state : State }.

Definition AddEvent_locked (me : Caller) (p : nat) (fd event : Z) (f : option nat) : M IOManager Z :=
  c ← get_ctx p;
  massert (negb (has (events_ c) event)) ;;
  let op := if events_ c =? 0 then EPOLL_CTL_ADD else EPOLL_CTL_MOD in
  ok ← ctl op fd (Z.lor (Z.lor EPOLLET (events_ c)) event);
  if (ok : bool) then
    count 1 ;;
    put_ctx p (set_events (Z.lor (events_ c) event) c) ;;
    d ← GetContext event;
    massert (is_empty_ctx (sel d c)) ;;
    match f with
    | Some f => put_ctx p (upd d (mkEventContext (this_scheduler me) None (Some f))
                             (set_events (Z.lor (events_ c) event) c))
    | None =>
        massert (bool_decide (this_state me = kExec)) ;;
        put_ctx p (upd d (mkEventContext (this_scheduler me) (Some (this_fiber me)) None)
                     (set_events (Z.lor (events_ c) event) c))
    end ;;
    mret 0
  else mret (-1).

Definition AddEvent (me : Caller) (fd event : Z) (f : option nat) : M IOManager Z :=
  p ← find_context fd; AddEvent_locked me p fd event f.

(** What [DelEvent] and [CancelEvent] tell the kernel when events remain or not. *)
Definition op_for (left : Z) : EpollCtlOp := if left =? 0 then EPOLL_CTL_DEL else EPOLL_CTL_MOD.

Definition DelEvent_locked (p : nat) (fd event : Z) : M IOManager bool :=
  c ← get_ctx p;
  if negb (has (events_ c) event) then mret false else
  let new_events := without (events_ c) event in
  ok ← ctl (op_for new_events) fd (Z.lor EPOLLET new_events);
  if (ok : bool) then
    count (-1) ;;
    d ← GetContext event;
    put_ctx p (upd d ResetContext (set_events new_events c)) ;;
    mret true
  else mret false.

Definition CancelEvent_locked (p : nat) (fd event : Z) : M IOManager bool :=
  c ← get_ctx p;
  if negb (has (events_ c) event) then mret false else
  let new_events := without (events_ c) event in
  ok ← ctl (op_for new_events) fd (Z.lor EPOLLET new_events);
  if (ok : bool) then TriggerEvent p event ;; count (-1) ;; mret true else mret false.

(** [if (fd_ctx->events_ & event)] of [CancelAll]. *)
Definition trigger_if_armed (p : nat) (event : Z) : M IOManager unit :=
  c ← get_ctx p;
  if has (events_ c) event then TriggerEvent p event ;; count (-1) else mret tt.

Definition CancelAll_locked (p : nat) (fd : Z) : M IOManager bool :=
  c ← get_ctx p;
  if events_ c =? 0 then mret false else
  ok ← ctl EPOLL_CTL_DEL fd 0;
  if (ok : bool) then
    trigger_if_armed p kRead ;;
    trigger_if_armed p kWrite ;;
    c ← get_ctx p;
    massert (events_ c =? 0) ;;
    mret true
  else mret false.

(** The three start alike: [false] for a descriptor beyond the vector. *)
Definition with_context (fd : Z) (body : nat → M IOManager bool) : M IOManager bool :=
  s ← get;
  if in_range fd s then p ← at_fd fd; body p else mret false.
Definition DelEvent (fd event : Z) : M IOManager bool := with_context fd (λ p, DelEvent_locked p fd event).
Definition CancelEvent (fd event : Z) : M IOManager bool := with_context fd (λ p, CancelEvent_locked p fd event).
Definition CancelAll (fd : Z) : M IOManager bool := with_context fd (λ p, CancelAll_locked p fd).

(** ** [Idle] *)

(** What happened to a descriptor waiting for [armed], from the flags of [epoll]. *)
Definition real_events (armed revents : Z) : Z :=
  let revents := if has revents (Z.lor EPOLLERR EPOLLHUP)
                 then Z.lor revents (Z.land (Z.lor EPOLLIN EPOLLOUT) armed) else revents in
  Z.lor (if has revents EPOLLIN then kRead else kNone) (if has revents EPOLLOUT then kWrite else kNone).

(** One event that [epoll_wait] returned, not the pipe's. *)
Definition Idle_event (p : nat) (revents : Z) : M IOManager unit :=
  c ← get_ctx p;
  let real := real_events (events_ c) revents in
  if Z.land (events_ c) real =? kNone then mret tt else
  let left := without (events_ c) real in
  ok ← ctl (op_for left) (fd c) (Z.lor EPOLLET left);
  if (ok : bool) then
    (if has real kRead then TriggerEvent p kRead ;; count (-1) else mret tt) ;;
    (if has real kWrite then TriggerEvent p kWrite ;; count (-1) else mret tt)
  else mret tt.

(** The milliseconds passed to [epoll_wait]. *)
Definition MAX_TIMEOUT : Z := 3000.
Definition idle_timeout (next_timeout : Z) : Z :=
  s32 (if next_timeout =? 2 ^ 64 - 1 then MAX_TIMEOUT
       else if MAX_TIMEOUT <? s32 next_timeout then MAX_TIMEOUT else next_timeout).

(** [Stopping] when the next timer and the scheduler are as given. *)
Definition IO_Stopping (timeout : Z) (scheduler_stopping : bool) (s : IOManager) : bool :=
  (timeout =? 2 ^ 64 - 1) && (pending_event_count_ s =? 0) && scheduler_stopping.

(** [Tickle]: whether the byte is written. *)
Definition IO_Tickle (idle_thread_count : Z) : bool := 0 <? idle_thread_count.

(** ** Runs

    The sections the threads execute, in any order.  [p] is a context that was
    found for the descriptor [p]. *)
Inductive io_event :=
  | EGrow (fd : Z)
  | EAdd (me : Caller) (p : nat) (event : Z) (f : option nat)
  | EDel (p : nat) (event : Z)
  | ECancel (p : nat) (event : Z)
  | ECancelAll (p : nat)
  | EIdle (p : nat) (revents : Z).

Definition run_io (e : io_event) : M IOManager unit :=
  match e with
  | EGrow fd => p ← AddEvent_grow fd; mret tt
  | EAdd me p event f => r ← AddEvent_locked me p (Z.of_nat p) event f; mret tt
  | EDel p event => b ← DelEvent_locked p (Z.of_nat p) event; mret tt
  | ECancel p event => b ← CancelEvent_locked p (Z.of_nat p) event; mret tt
  | ECancelAll p => b ← CancelAll_locked p (Z.of_nat p); mret tt
  | EIdle p revents => Idle_event p revents
  end.

(** ** The invariant *)

Definition bit (d : side) : Z := match d with SRead => kRead | SWrite => kWrite end.

(** A context that waits has a scheduler and either a callback or a fiber. *)
Definition armed (x : EventContext) : Prop :=
  is_Some (scheduler x) ∧ (fiber x = None ∧ is_Some (cb x) ∨ is_Some (fiber x) ∧ cb x = None).

Definition ctx_ok (c : FdContext) : Prop :=
  events_ c ∈ [0; 1; 4; 5] ∧
  ∀ d, if has (events_ c) (bit d) then armed (sel d c) else sel d c = no_context.

Definition events_of (c : FdContext) : nat :=
  (if has (events_ c) kRead then 1 else 0) + (if has (events_ c) kWrite then 1 else 0).

(** The interest list is what the contexts say. *)
Definition interest_of (c : FdContext) : option Z :=
  if events_ c =? 0 then None else Some (Z.lor EPOLLET (events_ c)).

Definition interest_at (h : list FdContext) (z : Z) : option Z :=
  if z <? 0 then None else h !! Z.to_nat z ≫= interest_of.

Record io_ok (s : IOManager) : Prop := {
  io_vector : fd_contexts_ s = seq 0 (length (heap s));
  io_fds : ∀ p c, heap s !! p = Some c → fd c = Z.of_nat p;
  io_ctx : ∀ p c, heap s !! p = Some c → ctx_ok c;
  io_interest : ∀ z, z ≠ tickle_fd s → interest (kern s) !! z = interest_at (heap s) z;
  io_size : (32 ≤ length (heap s))%nat;
  io_pending : pending_event_count_ s = u64 (Z.of_nat (sum_list_with events_of (heap s)))
}.

(** How the events are used: [AddEvent] from a scheduler's thread, for an event
    that is not waited for yet; the events that [Idle] was told of are all still waited
    for, or none of them is; no resize makes the vector smaller.  Where they are not used so,
    assertions fail or events are lost: [Idle_asserts_after_DelEvent] and
    [AddEvent_resize_races]. *)
Definition event_ok (s : IOManager) (e : io_event) : Prop :=
  match e with
  | EGrow fd => Z.of_nat (length (fd_contexts_ s)) ≤ fd * 3 / 2
  | EAdd me p event f => (p < length (heap s))%nat ∧ Z.of_nat p ≠ tickle_fd s ∧
      (event = kRead ∨ event = kWrite) ∧ is_Some (this_scheduler me) ∧ (f = None → this_state me = kExec) ∧
      ∀ c, heap s !! p = Some c → has (events_ c) event = false
  | EDel p event | ECancel p event => (p < length (heap s))%nat ∧ Z.of_nat p ≠ tickle_fd s ∧
      (event = kRead ∨ event = kWrite)
  | ECancelAll p => (p < length (heap s))%nat ∧ Z.of_nat p ≠ tickle_fd s
  | EIdle p revents => (p < length (heap s))%nat ∧ Z.of_nat p ≠ tickle_fd s ∧
      ∀ c, heap s !! p = Some c → let real := real_events (events_ c) revents in
        Z.land (events_ c) real = kNone ∨ without real (events_ c) = 0
  end.

(** ** What waits, and what has been scheduled *)

Definition ctx_task (x : EventContext) : list (nat * FiberAndThread) :=
  match scheduler x with
  | Some sch => [(sch, match cb x with Some f => mkFT None (Some f) None | None => mkFT (fiber x) None None end)]
  | None => []
  end.
Definition ctx_tasks (c : FdContext) : list (nat * FiberAndThread) := ctx_task (read_ c) ++ ctx_task (write_ c).
Definition tasks (s : IOManager) : list (nat * FiberAndThread) :=
  concat (map ctx_tasks (heap s)) ++ scheduled s.

(** The task an [AddEvent] adds, and the one a [DelEvent] takes away, when they
    change anything. *)
Definition new_task (me : Caller) (f : option nat) : list (nat * FiberAndThread) :=
  ctx_task (match f with
            | Some f => mkEventContext (this_scheduler me) None (Some f)
            | None => mkEventContext (this_scheduler me) (Some (this_fiber me)) None
            end).
Definition old_task (s : IOManager) (p : nat) (event : Z) : list (nat * FiberAndThread) :=
  match heap s !! p with
  | Some c => ctx_task (if event =? kRead then read_ c else write_ c)
  | None => []
  end.

(** *** One context *)

Lemma ctx_ok_new fd : ctx_ok (new_FdContext fd).
Proof. split; [set_solver|]. by intros []. Qed.

Lemma events_cases c : ctx_ok c → events_ c = 0 ∨ events_ c = 1 ∨ events_ c = 4 ∨ events_ c = 5.
Proof. intros [Hc _]. set_solver. Qed.

(** All that is computed from the events of a context. *)
Ltac events c H := let He := fresh "He" in
  destruct (events_cases c H) as [He|[He|[He|He]]]; rewrite ?He in *; cbn in *.

Lemma side_of_event event : event = kRead ∨ event = kWrite → ∃ d, event = bit d ∧ GetContext event = mret d.
Proof. intros [->| ->]; [by exists SRead|by exists SWrite]. Qed.

Definition cleared (d : side) (c : FdContext) : FdContext :=
  upd d no_context (set_events (without (events_ c) (bit d)) c).

Lemma cleared_ok d c : ctx_ok c → has (events_ c) (bit d) = true →
  ctx_ok (cleared d c) ∧ events_of c = S (events_of (cleared d c)) ∧ fd (cleared d c) = fd c ∧
  ctx_tasks c ≡ₚ ctx_task (sel d c) ++ ctx_tasks (cleared d c).
Proof.
  intros Hc Hd. assert (ctx_tasks c ≡ₚ ctx_task (sel d c) ++ ctx_tasks (cleared d c)) as Ht.
  { unfold ctx_tasks. destruct d; cbn; rewrite ?app_nil_r; [done|]. by rewrite (comm (++)). }
  destruct Hc as [Hev Hsel]. pose proof (Hsel SRead) as HR. pose proof (Hsel SWrite) as HW.
  split_and!; try done.
  all: destruct (events_cases c (conj Hev Hsel)) as [He|[He|[He|He]]]; destruct d; try by rewrite He in Hd.
  all: unfold cleared, events_of; try (split; [cbn; rewrite He; set_solver|intros []]); cbn in *; rewrite He in *; done.
Qed.

Lemma ctl_ok op fd ev s : (∃ k, epoll_ctl op fd ev (kern s) = Some k ∧ ctl op fd ev s = Ret true (set_kern k s)) ∨
  ctl op fd ev s = Ret false s.
Proof.
  unfold ctl, mbind, M_bind, get. destruct (epoll_ctl op fd ev (kern s)) as [k|] eqn:Hk; [left|right; done].
  by exists k.
Qed.

(** [TriggerEvent] schedules what waits for the event, and clears it. *)
Lemma TriggerEvent_ok p c d s : heap s !! p = Some c → ctx_ok c → has (events_ c) (bit d) = true →
  TriggerEvent p (bit d) s =
    Ret tt (set_heap (<[p := cleared d c]> (heap s)) (set_scheduled (scheduled s ++ ctx_task (sel d c)) s)).
Proof.
  intros Hp [_ Hc] Hd. specialize (Hc d). rewrite Hd in Hc. destruct Hc as [[sch Hs] Hfc].
  unfold TriggerEvent, get_ctx. rewrite (bind_Ret _ _ s c s).
  2:{ unfold mbind, M_bind, get. by rewrite Hp. }
  rewrite Hd. rewrite (bind_Ret _ _ s tt s) by done.
  rewrite (bind_Ret _ _ s d s) by by destruct d. cbv zeta.
  rewrite Hs. rewrite (bind_Ret _ _ s sch s) by done.
  assert (ctx_task (sel d c) =
    [(sch, match cb (sel d c) with Some f => mkFT None (Some f) None | None => mkFT (fiber (sel d c)) None None end)]) as ->.
  { unfold ctx_task. by rewrite Hs. }
  destruct Hfc as [[Hf [f Hcb]]|[[f Hf] Hcb]]; rewrite Hcb, ?Hf; cbv beta iota; done.
Qed.

(** *** Changing one context *)

Lemma sum_insert (h : list FdContext) p c c' : h !! p = Some c →
  (sum_list_with events_of (<[p:=c']> h) + events_of c = sum_list_with events_of h + events_of c')%nat.
Proof.
  intros Hp. rewrite <- (take_drop_middle h p c Hp) at 2.
  rewrite (insert_take_drop h p c' (lookup_lt_Some _ _ _ Hp)), !sum_list_with_app. cbn. lia.
Qed.

Lemma tasks_insert (h : list FdContext) p c c' : h !! p = Some c →
  concat (map ctx_tasks (<[p:=c']> h)) ++ ctx_tasks c ≡ₚ concat (map ctx_tasks h) ++ ctx_tasks c'.
Proof.
  intros Hp. rewrite <- (take_drop_middle h p c Hp) at 2.
  rewrite (insert_take_drop h p c' (lookup_lt_Some _ _ _ Hp)), !List.map_app, !concat_app. cbn.
  solve_Permutation.
Qed.

Lemma u64_add a b : u64 (u64 a + b) = u64 (a + b).
Proof. unfold wrap. by rewrite Z.add_mod_idemp_l. Qed.

(** [s'] is [s] with some of what waits in the context [c] of [p] scheduled. *)
Record fires (s : IOManager) (p : nat) (c : FdContext) (s' : IOManager) (c' : FdContext) : Prop := {
  fires_at : heap s !! p = Some c;
  fires_heap : heap s' = <[p := c']> (heap s);
  fires_vector : fd_contexts_ s' = fd_contexts_ s;
  fires_tickle : tickle_fd s' = tickle_fd s;
  fires_kern : kern s' = kern s;
  fires_pending : pending_event_count_ s' =
    u64 (pending_event_count_ s + (Z.of_nat (events_of c') - Z.of_nat (events_of c)));
  fires_ok : ctx_ok c';
  fires_fd : fd c' = fd c;
  fires_tasks : scheduled s' ++ ctx_tasks c' ≡ₚ scheduled s ++ ctx_tasks c
}.

Lemma fires_trans s1 s2 s3 p c1 c2 c3 : fires s1 p c1 s2 c2 → fires s2 p c2 s3 c3 → fires s1 p c1 s3 c3.
Proof.
  intros [H1 H2 H3 H4 H5 H6 H7 H8 H9] [K1 K2 K3 K4 K5 K6 K7 K8 K9]. split; try congruence.
  - by rewrite K2, H2, list_insert_insert_eq.
  - rewrite K6, H6, u64_add. f_equal. lia.
  - by rewrite K9.
Qed.

Lemma fires_refl s p c : heap s !! p = Some c → ctx_ok c →
  pending_event_count_ s = u64 (pending_event_count_ s) → fires s p c s c.
Proof.
  intros Hp Hc Hn. split; try done; [by rewrite list_insert_id|]. by rewrite Z.sub_diag, Z.add_0_r.
Qed.

Lemma trigger_fires p c d s : heap s !! p = Some c → ctx_ok c → has (events_ c) (bit d) = true →
  ∃ s', (TriggerEvent p (bit d) ;; count (-1)) s = Ret tt s' ∧ fires s p c s' (cleared d c).
Proof.
  intros Hp Hc Hd. rewrite (bind_Ret _ _ _ _ _ (TriggerEvent_ok p c d s Hp Hc Hd)).
  destruct (cleared_ok d c Hc Hd) as (Hok & Hev & Hfd & Ht).
  eexists. split; [reflexivity|]. split; try done.
  - cbn. f_equal. rewrite Hev. lia.
  - cbn. rewrite Ht. by rewrite app_assoc.
Qed.

Definition fired (d : side) (b : bool) (c : FdContext) : FdContext := if b then cleared d c else c.

(** One event when [b], nothing otherwise. *)
Lemma trigger_when p c d (b : bool) s : heap s !! p = Some c → ctx_ok c →
  pending_event_count_ s = u64 (pending_event_count_ s) → (b = true → has (events_ c) (bit d) = true) →
  ∃ s', (if b then TriggerEvent p (bit d) ;; count (-1) else mret tt) s = Ret tt s' ∧ fires s p c s' (fired d b c).
Proof.
  intros Hp Hc Hn Hb. destruct b; [by apply trigger_fires; [..|apply Hb]|].
  exists s. split; [done|]. by apply fires_refl.
Qed.

Lemma fires_u64 s p c s' c' : fires s p c s' c' → pending_event_count_ s' = u64 (pending_event_count_ s').
Proof. intros H. rewrite (fires_pending _ _ _ _ _ H). symmetry. apply wrap_idemp. lia. Qed.

Lemma fires_lookup s p c s' c' : fires s p c s' c' → heap s' !! p = Some c'.
Proof.
  intros H. rewrite (fires_heap _ _ _ _ _ H). apply list_lookup_insert_eq.
  eapply lookup_lt_Some, (fires_at _ _ _ _ _ H).
Qed.

(** Both events, in this order, as [CancelAll] and [Idle] do. *)
Lemma trigger_both p c bR bW s : heap s !! p = Some c → ctx_ok c →
  pending_event_count_ s = u64 (pending_event_count_ s) →
  (bR = true → has (events_ c) kRead = true) → (bW = true → has (events_ c) kWrite = true) →
  ∃ s', ((if bR then TriggerEvent p kRead ;; count (-1) else mret tt) ;;
         (if bW then TriggerEvent p kWrite ;; count (-1) else mret tt)) s = Ret tt s' ∧
    fires s p c s' (fired SWrite bW (fired SRead bR c)).
Proof.
  intros Hp Hc Hn HR HW.
  destruct (trigger_when p c SRead bR s) as (s1 & Hr1 & Hf1); try done.
  cbn in Hr1. rewrite (bind_Ret _ _ _ _ _ Hr1).
  destruct (trigger_when p (fired SRead bR c) SWrite bW s1) as (s2 & Hr2 & Hf2).
  - by eapply fires_lookup.
  - apply (fires_ok _ _ _ _ _ Hf1).
  - by eapply fires_u64.
  - intros Hb. specialize (HW Hb). destruct bR; [|done]. specialize (HR eq_refl). cbn.
    destruct (events_cases c Hc) as [He|[He|[He|He]]]; rewrite He in *; done.
  - exists s2. split; [done|]. by eapply fires_trans.
Qed.

(** The kernel is told the events that are left. *)
Definition told (c' : FdContext) (s : IOManager) (s' : IOManager) : Prop :=
  interest (kern s') = (if events_ c' =? 0 then delete (fd c') else <[fd c' := Z.lor EPOLLET (events_ c')]>)
                         (interest (kern s)).

(** A context replaced, the counter and the kernel accordingly. *)
Lemma io_ok_change s s' p c c' : io_ok s → heap s !! p = Some c → Z.of_nat p ≠ tickle_fd s →
  heap s' = <[p := c']> (heap s) → fd_contexts_ s' = fd_contexts_ s → tickle_fd s' = tickle_fd s →
  ctx_ok c' → fd c' = fd c → told c' s s' →
  pending_event_count_ s' = u64 (pending_event_count_ s + (Z.of_nat (events_of c') - Z.of_nat (events_of c))) →
  io_ok s'.
Proof.
  intros Hok Hp Ht Hh Hv Htk Hc' Hfd Htold Hpend. destruct Hok as [Hvec Hfds Hctx Hint Hsz Hpd].
  pose proof (lookup_lt_Some _ _ _ Hp) as Hlt. pose proof (Hfds _ _ Hp) as Hfdp.
  assert (∀ q x, heap s' !! q = Some x → (q = p ∧ x = c') ∨ (q ≠ p ∧ heap s !! q = Some x)) as Hl.
  { intros q x. rewrite Hh, list_lookup_insert_Some. intros [(-> & -> & _)|[? ?]]; [by left|right; done]. }
  split.
  - by rewrite Hv, Hh, length_insert.
  - intros q x [[-> ->]|[_ Hq]]%Hl; [congruence|by apply Hfds].
  - intros q x [[-> ->]|[_ Hq]]%Hl; [done|by eapply Hctx].
  - intros z Hz. rewrite Htk in Hz. specialize (Hint z Hz). rewrite Htold, Hfd, Hfdp, Hh. unfold interest_at in *.
    destruct (decide (z = Z.of_nat p)) as [->|Hne].
    + rewrite (proj2 (Z.ltb_ge _ _)), Nat2Z.id, list_lookup_insert_eq by lia. cbn. unfold interest_of.
      destruct (events_ c' =? 0); [apply lookup_delete_eq|apply lookup_insert_eq].
    + assert ((if events_ c' =? 0 then delete (Z.of_nat p) else <[Z.of_nat p := Z.lor EPOLLET (events_ c')]>)
        (interest (kern s)) !! z = interest (kern s) !! z) as ->.
      { destruct (events_ c' =? 0); [by apply lookup_delete_ne|by apply lookup_insert_ne]. }
      rewrite Hint. destruct (z <? 0) eqn:Hz0; [done|]. apply Z.ltb_ge in Hz0.
      rewrite list_lookup_insert_ne; [done|]. lia.
  - by rewrite Hh, length_insert.
  - rewrite Hpend, Hpd, u64_add, Hh. f_equal. pose proof (sum_insert _ _ _ c' Hp). lia.
Qed.

(** After [fires] and the call of [epoll_ctl] before it. *)
Lemma io_ok_fires s k s' p c c' : io_ok s → Z.of_nat p ≠ tickle_fd s → fires (set_kern k s) p c s' c' →
  told c' s (set_kern k s) → io_ok s' ∧ tasks s' ≡ₚ tasks s.
Proof.
  intros Hok Ht [H1 H2 H3 H4 H5 H6 H7 H8 H9] Htold. cbn in *. split.
  - eapply (io_ok_change s s' p c c'); try done. unfold told in *. by rewrite H5.
  - unfold tasks. rewrite H2. apply (Permutation_app_inv_l (ctx_tasks c')).
    transitivity ((concat (map ctx_tasks (<[p:=c']> (heap s))) ++ (scheduled s' ++ ctx_tasks c'))); [solve_Permutation|].
    rewrite H9. transitivity ((concat (map ctx_tasks (<[p:=c']> (heap s))) ++ ctx_tasks c) ++ scheduled s); [solve_Permutation|].
    rewrite (tasks_insert _ _ _ c' H1). solve_Permutation.
Qed.

Section laws.
Context `{!EpollLaws E}.

(** *** The operations *)

Lemma op_for_told left fd k k' : epoll_ctl (op_for left) fd (Z.lor EPOLLET left) k = Some k' →
  interest k' = (if left =? 0 then delete fd else <[fd := Z.lor EPOLLET left]>) (interest k).
Proof.
  unfold op_for. destruct (left =? 0); intros Hk; [by eapply epoll_del|by eapply epoll_mod].
Qed.

Lemma get_ctx_bind {A} p c (k : FdContext → M IOManager A) s : heap s !! p = Some c → (get_ctx p ≫= k) s = k c s.
Proof. intros Hp. unfold get_ctx, mbind, M_bind, get. by rewrite Hp. Qed.

Lemma ctx_at s p : (p < length (heap s))%nat → io_ok s → ∃ c, heap s !! p = Some c ∧ ctx_ok c ∧ fd c = Z.of_nat p.
Proof.
  intros [c Hc]%lookup_lt_is_Some Hok. exists c. split; [done|]. split; [by eapply (io_ctx _ Hok)|by apply (io_fds _ Hok)].
Qed.

Lemma pending_u64 s : io_ok s → pending_event_count_ s = u64 (pending_event_count_ s).
Proof. intros Hok. rewrite (io_pending _ Hok). symmetry. apply wrap_idemp. lia. Qed.

(** What every operation but [AddEvent] and [DelEvent] does to the tasks. *)
Definition keeps_tasks (m : M IOManager unit) (s : IOManager) : Prop :=
  ∃ s', m s = Ret tt s' ∧ io_ok s' ∧ tasks s' ≡ₚ tasks s.

Lemma CancelEvent_spec p d s : io_ok s → (p < length (heap s))%nat → Z.of_nat p ≠ tickle_fd s →
  ∃ b s', CancelEvent_locked p (Z.of_nat p) (bit d) s = Ret b s' ∧ io_ok s' ∧ tasks s' ≡ₚ tasks s.
Proof.
  intros Hok Hp Ht. destruct (ctx_at s p Hp Hok) as (c & Hc & Hcok & Hfd).
  unfold CancelEvent_locked. rewrite (get_ctx_bind p c) by done. cbv zeta.
  destruct (has (events_ c) (bit d)) eqn:Hd; cbn [negb]; [|by exists false, s].
  destruct (ctl_ok (op_for (without (events_ c) (bit d))) (Z.of_nat p)
    (Z.lor EPOLLET (without (events_ c) (bit d))) s) as [(k & Hk & Hr)|Hr];
    rewrite (bind_Ret _ _ _ _ _ Hr); [|by exists false, s].
  destruct (trigger_fires p c d (set_kern k s) Hc Hcok Hd) as (s' & Hr' & Hf).
  exists true, s'. split.
  { unfold mbind, M_bind in *. destruct (TriggerEvent p (bit d) (set_kern k s)); try done.
    destruct (count (-1) s0); try done. by injection Hr' as -> ->. }
  eapply io_ok_fires; [done|done|exact Hf|]. unfold told, cleared. destruct d; cbn; rewrite Hfd; by apply op_for_told.
Qed.

Lemma fired_events c bR bW : ctx_ok c →
  (bR = true → has (events_ c) kRead = true) → (bW = true → has (events_ c) kWrite = true) →
  events_ (fired SWrite bW (fired SRead bR c)) = without (events_ c) (Z.lor (if bR then 1 else 0) (if bW then 4 else 0)).
Proof.
  intros Hc HR HW. destruct (events_cases c Hc) as [He|[He|[He|He]]]; rewrite He in *;
    destruct bR, bW; try (by specialize (HR eq_refl)); try (by specialize (HW eq_refl)); cbn; by rewrite ?He.
Qed.

Lemma fired_fd c bR bW : fd (fired SWrite bW (fired SRead bR c)) = fd c.
Proof. by destruct bR, bW. Qed.

Lemma trigger_if_armed_ok p c d s : heap s !! p = Some c → ctx_ok c →
  pending_event_count_ s = u64 (pending_event_count_ s) →
  ∃ s', trigger_if_armed p (bit d) s = Ret tt s' ∧ fires s p c s' (fired d (has (events_ c) (bit d)) c).
Proof.
  intros Hp Hc Hn. unfold trigger_if_armed. rewrite (get_ctx_bind p c) by done. by apply trigger_when.
Qed.

Lemma CancelAll_spec p s : io_ok s → (p < length (heap s))%nat → Z.of_nat p ≠ tickle_fd s →
  ∃ b s', CancelAll_locked p (Z.of_nat p) s = Ret b s' ∧ io_ok s' ∧ tasks s' ≡ₚ tasks s.
Proof.
  intros Hok Hp Ht. destruct (ctx_at s p Hp Hok) as (c & Hc & Hcok & Hfd).
  unfold CancelAll_locked. rewrite (get_ctx_bind p c) by done.
  destruct (events_ c =? 0) eqn:H0; [by exists false, s|].
  destruct (ctl_ok EPOLL_CTL_DEL (Z.of_nat p) 0 s) as [(k & Hk & Hr)|Hr];
    rewrite (bind_Ret _ _ _ _ _ Hr); [|by exists false, s].
  destruct (trigger_if_armed_ok p c SRead (set_kern k s)) as (s1 & Hr1 & Hf1); [done|done|exact (pending_u64 s Hok)|].
  destruct (trigger_if_armed_ok p _ SWrite s1 (fires_lookup _ _ _ _ _ Hf1) (fires_ok _ _ _ _ _ Hf1)
    (fires_u64 _ _ _ _ _ Hf1)) as (s' & Hr2 & Hf2).
  cbn in Hr1, Hr2. rewrite (bind_Ret _ _ _ _ _ Hr1), (bind_Ret _ _ _ _ _ Hr2).
  pose proof (fires_trans _ _ _ _ _ _ _ Hf1 Hf2) as Hf. set (c' := fired SWrite _ _) in Hf.
  assert (events_ c' = 0) as H0'.
  { subst c'. clear -Hcok. pose proof (events_cases c Hcok) as He. clear Hcok.
    destruct c as [r w f e]. cbn in He. by destruct He as [-> |[-> |[-> | ->]]]. }
  exists true, s'. split.
  - rewrite (get_ctx_bind p c') by by eapply fires_lookup. by rewrite H0'.
  - eapply io_ok_fires; [done|done|exact Hf|]. unfold told. rewrite H0'. cbn.
    rewrite (fires_fd _ _ _ _ _ Hf), Hfd. by eapply epoll_del.
Qed.

Lemma Idle_spec p revents s : io_ok s → event_ok s (EIdle p revents) → keeps_tasks (Idle_event p revents) s.
Proof.
  intros Hok (Hp & Ht & Hreal). destruct (ctx_at s p Hp Hok) as (c & Hc & Hcok & Hfd). specialize (Hreal c Hc).
  unfold keeps_tasks, Idle_event. rewrite (get_ctx_bind p c) by done. cbv zeta.
  set (real := real_events (events_ c) revents) in *.
  destruct (Z.eqb_spec (Z.land (events_ c) real) kNone) as [|Hne]; [by exists s|]. destruct Hreal as [?|Hreal]; [done|].
  destruct (ctl_ok (op_for (without (events_ c) real)) (fd c) (Z.lor EPOLLET (without (events_ c) real)) s)
    as [(k & Hk & Hr)|Hr]; rewrite (bind_Ret _ _ _ _ _ Hr); [|by exists s].
  assert (real = 0 ∨ real = 1 ∨ real = 4 ∨ real = 5) as Hreal'.
  { subst real. unfold real_events. cbv zeta.
    match goal with |- context [has ?x EPOLLIN] => destruct (has x EPOLLIN), (has x EPOLLOUT) end; auto. }
  assert ((has real kRead = true → has (events_ c) kRead = true) ∧
          (has real kWrite = true → has (events_ c) kWrite = true)) as [HR HW].
  { destruct (events_cases c Hcok) as [He|[He|[He|He]]], Hreal' as [Hv|[Hv|[Hv|Hv]]];
      rewrite He, Hv in Hreal |- *; done. }
  destruct (trigger_both p c (has real kRead) (has real kWrite) (set_kern k s)) as (s' & Hr' & Hf);
    [done|done|exact (pending_u64 s Hok)|done|done|].
  exists s'. split; [done|]. eapply io_ok_fires; [done|done|exact Hf|]. unfold told.
  rewrite fired_events, fired_fd by done.
  assert (Z.lor (if has real kRead then 1 else 0) (if has real kWrite then 4 else 0) = real) as ->.
  { destruct Hreal' as [Hv|[Hv|[Hv|Hv]]]; by rewrite Hv. }
  by apply op_for_told.
Qed.

Lemma DelEvent_spec p d s : io_ok s → (p < length (heap s))%nat → Z.of_nat p ≠ tickle_fd s →
  ∃ b s', DelEvent_locked p (Z.of_nat p) (bit d) s = Ret b s' ∧ io_ok s' ∧
    tasks s ≡ₚ (if b then old_task s p (bit d) else []) ++ tasks s'.
Proof.
  intros Hok Hp Ht. destruct (ctx_at s p Hp Hok) as (c & Hc & Hcok & Hfd).
  unfold DelEvent_locked. rewrite (get_ctx_bind p c) by done. cbv zeta.
  destruct (has (events_ c) (bit d)) eqn:Hd; cbn [negb]; [|by exists false, s].
  destruct (ctl_ok (op_for (without (events_ c) (bit d))) (Z.of_nat p)
    (Z.lor EPOLLET (without (events_ c) (bit d))) s) as [(k & Hk & Hr)|Hr];
    rewrite (bind_Ret _ _ _ _ _ Hr); [|by exists false, s].
  destruct (cleared_ok d c Hcok Hd) as (Hok' & Hev & Hfd' & Htasks).
  exists true. eexists. split; [by destruct d|]. split.
  - eapply (io_ok_change s _ p c (cleared d c)); try done.
    + unfold told. rewrite Hfd', Hfd. destruct d; by apply op_for_told.
    + cbn. f_equal. rewrite Hev. lia.
  - unfold old_task. rewrite Hc. unfold tasks. cbn [heap scheduled set_heap set_pending set_kern].
    assert ((if bit d =? kRead then read_ c else write_ c) = sel d c) as -> by by destruct d.
    change (upd d ResetContext (set_events (without (events_ c) (bit d)) c)) with (cleared d c).
    apply (Permutation_app_inv_l (ctx_tasks (cleared d c))).
    transitivity ((concat (map ctx_tasks (heap s)) ++ ctx_tasks (cleared d c)) ++ scheduled s); [solve_Permutation|].
    rewrite <- (tasks_insert _ _ _ _ Hc), Htasks. solve_Permutation.
Qed.

Lemma added_ok d x c : ctx_ok c → has (events_ c) (bit d) = false → armed x →
  let c' := upd d x (set_events (Z.lor (events_ c) (bit d)) c) in
  ctx_ok c' ∧ events_of c' = S (events_of c) ∧ ctx_tasks c' ≡ₚ ctx_task x ++ ctx_tasks c ∧
  (events_ c' =? 0) = false ∧ sel d c = no_context.
Proof.
  intros Hc Hd Hx c'. pose proof (proj2 Hc) as Hsel. pose proof (Hsel d) as Hs. rewrite Hd in Hs.
  pose proof (Hsel SRead) as HR. pose proof (Hsel SWrite) as HW.
  assert (ctx_tasks c' ≡ₚ ctx_task x ++ ctx_tasks c) as Ht.
  { unfold ctx_tasks. destruct d; cbn in *; rewrite Hs; cbn; [done|]. by rewrite app_nil_r, (comm (++)). }
  subst c'. pose proof (events_cases c Hc) as He. destruct c as [r w f e]. cbn in *.
  split_and!; try done.
  - split; [destruct d, He as [-> |[-> |[-> | ->]]]; cbn; set_solver|].
    intros []; destruct d, He as [-> |[-> |[-> | ->]]]; done.
  - unfold events_of. by destruct d, He as [-> |[-> |[-> | ->]]].
  - by destruct d, He as [-> |[-> |[-> | ->]]].
Qed.

Lemma AddEvent_spec me p d f s : io_ok s → event_ok s (EAdd me p (bit d) f) →
  ∃ r s', AddEvent_locked me p (Z.of_nat p) (bit d) f s = Ret r s' ∧ io_ok s' ∧
    tasks s' ≡ₚ (if r =? 0 then new_task me f else []) ++ tasks s.
Proof.
  intros Hok (Hp & Ht & _ & [sch Hsch] & Hf & Hna). destruct (ctx_at s p Hp Hok) as (c & Hc & Hcok & Hfd).
  specialize (Hna c Hc). unfold AddEvent_locked. rewrite (get_ctx_bind p c) by done. cbv zeta. rewrite Hna.
  rewrite (bind_Ret _ _ s tt s) by done. set (op := if events_ c =? 0 then _ else _).
  destruct (ctl_ok op (Z.of_nat p) (Z.lor (Z.lor EPOLLET (events_ c)) (bit d)) s) as [(k & Hk & Hr)|Hr];
    rewrite (bind_Ret _ _ _ _ _ Hr); [|by exists (-1), s].
  set (x := match f with
            | Some f => mkEventContext (this_scheduler me) None (Some f)
            | None => mkEventContext (this_scheduler me) (Some (this_fiber me)) None
            end).
  assert (armed x) as Hx.
  { subst x. destruct f; (split; [cbn; by eexists|]); [left|right]; split; done || by eexists. }
  destruct (added_ok d x c Hcok Hna Hx) as (Hok' & Hev & Htasks & Hnz & Hempty).
  set (c' := upd d x (set_events (Z.lor (events_ c) (bit d)) c)) in *.
  set (s1 := set_heap (<[p := c']> (heap s)) (set_pending (u64 (pending_event_count_ s + 1)) (set_kern k s))).
  exists 0, s1. split; [|split].
  - assert (GetContext (bit d) = mret d) as -> by by destruct d.
    subst s1 c' x. destruct f; cbv [mbind M_bind mret M_ret count modify put_ctx massert undef];
      cbn [set_pending set_heap set_kern heap pending_event_count_ kern fd_contexts_ scheduled tickle_fd];
      rewrite Hempty; cbn; rewrite ?(Hf eq_refl), ?(bool_decide_eq_true_2 (kExec = kExec)) by done; cbn;
      by rewrite list_insert_insert_eq.
  - eapply (io_ok_change s s1 p c c'); try done.
    + by subst c'; destruct d.
    + unfold told. rewrite Hnz. subst c' s1. cbn. 
      assert (interest k = <[Z.of_nat p := Z.lor (Z.lor EPOLLET (events_ c)) (bit d)]> (interest (kern s))) as Hi.
      { subst op. destruct (events_ c =? 0); [by eapply epoll_add|by eapply epoll_mod]. }
      rewrite Hi, <- Z.lor_assoc. by destruct d; cbn; rewrite Hfd.
    + cbn. f_equal. rewrite Hev. lia.
  - unfold tasks. subst s1. cbn. apply (Permutation_app_inv_l (ctx_tasks c)).
    transitivity ((concat (map ctx_tasks (<[p:=c']> (heap s))) ++ ctx_tasks c) ++ scheduled s); [solve_Permutation|].
    rewrite (tasks_insert _ _ _ c' Hc), Htasks. unfold new_task. fold x. solve_Permutation.
Qed.

Lemma lookup_new n m i c : map (λ i, new_FdContext (Z.of_nat i)) (seq n m) !! i = Some c →
  c = new_FdContext (Z.of_nat (n + i)) ∧ (i < m)%nat.
Proof.
  intros Hi. pose proof (lookup_lt_Some _ _ _ Hi) as Hlt.
  rewrite length_map, length_seq in Hlt. change (map ?f ?l) with (f <$> l) in Hi.
  rewrite list_lookup_fmap, lookup_seq_lt in Hi by done. by injection Hi as <-.
Qed.

Lemma sum_new l : sum_list_with events_of (map (λ i, new_FdContext (Z.of_nat i)) l) = 0%nat.
Proof. by induction l. Qed.

Lemma tasks_new l : concat (map ctx_tasks (map (λ i, new_FdContext (Z.of_nat i)) l)) = [].
Proof. by induction l. Qed.

(** The vector made larger. *)
Definition grown (size : nat) (s : IOManager) : IOManager :=
  let n := length (heap s) in
  set_contexts (seq 0 (n + (size - n))) (heap s ++ map (λ i, new_FdContext (Z.of_nat i)) (seq n (size - n))) s.

Lemma ContextResize_ok size s : io_ok s → (length (heap s) ≤ size)%nat →
  ContextResize size s = Ret tt (grown size s).
Proof.
  intros Hok Hs. unfold ContextResize, modify, grown. rewrite (io_vector _ Hok), length_seq.
  rewrite take_ge by (rewrite length_seq; lia). by rewrite <- seq_app.
Qed.

Lemma grown_ok size s : io_ok s → io_ok (grown size s) ∧ tasks (grown size s) = tasks s.
Proof.
  intros [Hvec Hfds Hctx Hint Hsz Hpd]. set (n := length (heap s)) in *.
  assert (∀ p c, heap (grown size s) !! p = Some c →
    heap s !! p = Some c ∨ c = new_FdContext (Z.of_nat p) ∧ (n ≤ p)%nat) as Hl.
  { intros p c. cbn. intros [Hp|[Hp Hq]]%lookup_app_Some; [by left|right].
    apply lookup_new in Hq as [-> _]. split; [|done]. do 2 f_equal. fold n in Hp |- *. lia. }
  split; [split|].
  - cbn. by rewrite length_app, length_map, length_seq.
  - intros p c [Hp|[-> _]]%Hl; [by apply Hfds|done].
  - intros p c [Hp|[-> _]]%Hl; [by eapply Hctx|apply ctx_ok_new].
  - intros z Hz. cbn in Hz. cbn [grown kern set_contexts]. rewrite (Hint z Hz). unfold interest_at.
    destruct (z <? 0); [done|]. destruct (heap s !! Z.to_nat z) as [c|] eqn:Hc.
    + cbn [grown heap set_contexts]. rewrite lookup_app_l by (by eapply lookup_lt_Some). by rewrite Hc.
    + cbn [mbind option_bind]. destruct (heap (grown size s) !! Z.to_nat z) as [c|] eqn:Hc'; [|done].
      apply Hl in Hc' as [Hc'|[-> _]]; [congruence|done].
  - cbn. rewrite length_app. lia.
  - cbn. rewrite sum_list_with_app, sum_new, Nat.add_0_r. done.
  - unfold tasks. cbn. by rewrite List.map_app, concat_app, tasks_new, app_nil_r.
Qed.

Lemma AddEvent_grow_ok fd s : io_ok s → Z.of_nat (length (fd_contexts_ s)) ≤ fd * 3 / 2 →
  AddEvent_grow fd s = Ret (Z.to_nat fd) (grown (Z.to_nat (fd * 3 / 2)) s).
Proof.
  intros Hok Hfd. pose proof Hfd as Hfd'. rewrite (io_vector _ Hok), length_seq in Hfd'.
  pose proof (io_size _ Hok). pose proof (Z.mul_div_le (fd * 3) 2 ltac:(done)).
  assert (fd + 1 ≤ fd * 3 / 2) as Hge by (apply Z.div_le_lower_bound; lia).
  unfold AddEvent_grow. rewrite (bind_Ret _ _ _ _ _ (ContextResize_ok (Z.to_nat (fd * 3 / 2)) s Hok ltac:(lia))).
  unfold at_fd, mbind, M_bind, get. rewrite (proj2 (Z.ltb_ge _ _)) by lia.
  cbn [grown fd_contexts_ set_contexts]. by rewrite lookup_seq_lt by lia.
Qed.

Lemma run_io_ok e s : io_ok s → event_ok s e → ∃ s', run_io e s = Ret tt s' ∧ io_ok s'.
Proof.
  intros Hok He. destruct e as [fd|me p event f|p event|p event|p|p revents]; cbn in He.
  - unfold run_io. rewrite (bind_Ret _ _ _ _ _ (AddEvent_grow_ok fd s Hok He)).
    eexists. split; [reflexivity|]. by apply grown_ok.
  - destruct (side_of_event event) as (d & -> & _); [by apply He|].
    destruct (AddEvent_spec me p d f s Hok He) as (r & s' & Hr & Hok' & _). exists s'.
    unfold run_io. by rewrite (bind_Ret _ _ _ _ _ Hr).
  - destruct He as (? & ? & Hev). destruct (side_of_event event Hev) as (d & -> & _).
    destruct (DelEvent_spec p d s Hok) as (r & s' & Hr & Hok' & _); [done..|]. exists s'.
    unfold run_io. by rewrite (bind_Ret _ _ _ _ _ Hr).
  - destruct He as (? & ? & Hev). destruct (side_of_event event Hev) as (d & -> & _).
    destruct (CancelEvent_spec p d s Hok) as (r & s' & Hr & Hok' & _); [done..|]. exists s'.
    unfold run_io. by rewrite (bind_Ret _ _ _ _ _ Hr).
  - destruct He as (? & ?). destruct (CancelAll_spec p s Hok) as (r & s' & Hr & Hok' & _); [done..|]. exists s'.
    unfold run_io. by rewrite (bind_Ret _ _ _ _ _ Hr).
  - destruct (Idle_spec p revents s Hok He) as (s' & ? & ? & _). by exists s'.
Qed.

(** The states the threads can reach; [epoll_create] makes an empty list. *)
Inductive reachable_io : IOManager → Prop :=
  | io_new k tickle s : interest k = ∅ → new_IOManager k tickle = Some s → reachable_io s
  | io_step s e s' : reachable_io s → event_ok s e → run_io e s = Ret tt s' → reachable_io s'.

Lemma new_IOManager_ok k tickle s : interest k = ∅ → new_IOManager k tickle = Some s → io_ok s.
Proof.
  intros Hk Hs. unfold new_IOManager in Hs. destruct (epoll_ctl _ _ _ k) as [k'|] eqn:Hctl; [|done].
  injection Hs as <-. cbn [heap fd_contexts_ length]. apply epoll_add in Hctl. rewrite Hk in Hctl.
  set (h := map (λ i, new_FdContext (Z.of_nat i)) (seq 0 32)).
  assert (∀ p c, h !! p = Some c → c = new_FdContext (Z.of_nat p)) as Hl.
  { intros p c [-> _]%lookup_new. done. }
  split; cbn [heap fd_contexts_ kern tickle_fd pending_event_count_ set_contexts]; try done.
  - by intros p c ->%Hl.
  - intros p c ->%Hl. apply ctx_ok_new.
  - intros z Hz. rewrite Hctl, lookup_insert_ne, lookup_empty by done.
    match goal with |- _ = interest_at ?x z => change x with h end. unfold interest_at.
    destruct (z <? 0); [done|]. destruct (h !! Z.to_nat z) as [c|] eqn:Hc; [|done].
    by apply Hl in Hc as ->.
Qed.

Lemma reachable_io_ok s : reachable_io s → io_ok s.
Proof.
  induction 1 as [k tickle s Hk Hs|s e s' _ IH He Hr]; [by eapply new_IOManager_ok|].
  destruct (run_io_ok e s IH He) as (s2 & Hr2 & ?). congruence.
Qed.

(** ** Properties *)

(** C5: whatever the threads do in whatever order, as [event_ok] has it, every context waits
    for exactly the events whose bits are set, [epoll] watches each descriptor for exactly
    these events, and the counter is the number of them; and every section returns, so no
    assertion fails and no null scheduler is used.  [event_ok] wants [AddEvent] to be called
    from a thread with a scheduler, for an event that is not waited for; that of the events
    reported for a descriptor all are still waited for when [Idle] comes to them, or none;
    and that no resize makes the vector smaller. *)
Theorem contexts_agree_with_epoll (s : IOManager) (e : io_event) : reachable_io s → event_ok s e →
  (∀ p c, heap s !! p = Some c →
     (∀ d, if has (events_ c) (bit d) then armed (sel d c) else sel d c = no_context) ∧
     (Z.of_nat p ≠ tickle_fd s → interest (kern s) !! Z.of_nat p = interest_of c)) ∧
  pending_event_count_ s = u64 (Z.of_nat (sum_list_with events_of (heap s))) ∧
  ∃ s', run_io e s = Ret tt s'.
Proof.
  intros Hs%reachable_io_ok He. split_and!.
  - intros p c Hp. split; [apply (io_ctx _ Hs _ _ Hp)|]. intros Ht. rewrite (io_interest _ Hs) by done.
    unfold interest_at. rewrite (proj2 (Z.ltb_ge _ _)), Nat2Z.id, Hp by lia. done.
  - apply (io_pending _ Hs).
  - destruct (run_io_ok e s Hs He) as (s' & ? & _). by exists s'.
Qed.

End laws.

End iomanager.

(** The idle thread sleeps at most three seconds and not beyond the next
    timer, if that is due in less than 2^31 milliseconds; for one due then, the
    conversion to [int] makes the timeout negative, which means to wait for ever. *)
Theorem idle_timeout_range (next_timeout : Z) : 0 ≤ next_timeout < 2 ^ 64 →
  (next_timeout < 2 ^ 31 → idle_timeout next_timeout = Z.min next_timeout MAX_TIMEOUT) ∧
  (next_timeout = 2 ^ 64 - 1 → idle_timeout next_timeout = MAX_TIMEOUT) ∧
  (2 ^ 31 ≤ next_timeout < 2 ^ 32 → idle_timeout next_timeout < 0).
Proof.
  intros Hr. unfold idle_timeout, MAX_TIMEOUT. split_and!; intros H.
  - rewrite (proj2 (Z.eqb_neq _ _)) by lia. rewrite (swrap_small 32 next_timeout) by (unfold in_s; lia).
    destruct (Z.ltb_spec 3000 next_timeout); [by rewrite Z.min_r by lia|].
    rewrite Z.min_l by lia. apply swrap_small; unfold in_s; lia.
  - by rewrite H.
  - rewrite (proj2 (Z.eqb_neq _ _)) by lia.
    assert (s32 next_timeout = next_timeout - 2 ^ 32) as ->.
    { replace next_timeout with ((next_timeout - 2 ^ 32) + 1 * 2 ^ 32) at 1 by lia.
      rewrite swrap_add_pow by lia. apply swrap_small; unfold in_s; lia. }
    rewrite (proj2 (Z.ltb_ge _ _)) by lia.
    replace next_timeout with ((next_timeout - 2 ^ 32) + 1 * 2 ^ 32) at 1 by lia.
    rewrite swrap_add_pow by lia. rewrite swrap_small by (unfold in_s; lia). lia.
Qed.

Lemma idle_timeout_range_witness : (0 ≤ 5000 < 2 ^ 64) ∧ idle_timeout 5000 = 3000.
Proof. split; [done|]. by rewrite (proj1 (idle_timeout_range 5000 ltac:(done)) ltac:(done)). Defined.

(** ** A concrete [epoll]: the interest list itself *)

#[export] Instance map_epoll : Epoll := {
  kernel := gmap Z Z;
  interest k := k;
  epoll_ctl op fd ev k :=
    match op, k !! fd with
    | EPOLL_CTL_ADD, None | EPOLL_CTL_MOD, Some _ => Some (<[fd := ev]> k)
    | EPOLL_CTL_DEL, Some _ => Some (delete fd k)
    | _, _ => None
    end
}.
#[export] Instance map_epoll_laws : EpollLaws map_epoll.
Proof. split; intros fd ev k k'; cbn in *; destruct (k !! fd); intros Hk; congruence. Qed.

Definition start : IOManager :=
  match new_IOManager ∅ 3 with Some s => s | None => mkIOManager _ [] [] 0 ∅ [] 3 end.
Definition caller : Caller := mkCaller (Some 0%nat) 1 kExec.

Lemma start_reachable : reachable_io start.
Proof. by apply (io_new ∅ 3). Qed.

Definition after (e : io_event) (s : IOManager) : IOManager :=
  match run_io e s with Ret _ s' => s' | _ => s end.

Lemma add_ok s p c event f : heap s !! p = Some c → (Z.of_nat p =? tickle_fd s) = false →
  event = kRead ∨ event = kWrite → has (events_ c) event = false → event_ok s (EAdd caller p event f).
Proof.
  intros Hp Ht%Z.eqb_neq Hev Hno. cbn. split_and!; try done; [by eapply lookup_lt_Some|].
  intros c' Hc'. congruence.
Qed.

Lemma after_add s p c event f : reachable_io s → heap s !! p = Some c →
  (Z.of_nat p =? tickle_fd s) = false → event = kRead ∨ event = kWrite → has (events_ c) event = false →
  reachable_io (after (EAdd caller p event f) s).
Proof.
  intros Hs Hp Ht Hev Hno. pose proof (add_ok s p c event f Hp Ht Hev Hno) as He.
  destruct (run_io_ok _ s (reachable_io_ok s Hs) He) as (s' & Hr & _). unfold after. rewrite Hr.
  by eapply io_step.
Qed.

(** A descriptor that waits for both events. *)
Definition reading : IOManager := after (EAdd caller 5 kRead (Some 10%nat)) start.
Definition both : IOManager := after (EAdd caller 5 kWrite (Some 11%nat)) reading.

Lemma reading_reachable : reachable_io reading.
Proof.
  assert (heap start !! 5%nat = Some (new_FdContext 5)) as Hp by (vm_compute; reflexivity).
  assert ((Z.of_nat 5 =? tickle_fd start) = false) as Ht by (vm_compute; reflexivity).
  exact (after_add start 5 _ kRead (Some 10%nat) start_reachable Hp Ht (or_introl eq_refl) eq_refl).
Qed.

Lemma both_reachable : reachable_io both.
Proof.
  assert (heap reading !! 5%nat =
    Some (mkFdContext (mkEventContext (Some 0%nat) None (Some 10%nat)) no_context 5 1)) as Hp by (vm_compute; reflexivity).
  assert ((Z.of_nat 5 =? tickle_fd reading) = false) as Ht by (vm_compute; reflexivity).
  exact (after_add reading 5 _ kWrite (Some 11%nat) reading_reachable Hp Ht (or_intror eq_refl) eq_refl).
Qed.

Definition final {A} (r : result IOManager A) : IOManager := match r with Ret _ s => s | _ => start end.

(** [Idle] uses the events of a context as they are when it takes the lock, not
    when [epoll_wait] returned.  If reading and writing were reported and the read
    event is deleted in between, the assertion of [TriggerEvent] fails. *)
Theorem Idle_asserts_after_DelEvent : ∃ s1 s2, reachable_io s1 ∧
  (∃ c, heap s1 !! 5%nat = Some c ∧ real_events (events_ c) (Z.lor EPOLLIN EPOLLOUT) = events_ c) ∧
  DelEvent 5 kRead s1 = Ret true s2 ∧
  Idle_event 5 (Z.lor EPOLLIN EPOLLOUT) s2 = Undef assert_failed.
Proof.
  exists both, (final (DelEvent 5 kRead both)). split; [exact both_reachable|]. split.
  - exists (mkFdContext (mkEventContext (Some 0%nat) None (Some 10%nat))
      (mkEventContext (Some 0%nat) None (Some 11%nat)) 5 5). split; vm_compute; reflexivity.
  - split; vm_compute; reflexivity.
Qed.

(** Two calls of [AddEvent] race on the size of the vector.  Both find it too
    small; the one for the larger descriptor makes it 150 long and adds its event,
    then the other makes it 60 long: the event is still watched, but [DelEvent]
    and [CancelAll] say that there is none. *)
Theorem AddEvent_resize_races : ∃ s1 s2 s3,
  AddEvent_find 100 start = Ret None start ∧ AddEvent_find 40 start = Ret None start ∧
  AddEvent_grow 100 start = Ret 100%nat s1 ∧
  AddEvent_locked caller 100 100 kRead (Some 10%nat) s1 = Ret 0 s2 ∧
  AddEvent_grow 40 s2 = Ret 40%nat s3 ∧
  DelEvent 100 kRead s3 = Ret false s3 ∧ CancelAll 100 s3 = Ret false s3 ∧
  interest (kern s3) !! 100 = Some (Z.lor EPOLLET kRead).
Proof.
  set (s1 := final (AddEvent_grow 100 start)).
  set (s2 := final (AddEvent_locked caller 100 100 kRead (Some 10%nat) s1)).
  exists s1, s2, (final (AddEvent_grow 40 s2)). split_and!; vm_compute; reflexivity.
Qed.

Lemma contexts_agree_with_epoll_witness : tasks both ≠ [] ∧
  (∀ p c, heap both !! p = Some c →
     (∀ d, if has (events_ c) (bit d) then armed (sel d c) else sel d c = no_context) ∧
     (Z.of_nat p ≠ tickle_fd both → interest (kern both) !! Z.of_nat p = interest_of c)) ∧
  pending_event_count_ both = u64 (Z.of_nat (sum_list_with events_of (heap both))) ∧
  ∃ s', run_io (ECancelAll 5) both = Ret tt s'.
Proof.
  split; [by vm_compute|]. apply (contexts_agree_with_epoll _ (ECancelAll 5) both_reachable).
  split; [apply Nat.ltb_lt; by vm_compute|by vm_compute].
Defined.

