(* ===== verification/EventLoop.v ===== *)
(** * The workers of an IO manager: [IOManager::Idle] with its timers, its events and its pipe

    The loop of [Scheduler::Run] and that of [IOManager::Idle], cut into sections, for
    any number of workers over one [TimerManager] ([Timer.v]) and the contexts of one
    [IOManager] ([IOManager.v]).  Of the tasks only their number matters here.

    The pipe wakes the workers: its reading end is in epoll, edge triggered, so that a
    byte written to it is reported to one wait, if it has not been read by then.  A
    thread in [Tickle] is counted in [asked] until it has looked for idle threads and in
    [writing] until it has written its byte; when it is a worker, that the worker does
    not go on before is not kept. *)
From stdpp Require Import list gmap sets.
From S2P Require Import Prelude Scheduler IOManager Timer.
Local Open Scope Z_scope.

(** ** State *)

(** What [epoll_wait] reports: the pipe, or flags for a descriptor. *)
Inductive report := RPipe | RFd (p : nat) (revents : Z).
#[export] Instance report_eq_dec : EqDecision report.
Proof. solve_decision. Defined.

(** Where a worker is.  In [Run] or a task, [term]: its idle fiber has ended; about to
    enter the idle fiber; at the head of the loop of [Idle]; about to wait [timeout]
    milliseconds, which it computed at [base]; waiting since [start]; behind the wait with
    what it reported; among the reports; leaving the idle fiber; out of [Run]. *)
Inductive phase :=
  | PRun (term : bool) | PGoing | PLooping | PArmed (base timeout : Z) | PWaiting (base timeout start : Z)
  | PWoken (evs : list report) | PEvents (evs : list report) | PLeaving (term : bool) | PDone.

Record Loop `{Epoll} := mkLoop {
  tm : TimerManager; io : IOManager; clock : Z;
  queued : nat; idle_thread_count_ : Z; workers : list phase;
  tickle_bytes : nat; edge : bool; asked : nat; writing : nat }.

Section loop.
Context `{E : Epoll}.
Implicit Types s : Loop.

Definition set_tm t s := mkLoop _ t (io s) (clock s) (queued s) (idle_thread_count_ s) (workers s) (tickle_bytes s) (edge s) (asked s) (writing s).
Definition set_io i s := mkLoop _ (tm s) i (clock s) (queued s) (idle_thread_count_ s) (workers s) (tickle_bytes s) (edge s) (asked s) (writing s).
Definition set_clock c s := mkLoop _ (tm s) (io s) c (queued s) (idle_thread_count_ s) (workers s) (tickle_bytes s) (edge s) (asked s) (writing s).
Definition set_queued q s := mkLoop _ (tm s) (io s) (clock s) q (idle_thread_count_ s) (workers s) (tickle_bytes s) (edge s) (asked s) (writing s).
Definition set_idle n s := mkLoop _ (tm s) (io s) (clock s) (queued s) n (workers s) (tickle_bytes s) (edge s) (asked s) (writing s).
Definition set_workers l s := mkLoop _ (tm s) (io s) (clock s) (queued s) (idle_thread_count_ s) l (tickle_bytes s) (edge s) (asked s) (writing s).
Definition set_pipe n e s := mkLoop _ (tm s) (io s) (clock s) (queued s) (idle_thread_count_ s) (workers s) n e (asked s) (writing s).
Definition set_ticklers a w s := mkLoop _ (tm s) (io s) (clock s) (queued s) (idle_thread_count_ s) (workers s) (tickle_bytes s) (edge s) a w.

Definition ask (n : nat) : M Loop unit := modify (λ s, set_ticklers (asked s + n) (writing s) s).
Definition go (w : nat) (ph : phase) : M Loop unit := modify (λ s, set_workers (<[w := ph]> (workers s)) s).

(** ** Operations *)

(** [Schedule] of some tasks: [Tickle] when there was none. *)
Definition Schedule (tasks : nat) : M Loop unit :=
  s ← get;
  modify (set_queued (queued s + tasks)) ;;
  if (queued s =? 0)%nat && (0 <? tasks)%nat then ask 1 else mret tt.

(** An operation on the timers; [OnTimerInsertedAtFront] is [Tickle]. *)
Definition on_timers {A} (m : M TimerManager A) : M Loop A :=
  s ← get;
  r ← zoom tm set_tm m;
  s' ← get;
  ask (notified (tm s') - notified (tm s)) ;;
  mret r.

(** An operation on the contexts, with the tasks it schedules. *)
Definition on_contexts {A} (m : M IOManager A) : M Loop A :=
  s ← get;
  r ← zoom io set_io m;
  s' ← get;
  Schedule (length (scheduled (io s')) - length (scheduled (io s))) ;;
  mret r.

(** The two halves of [Tickle]. *)
Definition Tickle_look : M Loop unit :=
  modify (λ s, set_ticklers (asked s - 1) (if IO_Tickle (idle_thread_count_ s) then writing s + 1 else writing s) s).
Definition Tickle_write : M Loop unit :=
  modify (λ s, set_pipe (tickle_bytes s + 1) true (set_ticklers (asked s) (writing s - 1) s)).

(** [Scheduler::Run]: take a task, with [tickle_me] if more are left, or go idle. *)
Definition Run_next (w : nat) (term : bool) : M Loop unit :=
  s ← get;
  match queued s with
  | S n => modify (set_queued n) ;; if (0 <? n)%nat then ask 1 else mret tt
  | O => go w (if term then PDone else PGoing)
  end.
Definition Run_enter (w : nat) : M Loop unit :=
  modify (λ s, set_idle (idle_thread_count_ s + 1) s) ;; go w PLooping.
Definition Run_leave (w : nat) (term : bool) : M Loop unit :=
  modify (λ s, set_idle (idle_thread_count_ s - 1) s) ;; go w (PRun term).

(** [Idle]: the head of its loop; entering the wait; its end; the timers; one report. *)
Definition Idle_head (w : nat) (scheduler_stopping : bool) : M Loop unit :=
  s ← get;
  next_timeout ← on_timers (GetNextTimer (clock s));
  s' ← get;
  go w (if IO_Stopping next_timeout scheduler_stopping (io s') then PLeaving true
        else PArmed (clock s) (idle_timeout next_timeout)).
Definition Idle_wait (w : nat) (base timeout : Z) : M Loop unit :=
  s ← get; go w (PWaiting base timeout (clock s)).
(** [None]: interrupted; the wait is repeated with the same timeout. *)
Definition Idle_woken (w : nat) (base timeout : Z) (rt : option (list report)) : M Loop unit :=
  match rt with
  | None => go w (PArmed base timeout)
  | Some evs =>
    (if decide (RPipe ∈ evs) then modify (λ s, set_pipe (tickle_bytes s) false s) else mret tt) ;;
    go w (PWoken evs)
  end.
Definition Idle_timers (w now_timer : nat) (evs : list report) : M Loop unit :=
  s ← get;
  cbs ← on_timers (ListExpiredCb (clock s) now_timer);
  Schedule (length cbs) ;;
  go w (PEvents evs).
Definition Idle_report (w : nat) (evs : list report) : M Loop unit :=
  match evs with
  | [] => go w (PLeaving false)
  | RPipe :: evs => modify (λ s, set_pipe 0 (edge s) s) ;; go w (PEvents evs)
  | RFd p revents :: evs => on_contexts (Idle_event p revents) ;; go w (PEvents evs)
  end.

(** What a worker does next: [Stopping] of the scheduler, the address of the timer that
    [ListExpiredCb] makes, and the answer of [epoll_wait] are given. *)
Definition worker_step (w : nat) (scheduler_stopping : bool) (now_timer : nat) (rt : option (list report)) : M Loop unit :=
  s ← get;
  ph ← deref (workers s !! w);
  match ph with
  | PRun term => Run_next w term
  | PGoing => Run_enter w
  | PLooping => Idle_head w scheduler_stopping
  | PArmed base timeout => Idle_wait w base timeout
  | PWaiting base timeout _ => Idle_woken w base timeout rt
  | PWoken evs => Idle_timers w now_timer evs
  | PEvents evs => Idle_report w evs
  | PLeaving term => Run_leave w term
  | PDone => mret tt
  end.

(** ** Runs *)

Inductive action :=
  | AClock (d : Z)
  | AWorker (w : nat) (scheduler_stopping : bool) (now_timer : nat) (rt : option (list report))
  | ATimer (c : call)
  | AContext (e : io_event)
  | ASchedule
  | ALook
  | AWrite.

Definition run_action (a : action) : M Loop unit :=
  match a with
  | AClock d => modify (λ s, set_clock (clock s + d) s)
  | AWorker w stop q rt => worker_step w stop q rt
  | ATimer c => on_timers (run_call c)
  | AContext e => on_contexts (run_io e)
  | ASchedule => Schedule 1
  | ALook => Tickle_look
  | AWrite => Tickle_write
  end.

(** A report of the pipe can be had. *)
Definition ready s : bool := edge s && (0 <? tickle_bytes s)%nat.

(** What [epoll_wait] can answer: nothing when its time is over, the pipe when it is
    ready; and the flags of a descriptor are of those that are waited for. *)
Definition can_answer s (timeout start : Z) (rt : option (list report)) : Prop :=
  match rt with
  | None => True
  | Some [] => 0 ≤ timeout ∧ start + timeout ≤ clock s
  | Some evs => RPipe ∈ evs → ready s = true
  end.

(** A call with a time reads the clock; the durations of timers are below 2^31. *)
Definition clocked (now : Z) (c : call) : Prop :=
  match c with
  | CAddTimer _ t ms _ _ => t = now ∧ 0 ≤ ms < 2 ^ 31
  | CReset _ t ms _ => t = now ∧ 0 ≤ ms < 2 ^ 31
  | CRefresh _ t | CGetNextTimer t => t = now
  | CCancel _ => True
  | CListExpiredCb _ _ => False
  end.

(** What can happen before [Stop]. *)
Definition may (a : action) s : Prop :=
  match a with
  | AClock d => 0 ≤ d ∧ clock s + d < 2 ^ 63
  | AWorker w stop _ rt => stop = false ∧
    match workers s !! w with
    | None | Some PDone => False
    | Some (PWaiting _ timeout start) => can_answer s timeout start rt
    | Some (PEvents (RFd p revents :: _)) => event_ok (io s) (EIdle p revents)
    | _ => True
    end
  | ATimer c => clocked (clock s) c ∧ call_ok c (tm s)
  | AContext e => match e with EIdle _ _ => False | _ => event_ok (io s) e end
  | ASchedule => True
  | ALook => (0 < asked s)%nat
  | AWrite => (0 < writing s)%nat ∧ Z.of_nat (tickle_bytes s) < 65536
  end.

(** The constructor with [n] workers. *)
Definition new_Loop (n : nat) (now : Z) (i : IOManager) : Loop :=
  mkLoop _ (new_TimerManager now) i now 0 0 (replicate n (PRun false)) 0 false 0 0.

Inductive loop_reachable : Loop → Prop :=
  | loop_new n now k tickle i : (0 < n)%nat → 0 ≤ now < 2 ^ 63 → interest k = ∅ → new_IOManager k tickle = Some i →
      loop_reachable (new_Loop n now i)
  | loop_step a s s' : loop_reachable s → may a s → run_action a s = Ret tt s' → loop_reachable s'.

(** ** The invariant *)

Definition awake (ph : phase) : bool := match ph with PArmed _ _ | PWaiting _ _ _ | PDone => false | _ => true end.
(** Counted among the idle threads. *)
Definition counted (ph : phase) : bool := match ph with PRun _ | PGoing | PDone => false | _ => true end.
(** Not about to end. *)
Definition live (ph : phase) : bool := match ph with PRun term | PLeaving term => negb term | PDone => false | _ => true end.

(** What a wait of [timeout] from [base] on sees in time. *)
Definition in_time (base timeout : Z) (tms : TimerManager) : Prop :=
  0 ≤ timeout ≤ MAX_TIMEOUT ∧ ∀ p, p ∈ timers_ tms → base + timeout ≤ next_at (Timer.heap tms) p `max` base.
Definition covers (tms : TimerManager) (ph : phase) : Prop :=
  match ph with PArmed base timeout | PWaiting base timeout _ => in_time base timeout tms | _ => False end.

Definition wakeful s : Prop :=
  (∃ w ph, workers s !! w = Some ph ∧ awake ph = true) ∨ ready s = true ∨ (0 < asked s + writing s)%nat.
Definition covered s : Prop := ∃ w ph, workers s !! w = Some ph ∧ covers (tm s) ph.

(** The times of the timers in memory. *)
Definition sane (now : Z) (h : gmap nat Timer.Timer) : Prop :=
  ∀ p t, h !! p = Some t → 0 ≤ ms_ t < 2 ^ 31 ∧ ms_ t ≤ next_ t ≤ now + ms_ t.

Record loop_ok s : Prop := {
  lo_timers : timers_ok (tm s);
  lo_sane : sane (clock s) (Timer.heap (tm s));
  lo_clock : 0 ≤ clock s < 2 ^ 63;
  lo_io : io_ok (io s);
  lo_count : idle_thread_count_ s = Z.of_nat (length (filter (λ ph, counted ph = true) (workers s)));
  lo_live : Forall (λ ph, live ph = true) (workers s);
  lo_some : workers s ≠ [];
  lo_tickled : tickled_ (tm s) = true → wakeful s;
  lo_attended : wakeful s ∨ covered s }.

(** Every timer of the one set is due no earlier than some timer of the other. *)
Definition later (a b : TimerManager) : Prop :=
  ∀ p, p ∈ timers_ b → ∃ q, q ∈ timers_ a ∧ next_at (Timer.heap a) q ≤ next_at (Timer.heap b) p.

Lemma later_refl a b : timers_ b = timers_ a → Timer.heap b = Timer.heap a → later a b.
Proof. intros H1 H2 p Hp. exists p. by rewrite H2, <- H1. Qed.

Lemma covers_later a b ph : later a b → covers a ph → covers b ph.
Proof.
  assert (∀ base timeout, later a b → in_time base timeout a → in_time base timeout b) as H.
  { intros base timeout Hl [Ht Hc]. split; [done|]. intros p Hp. destruct (Hl p Hp) as (q & Hq & Hle). specialize (Hc q Hq). lia. }
  destruct ph; cbn; auto.
Qed.

(** *** Calls on the timers *)

Lemma sane_insert now h p t : sane now h → 0 ≤ ms_ t < 2 ^ 31 → ms_ t ≤ next_ t ≤ now + ms_ t → sane now (<[p := t]> h).
Proof. intros Hs H1 H2 q u. destruct (decide (q = p)) as [->|]; [rewrite lookup_insert_eq; by intros [= <-]|]. rewrite lookup_insert_ne by done. apply Hs. Qed.

Lemma sane_later now d h : 0 ≤ d → sane now h → sane (now + d) h.
Proof. intros Hd Hs p t Hp. specialize (Hs p t Hp). lia. Qed.

Lemma u64_time now ms : 0 ≤ now < 2 ^ 63 → 0 ≤ ms < 2 ^ 31 → u64 (now + ms) = now + ms.
Proof. intros. apply wrap_small. unfold in_u. lia. Qed.

Lemma Refresh_quiet p now st b st' : Refresh p now st = Ret b st' → tickled_ st' = tickled_ st ∧ notified st' = notified st.
Proof.
  unfold Refresh. rewrite (bind_Ret _ _ _ _ _ (get_timer_ok p st)). destruct (cb_ _); [|by intros [= <- <-]].
  unfold find_this. unfold mbind, M_bind, get, mret, M_ret. destruct (set_find _ _ _); cbn; by intros [= <- <-].
Qed.

(** What a call of another thread does to the first timer and to the notifications. *)
Record call_kept (now : Z) (st st' : TimerManager) : Prop := {
  ck_timers : timers_ok st';
  ck_sane : sane now (Timer.heap st');
  ck_notified : (notified st ≤ notified st')%nat;
  ck_later : tickled_ st = false → later st st' ∨ (notified st < notified st')%nat;
  ck_tickled : tickled_ st = false → tickled_ st' = true → (notified st < notified st')%nat }.

Lemma watched_kept now c st st' : timers_ok st → scheduling c → call_ok c st → run_call c st = Ret tt st' → sane now (Timer.heap st') →
  (notified st ≤ notified st')%nat → call_kept now st st'.
Proof.
  intros Hok Hc Hcall Hr Hs Hn. destruct (run_call_ok c st Hok Hcall) as (st2 & Hr2 & Hok2). rewrite Hr in Hr2. injection Hr2 as <-.
  assert (tickled_ st = false → watched st st') as Hw.
  { intros Ht. eapply watched_call; [|done..]. split; [done|done|congruence|]. intros _ p Hp. by exists p. }
  split; [done..| |].
  - intros Ht%Hw. destruct Ht as [_ _ Ht Hf]. destruct (tickled_ st'); [right; auto|left]. intros p Hp. by apply Hf.
  - intros Ht%Hw. apply (watched_tickled _ _ Ht).
Qed.

Lemma timer_call_ok now c st : timers_ok st → sane now (Timer.heap st) → 0 ≤ now < 2 ^ 63 → clocked now c → call_ok c st →
  ∃ st', run_call c st = Ret tt st' ∧ call_kept now st st'.
Proof.
  intros Hok Hs Hnow Hc Hcall. destruct c as [p t ms cb r|p|p t|p t ms f|t|]; cbn in Hc; [| | | | |done].
  - destruct Hc as [-> Hms]. destruct (AddTimer_ok p now ms cb r st Hok Hcall) as (st' & Hr & Hok' & _ & Hh & Hn & _).
    exists st'. assert (run_call (CAddTimer p now ms cb r) st = Ret tt st') as Hrun by (cbn; by rewrite (bind_Ret _ _ _ _ _ Hr)).
    split; [done|]. eapply watched_kept; [done|constructor|done|done| |done].
    rewrite Hh. apply sane_insert; cbn; [done|lia|]. rewrite u64_time by lia. lia.
  - destruct Hcall as [t Ht]. destruct (Cancel_ok p t st Hok Ht) as (st' & Hr & Hok' & _ & Hn & _ & Hh).
    exists st'. assert (run_call (CCancel p) st = Ret tt st') as Hrun by (cbn; by rewrite (bind_Ret _ _ _ _ _ Hr)).
    split; [done|]. eapply watched_kept; [done|constructor|by exists t|done| |by rewrite Hn].
    rewrite Hh. apply sane_insert; cbn; [done|apply (Hs p t Ht)..].
  - subst t. destruct Hcall as [t Ht]. destruct (Refresh_ok p t now st Hok Ht) as (st' & Hr & Hok' & Hel & Hh).
    destruct (Refresh_quiet _ _ _ _ _ Hr) as [Htk Hn]. pose proof (Hs p t Ht) as Hpt.
    exists st'. split; [cbn; by rewrite (bind_Ret _ _ _ _ _ Hr)|]. split; [done| |by rewrite Hn| |congruence].
    + rewrite Hh. destruct (decide _); [by apply sane_insert; [done|lia..]|]. apply sane_insert; cbn; [done|lia|]. rewrite u64_time by lia. lia.
    + intros _. left. intros q Hq%Hel. exists q. split; [done|]. rewrite Hh, next_at_insert. destruct (decide (q = p)) as [->|]; [|done].
      unfold next_at. rewrite (timer_at_Some _ _ _ Ht). destruct (decide _); [done|]. cbn. rewrite u64_time by lia. lia.
  - destruct Hc as [-> Hms]. destruct Hcall as [t Ht]. pose proof (Hs p t Ht) as Hpt.
    destruct (Reset_ok p t now ms f st Hok Ht) as (st' & b & Hr & Hok' & _ & Hn & Hcase).
    exists st'. assert (run_call (CReset p now ms f) st = Ret tt st') as Hrun by (cbn; by rewrite (bind_Ret _ _ _ _ _ Hr)).
    split; [done|]. eapply watched_kept; [done|constructor|by exists t|done| |done].
    destruct Hcase as [->|(t' & -> & _ & -> & _)]; [done|]. apply sane_insert; cbn; [done|lia|].
    assert (0 ≤ (if f then now else u64 (next_ t - ms_ t)) ≤ now) as Hst.
    { destruct f; [lia|]. rewrite wrap_small by (unfold in_u; lia). lia. }
    rewrite u64_time by lia. lia.
  - subst t. destruct (GetNextTimer_ok now st Hok) as (d & Hr & _). exists (set_tickled_ false st).
    split; [cbn; by rewrite (bind_Ret _ _ _ _ _ Hr)|]. split; [by destruct Hok|done|done| |done]. intros _. left. by apply later_refl.
Qed.

(** *** Workers *)

Lemma count_insert (l : list phase) w ph ph' : l !! w = Some ph →
  Z.of_nat (length (filter (λ x, counted x = true) (<[w := ph']> l))) =
  Z.of_nat (length (filter (λ x, counted x = true) l)) - Z.b2z (counted ph) + Z.b2z (counted ph').
Proof.
  revert w. induction l as [|x l IH]; intros w Hw; [done|]. destruct w as [|w]; cbn in Hw.
  - injection Hw as ->. change (<[0%nat := ph']> (ph :: l)) with (ph' :: l). rewrite !filter_cons.
    destruct (counted ph), (counted ph'); repeat (destruct (decide _); try congruence); cbn [length Z.b2z]; lia.
  - specialize (IH w Hw). change (<[S w := ph']> (x :: l)) with (x :: <[w := ph']> l). rewrite !filter_cons.
    destruct (decide _); cbn [length]; lia.
Qed.

(** A step that leaves the workers where they are. *)
Lemma env_ok s s' : loop_ok s → workers s' = workers s → idle_thread_count_ s' = idle_thread_count_ s →
  clock s ≤ clock s' < 2 ^ 63 → io_ok (io s') → tm s' = tm s ∨ call_kept (clock s') (tm s) (tm s') → (wakeful s → wakeful s') →
  ((notified (tm s) < notified (tm s'))%nat → wakeful s') → loop_ok s'.
Proof.
  intros [Ht Hs Hc _ Hn Hl Hsome Htk Hat] Hw Hi Hclk Hio Htm Hwake Hnot.
  assert (sane (clock s') (Timer.heap (tm s))) as Hs1.
  { replace (clock s') with (clock s + (clock s' - clock s)) by lia. apply sane_later; [lia|done]. }
  assert (covered s → later (tm s) (tm s') → covered s') as Hcov.
  { intros (w & ph & H1 & H2) Hlt. exists w, ph. rewrite Hw. split; [done|by apply (covers_later (tm s))]. }
  destruct Htm as [Htm|[Hk1 Hk2 Hk3 Hk4 Hk5]].
  - split; rewrite ?Htm, ?Hw, ?Hi; try done; [lia|auto|]. destruct Hat as [|Hat]; [auto|]. right. apply Hcov; [done|]. rewrite Htm. by apply later_refl.
  - split; rewrite ?Hw, ?Hi; try done; [lia| |].
    + destruct (tickled_ (tm s)) eqn:E1; [auto|]. intros Ht'. apply Hnot. by apply Hk5.
    + destruct (tickled_ (tm s)) eqn:E1; [left; auto|]. destruct Hat as [|Hat]; [auto|]. destruct (Hk4 eq_refl); [right; by apply Hcov|left; auto].
Qed.

Lemma quiet_ok s s' : loop_ok s → workers s' = workers s → idle_thread_count_ s' = idle_thread_count_ s → clock s' = clock s → tm s' = tm s →
  io_ok (io s') → (wakeful s → wakeful s') → loop_ok s'.
Proof.
  intros Hok Hw Hi Hc Ht Hio Hwake. pose proof (lo_clock _ Hok). apply (env_ok s); try done; [lia|by left|]. rewrite Ht. lia.
Qed.

(** A step to where a worker is awake. *)
Lemma awake_ok s s' w ph ph' : loop_ok s → workers s !! w = Some ph → workers s' = <[w := ph']> (workers s) →
  idle_thread_count_ s' = idle_thread_count_ s - Z.b2z (counted ph) + Z.b2z (counted ph') → live ph' = true → awake ph' = true →
  clock s' = clock s → timers_ok (tm s') → sane (clock s) (Timer.heap (tm s')) → io_ok (io s') → loop_ok s'.
Proof.
  intros [Ht Hs Hc Hio0 Hn Hl Hsome _ _] Hph Hw Hi Hlive Hawake Hclk Htm Hsane Hio.
  assert (wakeful s') as Hwake.
  { left. exists w, ph'. rewrite Hw. split; [|done]. apply list_lookup_insert_eq. by apply lookup_lt_Some in Hph. }
  split; rewrite ?Hw, ?Hclk; try done.
  - rewrite Hi, Hn, (count_insert _ _ _ _ Hph). done.
  - by apply Forall_insert.
  - intros He. apply (f_equal length) in He. rewrite length_insert in He. apply Hsome. by apply nil_length_inv.
  - by left.
Qed.

(** A step of a worker to where it covers the timers. *)
Lemma asleep_ok s s' w ph ph' : loop_ok s → workers s !! w = Some ph → workers s' = <[w := ph']> (workers s) →
  idle_thread_count_ s' = idle_thread_count_ s → counted ph = true → counted ph' = true → live ph' = true →
  clock s' = clock s → timers_ok (tm s') → sane (clock s) (Timer.heap (tm s')) → io s' = io s →
  (tickled_ (tm s') = true → wakeful s') → wakeful s' ∨ covered s' → loop_ok s'.
Proof.
  intros [Ht Hs Hc Hio0 Hn Hl Hsome _ _] Hph Hw Hi Hcp Hcp' Hlive Hclk Htm Hsane Hio Htk Hat.
  split; rewrite ?Hw, ?Hclk, ?Hio; try done.
  - rewrite Hi, Hn, (count_insert _ _ _ _ Hph), Hcp, Hcp'. lia.
  - by apply Forall_insert.
  - intros He. apply (f_equal length) in He. rewrite length_insert in He. apply Hsome. by apply nil_length_inv.
Qed.

(** A worker that sleeps and goes on sleeping as long. *)
Lemma still_asleep_ok s w ph ph' : loop_ok s → workers s !! w = Some ph → awake ph = false →
  counted ph = true → counted ph' = true → live ph' = true → (covers (tm s) ph → covers (tm s) ph') →
  loop_ok (set_workers (<[w := ph']> (workers s)) s).
Proof.
  intros Hok Hph Haw Hc Hc' Hl Hcov. pose proof Hok as [Ht Hs Hck Hio0 Hn Hlv Hsome Htk Hat].
  assert (wakeful s → wakeful (set_workers (<[w := ph']> (workers s)) s)) as Hwake.
  { intros [(v & x & Hv & Hx)|[|]]; [|by right; left|by right; right]. left. exists v, x. cbn. rewrite list_lookup_insert_ne; [done|].
    intros ->. rewrite Hph in Hv. injection Hv as ->. congruence. }
  eapply (asleep_ok s _ w ph ph'); try done; [auto|].
  destruct Hat as [Hat|(v & x & Hv & Hx)]; [left; auto|]. right. cbn. destruct (decide (v = w)) as [->|Hne].
  - rewrite Hph in Hv. injection Hv as <-. exists w, ph'. cbn. rewrite list_lookup_insert_eq by (by apply lookup_lt_Some in Hph). auto.
  - exists v, x. cbn. by rewrite list_lookup_insert_ne.
Qed.

(** *** Every step *)

Context `{!EpollLaws E}.

Lemma Schedule_asks n s : ∃ a, Schedule n s = Ret tt (set_ticklers (asked s + a) (writing s) (set_queued (queued s + n) s)).
Proof.
  unfold Schedule, mbind, M_bind, get, modify. destruct ((queued s =? 0)%nat && (0 <? n)%nat); cbn.
  - by exists 1%nat.
  - exists 0%nat. rewrite Nat.add_0_r. by destruct s.
Qed.

Lemma on_timers_ok {A} (m : M TimerManager A) s r t : m (tm s) = Ret r t →
  on_timers m s = Ret r (set_ticklers (asked s + (notified t - notified (tm s))) (writing s) (set_tm t s)).
Proof. intros Hm. unfold on_timers, mbind, M_bind, get, zoom. by rewrite Hm. Qed.

Lemma on_contexts_ok {A} (m : M IOManager A) s r i : m (io s) = Ret r i →
  ∃ a q, on_contexts m s = Ret r (set_ticklers (asked s + a) (writing s) (set_queued q (set_io i s))).
Proof.
  intros Hm. unfold on_contexts. rewrite (bind_Ret get _ _ s s) by done. rewrite (bind_Ret _ _ _ _ _ (zoom_Ret io set_io m s r i Hm)).
  rewrite (bind_Ret get _ _ (set_io i s) (set_io i s)) by done.
  destruct (Schedule_asks (length (scheduled (io (set_io i s))) - length (scheduled (io s))) (set_io i s)) as (a & Ha).
  rewrite (bind_Ret _ _ _ _ _ Ha). by eexists _, _.
Qed.

Lemma wakeful_asked s s' : workers s' = workers s → ready s' = ready s → (asked s + writing s ≤ asked s' + writing s')%nat → wakeful s → wakeful s'.
Proof.
  intros Hw Hr Ha [(w & ph & H1 & H2)|[Hx|Hx]]; [left; exists w, ph; by rewrite Hw|right; left; congruence|right; right; lia].
Qed.

(** The call of a worker that goes to the head of its loop. *)
Lemma idle_timeout_in_time s : loop_ok s → ∃ d, GetNextTimer (clock s) (tm s) = Ret d (set_tickled_ false (tm s)) ∧
  in_time (clock s) (idle_timeout d) (tm s).
Proof.
  intros [Ht Hs Hc _ _ _ _ _ _]. destruct (GetNextTimer_ok (clock s) (tm s) Ht) as (d & Hr & Hnil & Hcons). exists d. split; [done|].
  destruct (timers_ (tm s)) as [|first l] eqn:El.
  - rewrite (Hnil eq_refl), (proj1 (proj2 (idle_timeout_range (2 ^ 64 - 1) ltac:(lia))) eq_refl). split; [done|]. rewrite El.
    intros p Hp. by apply elem_of_nil in Hp.
  - destruct (Hcons first l eq_refl) as [Hmin ->]. assert (first ∈ timers_ (tm s)) as Hin by (rewrite El; by left).
    destruct (ok_members _ Ht _ Hin) as [t Hft]. specialize (Hs first t Hft). unfold next_at in *. rewrite (timer_at_Some _ _ _ Hft) in *.
    unfold in_time, MAX_TIMEOUT in *. rewrite El. destruct (Z.leb_spec (next_ t) (clock s)) as [Hle|Hlt].
    + split; [done|]. intros p Hp. change (idle_timeout 0) with 0. lia.
    + assert (u64 (next_ t - clock s) = next_ t - clock s) as -> by (apply wrap_small; unfold in_u; lia).
      rewrite (proj1 (idle_timeout_range (next_ t - clock s) ltac:(lia))) by lia. unfold MAX_TIMEOUT. split; [lia|].
      intros p Hp. specialize (Hmin p Hp). unfold next_at in *. lia.
Qed.

Lemma Idle_head_ok s w : loop_ok s → workers s !! w = Some PLooping → ∃ s', Idle_head w false s = Ret tt s' ∧ loop_ok s'.
Proof.
  intros Hok Hw. destruct (idle_timeout_in_time s Hok) as (d & Hr & Hin). unfold Idle_head.
  rewrite (bind_Ret get _ _ s s) by done. rewrite (bind_Ret _ _ _ _ _ (on_timers_ok _ _ _ _ Hr)).
  set (s1 := set_ticklers _ _ _). rewrite (bind_Ret get _ _ s1 s1) by done.
  assert (IO_Stopping d false (io s1) = false) as -> by (unfold IO_Stopping; by rewrite andb_false_r).
  eexists. split; [reflexivity|]. pose proof Hok as [Ht Hs Hc Hio Hn Hl Hsome Htk Hat].
  eapply (asleep_ok s _ w PLooping); try done; [by destruct Ht|]. right. exists w, (PArmed (clock s) (idle_timeout d)). cbn.
  rewrite list_lookup_insert_eq by (by apply lookup_lt_Some in Hw). done.
Qed.

Lemma sane_fired now h : ∀ p t, h !! p = Some t → sane now h → 0 ≤ now < 2 ^ 63 →
  0 ≤ ms_ (fired now t) < 2 ^ 31 ∧ ms_ (fired now t) ≤ next_ (fired now t) ≤ now + ms_ (fired now t).
Proof.
  intros p t Hp Hs Hnow. specialize (Hs p t Hp). unfold fired. destruct (recurring_ t); cbn; [|lia]. rewrite u64_time by lia. lia.
Qed.

Lemma Idle_timers_ok s w q evs : loop_ok s → workers s !! w = Some (PWoken evs) → ∃ s', Idle_timers w q evs s = Ret tt s' ∧ loop_ok s'.
Proof.
  intros Hok Hw. pose proof Hok as [Ht Hs Hc Hio Hn Hl Hsome Htk Hat].
  destruct (ListExpiredCb_ok (clock s) q (tm s) Ht) as (ex & rest & st & Hr & Hok' & Hex & _ & _ & _ & Hlk).
  unfold Idle_timers. rewrite (bind_Ret get _ _ s s) by done. rewrite (bind_Ret _ _ _ _ _ (on_timers_ok _ _ _ _ Hr)).
  set (s1 := set_ticklers _ _ _). edestruct (Schedule_asks (length (map (λ p, cb_ (timer_at (Timer.heap (tm s)) p)) ex)) s1) as (a & Ha).
  rewrite (bind_Ret _ _ _ _ _ Ha). eexists. split; [reflexivity|]. eapply (awake_ok s _ w (PWoken evs)); try done; [cbn; lia|].
  cbn. intros p t. rewrite Hlk. destruct (decide (p ∈ ex)) as [Hp|]; [|apply Hs].
  intros [= <-]. assert (p ∈ timers_ (tm s)) as Hin by (rewrite Hex; apply elem_of_app; by left).
  destruct (ok_members _ Ht _ Hin) as [t Hpt]. rewrite (timer_at_Some _ _ _ Hpt). by eapply sane_fired.
Qed.

Lemma Idle_report_ok s w evs : loop_ok s → workers s !! w = Some (PEvents evs) → may (AWorker w false 0 None) s →
  ∃ s', Idle_report w evs s = Ret tt s' ∧ loop_ok s'.
Proof.
  intros Hok Hw [_ Hm]. rewrite Hw in Hm. pose proof Hok as [Ht Hs Hc Hio Hn Hl Hsome Htk Hat]. destruct evs as [|[|p revents] evs]; cbn [Idle_report].
  - eexists. split; [reflexivity|]. eapply (awake_ok s _ w (PEvents [])); try done. cbn. lia.
  - eexists. split; [reflexivity|]. eapply (awake_ok s _ w (PEvents (RPipe :: evs))); try done. cbn. lia.
  - destruct (run_io_ok (EIdle p revents) (io s) Hio Hm) as (i & Hr & Hi). destruct (on_contexts_ok (Idle_event p revents) s tt i Hr) as (a & n & Ha).
    rewrite (bind_Ret _ _ _ _ _ Ha). eexists. split; [reflexivity|]. eapply (awake_ok s _ w (PEvents (RFd p revents :: evs))); try done. cbn. lia.
Qed.

Lemma worker_step_ok s w q rt : loop_ok s → may (AWorker w false q rt) s → ∃ s', worker_step w false q rt s = Ret tt s' ∧ loop_ok s'.
Proof.
  intros Hok [_ Hm]. destruct (workers s !! w) as [ph|] eqn:Hw; [|done]. unfold worker_step.
  rewrite (bind_Ret get _ _ s s) by done. rewrite Hw. rewrite (bind_Ret (deref (Some ph)) _ s ph s) by done.
  pose proof Hok as [Ht Hs Hc Hio Hn Hl Hsome Htk Hat]. assert (live ph = true) as Hlive by (by eapply Forall_lookup in Hl).
  destruct ph as [term| | |base timeout|base timeout start|evs|evs|term|]; try done.
  - destruct term; [done|]. unfold Run_next. rewrite (bind_Ret get _ _ s s) by done. destruct (queued s) as [|n].
    + eexists. split; [reflexivity|]. eapply (awake_ok s _ w (PRun false) PGoing); try done. cbn. lia.
    + destruct (0 <? n)%nat; (eexists; split; [reflexivity|]); (eapply (quiet_ok s); try done);
        apply wakeful_asked; cbn; try done; lia.
  - eexists. split; [reflexivity|]. eapply (awake_ok s _ w PGoing PLooping); try done. cbn. lia.
  - by apply Idle_head_ok.
  - eexists. split; [reflexivity|]. by eapply (still_asleep_ok s w (PArmed base timeout)).
  - destruct rt as [evs|]; [|eexists; split; [reflexivity|]; by eapply (still_asleep_ok s w (PWaiting base timeout start) (PArmed base timeout))].
    unfold Idle_woken. destruct (decide (RPipe ∈ evs)); (eexists; split; [reflexivity|]);
      (eapply (awake_ok s _ w (PWaiting base timeout start) (PWoken evs)); try done; cbn; lia).
  - by apply Idle_timers_ok.
  - apply Idle_report_ok; [done..|]. split; [done|]. by rewrite Hw.
  - destruct term; [done|]. eexists. split; [reflexivity|]. eapply (awake_ok s _ w (PLeaving false) (PRun false)); try done. cbn. lia.
Qed.

(** A thread in [Tickle] that finds no idle thread: a worker is awake. *)
Lemma none_idle_awake s : loop_ok s → idle_thread_count_ s ≤ 0 → ∃ w ph, workers s !! w = Some ph ∧ awake ph = true.
Proof.
  intros Hok Hi. destruct Hok as [_ _ _ _ Hn Hl Hsome _ _]. destruct (workers s) as [|ph l]; [done|]. exists 0%nat, ph. split; [done|].
  apply Forall_cons_1 in Hl as [Hph _]. destruct ph; try done; rewrite filter_cons_True in Hn by done; cbn [length] in Hn; lia.
Qed.

Lemma run_action_ok a s : loop_ok s → may a s → ∃ s', run_action a s = Ret tt s' ∧ loop_ok s'.
Proof.
  intros Hok Hm. pose proof Hok as [Ht Hs Hc Hio Hn Hl Hsome Htk Hat]. destruct a as [d|w stop q rt|c|e| | |]; cbn [run_action].
  - eexists. split; [reflexivity|]. eapply (env_ok s); try done; [cbn in *; lia|by left|cbn; lia].
  - destruct Hm as [-> Hm]. apply worker_step_ok; [done|by split].
  - destruct Hm as [Hck Hcall]. destruct (timer_call_ok (clock s) c (tm s) Ht Hs Hc Hck Hcall) as (t & Hr & Hk).
    rewrite (on_timers_ok _ _ _ _ Hr). eexists. split; [reflexivity|]. eapply (env_ok s); try done; [cbn; lia|by right| |].
    + apply wakeful_asked; cbn; try done; lia.
    + intros Hlt. right. right. cbn in *. lia.
  - assert (event_ok (io s) e) as He by (by destruct e). destruct (run_io_ok e (io s) Hio He) as (i & Hr & Hi).
    destruct (on_contexts_ok (run_io e) s tt i Hr) as (b & n & ->). eexists. split; [reflexivity|]. eapply (quiet_ok s); try done.
    apply wakeful_asked; cbn; try done; lia.
  - destruct (Schedule_asks 1 s) as (b & ->). eexists. split; [reflexivity|]. eapply (quiet_ok s); try done.
    apply wakeful_asked; cbn; try done; lia.
  - eexists. split; [reflexivity|]. eapply (quiet_ok s); try done. cbn in Hm. unfold IO_Tickle.
    destruct (Z.ltb_spec 0 (idle_thread_count_ s)) as [|Hi].
    + intros [Hx|[Hx|Hx]]; [by left|by right; left|right; right; cbn in *; lia].
    + intros _. left. exact (none_idle_awake s Hok Hi).
  - eexists. split; [reflexivity|]. eapply (quiet_ok s); try done.
    intros _. right. left. unfold ready. cbn. by destruct (tickle_bytes s + 1)%nat eqn:E1; [lia|].
Qed.

Lemma new_Loop_ok n now k tickle i : (0 < n)%nat → 0 ≤ now < 2 ^ 63 → interest k = ∅ → new_IOManager k tickle = Some i → loop_ok (new_Loop n now i).
Proof.
  intros Hn Hnow Hk Hi. destruct n as [|n]; [lia|]. split; cbn.
  - apply timers_ok_new.
  - intros p t Hp. by rewrite lookup_empty in Hp.
  - done.
  - by eapply new_IOManager_ok.
  - induction n as [|n IH]; [done|]. cbn in *. apply IH. lia.
  - constructor; [done|]. by apply Forall_replicate.
  - done.
  - done.
  - left. left. by exists 0%nat, (PRun false).
Qed.

Lemma loop_reachable_ok s : loop_reachable s → loop_ok s.
Proof.
  induction 1 as [n now k tickle i ? ? ? ?|a s s' _ IH Hm Hr]; [by eapply new_Loop_ok|].
  destruct (run_action_ok a s IH Hm) as (s1 & Hr1 & ?). congruence.
Qed.

(** ** Properties *)

(** A worker that waits. *)
Definition waits (ph : phase) : Prop := match ph with PWaiting _ _ _ => True | _ => False end.

(** C6: Before [Stop], whatever threads do as [may] has it, to tasks, to descriptors as [event_ok]
    of [IOManager.v] has it, and to timers of durations below 2 to the 31 milliseconds: every
    step returns, and when all workers wait and no thread is in [Tickle], either some worker
    can be woken by the pipe, or there is one whose wait, as it was computed when it began
    and if no signal starts it over ([interrupted_wait_oversleeps]), is over no later than
    the first timer is due, and after three seconds at most. *)
Theorem timers_not_overslept s : loop_reachable s →
  (∀ a, may a s → ∃ s', run_action a s = Ret tt s') ∧
  (Forall waits (workers s) → asked s = 0%nat → writing s = 0%nat →
   ∃ w base timeout start, workers s !! w = Some (PWaiting base timeout start) ∧
     (may (AWorker w false 0 (Some [RPipe])) s ∨
      0 ≤ timeout ≤ MAX_TIMEOUT ∧ ∀ p, p ∈ timers_ (tm s) → base + timeout ≤ next_at (Timer.heap (tm s)) p `max` base)).
Proof.
  intros Hs%loop_reachable_ok. split.
  - intros a Hm. destruct (run_action_ok a s Hs Hm) as (s' & ? & _). by exists s'.
  - intros Hall Ha Hw. rewrite Forall_lookup in Hall. destruct Hs as [_ _ _ _ _ _ Hsome _ [Hwake|(w & ph & Hph & Hcov)]].
    + assert (ready s = true) as Hr.
      { destruct Hwake as [(w & ph & Hph & Hawake)|[|]]; [|done|lia]. specialize (Hall w ph Hph). by destruct ph. }
      destruct (workers s) as [|ph l] eqn:El; [done|]. specialize (Hall 0%nat ph eq_refl). destruct ph as [| | | |base timeout start| | | |]; try done.
      exists 0%nat, base, timeout, start. split; [done|]. left. cbn. rewrite El. cbn. by split.
    + specialize (Hall w ph Hph). destruct ph as [| | | |base timeout start| | | |]; try done. exists w, base, timeout, start. split; [done|]. by right.
Qed.
End loop.

(** ** Examples *)

(** The manager of [IOManager.v], with one worker, at the time 0. *)
Definition one_worker : Loop := new_Loop 1 0 IOManager.start.
Definition after (a : action) (s : Loop) : Loop := match run_action a s with Ret _ s' => s' | _ => s end.

Lemma one_worker_reachable : loop_reachable one_worker.
Proof. apply (loop_new 1 0 ∅ 3 IOManager.start); [lia|done|reflexivity|vm_compute; reflexivity]. Qed.

Lemma after_reachable a s : loop_reachable s → may a s → loop_reachable (after a s).
Proof.
  intros Hs Hm. destruct (run_action_ok a s (loop_reachable_ok s Hs) Hm) as (s' & Hr & _). unfold after. rewrite Hr. by eapply loop_step.
Qed.

(** A step of the worker. *)
Definition step : action := AWorker 0 false 9 None.

(** The worker found no task and is about to enter its idle fiber. *)
Definition going : Loop := after step one_worker.
Lemma going_reachable : loop_reachable going.
Proof. apply after_reachable; [apply one_worker_reachable|by vm_compute]. Qed.

(** It waits for a timer due at 1000. *)
Definition waiting : Loop := after step (after step (after step (after ALook (after (ATimer (CAddTimer 1 0 1000 (Some 10%nat) false)) going)))).
Lemma waiting_reachable : loop_reachable waiting.
Proof.
  do 3 (apply after_reachable; [|by vm_compute]). apply after_reachable; [|vm_compute; lia]. apply after_reachable; [apply going_reachable|].
  vm_compute. split; [split; [done|split; [done|done]]|done].
Qed.

Lemma timers_not_overslept_witness : workers waiting = [PWaiting 0 1000 0] ∧
  ∃ w base timeout start, workers waiting !! w = Some (PWaiting base timeout start) ∧
     (may (AWorker w false 0 (Some [RPipe])) waiting ∨
      0 ≤ timeout ≤ MAX_TIMEOUT ∧ ∀ p, p ∈ timers_ (tm waiting) → base + timeout ≤ next_at (Timer.heap (tm waiting)) p `max` base).
Proof.
  split; [vm_compute; reflexivity|]. apply (proj2 (timers_not_overslept waiting waiting_reachable)); [|vm_compute; reflexivity..].
  assert (workers waiting = [PWaiting 0 1000 0]) as -> by (vm_compute; reflexivity). constructor; [exact I|constructor].
Defined.

(** A task that is scheduled when the worker has found the queue empty, but before it counts
    as idle wakes nobody, and the worker waits three seconds with the task queued. *)
Theorem task_overslept : ∃ s : Loop, loop_reachable s ∧ queued s = 1%nat ∧ workers s = [PWaiting 0 3000 0] ∧
  asked s = 0%nat ∧ writing s = 0%nat ∧ ready s = false.
Proof.
  exists (after step (after step (after step (after ALook (after ASchedule going))))). split; [|vm_compute; done].
  do 3 (apply after_reachable; [|by vm_compute]). apply after_reachable; [|vm_compute; lia]. by apply after_reachable; [apply going_reachable|].
Qed.

Lemma interrupted s base timeout start : loop_reachable s → workers s = [PWaiting base timeout start] →
  loop_reachable (after step (after step s)) ∧ after step (after step s) = set_workers [PWaiting base timeout (clock s)] s.
Proof.
  intros Hs Hw. assert (after step s = set_workers [PArmed base timeout] s) as E1 by (destruct s; cbn in *; by subst).
  split; [|destruct s; cbn in *; by subst]. apply after_reachable; [apply after_reachable; [done|]|].
  - destruct s. cbn in *. by subst.
  - rewrite E1. by destruct s.
Qed.

(** A wait that a signal interrupts starts over with the whole timeout: under a signal
    every half second a timer of one second is still waited for after any time. *)
Theorem interrupted_wait_oversleeps (k : nat) : Z.of_nat k < 2 ^ 40 → ∃ s : Loop, loop_reachable s ∧ clock s = 500 * Z.of_nat k ∧
  workers s = [PWaiting 0 1000 (500 * Z.of_nat k)] ∧ ready s = false ∧
  timers_ (tm s) = [1%nat] ∧ next_at (Timer.heap (tm s)) 1 = 1000.
Proof.
  induction k as [|k IH]; intros Hk.
  - exists waiting. split; [apply waiting_reachable|vm_compute; done].
  - destruct IH as (s & Hs & Hc & Hw & Hr & Ht & Hn); [lia|].
    set (s1 := after (AClock 500) s). assert (loop_reachable s1) as H1 by (apply after_reachable; [done|cbn; lia]).
    destruct (interrupted s1 0 1000 (500 * Z.of_nat k) H1 Hw) as [H3 E3]. exists (after step (after step s1)). split; [done|].
    rewrite E3. cbn. rewrite Hc. split_and!; try done; [lia|do 2 f_equal; lia].
Qed.

Lemma interrupted_wait_oversleeps_witness : ∃ s : Loop, loop_reachable s ∧ clock s = 5000 ∧
  workers s = [PWaiting 0 1000 5000] ∧ ready s = false ∧ timers_ (tm s) = [1%nat] ∧ next_at (Timer.heap (tm s)) 1 = 1000.
Proof. exact (interrupted_wait_oversleeps 10 ltac:(lia)). Defined.
