(* ===== verification/FdManager.v ===== *)
(** * Descriptors: [server_frame/base/fd_manager.{h,cc}] and the hooks that change them

    The table of contexts, what the kernel knows of a descriptor, and the hooked
    [socket], [accept], [close], [fcntl], [ioctl] and [setsockopt] of [hook.cc].  A
    section under a lock is one step; [FdManager::Get] is two of them. *)
From stdpp Require Import list gmap.
From S2P Require Import Prelude.
Local Open Scope Z_scope.

(** ** Data *)

Record FdContext := mkFd {
  is_init_ : bool; is_socket_ : bool; is_sys_nonblock_ : bool; is_user_nonblock_ : bool; is_closed_ : bool;
  fd_ : Z; recv_timeout_ : Z; send_timeout_ : Z }.

(** What the kernel knows of an open descriptor: whether it is a socket, and its
    status flags. *)
Record kfile := mkFile { k_sock : bool; k_flags : Z }.

(** What the hooks ask of others: of the IO manager and of the kernel. *)
Inductive request := RCancelAll (fd : Z) | RClose (fd : Z) | RSetTimeout (fd optname ms : Z).

(** The vector of pointers [datas_], the contexts they point into, the open
    descriptors, and the requests made. *)
Record Fds := mkFds {
  datas_ : list (option nat); ctxs : list FdContext; kernel : gmap Z kfile; requests : list request }.

Definition set_datas (f : list (option nat) → list (option nat)) (s : Fds) : Fds := mkFds (f (datas_ s)) (ctxs s) (kernel s) (requests s).
Definition set_ctxs (f : list FdContext → list FdContext) (s : Fds) : Fds := mkFds (datas_ s) (f (ctxs s)) (kernel s) (requests s).
Definition set_kernel (f : gmap Z kfile → gmap Z kfile) (s : Fds) : Fds := mkFds (datas_ s) (ctxs s) (f (kernel s)) (requests s).
Definition ask (r : request) : M Fds unit := modify (λ s, mkFds (datas_ s) (ctxs s) (kernel s) (requests s ++ [r])).

Definition O_NONBLOCK : Z := 2048.
Definition no_timeout : Z := 2 ^ 64 - 1.
Definition SO_RCVTIMEO : Z := 20.
Definition SO_SNDTIMEO : Z := 21.
Definition SOL_SOCKET : Z := 1.
Definition FIONBIO : Z := 21537.

(** [flags & O_NONBLOCK], [flags | O_NONBLOCK], [flags & ~O_NONBLOCK]. *)
Definition nonblock (flags : Z) : bool := negb (Z.land flags O_NONBLOCK =? 0).
Definition with_nonblock (flags : Z) : Z := Z.lor flags O_NONBLOCK.
Definition without_nonblock (flags : Z) : Z := Z.land flags (Z.lnot O_NONBLOCK).

Section fds.
(** The flags [F_SETFL] can change. *)
Context (settable : Z).

(** *** The kernel *)

Definition fcntl_getfl (fd : Z) : M Fds Z := λ s,
  Ret (match kernel s !! fd with Some f => k_flags f | None => -1 end) s.
Definition fcntl_setfl (fd flags : Z) : M Fds Z := λ s,
  match kernel s !! fd with
  | Some f =>
      let new := Z.lor (Z.land (k_flags f) (Z.lnot settable)) (Z.land flags settable) in
      Ret 0 (set_kernel <[fd := mkFile (k_sock f) new]> s)
  | None => Ret (-1) s
  end.
(** [ioctl(FIONBIO)] sets or clears the flag of the descriptor. *)
Definition ioctl_fionbio (fd : Z) (on : bool) : M Fds Z := λ s,
  match kernel s !! fd with
  | Some f =>
      Ret 0 (set_kernel <[fd := mkFile (k_sock f) (if on then with_nonblock (k_flags f) else without_nonblock (k_flags f))]> s)
  | None => Ret (-1) s
  end.
Definition close_f (fd : Z) : M Fds Z := λ s,
  match kernel s !! fd with
  | Some _ => (ask (RClose fd);; mret 0) (set_kernel (delete fd) s)
  | None => (ask (RClose fd);; mret (-1)) s
  end.

(** *** FdContext *)

Definition ctx_at (p : nat) : M Fds FdContext := λ s, deref (ctxs s !! p) s.
Definition put_ctx (p : nat) (x : FdContext) : M Fds unit := modify (set_ctxs <[p := x]>).

(** The constructor, with [Init], and the new pointer. *)
Definition make_nonblocking (fd : Z) : M Fds unit :=
  flags ← fcntl_getfl fd;
  if negb (nonblock flags) then fcntl_setfl fd (with_nonblock flags);; mret tt else mret tt.
Definition new_ctx (x : FdContext) : M Fds nat := λ s, Ret (length (ctxs s)) (set_ctxs (λ h, h ++ [x]) s).
Definition FdContext_new (fd : Z) : M Fds nat :=
  s ← get;
  let init := bool_decide (is_Some (kernel s !! fd)) in
  let sock := match kernel s !! fd with Some f => k_sock f | None => false end in
  (if sock : bool then make_nonblocking fd else mret tt);;
  new_ctx (mkFd init sock sock false false fd no_timeout no_timeout).

Definition SetUserNonblock (p : nat) (v : bool) : M Fds unit :=
  x ← ctx_at p;
  put_ctx p (mkFd (is_init_ x) (is_socket_ x) (is_sys_nonblock_ x) v (is_closed_ x) (fd_ x) (recv_timeout_ x) (send_timeout_ x)).
Definition SetTimeout (p : nat) (type v : Z) : M Fds unit :=
  x ← ctx_at p;
  put_ctx p (if type =? SO_RCVTIMEO
    then mkFd (is_init_ x) (is_socket_ x) (is_sys_nonblock_ x) (is_user_nonblock_ x) (is_closed_ x) (fd_ x) (u64 v) (send_timeout_ x)
    else mkFd (is_init_ x) (is_socket_ x) (is_sys_nonblock_ x) (is_user_nonblock_ x) (is_closed_ x) (fd_ x) (recv_timeout_ x) (u64 v)).
Definition GetTimeout (x : FdContext) (type : Z) : Z := if type =? SO_RCVTIMEO then recv_timeout_ x else send_timeout_ x.

(** *** FdContextManager *)

Definition FdContextManager_new (k : gmap Z kfile) : Fds := mkFds (replicate 64 None) [] k [].

(** The section of [Get] under the read lock: an answer, or go on and create. *)
Definition Get_read (fd : Z) (auto_create : bool) : M Fds (option (option nat)) := λ s,
  if fd <? 0 then Ret (Some None) s
  else match datas_ s !! Z.to_nat fd with
  | None => Ret (if auto_create then None else Some None) s
  | Some (Some p) => Ret (Some (Some p)) s
  | Some None => Ret (if auto_create then None else Some None) s
  end.
(** [resize(fd * 1.5)] *)
Definition resize (n : nat) (l : list (option nat)) : list (option nat) := take n l ++ replicate (n - length l) None.
(** The section under the write lock. *)
Definition Get_create (fd : Z) : M Fds nat :=
  p ← FdContext_new fd;
  s ← get;
  (if Z.of_nat (length (datas_ s)) <=? fd then modify (set_datas (resize (Z.to_nat (fd * 3 / 2)))) else mret tt);;
  s ← get;
  (if Z.to_nat fd <? length (datas_ s) then modify (set_datas <[Z.to_nat fd := Some p]>) else undef out_of_bounds)%nat;;
  mret p.
Definition Get (fd : Z) (auto_create : bool) : M Fds (option nat) :=
  r ← Get_read fd auto_create;
  match r with Some p => mret p | None => Some <$> Get_create fd end.

Definition Del (fd : Z) : M Fds unit := λ s,
  if Z.of_nat (length (datas_ s)) <=? fd then Ret tt s
  else if fd <? 0 then Undef out_of_bounds
  else Ret tt (set_datas <[Z.to_nat fd := None]> s).

(** ** The hooks *)

Section hooks.
(** Whether hooks are on in the calling thread. *)
Context (t_hook_enable : bool).

(** [socket] and [accept], with the descriptor the kernel opens for them, or none
    and an error. *)
Definition open_socket (new : option (Z * Z)) : M Fds Z := λ s,
  match new with
  | Some (fd, flags) => Ret fd (set_kernel <[fd := mkFile true flags]> s)
  | None => Ret (-1) s
  end.
Definition hook_socket (new : option (Z * Z)) : M Fds Z :=
  fd ← open_socket new;
  if negb t_hook_enable || (fd =? -1) then mret fd
  else Get fd true;; mret fd.
(** The end of [accept], after [DoIo]. *)
Definition hook_accept (new : option (Z * Z)) : M Fds Z :=
  fd ← open_socket new;
  if 0 <=? fd then Get fd true;; mret fd else mret fd.

(** [close], in a thread with an IO manager or without. *)
Definition hook_close (has_iom : bool) (fd : Z) : M Fds Z :=
  if negb t_hook_enable then close_f fd
  else
    ctx ← Get fd false;
    match ctx with
    | Some _ => (if has_iom then ask (RCancelAll fd) else mret tt);; Del fd
    | None => mret tt
    end;;
    close_f fd.

(** A context that is managed: [ctx && !ctx->IsClose() && ctx->IsSocket()]. *)
Definition managed (fd : Z) : M Fds (option (nat * FdContext)) :=
  ctx ← Get fd false;
  match ctx with
  | Some p => x ← ctx_at p; mret (if is_closed_ x || negb (is_socket_ x) then None else Some (p, x))
  | None => mret None
  end.

(** [fcntl(F_SETFL)] and [fcntl(F_GETFL)]; these do not look at [t_hook_enable]. *)
Definition hook_setfl (fd arg : Z) : M Fds Z :=
  ctx ← managed fd;
  match ctx with
  | None => fcntl_setfl fd arg
  | Some (p, x) =>
      SetUserNonblock p (nonblock arg);;
      fcntl_setfl fd (if is_sys_nonblock_ x then with_nonblock arg else without_nonblock arg)
  end.
Definition hook_getfl (fd : Z) : M Fds Z :=
  arg ← fcntl_getfl fd;
  ctx ← managed fd;
  mret (match ctx with
        | None => arg
        | Some (_, x) => if is_user_nonblock_ x then with_nonblock arg else without_nonblock arg
        end).

(** [ioctl(FIONBIO)] *)
Definition hook_fionbio (fd : Z) (on : bool) : M Fds Z :=
  ctx ← managed fd;
  (match ctx with Some (p, _) => SetUserNonblock p on | None => mret tt end);;
  ioctl_fionbio fd on.

(** [setsockopt], of a time in seconds and microseconds for the timeouts. *)
Definition hook_setsockopt (fd level optname tv_sec tv_usec : Z) : M Fds unit :=
  (if t_hook_enable && (level =? SOL_SOCKET) && ((optname =? SO_RCVTIMEO) || (optname =? SO_SNDTIMEO)) then
     ctx ← Get fd false;
     match ctx with
     | Some p => SetTimeout p optname (tv_sec * 1000 + Z.quot tv_usec 1000)
     | None => mret tt
     end
   else mret tt);;
  ask (RSetTimeout fd optname (tv_sec * 1000 + Z.quot tv_usec 1000)).

(** The beginning of [DoIo]: the call goes straight to the kernel, fails with
    [EBADF], or is managed with a timeout. *)
Inductive entry := Direct | Bad | Managed (timeout : Z).
Definition DoIo_enter (fd timeout_so : Z) : M Fds entry :=
  if negb t_hook_enable then mret Direct
  else
    ctx ← Get fd false;
    match ctx with
    | None => mret Direct
    | Some p =>
        x ← ctx_at p;
        mret (if is_closed_ x then Bad
              else if negb (is_socket_ x) || is_user_nonblock_ x then Direct
              else Managed (GetTimeout x timeout_so))
    end.
(** That of [connect_with_timeout]. *)
Definition connect_enter (fd timeout_ms : Z) : M Fds entry :=
  if negb t_hook_enable then mret Direct
  else
    ctx ← Get fd false;
    match ctx with
    | None => mret Bad
    | Some p =>
        x ← ctx_at p;
        mret (if is_closed_ x then Bad
              else if negb (is_socket_ x) || is_user_nonblock_ x then Direct
              else Managed timeout_ms)
    end.
End hooks.
End fds.
