(* ===== verification/FdLaws.v ===== *)
(** * What the table of descriptors guarantees

    The invariant of the table under every hook, the flag a program sees and the flag
    the kernel has, and two ways to break it. *)
From stdpp Require Import list gmap.
From S2P Require Import Prelude FdManager.
Local Open Scope Z_scope.

(** ** Flags *)

Lemma nonblock_bit flags : nonblock flags = Z.testbit flags 11.
Proof.
  unfold nonblock. destruct (Z.testbit flags 11) eqn:Hb.
  - apply negb_true_iff, Z.eqb_neq. intros H. apply (f_equal (λ z, Z.testbit z 11)) in H.
    by rewrite Z.land_spec, Hb in H.
  - apply negb_false_iff, Z.eqb_eq, Z.bits_inj'. intros i Hi. rewrite Z.land_spec, Z.testbit_0_l.
    change O_NONBLOCK with (2 ^ 11). rewrite Z.pow2_bits_eqb by lia.
    destruct (Z.eqb_spec 11 i) as [<-|]; [by rewrite Hb|by rewrite andb_false_r].
Qed.

Lemma testbit_with flags i : 0 ≤ i → Z.testbit (with_nonblock flags) i = Z.testbit flags i || (i =? 11).
Proof.
  intros Hi. unfold with_nonblock. change O_NONBLOCK with (2 ^ 11). rewrite Z.lor_spec, Z.pow2_bits_eqb by lia.
  by rewrite (Z.eqb_sym 11 i).
Qed.

Lemma testbit_without flags i : 0 ≤ i → Z.testbit (without_nonblock flags) i = Z.testbit flags i && negb (i =? 11).
Proof.
  intros Hi. unfold without_nonblock. change O_NONBLOCK with (2 ^ 11).
  rewrite Z.land_spec, Z.lnot_spec, Z.pow2_bits_eqb by lia. by rewrite (Z.eqb_sym 11 i).
Qed.

(** ** The invariant *)

Section table.
Context (settable : Z) (settable_nonblock : Z.testbit settable 11 = true).

(** A context in the table belongs to an open socket, which does not block. *)
Definition entry_ok (s : Fds) (fd : nat) (p : nat) : Prop :=
  (∃ user r w, ctxs s !! p = Some (mkFd true true true user false (Z.of_nat fd) r w)) ∧
  ∃ f, kernel s !! Z.of_nat fd = Some f ∧ k_sock f = true ∧ nonblock (k_flags f) = true.

Definition table_ok (s : Fds) : Prop :=
  (64 ≤ length (datas_ s))%nat ∧
  ∀ fd p, datas_ s !! fd = Some (Some p) → entry_ok s fd p.

Lemma new_table_ok k : table_ok (FdContextManager_new k).
Proof.
  split; [simpl; lia|]. intros fd p. unfold FdContextManager_new. cbn [datas_]. intros Hp.
  apply lookup_replicate in Hp as [? _]. done.
Qed.

(** Running a call: what it returns and leaves satisfies [Q]; it never throws. *)
Definition runs {A} (m : M Fds A) (Q : A → Fds → Prop) (s : Fds) : Prop :=
  match m s with Ret a s' => Q a s' | _ => False end.

Lemma runs_ret {A} (a : A) (Q : A → Fds → Prop) s : Q a s → runs (mret a) Q s.
Proof. done. Qed.

Lemma runs_bind {A B} (m : M Fds A) (k : A → M Fds B) Q s : runs m (λ a, runs (k a) Q) s → runs (m ≫= k) Q s.
Proof. unfold runs, mbind, M_bind. by destruct (m s). Qed.

Lemma runs_mono {A} (m : M Fds A) (P Q : A → Fds → Prop) s : runs m P s → (∀ a s', P a s' → Q a s') → runs m Q s.
Proof. unfold runs. destruct (m s); naive_solver. Qed.

Lemma runs_fmap {A B} (f : A → B) (m : M Fds A) Q s : runs m (λ a, Q (f a)) s → runs (f <$> m) Q s.
Proof. intros Hm. apply runs_bind. eapply runs_mono; [done|]. intros a s' HQ. by apply runs_ret. Qed.

Lemma runs_get (Q : Fds → Fds → Prop) s : Q s s → runs get Q s.
Proof. done. Qed.

Lemma runs_modify f (Q : unit → Fds → Prop) s : Q tt (f s) → runs (modify f) Q s.
Proof. done. Qed.

(** Finding a context: the table has it, has none, or it has to be created. *)
Definition found (s : Fds) (fd : Z) (p : nat) : Prop := 0 ≤ fd ∧ datas_ s !! Z.to_nat fd = Some (Some p).
Definition absent (s : Fds) (fd : Z) : Prop := ∀ p, ¬ found s fd p.

Lemma Get_read_ok fd auto s : runs (Get_read fd auto) (λ r s', s' = s ∧
  match r with
  | Some (Some p) => found s fd p
  | Some None => absent s fd
  | None => auto = true ∧ 0 ≤ fd ∧ absent s fd
  end) s.
Proof.
  unfold runs, Get_read, absent, found. destruct (Z.ltb_spec fd 0); [split; [done|]; intros p [? _]; lia|].
  destruct (datas_ s !! Z.to_nat fd) as [[p|]|] eqn:E; [done|destruct auto; naive_solver..].
Qed.

Lemma Get_found fd s : runs (Get settable fd false) (λ r s', s' = s ∧
  match r with Some p => found s fd p | None => absent s fd end) s.
Proof.
  apply runs_bind. eapply runs_mono; [apply Get_read_ok|]. intros [[p|]|] s' [-> H]; [by apply runs_ret..|by destruct H].
Qed.

(** The kernel. *)
Lemma setfl_nonblock fd flags s f : kernel s !! fd = Some f → nonblock flags = true →
  ∃ g, k_sock g = k_sock f ∧ nonblock g.(k_flags) = true ∧
    fcntl_setfl settable fd flags s = Ret 0 (set_kernel <[fd := g]> s).
Proof.
  intros Hf Hn. eexists. unfold fcntl_setfl. rewrite Hf. split_and!; [|..|reflexivity]; [done|]. simpl.
  rewrite nonblock_bit in *. by rewrite Z.lor_spec, !Z.land_spec, Hn, settable_nonblock, orb_true_r.
Qed.

Lemma nonblock_with flags : nonblock (with_nonblock flags) = true.
Proof. rewrite nonblock_bit, testbit_with by lia. by rewrite orb_true_r. Qed.

(** What is done to the kernel's files keeps every managed one non-blocking. *)
Lemma table_kernel s fd g : table_ok s → (k_sock g = true ∧ nonblock (k_flags g) = true) ∨
  absent s fd → table_ok (set_kernel <[fd := g]> s).
Proof.
  intros [Hl Ht] Hg. split; [done|]. intros i p Hp. destruct (Ht i p Hp) as [Hc (f & Hf & Hs & Hn)]. split; [done|].
  simpl. destruct (decide (fd = Z.of_nat i)) as [->|Hne].
  - exists g. rewrite lookup_insert_eq. split; [done|]. destruct Hg as [?|Hg]; [done|]. destruct (Hg p). split; [lia|by rewrite Nat2Z.id].
  - exists f. by rewrite lookup_insert_ne.
Qed.

(** Creating a context for an open socket. *)
Lemma make_nonblocking_ok fd f s : table_ok s → kernel s !! fd = Some f → k_sock f = true →
  runs (make_nonblocking settable fd) (λ _ s', ∃ g, k_sock g = true ∧ nonblock (k_flags g) = true ∧
    s' = set_kernel <[fd := g]> s) s.
Proof.
  intros Hs Hf Hsock. unfold make_nonblocking. apply runs_bind. unfold runs at 1, fcntl_getfl. rewrite Hf.
  destruct (nonblock (k_flags f)) eqn:Hn; simpl.
  - apply runs_ret. exists f. split_and!; [done..|]. unfold set_kernel. rewrite insert_id by done. by destruct s.
  - destruct (setfl_nonblock fd (with_nonblock (k_flags f)) s f Hf (nonblock_with _)) as (g & Hg1 & Hg2 & Hg).
    apply runs_bind. unfold runs. rewrite Hg. exists g. split_and!; [congruence|done..].
Qed.

(** The vector after [Get_create]. *)
Lemma length_resize n l : length (resize n l) = n.
Proof. unfold resize. rewrite length_app, length_take, length_replicate. lia. Qed.

Lemma resize_lookup n l i p : resize n l !! i = Some (Some p) → l !! i = Some (Some p).
Proof.
  unfold resize. intros [Hi|[_ Hi]]%lookup_app_Some; [by apply lookup_take_Some in Hi as [? _]|].
  by apply lookup_replicate in Hi as [? _].
Qed.

(** A new context at its place. *)
Lemma table_new s l i f : table_ok s → (64 ≤ length l)%nat → (∀ j q, l !! j = Some (Some q) → datas_ s !! j = Some (Some q)) →
  kernel s !! Z.of_nat i = Some f → k_sock f = true → nonblock (k_flags f) = true →
  table_ok (mkFds (<[i := Some (length (ctxs s))]> l)
    (ctxs s ++ [mkFd true true true false false (Z.of_nat i) no_timeout no_timeout]) (kernel s) (requests s)).
Proof.
  intros [_ Ht] Hl Hsub Hf Hsock Hn. split; [simpl; by rewrite length_insert|]. intros j q Hq. simpl in Hq.
  apply list_lookup_insert_Some in Hq as [(<- & [= <-] & _)|[_ Hq]].
  - split; [|by exists f]. exists false, no_timeout, no_timeout. simpl. by rewrite list_lookup_middle.
  - destruct (Ht j q (Hsub j q Hq)) as [(user & r & w & Hc) Hk]. split; [|done].
    exists user, r, w. simpl. by apply lookup_app_l_Some.
Qed.

Lemma Get_create_ok fd f s : table_ok s → 0 ≤ fd → kernel s !! fd = Some f → k_sock f = true →
  runs (Get_create settable fd) (λ p s', table_ok s' ∧ found s' fd p ∧ p = length (ctxs s) ∧
    length (ctxs s') = S (length (ctxs s))) s.
Proof.
  intros Hs Hfd Hf Hsock. unfold Get_create, FdContext_new. apply runs_bind, runs_bind, runs_get. rewrite Hf, Hsock.
  rewrite bool_decide_true by done. apply runs_bind. eapply runs_mono; [by eapply make_nonblocking_ok|].
  intros _ s1 (g & Hg1 & Hg2 & ->). unfold runs at 1, new_ctx. apply runs_bind, runs_get, runs_bind.
  set (s1 := set_kernel <[fd := g]> s). assert (table_ok s1) as Hs1 by (apply table_kernel; auto).
  assert (kernel s1 !! Z.of_nat (Z.to_nat fd) = Some g) as Hg by (rewrite Z2Nat.id by done; apply lookup_insert_eq).
  assert (∀ l, (64 ≤ length l)%nat → (Z.to_nat fd < length l)%nat → (∀ j q, l !! j = Some (Some q) → datas_ s1 !! j = Some (Some q)) →
    runs (s2 ← get; (if Z.to_nat fd <? length (datas_ s2) then modify (set_datas <[Z.to_nat fd := Some (length (ctxs s1))]>)
                     else undef out_of_bounds)%nat;; mret (length (ctxs s1)))
      (λ p s', table_ok s' ∧ found s' fd p ∧ p = length (ctxs s) ∧ length (ctxs s') = S (length (ctxs s)))
      (mkFds l (ctxs s1 ++ [mkFd true true true false false fd no_timeout no_timeout]) (kernel s1) (requests s1))) as Hend.
  { intros l Hl Hlt Hsub. apply runs_bind, runs_get, runs_bind. cbn [datas_]. rewrite (proj2 (Nat.ltb_lt _ _)) by done.
    apply runs_modify, runs_ret.
    split; [|split; [split; [done|]; by apply list_lookup_insert_eq|split; [done|simpl; rewrite length_app; simpl; lia]]].
    pose proof (table_new s1 l (Z.to_nat fd) g Hs1 Hl Hsub Hg Hg1 Hg2) as Hn. rewrite Z2Nat.id in Hn by done. exact Hn. }
  cbn [set_ctxs datas_]. destruct (Z.leb_spec (Z.of_nat (length (datas_ s1))) fd).
  - apply runs_modify. destruct Hs1 as [Hl _].
    assert (fd + 1 <= fd * 3 / 2) by (apply Z.div_le_lower_bound; lia).
    apply Hend; rewrite ?length_resize; [lia|lia|]. apply resize_lookup.
  - apply runs_ret. apply Hend; [apply Hs1|lia|done].
Qed.

(** A context that is managed, and one whose settings change. *)
Lemma managed_ok fd s : table_ok s → runs (managed settable fd) (λ r s', s' = s ∧
  match r with
  | Some (p, x) => found s fd p ∧ ctxs s !! p = Some x ∧ is_sys_nonblock_ x = true
  | None => absent s fd
  end) s.
Proof.
  intros Hs. unfold managed. apply runs_bind. eapply runs_mono; [apply Get_found|]. intros [p|] s' [-> H]; [|by apply runs_ret].
  pose proof H as [Hfd Hp]. destruct (proj2 Hs _ _ Hp) as [(user & r & w & Hc) _]. apply runs_bind.
  unfold runs at 1, ctx_at. rewrite Hc. by apply runs_ret.
Qed.

Lemma table_put_ctx s p user r w user' r' w' i :
  table_ok s → ctxs s !! p = Some (mkFd true true true user false i r w) →
  table_ok (set_ctxs <[p := mkFd true true true user' false i r' w']> s).
Proof.
  intros [Hl Ht] Hp. split; [done|]. intros j q Hq. destruct (Ht j q Hq) as [(u & r1 & w1 & Hc) Hk]. split; [|done].
  simpl. destruct (decide (p = q)) as [->|Hpq].
  - rewrite list_lookup_insert_eq by (by eapply lookup_lt_Some). simplify_eq. by do 3 eexists.
  - rewrite list_lookup_insert_ne by done. by do 3 eexists.
Qed.

Lemma found_ctx s fd p : table_ok s → found s fd p → ∃ user r w f,
  ctxs s !! p = Some (mkFd true true true user false fd r w) ∧
  kernel s !! fd = Some f ∧ k_sock f = true ∧ nonblock (k_flags f) = true.
Proof.
  intros Hs [Hfd Hp]. destruct (proj2 Hs _ _ Hp) as [(user & r & w & Hc) (f & Hf)]. rewrite Z2Nat.id in * by done.
  by exists user, r, w, f.
Qed.

Lemma SetUserNonblock_ok s fd p v : table_ok s → found s fd p →
  runs (SetUserNonblock p v) (λ _ s', table_ok s' ∧ datas_ s' = datas_ s ∧ kernel s' = kernel s ∧
    ∃ x, ctxs s' !! p = Some x ∧ is_user_nonblock_ x = v) s.
Proof.
  intros Hs Hf. destruct (found_ctx s fd p Hs Hf) as (user & r & w & f & Hc & _). unfold SetUserNonblock.
  apply runs_bind. unfold runs at 1, ctx_at. rewrite Hc. apply runs_modify.
  split_and!; [by eapply table_put_ctx|done..|]. eexists. simpl. by rewrite list_lookup_insert_eq by (by eapply lookup_lt_Some).
Qed.

Lemma SetTimeout_ok s fd p ty v : table_ok s → found s fd p → runs (SetTimeout p ty v) (λ _, table_ok) s.
Proof.
  intros Hs Hf. destruct (found_ctx s fd p Hs Hf) as (user & r & w & f & Hc & _). unfold SetTimeout.
  apply runs_bind. unfold runs at 1, ctx_at. rewrite Hc. apply runs_modify. destruct (ty =? SO_RCVTIMEO); by eapply table_put_ctx.
Qed.

(** A descriptor without a context is free to change or to go. *)
Lemma absent_closed s fd : table_ok s → kernel s !! fd = None → absent s fd.
Proof. intros Hs Hk p Hp. destruct (found_ctx s fd p Hs Hp) as (? & ? & ? & f & _ & Hf & _). congruence. Qed.

Lemma setfl_ok s fd arg : table_ok s → absent s fd ∨ nonblock arg = true → runs (fcntl_setfl settable fd arg) (λ _, table_ok) s.
Proof.
  intros Hs Hor. destruct (kernel s !! fd) as [f|] eqn:Hf.
  - destruct Hor as [Ha|Hn].
    + unfold runs, fcntl_setfl. rewrite Hf. apply table_kernel; [done|by right].
    + destruct (setfl_nonblock fd arg s f Hf Hn) as (g & Hg1 & Hg2 & Hg). unfold runs. rewrite Hg. split; [apply Hs|].
      intros i p Hp. destruct (proj2 Hs i p Hp) as [Hc (h & Hh & Hh1 & Hh2)]. split; [done|]. simpl.
      destruct (decide (fd = Z.of_nat i)) as [->|Hne]; [|exists h; by rewrite lookup_insert_ne].
      exists g. rewrite lookup_insert_eq. simplify_eq. by split_and!; [|congruence|].
  - unfold runs, fcntl_setfl. by rewrite Hf.
Qed.

Lemma close_ok s fd : table_ok s → absent s fd → runs (close_f fd) (λ _, table_ok) s.
Proof.
  intros Hs Ha. unfold runs, close_f. destruct (kernel s !! fd) eqn:Hf; [|done]. split; [apply Hs|].
  intros i p Hp. destruct (proj2 Hs i p Hp) as [Hc (h & Hh)]. split; [done|]. exists h. simpl.
  rewrite lookup_delete_ne; [done|]. intros ->. apply (Ha p). split; [lia|by rewrite Nat2Z.id].
Qed.

(** ** The hooks *)

Section hooks.

Inductive hook_call :=
  | HSocket (new : option (Z * Z)) | HAccept (new : option (Z * Z)) | HFile (fd flags : Z)
  | HClose (has_iom : bool) (fd : Z) | HSetfl (fd arg : Z) | HGetfl (fd : Z) | HFionbio (fd : Z) (v : bool)
  | HSetsockopt (fd level optname tv_sec tv_usec : Z) | HDoIo (fd timeout_so : Z) | HConnect (fd timeout_ms : Z).

(** A call from a thread whose hooks are on; [HFile] opens a descriptor that is no
    socket. *)
Definition run_hook (c : hook_call) : M Fds unit :=
  match c with
  | HSocket new => hook_socket settable true new;; mret tt
  | HAccept new => hook_accept settable new;; mret tt
  | HFile fd flags => modify (set_kernel <[fd := mkFile false flags]>)
  | HClose has_iom fd => hook_close settable true has_iom fd;; mret tt
  | HSetfl fd arg => hook_setfl settable fd arg;; mret tt
  | HGetfl fd => hook_getfl settable fd;; mret tt
  | HFionbio fd v => hook_fionbio settable fd v;; mret tt
  | HSetsockopt fd level optname tv_sec tv_usec => hook_setsockopt settable true fd level optname tv_sec tv_usec
  | HDoIo fd timeout_so => DoIo_enter settable true fd timeout_so;; mret tt
  | HConnect fd timeout_ms => connect_enter settable true fd timeout_ms;; mret tt
  end.

(** The kernel opens descriptors that are not open; [FIONBIO] is used to switch the
    flag on only. *)
Definition hook_valid (s : Fds) (c : hook_call) : Prop :=
  match c with
  | HSocket (Some (fd, _)) | HAccept (Some (fd, _)) | HFile fd _ => 0 ≤ fd ∧ kernel s !! fd = None
  | HFionbio _ v => v = true
  | _ => True
  end.

Lemma open_then_Get s fd flags : table_ok s → 0 ≤ fd → kernel s !! fd = None →
  runs (Get settable fd true) (λ _, table_ok) (set_kernel <[fd := mkFile true flags]> s).
Proof.
  intros Hs Hfd Hk. set (s1 := set_kernel _ s).
  assert (table_ok s1) as Hs1 by (apply table_kernel; [done|]; right; by apply absent_closed).
  unfold Get. apply runs_bind. eapply runs_mono; [apply Get_read_ok|]. intros [r|] s' [-> H]; [by apply runs_ret|].
  apply runs_fmap. eapply runs_mono; [apply (Get_create_ok fd (mkFile true flags))|]; [done|done|apply lookup_insert_eq|done|].
  by intros p s' [? _].
Qed.

Lemma opened_ok s fd flags : table_ok s → 0 ≤ fd → kernel s !! fd = None →
  runs (Get settable fd true;; mret fd) (λ _, table_ok) (set_kernel <[fd := mkFile true flags]> s).
Proof.
  intros Hs Hfd Hk. apply runs_bind. eapply runs_mono; [by apply open_then_Get|]. intros r s' Hs'. by apply runs_ret.
Qed.

(** A call whose answer is dropped. *)
Lemma runs_drop {A} (m : M Fds A) s : runs m (λ _, table_ok) s → runs (m;; mret tt) (λ _, table_ok) s.
Proof. intros Hm. apply runs_bind. eapply runs_mono; [done|]. intros a s' Hs'. by apply runs_ret. Qed.

Lemma hook_close_ok iom fd s : table_ok s → runs (hook_close settable true iom fd) (λ _, table_ok) s.
Proof.
  intros Hs. unfold hook_close. apply runs_bind. eapply runs_mono; [apply Get_found|].
  intros [p|] s1 [-> H]; [|by apply runs_bind, runs_ret, close_ok].
  apply runs_bind, runs_bind. eapply (runs_mono _ (λ _ s1, table_ok s1 ∧ datas_ s1 = datas_ s)).
  { destruct iom; [by apply runs_modify|by apply runs_ret]. }
  intros [] s1 [Hs1 E]. unfold runs at 1, Del. rewrite E. destruct H as [Hfd Hp].
  pose proof (lookup_lt_Some _ _ _ Hp). rewrite (proj2 (Z.leb_gt _ _)) by lia. rewrite (proj2 (Z.ltb_ge _ _)) by done.
  assert (∀ j q, <[Z.to_nat fd := None]> (datas_ s1) !! j = Some (Some q) → datas_ s1 !! j = Some (Some q) ∧ j ≠ Z.to_nat fd) as Hsub.
  { intros j q. intros [(-> & Hq & _)|[Hne Hq]]%list_lookup_insert_Some; done. }
  apply close_ok.
  - split; [simpl; rewrite length_insert; apply Hs1|]. intros j q [Hq _]%Hsub. by apply (proj2 Hs1).
  - intros q [_ Hq]. simpl in Hq. by apply Hsub in Hq as [_ ?].
Qed.

Lemma run_hook_ok s c : table_ok s → hook_valid s c → runs (run_hook c) (λ _, table_ok) s.
Proof.
  intros Hs Hv. destruct c as [[[fd flags]|]|[[fd flags]|]|fd flags|iom fd|fd arg|fd|fd v|fd lv opt sec us|fd so|fd ms];
    cbn [run_hook hook_valid] in *; try apply runs_drop.
  - unfold hook_socket. destruct Hv as [Hfd Hk]. apply runs_bind. unfold runs at 1, open_socket.
    rewrite (proj2 (Z.eqb_neq fd (-1))) by lia. by apply opened_ok.
  - by apply runs_bind.
  - unfold hook_accept. destruct Hv as [Hfd Hk]. apply runs_bind. unfold runs at 1, open_socket.
    rewrite (proj2 (Z.leb_le 0 fd)) by done. by apply opened_ok.
  - by apply runs_bind.
  - destruct Hv as [Hfd Hk]. apply runs_modify, table_kernel; [done|]. right. by apply absent_closed.
  - by apply hook_close_ok.
  - unfold hook_setfl. apply runs_bind. eapply runs_mono; [by apply managed_ok|]. intros [[p x]|] s1 [-> H].
    + destruct H as (Hf & Hx & Hn). rewrite Hn. apply runs_bind. eapply runs_mono; [by apply (SetUserNonblock_ok s fd)|].
      intros [] s2 (H2 & _). apply setfl_ok; [done|]. right. apply nonblock_with.
    + apply setfl_ok; [done|by left].
  - unfold hook_getfl. apply runs_bind. unfold runs at 1, fcntl_getfl. apply runs_bind.
    eapply runs_mono; [by apply managed_ok|]. intros r s1 [-> _]. by apply runs_ret.
  - subst v. unfold hook_fionbio. apply runs_bind. eapply runs_mono; [by apply managed_ok|]. intros r s1 [-> H]. apply runs_bind.
    assert (∀ s1, table_ok s1 → runs (ioctl_fionbio fd true) (λ _, table_ok) s1) as Hio.
    { intros s1 H1. unfold runs, ioctl_fionbio. destruct (kernel s1 !! fd) as [f|] eqn:Hf; [|done]. split; [apply H1|].
      intros i p Hp. destruct (proj2 H1 i p Hp) as [Hc (h & Hh & Hh1 & Hh2)]. split; [done|]. simpl.
      destruct (decide (fd = Z.of_nat i)) as [->|Hne]; [|exists h; by rewrite lookup_insert_ne].
      eexists. rewrite lookup_insert_eq. simplify_eq. split_and!; [done..|apply nonblock_with]. }
    destruct r as [[p x]|]; [|by apply runs_ret, Hio]. destruct H as (Hf & _).
    eapply runs_mono; [by apply (SetUserNonblock_ok s fd)|]. intros [] s2 (H2 & _). by apply Hio.
  - unfold hook_setsockopt. apply runs_bind.
    destruct (true && (lv =? SOL_SOCKET) && ((opt =? SO_RCVTIMEO) || (opt =? SO_SNDTIMEO))); [|by apply runs_ret, runs_modify].
    apply runs_bind. eapply runs_mono; [apply Get_found|]. intros [p|] s1 [-> H]; [|by apply runs_ret, runs_modify].
    eapply runs_mono; [by apply (SetTimeout_ok s fd)|]. intros [] s2 H2. by apply runs_modify.
  - unfold DoIo_enter. apply runs_bind. eapply runs_mono; [apply Get_found|]. intros [p|] s1 [-> H]; [|by apply runs_ret].
    destruct (found_ctx s fd p Hs H) as (user & r & w & f & Hc & _). apply runs_bind.
    unfold runs at 1, ctx_at. rewrite Hc. by apply runs_ret.
  - unfold connect_enter. apply runs_bind. eapply runs_mono; [apply Get_found|]. intros [p|] s1 [-> H]; [|by apply runs_ret].
    destruct (found_ctx s fd p Hs H) as (user & r & w & f & Hc & _). apply runs_bind.
    unfold runs at 1, ctx_at. rewrite Hc. by apply runs_ret.
Qed.
End hooks.

Inductive fds_reachable : Fds → Prop :=
  | fds_new : fds_reachable (FdContextManager_new ∅)
  | fds_step s c s' : fds_reachable s → hook_valid s c → run_hook c s = Ret tt s' → fds_reachable s'.

(** Whatever hooked calls a program makes, in any order, every context in the
    table belongs to an open socket that does not block in the kernel and is not
    marked as closed; no call leaves the table or follows a dangling pointer; and
    no descriptor with a context is refused as closed. *)
Theorem fd_table_sound s c : fds_reachable s → hook_valid s c →
  (∃ s', run_hook c s = Ret tt s' ∧ fds_reachable s') ∧
  (∀ fd p, found s fd p → (∃ f, kernel s !! fd = Some f ∧ k_sock f = true ∧ nonblock (k_flags f) = true) ∧
     ∀ so, DoIo_enter settable true fd so s ≠ Ret Bad s).
Proof.
  intros Hr Hv.
  assert (table_ok s) as Hs.
  { clear Hv. induction Hr as [|s c' s' Hr IH Hv Hc]; [apply new_table_ok|].
    pose proof (run_hook_ok s c' IH Hv) as H. unfold runs in H. by rewrite Hc in H. }
  split.
  - pose proof (run_hook_ok s c Hs Hv) as Hc. unfold runs in Hc. destruct (run_hook c s) as [[] s'| | |] eqn:E; try done.
    exists s'. split; [done|]. by eapply fds_step.
  - intros fd p Hp. destruct (found_ctx s fd p Hs Hp) as (user & r & w & f & Hc & Hf). split; [by exists f|]. intros so.
    unfold DoIo_enter, Get, Get_read. cbn [negb]. unfold mbind, M_bind. destruct Hp as [Hfd Hp].
    rewrite (proj2 (Z.ltb_ge fd 0)) by done. rewrite Hp. simpl. unfold ctx_at. rewrite Hc. simpl. by destruct user.
Qed.

(** ** The flag a program sees *)

Lemma managed_found s fd p : table_ok s → found s fd p → ∃ x, ctxs s !! p = Some x ∧ is_sys_nonblock_ x = true ∧
  managed settable fd s = Ret (Some (p, x)) s.
Proof.
  intros Hs Hf. destruct (found_ctx s fd p Hs Hf) as (user & r & w & f & Hc & _). eexists. split; [exact Hc|]. split; [done|].
  destruct Hf as [Hfd Hp]. unfold managed, Get, Get_read, mbind, M_bind.
  rewrite (proj2 (Z.ltb_ge fd 0)) by done. rewrite Hp. simpl. unfold ctx_at. by rewrite Hc.
Qed.

(** [fcntl] shows a program the flags it set: after [F_SETFL] of any argument on
    a managed socket, [F_GETFL] answers with the non-blocking flag of the argument
    and the others as the kernel takes them over, while the descriptor itself stays
    non-blocking. *)
Theorem fcntl_roundtrip s fd p arg : table_ok s → found s fd p →
  ∃ s1 v f f1, hook_setfl settable fd arg s = Ret 0 s1 ∧ hook_getfl settable fd s1 = Ret v s1 ∧
    kernel s !! fd = Some f ∧ kernel s1 !! fd = Some f1 ∧ nonblock (k_flags f1) = true ∧ nonblock v = nonblock arg ∧
    ∀ i, 0 ≤ i → i ≠ 11 → Z.testbit v i = if Z.testbit settable i then Z.testbit arg i else Z.testbit (k_flags f) i.
Proof.
  intros Hs Hf. destruct (managed_found s fd p Hs Hf) as (x & Hx & Hn & Hm).
  destruct (found_ctx s fd p Hs Hf) as (user & r & w & f & _ & Hk & _).
  pose proof (SetUserNonblock_ok s fd p (nonblock arg) Hs Hf) as Hu. unfold runs in Hu.
  destruct (SetUserNonblock p (nonblock arg) s) as [[] s2| | |] eqn:Hset; try done.
  destruct Hu as (H2 & Hd2 & Hk2 & y & Hy & Hun).
  set (new := Z.lor (Z.land (k_flags f) (Z.lnot settable)) (Z.land (with_nonblock arg) settable)).
  set (s1 := set_kernel <[fd := mkFile (k_sock f) new]> s2).
  assert (found s1 fd p) as Hf1 by (unfold found; simpl; by rewrite Hd2).
  assert (ctxs s1 !! p = Some y) as Hy1 by done.
  assert (nonblock new = true) as Hnew.
  { rewrite nonblock_bit. unfold new. by rewrite Z.lor_spec, !Z.land_spec, testbit_with, settable_nonblock, !orb_true_r by lia. }
  assert (hook_setfl settable fd arg s = Ret 0 s1) as Hset1.
  { unfold hook_setfl. erewrite bind_Ret by done. cbn beta iota. erewrite bind_Ret by done. rewrite Hn. unfold fcntl_setfl.
    rewrite Hk2, Hk. done. }
  assert (table_ok s1) as Hs1.
  { pose proof (setfl_ok s2 fd (with_nonblock arg) H2 (or_intror (nonblock_with _))) as H. unfold runs, fcntl_setfl in H.
    by rewrite Hk2, Hk in H. }
  destruct (managed_found s1 fd p Hs1 Hf1) as (y' & Hy' & _ & Hm1). assert (y' = y) as -> by congruence.
  assert (kernel s1 !! fd = Some (mkFile (k_sock f) new)) as Hk1 by (simpl; by rewrite lookup_insert_eq).
  eexists s1, _, f, _. split; [done|]. split.
  { unfold hook_getfl. erewrite bind_Ret by (unfold fcntl_getfl; by rewrite Hk1). erewrite bind_Ret by done. reflexivity. }
  split; [done|]. split; [done|]. split; [done|]. cbn [k_flags]. rewrite Hun. split.
  - destruct (nonblock arg); [by rewrite nonblock_bit, testbit_with, orb_true_r by lia|].
    by rewrite nonblock_bit, testbit_without, andb_false_r by lia.
  - intros i Hi Hne. assert (Z.testbit new i = if Z.testbit settable i then Z.testbit arg i else Z.testbit (k_flags f) i) as Hbit.
    { unfold new. rewrite Z.lor_spec, !Z.land_spec, Z.lnot_spec, testbit_with by done.
      rewrite (proj2 (Z.eqb_neq i 11)), orb_false_r by done.
      destruct (Z.testbit settable i); simpl; by rewrite ?andb_false_r, ?andb_true_r, ?orb_false_r. }
    destruct (nonblock arg).
    + rewrite testbit_with by done. by rewrite (proj2 (Z.eqb_neq i 11)), orb_false_r.
    + rewrite testbit_without by done. by rewrite (proj2 (Z.eqb_neq i 11)), andb_true_r.
Qed.

(** Switching the flag off with [ioctl] does reach the kernel: the descriptor
    blocks from then on, while [DoIo] still takes it for one that does not. *)
Theorem ioctl_makes_it_block s fd p : table_ok s → found s fd p →
  ∃ s1 f1 to, hook_fionbio settable fd false s = Ret 0 s1 ∧ kernel s1 !! fd = Some f1 ∧ nonblock (k_flags f1) = false ∧
    DoIo_enter settable true fd SO_RCVTIMEO s1 = Ret (Managed to) s1.
Proof.
  intros Hs Hf. destruct (found_ctx s fd p Hs Hf) as (user & r & w & f & Hc & Hk & _).
  destruct Hf as [Hfd Hp].
  assert (managed settable fd s = Ret (Some (p, mkFd true true true user false fd r w)) s) as Hm.
  { unfold managed, Get, Get_read, mbind, M_bind. rewrite (proj2 (Z.ltb_ge fd 0)) by done. rewrite Hp. simpl.
    unfold ctx_at. by rewrite Hc. }
  set (s2 := set_ctxs <[p := mkFd true true true false false fd r w]> s).
  assert (SetUserNonblock p false s = Ret tt s2) as Hu.
  { unfold SetUserNonblock. by erewrite bind_Ret by (unfold ctx_at; by rewrite Hc). }
  eexists (set_kernel <[fd := _]> s2), _, r. split; [|split; [apply lookup_insert_eq|split]].
  - unfold hook_fionbio. erewrite bind_Ret by done. cbn beta iota. erewrite bind_Ret by done. unfold ioctl_fionbio.
    change (kernel s2) with (kernel s). by rewrite Hk.
  - simpl. by rewrite nonblock_bit, testbit_without, andb_false_r by lia.
  - unfold DoIo_enter, Get, Get_read. cbn [negb]. unfold mbind, M_bind.
    rewrite (proj2 (Z.ltb_ge fd 0)) by done. cbn [datas_ set_kernel set_ctxs s2]. rewrite Hp. simpl. unfold ctx_at. simpl.
    rewrite list_lookup_insert_eq by (by eapply lookup_lt_Some). done.
Qed.

(** [Get] does not look again under the write lock: two threads that both found no
    context both make one, and the first one's, with all that is set through it, is
    replaced. *)
Theorem Get_creates_twice s fd f : table_ok s → 0 ≤ fd → kernel s !! fd = Some f → k_sock f = true → absent s fd →
  ∃ p1 s1 p2 s2, Get_read fd true s = Ret None s ∧
    Get_create settable fd s = Ret p1 s1 ∧ found s1 fd p1 ∧
    Get_create settable fd s1 = Ret p2 s2 ∧ found s2 fd p2 ∧ p1 ≠ p2.
Proof.
  intros Hs Hfd Hk Hsock Ha.
  assert (Get_read fd true s = Ret None s) as Hread.
  { pose proof (Get_read_ok fd true s) as H. unfold runs in H. unfold Get_read in *.
    rewrite (proj2 (Z.ltb_ge fd 0)) in * by done. destruct (datas_ s !! Z.to_nat fd) as [[p|]|] eqn:E; try done.
    by destruct (Ha p). }
  pose proof (Get_create_ok fd f s Hs Hfd Hk Hsock) as H1. unfold runs in H1.
  destruct (Get_create settable fd s) as [p1 s1| | |] eqn:E1; try done. destruct H1 as (Hs1 & Hf1 & -> & Hl1).
  destruct (found_ctx s1 fd _ Hs1 Hf1) as (_ & _ & _ & f1 & _ & Hk1 & Hsock1 & _).
  pose proof (Get_create_ok fd f1 s1 Hs1 Hfd Hk1 Hsock1) as H2. unfold runs in H2.
  destruct (Get_create settable fd s1) as [p2 s2| | |] eqn:E2; try done. destruct H2 as (Hs2 & Hf2 & -> & Hl2).
  exists (length (ctxs s)), s1, (length (ctxs s1)), s2. split_and!; [done..|lia].
Qed.
End table.

(** ** Witnesses *)

(** Descriptor 5 is a socket the kernel has just opened. *)
Definition one_socket : Fds := match run_hook (2 ^ 11) (HSocket (Some (5, 2))) (FdContextManager_new ∅) with Ret _ s => s | _ => FdContextManager_new ∅ end.

Lemma one_socket_reachable : fds_reachable (2 ^ 11) one_socket.
Proof.
  eapply (fds_step _ _ (HSocket (Some (5, 2)))); [apply fds_new|by split|reflexivity].
Qed.

Lemma one_socket_ok : table_ok one_socket ∧ found one_socket 5 0.
Proof.
  split; [|by split].
  pose proof (run_hook_ok (2 ^ 11) eq_refl (FdContextManager_new ∅) (HSocket (Some (5, 2))) (new_table_ok ∅) (conj (Zle_0_pos 5) eq_refl)) as H.
  exact H.
Qed.

Lemma fd_table_sound_witness :
  let s := one_socket in let c := HSetfl 5 0 in
  (∃ s', run_hook (2 ^ 11) c s = Ret tt s' ∧ fds_reachable (2 ^ 11) s') ∧
  (∀ fd p, found s fd p → (∃ f, kernel s !! fd = Some f ∧ k_sock f = true ∧ nonblock (k_flags f) = true) ∧
     ∀ so, DoIo_enter (2 ^ 11) true fd so s ≠ Ret Bad s).
Proof. apply (fd_table_sound (2 ^ 11) eq_refl one_socket (HSetfl 5 0) one_socket_reachable I). Defined.

Lemma fcntl_roundtrip_witness :
  ∃ s1 v f f1, hook_setfl (2 ^ 11) 5 0 one_socket = Ret 0 s1 ∧ hook_getfl (2 ^ 11) 5 s1 = Ret v s1 ∧
    kernel one_socket !! 5 = Some f ∧ kernel s1 !! 5 = Some f1 ∧ nonblock (k_flags f1) = true ∧ nonblock v = nonblock 0 ∧
    ∀ i, 0 ≤ i → i ≠ 11 → Z.testbit v i = if Z.testbit (2 ^ 11) i then Z.testbit 0 i else Z.testbit (k_flags f) i.
Proof. exact (fcntl_roundtrip (2 ^ 11) eq_refl one_socket 5 0 0 (proj1 one_socket_ok) (proj2 one_socket_ok)). Defined.

Lemma ioctl_makes_it_block_witness :
  ∃ s1 f1 to, hook_fionbio (2 ^ 11) 5 false one_socket = Ret 0 s1 ∧ kernel s1 !! 5 = Some f1 ∧ nonblock (k_flags f1) = false ∧
    DoIo_enter (2 ^ 11) true 5 SO_RCVTIMEO s1 = Ret (Managed to) s1.
Proof. exact (ioctl_makes_it_block (2 ^ 11) one_socket 5 0 (proj1 one_socket_ok) (proj2 one_socket_ok)). Defined.

Lemma Get_creates_twice_witness :
  let s := FdContextManager_new {[5 := mkFile true 2]} in
  ∃ p1 s1 p2 s2, Get_read 5 true s = Ret None s ∧
    Get_create (2 ^ 11) 5 s = Ret p1 s1 ∧ found s1 5 p1 ∧ Get_create (2 ^ 11) 5 s1 = Ret p2 s2 ∧ found s2 5 p2 ∧ p1 ≠ p2.
Proof.
  apply (Get_creates_twice (2 ^ 11) eq_refl _ 5 (mkFile true 2)); [apply new_table_ok|lia|reflexivity|done|].
  intros p [_ Hp]. done.
Defined.
