(* ===== verification/HookIo.v ===== *)
(** * Hooked input and output: [DoIo], [connect_with_timeout] and the sleeps of [server_frame/hook.cc]

    A hooked call that would block registers its descriptor with the IO manager, arms
    a timer and gives up the processor.  Here one such call is a state machine; the
    kernel, the IO manager and the thread that runs expired timers act between any
    two of its steps.  [slot] is the registration of the call's event in the context
    of the descriptor ([AddEvent], [CancelEvent] and [TriggerEvent] of
    [IOManager.v]), [woken] that the fiber has been scheduled. *)
From stdpp Require Import list.
From S2P Require Import Prelude.
Local Open Scope Z_scope.

Definition EINTR : Z := 4.
Definition EAGAIN : Z := 11.
Definition ETIMEDOUT : Z := 110.
Definition EINPROGRESS : Z := 115.

(** ** Data *)

Inductive operation := Io | Connect.

(** Where the call is: about to call the kernel, to arm the timer, to add the event,
    giving up the processor, to ask for the error of the socket, or finished with a
    result and [errno]; [PAbort] is a failed assertion. *)
Inductive place := PCall | PTimer | PAdd | PYield | PSockErr | PDone (n errno : Z) | PAbort.
#[export] Instance place_eq_dec : EqDecision place.
Proof. solve_decision. Defined.

(** A timer: in the set of timers, taken out of it to be run, past the test of its
    callback, or gone. *)
Inductive timer_state := Armed | Taken | Locked | Gone.
#[export] Instance timer_state_eq_dec : EqDecision timer_state.
Proof. solve_decision. Defined.

(** [cancelled] of the [TimerInfo]; the timers the call made and the present one; and,
    to state what is returned, the last answer of the kernel and whether adding the
    event failed. *)
Record hooked := mkHooked {
  pc : place; cancelled : Z; timers : list timer_state; timer : option nat; slot : bool; woken : bool;
  answer : Z * Z; add_failed : bool }.

Definition start : hooked := mkHooked PCall 0 [] None false false (0, 0) false.

Definition goto (p : place) (s : hooked) : hooked :=
  mkHooked p (cancelled s) (timers s) (timer s) (slot s) (woken s) (answer s) (add_failed s).
Definition set_timer (i : nat) (t : timer_state) (s : hooked) : hooked :=
  mkHooked (pc s) (cancelled s) (<[i := t]> (timers s)) (timer s) (slot s) (woken s) (answer s) (add_failed s).

(** [if (timer) timer->Cancel()]: only a timer that is in the set can be cancelled. *)
Definition cancel_timer (s : hooked) : hooked :=
  let ts := match timer s with
            | Some i => if bool_decide (timers s !! i = Some Armed) then <[i := Gone]> (timers s) else timers s
            | None => timers s
            end in
  mkHooked (pc s) (cancelled s) ts None (slot s) (woken s) (answer s) (add_failed s).

(** Waking the fiber: [TriggerEvent] takes the registration away and schedules it. *)
Definition wake (s : hooked) : hooked :=
  mkHooked (pc s) (cancelled s) (timers s) (timer s) false true (answer s) (add_failed s).

(** ** Steps *)

(** Steps of the call, with what the kernel answers; the event or [CancelAll]; and
    the steps of a timer: it is taken out of the set, its callback tests [cancelled],
    and then cancels the event, which wakes the fiber only when [epoll_ctl] agrees. *)
Inductive event :=
  | EFunc (n errno : Z) | EAddTimer | EAddEvent (error : option Z) | EResume | ESockErr (rc errno error : Z)
  | ETrigger | ETake (i : nat) | ECheck (i : nat) | ECancel (i : nat) (ok : bool).
#[export] Instance event_eq_dec : EqDecision event.
Proof. solve_decision. Defined.

Section steps.
Context (op : operation).
(** Whether the descriptor has a timeout. *)
Context (has_timeout : bool).

(** What the call does with the answer of the kernel. *)
Definition after_call (n errno : Z) : place :=
  match op with
  | Io =>
      if (n =? -1) && (errno =? EINTR) then PCall
      else if (n =? -1) && (errno =? EAGAIN) then PTimer
      else PDone n errno
  | Connect =>
      if n =? 0 then PDone 0 errno
      else if negb (n =? -1) || negb (errno =? EINPROGRESS) then PDone n errno
      else PTimer
  end.

Definition finished (p : place) : bool := match p with PDone _ _ | PAbort => true | _ => false end.

Definition step (e : event) (s : hooked) : option hooked :=
  match e, pc s with
  | EFunc n errno, PCall =>
      Some (mkHooked (after_call n errno) (cancelled s) (timers s) (timer s) (slot s) (woken s) (n, errno) (add_failed s))
  | EAddTimer, PTimer =>
      if has_timeout
      then Some (mkHooked PAdd (cancelled s) (timers s ++ [Armed]) (Some (length (timers s))) (slot s) (woken s) (answer s) (add_failed s))
      else Some (goto PAdd s)
  | EAddEvent None, PAdd =>
      if slot s then Some (goto PAbort s)
      else Some (mkHooked PYield (cancelled s) (timers s) (timer s) true (woken s) (answer s) (add_failed s))
  | EAddEvent (Some errno), PAdd =>
      let s := cancel_timer s in
      Some (mkHooked (match op with Io => PDone (-1) errno | Connect => PSockErr end)
        (cancelled s) (timers s) (timer s) (slot s) (woken s) (answer s) true)
  | EResume, PYield =>
      if woken s then
        let s := cancel_timer s in
        let p := if cancelled s =? 0 then match op with Io => PCall | Connect => PSockErr end
                 else PDone (-1) (cancelled s) in
        Some (mkHooked p (cancelled s) (timers s) (timer s) (slot s) false (answer s) (add_failed s))
      else None
  | ESockErr rc errno error, PSockErr =>
      let r := if rc =? -1 then (-1, errno) else if error =? 0 then (0, errno) else (-1, error) in
      Some (mkHooked (PDone r.1 r.2) (cancelled s) (timers s) (timer s) (slot s) (woken s) r (add_failed s))
  | ETrigger, _ => if slot s then Some (wake s) else None
  | ETake i, _ => if bool_decide (timers s !! i = Some Armed) then Some (set_timer i Taken s) else None
  | ECheck i, _ =>
      if bool_decide (timers s !! i = Some Taken) then
        if finished (pc s) || negb (cancelled s =? 0) then Some (set_timer i Gone s)
        else
          let s := set_timer i Locked s in
          Some (mkHooked (pc s) ETIMEDOUT (timers s) (timer s) (slot s) (woken s) (answer s) (add_failed s))
      else None
  | ECancel i ok, _ =>
      if bool_decide (timers s !! i = Some Locked) then
        let s := set_timer i Gone s in Some (if slot s && ok then wake s else s)
      else None
  | _, _ => None
  end.

Fixpoint run (es : list event) (s : hooked) : option hooked :=
  match es with [] => Some s | e :: es => step e s ≫= run es end.

(** ** The invariant *)

(** What may be returned. *)
Definition outcome (n errno : Z) (s : hooked) : Prop :=
  match op with
  | Io =>
      (answer s = (n, errno) ∧ (n = -1 → errno ≠ EINTR ∧ errno ≠ EAGAIN)) ∨
      (n = -1 ∧ errno = ETIMEDOUT ∧ cancelled s = ETIMEDOUT) ∨
      (n = -1 ∧ add_failed s = true)
  | Connect => answer s = (n, errno) ∨ (n = -1 ∧ errno = ETIMEDOUT ∧ cancelled s = ETIMEDOUT)
  end.

Record sound (s : hooked) : Prop := {
  snd_slot : slot s = true → pc s = PYield ∧ woken s = false;
  snd_woken : woken s = true → pc s = PYield;
  snd_yield : pc s = PYield → slot s = true ∨ woken s = true;
  snd_cancelled : cancelled s = 0 ∨ cancelled s = ETIMEDOUT;
  snd_armed : ∀ i, timers s !! i = Some Armed → timer s = Some i ∧ (pc s = PAdd ∨ pc s = PYield);
  snd_abort : pc s ≠ PAbort;
  snd_asks : pc s = PSockErr → op = Connect;
  snd_done : ∀ n errno, pc s = PDone n errno → outcome n errno s }.

End steps.

(** ** Sleeping *)

(** What [sleep], [usleep] and [nanosleep] do: the call of the kernel when the thread
    is not hooked, and otherwise a timer of so many milliseconds whose callback
    schedules the fiber, which gives up the processor. *)
Inductive sleeping := KernelSleep | SleepFor (ms : Z).

(** [seconds * 1000] is an unsigned int. *)
Definition sleep (hooked : bool) (seconds : Z) : sleeping :=
  if negb hooked then KernelSleep else SleepFor (u32 (seconds * 1000)).

Definition usleep (hooked : bool) (usec : Z) : sleeping :=
  if negb hooked then KernelSleep else SleepFor (usec / 1000).

(** The sum of longs is stored in an int, which [AddTimer] takes as [uint64_t]. *)
Definition nanosleep (hooked : bool) (tv_sec tv_nsec : Z) : sleeping :=
  if negb hooked then KernelSleep
  else SleepFor (u64 (s32 (tv_sec * 1000 + Z.quot (Z.quot tv_nsec 1000) 1000))).

Lemma run_app op has_timeout es1 es2 s : run op has_timeout (es1 ++ es2) s = run op has_timeout es1 s ≫= run op has_timeout es2.
Proof. revert s. induction es1 as [|e es1 IH]; intros s; simpl; [done|]. destruct (step op has_timeout e s); simpl; [apply IH|done]. Qed.

Lemma start_sound op : sound op start.
Proof. split; try done. by left. Qed.

Lemma cancel_timer_none op s i : sound op s → timers (cancel_timer s) !! i ≠ Some Armed.
Proof.
  intros Hs Hi. assert (∀ j, timers s !! j = Some Armed → timer s = Some j) as Ha by (intros j Hj; by apply (snd_armed op s Hs)).
  unfold cancel_timer in Hi. simpl in Hi. destruct (timer s) as [k|] eqn:Ht.
  - case_bool_decide as Hk.
    + apply list_lookup_insert_Some in Hi as [(_ & ? & _)|[Hne Hi]]; [done|]. specialize (Ha i Hi). congruence.
    + specialize (Ha i Hi). congruence.
  - by specialize (Ha i Hi).
Qed.

Lemma after_call_outcome op n errno m e s : after_call op n errno = PDone m e → answer s = (n, errno) → outcome op m e s.
Proof.
  unfold after_call, outcome. intros Hp Ha. destruct op; cycle 1.
  { left. destruct (Z.eqb_spec n 0); repeat case_match; by simplify_eq. }
  left.
  destruct (Z.eqb_spec n (-1)) as [->|Hn]; simpl in Hp.
  - destruct (Z.eqb_spec errno EINTR); [done|]. destruct (Z.eqb_spec errno EAGAIN); [done|]. injection Hp as <- <-. done.
  - injection Hp as <- <-. done.
Qed.

Lemma after_call_place op n errno : after_call op n errno = PCall ∨ after_call op n errno = PTimer ∨ ∃ m e, after_call op n errno = PDone m e.
Proof. unfold after_call. destruct op; repeat case_match; eauto. Qed.

Lemma insert_armed (l : list timer_state) i t j : t ≠ Armed → <[i := t]> l !! j = Some Armed → l !! j = Some Armed ∧ j ≠ i.
Proof. intros Ht [(_ & -> & _)|[Hne Hj]]%list_lookup_insert_Some; done. Qed.

(** The call is at a place where it neither waits nor has a timer. *)
Lemma leaves_sound op s : slot s = false → woken s = false → pc s ≠ PYield → pc s ≠ PAbort →
  (cancelled s = 0 ∨ cancelled s = ETIMEDOUT) → (∀ i, timers s !! i ≠ Some Armed) →
  (pc s = PSockErr → op = Connect) → (∀ n errno, pc s = PDone n errno → outcome op n errno s) → sound op s.
Proof. intros Hsl Hw Hp Ha Hc Ht Hop Ho. split; try done; rewrite ?Hsl, ?Hw; try done. intros i Hi. by destruct (Ht i). Qed.

Lemma no_timer op s : sound op s → pc s ≠ PAdd → pc s ≠ PYield → ∀ i, timers s !! i ≠ Some Armed.
Proof. intros Hs H1 H2 i Hi. destruct (snd_armed op s Hs i Hi) as [_ [?|?]]; done. Qed.

Lemma not_waiting op s : sound op s → pc s ≠ PYield → slot s = false ∧ woken s = false.
Proof.
  intros Hs Hp. split.
  - destruct (slot s) eqn:E; [|done]. by destruct (snd_slot op s Hs E).
  - destruct (woken s) eqn:E; [|done]. by pose proof (snd_woken op s Hs E).
Qed.

(** A timer that is no longer armed, and waking the fiber. *)
Lemma set_timer_sound op s i t : sound op s → t ≠ Armed → sound op (set_timer i t s).
Proof.
  intros Hs Ht. split; try apply Hs. intros j Hj. simpl in *. apply insert_armed in Hj as [Hj _]; [|done]. by apply Hs.
Qed.

Lemma wake_sound op s : sound op s → slot s = true → sound op (wake s).
Proof.
  intros Hs Hsl. destruct (snd_slot op s Hs Hsl) as [Hp _]. split; simpl; try apply Hs; try done; first by right.
Qed.

Lemma step_sound op has_timeout e s s' : sound op s → step op has_timeout e s = Some s' → sound op s'.
Proof.
  intros Hs Hstep. pose proof (snd_cancelled op s Hs) as Hc.
  destruct e as [n e| |[e|]| |rc e er| |i|i|i ok]; simpl in Hstep.
  - destruct (pc s) eqn:Hp; try done. injection Hstep as <-.
    destruct (not_waiting op s Hs) as [Hsl Hw]; [congruence|]. pose proof (no_timer op s Hs) as Hn.
    destruct (after_call_place op n e) as [Ha|[Ha|(? & ? & Ha)]]; rewrite Ha;
      apply leaves_sound; simpl; try done; try (apply Hn; congruence).
    intros m e' [= <- <-]. by eapply after_call_outcome.
  - destruct (pc s) eqn:Hp; try done. destruct (not_waiting op s Hs) as [Hsl Hw]; [congruence|].
    assert (∀ i, timers s !! i ≠ Some Armed) as Hn by (apply (no_timer op); congruence).
    destruct has_timeout; injection Hstep as <-; split; simpl; rewrite ?Hsl, ?Hw; try done; try apply Hs.
    + intros i Hi. apply lookup_app_Some in Hi as [Hi|[Hl Hi]]; [by destruct (Hn i)|].
      apply list_lookup_singleton_Some in Hi as [Hi _]. split; [f_equal; lia|by left].
    + intros i Hi. by destruct (Hn i).
  - destruct (pc s) eqn:Hp; try done. injection Hstep as <-. destruct (not_waiting op s Hs) as [Hsl Hw]; [congruence|].
    pose proof (cancel_timer_none op s) as Hn.
    destruct op; apply leaves_sound; simpl; try done; try (intros i; by apply Hn).
    intros n e' [= <- <-]. right; right. done.
  - destruct (pc s) eqn:Hp; try done. destruct (not_waiting op s Hs) as [Hsl Hw]; [congruence|]. rewrite Hsl in Hstep.
    injection Hstep as <-. split; simpl; try done; [by left|]. intros i Hi.
    destruct (snd_armed op s Hs i Hi) as [Ht _]. split; [done|by right].
  - destruct (pc s) eqn:Hp; try done. destruct (woken s) eqn:Hw; [|done]. injection Hstep as <-.
    assert (slot s = false) as Hsl. { destruct (slot s) eqn:E; [|done]. destruct (snd_slot op s Hs E). congruence. }
    pose proof (cancel_timer_none op s) as Hn. simpl.
    destruct (Z.eqb_spec (cancelled s) 0) as [H0|H0]; [|destruct Hc as [?|Hc]; [done|]].
    + destruct op; apply leaves_sound; simpl; try done; try (intros i; by apply Hn); by left.
    + apply leaves_sound; simpl; try done; try (intros i; by apply Hn); [by right|].
      intros n e [= <- <-]. rewrite Hc. destruct op; [right; left|right]; done.
  - destruct (pc s) eqn:Hp; try done. injection Hstep as <-. destruct (not_waiting op s Hs) as [Hsl Hw]; [congruence|].
    rewrite (snd_asks op s Hs Hp). apply leaves_sound; simpl; try done; [apply (no_timer op s); congruence|].
    intros m e' [= <- <-]. left. simpl. by destruct (if _ =? _ then _ else _).
  - destruct (slot s) eqn:Hsl; [|done]. injection Hstep as <-. by apply wake_sound.
  - case_bool_decide; [|done]. injection Hstep as <-. by apply set_timer_sound.
  - case_bool_decide as Hi; [|done]. destruct (finished (pc s) || negb (cancelled s =? 0)) eqn:Hf.
    { injection Hstep as <-. by apply set_timer_sound. }
    injection Hstep as <-. apply orb_false_iff in Hf as [Hf _].
    pose proof (set_timer_sound op s i Locked Hs ltac:(done)) as Hs1. split; try apply Hs1; [by right|].
    intros n e Hd. simpl in Hd. by rewrite Hd in Hf.
  - case_bool_decide as Hi; [|done]. injection Hstep as <-.
    pose proof (set_timer_sound op s i Gone Hs ltac:(done)) as Hs1.
    change (slot (set_timer i Gone s)) with (slot s). destruct (slot s) eqn:Hsl, ok; try done. by apply wake_sound.
Qed.

Lemma run_sound op has_timeout es s s' : sound op s → run op has_timeout es s = Some s' → sound op s'.
Proof.
  revert s. induction es as [|e es IH]; intros s Hs; simpl; [by intros [= <-]|].
  destruct (step op has_timeout e s) as [s1|] eqn:He; simpl; [|done]. apply IH. by eapply step_sound.
Qed.

(** *** While the call waits *)

(** Steps that wake it: the event, and a timer whose event can be cancelled. *)
Definition wakes (e : event) : Prop := match e with ETrigger => True | ECancel _ ok => ok = true | _ => False end.

Lemma waits_step op has_timeout e s s' : pc s = PYield → e ≠ EResume → step op has_timeout e s = Some s' →
  pc s' = PYield ∧ (cancelled s = ETIMEDOUT → cancelled s' = ETIMEDOUT) ∧ (woken s = true → woken s' = true).
Proof.
  intros Hp He Hs. destruct e as [n e| |[e|]| |rc e er| |i|i|i ok]; simpl in Hs; rewrite ?Hp in Hs; try done.
  - destruct (slot s); [|done]. by injection Hs as <-.
  - case_bool_decide; [|done]. by injection Hs as <-.
  - case_bool_decide; [|done]. destruct (finished PYield || negb (cancelled s =? 0)); by injection Hs as <-.
  - case_bool_decide; [|done]. injection Hs as <-. change (slot (set_timer i Gone s)) with (slot s). by destruct (slot s && ok).
Qed.

Lemma wakes_step op has_timeout e s s' : sound op s → pc s = PYield → wakes e → step op has_timeout e s = Some s' → woken s' = true.
Proof.
  intros Hs Hp Hw He. destruct (snd_yield op s Hs Hp) as [Hsl|Hwk].
  - destruct e as [| | | | | | | |i ok]; try done; simpl in He, Hw; [rewrite Hsl in He; by injection He as <-|]. subst ok.
    case_bool_decide; [|done]. simpl in He. rewrite Hsl in He. by injection He as <-.
  - apply (waits_step op has_timeout e s s'); [done|by intros ->|done|done].
Qed.

Lemma waits_run op has_timeout es : ∀ s s', sound op s → pc s = PYield → EResume ∉ es → run op has_timeout es s = Some s' →
  pc s' = PYield ∧ (cancelled s = ETIMEDOUT → cancelled s' = ETIMEDOUT) ∧ (woken s = true ∨ Exists wakes es → woken s' = true).
Proof.
  induction es as [|e es IH]; intros s s' Hs Hp Hn Hr; simpl in Hr.
  - injection Hr as <-. split_and!; [done|done|]. intros [?|Hx]; [done|by apply Exists_nil in Hx].
  - apply not_elem_of_cons in Hn as [He Hn]. destruct (step op has_timeout e s) as [s1|] eqn:E; [|done]. simpl in Hr.
    destruct (waits_step op has_timeout e s s1 Hp (not_eq_sym He) E) as (Hp1 & Hc1 & Hw1).
    destruct (IH s1 s' (step_sound _ _ _ _ _ Hs E) Hp1 Hn Hr) as (Hp' & Hc' & Hw'). split_and!; [done|auto|].
    intros [Hw|[Hw|Hw]%Exists_cons]; apply Hw'; [left; auto|left|by right]. by eapply wakes_step.
Qed.

(** The test of a timer. *)
Lemma check_step op has_timeout i s s' : sound op s → pc s = PYield → step op has_timeout (ECheck i) s = Some s' → cancelled s' = ETIMEDOUT.
Proof.
  intros Hs Hp He. simpl in He. rewrite Hp in He. case_bool_decide; [|done]. simpl in He.
  destruct (Z.eqb_spec (cancelled s) 0) as [H0|H0]; simpl in He; injection He as <-; [done|]. simpl. by destruct (snd_cancelled op s Hs).
Qed.

(** The call is resumed with [cancelled] set, and returns. *)
Lemma resume_step op has_timeout s : sound op s → pc s = PYield → cancelled s = ETIMEDOUT → woken s = true →
  ∃ s', step op has_timeout EResume s = Some s' ∧ pc s' = PDone (-1) ETIMEDOUT.
Proof. intros Hs Hp Hc Hw. simpl. rewrite Hp, Hw, Hc. by eexists. Qed.

Lemma done_run op has_timeout n errno es : ∀ s s', pc s = PDone n errno → run op has_timeout es s = Some s' → pc s' = PDone n errno.
Proof.
  induction es as [|e es IH]; intros s s' Hp Hr; simpl in Hr; [by injection Hr as <-|].
  destruct (step op has_timeout e s) as [s1|] eqn:E; [|done]. simpl in Hr. apply (IH s1 s'); [|done].
  destruct e as [m e| |[e|]| |rc e er| |i|i|i ok]; simpl in E; rewrite ?Hp in E; try done.
  - destruct (slot s); [|done]. by injection E as <-.
  - case_bool_decide; [|done]. by injection E as <-.
  - case_bool_decide; [|done]. by injection E as <-.
  - case_bool_decide; [|done]. injection E as <-. change (slot (set_timer i Gone s)) with (slot s). by destruct (slot s && ok).
Qed.

(** A call that waits with [cancelled] set returns the timeout when it is resumed. *)
Lemma cancelled_run op has_timeout es s s' : sound op s → pc s = PYield → cancelled s = ETIMEDOUT → run op has_timeout es s = Some s' →
  if decide (EResume ∈ es) then pc s' = PDone (-1) ETIMEDOUT
  else pc s' = PYield ∧ (woken s = true ∨ Exists wakes es → ∃ s'', step op has_timeout EResume s' = Some s'' ∧ pc s'' = PDone (-1) ETIMEDOUT).
Proof.
  intros Hs Hp Hc Hr. destruct (decide (EResume ∈ es)) as [Hin|Hn].
  - apply list_elem_of_split_l in Hin as (es1 & es2 & -> & Hn). rewrite run_app in Hr.
    destruct (run op has_timeout es1 s) as [s1|] eqn:E1; [|done]. cbn [mbind option_bind] in Hr.
    destruct (waits_run op has_timeout es1 s s1 Hs Hp Hn E1) as (Hp1 & Hc1 & _). simpl in Hr. rewrite Hp1 in Hr.
    destruct (woken s1) eqn:Hw1; [|done]. simpl in Hr. rewrite (Hc1 Hc) in Hr. by eapply done_run in Hr.
  - destruct (waits_run op has_timeout es s s' Hs Hp Hn Hr) as (Hp' & Hc' & Hw'). split; [done|]. intros Hw.
    apply resume_step; [by eapply run_sound|done|auto|auto].
Qed.

(** ** Theorems *)

(** C14: Whatever the kernel answers, whenever the descriptor becomes ready, and
    whatever step of its timers comes between two steps of the call, a hooked call
    never fails the assertion of [AddEvent] and never gives up the processor without
    being registered or already scheduled.  When it returns, nothing is left behind:
    no registration, no pending wake-up and no armed timer; and it returns the last
    answer of the kernel, which is not a request to try again, or a timeout, or the
    failure of [AddEvent]. *)
Theorem hooked_call_sound (op : operation) (has_timeout : bool) (es : list event) (s : hooked) :
  run op has_timeout es start = Some s →
  pc s ≠ PAbort ∧ (pc s = PYield → slot s = true ∨ woken s = true) ∧
  ∀ n errno, pc s = PDone n errno →
    outcome op n errno s ∧ slot s = false ∧ woken s = false ∧ ∀ i, timers s !! i ≠ Some Armed.
Proof.
  intros Hr. pose proof (run_sound _ _ _ _ _ (start_sound op) Hr) as Hs.
  split; [apply Hs|]. split; [apply Hs|]. intros n errno Hd.
  destruct (not_waiting op s Hs) as [Hsl Hw]; [congruence|].
  split; [by apply Hs|]. do 2 (split; [done|]). apply (no_timer op); congruence.
Qed.

(** A read that waits once, with a timeout. *)
Definition one_wait : list event :=
  [EFunc (-1) EINTR; EFunc (-1) EAGAIN; EAddTimer; EAddEvent None; ETrigger; EResume; EFunc 7 0].

Lemma hooked_call_sound_witness : ∃ s, run Io true one_wait start = Some s ∧ pc s = PDone 7 0 ∧ timers s = [Gone] ∧
  (pc s ≠ PAbort ∧ (pc s = PYield → slot s = true ∨ woken s = true) ∧
  ∀ n errno, pc s = PDone n errno →
    outcome Io n errno s ∧ slot s = false ∧ woken s = false ∧ ∀ i, timers s !! i ≠ Some Armed).
Proof.
  exists (mkHooked (PDone 7 0) 0 [Gone] None false false (7, 0) false).
  assert (run Io true one_wait start = Some (mkHooked (PDone 7 0) 0 [Gone] None false false (7, 0) false)) as Hr
    by (vm_compute; reflexivity).
  split; [exact Hr|]. do 2 (split; [reflexivity|]). exact (hooked_call_sound Io true one_wait _ Hr).
Defined.

(** C32: Once the callback of a timer of a call that waits has made its test before the call
    is resumed, the call cannot return anything but [-1] with [ETIMEDOUT], whatever else
    comes before or after the test, in any order: the event, other timers, the rest of the
    callback.  It returns that as soon as it is resumed; and it can be resumed once the event
    has come or the callback could cancel it ([ECancel] with [true]).  When the callback
    cannot, the call waits on for its event.  A timer that is armed while the call waits, and
    none has been noted before ([timeout_lost] otherwise), can take it that way from there. *)
Theorem armed_timeout_ends (op : operation) (has_timeout : bool) (es : list event) (s : hooked) (i : nat) :
  run op has_timeout es start = Some s → pc s = PYield →
  (∀ es1 es2 s', EResume ∉ es1 → run op has_timeout (es1 ++ ECheck i :: es2) s = Some s' →
    if decide (EResume ∈ es2) then pc s' = PDone (-1) ETIMEDOUT
    else pc s' = PYield ∧ (Exists wakes (es1 ++ es2) → ∃ s'', step op has_timeout EResume s' = Some s'' ∧ pc s'' = PDone (-1) ETIMEDOUT)) ∧
  (timers s !! i = Some Armed → cancelled s = 0 → ∃ s', run op has_timeout [ETake i; ECheck i; ECancel i true; EResume] s = Some s' ∧ pc s' = PDone (-1) ETIMEDOUT).
Proof.
  intros Hr Hp. pose proof (run_sound _ _ _ _ _ (start_sound op) Hr) as Hs.
  assert (∀ es1 es2 s', EResume ∉ es1 → run op has_timeout (es1 ++ ECheck i :: es2) s = Some s' →
    if decide (EResume ∈ es2) then pc s' = PDone (-1) ETIMEDOUT
    else pc s' = PYield ∧ (Exists wakes (es1 ++ es2) → ∃ s'', step op has_timeout EResume s' = Some s'' ∧ pc s'' = PDone (-1) ETIMEDOUT)) as Hend.
  { intros es1 es2 s' Hn Hr'. rewrite run_app in Hr'. destruct (run op has_timeout es1 s) as [s1|] eqn:E1; [|done]. cbn [mbind option_bind run] in Hr'.
    destruct (step op has_timeout (ECheck i) s1) as [s2|] eqn:E2; [|done]. cbn [mbind option_bind] in Hr'.
    destruct (waits_run _ _ _ _ _ Hs Hp Hn E1) as (Hp1 & _ & Hw1). pose proof (run_sound _ _ _ _ _ Hs E1) as Hs1.
    destruct (waits_step op has_timeout (ECheck i) s1 s2 Hp1 ltac:(done) E2) as (Hp2 & _ & Hw2).
    pose proof (cancelled_run _ _ _ _ _ (step_sound _ _ _ _ _ Hs1 E2) Hp2 (check_step _ _ _ _ _ Hs1 Hp1 E2) Hr') as Hc.
    destruct (decide (EResume ∈ es2)); [done|]. destruct Hc as [Hp' Hc]. split; [done|]. rewrite Exists_app. intros [Hx|Hx]; apply Hc; auto. }
  split; [exact Hend|]. intros Hi Hc.
  assert (is_Some (run op has_timeout [ETake i; ECheck i; ECancel i true; EResume] s)) as [s' Hr'].
  { pose proof (snd_yield op s Hs Hp) as Hy. destruct s as [p c ts ti sl w a f]. simpl in *. subst p.
    assert (i < length ts)%nat as Hl by (by eapply lookup_lt_Some).
    rewrite bool_decide_true by done. simpl. rewrite bool_decide_true by by rewrite list_lookup_insert_eq. simpl.
    subst c. simpl. rewrite bool_decide_true by (rewrite list_lookup_insert_eq; [done|by rewrite length_insert]). simpl.
    destruct sl; simpl; [by eexists|]. destruct Hy as [?| ->]; [done|by eexists]. }
  exists s'. split; [done|]. pose proof (Hend [ETake i] [ECancel i true; EResume] s' ltac:(by intros [[=]|Hx%elem_of_nil]%elem_of_cons) Hr') as He.
  rewrite decide_True in He; [done|]. right. by left.
Qed.

(** The event comes between the test of the timer and the rest of its callback. *)
Lemma armed_timeout_ends_witness : ∃ s s', run Io true (take 4 one_wait) start = Some s ∧
  run Io true ([ETake 0] ++ ECheck 0 :: [ETrigger; EResume; ECancel 0 false]) s = Some s' ∧ pc s' = PDone (-1) ETIMEDOUT.
Proof.
  exists (mkHooked PYield 0 [Armed] (Some 0%nat) true false (-1, EAGAIN) false).
  exists (mkHooked (PDone (-1) ETIMEDOUT) ETIMEDOUT [Gone] None false false (-1, EAGAIN) false).
  do 2 (split; [reflexivity|]).
  exact (proj1 (armed_timeout_ends Io true (take 4 one_wait) (mkHooked PYield 0 [Armed] (Some 0%nat) true false (-1, EAGAIN) false) 0 eq_refl eq_refl)
    [ETake 0] [ETrigger; EResume; ECancel 0 false] _ ltac:(by intros [[=]|Hx%elem_of_nil]%elem_of_cons) eq_refl).
Defined.

(** A timer that runs out between [AddConditionTimer] and [AddEvent] is lost.  Its
    callback finds no event to cancel; the call then registers its event and waits
    with [cancelled] already set and no timer, so that nothing but the event itself
    can wake it. *)
Theorem timeout_lost : ∃ s, run Io true
    [EFunc (-1) EAGAIN; EAddTimer; ETake 0; ECheck 0; ECancel 0 true; EAddEvent None] start = Some s ∧
  pc s = PYield ∧ cancelled s = ETIMEDOUT ∧ ∀ e s', step Io true e s = Some s' → e = ETrigger.
Proof.
  eexists. do 3 (split; [reflexivity|]). intros [n e| |[e|]| |rc e er| |i|i|i ok] s'; simpl; try done.
  all: by destruct i as [|[|i]].
Qed.

(** When [AddEvent] fails, [connect] asks for the error of the socket at once,
    without waiting.  A connection that is still in progress has none yet, and
    [connect] reports success. *)
Theorem connect_succeeds_in_progress (errno : Z) : ∃ s, run Connect true
    [EFunc (-1) EINPROGRESS; EAddTimer; EAddEvent (Some errno); ESockErr 0 errno 0] start = Some s ∧
  pc s = PDone 0 errno ∧ add_failed s = true.
Proof. by eexists. Qed.

(** Hooked sleeps take the time asked for, less the part below a millisecond, up
    to 4294967 seconds for [sleep], any number of microseconds for [usleep], and
    less than 2 to the 31 milliseconds for [nanosleep].  Beyond, [sleep] takes too
    short and [nanosleep] may take 584 million years. *)
Theorem sleeps_in_range (seconds usec tv_sec tv_nsec : Z) :
  0 ≤ seconds ≤ 4294967 → 0 ≤ tv_nsec < 10 ^ 9 → 0 ≤ tv_sec → tv_sec * 1000 + 999 < 2 ^ 31 →
  sleep true seconds = SleepFor (seconds * 1000) ∧
  (∃ ms, usleep true usec = SleepFor ms ∧ ms * 1000 ≤ usec < (ms + 1) * 1000) ∧
  (∃ ms, nanosleep true tv_sec tv_nsec = SleepFor ms ∧
    ms * 10 ^ 6 ≤ tv_sec * 10 ^ 9 + tv_nsec < (ms + 1) * 10 ^ 6) ∧
  sleep true 4294968 = SleepFor 704 ∧ nanosleep true 2147484 0 = SleepFor (2 ^ 64 - 2147483296).
Proof.
  intros Hs Hn Ht Hm. unfold sleep, usleep, nanosleep. simpl negb. cbv iota.
  split; [f_equal; apply wrap_small; unfold in_u; lia|]. split; [|].
  { eexists; split; [done|]. pose proof (Z.div_mod usec 1000 ltac:(done)). pose proof (Z.mod_pos_bound usec 1000 ltac:(done)). lia. }
  split; [|split; reflexivity]. eexists; split; [done|].
  assert (Z.quot (Z.quot tv_nsec 1000) 1000 = tv_nsec / 10 ^ 6) as ->.
  { rewrite !Z.quot_div_nonneg by (try apply Z.quot_pos; lia). by rewrite Z.div_div by lia. }
  pose proof (Z.div_mod tv_nsec (10 ^ 6) ltac:(done)) as Hd. pose proof (Z.mod_pos_bound tv_nsec (10 ^ 6) ltac:(done)).
  assert (0 ≤ tv_nsec / 10 ^ 6 < 1000) as Hq by (split; [apply Z.div_pos; lia|apply Z.div_lt_upper_bound; lia]).
  rewrite swrap_small by (unfold in_s; lia). rewrite wrap_small by (unfold in_u; lia).
  change (10 ^ 6) with 1000000 in *. change (10 ^ 9) with 1000000000 in *. lia.
Qed.

Lemma sleeps_in_range_witness : ∃ ms, nanosleep true 1 1999999 = SleepFor ms ∧ ms = 1001 ∧
  ms * 10 ^ 6 ≤ 1 * 10 ^ 9 + 1999999 < (ms + 1) * 10 ^ 6.
Proof.
  destruct (sleeps_in_range 3 0 1 1999999) as (_ & _ & (ms & Hms & Hr) & _); try lia.
  exists ms. split; [exact Hms|]. split; [|exact Hr]. vm_compute in Hms. congruence.
Defined.
