(* ===== verification/Stream.v ===== *)
(** * Writing to a connection: [stream/stream.cc] and [stream/socket_stream.cc]

    [Stream::WriteFixSize], for memory and for a [ByteArray].  (The reading side is
    in [StreamRead.v], and for memory in [HttpSession.v].)  What the kernel answers to each send is given in advance;
    it takes at most what it is offered. *)
From stdpp Require Import list.
From S2P Require Import Prelude ByteBuffer ByteArray.
Local Open Scope Z_scope.

(** ** The connection *)

(** What the peer has been sent, and the answers of the kernel to come: how much it
    takes, or an error; without answers the connection is gone. *)
Record Wire := mkWire { sent : bytes; answers : list Z }.

(** [SocketStream::Write], a send of the socket. *)
Definition Send (data : bytes) : M Wire Z := λ w,
  match answers w with
  | [] => Ret (-1) w
  | a :: rest =>
      let n := Z.min a (Z.of_nat (length data)) in
      if n <=? 0 then Ret n (mkWire (sent w) rest)
      else Ret n (mkWire (sent w ++ take (Z.to_nat n) data) rest)
  end.

(** ** WriteFixSize *)

Fixpoint WriteFixSize_loop (fuel : nat) (data : bytes) : M Wire (option Z) :=
  match fuel with
  | O => λ _, NoFuel
  | S fuel =>
      if (length data =? 0)%nat then mret None
      else
        len ← Send data;
        if len <=? 0 then mret (Some len) else WriteFixSize_loop fuel (drop (Z.to_nat len) data)
  end.

(** An [int]: the length, or the answer of the send that failed. *)
Definition WriteFixSize (data : bytes) : M Wire Z :=
  r ← WriteFixSize_loop (S (length data)) data;
  mret (match r with Some len => len | None => s32 (Z.of_nat (length data)) end).

(** *** From a byte array *)

Definition on_wire {A} : M Wire A → M (Wire * ByteArray) A := zoom fst (λ w s, (w, s.2)).
Definition on_array {A} : M ByteArray A → M (Wire * ByteArray) A := zoom snd (λ b s, (s.1, b)).

(** [SocketStream::Write]: the kernel gathers what the [iovec]s point to; [&iovs[0]]
    of an empty vector is out of bounds. *)
Definition Write_array (length_ : Z) : M (Wire * ByteArray) Z :=
  '(iovs, _) ← on_array (GetReadBuffers [] length_);
  if bool_decide (iovs = []) then undef out_of_bounds
  else
    ba ← on_array get;
    rt ← on_wire (Send (iov_bytes (root_ ba) iovs));
    (if 0 <? rt then on_array (SetPosition (position_ ba + Z.to_nat rt)) else mret tt);;
    mret rt.

Fixpoint WriteFixSize_array_loop (fuel : nat) (left : Z) : M (Wire * ByteArray) (option Z) :=
  match fuel with
  | O => λ _, NoFuel
  | S fuel =>
      if left <=? 0 then mret None
      else
        len ← Write_array left;
        if len <=? 0 then mret (Some len) else WriteFixSize_array_loop fuel (left - len)
  end.

Definition WriteFixSize_array (length_ : nat) : M (Wire * ByteArray) Z :=
  r ← WriteFixSize_array_loop (S length_) (Z.of_nat length_);
  mret (match r with Some len => len | None => s32 (Z.of_nat length_) end).

(** ** Sending *)

Lemma Send_ok data w : data ≠ [] → ∃ r w', Send data w = Ret r w' ∧ (r ≤ 0 ∧ sent w' = sent w ∨
  0 < r ≤ Z.of_nat (length data) ∧ sent w' = sent w ++ take (Z.to_nat r) data).
Proof.
  intros Hd. unfold Send. destruct (answers w) as [|a rest]; [exists (-1), w; split; [done|by left]|].
  destruct (Z.leb_spec (Z.min a (Z.of_nat (length data))) 0); do 2 eexists; (split; [reflexivity|]); [by left|right; split; [lia|done]].
Qed.

Lemma WriteFixSize_loop_ok fuel : ∀ data w, (length data < fuel)%nat → ∃ r w' n,
  WriteFixSize_loop fuel data w = Ret r w' ∧ sent w' = sent w ++ take n data ∧ (n ≤ length data)%nat ∧
  match r with None => n = length data | Some len => len ≤ 0 ∧ (n < length data)%nat end.
Proof.
  induction fuel as [|fuel IH]; intros data w Hf; [lia|]. cbn [WriteFixSize_loop].
  destruct (Nat.eqb_spec (length data) 0) as [H0|H0].
  { exists None, w, 0%nat. rewrite take_0, app_nil_r. split_and!; [done..|lia|done]. }
  destruct (Send_ok data w) as (len & w1 & Hs & Hc); [by destruct data|]. rewrite (bind_Ret _ _ _ _ _ Hs).
  destruct Hc as [[Hle Hw]|[Hlt Hw]].
  - rewrite (proj2 (Z.leb_le _ _)) by done. exists (Some len), w1, 0%nat. rewrite take_0, app_nil_r. split_and!; try done; lia.
  - rewrite (proj2 (Z.leb_gt _ _)) by lia.
    destruct (IH (drop (Z.to_nat len) data) w1) as (r & w' & n & Hr & Hw' & Hn & Hres); [rewrite length_drop; lia|].
    rewrite length_drop in *. exists r, w', (Z.to_nat len + n)%nat. split_and!; [done| |lia|].
    + by rewrite Hw', Hw, <- app_assoc, take_take_drop.
    + destruct r; lia.
Qed.

(** What [WriteFixSize] has sent. *)
Lemma WriteFixSize_ok data w : ∃ r w' n, WriteFixSize data w = Ret r w' ∧ sent w' = sent w ++ take n data ∧
  (n = length data ∧ r = s32 (Z.of_nat (length data)) ∨ (n < length data)%nat ∧ r ≤ 0).
Proof.
  destruct (WriteFixSize_loop_ok (S (length data)) data w) as (r & w' & n & Hr & Hw & Hn & Hres); [lia|].
  unfold WriteFixSize. rewrite (bind_Ret _ _ _ _ _ Hr). eexists _, w', n. split_and!; [done..|].
  destruct r; [right|left]; naive_solver.
Qed.

(** A connection on which nothing goes wrong while [n] bytes are sent. *)
Definition willing (n : nat) (w : Wire) : Prop := Forall (λ a, 0 < a) (answers w) ∧ (n ≤ length (answers w))%nat.

Lemma Send_willing n data w : data ≠ [] → willing (S n) w → ∃ r w', Send data w = Ret r w' ∧ willing n w' ∧
  0 < r ≤ Z.of_nat (length data) ∧ sent w' = sent w ++ take (Z.to_nat r) data.
Proof.
  intros Hd [Ha Hn]. unfold Send. destruct (answers w) as [|a rest]; [cbn in Hn; lia|].
  apply Forall_cons in Ha as [Ha Hr]. assert (0 < Z.of_nat (length data)) by (destruct data; cbn; lia || done).
  rewrite (proj2 (Z.leb_gt _ _)) by lia. do 2 eexists. split; [done|]. cbn in Hn. split_and!; (lia || done || (split; [done|cbn; lia])).
Qed.

Lemma WriteFixSize_loop_willing fuel : ∀ data w n, (length data < fuel)%nat → willing (length data + n) w →
  ∃ w', WriteFixSize_loop fuel data w = Ret None w' ∧ sent w' = sent w ++ data ∧ willing n w'.
Proof.
  induction fuel as [|fuel IH]; intros data w n Hf Hw; [lia|]. cbn [WriteFixSize_loop].
  destruct (Nat.eqb_spec (length data) 0) as [H0|H0].
  { apply nil_length_inv in H0 as ->. exists w. by rewrite app_nil_r. }
  destruct (Send_willing (length data + n - 1) data w) as (len & w1 & Hs & Hw1 & Hl & Hsent); [by destruct data| |].
  { by replace (S (length data + n - 1)) with (length data + n)%nat by lia. }
  rewrite (bind_Ret _ _ _ _ _ Hs), (proj2 (Z.leb_gt _ _)) by lia.
  destruct (IH (drop (Z.to_nat len) data) w1 n) as (w' & Hr & Hs' & Hw'); [rewrite length_drop; lia| |].
  { destruct Hw1 as [Ha Hn]. split; [done|]. rewrite length_drop. lia. }
  exists w'. split; [done|]. split; [|done]. by rewrite Hs', Hsent, <- app_assoc, take_drop.
Qed.

Lemma WriteFixSize_willing data w n : willing (length data + n) w →
  ∃ w', WriteFixSize data w = Ret (s32 (Z.of_nat (length data))) w' ∧ sent w' = sent w ++ data ∧ willing n w'.
Proof.
  intros Hw. destruct (WriteFixSize_loop_willing (S (length data)) data w n) as (w' & Hr & ?); [lia|done|].
  exists w'. split; [|done]. unfold WriteFixSize. by rewrite (bind_Ret _ _ _ _ _ Hr).
Qed.

(** One write from an array takes the bytes at the cursor and moves it past those
    that were sent. *)
Lemma Write_array_ok len w ba : wf ba → 0 < len ≤ Z.of_nat (size_ ba - position_ ba) → ∃ r w' ba',
  Write_array len (w, ba) = Ret r (w', ba') ∧ wf ba' ∧ size_ ba' = size_ ba ∧ content (abs ba') = content (abs ba) ∧
  (r ≤ 0 ∧ sent w' = sent w ∧ position_ ba' = position_ ba ∨
   0 < r ≤ len ∧ position_ ba' = (position_ ba + Z.to_nat r)%nat ∧
   sent w' = sent w ++ slice (position_ ba) (Z.to_nat r) (content (abs ba))).
Proof.
  intros Hwf Hlen. unfold Write_array.
  destruct (GetReadBuffers_spec [] len ba Hwf) as (iovs & Hg & Hb & _); [lia|]. rewrite Nat.min_l in Hg, Hb by lia.
  erewrite bind_Ret by (by apply zoom_Ret). cbn beta iota.
  set (d := slice (position_ ba) (Z.to_nat len) (content (abs ba))) in *.
  assert (length d = Z.to_nat len) as Hd.
  { unfold d. rewrite length_slice; [done|]. rewrite length_content by done. lia. }
  rewrite bool_decide_false; [|intros H; assert (iovs = []) as -> by (by destruct iovs); rewrite <- Hb in Hd; cbn in Hd; lia].
  rewrite (bind_Ret _ _ _ ba (w, ba)) by done. cbn [app]. rewrite Hb.
  destruct (Send_ok d w) as (r & w1 & Hs & Hc); [intros H; rewrite H in Hd; cbn in Hd; lia|].
  erewrite bind_Ret by (by apply zoom_Ret).
  destruct Hc as [[Hr Hw]|[Hr Hw]].
  - rewrite (proj2 (Z.ltb_ge _ _)) by lia. exists r, w1, ba. split_and!; try done. by left.
  - rewrite (proj2 (Z.ltb_lt _ _)) by lia.
    destruct (SetPosition_spec (position_ ba + Z.to_nat r) ba Hwf) as (ba' & Hp & Hwf' & Hpos & Hsz & Hroot & _).
    { pose proof (wf_size _ Hwf). lia. }
    erewrite bind_Ret by (by apply zoom_Ret).
    assert (size_ ba' = size_ ba) as Hsz' by lia.
    exists r, w1, ba'. split_and!; [done|done|done| |right; split_and!; [lia|lia|done|]].
    + unfold abs. cbn [content]. by rewrite Hsz', Hroot.
    + rewrite Hw. f_equal. unfold d, slice. rewrite take_take. f_equal. lia.
Qed.

Lemma WriteFixSize_array_loop_ok fuel : ∀ left w ba, (Z.to_nat left < fuel)%nat → wf ba →
  0 ≤ left ≤ Z.of_nat (size_ ba - position_ ba) → ∃ r w' ba' n,
  WriteFixSize_array_loop fuel left (w, ba) = Ret r (w', ba') ∧ wf ba' ∧ content (abs ba') = content (abs ba) ∧
  position_ ba' = (position_ ba + n)%nat ∧ sent w' = sent w ++ slice (position_ ba) n (content (abs ba)) ∧
  match r with None => Z.of_nat n = left | Some len => len ≤ 0 ∧ Z.of_nat n < left end.
Proof.
  induction fuel as [|fuel IH]; intros left w ba Hf Hwf Hl; [lia|]. cbn [WriteFixSize_array_loop].
  destruct (Z.leb_spec left 0).
  { exists None, w, ba, 0%nat. unfold slice. rewrite take_0, app_nil_r, Nat.add_0_r. split_and!; (done || lia). }
  destruct (Write_array_ok left w ba Hwf) as (r & w1 & ba1 & Hr & Hwf1 & Hs1 & Hc1 & Hcase); [lia|].
  rewrite (bind_Ret _ _ _ _ _ Hr). destruct Hcase as [(Hle & Hw & Hp)|(Hlt & Hp & Hw)].
  - rewrite (proj2 (Z.leb_le _ _)) by done. exists (Some r), w1, ba1, 0%nat. unfold slice.
    rewrite take_0, app_nil_r, Nat.add_0_r. split_and!; (done || lia).
  - rewrite (proj2 (Z.leb_gt _ _)) by lia.
    destruct (IH (left - r) w1 ba1) as (r2 & w2 & ba2 & n & Hr2 & Hwf2 & Hc2 & Hp2 & Hw2 & Hres); [lia|done|lia|].
    exists r2, w2, ba2, (Z.to_nat r + n)%nat. split_and!; [done|done|by rewrite Hc2|lia| |].
    + rewrite Hw2, Hw, Hc1, Hp, <- app_assoc. by rewrite slice_app.
    + destruct r2; lia.
Qed.

(** ** Properties *)

(** [WriteFixSize] of a byte array always ends, however the kernel cuts the data:
    the peer receives a first part of the bytes at the cursor, in order and each
    once, the cursor moves past exactly these, and the answer is positive only when
    everything was sent. *)
Theorem WriteFixSize_array_sends (n : nat) (w : Wire) (ba : ByteArray) :
  wf ba → (n ≤ size_ ba - position_ ba)%nat → ∃ r w' ba' k,
  WriteFixSize_array n (w, ba) = Ret r (w', ba') ∧ wf ba' ∧ content (abs ba') = content (abs ba) ∧
  cursor (abs ba') = (cursor (abs ba) + k)%nat ∧ sent w' = sent w ++ slice (cursor (abs ba)) k (content (abs ba)) ∧
  (k = n ∧ r = s32 (Z.of_nat n) ∨ (k < n)%nat ∧ r ≤ 0).
Proof.
  intros Hwf Hn. destruct (WriteFixSize_array_loop_ok (S n) (Z.of_nat n) w ba)
    as (r & w' & ba' & k & Hr & Hwf' & Hc & Hp & Hw & Hres); [lia|done|lia|].
  unfold WriteFixSize_array. rewrite (bind_Ret _ _ _ _ _ Hr). eexists _, w', ba', k. split_and!; [done..|].
  destruct r; [right|left]; split; try lia; naive_solver.
Qed.

(** An array of ten bytes in blocks of four, at position 1. *)
Definition cc_memory : RawMemory := λ _ _, byte.of_Z 0xCC.
Definition ten_bytes : ByteArray :=
  match (Write (H := cc_memory) (bs "0123456789");; SetPosition 1) (new_ByteArray (H := cc_memory) 4) with
  | Ret _ ba => ba
  | _ => new_ByteArray (H := cc_memory) 4
  end.

Lemma ten_bytes_ok : wf ten_bytes ∧ size_ ten_bytes = 10%nat ∧ position_ ten_bytes = 1%nat.
Proof. split; [|by vm_compute]. split; vm_compute; try done; try lia. by repeat constructor. Qed.

(** The kernel takes three bytes, and two, and fails. *)
Lemma WriteFixSize_array_sends_witness : ∃ w' ba',
  WriteFixSize_array 8 (mkWire [] [3; 2; -1], ten_bytes) = Ret (-1) (w', ba') ∧ sent w' = bs "12345" ∧ cursor (abs ba') = 6%nat.
Proof.
  destruct ten_bytes_ok as (Hwf & Hs & Hp).
  destruct (WriteFixSize_array_sends 8 (mkWire [] [3; 2; -1]) ten_bytes Hwf) as (r & w' & ba' & k & Hr & _ & _ & Hc & Hw & Hk);
    [rewrite Hs, Hp; lia|].
  vm_compute in Hr. injection Hr as <- <- <-. do 2 eexists. split_and!; [vm_compute; reflexivity..].
Defined.
