(* ===== verification/StreamRead.v ===== *)
(** * Reading from a connection into a byte array: [stream/stream.cc] and [stream/socket_stream.cc]

    [SocketStream::Read] and [Stream::ReadFixSize] of a [ByteArray]: the kernel
    scatters what has arrived over the blocks behind the cursor, and the cursor
    follows.  (The writing side is in [Stream.v].)  What arrives, and the errors in
    between, are given in advance. *)
From stdpp Require Import list.
From S2P Require Import Prelude ByteBuffer ByteArray Stream.
Local Open Scope Z_scope.

(** ** The connection *)

(** What is still to arrive: pieces of data, and errors of the call; an empty piece is
    the end of the stream, and without any more the connection is gone. *)
Abbreviation Inflow := (list (Z + bytes)).

(** [Socket::Recv] with room for [n] bytes: its answer, and the bytes. *)
Definition Recv (n : nat) : M Inflow (Z * bytes) := λ q,
  match q with
  | [] => Ret (-1, []) []
  | inl e :: q => Ret (Z.min e 0, []) q
  | inr d :: q =>
    if bool_decide (take n d = []) then Ret (0, []) (inr d :: q)
    else Ret (Z.of_nat (length (take n d)), take n d) (if bool_decide (drop n d = []) then q else inr (drop n d) :: q)
  end.

(** [recvmsg] fills the buffers one after the other. *)
Fixpoint scatter (ns : list Node) (iovs : list iovec) (d : bytes) : list Node :=
  match iovs, d with
  | v :: iovs, _ :: _ =>
    scatter (alter (λ n, mkNode (splice (iov_off v) (take (iov_len v) d) (ptr n)) (nsize n)) (iov_node v) ns)
      iovs (drop (iov_len v) d)
  | _, _ => ns
  end.

(** ** Reading *)

Section reading.
Context `{RawMemory}.

Definition on_inflow {A} : M Inflow A → M (Inflow * ByteArray) A := zoom fst (λ q s, (q, s.2)).
Definition on_target {A} : M ByteArray A → M (Inflow * ByteArray) A := zoom snd (λ b s, (s.1, b)).

(** [SocketStream::Read]; [&iovs[0]] of an empty vector is out of bounds. *)
Definition Read_array (length_ : nat) : M (Inflow * ByteArray) Z :=
  '(iovs, _) ← on_target (GetWriteBuffers [] length_);
  if bool_decide (iovs = []) then undef out_of_bounds
  else
    '(rt, d) ← on_inflow (Recv (list_sum (map iov_len iovs)));
    on_target (modify (λ ba, set_root_ (scatter (root_ ba) iovs d) ba));;
    ba ← on_target get;
    (if 0 <? rt then on_target (SetPosition (position_ ba + Z.to_nat rt)) else mret tt);;
    mret rt.

(** [Stream::ReadFixSize]; every turn reads a byte or ends the loop. *)
Fixpoint ReadFixSize_array_loop (fuel : nat) (left : Z) : M (Inflow * ByteArray) (option Z) :=
  match fuel with
  | O => λ _, NoFuel
  | S fuel =>
      if left <=? 0 then mret None
      else
        len ← Read_array (Z.to_nat left);
        if len <=? 0 then mret (Some len) else ReadFixSize_array_loop fuel (left - len)
  end.

(** An [int]: the length, or the answer of the call that failed. *)
Definition ReadFixSize_array (length_ : nat) : M (Inflow * ByteArray) Z :=
  r ← ReadFixSize_array_loop (S length_) (Z.of_nat length_);
  mret (match r with Some len => len | None => s32 (Z.of_nat length_) end).
End reading.

(** ** Scattering *)

(** Buffers that lie one behind the other from position [p] on. *)
Fixpoint adjoining (base p : nat) (iovs : list iovec) : Prop :=
  match iovs with
  | [] => True
  | v :: iovs =>
    (iov_node v = p / base ∧ iov_off v = p `mod` base ∧ iov_off v + iov_len v ≤ base)%nat ∧ adjoining base (p + iov_len v) iovs
  end.

Lemma iov_loop_adjoining base ba : (0 < base)%nat → chain_ok base (root_ ba) →
  ∀ fuel size p bufs bufs', (p + size ≤ length (root_ ba) * base)%nat →
  iov_loop fuel (p / base) size (p `mod` base) (base - p `mod` base) bufs ba = Ret bufs' ba →
  ∃ iovs, bufs' = bufs ++ iovs ∧ adjoining base p iovs.
Proof.
  intros Hb Hc. induction fuel as [|fuel IH]; intros size p bufs bufs' Hp Hr; cbn [iov_loop] in Hr;
    destruct (Nat.eqb_spec size 0) as [H0|H0]; try done; try (injection Hr as <-; exists []; by rewrite app_nil_r).
  pose proof (Nat.mod_upper_bound p base).
  destruct (root_ ba !! (p / base)%nat) as [n|]; [|done].
  destruct (Nat.leb_spec size (base - p `mod` base)) as [Hle|Hgt].
  { destruct fuel; cbn in Hr; injection Hr as <-; eexists; (split; [done|]); cbn; split_and!; done || lia. }
  destruct (next_position_block base Hb p) as [Hd Hm].
  destruct (root_ ba !! S (p / base)) as [n'|] eqn:Hn'; [|done].
  destruct (chain_ok_lookup _ _ _ _ Hc Hn') as [Hs _]. rewrite Hs, <- Hd in Hr.
  destruct (IH (size - (base - p `mod` base))%nat (p + (base - p `mod` base))%nat
    (bufs ++ [mkIovec (p / base) (p `mod` base) (base - p `mod` base)]) bufs') as (iovs & -> & Ha); [lia| |].
  { rewrite Hm, Nat.sub_0_r. done. }
  rewrite <- app_assoc. eexists. split; [done|]. cbn. split_and!; [done|done|lia|done].
Qed.

(** What is scattered over adjoining buffers lies behind position [p]. *)
Lemma scatter_spec base iovs : (0 < base)%nat → ∀ ns p d, chain_ok base ns → adjoining base p iovs →
  (p + list_sum (map iov_len iovs) ≤ length ns * base)%nat → (length d ≤ list_sum (map iov_len iovs))%nat →
  chain_ok base (scatter ns iovs d) ∧ length (scatter ns iovs d) = length ns ∧ flat (scatter ns iovs d) = splice p d (flat ns).
Proof.
  intros Hb. induction iovs as [|v iovs IH]; intros ns p d Hc Ha Hp Hd; cbn in Hp, Hd.
  { apply Nat.le_0_r, nil_length_inv in Hd as ->. cbn. rewrite splice_nil; [done|]. rewrite (length_flat base) by done. lia. }
  destruct d as [|x d]; cbn [scatter].
  { rewrite splice_nil; [done|]. rewrite (length_flat base) by done. lia. }
  set (d' := x :: d) in *. cbn in Ha. destruct Ha as [(Hnode & Hoff & Hlen) Ha].
  assert (0 < iov_len v ∨ iov_len v = 0)%nat as [Hv|Hv] by lia; cycle 1.
  { rewrite Hv in *. rewrite take_0, drop_0. rewrite Nat.add_0_r in *.
    assert (alter (λ n, mkNode (splice (iov_off v) [] (ptr n)) (nsize n)) (iov_node v) ns = ns) as ->; [|by apply IH].
    apply list_eq. intros i. destruct (decide (i = iov_node v)) as [->|]; [|by rewrite list_lookup_alter_ne].
    rewrite list_lookup_alter_eq. destruct (ns !! iov_node v) as [n|] eqn:E; [|done]. cbn.
    destruct (chain_ok_lookup _ _ _ _ Hc E). rewrite splice_nil by lia. by destruct n. }
  destruct (block_of_position base Hb ns p) as [n Hn]; [lia|]. rewrite <- Hnode in Hn.
  destruct (chain_ok_lookup _ _ _ _ Hc Hn) as [Hs Hl]. pose proof (Nat.div_mod_eq p base).
  assert (length (take (iov_len v) d') ≤ iov_len v)%nat by (rewrite length_take; lia).
  assert (alter (λ n, mkNode (splice (iov_off v) (take (iov_len v) d') (ptr n)) (nsize n)) (iov_node v) ns
    = <[iov_node v := mkNode (splice (iov_off v) (take (iov_len v) d') (ptr n)) (nsize n)]> ns) as ->.
  { apply list_eq. intros i. destruct (decide (i = iov_node v)) as [->|].
    - rewrite list_lookup_alter_eq, Hn. by rewrite list_lookup_insert_eq by (by eapply lookup_lt_Some).
    - by rewrite list_lookup_alter_ne, list_lookup_insert_ne. }
  set (ns1 := <[_ := _]> ns).
  assert (flat ns1 = splice p (take (iov_len v) d') (flat ns)) as Hf.
  { unfold ns1. rewrite (flat_insert base) by (done || lia). f_equal. lia. }
  assert (chain_ok base ns1) as Hc1. { unfold ns1. rewrite Hs. apply chain_ok_insert; [done|]. rewrite length_splice; lia. }
  assert (length ns1 = length ns) as Hl1 by (unfold ns1; by rewrite length_insert).
  destruct (IH ns1 (p + iov_len v)%nat (drop (iov_len v) d')) as (Hc2 & Hl2 & Hf2);
    [done|done|rewrite Hl1; unfold list_sum; lia|rewrite length_drop; unfold list_sum; lia|].
  split; [done|]. split; [lia|]. rewrite Hf2, Hf. destruct (decide (length d' ≤ iov_len v)%nat) as [Hle|Hgt].
  - rewrite drop_ge, take_ge by lia. rewrite splice_nil; [done|].
    rewrite length_splice by (rewrite (length_flat base) by done; lia). rewrite (length_flat base) by done. lia.
  - rewrite <- (take_drop (iov_len v) d') at 3. rewrite <- splice_splice by (rewrite (length_flat base) by done; lia).
    rewrite length_take, Nat.min_l by lia. done.
Qed.

Lemma GetWriteBuffers_adjoining `{RawMemory} len ba iovs l ba1 : wf ba → (0 < len)%nat → GetWriteBuffers [] len ba = Ret (iovs, l) ba1 →
  adjoining (base_size_ ba1) (position_ ba1) iovs ∧ base_size_ ba1 = base_size_ ba ∧ endian_ ba1 = endian_ ba.
Proof.
  intros Hwf Hlen. unfold GetWriteBuffers. rewrite (proj2 (Nat.eqb_neq _ _)) by lia.
  destruct (AddCapacity_spec len ba Hwf) as (ba2 & junk & Hrun & Hwf2 & Hcap & _ & Hbase & Hpos & _ & Hend).
  rewrite (bind_Ret _ _ _ _ _ Hrun), (bind_Ret get _ _ ba2 ba2) by done.
  rewrite (bind_Ret _ _ _ _ _ (mod_base_ok _ _ _ Hwf2)).
  destruct (node_at_cur ba2 ba2 Hwf2) as (nd & Hnd & Hns); [lia|]. rewrite (bind_Ret _ _ _ _ _ Hnd), Hns.
  destruct Hwf2 as [Hb _ Hc Hcap2 _ _ Hcu]. rewrite Hcu. intros Hr.
  destruct (iov_loop_spec _ ba2 Hb Hc (S (length (root_ ba2))) len (position_ ba2) []) as (vs & Hl & _); [lia..|].
  rewrite (bind_Ret _ _ _ _ _ Hl) in Hr. injection Hr as <- <- <-.
  destruct (iov_loop_adjoining _ ba2 Hb Hc _ len (position_ ba2) [] _ ltac:(lia) Hl) as (vs' & Hvs & Ha). cbn [app] in *. by subst vs'.
Qed.

(** ** One read *)

(** The data that is still to arrive. *)
Fixpoint arriving (q : Inflow) : bytes :=
  match q with [] => [] | inl _ :: q => arriving q | inr d :: q => d ++ arriving q end.

Lemma Recv_ok n q : ∃ r d q', Recv n q = Ret (r, d) q' ∧ arriving q = d ++ arriving q' ∧ (length d ≤ n)%nat ∧
  (r ≤ 0 ∧ d = [] ∨ 0 < r ∧ r = Z.of_nat (length d)).
Proof.
  destruct q as [|[e|d] q]; cbn [Recv].
  - exists (-1), [], []. split_and!; [done..|cbn; lia|by left].
  - exists (Z.min e 0), [], q. split_and!; [done..|cbn; lia|left; split; [lia|done]].
  - case_bool_decide as H0.
    + exists 0, [], (inr d :: q). split_and!; [done..|cbn; lia|by left].
    + eexists _, _, _. split; [done|]. split_and!; [|rewrite length_take; lia|].
      * case_bool_decide as H1; cbn [arriving]; rewrite <- (take_drop n d) at 1; [by rewrite H1, app_nil_r|by rewrite app_assoc].
      * right. split; [|done]. destruct (take n d); [done|cbn; lia].
Qed.

Section laws.
Context `{RawMemory}.

Lemma Read_array_ok n q ba : wf ba → (0 < n)%nat → ∃ r q' ba' d, Read_array n (q, ba) = Ret r (q', ba') ∧
  wf ba' ∧ abs ba' = abs_write d (abs ba) ∧ arriving q = d ++ arriving q' ∧ (length d ≤ n)%nat ∧
  (r ≤ 0 ∧ d = [] ∨ 0 < r ∧ r = Z.of_nat (length d)) ∧ Recv n q = Ret (r, d) q'.
Proof.
  intros Hwf Hn. unfold Read_array.
  destruct (GetWriteBuffers_spec [] n ba Hwf Hn) as (iovs & ba1 & junk & Hg & Hwf1 & Ha1 & Hf1 & _ & _ & Hsum & Hcap). cbn [app] in Hg.
  destruct (GetWriteBuffers_adjoining n ba iovs n ba1 Hwf Hn Hg) as (Hadj & _ & _).
  erewrite bind_Ret by (by apply zoom_Ret). cbn beta iota.
  rewrite bool_decide_false by (intros ->; cbn in Hsum; lia). rewrite Hsum.
  destruct (Recv_ok n q) as (r & d & q' & Hr & Hq & Hd & Hc). erewrite bind_Ret by (by apply zoom_Ret). cbn beta iota.
  assert (position_ ba1 = position_ ba ∧ take (size_ ba1) (flat (root_ ba1)) = take (size_ ba) (flat (root_ ba))) as [Hp Ht].
  { unfold abs in Ha1. by injection Ha1. }
  assert (size_ ba1 = size_ ba) as Hs.
  { pose proof (length_content _ Hwf1) as H1. pose proof (length_content _ Hwf) as H2. cbn in H1, H2. rewrite Ht in H1. congruence. }
  set (ba2 := set_root_ (scatter (root_ ba1) iovs d) ba1).
  destruct (scatter_spec (base_size_ ba1) iovs (wf_base _ Hwf1) (root_ ba1) (position_ ba1) d (wf_chain _ Hwf1) Hadj) as (Hc2 & Hl2 & Hf2).
  { pose proof (wf_length _ Hwf1) as Hw. rewrite (length_flat (base_size_ ba1)) in Hw by apply Hwf1. rewrite Hw, Hsum. lia. }
  { lia. }
  assert (wf ba2) as Hwf2.
  { destruct Hwf1 as [? Hne ? ? ? ? ?]. unfold ba2. destruct ba1. constructor; cbn in *; try done; [|by rewrite Hl2].
    intros E. rewrite E in Hl2. by destruct root_. }
  erewrite bind_Ret by (by apply zoom_Ret). rewrite (bind_Ret _ _ _ ba2 (q', ba2)) by done.
  assert (position_ ba2 = position_ ba ∧ size_ ba2 = size_ ba ∧ capacity_ ba2 = capacity_ ba1 ∧ root_ ba2 = scatter (root_ ba1) iovs d) as (Hp2 & Hs2 & Hcap2 & Hroot2).
  { unfold ba2. destruct ba1; cbn in *. done. }
  destruct Hc as [[Hle ->]|[Hlt Hlen]].
  - rewrite (proj2 (Z.ltb_ge _ _)) by lia. exists r, q', ba2, []. split_and!; try done; [|by left].
    rewrite abs_write_nil by (rewrite length_content by done; cbn; apply Hwf). rewrite <- Ha1. unfold abs.
    rewrite Hs2, Hp2, Hs, Hp, Hroot2. by destruct iovs.
  - rewrite (proj2 (Z.ltb_lt _ _)) by lia.
    destruct (SetPosition_spec (position_ ba2 + Z.to_nat r) ba2 Hwf2) as (ba' & Hset & Hwf' & Hpos & Hsz & Hroot & _); [lia|].
    erewrite bind_Ret by (by apply zoom_Ret). exists r, q', ba', d. split_and!; try done; [|by right].
    unfold abs, abs_write. cbn [content cursor]. rewrite Hpos, Hsz, Hroot, Hroot2, Hf2, Hp2, Hs2, Hp, Hf1.
    replace (Z.to_nat r) with (length d) by lia. f_equal. apply take_splice_app.
    + apply Hwf.
    + rewrite wf_length by done. apply Hwf.
    + pose proof (wf_length _ Hwf1) as Hw. rewrite Hf1 in Hw. rewrite Hw. lia.
Qed.
(** Pieces of data only, none of them empty. *)
Definition plain (q : Inflow) : Prop := Forall (λ a, ∃ d, a = inr d ∧ d ≠ []) q.

Lemma Recv_plain n q : plain q → (0 < n)%nat → arriving q ≠ [] → ∃ r d q', Recv n q = Ret (r, d) q' ∧ 0 < r ∧ plain q'.
Proof.
  intros Hq Hn Ha. destruct q as [|a q]; [done|]. apply Forall_cons in Hq as [(d & -> & Hd) Hq]. cbn [Recv].
  rewrite bool_decide_false by (destruct n, d; done || lia). eexists _, _, _. split; [done|]. split.
  - rewrite length_take. destruct d; [done|cbn [length]; lia].
  - case_bool_decide; [done|]. apply Forall_cons. split; [by eexists|done].
Qed.

Lemma ReadFixSize_array_loop_ok fuel : ∀ left q ba, (Z.to_nat left < fuel)%nat → wf ba → 0 ≤ left → ∃ r q' ba' d,
  ReadFixSize_array_loop fuel left (q, ba) = Ret r (q', ba') ∧ wf ba' ∧ abs ba' = abs_write d (abs ba) ∧
  arriving q = d ++ arriving q' ∧ match r with None => Z.of_nat (length d) = left | Some len => len ≤ 0 ∧ Z.of_nat (length d) < left end ∧
  (plain q → left ≤ Z.of_nat (length (arriving q)) → r = None).
Proof.
  induction fuel as [|fuel IH]; intros left q ba Hf Hwf Hl; [lia|]. cbn [ReadFixSize_array_loop].
  assert (cursor (abs ba) ≤ length (content (abs ba)))%nat as Hcur by (rewrite length_content by done; cbn; apply Hwf).
  destruct (Z.leb_spec left 0).
  { exists None, q, ba, []. split_and!; [done|done|by rewrite abs_write_nil|done|cbn; lia|done]. }
  destruct (Read_array_ok (Z.to_nat left) q ba Hwf) as (r & q1 & ba1 & d & Hr & Hwf1 & Ha1 & Hq & Hd & Hc & Hrecv); [lia|].
  rewrite (bind_Ret _ _ _ _ _ Hr). destruct Hc as [[Hle ->]|[Hlt Hlen]].
  - rewrite (proj2 (Z.leb_le _ _)) by done. exists (Some r), q1, ba1, []. split_and!; [done..|cbn; lia|].
    intros Hp Hn. destruct (Recv_plain (Z.to_nat left) q Hp) as (r' & d' & q'' & Hr' & ? & _); [lia|destruct (arriving q); [cbn in Hn; lia|done]|].
    rewrite Hrecv in Hr'. injection Hr' as <- <- <-. lia.
  - rewrite (proj2 (Z.leb_gt _ _)) by lia.
    destruct (IH (left - r) q1 ba1) as (r2 & q2 & ba2 & d2 & Hr2 & Hwf2 & Ha2 & Hq2 & Hres & Hpl); [lia|done|lia|].
    exists r2, q2, ba2, (d ++ d2). split_and!; [done|done|by rewrite Ha2, Ha1, abs_write_app|by rewrite Hq, Hq2, app_assoc| |].
    + rewrite length_app. destruct r2; lia.
    + intros Hp Hn. apply Hpl; [|rewrite Hq, length_app in Hn; lia].
      destruct (Recv_plain (Z.to_nat left) q Hp) as (r' & d' & q'' & Hr' & _ & ?); [lia|rewrite Hq; by destruct d; cbn in Hlen; [lia|]|].
      rewrite Hrecv in Hr'. by injection Hr' as <- <- <-.
Qed.

(** ** Properties *)

(** [ReadFixSize] into a byte array always ends, however what arrives is cut, with
    errors in between or without: the array becomes what a write of the bytes it took
    from the connection would make of it, over as many blocks as these need; the answer
    is positive only when there were as many as asked for, and it asks for no more. *)
Theorem ReadFixSize_array_receives (n : nat) (q : Inflow) (ba : ByteArray) : wf ba → ∃ r q' ba' d,
  ReadFixSize_array n (q, ba) = Ret r (q', ba') ∧ wf ba' ∧ abs ba' = abs_write d (abs ba) ∧ arriving q = d ++ arriving q' ∧
  (length d = n ∧ r = s32 (Z.of_nat n) ∨ (length d < n)%nat ∧ r ≤ 0).
Proof.
  intros Hwf. destruct (ReadFixSize_array_loop_ok (S n) (Z.of_nat n) q ba)
    as (r & q' & ba' & d & Hr & Hwf' & Ha & Hq & Hres & _); [lia|done|lia|].
  unfold ReadFixSize_array. rewrite (bind_Ret _ _ _ _ _ Hr). eexists _, q', ba', d. split_and!; [done..|].
  destruct r; [right|left]; split; try lia; by destruct Hres.
Qed.

(** C11: What is in one byte array reaches another one at the other end of a connection:
    when [WriteFixSize] of the first answers that it has sent all, [ReadFixSize] of the
    second answers the same, and the bytes behind the cursor of the first are written at
    the cursor of the second, whatever the sizes of the blocks of the two and however the
    kernels cut the data. *)
Theorem array_crosses (n : nat) (w w' : Wire) (ba ba' bb : ByteArray) (r : Z) : wf ba → wf bb → (n ≤ size_ ba - position_ ba)%nat →
  sent w = [] → WriteFixSize_array n (w, ba) = Ret r (w', ba') → 0 < r →
  ∀ q, plain q → arriving q = sent w' → ∃ q' bb', ReadFixSize_array n (q, bb) = Ret r (q', bb') ∧
    abs bb' = abs_write (take n (abs_left (abs ba))) (abs bb) ∧ arriving q' = [].
Proof.
  intros Hwf Hwfb Hn Hw Hsend Hpos q Hp Hq.
  destruct (WriteFixSize_array_loop_ok (S n) (Z.of_nat n) w ba) as (rw & w1 & ba1 & k & Hr & _ & _ & _ & Hs & Hk); [lia|done|lia|].
  unfold WriteFixSize_array in Hsend. rewrite (bind_Ret _ _ _ _ _ Hr) in Hsend. injection Hsend as <- <- <-.
  destruct rw as [len|]; [lia|]. assert (k = n) as -> by lia. rewrite Hw in Hs. cbn [app] in Hs.
  assert (length (sent w1) = n) as Hlen.
  { rewrite Hs. apply length_slice. rewrite length_content by done. pose proof (wf_position _ Hwf). cbn. lia. }
  destruct (ReadFixSize_array_loop_ok (S n) (Z.of_nat n) q bb) as (r & q' & bb' & d & Hrr & _ & Ha & Hqq & Hres & Hnone); [lia|done|lia|].
  rewrite Hnone in Hres, Hrr by (done || rewrite Hq; lia). unfold ReadFixSize_array. rewrite (bind_Ret _ _ _ _ _ Hrr).
  exists q', bb'. split; [done|]. rewrite Hq in Hqq. assert (length (sent w1) = length d + length (arriving q'))%nat as Hl by (by rewrite Hqq, length_app).
  assert (arriving q' = []) as Hnil by (apply nil_length_inv; lia). rewrite Hnil, app_nil_r in Hqq. split; [|done].
  rewrite Ha. f_equal. rewrite <- Hqq, Hs. done.
Qed.
End laws.

(** *** Examples *)

(** An array of blocks of three bytes with its cursor at 2, and five bytes that arrive in
    pieces of two, one and four. *)
Definition other_array : ByteArray :=
  match Write (H := cc_memory) (bs "ab") (new_ByteArray (H := cc_memory) 3) with Ret _ ba => ba | _ => new_ByteArray (H := cc_memory) 3 end.
Lemma other_array_wf : wf other_array.
Proof. constructor; vm_compute; repeat constructor; discriminate. Qed.
Lemma ReadFixSize_array_receives_witness : ∃ r q' ba' d,
  ReadFixSize_array (H := cc_memory) 5 ([inr (bs "01"); inr (bs "2"); inl (-1)], other_array) = Ret r (q', ba') ∧ r ≤ 0 ∧
  abs ba' = abs_write d (abs other_array) ∧ d = bs "012".
Proof.
  destruct (ReadFixSize_array_receives (H := cc_memory) 5 [inr (bs "01"); inr (bs "2"); inl (-1)] other_array other_array_wf)
    as (r & q' & ba' & d & Hr & _ & Ha & Hd & Hc). exists r, q', ba', d. split; [done|].
  destruct Hc as [[Hl _]|[Hl Hle]]; [exfalso; apply (f_equal length) in Hd; rewrite length_app in Hd; cbn in Hd; lia|].
  split; [done|]. split; [done|]. revert Hr Ha. vm_compute ReadFixSize_array. intros Hr Ha. injection Hr as _ <- _.
  cbn in Hd. by rewrite app_nil_r in Hd.
Defined.

Lemma plain_pieces ds : Forall (λ d, d ≠ []) ds → plain (inr <$> ds).
Proof. intros Hd. apply Forall_fmap. eapply Forall_impl; [exact Hd|]. intros d ?. by exists d. Qed.

(** What the first five bytes of the ten leave, sent in four pieces. *)
Definition five_sent : Wire * ByteArray :=
  match WriteFixSize_array 5 (mkWire [] [3; 3; 1; 1; 1], ten_bytes) with Ret _ s => s | _ => (mkWire [] [], ten_bytes) end.

Lemma array_crosses_witness : ∃ q' bb', WriteFixSize_array 5 (mkWire [] [3; 3; 1; 1; 1], ten_bytes) = Ret 5 five_sent ∧
  sent five_sent.1 = bs "12345" ∧
  ReadFixSize_array (H := cc_memory) 5 ([inr (bs "12"); inr (bs "3"); inr (bs "45")], other_array) = Ret 5 (q', bb') ∧
  content (abs bb') = bs "ab12345" ∧ cursor (abs bb') = 7%nat.
Proof.
  destruct ten_bytes_ok as (Hwf & Hs & Hp).
  assert (WriteFixSize_array 5 (mkWire [] [3; 3; 1; 1; 1], ten_bytes) = Ret 5 (five_sent.1, five_sent.2)) as Hw by (vm_compute; reflexivity).
  destruct (array_crosses (H := cc_memory) 5 (mkWire [] [3; 3; 1; 1; 1]) five_sent.1 ten_bytes five_sent.2 other_array 5
    Hwf other_array_wf) with (q := [inr (bs "12"); inr (bs "3"); inr (bs "45")] : Inflow) as (q' & bb' & Hq & Ha & _).
  - rewrite Hs, Hp. lia.
  - done.
  - exact Hw.
  - done.
  - apply (plain_pieces [bs "12"; bs "3"; bs "45"]). repeat (apply List.Forall_cons; [done|]). apply List.Forall_nil.
  - vm_compute. reflexivity.
  - exists q', bb'. split; [exact Hw|]. split; [vm_compute; reflexivity|]. split; [exact Hq|].
    rewrite Ha. split; vm_compute; reflexivity.
Defined.
