(* ===== verification/LogFormatter.v ===== *)
(** * Log levels, events and the formatter of [server_frame/log.h] and [log.cc] *)
From stdpp Require Import list.
From S2P Require Import Prelude Strings CLib.
From Stdlib Require Import DecimalN DecimalString.

(** ** Levels *)

Inductive Level := kUnknown | kDebug | kInfo | kWarn | kError | kFatal.
#[export] Instance Level_eq_dec : EqDecision Level.
Proof. solve_decision. Defined.

Definition Level_num (l : Level) : nat :=
  match l with kUnknown => 0 | kDebug => 1 | kInfo => 2 | kWarn => 3 | kError => 4 | kFatal => 5 end.

Module LogLevel.
Definition ToString (level : Level) : bytes :=
  match level with
  | kDebug => bs "DEBUG" | kInfo => bs "INFO" | kWarn => bs "WARN"
  | kError => bs "ERROR" | kFatal => bs "FATAL" | kUnknown => bs "UNKNOWN"
  end.

(** The chain of comparisons of the macro [XX]: lower case first. *)
Definition names : list (bytes * Level) := [
  (bs "debug", kDebug); (bs "info", kInfo); (bs "warn", kWarn); (bs "error", kError); (bs "fatal", kFatal);
  (bs "DEBUG", kDebug); (bs "INFO", kInfo); (bs "WARN", kWarn); (bs "ERROR", kError); (bs "FATAL", kFatal)].
Definition FromString (str : bytes) : Level :=
  match list_find (λ x, x.1 = str) names with Some (_, (_, l)) => l | None => kUnknown end.
End LogLevel.

(** [level >= level_] *)
Definition level_ge (a b : Level) : bool := Level_num b <=? Level_num a.

(** ** Events *)

(** An event; [logger_] is the pointer to the logger it was made for, an index
    into the loggers of [Logger.v], and [name_] the name of that logger, which
    never changes. *)
Record LogEvent := mkEvent {
  filename_ : bytes; line_ : Z; elapse_ : Z; thread_id_ : Z; fiber_id_ : Z; time_ : Z;
  thread_name_ : bytes; string_stream_ : bytes; logger_ : nat; name_ : bytes; level_ : Level }.

(** [LogEvent::Format] with the text [vasprintf] made, [None] when it failed. *)
Definition LogEvent_Format (text : option bytes) (e : LogEvent) : LogEvent :=
  match text with
  | Some t => mkEvent (filename_ e) (line_ e) (elapse_ e) (thread_id_ e) (fiber_id_ e) (time_ e) (thread_name_ e)
                (string_stream_ e ++ t) (logger_ e) (name_ e) (level_ e)
  | None => e
  end.

(** ** Format items *)

Inductive FormatItem :=
  | MessageFormatItem | LevelFormatItem | ElapseFormatItem | NameFormatItem | ThreadIdFormatItem
  | NewLineFormatItem | DateTimeFormatItem (format : bytes) | FilenameFormatItem | LineFormatItem
  | TabFormatItem | FiberIdFormatItem | ThreadNameFormatItem | StringFormatItem (m_string : bytes).
#[export] Instance FormatItem_eq_dec : EqDecision FormatItem.
Proof. solve_decision. Defined.

Definition newline : bytes := [byte.of_Z 10].
Definition default_time_format : bytes := bs "%Y-%m-%d %H:%M:%S".
Definition DateTimeFormatItem_new (format : bytes) : FormatItem :=
  DateTimeFormatItem (if bool_decide (format = []) then default_time_format else format).

(** A signed number as a stream prints it. *)
Definition signed_dec (z : Z) : bytes :=
  if (z <? 0)%Z then byte.of_Z 45 :: dec (Z.to_N (- z)) else dec (Z.to_N z).

Section format.
(** What [localtime_r] and [strftime] make of a format and a time: [None] when
    there is no such local time. *)
Context (strftime : bytes → Z → option bytes).

(** The size of the buffer of [DateTimeFormatItem::Format]. *)
Definition time_size : nat := 64.

(** [FormatItem::Format].  A text that does not fit the buffer leaves its contents
    indeterminate, and they are printed all the same. *)
Definition FormatItem_Format {St} (i : FormatItem) (level : Level) (e : LogEvent) : M St bytes :=
  match i with
  | MessageFormatItem => mret (string_stream_ e)
  | LevelFormatItem => mret (LogLevel.ToString level)
  | ElapseFormatItem => mret (dec (Z.to_N (elapse_ e)))
  | NameFormatItem => mret (name_ e)
  | ThreadIdFormatItem => mret (dec (Z.to_N (thread_id_ e)))
  | NewLineFormatItem => mret newline
  | DateTimeFormatItem format =>
      match strftime (c_str format) (s64 (time_ e)) with
      | Some t => if length t <? time_size then mret (c_str t) else undef uninitialised
      | None => undef uninitialised
      end
  | FilenameFormatItem => mret (filename_ e)
  | LineFormatItem => mret (signed_dec (line_ e))
  | TabFormatItem => mret [byte.of_Z 9]
  | FiberIdFormatItem => mret (dec (Z.to_N (fiber_id_ e)))
  | ThreadNameFormatItem => mret (thread_name_ e)
  | StringFormatItem s => mret s
  end.

(** The loop of both [LogFormatter::Format]. *)
Fixpoint Format_items {St} (items : list FormatItem) (level : Level) (e : LogEvent) : M St bytes :=
  match items with
  | [] => mret []
  | i :: items => out ← FormatItem_Format i level e; rest ← Format_items items level e; mret (out ++ rest)
  end.
End format.

(** ** [LogFormatter::Init] *)

Definition percent : byte := byte.of_Z 37.
Definition open_brace : byte := byte.of_Z 123.
Definition close_brace : byte := byte.of_Z 125.

(** [isalpha] in the locale C. *)
Definition isalpha (b : byte) : bool :=
  let c := uchar b in ((65 <=? c) && (c <=? 90) || (97 <=? c) && (c <=? 122))%Z.

(** The loop after a percent sign at [i]: its [n], [fmt_status], [str] and [fmt]
    when it ends. *)
Fixpoint scan (fuel : nat) (p : bytes) (i n : nat) (fmt_status : bool) (fmt_begin : nat) (str fmt : bytes)
    : option (nat * bool * bytes * bytes) :=
  match fuel with
  | O => None
  | S fuel =>
    match p !! n with
    | None => Some (n, fmt_status, str, fmt)
    | Some c =>
      let go_on :=
        let str := if (S n =? length p) && bool_decide (str = []) then substr_from p (i + 1) else str in
        scan fuel p i (S n) fmt_status fmt_begin str fmt in
      if negb fmt_status && (negb (isalpha c) && bool_decide (c ≠ open_brace) && bool_decide (c ≠ close_brace))
      then Some (n, fmt_status, substr p (i + 1) (n - i - 1), fmt)
      else if negb fmt_status then
        if bool_decide (c = open_brace) then scan fuel p i (S n) true n (substr p (i + 1) (n - i - 1)) fmt else go_on
      else if bool_decide (c = close_brace) then Some (S n, false, str, substr p (fmt_begin + 1) (n - fmt_begin - 1))
      else go_on
    end
  end.

(** An entry of [vec]: text, or a name with its format. *)
Inductive entry := Text (s : bytes) | Spec (name fmt : bytes).
#[export] Instance entry_eq_dec : EqDecision entry.
Proof. solve_decision. Defined.

Definition pattern_error : bytes := bs "<<pattern_error>>".
Definition flush (nstr : bytes) : list entry := if bool_decide (nstr = []) then [] else [Text nstr].

(** The message of a format that is not closed. *)
Definition parse_error (p : bytes) (i : nat) : bytes :=
  bs "pattern parse error: " ++ p ++ bs " - " ++ substr_from p i ++ newline.

(** The loop over the pattern: the entries, whether there was an error, and what
    was printed. *)
Fixpoint Init_loop (fuel : nat) (p : bytes) (i : nat) (nstr : bytes) : option (list entry * bool * bytes) :=
  match fuel with
  | O => None
  | S fuel =>
    match p !! i with
    | None => Some (flush nstr, false, [])
    | Some c =>
      if bool_decide (c ≠ percent) then Init_loop fuel p (S i) (nstr ++ [c])
      else if bool_decide (p !! (i + 1) = Some percent) then Init_loop fuel p (S i) (nstr ++ [percent])
      else
        '(n, fmt_status, str, fmt) ← scan (S (length p)) p i (i + 1) false 0 [] [];
        if fmt_status : bool then
          '(vec, err, out) ← Init_loop fuel p (S i) nstr;
          Some (Text pattern_error :: vec, true, parse_error p i ++ out)
        else
          '(vec, err, out) ← Init_loop fuel p (S (n - 1)) [];
          Some (flush nstr ++ Spec str fmt :: vec, err, out)
    end
  end.

(** [s_format_items] *)
Definition s_format_items (name fmt : bytes) : option FormatItem :=
  if bool_decide (name = bs "m") then Some MessageFormatItem
  else if bool_decide (name = bs "p") then Some LevelFormatItem
  else if bool_decide (name = bs "r") then Some ElapseFormatItem
  else if bool_decide (name = bs "c") then Some NameFormatItem
  else if bool_decide (name = bs "t") then Some ThreadIdFormatItem
  else if bool_decide (name = bs "n") then Some NewLineFormatItem
  else if bool_decide (name = bs "d") then Some (DateTimeFormatItem_new fmt)
  else if bool_decide (name = bs "f") then Some FilenameFormatItem
  else if bool_decide (name = bs "l") then Some LineFormatItem
  else if bool_decide (name = bs "T") then Some TabFormatItem
  else if bool_decide (name = bs "F") then Some FiberIdFormatItem
  else if bool_decide (name = bs "N") then Some ThreadNameFormatItem
  else None.

(** The item of an entry, and whether it is an error. *)
Definition entry_item (x : entry) : FormatItem * bool :=
  match x with
  | Text s => (StringFormatItem s, false)
  | Spec name fmt =>
      match s_format_items name fmt with
      | Some i => (i, false)
      | None => (StringFormatItem (bs "<<error_format %" ++ name ++ bs ">>"), true)
      end
  end.

Record LogFormatter := mkFormatter { pattern_ : bytes; items_ : list FormatItem; is_error_ : bool }.

(** The constructor with [Init], and what it prints. *)
Definition LogFormatter_new (pattern : bytes) : option (LogFormatter * bytes) :=
  '(vec, err, out) ← Init_loop (S (length pattern)) pattern 0 [];
  Some (mkFormatter pattern (map (fst ∘ entry_item) vec) (err || existsb (snd ∘ entry_item) vec), out).

Definition default_pattern : bytes := bs "%d{%Y-%m-%d %H:%M:%S}%T%t%T%N%T%F%T[%p]%T[%c]%T%f:%l%T%m%n".

(** ** Examples *)

Definition default_formatter : LogFormatter := mkFormatter default_pattern
  [DateTimeFormatItem default_time_format; TabFormatItem; ThreadIdFormatItem; TabFormatItem; ThreadNameFormatItem;
   TabFormatItem; FiberIdFormatItem; TabFormatItem; StringFormatItem (bs "["); LevelFormatItem;
   StringFormatItem (bs "]"); TabFormatItem; StringFormatItem (bs "["); NameFormatItem; StringFormatItem (bs "]");
   TabFormatItem; FilenameFormatItem; StringFormatItem (bs ":"); LineFormatItem; TabFormatItem; MessageFormatItem;
   NewLineFormatItem] false.

Lemma default_parsed : LogFormatter_new default_pattern = Some (default_formatter, []).
Proof. vm_compute. reflexivity. Qed.

Example unclosed_format : (λ r, (items_ r.1, is_error_ r.1, r.2)) <$> LogFormatter_new (bs "a%d{b") = Some (
  [StringFormatItem (bs "<<pattern_error>>"); StringFormatItem (bs "ad{b")], true,
   bs "pattern parse error: a%d{b - %d{b" ++ newline).
Proof. vm_compute. reflexivity. Qed.
