(* ===== verification/LogPattern.v ===== *)
(** * The grammar of log patterns, and that [LogFormatter::Init] implements it

    A declarative grammar of patterns ([tokens]), the items it stands for
    ([formatter_of]), and the round trip from items to text and back. *)
From stdpp Require Import list.
From S2P Require Import Prelude Strings CLib LogFormatter.

(** ** The grammar *)

(** A character of text, an item with its name and format, and the rest of the
    pattern from a format that is not closed. *)
Inductive token := Char (b : byte) | Item (name fmt : bytes) | Unclosed (rest : bytes).

Definition name_char (c : byte) : bool := isalpha c || bool_decide (c = close_brace).

(** What may follow a name without a format. *)
Definition ends_name (name rest : bytes) : Prop :=
  match rest with
  | [] => True
  | c :: _ => name_char c = false ∧ c ≠ open_brace ∧ (name = [] → c ≠ percent)
  end.

Inductive tokens : bytes → list token → Prop :=
  | tokens_nil : tokens [] []
  | tokens_char c s ts : c ≠ percent → tokens s ts → tokens (c :: s) (Char c :: ts)
  | tokens_percent s ts : tokens (percent :: s) ts → tokens (percent :: percent :: s) (Char percent :: ts)
  | tokens_name name rest ts : Forall name_char name → ends_name name rest → tokens rest ts →
      tokens (percent :: name ++ rest) (Item name [] :: ts)
  | tokens_format name fmt rest ts : Forall name_char name → (close_brace ∉ fmt) → tokens rest ts →
      tokens (percent :: name ++ open_brace :: fmt ++ close_brace :: rest) (Item name fmt :: ts)
  | tokens_unclosed name s ts : Forall name_char name → (close_brace ∉ s) → tokens (name ++ open_brace :: s) ts →
      tokens (percent :: name ++ open_brace :: s) (Unclosed (percent :: name ++ open_brace :: s) :: ts).

(** The entries of a list of tokens behind the text [nstr], whether one of them is
    an error, and the messages. *)
Fixpoint build (p : bytes) (nstr : bytes) (ts : list token) : list entry * bool * bytes :=
  match ts with
  | [] => (flush nstr, false, [])
  | Char b :: ts => build p (nstr ++ [b]) ts
  | Item name fmt :: ts => let '(v, e, o) := build p [] ts in (flush nstr ++ Spec name fmt :: v, e, o)
  | Unclosed rest :: ts =>
      let '(v, e, o) := build p nstr ts in
      (Text pattern_error :: v, true, bs "pattern parse error: " ++ p ++ bs " - " ++ rest ++ newline ++ o)
  end.

Definition formatter_of (p : bytes) (ts : list token) : LogFormatter * bytes :=
  let '(vec, err, out) := build p [] ts in
  (mkFormatter p (map (fst ∘ entry_item) vec) (err || existsb (snd ∘ entry_item) vec), out).

(** Every pattern has tokens. *)
Lemma span_name s : ∃ name rest, s = name ++ rest ∧ Forall name_char name ∧
  match rest with [] => True | c :: _ => name_char c = false end.
Proof.
  induction s as [|c s (name & rest & -> & Hn & Hr)]; [by exists [], []|].
  destruct (name_char c) eqn:Hc.
  - exists (c :: name), rest. rewrite Forall_cons. split_and!; [done|by rewrite Hc|done|done].
  - by exists [], (c :: name ++ rest).
Qed.

Lemma tokens_total_le n s : length s ≤ n → ∃ ts, tokens s ts.
Proof.
  revert s. induction n as [|n IH]; intros [|c s] Hl; simpl in Hl; try lia; [by eexists; constructor..|].
  destruct (decide (c = percent)) as [->|Hc].
  2:{ destruct (IH s) as [ts Hts]; [lia|]. eexists. by constructor. }
  destruct (span_name s) as (name & rest & -> & Hn & Hr). rewrite length_app in Hl.
  destruct rest as [|c rest].
  { eexists. apply tokens_name; [done..|constructor]. }
  simpl in Hl. destruct (decide (c = open_brace)) as [->|Ho].
  - destruct (decide (close_brace ∈ rest)) as [Hin|Hin].
    + apply list_elem_of_split_l in Hin as (fmt & rest' & -> & Hf). rewrite length_app in Hl. simpl in Hl.
      destruct (IH rest') as [ts Hts]; [lia|]. eexists. by apply tokens_format.
    + destruct (IH (name ++ open_brace :: rest)) as [ts Hts]; [rewrite length_app; simpl; lia|].
      eexists. by apply tokens_unclosed.
  - destruct (decide (name = [] ∧ c = percent)) as [[-> ->]|Hp].
    + destruct (IH (percent :: rest)) as [ts Hts]; [simpl in *; lia|]. eexists. by apply tokens_percent.
    + destruct (IH (c :: rest)) as [ts Hts]; [simpl; lia|].
      eexists. apply tokens_name; [done| |done]. split_and!; [done|done|]. intros -> ->. by apply Hp.
Qed.

Lemma tokens_total s : ∃ ts, tokens s ts.
Proof. by apply (tokens_total_le (length s)). Qed.

(** ** The scanner *)

#[local] Arguments Nat.eqb : simpl never.

Lemma list_lookup_middle_end {A} (l r : list A) : (l ++ r) !! length l = head r.
Proof. rewrite lookup_app_r, Nat.sub_diag by done. by destruct r. Qed.

Lemma lookup_at {A} (p a r : list A) c : p = a ++ c :: r → p !! length a = Some c.
Proof. intros ->. by rewrite list_lookup_middle. Qed.

Lemma lookup_head {A} (p a r : list A) : p = a ++ r → p !! length a = head r.
Proof. intros ->. apply list_lookup_middle_end. Qed.

Section scan.
Context (pre name rest : bytes) (Hname : Forall name_char name).
Let p := pre ++ percent :: name ++ rest.
Let i := length pre.

Lemma lookup_rest k : p !! (i + 1 + k) = (name ++ rest) !! k.
Proof.
  unfold p, i. rewrite lookup_app_r by lia. replace (_ - _) with (S k) by lia. done.
Qed.

Lemma length_p : length p = i + 1 + length name + length rest.
Proof. unfold p, i. rewrite length_app. simpl. rewrite length_app. lia. Qed.

Lemma drop_p : drop (i + 1) p = name ++ rest.
Proof.
  unfold p, i. rewrite cons_middle, app_assoc. apply drop_app_length'. rewrite length_app. done.
Qed.

Lemma substr_name : substr p (i + 1) (i + 1 + length name - i - 1) = name.
Proof.
  unfold substr, slice. rewrite drop_p. apply take_app_length'. lia.
Qed.

(** The characters of the name. *)
Lemma scan_name a todo fuel : name = a ++ todo →
  scan (length todo + fuel) p i (i + 1 + length a) false 0 [] [] =
  scan fuel p i (i + 1 + length name) false 0 (if bool_decide (rest = [] ∧ todo ≠ []) then name else []) [].
Proof.
  revert a. induction todo as [|c todo IH]; intros a Ha.
  { rewrite bool_decide_false by naive_solver. simpl. do 3 f_equal. rewrite Ha, app_nil_r. done. }
  assert ((name ++ rest) !! length a = Some c) as Hl.
  { by rewrite Ha, <- app_assoc, lookup_app_r, Nat.sub_diag by lia. }
  simpl. rewrite lookup_rest, Hl.
  assert (name_char c = true) as Hc.
  { rewrite Ha in Hname. apply Forall_app in Hname as [_ Hn]. apply Forall_inv in Hn. by destruct (name_char c). }
  assert (c ≠ open_brace) as Ho by (intros ->; done).
  rewrite (bool_decide_false (c = open_brace)) by done.
  assert (negb (isalpha c) && bool_decide (c ≠ open_brace) && bool_decide (c ≠ close_brace) = false) as ->.
  { unfold name_char in Hc. destruct (isalpha c); [done|]. simpl in *. apply bool_decide_eq_true in Hc as ->. done. }
  destruct (decide (todo = [])) as [->|Ht].
  - simpl. destruct (decide (rest = [])) as [Hr|Hr].
    + rewrite (bool_decide_true (rest = [] ∧ _)) by done.
      rewrite (proj2 (Nat.eqb_eq _ _)) by (rewrite length_p, Ha, Hr, length_app; simpl; lia). simpl.
      replace (substr_from _ _) with name. { rewrite Ha, length_app. simpl. f_equal; lia. }
      unfold substr_from. by rewrite drop_p, Hr, app_nil_r.
    + rewrite (bool_decide_false (rest = [] ∧ _)) by naive_solver.
      rewrite (proj2 (Nat.eqb_neq _ _)).
      2:{ rewrite length_p, Ha, length_app. destruct rest; [done|]. simpl. lia. }
      simpl. rewrite Ha, length_app. simpl. f_equal; lia.
  - rewrite (proj2 (Nat.eqb_neq _ _)).
    2:{ rewrite length_p, Ha, length_app. destruct todo; [done|]. simpl. lia. }
    simpl. specialize (IH (a ++ [c])). rewrite length_app in IH. simpl in IH.
    replace (S (i + 1 + length a)) with (i + 1 + (length a + 1)) by lia.
    rewrite IH by (by rewrite <- app_assoc).
    by rewrite (bool_decide_ext (rest = [] ∧ todo ≠ []) (rest = [] ∧ c :: todo ≠ [])) by naive_solver.
Qed.

(** A name that ends without a format. *)
Lemma scan_plain : match rest with [] => True | c :: _ => name_char c = false ∧ c ≠ open_brace end →
  scan (S (length p)) p i (i + 1) false 0 [] [] = Some (i + 1 + length name, false, name, []).
Proof.
  intros Hr. rewrite length_p. replace (S _) with (length name + S (i + 1 + length rest)) by lia.
  pose proof (scan_name [] name (S (i + 1 + length rest)) eq_refl) as Hs. simpl length in Hs.
  rewrite Nat.add_0_r in Hs. rewrite Hs. simpl. rewrite lookup_rest, list_lookup_middle_end.
  pose proof substr_name as Hsub. destruct rest as [|c r]; simpl.
  - destruct (decide (name = [])) as [He|He].
    + by rewrite bool_decide_false, He by naive_solver.
    + by rewrite bool_decide_true by done.
  - destruct Hr as [Hc Ho]. unfold name_char in Hc. apply orb_false_iff in Hc as [-> Hb].
    apply bool_decide_eq_false in Hb. rewrite !(bool_decide_true (_ ≠ _)) by done. simpl. by rewrite Hsub.
Qed.

(** A name with a format: the brace, and what is behind it. *)
Lemma scan_brace s fuel : rest = open_brace :: s →
  scan (length name + S fuel) p i (i + 1) false 0 [] [] =
  scan fuel p i (S (i + 1 + length name)) true (i + 1 + length name) name [].
Proof.
  intros Hr. pose proof (scan_name [] name (S fuel) eq_refl) as Hs. simpl length in Hs.
  rewrite Nat.add_0_r in Hs. rewrite Hs. simpl. rewrite lookup_rest, list_lookup_middle_end.
  rewrite Hr. rewrite (bool_decide_false (open_brace :: s = [] ∧ _)) by naive_solver. simpl. by rewrite substr_name.
Qed.
End scan.

(** The characters of a format. *)
Lemma scan_close p i fb str f0 fmt r a fuel : p = a ++ fmt ++ close_brace :: r → (close_brace ∉ fmt) →
  scan (length fmt + S fuel) p i (length a) true fb str f0 =
  Some (S (length a + length fmt), false, str, substr p (fb + 1) (length a + length fmt - fb - 1)).
Proof.
  revert a. induction fmt as [|c fmt IH]; intros a Hp Hf; simpl.
  { rewrite (lookup_at p a r close_brace Hp), bool_decide_true by done. by rewrite Nat.add_0_r. }
  apply not_elem_of_cons in Hf as [Hc Hf]. rewrite (lookup_at p a _ c Hp), bool_decide_false by done.
  rewrite (proj2 (Nat.eqb_neq _ _)).
  2:{ rewrite Hp, length_app. simpl. rewrite length_app. simpl. lia. }
  specialize (IH (a ++ [c])). rewrite length_app, Nat.add_1_r in IH. simpl.
  rewrite IH by (by rewrite <- ?app_assoc). by rewrite Nat.add_succ_comm.
Qed.

Lemma scan_no_close p i fb f0 s a str fuel : p = a ++ s → (close_brace ∉ s) →
  ∃ str', scan (length s + S fuel) p i (length a) true fb str f0 = Some (length p, true, str', f0).
Proof.
  revert a str. induction s as [|c s IH]; intros a str Hp Hs; simpl.
  { rewrite app_nil_r in Hp. rewrite Hp. rewrite lookup_ge_None_2 by done. by eexists. }
  apply not_elem_of_cons in Hs as [Hc Hs]. rewrite (lookup_at p a _ c Hp), bool_decide_false by done. specialize (IH (a ++ [c])). rewrite length_app, Nat.add_1_r in IH. simpl.
  eapply IH; [by rewrite <- app_assoc|done].
Qed.

(** ** Init implements the grammar *)

(** The scanner on the two outcomes of a format. *)
Lemma name_no_percent (name : bytes) c r : Forall name_char name → c ≠ percent →
  (name ++ c :: r) !! 0 ≠ Some percent.
Proof.
  intros Hn Hc. destruct name as [|x name]; simpl; [congruence|]. apply Forall_inv in Hn. intros [= ->]. done.
Qed.

(** A pattern cut behind the brace. *)
Lemma cut_brace (pre name s : bytes) :
  pre ++ percent :: name ++ open_brace :: s = (pre ++ percent :: name ++ [open_brace]) ++ s.
Proof. rewrite <- app_assoc. simpl. by rewrite <- app_assoc. Qed.

Lemma cut_brace_length (pre name : bytes) :
  S (length pre + 1 + length name) = length (pre ++ percent :: name ++ [open_brace]).
Proof. rewrite length_app. simpl. rewrite length_app. simpl. lia. Qed.

Lemma scan_format pre name fmt rest p : p = pre ++ percent :: name ++ open_brace :: fmt ++ close_brace :: rest →
  Forall name_char name → (close_brace ∉ fmt) →
  scan (S (length p)) p (length pre) (length pre + 1) false 0 [] [] =
  Some (length pre + length name + length fmt + 3, false, name, fmt).
Proof.
  intros Hp Hn Hf. assert (length p = length pre + length name + length fmt + length rest + 3) as Hl.
  { rewrite Hp, length_app. simpl. rewrite length_app. simpl. rewrite length_app. simpl. lia. }
  replace (S (length p)) with (length name + S (length fmt + S (S (length pre + length rest + 1)))) by lia.
  rewrite Hp at 1. rewrite (scan_brace pre name _ Hn (fmt ++ close_brace :: rest)) by done. rewrite <- Hp.
  rewrite cut_brace_length. rewrite (cut_brace pre name) in Hp. erewrite scan_close by done. do 3 f_equal.
  - do 2 f_equal. rewrite length_app. simpl. rewrite length_app. simpl. lia.
  - unfold substr, slice. rewrite Hp at 1. rewrite drop_app_length'.
    + apply take_app_length'. rewrite length_app. simpl. rewrite length_app. simpl. lia.
    + rewrite length_app. simpl. rewrite length_app. simpl. lia.
Qed.

Lemma scan_unclosed pre name s p : p = pre ++ percent :: name ++ open_brace :: s →
  Forall name_char name → (close_brace ∉ s) →
  ∃ str, scan (S (length p)) p (length pre) (length pre + 1) false 0 [] [] = Some (length p, true, str, []).
Proof.
  intros Hp Hn Hs. assert (length p = length pre + length name + length s + 2) as Hl.
  { rewrite Hp, length_app. simpl. rewrite length_app. simpl. lia. }
  replace (S (length p)) with (length name + S (length s + S (S (length pre)))) by lia.
  rewrite Hp. rewrite (scan_brace pre name _ Hn s) by done. rewrite <- Hp.
  rewrite cut_brace_length. apply scan_no_close; [|done]. by rewrite <- cut_brace.
Qed.

Lemma Init_loop_tokens p s ts pre fuel nstr : tokens s ts → p = pre ++ s → length s < fuel →
  Init_loop fuel p (length pre) nstr = Some (build p nstr ts).
Proof.
  intros Hts. revert pre fuel nstr. induction Hts as
    [|c s ts Hc Hs IH|s ts Hs IH|name rest ts Hn Hr Hs IH|name fmt rest ts Hn Hf Hs IH|name s ts Hn Hf Hs IH];
    intros pre [|fuel] nstr Hp Hl; simpl in Hl; try lia; cbn [Init_loop];
    rewrite (lookup_head p pre _ Hp); cbn [head]; [done|..].
  - rewrite bool_decide_true by done. specialize (IH (pre ++ [c])). rewrite length_app, Nat.add_1_r in IH.
    rewrite IH; [done|by rewrite <- app_assoc|lia].
  - rewrite (bool_decide_false (percent ≠ percent)) by auto. rewrite (bool_decide_true (p !! _ = _)).
    2:{ rewrite Hp, lookup_app_r by lia. by replace (_ - _) with 1 by lia. }
    specialize (IH (pre ++ [percent])). rewrite length_app, Nat.add_1_r in IH.
    rewrite IH; [done|by rewrite <- app_assoc|simpl; lia].
  - rewrite (bool_decide_false (percent ≠ percent)) by auto. rewrite (bool_decide_false (p !! _ = _)).
    2:{ rewrite Hp, lookup_app_r by lia. replace (_ - _) with 1 by lia. simpl.
        destruct name as [|c name]; simpl.
        - destruct rest; [done|]. simpl. destruct Hr as (_ & _ & Hr). naive_solver.
        - apply Forall_inv in Hn. intros [= ->]. done. }
    subst p. rewrite scan_plain; [|done|destruct rest; naive_solver]. simpl.
    specialize (IH (pre ++ percent :: name)). rewrite length_app in IH. simpl in IH. rewrite length_app in Hl.
    replace (S (_ - 1)) with (length pre + S (length name)) by lia. rewrite IH; [|by rewrite <- app_assoc|lia].
    by destruct (build _ [] ts) as [[v e] o].
  - rewrite (bool_decide_false (percent ≠ percent)) by auto. rewrite (bool_decide_false (p !! _ = _)).
    2:{ rewrite Hp, lookup_app_r by lia. replace (_ - _) with 1 by lia. simpl. by apply name_no_percent. }
    rewrite (scan_format pre name fmt rest p) by done. cbn [mbind option_bind].
    rewrite cut_brace, app_assoc, cons_middle, app_assoc in Hp.
    rewrite !length_app in Hl. simpl in Hl. rewrite length_app in Hl. simpl in Hl.
    specialize (IH _ fuel [] Hp ltac:(lia)). rewrite !length_app in IH. simpl in IH. rewrite length_app in IH. simpl in IH.
    replace (S (_ - 1)) with (length pre + S (length name + 1) + length fmt + 1) by lia. rewrite IH. simpl.
    by destruct (build _ [] ts) as [[v e] o].
  - rewrite (bool_decide_false (percent ≠ percent)) by auto. rewrite (bool_decide_false (p !! _ = _)).
    2:{ rewrite Hp, lookup_app_r by lia. replace (_ - _) with 1 by lia. simpl. by apply name_no_percent. }
    destruct (scan_unclosed pre name s p) as [str ->]; [done..|]. cbn [mbind option_bind].
    rewrite cons_middle, app_assoc in Hp. specialize (IH _ fuel nstr Hp ltac:(lia)).
    rewrite length_app, Nat.add_1_r in IH. rewrite IH. cbn [build mbind option_bind].
    destruct (build _ nstr ts) as [[v e] o]. do 2 f_equal. unfold parse_error, substr_from.
    assert (drop (length pre) p = percent :: name ++ open_brace :: s) as ->.
    { rewrite Hp, <- app_assoc. apply drop_app_length. }
    by rewrite <- !app_assoc.
Qed.

(** The formatter of a pattern is that of its tokens. *)
Lemma LogFormatter_new_tokens p ts : tokens p ts → LogFormatter_new p = Some (formatter_of p ts).
Proof.
  intros Hts. unfold LogFormatter_new, formatter_of.
  pose proof (Init_loop_tokens p p ts [] (S (length p)) [] Hts eq_refl (Nat.lt_succ_diag_r _)) as Hi.
  cbn [length] in Hi. rewrite Hi. cbn [mbind option_bind].
  by destruct (build _ _ _) as [[v e] o].
Qed.

(** ** Items as text *)

(** The letter of an item that is one. *)
Definition item_name (i : FormatItem) : bytes :=
  match i with
  | MessageFormatItem => bs "m" | LevelFormatItem => bs "p" | ElapseFormatItem => bs "r" | NameFormatItem => bs "c"
  | ThreadIdFormatItem => bs "t" | NewLineFormatItem => bs "n" | DateTimeFormatItem _ => bs "d"
  | FilenameFormatItem => bs "f" | LineFormatItem => bs "l" | TabFormatItem => bs "T" | FiberIdFormatItem => bs "F"
  | ThreadNameFormatItem => bs "N" | StringFormatItem _ => []
  end.

(** A pattern for a list of items. *)
Definition print_item (i : FormatItem) : bytes :=
  match i with
  | StringFormatItem s => s
  | DateTimeFormatItem f => percent :: item_name i ++ open_brace :: f ++ [close_brace]
  | _ => percent :: item_name i
  end.
Definition print_items (l : list FormatItem) : bytes := concat (map print_item l).

(** Items a pattern can stand for: text has no percent sign, is not empty, not cut
    in two, and does not run into the name before it. *)
Definition text_ok (before : option FormatItem) (s : bytes) : Prop :=
  s ≠ [] ∧ (percent ∉ s) ∧
  match before with
  | Some (StringFormatItem _) => False
  | Some (DateTimeFormatItem _) | None => True
  | Some _ => match s with c :: _ => name_char c = false ∧ c ≠ open_brace | [] => True end
  end.

Fixpoint printable (before : option FormatItem) (l : list FormatItem) : Prop :=
  match l with
  | [] => True
  | i :: l =>
      match i with
      | StringFormatItem s => text_ok before s
      | DateTimeFormatItem f => f ≠ [] ∧ (close_brace ∉ f)
      | _ => True
      end ∧ printable (Some i) l
  end.

Definition item_tokens (i : FormatItem) : list token :=
  match i with
  | StringFormatItem s => map Char s
  | DateTimeFormatItem f => [Item (item_name i) f]
  | _ => [Item (item_name i) []]
  end.
Definition item_entry (i : FormatItem) : entry :=
  match i with
  | StringFormatItem s => Text s
  | DateTimeFormatItem f => Spec (item_name i) f
  | _ => Spec (item_name i) []
  end.

Lemma tokens_text s r ts : (percent ∉ s) → tokens r ts → tokens (s ++ r) (map Char s ++ ts).
Proof.
  intros Hs Hr. induction s as [|c s IH]; [done|]. apply not_elem_of_cons in Hs as [Hc Hs].
  simpl. constructor; [done|by apply IH].
Qed.

(** Behind a bare name there is a character that ends it. *)
Lemma printable_ends i l : printable (Some i) l → match i with StringFormatItem _ | DateTimeFormatItem _ => False | _ => True end →
  ends_name (item_name i) (print_items l).
Proof.
  intros Hl Hi. destruct l as [|j l]; [done|]. destruct Hl as [Hj _].
  assert (item_name i ≠ []) as Hn by (by destruct i). unfold ends_name, print_items. cbn [map concat].
  destruct j as [| | | | | |f| | | | | |s]; try (simpl; naive_solver).
  destruct Hj as (Hs & _ & Hj). destruct s as [|c s]; [done|]. simpl. destruct i; naive_solver.
Qed.

Lemma print_items_tokens before l : printable before l → tokens (print_items l) (concat (map item_tokens l)).
Proof.
  revert before. induction l as [|i l IH]; intros before Hl; [constructor|]. destruct Hl as [Hi Hl].
  pose proof (IH _ Hl) as Ht. pose proof (printable_ends i l Hl) as He. unfold print_items in *. cbn [map concat].
  destruct i; try (apply (tokens_name [_]); [by repeat constructor|by apply He|done]).
  - cbn [print_item item_tokens item_name]. simpl. rewrite <- app_assoc.
    apply (tokens_format [_]); [by repeat constructor|apply Hi|done].
  - apply tokens_text; [apply Hi|done].
Qed.

Lemma build_text p nstr s ts : build p nstr (map Char s ++ ts) = build p (nstr ++ s) ts.
Proof.
  revert nstr. induction s as [|c s IH]; intros nstr; simpl; [by rewrite app_nil_r|]. by rewrite IH, <- app_assoc.
Qed.

Lemma build_items p before nstr l : printable before l →
  match before with Some (StringFormatItem s) => nstr = s | _ => nstr = [] end →
  build p nstr (concat (map item_tokens l)) = (flush nstr ++ map item_entry l, false, []).
Proof.
  revert before nstr. induction l as [|i l IH]; intros before nstr Hl Hn; [cbn; by rewrite app_nil_r|].
  destruct Hl as [Hi Hl]. cbn [map concat].
  destruct i; try (cbn [item_tokens app build]; by rewrite (IH _ [] Hl eq_refl)).
  destruct Hi as (Hs & _ & Hi). cbn [item_tokens]. rewrite build_text.
  assert (nstr = []) as -> by (destruct before as [[]|]; done). simpl.
  rewrite (IH _ m_string Hl eq_refl). unfold flush. by rewrite (bool_decide_false (m_string = [])).
Qed.

Lemma entry_item_back i : match i with DateTimeFormatItem f => f ≠ [] | _ => True end → entry_item (item_entry i) = (i, false).
Proof.
  destruct i as [| | | | | |f| | | | | |s]; try (intros; reflexivity). intros Hf.
  change (entry_item _) with (DateTimeFormatItem_new f, false).
  unfold DateTimeFormatItem_new. by rewrite bool_decide_false by done.
Qed.

Lemma printable_items before l : printable before l →
  map (fst ∘ entry_item) (map item_entry l) = l ∧ existsb (snd ∘ entry_item) (map item_entry l) = false.
Proof.
  revert before. induction l as [|i l IH]; intros before Hl; [done|]. destruct Hl as [Hi Hl].
  destruct (IH _ Hl) as [IH1 IH2]. cbn [map existsb]. unfold compose at 1 3.
  rewrite entry_item_back by (destruct i; naive_solver). by rewrite IH1, IH2.
Qed.

(** ** Theorems *)

(** [LogFormatter::Init] ends on every pattern and implements the grammar:
    every pattern has tokens, and whichever tokens the grammar gives it, the
    formatter built, its error flag and the messages printed are those of the tokens. *)
Theorem Init_implements_grammar p :
  (∃ ts, tokens p ts) ∧ ∀ ts, tokens p ts → LogFormatter_new p = Some (formatter_of p ts).
Proof. split; [apply tokens_total|apply LogFormatter_new_tokens]. Qed.

(** A list of items written as a pattern is read back as these items, without
    an error and without a message. *)
Theorem pattern_roundtrip l : printable None l →
  LogFormatter_new (print_items l) = Some (mkFormatter (print_items l) l false, []).
Proof.
  intros Hl. rewrite (LogFormatter_new_tokens _ _ (print_items_tokens None l Hl)). unfold formatter_of.
  rewrite (build_items _ None [] l Hl eq_refl). rewrite app_nil_l.
  by destruct (printable_items None l Hl) as [-> ->].
Qed.

Lemma pattern_roundtrip_witness :
  let l := [StringFormatItem (bs "<"); DateTimeFormatItem (bs "%H:%M"); StringFormatItem (bs "x> "); LevelFormatItem;
            StringFormatItem (bs " "); MessageFormatItem; NewLineFormatItem] in
  print_items l = bs "<%d{%H:%M}x> %p %m%n" ∧
  LogFormatter_new (print_items l) = Some (mkFormatter (print_items l) l false, []).
Proof.
  split; [vm_compute; reflexivity|]. apply pattern_roundtrip.
  simpl. unfold text_ok. split_and!; (done || by apply (bool_decide_unpack _)).
Defined.

(** The error flag of the tokens before and behind. *)
Definition token_err (t : token) : bool :=
  match t with Char _ => false | Item name fmt => bool_decide (s_format_items name fmt = None) | Unclosed _ => true end.

Lemma spec_err name fmt : (snd ∘ entry_item) (Spec name fmt) = token_err (Item name fmt).
Proof. unfold compose. simpl. by destruct (s_format_items name fmt). Qed.

Lemma build_err p nstr ts : existsb token_err ts = true →
  let '(v, e, _) := build p nstr ts in e || existsb (snd ∘ entry_item) v = true.
Proof.
  revert nstr. induction ts as [|t ts IH]; intros nstr He; [done|]. cbn [existsb] in He.
  destruct t as [c|name fmt|r]; cbn [build].
  - by apply IH.
  - specialize (IH []). destruct (build p [] ts) as [[v e] o]. rewrite existsb_app. cbn [existsb]. rewrite spec_err.
    apply orb_prop in He as [->|He]; [by rewrite !orb_true_r|].
    apply IH, orb_prop in He as [->| ->]; [done|by rewrite !orb_true_r].
  - by destruct (build p nstr ts) as [[v e] o].
Qed.

Lemma tokens_last s ts : tokens s ts → last s = Some percent → existsb token_err ts = true.
Proof.
  induction 1 as [|c s ts Hc Hs IH|s ts Hs IH|name rest ts Hn Hr Hs IH|name fmt rest ts Hn Hf Hs IH|name s ts Hn Hf Hs IH];
    rewrite ?last_cons, ?last_app, ?last_cons, ?last_app, ?last_cons; intros Hl; cbn [existsb token_err].
  - done.
  - destruct (last s) eqn:E; [|by injection Hl as ->]. by apply IH.
  - apply IH. rewrite last_cons. by destruct (last s).
  - destruct (last rest) eqn:E; [injection Hl as ->; by rewrite IH, orb_true_r by done|].
    destruct (last name) as [c|] eqn:El; [|apply last_None in El as ->; done].
    apply last_Some in El as [r ->]. apply Forall_app in Hn as [_ Hn]. apply Forall_inv in Hn.
    by injection Hl as ->.
  - destruct (last rest) eqn:E; [injection Hl as ->; by rewrite IH, orb_true_r by done|done].
  - done.
Qed.

(** The comment says that two percent signs print one; [Init] keeps the second
    for the next item, so a pattern whose last character is a percent sign, as that
    of an escaped one, is an error. *)
Theorem percent_not_escaped s :
  ∃ f out, LogFormatter_new (s ++ [percent]) = Some (f, out) ∧ is_error_ f = true.
Proof.
  destruct (tokens_total (s ++ [percent])) as [ts Hts].
  assert (existsb token_err ts = true) as He by (apply (tokens_last _ _ Hts); by rewrite last_snoc).
  rewrite (LogFormatter_new_tokens _ _ Hts). unfold formatter_of.
  pose proof (build_err (s ++ [percent]) [] ts He) as Hb.
  destruct (build _ _ _) as [[v e] o]. by do 2 eexists.
Qed.
