(* ===== verification/Logger.v ===== *)
(** * Appenders, loggers and their manager ([server_frame/log.h], [log.cc])

    Loggers and appenders are shared by pointer: both live in heaps, lists of
    objects whose indices are the pointers.  Every operation here runs under the
    lock of its object, so it is one step. *)
From stdpp Require Import list gmap strings.
From S2P Require Import Prelude Strings CLib LogFormatter LogPattern.

(** ** Data *)

(** An [ofstream]: the position it writes at, or [None] after a failed [open]. *)
Definition ofstream : Type := option nat.

Inductive target :=
  | StdoutLogAppender
  | FileLogAppender (filename : bytes) (fileout : ofstream) (last_time : Z).

Record LogAppender := mkAppender {
  target_ : target; a_level : Level; has_formatter : bool; a_formatter : option LogFormatter }.

(** The name is fixed at construction; [root] points to the main logger. *)
Record Logger := mkLogger {
  l_name : bytes; l_level : Level; appenders_ : list nat; l_formatter : option LogFormatter; l_root : option nat }.

(** [loggers_] and [root_] of the [LoggerManager], the two heaps, the files and
    the standard output. *)
Record World := mkWorld {
  loggers_ : gmap bytes nat; root_ : nat;
  loggers : list Logger; appenders : list LogAppender; files : gmap bytes bytes; stdout : bytes }.

Definition set_loggers (f : list Logger → list Logger) (w : World) : World :=
  mkWorld (loggers_ w) (root_ w) (f (loggers w)) (appenders w) (files w) (stdout w).
Definition set_appenders (f : list LogAppender → list LogAppender) (w : World) : World :=
  mkWorld (loggers_ w) (root_ w) (loggers w) (f (appenders w)) (files w) (stdout w).
Definition set_files (f : gmap bytes bytes → gmap bytes bytes) (w : World) : World :=
  mkWorld (loggers_ w) (root_ w) (loggers w) (appenders w) (f (files w)) (stdout w).
Definition set_map (f : gmap bytes nat → gmap bytes nat) (w : World) : World :=
  mkWorld (f (loggers_ w)) (root_ w) (loggers w) (appenders w) (files w) (stdout w).

(** Reading and updating an object through its pointer. *)
Definition logger_at (l : nat) : M World Logger := λ w, deref (loggers w !! l) w.
Definition appender_at (a : nat) : M World LogAppender := λ w, deref (appenders w !! a) w.
Definition put_logger (l : nat) (x : Logger) : M World unit := modify (set_loggers <[l := x]>).
Definition put_appender (a : nat) (x : LogAppender) : M World unit := modify (set_appenders <[a := x]>).
Definition print (s : bytes) : M World unit :=
  modify (λ w, mkWorld (loggers_ w) (root_ w) (loggers w) (appenders w) (files w) (stdout w ++ s)).

Definition new_logger (x : Logger) : M World nat := λ w, Ret (length (loggers w)) (set_loggers (λ h, h ++ [x]) w).
Definition new_appender (x : LogAppender) : M World nat :=
  λ w, Ret (length (appenders w)) (set_appenders (λ h, h ++ [x]) w).

Definition set_l_level (v : Level) (x : Logger) : Logger := mkLogger (l_name x) v (appenders_ x) (l_formatter x) (l_root x).
Definition set_l_appenders (v : list nat) (x : Logger) : Logger := mkLogger (l_name x) (l_level x) v (l_formatter x) (l_root x).
Definition set_l_formatter (v : option LogFormatter) (x : Logger) : Logger :=
  mkLogger (l_name x) (l_level x) (appenders_ x) v (l_root x).
Definition set_a_formatter (v : option LogFormatter) (x : LogAppender) : LogAppender :=
  mkAppender (target_ x) (a_level x) (has_formatter x) v.

(** ** Files *)

Section log.
(** Which files can be opened for writing, and [localtime_r] with [strftime]. *)
Context (can_open : bytes → bool) (strftime : bytes → Z → option bytes).

(** [std::ofstream::open] and the constructor, mode [out]: the file is created, or
    emptied when it exists. *)
Definition ofstream_open (name : bytes) : M World ofstream :=
  if can_open name then modify (set_files <[name := []]>);; mret (Some 0) else mret None.

(** Writing at a position; a gap is filled with NULs. *)
Definition write_at (pos : nat) (d old : bytes) : bytes :=
  take pos (old ++ replicate (pos - length old) (byte.of_Z 0)) ++ d ++ drop (pos + length d) old.

(** [FileLogAppender::ReOpen]: the stream it leaves, and what it returns. *)
Definition ReOpen (filename : bytes) (fileout : ofstream) : M World (ofstream * bool) :=
  fileout ← ofstream_open filename;
  mret (fileout, bool_decide (fileout = None)).

Definition FileLogAppender_new (filename : bytes) : M World nat :=
  fileout ← ofstream_open filename;
  new_appender (mkAppender (FileLogAppender filename fileout 0) kDebug false None).
Definition StdoutLogAppender_new : M World nat := new_appender (mkAppender StdoutLogAppender kDebug false None).

(** ** Appenders *)

Definition LogAppender_SetFormatter (a : nat) (val : option LogFormatter) : M World unit :=
  x ← appender_at a;
  match val with
  | Some _ => put_appender a (mkAppender (target_ x) (a_level x) true val)
  | None => put_appender a (mkAppender (target_ x) (a_level x) false (a_formatter x))
  end.
Definition LogAppender_GetFormatter (a : nat) : M World (option LogFormatter) := a_formatter <$> appender_at a.
Definition LogAppender_SetLevel (a : nat) (val : Level) : M World unit :=
  x ← appender_at a; put_appender a (mkAppender (target_ x) val (has_formatter x) (a_formatter x)).

Definition StdoutLogAppender_Log (x : LogAppender) (level : Level) (e : LogEvent) : M World unit :=
  f ← deref (a_formatter x);
  out ← Format_items strftime (items_ f) level e;
  print out.

(** Writing to a stream: nothing is written to one that failed. *)
Definition stream_write (filename : bytes) (fileout : ofstream) (d : bytes) : M World ofstream :=
  match fileout with
  | Some pos =>
      modify (set_files (λ fs, <[filename := write_at pos d (default [] (fs !! filename))]> fs));;
      mret (Some (pos + length d))
  | None => mret None
  end.

Definition FileLogAppender_Log (a : nat) (x : LogAppender) (filename : bytes) (fileout : ofstream) (last_time : Z)
    (level : Level) (e : LogEvent) : M World unit :=
  let now := time_ e in
  '(fileout, last_time) ←
    (if (u64 (last_time + 3) <=? now)%Z then '(fileout, _) ← ReOpen filename fileout; mret (fileout, now)
     else mret (fileout, last_time));
  f ← deref (a_formatter x);
  out ← Format_items strftime (items_ f) level e;
  fileout ← stream_write filename fileout out;
  put_appender a (mkAppender (FileLogAppender filename fileout last_time) (a_level x) (has_formatter x) (a_formatter x));;
  if bool_decide (fileout = None) then print (bs "error" ++ newline) else mret tt.

(** The virtual [LogAppender::Log]. *)
Definition LogAppender_Log (a : nat) (level : Level) (e : LogEvent) : M World unit :=
  x ← appender_at a;
  if level_ge level (a_level x) then
    match target_ x with
    | StdoutLogAppender => StdoutLogAppender_Log x level e
    | FileLogAppender filename fileout last_time => FileLogAppender_Log a x filename fileout last_time level e
    end
  else mret tt.

(** ** Loggers *)

(** [new LogFormatter(val)]; the fuel of [Init] always suffices. *)
Definition make_formatter (val : bytes) : M World LogFormatter :=
  match LogFormatter_new val with
  | Some (f, out) => print out;; mret f
  | None => λ _, NoFuel
  end.

Definition Logger_new (name : bytes) : M World nat :=
  f ← make_formatter default_pattern;
  new_logger (mkLogger name kDebug [] (Some f) None).

Fixpoint log_each (l : list nat) (level : Level) (e : LogEvent) : M World unit :=
  match l with
  | [] => mret tt
  | a :: l => LogAppender_Log a level e;; log_each l level e
  end.

(** [Logger::Log], the fuel being for the way to the main logger. *)
Fixpoint Logger_Log (fuel : nat) (l : nat) (level : Level) (e : LogEvent) : M World unit :=
  match fuel with
  | O => λ _, NoFuel
  | S fuel =>
    x ← logger_at l;
    if level_ge level (l_level x) then
      if bool_decide (appenders_ x ≠ []) then log_each (appenders_ x) level e
      else match l_root x with Some r => Logger_Log fuel r level e | None => mret tt end
    else mret tt
  end.

Definition Log (l : nat) (level : Level) (e : LogEvent) : M World unit := Logger_Log 2 l level e.
Definition Logger_Debug (l : nat) (e : LogEvent) : M World unit := Log l kDebug e.
Definition Logger_Info (l : nat) (e : LogEvent) : M World unit := Log l kInfo e.
Definition Logger_Warn (l : nat) (e : LogEvent) : M World unit := Log l kWarn e.
Definition Logger_Error (l : nat) (e : LogEvent) : M World unit := Log l kError e.
Definition Logger_Fatal (l : nat) (e : LogEvent) : M World unit := Log l kFatal e.

(** The destructor [LogEventWrap::~LogEventWrap]. *)
Definition LogEventWrap_end (e : LogEvent) : M World unit := Log (logger_ e) (level_ e) e.

(** The macro [YGW_LOG_LEVEL]: the event belongs to the logger and has its level;
    the rest of [ev] is what the place of the call and the message give. *)
Definition event_for (l : nat) (name : bytes) (level : Level) (ev : LogEvent) : LogEvent :=
  mkEvent (filename_ ev) (line_ ev) (elapse_ ev) (thread_id_ ev) (fiber_id_ ev) (time_ ev) (thread_name_ ev)
    (string_stream_ ev) l name level.
Definition YGW_LOG_LEVEL (l : nat) (level : Level) (ev : LogEvent) : M World unit :=
  x ← logger_at l;
  if level_ge level (l_level x) then LogEventWrap_end (event_for l (l_name x) level ev) else mret tt.

Definition Logger_SetLevel (l : nat) (val : Level) : M World unit := x ← logger_at l; put_logger l (set_l_level val x).
Definition Logger_GetFormatter (l : nat) : M World (option LogFormatter) := l_formatter <$> logger_at l.

(** The loop of [Logger::SetFormatter] over the appenders. *)
Fixpoint give_formatter (l : list nat) (val : option LogFormatter) : M World unit :=
  match l with
  | [] => mret tt
  | a :: l =>
      x ← appender_at a;
      (if has_formatter x then mret tt else put_appender a (set_a_formatter val x));;
      give_formatter l val
  end.
Definition Logger_SetFormatter (l : nat) (val : option LogFormatter) : M World unit :=
  x ← logger_at l;
  put_logger l (set_l_formatter val x);;
  give_formatter (appenders_ x) val.

Definition Logger_SetFormatter_text (l : nat) (val : bytes) : M World unit :=
  f ← make_formatter val;
  x ← logger_at l;
  if is_error_ f then
    print (bs "Logger setFormatter name=" ++ l_name x ++ bs " value=" ++ val ++ bs " invalid formatter" ++ newline)
  else Logger_SetFormatter l (Some f).

Definition Logger_AddAppender (l a : nat) : M World unit :=
  x ← logger_at l;
  f ← LogAppender_GetFormatter a;
  y ← appender_at a;
  (if bool_decide (f = None) then put_appender a (set_a_formatter (l_formatter x) y) else mret tt);;
  put_logger l (set_l_appenders (appenders_ x ++ [a]) x).

(** The first pointer to [a] leaves the list. *)
Fixpoint erase_first (a : nat) (l : list nat) : list nat :=
  match l with [] => [] | b :: l => if bool_decide (b = a) then l else b :: erase_first a l end.
Definition Logger_DelAppender (l a : nat) : M World unit :=
  x ← logger_at l; put_logger l (set_l_appenders (erase_first a (appenders_ x)) x).
Definition Logger_ClearAppenders (l : nat) : M World unit := x ← logger_at l; put_logger l (set_l_appenders [] x).

(** ** The manager *)

Definition no_world : World := mkWorld ∅ 0 [] [] ∅ [].

(** The constructor, from a process without loggers. *)
Definition LoggerManager_new (fs : gmap bytes bytes) : result World unit :=
  (r ← Logger_new (bs "root");
   a ← StdoutLogAppender_new;
   Logger_AddAppender r a;;
   x ← logger_at r;
   modify (λ w, mkWorld (<[l_name x := r]> (loggers_ w)) r (loggers w) (appenders w) (files w) (stdout w)))
  (mkWorld ∅ 0 [] [] fs []).

(** The second half of [GetLogger]: a new logger under its name. *)
Definition create_logger (name : bytes) (root : nat) : M World nat :=
  l ← Logger_new name;
  x ← logger_at l;
  put_logger l (mkLogger (l_name x) (l_level x) (appenders_ x) (l_formatter x) (Some root));;
  modify (set_map <[name := l]>);;
  mret l.
Definition GetLogger (name : bytes) : M World nat := λ w,
  match loggers_ w !! name with
  | Some l => Ret l w
  | None => create_logger name (root_ w) w
  end.
Definition GetRoot : M World nat := λ w, Ret (root_ w) w.
End log.
