(* ===== verification/LoggerLaws.v ===== *)
(** * What the loggers guarantee

    The invariant of the manager, its loggers and appenders; that logging never
    reads a null formatter or a dangling pointer; what happens to a file. *)
From stdpp Require Import list gmap strings.
From S2P Require Import Prelude Strings CLib LogFormatter LogPattern Logger.

(** ** Weakest preconditions

    The only undefined behaviour left is the print of a time that does not fit its
    buffer; [cause] says where that can be. *)
Class Cause := cause : Prop.
Definition wp {C : Cause} {A} (m : M World A) (Q : A → World → Prop) (w : World) : Prop :=
  match m w with Ret a w' => Q a w' | Undef u => u = uninitialised ∧ cause | _ => False end.

(** The text of a time in a format fits the buffer of [DateTimeFormatItem::Format]. *)
Definition time_prints (strftime : bytes → Z → option bytes) (format : bytes) (time : Z) : Prop :=
  match strftime (c_str format) (s64 time) with Some t => length t < time_size | None => False end.

(** Some appender there is has a time format in which the time does not fit. *)
Definition formatters (w : World) : list (option LogFormatter) := a_formatter <$> appenders w.
Definition time_overflows (strftime : bytes → Z → option bytes) (w : World) (time : Z) : Prop :=
  ∃ f format, Some f ∈ formatters w ∧ DateTimeFormatItem format ∈ items_ f ∧ ¬ time_prints strftime format time.

Section wp.
Context {C : Cause} {A B : Type}.

Lemma wp_ret (a : A) (Q : A → World → Prop) w : Q a w → wp (mret a) Q w.
Proof. done. Qed.

Lemma wp_bind (m : M World A) (k : A → M World B) Q w : wp m (λ a, wp (k a) Q) w → wp (m ≫= k) Q w.
Proof. unfold wp, mbind, M_bind. by destruct (m w). Qed.

Lemma wp_mono (m : M World A) (P Q : A → World → Prop) w : wp m P w → (∀ a w', P a w' → Q a w') → wp m Q w.
Proof. unfold wp. destruct (m w); naive_solver. Qed.
End wp.

Lemma wp_modify {C : Cause} (f : World → World) (Q : unit → World → Prop) w : Q tt (f w) → wp (modify f) Q w.
Proof. done. Qed.

Lemma wp_logger_at {C : Cause} l x (Q : Logger → World → Prop) w : loggers w !! l = Some x → Q x w → wp (logger_at l) Q w.
Proof. unfold wp, logger_at. by intros ->. Qed.

Lemma wp_appender_at {C : Cause} a x (Q : LogAppender → World → Prop) w : appenders w !! a = Some x → Q x w → wp (appender_at a) Q w.
Proof. unfold wp, appender_at. by intros ->. Qed.

Lemma wp_items {C : Cause} strftime its level e (Q : bytes → World → Prop) w :
  (∀ format, DateTimeFormatItem format ∈ its → ¬ time_prints strftime format (time_ e) → cause) →
  (∀ out, Q out w) → wp (Format_items strftime its level e) Q w.
Proof.
  revert Q. induction its as [|i its IH]; intros Q Hits HQ; simpl; [by apply wp_ret|].
  assert (∀ Q' : bytes → World → Prop, (∀ out, Q' out w) → wp (FormatItem_Format strftime i level e) Q' w) as Hi.
  { intros Q' HQ'. destruct i; try (apply wp_ret, HQ'). simpl. specialize (Hits format ltac:(by left)). unfold time_prints in Hits.
    destruct (strftime _ _) as [t|]; [destruct (Nat.ltb_spec (length t) time_size); [apply wp_ret, HQ'|]|]; (split; [done|apply Hits; lia || auto]). }
  apply wp_bind, Hi. intros out. apply wp_bind, IH; [intros f Hf; apply Hits; by right|]. intros rest. by apply wp_ret.
Qed.

Lemma wp_make_formatter {C : Cause} val (Q : LogFormatter → World → Prop) w :
  (∀ f out, LogFormatter_new val = Some (f, out) → wp (print out) (λ _, Q f) w) → wp (make_formatter val) Q w.
Proof.
  intros HQ. unfold make_formatter. destruct (tokens_total val) as [ts Hts].
  pose proof (LogFormatter_new_tokens _ _ Hts) as Hn. destruct (formatter_of val ts) as [f out]. rewrite Hn.
  apply wp_bind. by apply HQ.
Qed.

(** ** The invariant *)

Definition good (w : World) (a : nat) : Prop := ∃ y, appenders w !! a = Some y ∧ is_Some (a_formatter y).

Record wf_logger (w : World) (l : nat) (x : Logger) : Prop := {
  wf_formatter : is_Some (l_formatter x);
  wf_appenders : Forall (good w) (appenders_ x);
  wf_root : l = root_ w → l_root x = None;
  wf_forward : l_root x = None ∨ l_root x = Some (root_ w) }.

Record wf (w : World) : Prop := {
  wf_loggers : ∀ l x, loggers w !! l = Some x → wf_logger w l x;
  wf_map : ∀ n l, loggers_ w !! n = Some l → ∃ x, loggers w !! l = Some x ∧ l_name x = n;
  wf_main : loggers_ w !! bs "root" = Some (root_ w) }.

(** Appenders that change keep their formatter, and none goes away. *)
Definition keeps (w w' : World) : Prop := ∀ a, good w a → good w' a.

#[export] Instance keeps_preorder : PreOrder keeps.
Proof. split; [by intros w a|]. intros w1 w2 w3 H12 H23 a Ha. by apply H23, H12. Qed.

(** What does not touch loggers and the map preserves the invariant. *)
Lemma wf_same_loggers w w' : wf w → keeps w w' → loggers w' = loggers w → loggers_ w' = loggers_ w → root_ w' = root_ w → wf w'.
Proof.
  intros [Hl Hm Hr] Hk El Em Er. split; rewrite ?El, ?Em, ?Er; [|done..].
  intros l x Hx. destruct (Hl l x Hx) as [H1 H2 H3 H4]. split; rewrite ?Er; [done| |done..].
  by eapply Forall_impl.
Qed.

Lemma keeps_put_appender w a y y' : appenders w !! a = Some y → (is_Some (a_formatter y) → is_Some (a_formatter y')) →
  keeps w (set_appenders <[a := y']> w).
Proof.
  intros Hy Hf b (z & Hz & Hs). destruct (decide (a = b)) as [->|Hab].
  - exists y'. simplify_eq. split; [|auto]. simpl. by rewrite list_lookup_insert_eq by (by eapply lookup_lt_Some).
  - exists z. split; [|done]. simpl. by rewrite list_lookup_insert_ne.
Qed.

Lemma wf_put_logger w l x x' : wf w → loggers w !! l = Some x → l_name x' = l_name x → wf_logger w l x' →
  wf (set_loggers <[l := x']> w).
Proof.
  intros [Hl Hm Hr] Hx Hn Hx'. split; [| |done].
  - intros k z Hz. simpl in Hz. apply list_lookup_insert_Some in Hz as [(-> & -> & _)|[Hk Hz]];
      [by destruct Hx'; split|by destruct (Hl k z Hz); split].
  - intros n k Hk. destruct (Hm n k Hk) as (z & Hz & Hzn). simpl. destruct (decide (l = k)) as [->|Hlk].
    + exists x'. rewrite list_lookup_insert_eq by (by eapply lookup_lt_Some). simplify_eq. split; congruence.
    + exists z. by rewrite list_lookup_insert_ne.
Qed.

(** ** The operations preserve it *)

Section laws.
Context {C : Cause} (can_open : bytes → bool) (strftime : bytes → Z → option bytes).

(** Writing and opening files, printing. *)
Definition calm (w w' : World) : Prop := wf w' ∧ keeps w w' ∧ loggers w' = loggers w.

Lemma calm_refl w : wf w → calm w w.
Proof. intros Hw. unfold calm. by split_and!. Qed.

Lemma calm_trans w1 w2 w3 : calm w1 w2 → calm w2 w3 → calm w1 w3.
Proof. intros (? & ? & ?) (? & ? & ?). unfold calm. split_and!; [done|by etrans|congruence]. Qed.

Lemma calm_files f w : wf w → calm w (set_files f w).
Proof. intros Hw. unfold calm. split_and!; [|by intros a Ha|done]. apply (wf_same_loggers w); [done|by intros a Ha|done..]. Qed.

Lemma calm_print s w : wf w → wp (print s) (λ _, calm w) w.
Proof. intros Hw. apply wp_modify. unfold calm. split_and!; [|by intros a Ha|done]. apply (wf_same_loggers w); [done|by intros a Ha|done..]. Qed.

Lemma calm_put_appender w a y y' : wf w → appenders w !! a = Some y → (is_Some (a_formatter y) → is_Some (a_formatter y')) →
  calm w (set_appenders <[a := y']> w).
Proof.
  intros Hw Hy Hf. unfold calm. split_and!; [|by eapply keeps_put_appender|done].
  apply (wf_same_loggers w); [done|by eapply keeps_put_appender|done..].
Qed.

Lemma calm_open name w : wf w → wp (ofstream_open can_open name) (λ _, calm w) w.
Proof.
  intros Hw. unfold ofstream_open. destruct (can_open name).
  - apply wp_bind, wp_modify, wp_ret. by apply calm_files.
  - by apply wp_ret, calm_refl.
Qed.

Lemma appenders_open name w : wp (ofstream_open can_open name) (λ _ w', appenders w' = appenders w) w.
Proof. unfold ofstream_open. by destruct (can_open name). Qed.

Lemma wp_and {A} (m : M World A) (P Q : A → World → Prop) w : wp m P w → wp m Q w → wp m (λ a w', P a w' ∧ Q a w') w.
Proof. unfold wp. by destruct (m w). Qed.

Lemma formatters_put a x y w : appenders w !! a = Some x → a_formatter y = a_formatter x →
  formatters (set_appenders <[a := y]> w) = formatters w.
Proof.
  intros Hx Hf. unfold formatters. simpl. rewrite list_fmap_insert, list_insert_id; [done|]. by rewrite list_lookup_fmap, Hx, Hf.
Qed.

(** What a log call leaves, and when it may fail. *)
Definition logged (w w' : World) : Prop := calm w w' ∧ formatters w' = formatters w.

Lemma logged_refl w : wf w → logged w w.
Proof. intros Hw. by split; [apply calm_refl|]. Qed.

Lemma logged_trans w1 w2 w3 : logged w1 w2 → logged w2 w3 → logged w1 w3.
Proof. intros [? ?] [? ?]. split; [by eapply calm_trans|congruence]. Qed.

Lemma logged_print s w : wf w → wp (print s) (λ _, logged w) w.
Proof. intros Hw. apply wp_modify. split; [by apply (calm_print s w)|done]. Qed.

Lemma overflows_items w a x f (time : Z) : appenders w !! a = Some x → a_formatter x = Some f → (time_overflows strftime w time → cause) →
  ∀ format, DateTimeFormatItem format ∈ items_ f → ¬ time_prints strftime format time → cause.
Proof.
  intros Hx Hf Hc format Hin Hnot. apply Hc. exists f, format. split; [|done]. rewrite <- Hf. apply list_elem_of_fmap. exists x. split; [done|].
  by eapply list_elem_of_lookup_2.
Qed.

Lemma FileLogAppender_Log_ok a x f st t level e w : wf w → appenders w !! a = Some x → is_Some (a_formatter x) →
  (time_overflows strftime w (time_ e) → cause) →
  wp (FileLogAppender_Log can_open strftime a x f st t level e) (λ _, logged w) w.
Proof.
  intros Hw Hx [fm Hf] Hc. unfold FileLogAppender_Log. apply wp_bind.
  eapply (wp_mono _ (λ _ w', calm w w' ∧ appenders w' = appenders w)).
  { destruct (u64 (t + 3) <=? time_ e)%Z; [|apply wp_ret; by split; [apply calm_refl|]].
    apply wp_bind. unfold ReOpen. apply wp_bind. eapply wp_mono; [apply wp_and; [by apply calm_open|apply appenders_open]|].
    intros st' w1 H1. by apply wp_ret, wp_ret. }
  intros [st' t'] w1 [H1 E1]. apply wp_bind. rewrite Hf. apply wp_ret, wp_bind, wp_items; [by eapply overflows_items|]. intros out.
  apply wp_bind. unfold stream_write.
  assert (∀ w2 st2, calm w w2 → appenders w2 = appenders w →
    wp (put_appender a (mkAppender (FileLogAppender f st2 t') (a_level x) (has_formatter x) (a_formatter x));;
        if bool_decide (st2 = None) then print (bs "error" ++ newline) else mret tt) (λ _, logged w) w2) as Hend.
  { intros w2 st2 H2 E2. rewrite <- E2 in Hx. apply wp_bind, wp_modify.
    set (y := mkAppender (FileLogAppender f st2 t') (a_level x) (has_formatter x) (a_formatter x)).
    pose proof (calm_put_appender w2 a x y (proj1 H2) Hx id) as H3.
    assert (logged w (set_appenders <[a := y]> w2)) as H4.
    { split; [by eapply calm_trans|]. rewrite (formatters_put a x) by done. unfold formatters. by rewrite E2. }
    case_bool_decide; [|by apply wp_ret].
    eapply wp_mono; [apply logged_print, H3|]. intros [] w4 H5. by eapply logged_trans. }
  rewrite Hf in Hend. destruct st' as [pos|].
  - apply wp_bind, wp_modify, wp_ret, Hend; [|done]. eapply calm_trans; [done|]. apply calm_files, H1.
  - by apply wp_ret, Hend.
Qed.

Lemma LogAppender_Log_ok a level e w : wf w → good w a → (time_overflows strftime w (time_ e) → cause) →
  wp (LogAppender_Log can_open strftime a level e) (λ _, logged w) w.
Proof.
  intros Hw (x & Hx & Hf) Hc. unfold LogAppender_Log. apply wp_bind, (wp_appender_at a x); [done|].
  destruct (level_ge _ _); [|by apply wp_ret, logged_refl]. destruct (target_ x); [|by apply FileLogAppender_Log_ok].
  unfold StdoutLogAppender_Log. destruct Hf as [f Hf]. rewrite Hf. apply wp_bind, wp_ret, wp_bind, wp_items; [by eapply overflows_items|].
  intros out. by apply logged_print.
Qed.

Lemma log_each_ok l level e w : wf w → Forall (good w) l → (time_overflows strftime w (time_ e) → cause) →
  wp (log_each can_open strftime l level e) (λ _, logged w) w.
Proof.
  revert w. induction l as [|a l IH]; intros w Hw Hl Hc; simpl; [by apply wp_ret, logged_refl|].
  apply Forall_cons in Hl as [Ha Hl]. apply wp_bind. eapply wp_mono; [by apply LogAppender_Log_ok|].
  intros [] w1 H1. eapply wp_mono; [apply IH; [apply H1|eapply Forall_impl; [done|apply H1]|]|].
  { unfold time_overflows. by rewrite (proj2 H1). }
  intros [] w2 H2. by eapply logged_trans.
Qed.

Lemma Log_ok l level e w : wf w → l < length (loggers w) → (time_overflows strftime w (time_ e) → cause) →
  wp (Log can_open strftime l level e) (λ _, logged w) w.
Proof.
  intros Hw Hl Hc. destruct (lookup_lt_is_Some_2 _ _ Hl) as [x Hx]. destruct (wf_loggers w Hw l x Hx) as [H1 H2 H3 H4].
  unfold Log. cbn [Logger_Log]. apply wp_bind, (wp_logger_at l x); [done|].
  destruct (level_ge level (l_level x)); [|by apply wp_ret, logged_refl].
  case_bool_decide; [by apply log_each_ok|]. destruct H4 as [->| ->]; [by apply wp_ret, logged_refl|].
  destruct (wf_map w Hw _ _ (wf_main w Hw)) as (r & Hr & _).
  destruct (wf_loggers w Hw _ r Hr) as [R1 R2 R3 R4].
  apply wp_bind, (wp_logger_at _ r); [done|].
  destruct (level_ge level (l_level r)); [|by apply wp_ret, logged_refl].
  case_bool_decide; [by apply log_each_ok|]. rewrite R3 by done. by apply wp_ret, logged_refl.
Qed.

(** Heaps that grow. *)
Lemma wf_new_appender w y : wf w → wf (set_appenders (λ h, h ++ [y]) w).
Proof.
  intros Hw. apply (wf_same_loggers w); [done| |done..].
  intros b (z & Hz & Hs). exists z. split; [|done]. by apply lookup_app_l_Some.
Qed.

Lemma wf_new_logger w x : wf w → is_Some (l_formatter x) → appenders_ x = [] → l_root x = None →
  wf (set_loggers (λ h, h ++ [x]) w).
Proof.
  intros [Hl Hm Hr] Hf Ha Hn. split; [| |done].
  - intros l z Hz. simpl in Hz. apply lookup_app_Some in Hz as [Hz|[_ Hz]].
    + by destruct (Hl l z Hz); split.
    + apply list_lookup_singleton_Some in Hz as [_ <-]. split; [done|by rewrite Ha|done|by left].
  - intros n l Hn'. destruct (Hm n l Hn') as (z & Hz & ?). exists z. split; [|done]. simpl. by apply lookup_app_l_Some.
Qed.

Lemma make_formatter_ok val w : wf w → wp (make_formatter val) (λ _, calm w) w.
Proof. intros Hw. apply wp_make_formatter. intros f out _. by apply calm_print. Qed.

(** The new logger, and everything else as it was. *)
Lemma Logger_new_ok name w : wf w →
  wp (Logger_new name) (λ l w', wf w' ∧ l = length (loggers w) ∧ loggers_ w' = loggers_ w ∧ root_ w' = root_ w ∧
    ∃ f, loggers w' = loggers w ++ [mkLogger name kDebug [] (Some f) None] ∧ appenders w' = appenders w) w.
Proof.
  intros Hw. unfold Logger_new. apply wp_bind, wp_make_formatter. intros f out _. apply wp_modify. simpl.
  unfold wp, new_logger. simpl. split_and!; [|done..|by exists f].
  apply (wf_new_logger _ (mkLogger name kDebug [] (Some f) None)); [|done..].
  by apply (calm_print out w Hw).
Qed.

Lemma wp_GetLogger_found l name (Q : nat → World → Prop) w : loggers_ w !! name = Some l → Q l w → wp (GetLogger name) Q w.
Proof. unfold wp, GetLogger. by intros ->. Qed.

Lemma wp_GetLogger_new name (Q : nat → World → Prop) w :
  loggers_ w !! name = None → wp (create_logger name (root_ w)) Q w → wp (GetLogger name) Q w.
Proof. unfold wp, GetLogger. intros ->. exact id. Qed.

Lemma GetLogger_ok name w : wf w → wp (GetLogger name) (λ _, wf) w.
Proof.
  intros Hw. destruct (loggers_ w !! name) as [l|] eqn:Hn; [by apply (wp_GetLogger_found l)|].
  apply wp_GetLogger_new; [done|]. unfold create_logger.
  apply wp_bind. eapply wp_mono; [by apply Logger_new_ok|]. intros l w1 (H1 & -> & Em & Er & f & El & _).
  set (x := mkLogger name kDebug [] (Some f) None) in *.
  assert (loggers w1 !! length (loggers w) = Some x) as Hx by (rewrite El; by apply list_lookup_middle).
  apply wp_bind, (wp_logger_at _ x); [done|]. apply wp_bind, wp_modify, wp_bind, wp_modify, wp_ret.
  assert (length (loggers w) ≠ root_ w) as Hne.
  { destruct (wf_map w Hw _ _ (wf_main w Hw)) as (r & Hr & _). apply lookup_lt_Some in Hr. lia. }
  pose proof (wf_put_logger w1 _ x (mkLogger name kDebug [] (Some f) (Some (root_ w))) H1 Hx eq_refl) as [Wl Wm Wr].
  { split; simpl; [done..|by rewrite Er|right; by rewrite Er]. }
  split.
  - intros l z Hz. by destruct (Wl l z Hz); split.
  - intros n l. simpl. rewrite lookup_insert_Some. intros [[<- <-]|[_ Hl]]; [|by apply Wm].
    eexists. by rewrite list_lookup_insert_eq by (by eapply lookup_lt_Some).
  - simpl. rewrite lookup_insert_ne; [done|]. intros ->. pose proof (wf_main w Hw). congruence.
Qed.

(** A pointer to a logger, and what an operation on one leaves. *)
Lemma put_logger_ok l x x' w : wf w → loggers w !! l = Some x → l_name x' = l_name x → l_root x' = l_root x →
  is_Some (l_formatter x') → Forall (good w) (appenders_ x') → wp (put_logger l x') (λ _ w', wf w' ∧ keeps w w') w.
Proof.
  intros Hw Hx Hn Hr Hf Ha. apply wp_modify. split; [|by intros a H].
  destruct (wf_loggers w Hw l x Hx) as [_ _ H3 H4]. apply (wf_put_logger w l x x'); [done..|].
  split; [done|done|by rewrite Hr|by rewrite Hr].
Qed.

Lemma give_formatter_ok l val w : wf w → Forall (good w) l → is_Some val → wp (give_formatter l val) (λ _, wf) w.
Proof.
  intros Hw Hl Hv. revert w Hw Hl. induction l as [|a l IH]; intros w Hw Hl; simpl; [by apply wp_ret|].
  apply Forall_cons in Hl as [(y & Hy & Hs) Hl]. apply wp_bind, (wp_appender_at a y); [done|]. apply wp_bind.
  destruct (has_formatter y); [by apply wp_ret, IH|]. apply wp_modify.
  destruct (calm_put_appender w a y (set_a_formatter val y) Hw Hy (λ _, Hv)) as (H1 & H2 & _).
  apply IH; [done|]. by eapply Forall_impl.
Qed.

Lemma Logger_SetFormatter_ok l f w : wf w → l < length (loggers w) → wp (Logger_SetFormatter l (Some f)) (λ _, wf) w.
Proof.
  intros Hw Hl. destruct (lookup_lt_is_Some_2 _ _ Hl) as [x Hx]. destruct (wf_loggers w Hw l x Hx) as [_ Ha _ _].
  unfold Logger_SetFormatter. apply wp_bind, (wp_logger_at l x); [done|]. apply wp_bind.
  eapply wp_mono; [by apply (put_logger_ok l x)|]. intros [] w1 [H1 H2]. apply give_formatter_ok; [done| |done].
  by eapply Forall_impl.
Qed.

Lemma erase_first_sub a l : erase_first a l ⊆ l.
Proof. induction l as [|b l IH]; simpl; [done|]. case_bool_decide; set_solver. Qed.

Lemma Logger_AddAppender_ok l a w : wf w → l < length (loggers w) → a < length (appenders w) →
  wp (Logger_AddAppender l a) (λ _, wf) w.
Proof.
  intros Hw Hl Hlt. destruct (lookup_lt_is_Some_2 _ _ Hl) as [x Hx]. destruct (lookup_lt_is_Some_2 _ _ Hlt) as [y Hy].
  destruct (wf_loggers w Hw l x Hx) as [Hf Ha _ _]. unfold Logger_AddAppender.
  apply wp_bind, (wp_logger_at l x); [done|]. unfold LogAppender_GetFormatter.
  apply wp_bind, wp_bind, (wp_appender_at a y), wp_ret; [done|]. apply wp_bind, (wp_appender_at a y); [done|].
  apply wp_bind. eapply (wp_mono _ (λ _ w', calm w w' ∧ good w' a)).
  { case_bool_decide as Hn.
    - apply wp_modify. split; [by eapply calm_put_appender|].
      exists (set_a_formatter (l_formatter x) y). split; [|done].
      simpl. by rewrite list_lookup_insert_eq.
    - apply wp_ret. split; [by apply calm_refl|]. exists y. split; [done|]. by apply not_eq_None_Some. }
  intros [] w1 [(H1 & H2 & H3) H4]. rewrite <- H3 in Hx.
  eapply wp_mono; [apply (put_logger_ok l x); [done..|]|naive_solver]. simpl. apply Forall_app. split; [|by constructor].
  by eapply Forall_impl.
Qed.
End laws.

(** ** Everything a program can do with loggers *)

Inductive call :=
  | CLogger (name : bytes) | CGetLogger (name : bytes)
  | CStdout | CFile (filename : bytes)
  | CAddAppender (l a : nat) | CDelAppender (l a : nat) | CClearAppenders (l : nat)
  | CSetFormatter (l : nat) (f : LogFormatter) | CSetPattern (l : nat) (val : bytes) | CSetLevel (l : nat) (v : Level)
  | CAppenderFormatter (a : nat) (f : option LogFormatter) | CAppenderLevel (a : nat) (v : Level)
  | CLog (l : nat) (level : Level) (e : LogEvent).

(** Pointers that were handed out.  No formatter of a logger is set to null. *)
Definition valid (w : World) (c : call) : Prop :=
  match c with
  | CLogger _ | CGetLogger _ | CStdout | CFile _ => True
  | CAddAppender l a => l < length (loggers w) ∧ a < length (appenders w)
  | CDelAppender l _ | CClearAppenders l | CSetFormatter l _ | CSetPattern l _ | CSetLevel l _ | CLog l _ _ =>
      l < length (loggers w)
  | CAppenderFormatter a _ | CAppenderLevel a _ => a < length (appenders w)
  end.

Section run.
Context (can_open : bytes → bool) (strftime : bytes → Z → option bytes).

Definition run (c : call) : M World unit :=
  match c with
  | CLogger name => Logger_new name;; mret tt
  | CGetLogger name => GetLogger name;; mret tt
  | CStdout => StdoutLogAppender_new;; mret tt
  | CFile filename => FileLogAppender_new can_open filename;; mret tt
  | CAddAppender l a => Logger_AddAppender l a
  | CDelAppender l a => Logger_DelAppender l a
  | CClearAppenders l => Logger_ClearAppenders l
  | CSetFormatter l f => Logger_SetFormatter l (Some f)
  | CSetPattern l val => Logger_SetFormatter_text l val
  | CSetLevel l v => Logger_SetLevel l v
  | CAppenderFormatter a f => LogAppender_SetFormatter a f
  | CAppenderLevel a v => LogAppender_SetLevel a v
  | CLog l level e => Log can_open strftime l level e
  end.

Inductive reachable : World → Prop :=
  | reachable_new fs w : LoggerManager_new fs = Ret tt w → reachable w
  | reachable_run w c w' : reachable w → valid w c → run c w = Ret tt w' → reachable w'.

Lemma LoggerManager_new_wf fs w : LoggerManager_new fs = Ret tt w → wf w.
Proof.
  unfold LoggerManager_new, Logger_new, make_formatter. rewrite default_parsed. cbn -[bs]. intros [= <-]. split.
  - intros l x Hx. apply list_lookup_singleton_Some in Hx as [-> <-].
    split; [by eexists| |done|by left]. repeat constructor. by repeat eexists.
  - intros n l. cbn. rewrite lookup_insert_Some. intros [[<- <-]|[_ Hn]]; [by eexists|done].
  - cbn. by rewrite lookup_insert_eq.
Qed.

(** A log call whose event has a time that an appender cannot print. *)
Definition run_overflows (w : World) (c : call) : Prop :=
  ∃ l level e, c = CLog l level e ∧ time_overflows strftime w (time_ e).

Lemma run_ok w c : wf w → valid w c → wp (C := run_overflows w c) (run c) (λ _, wf) w.
Proof.
  intros Hw Hv. destruct c; simpl in *.
  - apply wp_bind. eapply wp_mono; [by apply Logger_new_ok|]. intros l w1 [H1 _]. by apply wp_ret.
  - apply wp_bind. eapply wp_mono; [by apply GetLogger_ok|]. intros l w1 H1. by apply wp_ret.
  - apply wp_bind. by apply wf_new_appender.
  - apply wp_bind. unfold FileLogAppender_new. apply wp_bind. eapply wp_mono; [by apply calm_open|].
    intros st w1 [H1 _]. by apply wf_new_appender.
  - destruct Hv. by apply Logger_AddAppender_ok.
  - destruct (lookup_lt_is_Some_2 _ _ Hv) as [x Hx]. destruct (wf_loggers w Hw l x Hx) as [Hf Ha _ _].
    apply wp_bind, (wp_logger_at l x); [done|]. eapply wp_mono; [apply (put_logger_ok l x)|naive_solver]; try done.
    apply Forall_forall. intros b Hb. rewrite Forall_forall in Ha. by apply Ha, (erase_first_sub a).
  - destruct (lookup_lt_is_Some_2 _ _ Hv) as [x Hx]. destruct (wf_loggers w Hw l x Hx) as [Hf Ha _ _].
    apply wp_bind, (wp_logger_at l x); [done|]. eapply wp_mono; [by apply (put_logger_ok l x)|naive_solver].
  - by apply Logger_SetFormatter_ok.
  - destruct (lookup_lt_is_Some_2 _ _ Hv) as [x Hx]. apply wp_bind.
    eapply wp_mono; [by apply make_formatter_ok|]. intros f w1 (H1 & H2 & H3). rewrite <- H3 in Hx.
    apply wp_bind, (wp_logger_at l x); [done|].
    destruct (is_error_ f); [by eapply wp_mono; [apply calm_print|intros [] w2 [? _]]|].
    apply Logger_SetFormatter_ok; [done|]. by rewrite H3.
  - destruct (lookup_lt_is_Some_2 _ _ Hv) as [x Hx]. destruct (wf_loggers w Hw l x Hx) as [Hf Ha _ _].
    apply wp_bind, (wp_logger_at l x); [done|]. eapply wp_mono; [by apply (put_logger_ok l x)|naive_solver].
  - destruct (lookup_lt_is_Some_2 _ _ Hv) as [x Hx]. apply wp_bind, (wp_appender_at a x); [done|].
    destruct f; apply wp_modify; by eapply calm_put_appender.
  - destruct (lookup_lt_is_Some_2 _ _ Hv) as [x Hx]. apply wp_bind, (wp_appender_at a x); [done|].
    apply wp_modify. by eapply calm_put_appender.
  - eapply wp_mono; [apply Log_ok; [done|done|]|by intros [] w1 [[? _] _]]. intros Ho. by exists l, level, e.
Qed.

Lemma loggers_reachable_wf w : reachable w → wf w.
Proof.
  induction 1 as [fs w Hn|w c w' Hw IH Hv Hr]; [by eapply LoggerManager_new_wf|].
  pose proof (run_ok w c IH Hv) as Hc. unfold wp in Hc. by rewrite Hr in Hc.
Qed.

(** C30: In every state reached by creating loggers and appenders, giving a logger an
    appender or taking it, setting formatters other than null, patterns and levels, and
    logging, every further such call on objects there are succeeds: it reads no null
    formatter and follows no dangling pointer, and needs no more than the two steps from a
    logger to the main one.  The one exception is a log call of an event whose time does not
    fit the 64 bytes it is printed into, in a time format of a formatter that an appender
    has. *)
Theorem loggers_safe w c : reachable w → valid w c →
  (∃ w', run c w = Ret tt w' ∧ reachable w') ∨
  run c w = Undef uninitialised ∧ ∃ l level e, c = CLog l level e ∧ time_overflows strftime w (time_ e).
Proof.
  intros Hr Hv. pose proof (run_ok w c (loggers_reachable_wf w Hr) Hv) as Hc. unfold wp in Hc.
  destruct (run c w) as [[] w'|e w'|u|] eqn:E; [|done| |done].
  - left. exists w'. split; [done|]. by eapply reachable_run.
  - right. destruct Hc as [-> Hc]. by split.
Qed.
End run.

Definition w0 : World := match LoggerManager_new ∅ with Ret _ w => w | _ => no_world end.
Definition sample_event (t : Z) (text : bytes) : LogEvent :=
  mkEvent (bs "main.cc") 7 0 41 0 t (bs "main") text 0 (bs "root") kInfo.
Definition clock (_ : bytes) (_ : Z) : option bytes := Some (bs "12:00").

Lemma loggers_safe_witness :
  let c := CLog 0 kInfo (sample_event 5 (bs "hello")) in
  (∃ w', run (λ _, true) clock c w0 = Ret tt w' ∧ reachable (λ _, true) clock w') ∨
  run (λ _, true) clock c w0 = Undef uninitialised ∧
    ∃ l level e, c = CLog l level e ∧ time_overflows clock w0 (time_ e).
Proof.
  apply loggers_safe; [apply (reachable_new _ _ ∅); vm_compute; reflexivity|vm_compute; lia].
Defined.

(** ** What is printed *)

(** A line in the default format. *)
Definition default_line (time : bytes) (level : Level) (e : LogEvent) : bytes :=
  let tab := [byte.of_Z 9] in
  time ++ tab ++ dec (Z.to_N (thread_id_ e)) ++ tab ++ thread_name_ e ++ tab ++ dec (Z.to_N (fiber_id_ e)) ++ tab ++
  bs "[" ++ LogLevel.ToString level ++ bs "]" ++ tab ++ bs "[" ++ name_ e ++ bs "]" ++ tab ++
  filename_ e ++ bs ":" ++ signed_dec (line_ e) ++ tab ++ string_stream_ e ++ newline.

Section lines.
Context (can_open : bytes → bool) (strftime : bytes → Z → option bytes).

Lemma Format_items_cons {St} i its level e out rest (s : St) : FormatItem_Format strftime i level e s = Ret out s →
  Format_items strftime its level e s = Ret rest s → Format_items strftime (i :: its) level e s = Ret (out ++ rest) s.
Proof.
  intros Hi Hr. cbn [Format_items]. rewrite (bind_Ret _ _ _ _ _ Hi). by rewrite (bind_Ret _ _ _ _ _ Hr).
Qed.

(** A time that fits the buffer of [DateTimeFormatItem::Format]. *)
Definition time_fits (f t : bytes) (time : Z) : Prop :=
  strftime (c_str f) (s64 time) = Some t ∧ length t < time_size ∧ c_str t = t.

Lemma format_time {St} f t level e (s : St) : time_fits f t (time_ e) →
  FormatItem_Format strftime (DateTimeFormatItem f) level e s = Ret t s.
Proof.
  intros (Ht & Hl & Hz). cbn [FormatItem_Format]. by rewrite Ht, (proj2 (Nat.ltb_lt (length t) time_size) Hl), Hz.
Qed.

Lemma default_items_line {St} level e t (s : St) : time_fits default_time_format t (time_ e) →
  Format_items strftime (items_ default_formatter) level e s = Ret (default_line t level e) s.
Proof.
  intros Ht. unfold default_line. rewrite <- (app_nil_r newline).
  repeat first [apply Format_items_cons; [first [by apply format_time|reflexivity]|]|reflexivity].
Qed.

(** The manager as it is constructed. *)
Definition new_world (fs : gmap bytes bytes) : World :=
  mkWorld {[bs "root" := 0]} 0 [mkLogger (bs "root") kDebug [0] (Some default_formatter) None]
    [mkAppender StdoutLogAppender kDebug false (Some default_formatter)] fs [].

Lemma LoggerManager_new_world fs : LoggerManager_new fs = Ret tt (new_world fs).
Proof. unfold LoggerManager_new, Logger_new, make_formatter. rewrite default_parsed. reflexivity. Qed.

Definition printed (s : bytes) (w : World) : World :=
  mkWorld (loggers_ w) (root_ w) (loggers w) (appenders w) (files w) (stdout w ++ s).

Lemma stdout_log a x level e t w : appenders w !! a = Some x → target_ x = StdoutLogAppender →
  a_formatter x = Some default_formatter → level_ge level (a_level x) = true → time_fits default_time_format t (time_ e) →
  LogAppender_Log can_open strftime a level e w = Ret tt (printed (default_line t level e) w).
Proof.
  intros Hx Ht Hf Hv Hfit. unfold LogAppender_Log. erewrite bind_Ret by (unfold appender_at; by rewrite Hx).
  rewrite Hv, Ht. unfold StdoutLogAppender_Log. rewrite Hf. erewrite bind_Ret by reflexivity.
  by erewrite bind_Ret by (by apply default_items_line).
Qed.

(** In a process that just started, a message to the logger of any name, at
    any level from debug on, prints one line in the default format to the standard
    output, with the name of the logger it was sent to, and changes nothing else. *)
Theorem fresh_logger_prints fs name level ev t : level_ge level kDebug = true →
  time_fits default_time_format t (time_ ev) →
  ∃ l w, GetLogger name (new_world fs) = Ret l w ∧
    YGW_LOG_LEVEL can_open strftime l level ev w = Ret tt (printed (default_line t level (event_for l name level ev)) w).
Proof.
  intros Hv Hfit. destruct (decide (name = bs "root")) as [->|Hn].
  - exists 0, (new_world fs). split; [reflexivity|]. unfold YGW_LOG_LEVEL.
    erewrite bind_Ret by reflexivity. cbn [l_level l_name]. rewrite Hv. unfold LogEventWrap_end.
    unfold Log. cbn [Logger_Log]. erewrite bind_Ret by reflexivity. cbn [l_level appenders_ level_ event_for]. rewrite Hv.
    rewrite bool_decide_true by done. cbn [log_each].
    by erewrite bind_Ret by (by eapply (stdout_log 0)).
  - unfold GetLogger. change (loggers_ (new_world fs)) with ({[bs "root" := 0]} : gmap bytes nat).
    rewrite (lookup_singleton_ne (bs "root") name) by congruence.
    unfold create_logger, Logger_new, make_formatter. rewrite default_parsed.
    do 2 eexists. split; [reflexivity|]. unfold YGW_LOG_LEVEL.
    erewrite bind_Ret by reflexivity. cbn [l_level l_name]. rewrite Hv. unfold LogEventWrap_end.
    unfold Log. cbn [Logger_Log]. erewrite bind_Ret by reflexivity. cbn [l_level appenders_ l_root level_ event_for].
    rewrite Hv. rewrite bool_decide_false by auto.
    erewrite bind_Ret by reflexivity. cbn [l_level appenders_ l_root]. rewrite Hv.
    rewrite bool_decide_true by done. cbn [log_each].
    by erewrite bind_Ret by (by eapply (stdout_log 0)).
Qed.
End lines.

Lemma fresh_logger_prints_witness :
  let ev := sample_event 5 (bs "hello") in
  ∃ l w, GetLogger (bs "system") (new_world ∅) = Ret l w ∧
    YGW_LOG_LEVEL (λ _, true) clock l kWarn ev w =
    Ret tt (printed (default_line (bs "12:00") kWarn (event_for l (bs "system") kWarn ev)) w).
Proof.
  apply fresh_logger_prints; [reflexivity|]. split; [reflexivity|]. split; [vm_compute; lia|reflexivity].
Defined.

(** ** Files *)

(** An appender of the file [f] whose stream is at the end of the contents. *)
Definition file_at (a : nat) (f : bytes) (last : Z) (old : bytes) (lv : Level) (fm : LogFormatter) (w : World) : Prop :=
  (∃ hf, appenders w !! a = Some (mkAppender (FileLogAppender f (Some (length old)) last) lv hf (Some fm))) ∧
  files w !! f = Some old.

(** What a file holds after the events: every three seconds it starts over. *)
Fixpoint kept (line : LogEvent → bytes) (last : Z) (old : bytes) (evs : list LogEvent) : bytes :=
  match evs with
  | [] => old
  | e :: evs => if (last + 3 <=? time_ e)%Z then kept line (time_ e) (line e) evs else kept line last (old ++ line e) evs
  end.

Lemma write_at_end d old : write_at (length old) d old = old ++ d.
Proof.
  unfold write_at. rewrite Nat.sub_diag, app_nil_r, firstn_all, drop_ge by lia. by rewrite app_nil_r.
Qed.

Section files.
Context (can_open : bytes → bool) (strftime : bytes → Z → option bytes).

Fixpoint log_events (a : nat) (level : Level) (evs : list LogEvent) : M World unit :=
  match evs with
  | [] => mret tt
  | e :: evs => LogAppender_Log can_open strftime a level e;; log_events a level evs
  end.

Lemma file_log a f last old lv fm level e line w : file_at a f last old lv fm w → can_open f = true →
  level_ge level lv = true → in_u 64 (last + 3) → (∀ w' : World, Format_items strftime (items_ fm) level e w' = Ret line w') →
  ∃ w', LogAppender_Log can_open strftime a level e w = Ret tt w' ∧
    if (last + 3 <=? time_ e)%Z then file_at a f (time_ e) line lv fm w' else file_at a f last (old ++ line) lv fm w'.
Proof.
  intros [[hf Ha] Hf] Ho Hv Hr Hl. unfold LogAppender_Log.
  erewrite bind_Ret by (unfold appender_at; by rewrite Ha). cbn [a_level target_]. rewrite Hv.
  unfold FileLogAppender_Log. rewrite (wrap_small 64 (last + 3)) by done.
  assert (a < length (appenders w)) as Hlt by (by eapply lookup_lt_Some).
  destruct (last + 3 <=? time_ e)%Z.
  - unfold ReOpen, ofstream_open. rewrite Ho. cbn [a_formatter deref].
    erewrite bind_Ret by reflexivity. cbn beta iota. erewrite bind_Ret by reflexivity.
    erewrite bind_Ret by apply Hl. eexists. split; [reflexivity|]. split.
    + eexists. simpl. by rewrite list_lookup_insert_eq.
    + simpl. rewrite lookup_insert_eq, lookup_insert_eq. simpl. f_equal. unfold write_at. simpl. by rewrite drop_nil, app_nil_r.
  - cbn [a_formatter deref]. erewrite bind_Ret by reflexivity. cbn beta iota. erewrite bind_Ret by reflexivity.
    erewrite bind_Ret by apply Hl. eexists. split; [reflexivity|]. split.
    + eexists. simpl. rewrite list_lookup_insert_eq by done. by rewrite length_app.
    + simpl. rewrite lookup_insert_eq, Hf. simpl. by rewrite write_at_end.
Qed.

(** A file appender opens its file again when three seconds have passed since it
    last did, and opening empties the file: after any events the file holds the
    lines since the last reopening and nothing older. *)
Theorem file_starts_over a f last old lv fm level line evs w :
  file_at a f last old lv fm w → can_open f = true → level_ge level lv = true → in_u 64 (last + 3) →
  Forall (λ e, in_u 64 (time_ e + 3) ∧ ∀ w' : World, Format_items strftime (items_ fm) level e w' = Ret (line e) w') evs →
  ∃ w', log_events a level evs w = Ret tt w' ∧ files w' !! f = Some (kept line last old evs).
Proof.
  intros Hw Ho Hv Hr Hevs. revert last old w Hw Hr.
  induction Hevs as [|e evs [Ht Hl] _ IH]; intros last old w Hw Hr; [exists w; split; [done|apply Hw]|].
  destruct (file_log a f last old lv fm level e (line e) w) as (w1 & H1 & Hc); [done..|].
  simpl. erewrite bind_Ret by done. destruct (last + 3 <=? time_ e)%Z; by eapply IH.
Qed.
End files.

(** An appender for a file that already has contents, and three messages. *)
Definition file_world : World :=
  let fm := mkFormatter (bs "%m") [MessageFormatItem] false in
  mkWorld ∅ 0 [] [mkAppender (FileLogAppender (bs "a.log") (Some 4) 100) kDebug true (Some fm)] {[bs "a.log" := bs "old;"]} [].

Lemma file_starts_over_witness :
  let evs := [sample_event 101 (bs "one;"); sample_event 103 (bs "two;"); sample_event 105 (bs "three;")] in
  ∃ w', log_events (λ _, true) clock 0 kInfo evs file_world = Ret tt w' ∧ files w' !! bs "a.log" = Some (bs "two;three;").
Proof.
  apply (file_starts_over (λ _, true) clock 0 (bs "a.log") 100 (bs "old;") kDebug (mkFormatter (bs "%m") [MessageFormatItem] false)
    kInfo string_stream_); [split; [by eexists|reflexivity]|done..|].
  repeat constructor; unfold in_u; simpl; try lia; done.
Defined.
