(* ===== verification/Config.v ===== *)
(** * The configuration: [server_frame/config.h] and [config.cc]

    Variables of any type with their conversions to and from text and their
    listeners; the table that finds them by name and type; loading of YAML.  The
    YAML library is an interface, what listeners act on is a parameter [W]. *)
From stdpp Require Import list gmap.
From S2P Require Import Prelude Strings.

(** ** YAML *)

(** What the code uses of yaml-cpp: [YAML::Load] ([None]: it throws), a node
    written to a stream, [IsScalar], [IsMap], [Scalar], the elements [node[i]] below
    [node.size()], the pairs of an iteration, and building sequences and maps. *)
Class Yaml := {
  Node : Type;
  Load : bytes → option Node;
  print_node : Node → bytes;
  IsScalar : Node → bool;
  IsMap : Node → bool;
  Scalar : Node → bytes;
  elements : Node → list Node;
  pairs : Node → list (Node * Node);
  Sequence : list Node → Node;
  Mapping : list (bytes * Node) → Node;
  node_size : Node → nat }.

(** Its documented behaviour.  [sound] nodes are those a program can print and load
    again; nodes are finite trees. *)
Class YamlLaws (Y : Yaml) := {
  sound : Node → Prop;
  load_sound s n : Load s = Some n → sound n;
  load_print n : sound n → Load (print_node n) = Some n;
  sequence_sound l : Forall sound l → sound (Sequence l);
  elements_sequence l : elements (Sequence l) = l;
  mapping_sound l : NoDup l.*1 → Forall sound l.*2 → sound (Mapping l);
  pairs_mapping l : NoDup l.*1 → (λ p, (Scalar p.1, p.2)) <$> pairs (Mapping l) = l;
  pairs_smaller n k v : (k, v) ∈ pairs n → node_size v < node_size n }.

(** ** Conversions *)

(** [LexicalCast<std::string, T>] and [LexicalCast<T, std::string>]; [None] is an
    exception derived from [std::exception]. *)
Class LexicalCast (T : Type) := {
  from_string : bytes → option T;
  to_string : T → option bytes }.

Section casts.
Context `{Y : Yaml}.

(** The loops over the elements of a node and over the values of a container. *)
Definition cast_elements {T} `{LexicalCast T} (l : list Node) : option (list T) :=
  mapM (λ n, from_string (print_node n)) l.
Definition node_of {T} `{LexicalCast T} (x : T) : option Node := to_string x ≫= Load.

(** [std::vector<T>], and [std::list<T>], which has the same code. *)
#[export] Instance cast_vector {T} `{LexicalCast T} : LexicalCast (list T) := {
  from_string v := node ← Load v; cast_elements (elements node);
  to_string v := l ← mapM node_of v; Some (print_node (Sequence l)) }.
End casts.

(** [std::set<T>]: its values in the order of [operator<], none twice. *)
Record set_of (T : Type) := mkSet { set_list : list T }.
Arguments mkSet {_} _.
Arguments set_list {_} _.

(** [operator<] of a type. *)
Class Less (T : Type) := less : T → T → bool.

(** [std::set::insert] keeps an equivalent value that is there. *)
Fixpoint set_insert {T} `{Less T} (x : T) (l : list T) : list T :=
  match l with
  | [] => [x]
  | y :: r => if less x y then x :: l else if less y x then y :: set_insert x r else l
  end.
(** [std::set::find] *)
Definition set_find {T} `{Less T} (x : T) (l : list T) : option T :=
  snd <$> list_find (λ y, less x y = false ∧ less y x = false) l.

(** The comparison of strings, byte by byte as [unsigned char]. *)
Fixpoint string_less (a b : bytes) : bool :=
  match a, b with
  | _, [] => false
  | [], _ :: _ => true
  | x :: a, y :: b => (uchar x <? uchar y)%Z || (uchar x =? uchar y)%Z && string_less a b
  end.

(** [std::map<std::string, T>]: pairs in the order of their keys; [insert] keeps a
    pair that is there. *)
Record map_of (T : Type) := mkMap { map_list : list (bytes * T) }.
Arguments mkMap {_} _.
Arguments map_list {_} _.

Fixpoint map_insert {T} (k : bytes) (x : T) (l : list (bytes * T)) : list (bytes * T) :=
  match l with
  | [] => [(k, x)]
  | (k', y) :: r => if string_less k k' then (k, x) :: l else if string_less k' k then (k', y) :: map_insert k x r else l
  end.

Section casts2.
Context `{Y : Yaml}.

#[export] Instance cast_set {T} `{LexicalCast T, Less T} : LexicalCast (set_of T) := {
  from_string v := node ← Load v; l ← cast_elements (elements node); Some (mkSet (foldl (λ s x, set_insert x s) [] l));
  to_string v := l ← mapM node_of (set_list v); Some (print_node (Sequence l)) }.

(** The value of a pair, converted, with its key. *)
Definition cast_pair {T} `{LexicalCast T} (p : Node * Node) : option (bytes * T) :=
  x ← from_string (print_node p.2); Some (Scalar p.1, x).
Definition pair_of {T} `{LexicalCast T} (p : bytes * T) : option (bytes * Node) := n ← node_of p.2; Some (p.1, n).

#[export] Instance cast_map {T} `{LexicalCast T} : LexicalCast (map_of T) := {
  from_string v := node ← Load v; l ← mapM cast_pair (pairs node);
    Some (mkMap (foldl (λ m p, map_insert p.1 p.2 m) [] l));
  to_string v := l ← mapM pair_of (map_list v); Some (print_node (Mapping l)) }.
End casts2.

(** [std::string]: [boost::lexical_cast] is the identity. *)
#[export] Instance cast_string : LexicalCast bytes := {| from_string := Some; to_string := Some |}.

(** ** Variables *)

(** [ConfigVar<T>]; the listeners in the order of their keys. *)
Record ConfigVar (W T : Type) := mkVar {
  name_ : bytes; description_ : bytes; val_ : T; cbs_ : list (Z * (T → T → M W unit)) }.
Arguments mkVar {_ _} _ _ _ _.
Arguments name_ {_ _} _.
Arguments description_ {_ _} _.
Arguments val_ {_ _} _.
Arguments cbs_ {_ _} _.

(** The types of the variables of a program: their names, what they are, their
    conversions and [operator==]. *)
Class Types := {
  ty : Type;
  #[global] ty_eq_dec :: EqDecision ty;
  interp : ty → Type;
  ty_cast t : LexicalCast (interp t);
  ty_eqb t : interp t → interp t → bool }.
#[export] Existing Instance ty_cast.

Section config.
Context `{Y : Yaml} `{TY : Types} {W : Type}.

(** A [ConfigVarBase]: a variable of some type. *)
Record Var := mkAny { var_ty : ty; var : ConfigVar W (interp var_ty) }.

(** [s_datas] maps names to pointers, [vars] is the heap they point into; a counter of
    keys for listeners is kept per type; [world] is what listeners act on;
    [modify_time] is [s_file2modifytime]. *)
Record Config := mkConfig {
  s_datas : gmap bytes nat; vars : list Var; s_fun_id : ty → Z; world : W; modify_time : gmap bytes Z }.

Definition set_var (p : nat) (v : Var) : M Config unit :=
  modify (λ c, mkConfig (s_datas c) (<[p := v]> (vars c)) (s_fun_id c) (world c) (modify_time c)).

(** Reading a variable through a pointer to [ConfigVar<T>].  A pointer to a variable of
    another type is not one. *)
Definition var_at (p : nat) (t : ty) : M Config (ConfigVar W (interp t)) := λ c,
  match vars c !! p with
  | Some (mkAny t' v) =>
      match decide (t' = t) with left e => Ret (eq_rect t' (λ t, ConfigVar W (interp t)) v t e) c | right _ => Undef null_deref end
  | None => Undef null_deref
  end.

(** Running code of the listeners. *)
Definition in_world {A} (m : M W A) : M Config A := λ c,
  let back w := mkConfig (s_datas c) (vars c) (s_fun_id c) w (modify_time c) in
  match m (world c) with
  | Ret a w => Ret a (back w)
  | Throw e w => Throw e (back w)
  | Undef u => Undef u
  | NoFuel => NoFuel
  end.

(** *** ConfigVar *)

Section var.
Context (p : nat) (t : ty).

Definition GetValue : M Config (interp t) := val_ <$> var_at p t.
Definition GetName : M Config bytes := name_ <$> var_at p t.

(** The loop over the listeners. *)
Fixpoint call_listeners (cbs : list (Z * (interp t → interp t → M W unit))) (old new : interp t) : M Config unit :=
  match cbs with
  | [] => mret tt
  | (_, cb) :: cbs => in_world (cb old new);; call_listeners cbs old new
  end.

Definition SetValue (v : interp t) : M Config unit :=
  x ← var_at p t;
  if ty_eqb t v (val_ x) then mret tt
  else
    call_listeners (cbs_ x) (val_ x) v;;
    set_var p (mkAny t (mkVar (name_ x) (description_ x) v (cbs_ x))).

(** [ConfigVar::ToString] and [FromString] catch every [std::exception]; the latter
    returns false in any case. *)
Definition ToString : M Config bytes := x ← var_at p t; mret (default [] (to_string (val_ x))).
Definition FromString (val : bytes) : M Config bool := λ c,
  match from_string (T := interp t) val with
  | Some v =>
      match SetValue v c with
      | Ret _ c => Ret false c
      | Throw _ c => Ret false c
      | Undef u => Undef u
      | NoFuel => NoFuel
      end
  | None => Ret false c
  end.

(** [cbs_[id] = cb] on the ordered map. *)
Fixpoint put_listener (id : Z) (cb : interp t → interp t → M W unit) (l : list (Z * (interp t → interp t → M W unit)))
    : list (Z * (interp t → interp t → M W unit)) :=
  match l with
  | [] => [(id, cb)]
  | (i, f) :: r => if (id <? i)%Z then (id, cb) :: l else if (id =? i)%Z then (id, cb) :: r else (i, f) :: put_listener id cb r
  end.
Definition set_cbs (x : ConfigVar W (interp t)) (l : list (Z * (interp t → interp t → M W unit))) : M Config unit :=
  set_var p (mkAny t (mkVar (name_ x) (description_ x) (val_ x) l)).

Definition AddListener (cb : interp t → interp t → M W unit) : M Config Z :=
  x ← var_at p t;
  c ← get;
  let id := u64 (s_fun_id c t + 1) in
  modify (λ c, mkConfig (s_datas c) (vars c) (λ t', if decide (t' = t) then id else s_fun_id c t') (world c) (modify_time c));;
  set_cbs x (put_listener id cb (cbs_ x));;
  mret id.
Definition DelListener (key : Z) : M Config unit :=
  x ← var_at p t; set_cbs x (filter (λ i, i.1 ≠ key) (cbs_ x)).
Definition GetListener (key : Z) : M Config (option (interp t → interp t → M W unit)) :=
  x ← var_at p t; mret (snd ∘ snd <$> list_find (λ i, i.1 = key) (cbs_ x)).
Definition ClearListener : M Config unit := x ← var_at p t; set_cbs x [].
End var.

(** *** Config *)

(** The characters of names; there is no nine among them. *)
Definition name_chars : bytes := bs "abcdefghikjlmnopqrstuvwxyz._012345678".
Definition name_ok (name : bytes) : bool := forallb (λ c, bool_decide (c ∈ name_chars)) name.

(** [std::dynamic_pointer_cast<ConfigVar<T>>] *)
Definition pointer_cast (t : ty) (p : nat) (c : Config) : option nat :=
  v ← vars c !! p; if decide (var_ty v = t) then Some p else None.

(** [Lookup<T>(name, default, description)]: the pointer, null when the name is taken by
    a variable of another type. *)
Definition Lookup (t : ty) (name : bytes) (default_value : interp t) (description : bytes) : M Config (option nat) := λ c,
  match s_datas c !! name with
  | Some p => Ret (pointer_cast t p c) c
  | None =>
      if negb (name_ok name) then Throw invalid_argument c
      else
        let p := length (vars c) in
        let v := mkAny t (mkVar (ToLower name) description default_value []) in
        Ret (Some p) (mkConfig (<[name := p]> (s_datas c)) (vars c ++ [v]) (s_fun_id c) (world c) (modify_time c))
  end.
(** [Lookup<T>(name)] *)
Definition Lookup_only (t : ty) (name : bytes) : M Config (option nat) := λ c,
  Ret (p ← s_datas c !! name; pointer_cast t p c) c.
Definition LookupBase (name : bytes) : M Config (option nat) := λ c, Ret (s_datas c !! name) c.

(** [ListAllMember], a node deeper in each call. *)
Definition dot : byte := byte.of_Z 46.
Definition join (prefix key : bytes) : bytes := if bool_decide (prefix = []) then key else prefix ++ dot :: key.
Fixpoint ListAllMember (fuel : nat) (prefix : bytes) (node : Node) : option (list (bytes * Node)) :=
  match fuel with
  | O => None
  | S fuel =>
    if negb (name_ok prefix) then Some []
    else
      rest ← (if IsMap node then mapM (λ kv, ListAllMember fuel (join prefix (Scalar kv.1)) kv.2) (pairs node) else Some []);
      Some ((prefix, node) :: concat rest)
  end.

(** [var->FromString] through a [ConfigVarBase], on the type the variable has. *)
Definition FromString_any (p : nat) (val : bytes) : M Config bool := λ c,
  match vars c !! p with Some v => FromString p (var_ty v) val c | None => Undef null_deref end.

Definition node_text (n : Node) : bytes := if IsScalar n then Scalar n else print_node n.

(** The body of the loop of [LoadFromYaml]. *)
Definition load_node (i : bytes * Node) : M Config unit :=
  if bool_decide (i.1 = []) then mret tt
  else
    var ← LookupBase (ToLower i.1);
    match var with
    | Some p => FromString_any p (node_text i.2);; mret tt
    | None => mret tt
    end.
Fixpoint load_nodes (l : list (bytes * Node)) : M Config unit :=
  match l with [] => mret tt | i :: l => load_node i;; load_nodes l end.
Definition LoadFromYaml (root : Node) : M Config unit := λ c,
  match ListAllMember (S (node_size root)) [] root with Some l => load_nodes l c | None => NoFuel end.

(** [YAML::LoadFile], throwing on a file that cannot be read or parsed, and [lstat]
    with the time of the last change. *)
Context (LoadFile : bytes → option Node) (lstat : bytes → option Z).

Definition LoadFromYamlFile (file_path : bytes) : M Config unit :=
  match LoadFile file_path with Some n => LoadFromYaml n | None => throw logic_error end.

(** [try { ... } catch (...) { }] *)
Definition try_all (m : M Config unit) : M Config unit := λ c, match m c with Throw _ c => Ret tt c | r => r end.

(** The loop of [LoadFromConfDir] over the files [ListAllFile] found.  The result of
    [lstat] is not looked at. *)
Definition load_file (force : bool) (i : bytes) : M Config unit :=
  c ← get;
  match lstat i with
  | None => undef uninitialised
  | Some t =>
      if negb force && (default 0 (modify_time c !! i) =? u64 t)%Z
      then modify (λ c, mkConfig (s_datas c) (vars c) (s_fun_id c) (world c)
                          (if modify_time c !! i is Some _ then modify_time c else <[i := 0%Z]> (modify_time c)))
      else
        modify (λ c, mkConfig (s_datas c) (vars c) (s_fun_id c) (world c) (<[i := u64 t]> (modify_time c)));;
        try_all (LoadFromYamlFile i)
  end.
Fixpoint LoadFromConfDir (force : bool) (files : list bytes) : M Config unit :=
  match files with [] => mret tt | i :: files => load_file force i;; LoadFromConfDir force files end.

(** [Visit]: the callback on every variable, in some order of the table. *)
Definition Visit {A} (cb : nat → M Config A) : M Config unit := λ c,
  foldl (λ r p, match r with Ret _ c => (cb p;; mret tt) c | r => r end) (Ret tt c) (snd <$> map_to_list (s_datas c)).
End config.
Arguments Config {_} _.
Arguments Var {_} _.
