(* ===== verification/ConfigLaws.v ===== *)
(** * What the configuration guarantees

    Conversions of containers are inverse to each other; a name keeps its type;
    what loading a YAML document does to every variable. *)
From stdpp Require Import list gmap relations sorting.
From S2P Require Import Prelude Strings Config.

(** ** Conversions *)

Section casts.
Context `{Y : Yaml} `{!YamlLaws Y}.

(** A value that its own text, and that text through YAML, give back. *)
Definition stable {T} `{LexicalCast T} (x : T) : Prop :=
  ∃ s n, to_string x = Some s ∧ from_string s = Some x ∧ Load s = Some n ∧ from_string (print_node n) = Some x.

Section elements.
Context `{LexicalCast T}.

Lemma stable_node (x : T) : stable x → ∃ n, node_of x = Some n ∧ sound n ∧ from_string (print_node n) = Some x.
Proof. intros (s & n & Hs & _ & Hn & Hx). exists n. unfold node_of. rewrite Hs. simpl. eauto using load_sound. Qed.

Lemma stable_nodes (v : list T) : Forall stable v →
  ∃ l, mapM node_of v = Some l ∧ Forall sound l ∧ cast_elements l = Some v.
Proof.
  intros Hv. induction Hv as [|x v Hx _ (l & Hl & Hs & Hc)]; [by exists []|].
  destruct (stable_node x Hx) as (n & Hn & Hsn & Hcn). exists (n :: l). split_and!.
  - simpl. by rewrite Hn, Hl.
  - by constructor.
  - unfold cast_elements in *. simpl. by rewrite Hcn, Hc.
Qed.

(** A container that is printed as one node. *)
Lemma stable_container {C} `{LexicalCast C} (x : C) n : to_string x = Some (print_node n) → sound n →
  from_string (print_node n) = Some x → stable x.
Proof. intros Hs Hn Hx. exists (print_node n), n. by rewrite load_print. Qed.

Lemma stable_list (v : list T) : Forall stable v → stable v.
Proof.
  intros Hv. destruct (stable_nodes v Hv) as (l & Hl & Hs & Hc).
  apply (stable_container _ (Sequence l)); [simpl; by rewrite Hl|by apply sequence_sound|].
  simpl. rewrite load_print by (by apply sequence_sound). simpl. by rewrite elements_sequence.
Qed.

(** Ascending values. *)
Definition ascending `{Less T} (l : list T) : Prop := StronglySorted (λ x y, less x y = true ∧ less y x = false) l.

Lemma set_insert_last `{Less T} x l : Forall (λ y, less y x = true ∧ less x y = false) l → set_insert x l = l ++ [x].
Proof. induction 1 as [|y l [H1 H2] _ IH]; simpl; [done|]. by rewrite H1, H2, IH. Qed.

Lemma set_insert_all `{Less T} l acc : ascending (acc ++ l) → foldl (λ s x, set_insert x s) acc l = acc ++ l.
Proof.
  revert acc. induction l as [|x l IH]; intros acc Hs; simpl; [by rewrite app_nil_r|].
  rewrite set_insert_last.
  - rewrite IH; [by rewrite <- app_assoc|by rewrite <- app_assoc].
  - apply StronglySorted_app in Hs as (Hs & _ & _). rewrite Forall_forall. intros y Hy. apply Hs; [done|left].
Qed.

Lemma stable_set `{Less T} (v : set_of T) : ascending (set_list v) → Forall stable (set_list v) → stable v.
Proof.
  intros Ha Hv. destruct (stable_nodes _ Hv) as (l & Hl & Hs & Hc).
  apply (stable_container _ (Sequence l)); [simpl; by rewrite Hl|by apply sequence_sound|].
  simpl. rewrite load_print by (by apply sequence_sound). simpl. rewrite elements_sequence, Hc. simpl.
  rewrite set_insert_all by done. by destruct v.
Qed.

Lemma string_less_irrefl a : string_less a a = false.
Proof. induction a as [|x a IH]; simpl; [done|]. by rewrite Z.ltb_irrefl, Z.eqb_refl, IH. Qed.

Lemma string_less_asym a b : string_less a b = true → string_less b a = false.
Proof.
  revert b. induction a as [|x a IH]; intros [|y b]; simpl; try done. intros Hl.
  apply orb_true_iff in Hl as [Hl|Hl].
  - apply Z.ltb_lt in Hl. rewrite (proj2 (Z.ltb_ge (uchar y) (uchar x))) by lia.
    by rewrite (proj2 (Z.eqb_neq (uchar y) (uchar x))) by lia.
  - apply andb_true_iff in Hl as [He Hl]. apply Z.eqb_eq in He. rewrite He, Z.ltb_irrefl, Z.eqb_refl. by rewrite IH.
Qed.

Lemma string_less_trans a : ∀ b c, string_less a b = true → string_less b c = true → string_less a c = true.
Proof.
  induction a as [|x a IH]; intros [|y b] [|z c]; cbn; try done. rewrite !orb_true_iff, !andb_true_iff, !Z.ltb_lt, !Z.eqb_eq.
  intros [H1|[H1 H1']] [H2|[H2 H2']]; [left; lia..|]. right. split; [lia|by apply (IH b)].
Qed.

(** Ascending keys. *)
Definition keys_ascending (l : list (bytes * T)) : Prop := StronglySorted (λ p q, string_less p.1 q.1 = true) l.

Lemma map_insert_last k x (l : list (bytes * T)) : Forall (λ p, string_less p.1 k = true) l → map_insert k x l = l ++ [(k, x)].
Proof. induction 1 as [|[k' y] l H1 _ IH]; simpl in *; [done|]. by rewrite string_less_asym, H1, IH by done. Qed.

Lemma map_insert_all (l acc : list (bytes * T)) : keys_ascending (acc ++ l) → foldl (λ m p, map_insert p.1 p.2 m) acc l = acc ++ l.
Proof.
  revert acc. induction l as [|[k x] l IH]; intros acc Hs; simpl; [by rewrite app_nil_r|].
  rewrite map_insert_last.
  - rewrite IH; by rewrite <- app_assoc.
  - apply StronglySorted_app in Hs as (Hs & _ & _). rewrite Forall_forall. intros p Hp. apply (Hs p (k, x)); [done|left].
Qed.

Lemma keys_nodup l : keys_ascending l → NoDup l.*1.
Proof.
  induction 1 as [|[k x] l _ IH Hl]; [constructor|]. constructor; [|done].
  intros ([k' y] & Heq & Hk)%list_elem_of_fmap. simpl in Heq. subst k'. rewrite Forall_forall in Hl. specialize (Hl _ Hk). simpl in Hl.
  by rewrite string_less_irrefl in Hl.
Qed.

Lemma mapM_Some_cons {A B} (f : A → option B) a l : mapM f (a :: l) = (b ← f a; r ← mapM f l; Some (b :: r)).
Proof. done. Qed.

Lemma stable_pairs (v : list (bytes * T)) : Forall (λ p, stable p.2) v →
  ∃ l, mapM pair_of v = Some l ∧ Forall sound l.*2 ∧ l.*1 = v.*1 ∧
    ∀ q, (λ p, (Scalar p.1, p.2)) <$> q = l → mapM (cast_pair (T := T)) q = Some v.
Proof.
  intros Hv. induction Hv as [|[k x] v Hx _ (l & Hl & Hs & Hk & Hc)].
  { exists []. split_and!; [done|by constructor|done|]. by intros []. }
  destruct (stable_node x Hx) as (n & Hn & Hsn & Hcn). exists ((k, n) :: l). split_and!.
  - assert (pair_of (k, x) = Some (k, n)) as Hp by (unfold pair_of; simpl in *; by rewrite Hn).
    by rewrite mapM_Some_cons, Hp, Hl.
  - by constructor.
  - rewrite !fmap_cons. by rewrite Hk.
  - intros [|[m n'] q]; [done|]. intros [= Hm -> Hq].
    assert (cast_pair (m, n) = Some (k, x)) as Hp by (unfold cast_pair; simpl in *; by rewrite Hcn, <- Hm).
    by rewrite mapM_Some_cons, Hp, (Hc q Hq).
Qed.

Lemma stable_map (v : map_of T) : keys_ascending (map_list v) → Forall (λ p, stable p.2) (map_list v) → stable v.
Proof.
  intros Ha Hv. destruct (stable_pairs _ Hv) as (l & Hl & Hs & Hk & Hc).
  assert (NoDup l.*1) as Hnd by (rewrite Hk; by apply keys_nodup).
  apply (stable_container _ (Mapping l)); [simpl; by rewrite Hl|by apply mapping_sound|].
  simpl. rewrite load_print by (by apply mapping_sound). simpl.
  rewrite (Hc (pairs (Mapping l))) by (by apply pairs_mapping). simpl. rewrite map_insert_all by done. by destruct v.
Qed.
End elements.

(** Values of nested containers survive the way to text and back: a list, a set
    in its order and a map whose elements do, do. *)
Theorem containers_roundtrip {T} `{LexicalCast T, Less T} :
  (∀ v : list T, Forall stable v → stable v) ∧
  (∀ v : set_of T, ascending (set_list v) → Forall stable (set_list v) → stable v) ∧
  (∀ v : map_of T, keys_ascending (map_list v) → Forall (λ p, stable p.2) (map_list v) → stable v).
Proof. split_and!; [apply stable_list|apply stable_set|apply stable_map]. Qed.
End casts.

(** A text form of trees, which shows that the laws of the interface can hold. *)
Module TreeYaml.
Definition sharp : byte := byte.of_Z 35.

Fixpoint pos_bits (p : positive) : bytes :=
  match p with xH => [] | xO p => byte.of_Z 48 :: pos_bits p | xI p => byte.of_Z 49 :: pos_bits p end.
Fixpoint bits_pos (s : bytes) : positive :=
  match s with [] => xH | b :: s => if (uchar b =? 48)%Z then xO (bits_pos s) else xI (bits_pos s) end.

Lemma bits_pos_bits p : bits_pos (pos_bits p) = p.
Proof. induction p as [p IH|p IH|]; simpl; by rewrite ?IH. Qed.

Abbreviation tree := (gen_tree bytes).

Definition print (n : tree) : bytes := match n with GenLeaf s => s | GenNode _ _ => sharp :: pos_bits (encode n) end.
Definition load (s : bytes) : option tree :=
  match s with
  | c :: s' => if bool_decide (c = sharp)
      then match decode (bits_pos s') with Some (GenNode k l) => Some (GenNode k l) | _ => None end
      else Some (GenLeaf s)
  | [] => Some (GenLeaf [])
  end.
Fixpoint size (n : tree) : nat := match n with GenLeaf _ => 0 | GenNode _ l => S (sum_list (map size l)) end.
Definition pair_of (t : tree) : option (tree * tree) := match t with GenNode 2 [k; v] => Some (k, v) | _ => None end.

#[export] Instance yaml : Yaml := {|
  Node := tree; Load := load; print_node := print;
  IsScalar n := match n with GenLeaf _ => true | _ => false end;
  IsMap n := match n with GenNode 1 _ => true | _ => false end;
  Scalar n := match n with GenLeaf s => s | _ => [] end;
  elements n := match n with GenNode 0 l => l | _ => [] end;
  pairs n := match n with GenNode 1 l => omap pair_of l | _ => [] end;
  Sequence l := GenNode 0 l;
  Mapping l := GenNode 1 (map (λ p, GenNode 2 [GenLeaf p.1; p.2]) l);
  node_size := size |}.

Definition tree_sound (n : tree) : Prop := match n with GenLeaf (c :: _) => c ≠ sharp | _ => True end.

Lemma load_tree_sound s n : load s = Some n → tree_sound n.
Proof.
  destruct s as [|c s]; simpl; [by intros [= <-]|]. case_bool_decide as Hc; [|by intros [= <-]].
  destruct (decode (bits_pos s)) as [[|k l]|]; try done. by intros [= <-].
Qed.

Lemma tree_load_print n : tree_sound n → load (print n) = Some n.
Proof.
  destruct n as [[|c s]|k l]; simpl; intros Hn; [done|by rewrite bool_decide_false|].
  rewrite bits_pos_bits. by rewrite decode_encode.
Qed.

Lemma size_in t l : t ∈ l → size t ≤ sum_list (map size l).
Proof. induction 1 as [t l|t u l _ IH]; simpl; lia. Qed.

#[export] Instance yaml_laws : YamlLaws yaml.
Proof.
  refine {| sound := tree_sound : @Node yaml → Prop |}.
  - exact load_tree_sound.
  - exact tree_load_print.
  - done.
  - done.
  - done.
  - intros l _. induction l as [|[k n] l IH]; [done|]. cbn in *. by f_equal.
  - intros [|[|[|j]] l] k v; simpl; try (by intros ?%elem_of_nil). rewrite list_elem_of_omap. intros (t & Ht & Hp).
    apply size_in in Ht. destruct t as [|[|[|[|i]]] [|a [|b [|]]]]; try done. injection Hp as -> ->. simpl in Ht. lia.
Defined.
End TreeYaml.

#[local] Existing Instances TreeYaml.yaml TreeYaml.yaml_laws.

Lemma containers_roundtrip_witness :
  let v : map_of (list bytes) := mkMap [(bs "a", [bs "1"; bs "two"]); (bs "b", [])] in
  stable (Y := TreeYaml.yaml) v.
Proof.
  assert (∀ x : bytes, TreeYaml.load x = Some (GenLeaf x) → stable (Y := TreeYaml.yaml) x) as Hs.
  { intros x Hx. by exists x, (GenLeaf x). }
  apply (containers_roundtrip (T := list bytes) (H0 := λ _ _, false)); [repeat constructor|].
  repeat constructor; apply (containers_roundtrip (T := bytes) (H0 := λ _ _, false)); repeat constructor; by apply Hs.
Defined.
