(* ===== verification/JsonYaml.v ===== *)
(** * JSON values: [util/json_util.cc], and [YamlToJson] and [JsonToYaml] of [util.cc]

    Reading members of a JSON object with defaults, and turning documents of one kind
    into the other.  jsoncpp is an interface, like yaml-cpp in [Config.v], which is
    extended here by what building a document takes. *)
From stdpp Require Import list gmap sorting.
From S2P Require Import Prelude Strings CLib Util Config ConfigLaws.
Local Open Scope Z_scope.

(** ** The libraries *)

(** What the code uses of jsoncpp: a null value, a value of a text, [append] and
    assigning a member ([None]: they throw, on a value of another kind), the elements of
    an array, the members of an object, [asString], and [isMember] with [operator[]]
    ([None]: it throws, on what is neither an object nor null).  The tests of the kinds
    give the value along: [isInt] with [asInt] and so on. *)
Class Json := {
  Value : Type;
  jnull : Value;
  jtext : bytes → Value;
  append : Value → Value → option Value;
  set_member : Value → bytes → Value → option Value;
  jelements : Value → option (list Value);
  jmembers : Value → option (list (bytes * Value));
  asString : Value → option bytes;
  member : Value → bytes → option (option Value);
  isString : Value → option bytes;
  isInt : Value → option Z;
  isUInt : Value → option Z;
  isInt64 : Value → option Z;
  isUInt64 : Value → option Z }.

(** Its documented behaviour; the members of an object are in the order of their names. *)
Class JsonLaws (J : Json) := {
  null_plain : jelements jnull = None ∧ jmembers jnull = None ∧ asString jnull = Some [];
  text_plain s : jelements (jtext s) = None ∧ jmembers (jtext s) = None ∧ asString (jtext s) = Some s;
  append_null v : ∃ a, append jnull v = Some a ∧ jelements a = Some [v];
  append_array a l v : jelements a = Some l → ∃ a', append a v = Some a' ∧ jelements a' = Some (l ++ [v]);
  set_null k v : ∃ o, set_member jnull k v = Some o ∧ jelements o = None ∧ jmembers o = Some [(k, v)];
  set_last o l k v : jelements o = None → jmembers o = Some l → Forall (λ p, string_less p.1 k = true) l →
    ∃ o', set_member o k v = Some o' ∧ jelements o' = None ∧ jmembers o' = Some (l ++ [(k, v)]);
  members_ascending o l : jmembers o = Some l → keys_ascending l;
  int_ranges v n : (isInt v = Some n → in_s 32 n) ∧ (isUInt v = Some n → in_u 32 n) ∧
    (isInt64 v = Some n → in_s 64 n) ∧ (isUInt64 v = Some n → in_u 64 n) }.

(** Building YAML: a null node, a text, [push_back], and assigning to a key. *)
Class YamlBuild (Y : Yaml) := {
  ynull : Node;
  yscalar : bytes → Node;
  IsSequence : Node → bool;
  push_back : Node → Node → option Node;
  set_key : Node → bytes → Node → option Node }.

Class YamlBuildLaws (Y : Yaml) {B : YamlBuild Y} := {
  ynull_kind : IsScalar ynull = false ∧ IsSequence ynull = false ∧ IsMap ynull = false;
  yscalar_kind s : IsScalar (yscalar s) = true ∧ Scalar (yscalar s) = s;
  sequence_kind l : IsScalar (Sequence l) = false ∧ IsSequence (Sequence l) = true;
  mapping_kind l : IsScalar (Mapping l) = false ∧ IsSequence (Mapping l) = false ∧ IsMap (Mapping l) = true;
  push_null n : push_back ynull n = Some (Sequence [n]);
  push_more l n : push_back (Sequence l) n = Some (Sequence (l ++ [n]));
  key_null k n : set_key ynull k n = Some (Mapping [(k, n)]);
  key_new l k n : k ∉ l.*1 → set_key (Mapping l) k n = Some (Mapping (l ++ [(k, n)])) }.

(** ** Members with a default *)

Section getters.
Context `{Json}.

(** [None]: [isMember] throws. *)
Definition get_member {A} (json : Value) (name : bytes) (default_value : A) (read : Value → option A) (text : bytes → A) : option A :=
  m ← member json name;
  Some match m with
  | None => default_value
  | Some v =>
    match read v with
    | Some x => x
    | None => match isString v with Some s => text s | None => default_value end
    end
  end.

Definition GetString (json : Value) (name default_value : bytes) : option bytes := get_member json name default_value isString (λ s, s).

(** The number of a text is converted to the type of the result. *)
Definition GetInt32 (json : Value) (name : bytes) (default_value : Z) : option Z := get_member json name default_value isInt (λ s, s32 (Atoi s)).
Definition GetUint32 (json : Value) (name : bytes) (default_value : Z) : option Z := get_member json name default_value isUInt (λ s, u32 (Atoi s)).
Definition GetInt64 (json : Value) (name : bytes) (default_value : Z) : option Z := get_member json name default_value isInt64 Atoi.
Definition GetUint64 (json : Value) (name : bytes) (default_value : Z) : option Z := get_member json name default_value isUInt64 (λ s, u64 (Atoi s)).
End getters.

(** ** Conversions *)

Section conversions.
Context `{J : Json} `{Y : Yaml} {B : YamlBuild Y}.

(** The loops over elements and members; what one turn throws ends all, and the callers
    answer false then. *)
Fixpoint append_loop (convert : Node → option Value) (jnode : Value) (l : list Node) : option Value :=
  match l with
  | [] => Some jnode
  | y :: l => v ← convert y; jnode ← append jnode v; append_loop convert jnode l
  end.
Fixpoint member_loop (convert : Node → option Value) (jnode : Value) (l : list (Node * Node)) : option Value :=
  match l with
  | [] => Some jnode
  | it :: l => v ← convert it.2; jnode ← set_member jnode (Scalar it.1) v; member_loop convert jnode l
  end.

(** Into a fresh value; [None]: false. *)
Fixpoint YamlToJson (fuel : nat) (ynode : Node) : option Value :=
  match fuel with
  | O => None
  | S fuel =>
    if IsScalar ynode then Some (jtext (Scalar ynode))
    else if IsSequence ynode then append_loop (YamlToJson fuel) jnull (elements ynode)
    else if IsMap ynode then member_loop (YamlToJson fuel) jnull (pairs ynode)
    else Some jnull
  end.

Fixpoint push_loop (convert : Value → option Node) (ynode : Node) (l : list Value) : option Node :=
  match l with
  | [] => Some ynode
  | j :: l => n ← convert j; ynode ← push_back ynode n; push_loop convert ynode l
  end.
Fixpoint key_loop (convert : Value → option Node) (ynode : Node) (l : list (bytes * Value)) : option Node :=
  match l with
  | [] => Some ynode
  | it :: l => n ← convert it.2; ynode ← set_key ynode it.1 n; key_loop convert ynode l
  end.

Fixpoint JsonToYaml (fuel : nat) (jnode : Value) : option Node :=
  match fuel with
  | O => None
  | S fuel =>
    match jelements jnode, jmembers jnode with
    | Some l, _ => push_loop (JsonToYaml fuel) ynull l
    | None, Some l => key_loop (JsonToYaml fuel) ynull l
    | None, None => s ← asString jnode; Some (yscalar s)
    end
  end.
End conversions.

(** ** What a document becomes *)

Section documents.
Context `{J : Json}.

(** A document that is no deeper than [fuel] and whose scalars have texts. *)
Fixpoint readable (fuel : nat) (j : Value) : bool :=
  match fuel with
  | O => false
  | S fuel =>
    match jelements j, jmembers j with
    | Some l, _ => forallb (readable fuel) l
    | None, Some l => forallb (λ p, readable fuel p.2) l
    | None, None => bool_decide (is_Some (asString j))
    end
  end.

(** The value that comes back for a value.  A scalar, null included, comes back as its text;
    what has nothing in it comes back as null; and an array or object with something in it
    as one with as many elements, or the same names, and what each of them becomes. *)
#[warnings="-register-all"] Inductive comes_back : Value → Value → Prop :=
  | back_scalar j s : jelements j = None → jmembers j = None → asString j = Some s → comes_back j (jtext s)
  | back_empty j : jelements j = Some [] ∨ jelements j = None ∧ jmembers j = Some [] → comes_back j jnull
  | back_array j l j' l' : jelements j = Some l → l ≠ [] → jelements j' = Some l' → Forall2 comes_back l l' → comes_back j j'
  | back_object j l j' l' : jelements j = None → jmembers j = Some l → l ≠ [] → jelements j' = None → jmembers j' = Some l' →
      Forall2 (λ p q, p.1 = q.1 ∧ comes_back p.2 q.2) l l' → comes_back j j'.
End documents.

Lemma keys_ascending_NoDup {T} (l : list (bytes * T)) : keys_ascending l → NoDup l.*1.
Proof.
  induction 1 as [|[k x] l _ IH Hl]; [constructor|]. cbn. constructor; [|done]. intros Hin.
  apply list_elem_of_fmap in Hin as ([k' y] & -> & Hin). rewrite Forall_forall in Hl. specialize (Hl _ Hin). cbn in Hl.
  by rewrite string_less_irrefl in Hl.
Qed.

Lemma keys_ascending_keys {A C} (l : list (bytes * A)) (m : list (bytes * C)) : m.*1 = l.*1 → keys_ascending l → keys_ascending m.
Proof.
  intros Hk Hl. revert m Hk. induction Hl as [|[k x] l _ IH Hl]; intros [|[k' y] m] Hk; try done; [constructor|].
  cbn in Hk. injection Hk as -> Hk. constructor; [by apply IH|]. apply Forall_forall. intros [k2 z] Hin. cbn.
  assert (k2 ∈ l.*1) as Hin2 by (rewrite <- Hk; by apply (list_elem_of_fmap_2 fst _ _ Hin)).
  apply list_elem_of_fmap in Hin2 as ([k3 w] & -> & Hin3). rewrite Forall_forall in Hl. by apply (Hl _ Hin3).
Qed.

Lemma keys_ascending_app_last {T} (pre : list (bytes * T)) k v vs : keys_ascending (pre ++ (k, v) :: vs) → Forall (λ p, string_less p.1 k = true) pre.
Proof.
  intros Hs. induction pre as [|p pre IH]; [constructor|]. cbn in Hs. apply StronglySorted_inv in Hs as [Hs Hp].
  constructor; [|by apply IH]. apply Forall_app in Hp as [_ Hp]. by apply Forall_cons in Hp as [Hp _].
Qed.

Lemma keys_ascending_snoc {T} (l : list (bytes * T)) k v : keys_ascending l → Forall (λ p, string_less p.1 k = true) l → keys_ascending (l ++ [(k, v)]).
Proof.
  intros Hl. induction Hl as [|p l _ IH Hp]; intros Hk; [constructor; constructor|]. apply Forall_cons in Hk as [Hpk Hk].
  constructor; [by apply IH|]. apply Forall_app. split; [done|]. by constructor.
Qed.

Section laws.
Context `{JL : JsonLaws} `{YL : YamlLaws} {B : YamlBuild Y} {BL : YamlBuildLaws Y}.

(** Converting every element. *)
Abbreviation all_convert convert := (Forall2 (λ x y, convert x = Some y)).

Lemma push_loop_ok convert l ns : all_convert convert l ns → ∀ pre, push_loop convert (Sequence pre) l = Some (Sequence (pre ++ ns)).
Proof.
  induction 1 as [|j n l ns Hj _ IH]; intros pre; cbn; [by rewrite app_nil_r|].
  rewrite Hj. cbn. rewrite push_more. cbn. by rewrite IH, <- app_assoc.
Qed.

Lemma push_loop_null convert l ns : ns ≠ [] → all_convert convert l ns → push_loop convert ynull l = Some (Sequence ns).
Proof.
  intros Hn Hl. revert Hn. destruct Hl as [|j n l' ns' Hj Hl]; [done|]. intros _. cbn. rewrite Hj. cbn. rewrite push_null. cbn. by rewrite (push_loop_ok _ _ _ Hl).
Qed.

Lemma append_loop_ok convert l vs : all_convert convert l vs → ∀ a pre, jelements a = Some pre →
  ∃ a', append_loop convert a l = Some a' ∧ jelements a' = Some (pre ++ vs).
Proof.
  induction 1 as [|y v l vs Hy _ IH]; intros a pre Ha; cbn; [exists a; by rewrite app_nil_r|].
  rewrite Hy. cbn. destruct (append_array a pre v Ha) as (a' & -> & Ha'). cbn.
  destruct (IH a' _ Ha') as (a'' & -> & Ha''). exists a''. by rewrite Ha'', <- app_assoc.
Qed.

Lemma append_loop_null convert l vs : vs ≠ [] → all_convert convert l vs → ∃ a, append_loop convert jnull l = Some a ∧ jelements a = Some vs.
Proof.
  intros Hn Hl. revert Hn. destruct Hl as [|y v l' vs' Hy Hl]; [done|]. intros _. cbn. rewrite Hy. cbn. destruct (append_null v) as (a & -> & Ha). cbn.
  by apply (append_loop_ok convert l' vs' Hl a [v]).
Qed.

(** The same with names. *)
Abbreviation all_named convert := (Forall2 (λ p q, p.1 = q.1 ∧ convert p.2 = Some q.2)).

Lemma key_loop_ok convert l ns : all_named convert l ns → ∀ pre, NoDup (pre.*1 ++ ns.*1) →
  key_loop convert (Mapping pre) l = Some (Mapping (pre ++ ns)).
Proof.
  induction 1 as [|[k j] [k' n] l ns [Hk Hj] _ IH]; intros pre Hd; cbn in *; [by rewrite app_nil_r|]. subst k'.
  rewrite Hj. cbn. rewrite key_new; cbn.
  - rewrite IH, <- app_assoc; [done|]. rewrite fmap_app, <- app_assoc. exact Hd.
  - apply NoDup_app in Hd as (_ & Hd & _). intros Hin. apply (Hd _ Hin). by left.
Qed.

Lemma key_loop_null convert l ns : ns ≠ [] → NoDup ns.*1 → all_named convert l ns → key_loop convert ynull l = Some (Mapping ns).
Proof.
  intros Hn Hd Hl. revert Hn Hd. destruct Hl as [|[k j] [k' n] l' ns' [Hk Hj] Hl]; [done|]. intros _ Hd. cbn in *. subst k'. rewrite Hj. cbn. rewrite key_null. cbn.
  by rewrite (key_loop_ok _ _ _ Hl).
Qed.

Lemma member_loop_ok convert l vs : Forall2 (λ p q, Scalar p.1 = q.1 ∧ convert p.2 = Some q.2) l vs → ∀ o pre, jelements o = None →
  jmembers o = Some pre → keys_ascending (pre ++ vs) →
  ∃ o', member_loop convert o l = Some o' ∧ jelements o' = None ∧ jmembers o' = Some (pre ++ vs).
Proof.
  induction 1 as [|[k y] [k' v] l vs [Hk Hy] _ IH]; intros o pre He Ho Hs; cbn in *; [exists o; by rewrite app_nil_r|].
  rewrite Hy. cbn. rewrite Hk. destruct (set_last o pre k' v He Ho) as (o' & -> & He' & Ho').
  { by apply keys_ascending_app_last in Hs. }
  cbn. destruct (IH o' (pre ++ [(k', v)]) He' Ho') as (o'' & -> & He'' & Ho''); [by rewrite <- app_assoc|].
  exists o''. by rewrite Ho'', <- app_assoc.
Qed.

Lemma member_loop_null convert l vs : vs ≠ [] → keys_ascending vs → Forall2 (λ p q, Scalar p.1 = q.1 ∧ convert p.2 = Some q.2) l vs →
  ∃ o, member_loop convert jnull l = Some o ∧ jelements o = None ∧ jmembers o = Some vs.
Proof.
  intros Hn Hs Hl. revert Hn Hs. destruct Hl as [|[k y] [k' v] l' vs' [Hk Hy] Hl]; [done|]. intros _ Hs. cbn in *. rewrite Hy. cbn. rewrite Hk.
  destruct (set_null k' v) as (o & -> & He & Ho). cbn. by apply (member_loop_ok convert l' vs' Hl o [(k', v)]).
Qed.

(** ** There and back *)

(** The conversions succeed, one after the other, and give back what they should. *)
Definition returns (fuel : nat) (j j' : Value) : Prop :=
  ∃ y, JsonToYaml fuel j = Some y ∧ YamlToJson fuel y = Some j' ∧ comes_back j j'.

Lemma returns_text fuel j s : jelements j = None → jmembers j = None → asString j = Some s → returns (S fuel) j (jtext s).
Proof.
  intros He Hm Hs. exists (yscalar s). cbn. rewrite He, Hm, Hs. destruct (yscalar_kind s) as [-> ->].
  split_and!; [done..|]. by apply back_scalar.
Qed.

Lemma returns_nothing fuel j : jelements j = Some [] ∨ jelements j = None ∧ jmembers j = Some [] → returns (S fuel) j jnull.
Proof.
  intros Hj. exists ynull. cbn. destruct ynull_kind as (-> & -> & ->).
  split_and!; [|done|by apply back_empty]. by destruct Hj as [-> |[-> ->]].
Qed.

Lemma returns_array fuel j l vs : jelements j = Some l → l ≠ [] → Forall2 (returns fuel) l vs → ∃ a, returns (S fuel) j a.
Proof.
  intros Hj Hn Hl.
  assert (∃ ys, all_convert (JsonToYaml fuel) l ys ∧ all_convert (YamlToJson fuel) ys vs ∧ Forall2 comes_back l vs) as (ys & H1 & H2 & H3).
  { clear Hn Hj. induction Hl as [|x v l vs (y & H1 & H2 & H3) _ (ys & ? & ? & ?)].
    - exists []. split_and!; constructor.
    - exists (y :: ys). split_and!; by constructor. }
  assert (ys ≠ []) as Hys by (intros ->; by apply Forall2_nil_inv_r in H1).
  assert (vs ≠ []) as Hvs by (intros ->; by apply Forall2_nil_inv_r in H3).
  destruct (append_loop_null _ _ _ Hvs H2) as (a & Ha & Hae). exists a, (Sequence ys). cbn. rewrite Hj.
  destruct (sequence_kind ys) as [-> ->]. rewrite elements_sequence, Ha. split_and!; [by apply push_loop_null|done|].
  by apply (back_array j l a vs).
Qed.

Lemma returns_object fuel j l vs : jelements j = None → jmembers j = Some l → l ≠ [] →
  Forall2 (λ p q, p.1 = q.1 ∧ returns fuel p.2 q.2) l vs → ∃ o, returns (S fuel) j o.
Proof.
  intros He Hj Hn Hl. pose proof (members_ascending _ _ Hj) as Hasc.
  assert (∃ ys, all_named (JsonToYaml fuel) l ys ∧ all_named (YamlToJson fuel) ys vs ∧ vs.*1 = l.*1 ∧ ys.*1 = l.*1 ∧
    Forall2 (λ p q, p.1 = q.1 ∧ comes_back p.2 q.2) l vs) as (ys & H1 & H2 & Hk & Hky & H3).
  { clear Hn Hj Hasc. induction Hl as [|[k x] [k' v] l vs [Hk (y & H1 & H2 & H3)] _ (ys & ? & ? & Hkk & Hky & IH)].
    - exists []. split_and!; [constructor..|done|done|constructor].
    - cbn in *. subst k'. exists ((k, y) :: ys). split_and!; [by constructor..|cbn; by f_equal|cbn; by f_equal|by constructor]. }
  assert (ys ≠ []) as Hys by (intros ->; by apply Forall2_nil_inv_r in H1).
  assert (vs ≠ []) as Hvs by (intros ->; by apply Forall2_nil_inv_r in H3).
  assert (NoDup ys.*1) as Hd by (rewrite Hky; by apply keys_ascending_NoDup).
  assert (keys_ascending vs) as Hvasc by (by apply (keys_ascending_keys l)).
  destruct (member_loop_null (YamlToJson fuel) (pairs (Mapping ys)) vs Hvs Hvasc) as (o & Ho & Hoe & Hom).
  { rewrite <- (pairs_mapping ys Hd) in H2. by apply Forall2_fmap_l in H2. }
  exists o, (Mapping ys). cbn. rewrite He, Hj. destruct (mapping_kind ys) as (-> & -> & ->). rewrite Ho.
  split_and!; [by apply key_loop_null|done|]. by apply (back_object j l o vs).
Qed.

(** A list whose elements all have something is matched by a list of these. *)
Lemma Forall2_choose {A C} (R : A → C → Prop) l : (∀ x, x ∈ l → ∃ y, R x y) → ∃ l', Forall2 R l l'.
Proof.
  induction l as [|x l IH]; intros H; [by exists []|]. destruct (H x) as [y Hy]; [by left|].
  destruct IH as [l' Hl']; [intros z Hz; apply H; by right|]. exists (y :: l'). by constructor.
Qed.

Lemma readable_returns fuel : ∀ j, readable fuel j = true → ∃ j', returns fuel j j'.
Proof.
  induction fuel as [|fuel IH]; intros j Hj; [done|]. cbn in Hj. destruct (jelements j) as [l|] eqn:He; [|destruct (jmembers j) as [l|] eqn:Hm].
  - destruct l as [|x l]; [exists jnull; apply returns_nothing; by left|]. rewrite forallb_forall in Hj.
    destruct (Forall2_choose (returns fuel) (x :: l)) as [vs Hvs]; [intros y Hy; apply IH, Hj; by apply list_elem_of_In|].
    by apply (returns_array _ _ (x :: l) vs).
  - destruct l as [|x l]; [exists jnull; apply returns_nothing; by right|]. rewrite forallb_forall in Hj.
    destruct (Forall2_choose (λ p q, p.1 = q.1 ∧ returns fuel p.2 q.2) (x :: l)) as [vs Hvs].
    { intros [k y] Hy. destruct (IH y) as [v Hv]; [apply (Hj (k, y)); by apply list_elem_of_In|]. by exists (k, v). }
    by apply (returns_object _ _ (x :: l) vs).
  - apply bool_decide_eq_true in Hj as [s Hs]. exists (jtext s). by apply returns_text.
Qed.
End laws.

(** ** Properties *)

(** C39: A JSON document whose scalars have texts, turned into YAML and back, comes back
    with the same arrays and objects: as many elements in the same order, and the same
    names.  Only the values in it change, and in exactly two ways: every scalar becomes the
    text of its [asString], so that numbers and booleans become texts and null an empty
    text; and an array or object without anything in it becomes null.  Both conversions
    succeed, and need no more depth than the document has. *)
Theorem json_through_yaml `{JL : JsonLaws} `{YL : YamlLaws} {B : YamlBuild Y} {BL : YamlBuildLaws Y} (fuel : nat) (j : Value) :
  readable fuel j = true → ∃ y j', JsonToYaml fuel j = Some y ∧ YamlToJson fuel y = Some j' ∧ comes_back j j'.
Proof. intros Hj. destruct (readable_returns fuel j Hj) as (j' & y & Hy). by exists y, j'. Qed.

(** A member is read with its default exactly when the value is an object or null: the
    answer is then in the range of its type if the default is, whatever the member is; a
    text is read as a number and cut to the type.  On any other value the getters throw
    instead of answering the default. *)
Theorem getters_in_range `{JL : JsonLaws} (json : Value) (name : bytes) (d : Z) :
  (member json name = None ↔ GetInt32 json name d = None) ∧
  (in_s 32 d → ∀ r, GetInt32 json name d = Some r → in_s 32 r) ∧
  (in_u 32 d → ∀ r, GetUint32 json name d = Some r → in_u 32 r) ∧
  (in_s 64 d → ∀ r, GetInt64 json name d = Some r → in_s 64 r) ∧
  (in_u 64 d → ∀ r, GetUint64 json name d = Some r → in_u 64 r) ∧
  (∀ v s, member json name = Some (Some v) → isInt v = None → isString v = Some s → GetInt32 json name d = Some (s32 (Atoi s))).
Proof.
  unfold GetInt32, GetUint32, GetInt64, GetUint64, get_member. split_and!.
  - destruct (member json name); by cbn.
  - intros Hd r. destruct (member json name) as [[v|]|]; cbn; intros [= <-]; [|done].
    destruct (isInt v) eqn:E; [by apply (int_ranges v)|]. destruct (isString v); [apply swrap_range; lia|done].
  - intros Hd r. destruct (member json name) as [[v|]|]; cbn; intros [= <-]; [|done].
    destruct (isUInt v) eqn:E; [by apply (int_ranges v)|]. destruct (isString v); [apply wrap_range; lia|done].
  - intros Hd r. destruct (member json name) as [[v|]|]; cbn; intros [= <-]; [|done].
    destruct (isInt64 v) eqn:E; [by apply (int_ranges v)|]. destruct (isString v) as [s|]; [|done].
    unfold Atoi. case_bool_decide; [unfold in_s; lia|apply swrap_range; lia].
  - intros Hd r. destruct (member json name) as [[v|]|]; cbn; intros [= <-]; [|done].
    destruct (isUInt64 v) eqn:E; [by apply (int_ranges v)|]. destruct (isString v); [apply wrap_range; lia|done].
  - intros v s -> Hi Hs. cbn. by rewrite Hi, Hs.
Qed.

(** ** Examples *)

(** Values as trees; the names of an object that are not in order are no object. *)
Module TreeJson.
#[warnings="-register-all"] Inductive value := Null | Text (s : bytes) | Int (n : Z) | Array (l : list value) | Object (l : list (bytes * value)).

Fixpoint put (k : bytes) (v : value) (l : list (bytes * value)) : list (bytes * value) :=
  match l with
  | [] => [(k, v)]
  | (k', y) :: r => if string_less k k' then (k, v) :: l else if string_less k' k then (k', y) :: put k v r else (k, v) :: r
  end.
Fixpoint in_order {T} (l : list (bytes * T)) : bool :=
  match l with [] => true | p :: l => forallb (λ q, string_less p.1 q.1) l && in_order l end.

Lemma in_order_ascending {T} (l : list (bytes * T)) : in_order l = true ↔ keys_ascending l.
Proof.
  induction l as [|p l IH]; cbn; [split; [constructor|done]|]. rewrite andb_true_iff, IH, forallb_forall. split.
  - intros [Hp Hl]. constructor; [done|]. apply List.Forall_forall. exact Hp.
  - intros Hs. apply StronglySorted_inv in Hs as [Hs Hp]. split; [|done]. by apply List.Forall_forall.
Qed.

Lemma put_last k v l : Forall (λ p, string_less p.1 k = true) l → put k v l = l ++ [(k, v)].
Proof. induction 1 as [|[k' y] l H1 _ IH]; cbn in *; [done|]. by rewrite string_less_asym, H1, IH by done. Qed.

Definition int_of (lo hi : Z) (v : value) : option Z := match v with Int n => if (lo <=? n) && (n <? hi) then Some n else None | _ => None end.

#[export] Instance json : Json := {|
  Value := value; jnull := Null; jtext := Text;
  append a v := match a with Null => Some (Array [v]) | Array l => Some (Array (l ++ [v])) | _ => None end;
  set_member o k v := match o with Null => Some (Object [(k, v)]) | Object l => Some (Object (put k v l)) | _ => None end;
  jelements v := match v with Array l => Some l | _ => None end;
  jmembers v := match v with Object l => if in_order l then Some l else None | _ => None end;
  asString v := match v with Null => Some [] | Text s => Some s | Int n => Some (decimal n) | _ => None end;
  member v k := match v with
    | Null => Some None
    | Object l => Some (snd <$> find (λ p, bool_decide (p.1 = k)) l)
    | _ => None
    end;
  isString v := match v with Text s => Some s | _ => None end;
  isInt := int_of (- 2 ^ 31) (2 ^ 31); isUInt := int_of 0 (2 ^ 32);
  isInt64 := int_of (- 2 ^ 63) (2 ^ 63); isUInt64 := int_of 0 (2 ^ 64) |}.

Lemma int_of_range lo hi v n : int_of lo hi v = Some n → lo ≤ n < hi.
Proof. destruct v; cbn; try done. destruct (Z.leb_spec lo n0), (Z.ltb_spec n0 hi); cbn; try done. by intros [= <-]. Qed.

#[export] Instance json_laws : JsonLaws json.
Proof.
  constructor; cbn.
  - done.
  - done.
  - intros v. by eexists.
  - intros a l v. destruct a; cbn; try done. intros [= ->]. by eexists.
  - intros k v. by eexists.
  - intros o l k v _. destruct o as [| | | |l']; cbn; try done. destruct (in_order l') eqn:E; [|done]. intros [= ->] Hl.
    eexists. split; [done|]. split; [done|]. rewrite put_last by done.
    assert (in_order (l ++ [(k, v)]) = true) as ->; [|done]. apply in_order_ascending, keys_ascending_snoc; [by apply in_order_ascending|done].
  - intros o l. destruct o; try done. destruct (in_order l0) eqn:E; [|done]. intros [= <-]. by apply in_order_ascending.
  - intros v n. split_and!; intros Hn; by apply int_of_range in Hn.
Qed.

#[export] Instance build : YamlBuild TreeYaml.yaml := {|
  ynull := GenNode 3 [] : @Node TreeYaml.yaml;
  yscalar := (GenLeaf : bytes → @Node TreeYaml.yaml);
  IsSequence n := match n with GenNode 0 _ => true | _ => false end;
  push_back n x := match n with GenNode 3 [] => Some (GenNode 0 [x]) | GenNode 0 l => Some (GenNode 0 (l ++ [x])) | _ => None end;
  set_key n k x := match n with
    | GenNode 3 [] => Some (GenNode 1 [GenNode 2 [GenLeaf k; x]])
    | GenNode 1 l => Some (GenNode 1 (l ++ [GenNode 2 [GenLeaf k; x]]))
    | _ => None
    end |}.

#[export] Instance build_laws : YamlBuildLaws TreeYaml.yaml.
Proof. constructor; cbn; try done. intros l k n _. by rewrite map_app. Qed.
End TreeJson.

#[local] Existing Instances TreeYaml.yaml TreeYaml.yaml_laws TreeJson.json TreeJson.json_laws TreeJson.build TreeJson.build_laws.

Definition sample_json : TreeJson.value :=
  TreeJson.Object [(bs "a", TreeJson.Array [TreeJson.Int 1; TreeJson.Text (bs "x"); TreeJson.Null]); (bs "b", TreeJson.Array []); (bs "n", TreeJson.Text (bs "4294967298"))].

(** The number and the null become texts, the empty array null. *)
Definition sample_back : TreeJson.value :=
  TreeJson.Object [(bs "a", TreeJson.Array [TreeJson.Text (bs "1"); TreeJson.Text (bs "x"); TreeJson.Text []]); (bs "b", TreeJson.Null);
    (bs "n", TreeJson.Text (bs "4294967298"))].

Lemma json_through_yaml_witness :
  (∃ y, JsonToYaml (J := TreeJson.json) (Y := TreeYaml.yaml) 3 sample_json = Some y ∧ YamlToJson (J := TreeJson.json) 3 y = Some sample_back) ∧
  ∃ y j', JsonToYaml (J := TreeJson.json) (Y := TreeYaml.yaml) 3 sample_json = Some y ∧
    YamlToJson (J := TreeJson.json) 3 y = Some j' ∧ comes_back (J := TreeJson.json) sample_json j'.
Proof.
  split; [eexists; split; vm_compute; reflexivity|].
  refine (json_through_yaml (J := TreeJson.json) (Y := TreeYaml.yaml) 3 sample_json _). vm_compute. reflexivity.
Defined.

Lemma getters_in_range_witness : GetInt32 (H := TreeJson.json) sample_json (bs "n") 0 = Some 2 ∧
  GetInt32 (H := TreeJson.json) (TreeJson.Text (bs "x")) (bs "n") 0 = None.
Proof.
  split.
  - refine (eq_trans (proj2 (proj2 (proj2 (proj2 (proj2 (getters_in_range (J := TreeJson.json) sample_json (bs "n") 0)))))
      (TreeJson.Text (bs "4294967298")) (bs "4294967298") _ _ _) _); vm_compute; reflexivity.
  - apply (proj1 (getters_in_range (J := TreeJson.json) (TreeJson.Text (bs "x")) (bs "n") 0)). reflexivity.
Defined.
