(* ===== verification/ProtoJson.v ===== *)
(** * Protocol buffers as JSON: [PBToJsonString] of [util.cc]

    A message, by the reflection of its library, and the fields it does not know are
    written into a JSON object.  Reflection is the interface [Protobuf]; jsoncpp is that
    of [JsonYaml.v] with the values of numbers. *)
From stdpp Require Import list sorting.
From S2P Require Import Prelude Strings CLib Util Config ConfigLaws JsonYaml.
Local Open Scope Z_scope.

(** ** The libraries *)

(** Values of numbers: [Json::Int], [Json::UInt], [Json::Int64], [Json::UInt64], [bool] and
    [double]. *)
Class JsonNumbers (J : Json) := {
  double : Type;
  jint : Z → Value; juint : Z → Value; jint64 : Z → Value; juint64 : Z → Value;
  jbool : bool → Value; jdouble : double → Value }.

(** [operator[]] on objects and null: it finds what was assigned last, and makes an object
    of null when it assigns. *)
Class JsonMemberLaws (J : Json) := {
  member_null k : member jnull k = Some None;
  member_set o o' k v k' : set_member o k v = Some o' →
    member o' k' = if decide (k' = k) then Some (Some v) else member o k';
  set_object o k v : o = jnull ∨ is_Some (jmembers o) → ∃ o', set_member o k v = Some o' ∧ is_Some (jmembers o');
  member_object o k : is_Some (jmembers o) → is_Some (member o k) }.

Inductive cpp_type := CPPTYPE_INT32 | CPPTYPE_UINT32 | CPPTYPE_FLOAT | CPPTYPE_DOUBLE | CPPTYPE_BOOL | CPPTYPE_INT64 | CPPTYPE_UINT64
  | CPPTYPE_ENUM | CPPTYPE_STRING | CPPTYPE_MESSAGE.
Record FieldDescriptor := mkField { name : bytes; is_repeated : bool; cpp_type_ : cpp_type }.

(** A field without a descriptor; groups are not looked into. *)
Inductive UnknownField := TYPE_VARINT (n : Z) | TYPE_FIXED32 (n : Z) | TYPE_FIXED64 (n : Z) | TYPE_LENGTH_DELIMITED (d : bytes) | TYPE_GROUP.

(** Reflection: the fields of a message, how many values a repeated one has, whether
    another one is set, their values, that of an enumeration as its number, and the
    unknown fields with their numbers. *)
Class Protobuf (D : Type) := {
  Message : Type;
  descriptor : Message → list FieldDescriptor;
  FieldSize : Message → FieldDescriptor → nat;
  HasField : Message → FieldDescriptor → bool;
  GetInteger : Message → FieldDescriptor → nat → Z;
  GetFloating : Message → FieldDescriptor → nat → D;
  GetBool : Message → FieldDescriptor → nat → bool;
  GetString : Message → FieldDescriptor → nat → bytes;
  GetMessage : Message → FieldDescriptor → nat → Message;
  GetUnknownFields : Message → list (Z * UnknownField);
  ParseFromString : bytes → option (list (Z * UnknownField)) }.

Section proto.
Context `{J : Json} {N : JsonNumbers J} {P : Protobuf double}.

(** ** Unknown fields *)

(** [jnode[key].append(v)]. *)
Definition append_to (jnode : Value) (key : bytes) (v : Value) : option Value :=
  m ← member jnode key; a ← append (default jnull m) v; set_member jnode key a.

Fixpoint append_all (jnode : Value) (key : bytes) (l : list Value) : option Value :=
  match l with
  | [] => Some jnode
  | v :: l => jnode ← append_to jnode key v; append_all jnode key l
  end.

(** [kvs[number].push_back(v)], with the keys in order. *)
Fixpoint push_kv (number : Z) (v : Value) (kvs : list (Z * list Value)) : list (Z * list Value) :=
  match kvs with
  | [] => [(number, [v])]
  | (k, l) :: r =>
    if number <? k then (number, [v]) :: kvs
    else if number =? k then (k, l ++ [v]) :: r else (k, l) :: push_kv number v r
  end.

(** The loop over [kvs]. *)
Fixpoint write_kvs (jnode : Value) (kvs : list (Z * list Value)) : option Value :=
  match kvs with
  | [] => Some jnode
  | (k, l) :: kvs =>
    jnode ← (if (1 <? length l)%nat then append_all jnode (decimal k) l
             else match l with v :: _ => set_member jnode (decimal k) v | [] => None end);
    write_kvs jnode kvs
  end.

(** The loop over the fields. *)
Fixpoint collect (convert : UnknownField → option (option Value)) (ufs : list (Z * UnknownField)) (kvs : list (Z * list Value)) :
    option (list (Z * list Value)) :=
  match ufs with
  | [] => Some kvs
  | (number, uf) :: ufs =>
    v ← convert uf;
    collect convert ufs (match v with Some v => push_kv number v kvs | None => kvs end)
  end.

(** [None]: fuel ran out; [Some None]: nothing is pushed. *)
Fixpoint unknown_value (fuel : nat) (uf : UnknownField) : option (option Value) :=
  match uf with
  | TYPE_VARINT n => Some (Some (jint64 (s64 n)))
  | TYPE_FIXED32 n => Some (Some (juint n))
  | TYPE_FIXED64 n => Some (Some (juint64 n))
  | TYPE_GROUP => Some None
  | TYPE_LENGTH_DELIMITED v =>
    match fuel with
    | O => None
    | S fuel =>
      match (if decide (v = []) then None else ParseFromString v) with
      | Some tmp => kvs ← collect (unknown_value fuel) tmp []; vv ← write_kvs jnull kvs; Some (Some vv)
      | None => Some (Some (jtext v))
      end
    end
  end.

Definition serialize_unknowfieldset (fuel : nat) (ufs : list (Z * UnknownField)) (jnode : Value) : option Value :=
  kvs ← collect (unknown_value fuel) ufs []; write_kvs jnode kvs.

(** ** Messages *)

(** A value of a field that is not a message. *)
Definition scalar (m : Message) (f : FieldDescriptor) (n : nat) : option Value :=
  match cpp_type_ f with
  | CPPTYPE_INT32 | CPPTYPE_ENUM => Some (jint (GetInteger m f n))
  | CPPTYPE_UINT32 => Some (juint (GetInteger m f n))
  | CPPTYPE_INT64 => Some (jint64 (GetInteger m f n))
  | CPPTYPE_UINT64 => Some (juint64 (GetInteger m f n))
  | CPPTYPE_FLOAT | CPPTYPE_DOUBLE => Some (jdouble (GetFloating m f n))
  | CPPTYPE_BOOL => Some (jbool (GetBool m f n))
  | CPPTYPE_STRING => Some (jtext (GetString m f n))
  | CPPTYPE_MESSAGE => None
  end.

(** The loop over the values of a repeated field, from [n] on. *)
Fixpoint repeat_loop (sub : Message → Value → option Value) (m : Message) (f : FieldDescriptor) (n size : nat) (jnode : Value) : option Value :=
  match size with
  | O => Some jnode
  | S size =>
    v ← match scalar m f n with Some v => Some v | None => sub (GetMessage m f n) jnull end;
    jnode ← append_to jnode (name f) v;
    repeat_loop sub m f (S n) size jnode
  end.

(** A field that is not repeated; a message is written into its member. *)
Definition single (sub : Message → Value → option Value) (m : Message) (f : FieldDescriptor) (jnode : Value) : option Value :=
  match scalar m f 0 with
  | Some v => set_member jnode (name f) v
  | None => o ← member jnode (name f); v ← sub (GetMessage m f 0) (default jnull o); set_member jnode (name f) v
  end.

Fixpoint field_loop (sub : Message → Value → option Value) (m : Message) (fields : list FieldDescriptor) (jnode : Value) : option Value :=
  match fields with
  | [] => Some jnode
  | f :: fields =>
    jnode ← (if is_repeated f then repeat_loop sub m f 0 (FieldSize m f) jnode
             else if HasField m f then single sub m f jnode else Some jnode);
    field_loop sub m fields jnode
  end.

Fixpoint serialize_message (fuel : nat) (m : Message) (jnode : Value) : option Value :=
  match fuel with
  | O => None
  | S fuel =>
    jnode ← field_loop (serialize_message fuel) m (descriptor m) jnode;
    serialize_unknowfieldset fuel (GetUnknownFields m) jnode
  end.

Definition PBToJsonString (ToString : Value → bytes) (fuel : nat) (m : Message) : option bytes :=
  ToString <$> serialize_message fuel m jnull.

(** ** What is written *)

(** A value of a field, sub-messages with [fuel]. *)
Definition value_of (fuel : nat) (m : Message) (f : FieldDescriptor) (n : nat) (v : Value) : Prop :=
  match scalar m f n with Some u => v = u | None => serialize_message fuel (GetMessage m f n) jnull = Some v end.

(** The member of a field: of a repeated one an array, if there is a value, of another one
    its value, if it is set. *)
Definition field_member (fuel : nat) (m : Message) (f : FieldDescriptor) (o : option Value) : Prop :=
  if is_repeated f then
    match FieldSize m f with
    | O => o = None
    | size => ∃ a vs, o = Some a ∧ jelements a = Some vs ∧ Forall2 (value_of fuel m f) (seq 0 size) vs
    end
  else if HasField m f then ∃ v, o = Some v ∧ value_of fuel m f 0 v else o = None.

(** The values of an unknown field, and its member: an array, if there is more than one. *)
Definition unknown_values (fuel : nat) (ufs : list (Z * UnknownField)) (number : Z) : list Value :=
  omap (λ p, if decide (p.1 = number) then mjoin (unknown_value fuel p.2) else None) ufs.
Definition list_member (l : list Value) (o : option Value) : Prop :=
  match l with
  | [] => o = None
  | [v] => o = Some v
  | _ => ∃ a, o = Some a ∧ jelements a = Some l
  end.

(** Unknown fields whose values need no more than [n] levels. *)
Definition unknown_fits (n : nat) (ufs : list (Z * UnknownField)) : Prop :=
  ∀ k d, (k, TYPE_LENGTH_DELIMITED d) ∈ ufs → (length d < n)%nat.
Definition numbers_ok (ufs : list (Z * UnknownField)) : Prop := ∀ p, p ∈ ufs → in_s 64 p.1.

(** How many values of a field are looked at. *)
Definition occurrences (m : Message) (f : FieldDescriptor) : nat :=
  if is_repeated f then FieldSize m f else if HasField m f then 1 else 0.

(** Nothing of a message is written: no field is set, and of its unknown fields there are
    at most groups. *)
Definition nothing_written (fuel : nat) (m : Message) : Prop :=
  (∀ f, f ∈ descriptor m → occurrences m f = 0%nat) ∧ ∀ k, in_s 64 k → unknown_values fuel (GetUnknownFields m) k = [].

(** Messages of at most [n] levels; the names of fields differ and are not numbers, and
    the numbers of fields are numbers of 32 bits. *)
Fixpoint fits (n : nat) (m : Message) : Prop :=
  match n with
  | O => False
  | S n => NoDup (map name (descriptor m)) ∧ (∀ f k, f ∈ descriptor m → name f ≠ decimal k) ∧
    (∀ f i, f ∈ descriptor m → cpp_type_ f = CPPTYPE_MESSAGE → (i < occurrences m f)%nat → fits n (GetMessage m f i)) ∧
    unknown_fits n (GetUnknownFields m) ∧ numbers_ok (GetUnknownFields m)
  end.

(** The unknown fields of a text are shorter than it. *)
Class ProtobufLaws := {
  parse_shorter d ufs : ParseFromString d = Some ufs → unknown_fits (length d) ufs ∧ numbers_ok ufs }.

(** ** Writing members *)

Lemma decimal_inj a b : in_s 64 a → in_s 64 b → decimal a = decimal b → a = b.
Proof. intros Ha Hb He. by rewrite <- (proj1 (Atoi_reads_back a) Ha), He, (proj1 (Atoi_reads_back b) Hb). Qed.

Context `{JL : !JsonLaws J} `{ML : !JsonMemberLaws J}.

(** An object or null. *)
Definition objectlike (o : Value) : Prop := o = jnull ∨ is_Some (jmembers o).

Lemma objectlike_null : objectlike jnull.
Proof. by left. Qed.

(** Values that differ in the member of [key] only. *)
Record member_changed (o o' : Value) (key : bytes) (v : Value) : Prop := {
  mc_object : objectlike o';
  mc_member : member o' key = Some (Some v);
  mc_others : ∀ k, k ≠ key → member o' k = member o k }.

Lemma set_changes o key v : objectlike o → ∃ o', set_member o key v = Some o' ∧ member_changed o o' key v.
Proof.
  intros Ho. destruct (set_object o key v Ho) as (o' & Ho' & Hobj). exists o'. split; [done|]. split.
  - by right.
  - by rewrite (member_set _ _ _ _ _ Ho'), decide_True.
  - intros k Hk. by rewrite (member_set _ _ _ _ _ Ho'), decide_False.
Qed.

(** A list appended to a member that is an array, and to one that is not there. *)
Lemma append_all_array key l : ∀ o a l0, objectlike o → member o key = Some (Some a) → jelements a = Some l0 →
  ∃ o' a', append_all o key l = Some o' ∧ jelements a' = Some (l0 ++ l) ∧ member_changed o o' key a'.
Proof.
  induction l as [|v l IH]; intros o a l0 Ho Hm Ha; cbn [append_all].
  - exists o, a. rewrite app_nil_r. by split_and!; [| |split].
  - unfold append_to. rewrite Hm. cbn [mbind option_bind default]. destruct (append_array a l0 v Ha) as (a1 & E1 & Ha1). cbn. rewrite E1. cbn.
    destruct (set_changes o key a1 Ho) as (o1 & E2 & Hc). rewrite E2. cbn.
    destruct (IH o1 a1 (l0 ++ [v]) (mc_object _ _ _ _ Hc) (mc_member _ _ _ _ Hc) Ha1) as (o' & a' & E3 & Ha' & Hc'). exists o', a'.
    rewrite <- app_assoc in Ha'. split_and!; [done|done|]. split; [apply Hc'|apply Hc'|]. intros k Hk. by rewrite (mc_others _ _ _ _ Hc'), (mc_others _ _ _ _ Hc).
Qed.

Lemma append_all_new key v l o : objectlike o → member o key = Some None →
  ∃ o' a, append_all o key (v :: l) = Some o' ∧ jelements a = Some (v :: l) ∧ member_changed o o' key a.
Proof.
  intros Ho Hm. cbn [append_all]. unfold append_to. rewrite Hm. cbn. destruct (append_null v) as (a1 & E1 & Ha1). rewrite E1. cbn.
  destruct (set_changes o key a1 Ho) as (o1 & E2 & Hc). rewrite E2. cbn.
  destruct (append_all_array key l o1 a1 [v] (mc_object _ _ _ _ Hc) (mc_member _ _ _ _ Hc) Ha1) as (o' & a' & E3 & Ha' & Hc').
  exists o', a'. split_and!; [done|done|]. split; [apply Hc'|apply Hc'|]. intros k Hk. by rewrite (mc_others _ _ _ _ Hc'), (mc_others _ _ _ _ Hc).
Qed.

(** *** The map of unknown fields *)

Fixpoint kv_get (number : Z) (kvs : list (Z * list Value)) : list Value :=
  match kvs with [] => [] | (k, l) :: r => if decide (k = number) then l else kv_get number r end.

Record kvs_ok (kvs : list (Z * list Value)) : Prop := {
  kv_sorted : StronglySorted (λ p q, p.1 < q.1) kvs;
  kv_some : Forall (λ p, p.2 ≠ [] ∧ in_s 64 p.1) kvs }.

Lemma push_kv_first number v kvs : in_s 64 number → kvs_ok kvs → kvs_ok (push_kv number v kvs) ∧
  (∀ n, kv_get n (push_kv number v kvs) = if decide (number = n) then kv_get n kvs ++ [v] else kv_get n kvs) ∧
  (∀ b, b < number → Forall (λ p, b < p.1) kvs → Forall (λ p, b < p.1) (push_kv number v kvs)).
Proof.
  intros Hnum. induction kvs as [|[k l] r IH]; intros [Hs Hf]; cbn [push_kv kv_get].
  - split_and!; [split; [repeat constructor|by constructor]|done|]. intros b Hb _. by constructor.
  - apply StronglySorted_inv in Hs as [Hs Hk]. apply Forall_cons in Hf as [[Hl Hkr] Hf]. destruct (IH (Build_kvs_ok r Hs Hf)) as ([Hs' Hf'] & Hget & Hb).
    assert (∀ n, n ≤ k → n ≠ k → kv_get n r = []) as Hnone.
    { intros n Hn Hne. clear -Hk Hn. induction Hk as [|[k' l'] r Hx _ IH]; [done|]. cbn in *. rewrite decide_False by lia. done. }
    destruct (Z.ltb_spec number k); [|destruct (Z.eqb_spec number k) as [->|Hne]].
    + split_and!.
      * split; [|by constructor; [|constructor]]. constructor; [by constructor|]. constructor; [done|]. eapply Forall_impl; [exact Hk|]. cbn. intros p Hp. lia.
      * intros n. cbn [kv_get]. destruct (decide (number = n)) as [->|]; [|done]. rewrite decide_False by lia. by rewrite Hnone by lia.
      * intros b Hb1 Hb2. by constructor.
    + split_and!.
      * split; [by constructor|]. constructor; [|done]. cbn. split; [by destruct l|done].
      * intros n. cbn [kv_get]. by destruct (decide (k = n)).
      * intros b Hb1 [Hb2 Hb3]%Forall_cons. by constructor.
    + split_and!.
      * split; [|by constructor]. constructor; [done|]. apply (Hb k); [lia|done].
      * intros n. cbn [kv_get]. rewrite Hget. destruct (decide (k = n)) as [->|]; [by rewrite decide_False|done].
      * intros b Hb1 [Hb2 Hb3]%Forall_cons. constructor; [done|]. apply Hb; [lia|done].
Qed.

Lemma collect_ok convert ufs : ∀ kvs, kvs_ok kvs → numbers_ok ufs → (∀ p, p ∈ ufs → is_Some (convert p.2)) → ∃ kvs',
  collect convert ufs kvs = Some kvs' ∧ kvs_ok kvs' ∧
  ∀ n, kv_get n kvs' = kv_get n kvs ++ omap (λ p, if decide (p.1 = n) then mjoin (convert p.2) else None) ufs.
Proof.
  induction ufs as [|[k uf] ufs IH]; intros kvs Hkvs Hnum Hconv; cbn [collect].
  - exists kvs. split_and!; [done|done|]. intros n. by rewrite app_nil_r.
  - destruct (Hconv (k, uf) ltac:(by left)) as [o Ho]. cbn in Ho. rewrite Ho. cbn.
    assert (numbers_ok ufs) as Hnum' by (intros p Hp; apply Hnum; by right).
    assert (∀ p, p ∈ ufs → is_Some (convert p.2)) as Hconv' by (intros p Hp; apply Hconv; by right).
    destruct o as [v|].
    + destruct (push_kv_first k v kvs (Hnum (k, uf) ltac:(by left)) Hkvs) as (Hok & Hget & _).
      destruct (IH _ Hok Hnum' Hconv') as (kvs' & E & Hok' & Hget'). exists kvs'. split_and!; [done|done|]. intros n. rewrite Hget', Hget. cbn.
      destruct (decide (k = n)); [|done]. rewrite Ho. cbn. by rewrite <- app_assoc.
    + destruct (IH kvs Hkvs Hnum' Hconv') as (kvs' & E & Hok' & Hget'). exists kvs'. split_and!; [done|done|]. intros n. rewrite Hget'. cbn.
      destruct (decide (k = n)); [|done]. by rewrite Ho.
Qed.

Lemma write_kvs_ok kvs : ∀ o, kvs_ok kvs → objectlike o → (∀ n, in_s 64 n → kv_get n kvs ≠ [] → member o (decimal n) = Some None) → ∃ o',
  write_kvs o kvs = Some o' ∧ objectlike o' ∧ (∀ n, in_s 64 n → kv_get n kvs ≠ [] → ∃ m, member o' (decimal n) = Some m ∧ list_member (kv_get n kvs) m) ∧
  (∀ k, (∀ n, in_s 64 n → kv_get n kvs ≠ [] → k ≠ decimal n) → member o' k = member o k).
Proof.
  induction kvs as [|[k l] r IH]; intros o [Hs Hf] Ho Hnew; cbn [write_kvs].
  - exists o. split_and!; [done|done|done|]. done.
  - apply StronglySorted_inv in Hs as [Hs Hk]. apply Forall_cons in Hf as [[Hl Hkr] Hf]. cbn in Hl, Hkr.
    assert (kv_get k r = []) as Hkn.
    { clear -Hk. induction Hk as [|[k' l'] r Hx _ IH]; [done|]. cbn in *. rewrite decide_False by lia. done. }
    assert (member o (decimal k) = Some None) as Hm by (apply Hnew; [done|]; cbn; by rewrite decide_True).
    assert (∃ o1 v, (if (1 <? length l)%nat then append_all o (decimal k) l else match l with v :: _ => set_member o (decimal k) v | [] => None end) = Some o1 ∧
      member_changed o o1 (decimal k) v ∧ list_member l (Some v)) as (o1 & v & E1 & Hc & Hlm).
    { destruct l as [|x [|y l]]; [done|..]; cbn [length].
      - destruct (set_changes o (decimal k) x Ho) as (o1 & ? & ?). by exists o1, x.
      - destruct (append_all_new (decimal k) x (y :: l) o Ho Hm) as (o1 & a & E1 & Ha & Hc). exists o1, a. split_and!; [done|done|]. by exists a. }
    rewrite E1. cbn. assert (∀ n, in_s 64 n → n ≠ k → decimal n ≠ decimal k) as Hdec by (intros n Hn Hne He; by apply decimal_inj in He).
    destruct (IH o1 (Build_kvs_ok r Hs Hf) (mc_object _ _ _ _ Hc)) as (o' & E2 & Ho' & Hin & Hout).
    { intros n Hn Hget. assert (n ≠ k) as Hne by (by intros ->). rewrite (mc_others _ _ _ _ Hc) by (by apply Hdec). apply Hnew; [done|]. cbn. by rewrite decide_False. }
    exists o'. split_and!; [done|done| |].
    + intros n Hn Hget. cbn in Hget |- *. destruct (decide (k = n)) as [<-|Hne]; [|by apply Hin]. exists (Some v). split; [|done].
      rewrite Hout; [apply Hc|]. intros n' Hn' Hget'. intros He. apply decimal_inj in He; [|done|done]. by subst.
    + intros k' Hk'. rewrite Hout; [apply Hc|].
      * intros He. apply (Hk' k Hkr); [|done]. cbn. by rewrite decide_True.
      * intros n Hn Hget. apply Hk'; [done|]. cbn. destruct (decide (k = n)) as [<-|]; [|done]. by rewrite Hkn in Hget.
Qed.

(** *** Fields *)

Context `{PL : !ProtobufLaws}.

Lemma unknown_value_returns fuel : ∀ uf, (∀ d, uf = TYPE_LENGTH_DELIMITED d → (length d < fuel)%nat) → is_Some (unknown_value fuel uf).
Proof.
  induction fuel as [|fuel IH]; intros uf Hf; destruct uf as [n|n|n|d|]; cbn [unknown_value]; try by eexists.
  - specialize (Hf d eq_refl). lia.
  - destruct (decide (d = [])); [by eexists|]. destruct (ParseFromString d) as [tmp|] eqn:Hp; [|by eexists].
    destruct (parse_shorter d tmp Hp) as [Hfit Hnum]. specialize (Hf d eq_refl).
    destruct (collect_ok (unknown_value fuel) tmp [] (Build_kvs_ok [] ltac:(constructor) ltac:(constructor)) Hnum) as (kvs & E & Hok & _).
    { intros [k uf] Hin. apply IH. intros e He. cbn in He. subst. specialize (Hfit k e Hin). lia. }
    rewrite E. cbn. destruct (write_kvs_ok kvs jnull Hok objectlike_null) as (o & -> & _); [intros x _ _; apply member_null|]. by eexists.
Qed.

Lemma unknown_ok fuel ufs o : unknown_fits fuel ufs → numbers_ok ufs → objectlike o → (∀ n, member o (decimal n) = Some None) → ∃ o',
  serialize_unknowfieldset fuel ufs o = Some o' ∧ objectlike o' ∧
  ((∀ n, in_s 64 n → unknown_values fuel ufs n = []) → o' = o) ∧
  (∀ n, in_s 64 n → ∃ m, member o' (decimal n) = Some m ∧ list_member (unknown_values fuel ufs n) m) ∧
  (∀ k, (∀ n, in_s 64 n → k ≠ decimal n) → member o' k = member o k).
Proof.
  intros Hfit Hnum Ho Hnew. unfold serialize_unknowfieldset.
  destruct (collect_ok (unknown_value fuel) ufs [] (Build_kvs_ok [] ltac:(constructor) ltac:(constructor)) Hnum) as (kvs & -> & Hok & Hget).
  { intros [k uf] Hin. apply unknown_value_returns. intros d Hd. cbn in Hd. subst. by apply (Hfit k). }
  cbn. destruct (write_kvs_ok kvs o Hok Ho) as (o' & Ew & Ho' & Hin & Hout); [auto|]. exists o'.
  assert (∀ n, kv_get n kvs = unknown_values fuel ufs n) as Hval by exact Hget. split_and!; [done|done| | |].
  - intros Hnone. destruct Hok as [_ Hsome]. destruct kvs as [|[k l] kvs]; [by injection Ew as ->|].
    apply Forall_cons in Hsome as [[Hl Hk] _]. destruct Hl. specialize (Hval k). rewrite (Hnone k Hk) in Hval. cbn in Hval. by rewrite decide_True in Hval.
  - intros n Hn. rewrite <- (Hval n). destruct (decide (kv_get n kvs = [])) as [E|]; [|by apply Hin].
    exists None. rewrite E. split; [|done]. rewrite Hout; [apply Hnew|]. intros n' Hn' Hne He. apply decimal_inj in He; [|done|done]. by subst.
  - intros k Hk. apply Hout. intros n Hn _. by apply Hk.
Qed.

Lemma repeat_loop_all sub m f size : ∀ n vs o,
  Forall2 (λ i v, match scalar m f i with Some u => Some u | None => sub (GetMessage m f i) jnull end = Some v) (seq n size) vs →
  repeat_loop sub m f n size o = append_all o (name f) vs.
Proof.
  induction size as [|size IH]; intros n vs o Hall; cbn [seq] in Hall.
  - apply Forall2_nil_inv_l in Hall as ->. done.
  - apply Forall2_cons_inv_l in Hall as (v & vs' & Hv & Hall & ->). cbn [repeat_loop append_all]. rewrite Hv. cbn.
    destruct (append_to o (name f) v); [cbn; by apply IH|done].
Qed.

(** The values there are. *)
Lemma values_exist fuel m f : (∀ i, cpp_type_ f = CPPTYPE_MESSAGE → (i < occurrences m f)%nat → is_Some (serialize_message fuel (GetMessage m f i) jnull)) →
  ∀ i, (i < occurrences m f)%nat → ∃ v, value_of fuel m f i v ∧ match scalar m f i with Some u => Some u | None => serialize_message fuel (GetMessage m f i) jnull end = Some v.
Proof.
  intros Hsub i Hi. unfold value_of. destruct (scalar m f i) as [u|] eqn:Es; [by exists u|].
  assert (cpp_type_ f = CPPTYPE_MESSAGE) as Ht by (unfold scalar in Es; by destruct (cpp_type_ f)). destruct (Hsub i Ht Hi) as [v Hv]. by exists v.
Qed.

Lemma field_ok fuel m f o : objectlike o → member o (name f) = Some None →
  (∀ i, cpp_type_ f = CPPTYPE_MESSAGE → (i < occurrences m f)%nat → is_Some (serialize_message fuel (GetMessage m f i) jnull)) → ∃ o' x,
  (if is_repeated f then repeat_loop (serialize_message fuel) m f 0 (FieldSize m f) o
   else if HasField m f then single (serialize_message fuel) m f o else Some o) = Some o' ∧
  objectlike o' ∧ member o' (name f) = Some x ∧ field_member fuel m f x ∧ ∀ k, k ≠ name f → member o' k = member o k.
Proof.
  intros Ho Hm Hsub. pose proof (values_exist fuel m f Hsub) as Hval. unfold occurrences, field_member in *. destruct (is_repeated f).
  - assert (∃ vs, Forall2 (λ i v, value_of fuel m f i v ∧ match scalar m f i with Some u => Some u | None => serialize_message fuel (GetMessage m f i) jnull end = Some v)
      (seq 0 (FieldSize m f)) vs) as [vs Hvs].
    { assert (Forall (λ i, i < FieldSize m f)%nat (seq 0 (FieldSize m f))) as Hb by (apply Forall_forall; intros i Hi%elem_of_seq; lia).
      induction Hb as [|i l Hi _ [vs IH]]; [by exists []|]. destruct (Hval i Hi) as (v & Hv). exists (v :: vs). by constructor. }
    rewrite (repeat_loop_all _ m f _ 0 vs o) by (eapply Forall2_impl; [exact Hvs|]; by intros i v [_ ?]).
    destruct (FieldSize m f) as [|size]; [apply Forall2_nil_inv_l in Hvs as ->; cbn; by exists o, None|].
    destruct vs as [|v vs]; [by apply Forall2_nil_inv_r in Hvs|]. destruct (append_all_new (name f) v vs o Ho Hm) as (o' & a & E & Ha & Hc).
    exists o', (Some a). split_and!; [done|apply Hc|apply Hc| |apply Hc]. exists a, (v :: vs). split_and!; [done|done|].
    eapply Forall2_impl; [exact Hvs|]. by intros i w [? _].
  - destruct (HasField m f); [|by exists o, None]. destruct (Hval 0%nat ltac:(lia)) as (v & Hv & Ev). unfold single.
    assert ((match scalar m f 0 with Some v => set_member o (name f) v
      | None => x ← member o (name f); v ← serialize_message fuel (GetMessage m f 0) (default jnull x); set_member o (name f) v end) = set_member o (name f) v) as ->.
    { destruct (scalar m f 0); [congruence|]. rewrite Hm. cbn. by rewrite Ev. }
    destruct (set_changes o (name f) v Ho) as (o' & E & Hc). exists o', (Some v). split_and!; [done|apply Hc|apply Hc|by exists v|apply Hc].
Qed.

Lemma field_loop_ok fuel m fields : ∀ o, objectlike o → NoDup (map name fields) → (∀ f, f ∈ fields → member o (name f) = Some None) →
  (∀ f i, f ∈ fields → cpp_type_ f = CPPTYPE_MESSAGE → (i < occurrences m f)%nat → is_Some (serialize_message fuel (GetMessage m f i) jnull)) → ∃ o',
  field_loop (serialize_message fuel) m fields o = Some o' ∧ objectlike o' ∧
  (∀ f, f ∈ fields → ∃ x, member o' (name f) = Some x ∧ field_member fuel m f x) ∧ ∀ k, k ∉ map name fields → member o' k = member o k.
Proof.
  induction fields as [|f fields IH]; intros o Ho Hnd Hm Hsub; cbn [field_loop].
  - exists o. split_and!; [done|done| |done]. intros f Hf. by apply elem_of_nil in Hf.
  - cbn [map] in Hnd. apply NoDup_cons in Hnd as [Hnin Hnd].
    destruct (field_ok fuel m f o Ho (Hm f ltac:(by left)) (λ i, Hsub f i ltac:(by left))) as (o1 & x & -> & Ho1 & Hx & Hfx & Hout). cbn.
    destruct (IH o1 Ho1 Hnd) as (o' & -> & Ho' & Hin & Hout').
    { intros g Hg. rewrite Hout; [apply Hm; by right|]. intros He. apply Hnin. rewrite <- He. apply list_elem_of_fmap. by exists g. }
    { intros g i Hg. apply Hsub. by right. }
    exists o'. split_and!; [done|done| |].
    + intros g [->|Hg]%elem_of_cons; [exists x; by rewrite Hout'|by apply Hin].
    + cbn [map]. intros k [Hk1 Hk2]%not_elem_of_cons. by rewrite Hout', Hout.
Qed.

(** The loop over fields that are not set. *)
Lemma field_loop_none sub m fields o : (∀ f, f ∈ fields → occurrences m f = 0%nat) → field_loop sub m fields o = Some o.
Proof.
  revert o. induction fields as [|f fields IH]; intros o Hz; [done|]. cbn [field_loop].
  pose proof (Hz f ltac:(by left)) as Hf. unfold occurrences in Hf.
  assert (∀ g, g ∈ fields → occurrences m g = 0%nat) as Hz' by (intros g Hg; apply Hz; by right).
  destruct (is_repeated f); [rewrite Hf; by apply IH|]. destruct (HasField m f); [done|by apply IH].
Qed.

Lemma field_member_none fuel m f : field_member fuel m f None → occurrences m f = 0%nat.
Proof.
  unfold field_member, occurrences. destruct (is_repeated f), (FieldSize m f), (HasField m f); try done; try (by intros (? & ? & [=] & _)); by intros (? & [=] & _).
Qed.

(** A value that has the members of a message is null only if there are none. *)
Lemma null_members fuel m : (∀ f, f ∈ descriptor m → ∃ x, member jnull (name f) = Some x ∧ field_member fuel m f x) →
  (∀ k, in_s 64 k → ∃ x, member jnull (decimal k) = Some x ∧ list_member (unknown_values fuel (GetUnknownFields m) k) x) → nothing_written fuel m.
Proof.
  intros Hf Hk. split.
  - intros f Hin. destruct (Hf f Hin) as (x & Hx & Hm). rewrite member_null in Hx. injection Hx as <-. by apply field_member_none in Hm.
  - intros k Hin. destruct (Hk k Hin) as (x & Hx & Hm). rewrite member_null in Hx. injection Hx as <-.
    destruct (unknown_values _ _ _) as [|v [|w l]]; [done|done|by destruct Hm as (? & [=] & _)].
Qed.

Lemma serialize_ok fuel : ∀ m, fits fuel m → ∃ n j, fuel = S n ∧ serialize_message fuel m jnull = Some j ∧
  (nothing_written n m ∧ j = jnull ∨ ¬ nothing_written n m ∧ is_Some (jmembers j)) ∧
  (∀ f, f ∈ descriptor m → ∃ x, member j (name f) = Some x ∧ field_member n m f x) ∧
  (∀ k, in_s 64 k → ∃ x, member j (decimal k) = Some x ∧ list_member (unknown_values n (GetUnknownFields m) k) x) ∧
  (∀ k, k ∉ map name (descriptor m) → (∀ n, in_s 64 n → k ≠ decimal n) → member j k = Some None).
Proof.
  induction fuel as [|fuel IH]; intros m Hm; [done|]. destruct Hm as (Hnd & Hdec & Hsub & Hfit & Hnum). cbn [serialize_message].
  destruct (field_loop_ok fuel m (descriptor m) jnull objectlike_null Hnd) as (o & Eo & Ho & Hin & Hout).
  { intros f _. apply member_null. }
  { intros f i Hf Ht Hi. destruct (IH _ (Hsub f i Hf Ht Hi)) as (n & j & _ & -> & _). by eexists. }
  rewrite Eo. cbn. destruct (unknown_ok fuel (GetUnknownFields m) o Hfit Hnum Ho) as (j & Ej & Hj & Hsame & Hin' & Hout').
  { intros n. rewrite Hout; [apply member_null|]. intros (f & He & Hf)%list_elem_of_fmap. by apply (Hdec f n Hf). }
  assert (∀ f, f ∈ descriptor m → ∃ x, member j (name f) = Some x ∧ field_member fuel m f x) as Hfields.
  { intros f Hf. rewrite Hout' by (intros n _; by apply Hdec). by apply Hin. }
  exists fuel, j. split_and!; [done|done| |done|done|].
  - destruct Hj as [->|Hj]; [left; split; [by apply null_members|done]|]. right. split; [|done]. intros [Hz Hu].
    assert (j = jnull) as ->; [|destruct Hj as [l Hl]; destruct null_plain as (_ & Hn & _); by rewrite Hn in Hl].
    rewrite (Hsame Hu). specialize (field_loop_none (serialize_message fuel) m (descriptor m) jnull Hz). congruence.
  - intros k Hk Hn. rewrite Hout', Hout by done. apply member_null.
Qed.
End proto.

(** ** Properties *)

(** C38: A message of which something is written becomes an object whose members are the set
    fields by name and the unknown fields other than groups by number, and no others: a
    field that is not repeated with its value, a repeated one with the array of its values
    if it has any, and a message as what it becomes itself; an unknown field that occurs
    more than once becomes an array.  A message of which nothing is written, because no
    field is set and no unknown field but groups is there, stays null.  The conversion needs
    no more levels than the message has. *)
Theorem message_becomes_object {J : Json} `{!JsonLaws J} `{!JsonMemberLaws J} {N : JsonNumbers J} {P : Protobuf double} {PL : @ProtobufLaws J N P} (fuel : nat) (m : Message) :
  fits fuel m → ∃ n j, fuel = S n ∧ serialize_message fuel m jnull = Some j ∧
  (nothing_written n m ∧ j = jnull ∨ ¬ nothing_written n m ∧ is_Some (jmembers j)) ∧
  (∀ f, f ∈ descriptor m → ∃ x, member j (name f) = Some x ∧ field_member n m f x) ∧
  (∀ k, in_s 64 k → ∃ x, member j (decimal k) = Some x ∧ list_member (unknown_values n (GetUnknownFields m) k) x) ∧
  (∀ k, k ∉ map name (descriptor m) → (∀ n, in_s 64 n → k ≠ decimal n) → member j k = Some None).
Proof. apply serialize_ok. Qed.

(** ** An example *)

(** The JSON values of [JsonYaml.v], where a boolean is a number. *)
#[export] Instance tree_numbers : JsonNumbers TreeJson.json := {|
  double := Z; jint := TreeJson.Int : Z → @Value TreeJson.json; juint := TreeJson.Int; jint64 := TreeJson.Int; juint64 := TreeJson.Int;
  jbool b := TreeJson.Int (Z.b2z b); jdouble := TreeJson.Int |}.

Lemma string_less_total a : ∀ b, string_less a b = false → string_less b a = false → a = b.
Proof.
  induction a as [|x a IH]; intros [|y b]; cbn; try done. intros H1 H2. apply orb_false_iff in H1 as [H1 H1'], H2 as [H2 H2'].
  apply Z.ltb_ge in H1, H2. assert (uchar x = uchar y) as He by lia. rewrite He, Z.eqb_refl in H1'. rewrite He, Z.eqb_refl in H2'. cbn in H1', H2'.
  rewrite (IH b H1' H2'). by apply byte.unsigned_inj in He as ->.
Qed.

Lemma find_put k v k' l : snd <$> find (λ p, bool_decide (p.1 = k')) (TreeJson.put k v l) =
  if decide (k' = k) then Some v else snd <$> find (λ p, bool_decide (p.1 = k')) l.
Proof.
  induction l as [|[k1 y] l IH]; cbn [TreeJson.put].
  - cbn. destruct (decide (k' = k)) as [->|]; [by rewrite bool_decide_true|by rewrite bool_decide_false].
  - destruct (string_less k k1) eqn:E1; [|destruct (string_less k1 k) eqn:E2].
    + cbn. destruct (decide (k' = k)) as [->|]; [by rewrite bool_decide_true|by rewrite (bool_decide_false (k = k'))].
    + cbn [find]. case_bool_decide as Hk; cbn in Hk; [subst k1|exact IH]. destruct (decide (k' = k)) as [->|]; [by rewrite string_less_irrefl in E2|done].
    + assert (k = k1) as <- by (by apply string_less_total). cbn. by case_bool_decide as Hk; destruct (decide (k' = k)) as [->|].
Qed.

(** Names stay in order. *)
Lemma put_in_order k v l : TreeJson.in_order l = true → TreeJson.in_order (TreeJson.put k v l) = true.
Proof.
  rewrite !TreeJson.in_order_ascending. induction 1 as [|[k1 y] l Hs IH Hl]; cbn [TreeJson.put]; [repeat constructor|].
  destruct (string_less k k1) eqn:E1; [|destruct (string_less k1 k) eqn:E2].
  - constructor; [by constructor|]. constructor; [done|]. eapply Forall_impl; [exact Hl|]. cbn. intros p Hp. by apply (string_less_trans _ k1).
  - constructor; [exact IH|]. clear -Hl E2. cbn in *. induction Hl as [|[k2 z] l H2 Hl IH]; cbn [TreeJson.put]; [by constructor|].
    destruct (string_less k k2); [|destruct (string_less k2 k)]; (constructor; [assumption|]); [constructor; assumption|exact IH|exact Hl].
  - assert (k = k1) as <- by (by apply string_less_total). by constructor.
Qed.

#[export] Instance tree_member_laws : JsonMemberLaws TreeJson.json.
Proof.
  constructor; cbn.
  - done.
  - intros o o' k v k' Hs. destruct o; try done; injection Hs as <-; cbn.
    + destruct (decide (k' = k)) as [->|]; [by rewrite bool_decide_true|by rewrite bool_decide_false].
    + f_equal. rewrite find_put. by destruct (decide (k' = k)).
  - intros o k v [->|[l Hl]]; [cbn; eexists; split; [done|]; by eexists|]. destruct o as [| | | |l']; try done. destruct (TreeJson.in_order l') eqn:E; [|done].
    eexists. split; [reflexivity|]. change (is_Some (if TreeJson.in_order (TreeJson.put k v l') then Some (TreeJson.put k v l') else None)).
    by rewrite put_in_order.
  - intros o k [l Hl]. by destruct o.
Qed.

(** Messages as trees: named fields with their values, and unknown fields. *)
Module TreeProto.
Inductive fvalue := FInt (n : Z) | FString (s : bytes) | FMessage (m : message)
with message := Msg (fields : list (bytes * bool * list fvalue)) (unknown : list (Z * UnknownField)).

Definition fields_of (m : message) := match m with Msg l _ => l end.
Definition type_of (v : list fvalue) : cpp_type :=
  match v with FString _ :: _ => CPPTYPE_STRING | FMessage _ :: _ => CPPTYPE_MESSAGE | _ => CPPTYPE_INT32 end.
Definition values (m : message) (f : FieldDescriptor) : list fvalue :=
  match find (λ p, bool_decide (p.1.1 = name f)) (fields_of m) with Some p => p.2 | None => [] end.
Definition int_of (v : option fvalue) : Z := match v with Some (FInt n) => n | _ => 0 end.

#[export] Instance protobuf : Protobuf (@double _ tree_numbers) := {|
  Message := message;
  descriptor m := map (λ p, mkField p.1.1 p.1.2 (type_of p.2)) (fields_of m);
  FieldSize m f := length (values m f);
  HasField m f := bool_decide (values m f ≠ []);
  GetInteger m f n := int_of (values m f !! n);
  GetFloating m f n := int_of (values m f !! n);
  GetBool m f n := negb (int_of (values m f !! n) =? 0);
  GetString m f n := match values m f !! n with Some (FString s) => s | _ => [] end;
  GetMessage m f n := match values m f !! n with Some (FMessage s) => s | _ => Msg [] [] end;
  GetUnknownFields m := match m with Msg _ u => u end;
  (* a text in an opening parenthesis is that of one field *)
  ParseFromString d := match d with b :: d => if decide (b = byte.of_Z 40) then Some [(1, TYPE_LENGTH_DELIMITED d)] else None | [] => None end |}.

#[export] Instance protobuf_laws : @ProtobufLaws TreeJson.json tree_numbers protobuf.
Proof.
  constructor. intros [|b d] ufs; cbn; [done|]. destruct (decide _); [|done]. intros [= <-]. split.
  - intros k x [[= _ ->]|Hin]%elem_of_cons; [lia|by apply elem_of_nil in Hin].
  - intros p [->|Hin]%elem_of_cons; [done|by apply elem_of_nil in Hin].
Qed.
End TreeProto.

Import TreeProto.
#[local] Existing Instances TreeJson.json TreeJson.json_laws.

Definition sample_message : Message (Protobuf := TreeProto.protobuf) :=
  Msg [(bs "id", false, [FInt 7]); (bs "tags", true, [FString (bs "a"); FString (bs "b")]); (bs "none", false, []);
       (bs "sub", false, [FMessage (Msg [(bs "x", false, [FInt 1])] [])])]
      [(9, TYPE_VARINT (2 ^ 64 - 1)); (5, TYPE_GROUP); (9, TYPE_LENGTH_DELIMITED (bs "(z"))].

Lemma sample_fits : fits (P := TreeProto.protobuf) 4 sample_message.
Proof.
  assert (∀ k, match decimal k with b :: _ => uchar b < 97 | [] => True end) as Hd.
  { intros k. unfold decimal. destruct (k <? 0); [by vm_compute|]. destruct (dec_digits (Z.to_N k)) as (a & s & -> & Hs). cbn in Hs. lia. }
  assert (∀ (b : byte) l k, 97 ≤ uchar b → b :: l ≠ decimal k) as Hn.
  { intros b l k Hb He. specialize (Hd k). rewrite <- He in Hd. lia. }
  split_and!.
  - apply (bool_decide_unpack _). by vm_compute.
  - intros f k Hf. repeat (apply elem_of_cons in Hf as [->|Hf]; [by apply Hn|]). by apply elem_of_nil in Hf.
  - intros f i Hf Ht Hi. repeat (apply elem_of_cons in Hf as [->|Hf]; [try done|]); [|by apply elem_of_nil in Hf].
    change (i < 1)%nat in Hi. destruct i as [|i]; [|lia]. cbn. split_and!.
    + apply (bool_decide_unpack _). by vm_compute.
    + intros f k Hf. repeat (apply elem_of_cons in Hf as [->|Hf]; [by apply Hn|]). by apply elem_of_nil in Hf.
    + intros f i Hf Ht' Hi'. repeat (apply elem_of_cons in Hf as [->|Hf]; [done|]). by apply elem_of_nil in Hf.
    + intros k d Hk. by apply elem_of_nil in Hk.
    + intros k Hk. by apply elem_of_nil in Hk.
  - intros k d Hk. repeat (apply elem_of_cons in Hk as [Hk|Hk]; [try done; injection Hk as _ ->; cbn; lia|]). by apply elem_of_nil in Hk.
  - intros p Hp. repeat (apply elem_of_cons in Hp as [->|Hp]; [done|]). by apply elem_of_nil in Hp.
Qed.

Lemma message_becomes_object_witness : ∃ j, serialize_message (P := TreeProto.protobuf) 4 sample_message jnull = Some j ∧
  j = TreeJson.Object [(bs "9", TreeJson.Array [TreeJson.Int (-1); TreeJson.Object [(bs "1", TreeJson.Text (bs "z"))]]); (bs "id", TreeJson.Int 7);
    (bs "sub", TreeJson.Object [(bs "x", TreeJson.Int 1)]); (bs "tags", TreeJson.Array [TreeJson.Text (bs "a"); TreeJson.Text (bs "b")])] ∧
  member j (decimal 5) = Some None.
Proof.
  destruct (message_becomes_object (P := TreeProto.protobuf) 4 sample_message sample_fits) as (n & j & En & Ej & _ & _ & Hu & _).
  destruct (Hu 5 ltac:(done)) as (x & Hx & Hl). exists j. split; [exact Ej|]. injection En as <-. cbn in Hl. split; [|congruence].
  vm_compute in Ej. injection Ej as <-. reflexivity.
Defined.
