(* ===== verification/ConfigLoad.v ===== *)
(** * Names, types and loading of the configuration

    A name keeps its type whatever the program does; what a YAML document does to
    every variable. *)
From stdpp Require Import list gmap relations.
From Stdlib Require Eqdep_dec.
From S2P Require Import Prelude Strings Config ConfigLaws.

Section types.
Context `{Y : Yaml} `{TY : Types} {W : Type}.
Context (LoadFile : bytes → option Node) (lstat : bytes → option Z).
Implicit Types (c : Config W) (p : nat) (t : ty).

(** ** Configurations that grow *)

(** Names stay, and pointers keep the type and the name of what they point to. *)
Definition extends c c' : Prop :=
  (∀ n p, s_datas c !! n = Some p → s_datas c' !! n = Some p) ∧
  ∀ p v, vars c !! p = Some v → ∃ v', vars c' !! p = Some v' ∧ var_ty v' = var_ty v ∧ name_ (var v') = name_ (var v).

#[export] Instance extends_preorder : PreOrder extends.
Proof.
  split; [intros c; split; [done|by eauto]|].
  intros c1 c2 c3 [H1 H2] [H3 H4]. split; [by eauto|]. intros p v Hv.
  destruct (H2 p v Hv) as (v2 & Hv2 & Ht2 & Hn2). destruct (H4 p v2 Hv2) as (v3 & Hv3 & Ht3 & Hn3).
  exists v3. split_and!; [done|congruence..].
Qed.

(** What code leaves behind, returned or thrown. *)
Definition grows {A} (m : M (Config W) A) : Prop :=
  ∀ c, match m c with Ret _ c' | Throw _ c' => extends c c' | _ => True end.

Lemma grows_ret {A} (a : A) : grows (mret a).
Proof. intros c. simpl. reflexivity. Qed.

Lemma grows_then {A B} (m : M (Config W) A) (k : A → M (Config W) B) : grows m → (∀ a, grows (k a)) → grows (m ≫= k).
Proof.
  intros Hm Hk c. unfold mbind, M_bind. specialize (Hm c). destruct (m c) as [a c'|e c'|u|]; [|done..].
  specialize (Hk a c'). destruct (k a c'); [by etrans..|done|done].
Qed.

Lemma grows_same {A} (m : M (Config W) A) : (∀ c, match m c with Ret _ c' | Throw _ c' => s_datas c' = s_datas c ∧ vars c' = vars c | _ => True end) →
  grows m.
Proof.
  intros Hm c. specialize (Hm c). destruct (m c) as [a c'|e c'|u|]; try done; destruct Hm as [E1 E2];
    (split; rewrite ?E1, ?E2; by eauto).
Qed.

Lemma grows_in_world {A} (m : M W A) : grows (in_world m).
Proof. apply grows_same. intros c. unfold in_world. by destruct (m (world c)). Qed.

(** Reading a variable, and writing it back with its name. *)
Lemma var_at_typed p t c x : vars c !! p = Some (mkAny t x) → var_at p t c = Ret x c.
Proof.
  intros Hp. unfold var_at. rewrite Hp. destruct (decide (t = t)) as [e|]; [|done].
  by rewrite (proof_irrel e eq_refl).
Qed.

Lemma var_at_inv p t c : match var_at p t c with
  | Ret x c' => c' = c ∧ vars c !! p = Some (mkAny t x) | Throw _ _ => False | _ => True end.
Proof.
  unfold var_at. destruct (vars c !! p) as [[t' v]|]; [|done]. destruct (decide (t' = t)) as [e|]; [|done]. by subst t'.
Qed.

Lemma extends_set_var p v v' c : vars c !! p = Some v → var_ty v' = var_ty v → name_ (var v') = name_ (var v) →
  extends c (mkConfig (s_datas c) (<[p := v']> (vars c)) (s_fun_id c) (world c) (modify_time c)).
Proof.
  intros Hp Ht Hn. split; [done|]. simpl. intros q x Hq. destruct (decide (p = q)) as [->|Hpq].
  - exists v'. rewrite list_lookup_insert_eq by (by eapply lookup_lt_Some). by simplify_eq.
  - exists x. by rewrite list_lookup_insert_ne.
Qed.

(** Code that reads a variable, runs code that leaves the table alone, and then
    writes the variable back. *)
Lemma grows_update {A} p t (k : ConfigVar W (interp t) → M (Config W) A) :
  (∀ x c, vars c !! p = Some (mkAny t x) → match k x c with Ret _ c' | Throw _ c' => extends c c' | _ => True end) →
  grows (x ← var_at p t; k x).
Proof.
  intros Hk c. unfold mbind, M_bind. pose proof (var_at_inv p t c) as Hi.
  destruct (var_at p t c) as [x c'|e c'|u|]; try done. destruct Hi as [-> Hi]. by apply Hk.
Qed.

Lemma call_listeners_same t cbs (old new : interp t) c :
  match call_listeners t cbs old new c with
  | Ret _ c' | Throw _ c' => s_datas c' = s_datas c ∧ vars c' = vars c | _ => True end.
Proof.
  revert c. induction cbs as [|[id cb] cbs IH]; intros c; [done|]. cbn [call_listeners].
  unfold mbind, M_bind. unfold in_world at 1.
  destruct (cb old new (world c)) as [a w|e w|u|]; try done.
  specialize (IH (mkConfig (s_datas c) (vars c) (s_fun_id c) w (modify_time c))).
  destruct (call_listeners _ _ _ _ _); done.
Qed.

Lemma grows_SetValue p t v : grows (SetValue p t v).
Proof.
  apply grows_update. intros x c Hx. destruct (ty_eqb t v (val_ x)); [simpl; reflexivity|].
  pose proof (call_listeners_same t (cbs_ x) (val_ x) v c) as Hc. unfold mbind, M_bind.
  destruct (call_listeners _ _ _ _ _) as [a c'|e c'|u|]; try done; destruct Hc as [E1 E2].
  - unfold set_var. simpl. split; simpl; rewrite ?E1; [done|]. rewrite E2.
    eapply extends_set_var; [done|done|done].
  - split; rewrite ?E1, ?E2; by eauto.
Qed.

Lemma grows_FromString p t val : grows (FromString p t val).
Proof.
  intros c. unfold FromString. destruct (from_string val) as [v|]; [|reflexivity].
  pose proof (grows_SetValue p t v c) as Hs. by destruct (SetValue p t v c).
Qed.

Lemma grows_set_cbs p t l : grows (x ← var_at p t; set_cbs p t x (l x)).
Proof. apply grows_update. intros x c Hx. unfold set_cbs, set_var. simpl. by eapply extends_set_var. Qed.

Lemma grows_AddListener p t cb : grows (AddListener p t cb).
Proof.
  apply grows_update. intros x c Hx. unfold set_cbs, set_var. simpl.
  split; [done|]. by eapply (extends_set_var p (mkAny t x)).
Qed.

Lemma grows_Lookup t name v d : grows (Lookup t name v d).
Proof.
  intros c. unfold Lookup. destruct (s_datas c !! name) eqn:Hn; [reflexivity|].
  destruct (negb (name_ok name)); [reflexivity|]. split; simpl.
  - intros n p Hp. rewrite lookup_insert_ne; [done|]. intros ->. congruence.
  - intros p x Hx. exists x. split; [by apply lookup_app_l_Some|done].
Qed.

Lemma grows_load_nodes l : grows (load_nodes l).
Proof.
  induction l as [|i l IH]; [apply grows_ret|]. cbn [load_nodes]. apply grows_then; [|done].
  unfold load_node. case_bool_decide; [apply grows_ret|]. apply grows_then; [by apply grows_same|].
  intros [p|]; [|apply grows_ret]. apply grows_then; [|intros _; apply grows_ret]. intros c. unfold FromString_any.
  destruct (vars c !! p) as [v|]; [|done]. apply grows_FromString.
Qed.

Lemma grows_LoadFromYaml root : grows (LoadFromYaml root).
Proof.
  intros c. unfold LoadFromYaml. destruct (ListAllMember _ _ _) as [l|]; [|done]. apply grows_load_nodes.
Qed.

Lemma grows_LoadFromYamlFile f : grows (LoadFromYamlFile LoadFile f).
Proof.
  unfold LoadFromYamlFile. destruct (LoadFile f); [apply grows_LoadFromYaml|]. intros c. simpl. reflexivity.
Qed.

Lemma grows_LoadFromConfDir force files : grows (LoadFromConfDir LoadFile lstat force files).
Proof.
  induction files as [|i files IH]; [apply grows_ret|]. cbn [LoadFromConfDir]. apply grows_then; [|done].
  unfold load_file. apply grows_then; [by apply grows_same|]. intros c. destruct (lstat i) as [z|]; [|done].
  case_match; [by apply grows_same|]. apply grows_then; [by apply grows_same|]. intros _ c'. unfold try_all.
  pose proof (grows_LoadFromYamlFile i c') as Hf. by destruct (LoadFromYamlFile _ _ _).
Qed.

(** ** Names keep their types *)

(** Whatever a program does with the configuration. *)
Inductive call :=
  | CLookup t (name : bytes) (v : interp t) (d : bytes)
  | CSetValue p t (v : interp t) | CFromString p t (val : bytes)
  | CAddListener p t (cb : interp t → interp t → M W unit) | CDelListener p t (key : Z) | CClearListener p t
  | CLoad (root : Node) | CLoadFile (f : bytes) | CLoadDir (force : bool) (files : list bytes).

Definition run (k : call) : M (Config W) unit :=
  match k with
  | CLookup t name v d => Lookup t name v d;; mret tt
  | CSetValue p t v => SetValue p t v
  | CFromString p t val => FromString p t val;; mret tt
  | CAddListener p t cb => AddListener p t cb;; mret tt
  | CDelListener p t key => DelListener p t key
  | CClearListener p t => ClearListener p t
  | CLoad root => LoadFromYaml root
  | CLoadFile f => LoadFromYamlFile LoadFile f
  | CLoadDir force files => LoadFromConfDir LoadFile lstat force files
  end.

Lemma grows_run k : grows (run k).
Proof.
  destruct k; simpl; try (apply grows_then; [|intros; apply grows_ret]).
  - apply grows_Lookup.
  - apply grows_SetValue.
  - apply grows_FromString.
  - apply grows_AddListener.
  - apply (grows_set_cbs p t (λ x, filter (λ i, i.1 ≠ key) (cbs_ x))).
  - apply (grows_set_cbs p t (λ _, [])).
  - apply grows_LoadFromYaml.
  - apply grows_LoadFromYamlFile.
  - apply grows_LoadFromConfDir.
Qed.

(** A call that returned or threw. *)
Definition step c c' : Prop := ∃ k, run k c = Ret tt c' ∨ ∃ e, run k c = Throw e c'.

Lemma steps_extend c c' : rtc step c c' → extends c c'.
Proof.
  induction 1 as [|c1 c2 c3 [k Hk] _ IH]; [reflexivity|]. etrans; [|done].
  pose proof (grows_run k c1) as Hg. by destruct Hk as [Hk|[e Hk]]; rewrite Hk in Hg.
Qed.

(** C28: Once a name has been looked up with a type, it has this type whatever the
    program does from then on, failed calls included: looking it up again with any
    type and default gives the same variable for the same type and a null pointer
    for every other, and the pointer refers to a variable of its type. *)
Theorem names_keep_types c c1 c2 t name v d p : Lookup t name v d c = Ret (Some p) c1 → rtc step c1 c2 →
  (∃ x, var_at p t c2 = Ret x c2) ∧
  ∀ t' v' d', Lookup t' name v' d' c2 = Ret (if decide (t = t') then Some p else None) c2.
Proof.
  intros Hl Hs. apply steps_extend in Hs as [Hd Hv].
  assert (s_datas c1 !! name = Some p ∧ ∃ y, vars c1 !! p = Some y ∧ var_ty y = t) as (Hn & y & Hy & Ht).
  { revert Hl. unfold Lookup. destruct (s_datas c !! name) as [q|] eqn:Hn.
    - unfold pointer_cast. intros [= Hp <-]. destruct (vars c !! q) as [y|] eqn:Hy; [|done]. simpl in Hp.
      destruct (decide (var_ty y = t)); [|done]. injection Hp as <-. eauto.
    - destruct (negb (name_ok name)); [done|]. intros [= <- <-]. simpl. rewrite lookup_insert_eq. split; [done|].
      eexists. by rewrite list_lookup_middle. }
  destruct (Hv p y Hy) as ([t2 x] & Hx & Ht2 & _). simpl in Ht2. rewrite Ht in Ht2. subst t2. split.
  - exists x. by apply var_at_typed.
  - intros t' v' d'. unfold Lookup. rewrite (Hd _ _ Hn). unfold pointer_cast. rewrite Hx. simpl. by destruct (decide (t = t')).
Qed.
End types.


(** A program with variables of two types. *)
Definition sample_interp (t : bool) : Type := if t then bytes else list bytes.
Definition sample_cast (t : bool) : LexicalCast (sample_interp t) :=
  if t return LexicalCast (sample_interp t) then cast_string else cast_vector (Y := TreeYaml.yaml).
Definition sample_eqb (t : bool) : sample_interp t → sample_interp t → bool :=
  if t return sample_interp t → sample_interp t → bool
  then λ a b : bytes, bool_decide (a = b) else λ a b : list bytes, bool_decide (a = b).
Definition sample_types : Types := {|
  ty := bool; interp := sample_interp; ty_cast := sample_cast; ty_eqb := sample_eqb |}.
#[local] Existing Instances TreeYaml.yaml TreeYaml.yaml_laws sample_types.

Definition no_config : Config unit := mkConfig ∅ [] (λ _, 0%Z) tt ∅.
Definition after {St A} (r : result St A) (d : St) : St := match r with Ret _ s | Throw _ s => s | _ => d end.
Definition no_file (_ : bytes) : option Node := None.

Lemma names_keep_types_witness :
  let c1 := after (Lookup true (bs "http.host") (bs "a") [] no_config) no_config in
  let c2 := after (FromString 0 true (bs "b") c1) no_config in
  (∃ x, var_at 0 true c2 = Ret x c2) ∧
  ∀ t' v' d', Lookup t' (bs "http.host") v' d' c2 = Ret (if decide (true = t') then Some 0 else None) c2.
Proof.
  intros c1 c2. apply (names_keep_types no_file (λ _, None) no_config c1 c2 true (bs "http.host") (bs "a") [] 0).
  - reflexivity.
  - apply rtc_once. exists (CFromString (TY := sample_types) 0 true (bs "b")). left. reflexivity.
Defined.

(** ** Loading *)

Section load.
Context `{Y : Yaml} `{YL : !YamlLaws Y} `{TY : Types} {W : Type}.
Implicit Types (c : Config W) (p : nat) (t : ty).

(** The nodes below a node, with their paths: [prefix.key] and so on, none under a
    path with a character that names cannot have. *)
Inductive member : bytes → Node → bytes → Node → Prop :=
  | member_here prefix n : name_ok prefix = true → member prefix n prefix n
  | member_below prefix n key v k m : name_ok prefix = true → IsMap n = true → (key, v) ∈ pairs n →
      member (join prefix (Scalar key)) v k m → member prefix n k m.

Lemma ListAllMember_total fuel prefix n : node_size n < fuel → ∃ l, ListAllMember fuel prefix n = Some l.
Proof.
  revert prefix n. induction fuel as [|fuel IH]; intros prefix n Hn; [lia|]. cbn [ListAllMember].
  destruct (negb (name_ok prefix)); [by eexists|]. destruct (IsMap n); [|by eexists].
  assert (is_Some (mapM (λ kv, ListAllMember fuel (join prefix (Scalar kv.1)) kv.2) (pairs n))) as [r ->]; [|by eexists].
  apply mapM_is_Some_2, Forall_forall. intros [k v] Hk. simpl.
  destruct (IH (join prefix (Scalar k)) v) as [l Hl]; [|by exists l]. apply pairs_smaller in Hk. lia.
Qed.

Lemma ListAllMember_member fuel prefix n l : ListAllMember fuel prefix n = Some l →
  ∀ k m, (k, m) ∈ l ↔ member prefix n k m.
Proof.
  revert prefix n l. induction fuel as [|fuel IH]; intros prefix n l; [done|]. cbn [ListAllMember].
  destruct (name_ok prefix) eqn:Hok; simpl.
  2:{ intros [= <-] k m. split; [by intros ?%elem_of_nil|]. intros Hm. by inversion Hm; congruence. }
  intros (r & Hr & [= <-])%bind_Some k m. rewrite elem_of_cons, list_elem_of_In, in_concat.
  destruct (IsMap n) eqn:Hmap.
  - apply mapM_Some_1 in Hr. split.
    + intros [[= -> ->]|(l & Hl & Hkm)]; [by constructor|]. apply list_elem_of_In in Hl, Hkm.
      apply list_elem_of_lookup in Hl as [i Hi].
      destruct (Forall2_lookup_r _ _ _ _ _ Hr Hi) as ([key v] & Hkv & Hl). simpl in Hl.
      eapply member_below; [done|done|by eapply list_elem_of_lookup_2|by eapply IH].
    + intros Hm. inversion Hm as [|? ? key v ? ? _ _ Hkv Hm']; subst; [by left|]. right.
      apply list_elem_of_lookup in Hkv as [i Hi].
      destruct (Forall2_lookup_l _ _ _ _ _ Hr Hi) as (l & Hl & Hlm). exists l.
      rewrite <- !list_elem_of_In. split; [by eapply list_elem_of_lookup_2|]. by eapply IH.
  - injection Hr as <-. split.
    + intros [[= -> ->]|(? & [] & _)]. by constructor.
    + intros Hm. inversion Hm; subst; [by left|congruence].
Qed.

(** The listing of a document ends and holds exactly the nodes reachable from
    its root under paths made of the characters of names. *)
Theorem ListAllMember_lists root : ∃ l, ListAllMember (S (node_size root)) [] root = Some l ∧
  ∀ k m, (k, m) ∈ l ↔ member [] root k m.
Proof.
  destruct (ListAllMember_total (S (node_size root)) [] root) as [l Hl]; [lia|]. exists l.
  split; [done|]. by eapply ListAllMember_member.
Qed.

(** Names are their own lower case. *)
Lemma name_char_lower : forallb (λ b, bool_decide (tolower b = b)) name_chars = true.
Proof. vm_compute. reflexivity. Qed.

Lemma name_ok_lower name : name_ok name = true → ToLower name = name.
Proof.
  unfold name_ok, ToLower. intros Hn. rewrite <- (map_id name) at 2. apply map_ext_in. intros b Hb.
  rewrite forallb_forall in Hn. specialize (Hn b Hb). apply bool_decide_eq_true, list_elem_of_In in Hn.
  pose proof name_char_lower as Hl. rewrite forallb_forall in Hl. specialize (Hl b Hn). by apply bool_decide_eq_true in Hl.
Qed.

Lemma member_ok prefix n k m : member prefix n k m → name_ok k = true.
Proof. by induction 1. Qed.

(** The table: every name is allowed and is that of its variable. *)
Definition wf c : Prop := ∀ n p, s_datas c !! n = Some p → name_ok n = true ∧ ∃ v, vars c !! p = Some v ∧ name_ (var v) = n.

(** Listeners that return. *)
Definition quiet c : Prop := ∀ p t x, vars c !! p = Some (mkAny t x) →
  Forall (λ i, ∀ old new w, ∃ w', i.2 old new w = Ret tt w') (cbs_ x).

(** What one text does to a value: nothing when it does not convert or converts to an
    equal value. *)
Definition apply_text t (v : interp t) (s : bytes) : interp t :=
  match from_string s with Some v' => if ty_eqb t v' v then v else v' | None => v end.
Definition with_value {t} (x : ConfigVar W (interp t)) (v : interp t) : ConfigVar W (interp t) :=
  mkVar (name_ x) (description_ x) v (cbs_ x).
Definition set_value p t (x : ConfigVar W (interp t)) (v : interp t) (w : W) c : Config W :=
  mkConfig (s_datas c) (<[p := mkAny t (with_value x v)]> (vars c)) (s_fun_id c) w (modify_time c).

Lemma call_listeners_quiet t cbs (old new : interp t) c :
  Forall (λ i, ∀ old new w, ∃ w', i.2 old new w = Ret tt w') cbs →
  ∃ w', call_listeners t cbs old new c = Ret tt (mkConfig (s_datas c) (vars c) (s_fun_id c) w' (modify_time c)).
Proof.
  intros Hq. revert c. induction Hq as [|[id cb] cbs Hcb _ IH]; intros c; [exists (world c); by destruct c|].
  destruct (Hcb old new (world c)) as [w Hw]. simpl in Hw. cbn [call_listeners].
  erewrite bind_Ret by (unfold in_world; by rewrite Hw).
  apply (IH (mkConfig (s_datas c) (vars c) (s_fun_id c) w (modify_time c))).
Qed.

Lemma with_value_same {t} (x : ConfigVar W (interp t)) : with_value x (val_ x) = x.
Proof. by destruct x. Qed.

Lemma FromString_quiet p t x c s : vars c !! p = Some (mkAny t x) → quiet c →
  ∃ w', FromString p t s c = Ret false (set_value p t x (apply_text t (val_ x) s) w' c).
Proof.
  intros Hp Hq. unfold FromString, apply_text.
  assert (∃ w', Ret (A := bool) false c = Ret false (set_value p t x (val_ x) w' c)) as Hsame.
  { exists (world c). unfold set_value. rewrite with_value_same, list_insert_id by done. by destruct c. }
  destruct (from_string s) as [v|]; [|done]. unfold SetValue. erewrite bind_Ret by (by apply var_at_typed).
  destruct (ty_eqb t v (val_ x)); [done|].
  destruct (call_listeners_quiet t (cbs_ x) (val_ x) v c (Hq p t x Hp)) as [w' Hw']. exists w'.
  by erewrite bind_Ret by done.
Qed.

Lemma set_value_wf p t x v w c : wf c → vars c !! p = Some (mkAny t x) → wf (set_value p t x v w c).
Proof.
  intros Hw Hp n q Hq. destruct (Hw n q Hq) as (Hn & y & Hy & Hny). split; [done|]. simpl.
  destruct (decide (p = q)) as [->|Hpq].
  - exists (mkAny t (with_value x v)). rewrite list_lookup_insert_eq by (by eapply lookup_lt_Some). by simplify_eq.
  - exists y. by rewrite list_lookup_insert_ne.
Qed.

Lemma set_value_quiet p t x v w c : quiet c → vars c !! p = Some (mkAny t x) → quiet (set_value p t x v w c).
Proof.
  intros Hq Hp q t' y Hy. simpl in Hy. apply list_lookup_insert_Some in Hy as [(<- & Hy & _)|[_ Hy]]; [|by eapply Hq].
  specialize (Hq p t x Hp). injection Hy as Ht Hy. subst t'.
  apply (Eqdep_dec.inj_pair2_eq_dec _ ty_eq_dec) in Hy. by subst y.
Qed.

(** The texts a document has for a name, in order. *)
Definition texts_of (k : bytes) (l : list (bytes * Node)) : list bytes :=
  (λ i, node_text i.2) <$> filter (λ i, i.1 = k ∧ i.1 ≠ []) l.

(** The variable of a name after its texts. *)
Definition loaded c l c' : Prop := s_datas c' = s_datas c ∧
  ∀ k p t x, s_datas c !! k = Some p → vars c !! p = Some (mkAny t x) →
    vars c' !! p = Some (mkAny t (with_value x (foldl (apply_text t) (val_ x) (texts_of k l)))).

Lemma load_node_quiet c i : wf c → quiet c → name_ok i.1 = true →
  ∃ c', load_node i c = Ret tt c' ∧ wf c' ∧ quiet c' ∧ loaded c [i] c'.
Proof.
  intros Hw Hq Hi. unfold load_node. case_bool_decide as Hne.
  { exists c. split_and!; [done..|]. split; [done|]. intros k p t x _ Hx. unfold texts_of.
    rewrite filter_cons_False by naive_solver. simpl. by rewrite with_value_same. }
  unfold LookupBase. erewrite bind_Ret by reflexivity. rewrite name_ok_lower by done. destruct (s_datas c !! i.1) as [p|] eqn:Hp.
  - destruct (Hw _ _ Hp) as (_ & [t x] & Hx & Hnx). destruct (FromString_quiet p t x c (node_text i.2) Hx Hq) as [w' Hf].
    exists (set_value p t x (apply_text t (val_ x) (node_text i.2)) w' c). split_and!.
    + by erewrite bind_Ret by (unfold FromString_any; by rewrite Hx).
    + by apply set_value_wf.
    + by apply set_value_quiet.
    + split; [done|]. intros k q t' y Hk Hy. unfold texts_of. destruct (decide (i.1 = k)) as [Hik|Hik].
      * subst k. assert (q = p) as -> by congruence. rewrite Hx in Hy. injection Hy as Ht Hy. subst t'.
        apply (Eqdep_dec.inj_pair2_eq_dec _ ty_eq_dec) in Hy. subst y.
        rewrite filter_cons_True by done. simpl. by rewrite list_lookup_insert_eq by (by eapply lookup_lt_Some).
      * rewrite filter_cons_False by naive_solver. simpl. rewrite with_value_same.
        rewrite list_lookup_insert_ne; [done|]. intros <-. destruct (Hw _ _ Hk) as (_ & z & Hz & Hnz).
        rewrite Hx in Hz. injection Hz as <-. by rewrite Hnx in Hnz.
  - exists c. split_and!; [done..|]. split; [done|]. intros k q t x Hk Hx. unfold texts_of.
    rewrite filter_cons_False by (intros [He _]; rewrite He in Hp; by rewrite Hp in Hk). simpl. by rewrite with_value_same.
Qed.

Lemma loaded_app c l1 c1 l2 c2 : loaded c l1 c1 → loaded c1 l2 c2 → loaded c (l1 ++ l2) c2.
Proof.
  intros [E1 H1] [E2 H2]. split; [congruence|]. intros k p t x Hk Hx.
  rewrite <- E1 in Hk. unfold texts_of. rewrite filter_app, fmap_app, foldl_app.
  rewrite E1 in Hk. specialize (H1 k p t x Hk Hx). rewrite <- E1 in Hk. by apply (H2 k p t _ Hk H1).
Qed.

Lemma load_nodes_quiet l c : wf c → quiet c → Forall (λ i, name_ok i.1 = true) l →
  ∃ c', load_nodes l c = Ret tt c' ∧ loaded c l c'.
Proof.
  intros Hw Hq Hl. revert c Hw Hq. induction Hl as [|i l Hi _ IH]; intros c Hw Hq.
  { exists c. split; [done|]. split; [done|]. intros k p t x _ Hx. simpl. by rewrite with_value_same. }
  destruct (load_node_quiet c i Hw Hq Hi) as (c1 & H1 & Hw1 & Hq1 & Hl1). destruct (IH c1 Hw1 Hq1) as (c2 & H2 & Hl2).
  exists c2. cbn [load_nodes]. erewrite bind_Ret by done. split; [done|]. by apply (loaded_app c [i] c1 l c2).
Qed.

(** C29: Loading a document ends, throws nothing and leaves every variable with the
    value the texts found under its name give it, one after the other: a text that
    does not convert, or converts to a value equal to the present one, leaves it. *)
Theorem LoadFromYaml_sets c root : wf c → quiet c →
  ∃ l c', ListAllMember (S (node_size root)) [] root = Some l ∧ LoadFromYaml root c = Ret tt c' ∧
    s_datas c' = s_datas c ∧
    ∀ k p t x, s_datas c !! k = Some p → vars c !! p = Some (mkAny t x) →
      vars c' !! p = Some (mkAny t (with_value x (foldl (apply_text t) (val_ x) (texts_of k l)))).
Proof.
  intros Hw Hq. destruct (ListAllMember_total (S (node_size root)) [] root) as [l Hl]; [lia|].
  destruct (load_nodes_quiet l c Hw Hq) as (c' & Hc & H1 & H2).
  { apply Forall_forall. intros [k m] Hk. by apply (ListAllMember_member _ _ _ _ Hl), member_ok in Hk. }
  exists l, c'. split_and!; [done| |done|done]. unfold LoadFromYaml. by rewrite Hl.
Qed.

(** Names with a nine or a capital letter cannot be made: [Lookup] throws. *)
Theorem nine_refused c t name v d b : s_datas c !! name = None → b ∈ name → (b ∉ name_chars) →
  Lookup t name v d c = Throw invalid_argument c.
Proof.
  intros Hn Hb Hnot. unfold Lookup. rewrite Hn. destruct (name_ok name) eqn:Hok; [|done]. unfold name_ok in Hok.
  rewrite forallb_forall in Hok. apply list_elem_of_In, Hok, bool_decide_eq_true in Hb. done.
Qed.
End load.

Lemma nine_refused_witness : Lookup true (bs "port9") (bs "a") [] no_config = Throw invalid_argument no_config.
Proof.
  by apply (nine_refused no_config true (bs "port9") (bs "a") [] (byte.of_Z 57)); [|apply (bool_decide_unpack _)..].
Defined.

(** Two variables, and a document with one of them, a text that does not convert and
    one under a name that cannot be. *)
Definition two_vars : Config unit :=
  let c := after (Lookup true (bs "log.file") (bs "a") [] no_config) no_config in
  after (Lookup false (bs "hosts") [bs "x"] [] c) c.
Definition sample_doc : TreeYaml.tree :=
  Mapping [(bs "log", Mapping [(bs "file", GenLeaf (bs "b")); (bs "Level", GenLeaf (bs "c"))]);
           (bs "hosts", Sequence [GenLeaf (bs "y"); GenLeaf (bs "z")])].

Lemma two_vars_ok : wf two_vars ∧ quiet two_vars.
Proof.
  split.
  - intros n p. change (s_datas two_vars) with (<[bs "hosts" := 1]> {[bs "log.file" := 0]} : gmap bytes nat).
    rewrite lookup_insert_Some, lookup_singleton_Some. intros [[<- <-]|(_ & <- & <-)].
    + split; [reflexivity|]. eexists. split; reflexivity.
    + split; [reflexivity|]. eexists. split; reflexivity.
  - assert (∀ p v, vars two_vars !! p = Some v → cbs_ (var v) = []) as Hc by (by intros [|[|p]] v [= <-]).
    intros p t x Hx. specialize (Hc p _ Hx). change (cbs_ x = []) in Hc. destruct x as [? ? ? cbs]. simpl in Hc |- *. subst cbs. constructor.
Qed.

Lemma LoadFromYaml_sets_witness :
  ∃ l c', ListAllMember (S (node_size sample_doc)) [] sample_doc = Some l ∧ LoadFromYaml sample_doc two_vars = Ret tt c' ∧
    texts_of (bs "log.file") l = [bs "b"] ∧
    vars c' !! 0 = Some (mkAny (true : ty) (mkVar (bs "log.file") [] (bs "b") [])).
Proof.
  destruct (LoadFromYaml_sets (Y := TreeYaml.yaml) two_vars sample_doc (proj1 two_vars_ok) (proj2 two_vars_ok)) as (l & c' & Hl & Hc & _ & Hv).
  exists l, c'. specialize (Hv (bs "log.file") 0 true _ eq_refl eq_refl).
  assert (texts_of (bs "log.file") l = [bs "b"]) as Ht.
  { assert (Some (texts_of (bs "log.file") l) = Some [bs "b"]) as He.
    { change (Some (texts_of (bs "log.file") l)) with (texts_of (bs "log.file") <$> Some l). rewrite <- Hl. reflexivity. }
    by injection He. }
  rewrite Ht in Hv. split_and!; [done|done|done|exact Hv].
Defined.

