(* ===== verification/LogConfig.v ===== *)
(** * The loggers' configuration: the variable [logs] of [server_frame/log.cc]

    Its values, their conversion from and to YAML, and the listener that makes the
    loggers follow it. *)
From stdpp Require Import list gmap.
From S2P Require Import Prelude Strings CLib Config ConfigLaws ConfigLoad LogFormatter LogPattern Logger LoggerLaws.

(** ** Data *)

(** Type 1 is a file, type 2 the standard output. *)
Record LogAppenderDefine := mkAppenderDefine { type_ : Z; d_level : Level; d_formatter : bytes; file_ : bytes }.
#[export] Instance LogAppenderDefine_eq_dec : EqDecision LogAppenderDefine.
Proof. solve_decision. Defined.
Definition new_appender_define : LogAppenderDefine := mkAppenderDefine 0 kUnknown [] [].

Record LogDefine := mkDefine {
  d_name : bytes; ld_level : Level; ld_formatter : bytes; d_appenders : list LogAppenderDefine }.

(** [LogAppenderDefine::operator==] *)
Definition appender_eqb (a b : LogAppenderDefine) : bool :=
  (type_ a =? type_ b)%Z && bool_decide (d_level a = d_level b) && bool_decide (d_formatter a = d_formatter b) &&
  bool_decide (file_ a = file_ b).
(** [operator==] of two vectors and of two sets. *)
Fixpoint all_eqb {A} (eqb : A → A → bool) (l1 l2 : list A) : bool :=
  match l1, l2 with
  | [], [] => true
  | a :: l1, b :: l2 => eqb a b && all_eqb eqb l1 l2
  | _, _ => false
  end.
(** [LogDefine::operator==]: the appenders are compared with themselves. *)
Definition define_eqb (a oth : LogDefine) : bool :=
  bool_decide (d_name a = d_name oth) && bool_decide (ld_level a = ld_level oth) &&
  bool_decide (ld_formatter a = ld_formatter oth) && all_eqb appender_eqb (d_appenders a) (d_appenders a).
#[export] Instance define_less : Less LogDefine := λ a b, string_less (d_name a) (d_name b).
Definition IsValid (a : LogDefine) : bool := bool_decide (d_name a ≠ []).
Definition defines_eqb (a b : set_of LogDefine) : bool := all_eqb define_eqb (set_list a) (set_list b).

(** ** Conversions *)

(** [n["key"]] of a node ([None]: it throws; [Some None]: not defined), its string
    ([None]: it throws) and building a node from a string. *)
Class YamlFields (Y : Yaml) := {
  field : Node → bytes → option (option Node);
  as_string : Node → option bytes;
  text_node : bytes → Node }.

Section cast.
Context `{Y : Yaml} `{YF : !YamlFields Y}.

(** A string under a key, when there is one. *)
Definition opt_string (n : Node) (key : bytes) : option (option bytes) :=
  o ← field n key;
  match o with Some m => s ← as_string m; Some (Some s) | None => Some None end.

(** The body of the loop over the appenders: [Some None] goes on with the next. *)
Definition appender_from (level : Level) (a : Node) : option (option LogAppenderDefine) :=
  t ← opt_string a (bs "type");
  match t with
  | None => Some None
  | Some type =>
      if bool_decide (type = bs "FileLogAppender") then
        file ← opt_string a (bs "file");
        match file with
        | None => Some None
        | Some file =>
            f ← opt_string a (bs "formatter");
            Some (Some (mkAppenderDefine 1 level (default default_pattern f) file))
        end
      else if bool_decide (type = bs "StdoutLogAppender") then
        f ← opt_string a (bs "formatter");
        Some (Some (mkAppenderDefine 2 level (default default_pattern f) []))
      else Some None
  end.

(** [LexicalCast<std::string, LogDefine>] *)
Definition define_from_string (v : bytes) : option LogDefine :=
  n ← Load v;
  name ← opt_string n (bs "name");
  name ← name;
  level ← opt_string n (bs "level");
  let level := LogLevel.FromString (default [] level) in
  formatter ← opt_string n (bs "formatter");
  apps ← field n (bs "appenders");
  l ← match apps with Some m => mapM (appender_from level) (elements m) | None => Some [] end;
  Some (mkDefine name level (default [] formatter) (omap id l)).

(** [LexicalCast<LogDefine, std::string>] *)
Definition level_field (l : Level) : list (bytes * Node) :=
  if bool_decide (l = kUnknown) then [] else [(bs "level", text_node (LogLevel.ToString l))].
Definition formatter_field (f : bytes) : list (bytes * Node) :=
  if bool_decide (f = []) then [] else [(bs "formatter", text_node f)].
Definition appender_node (a : LogAppenderDefine) : Node :=
  Mapping ((if (type_ a =? 1)%Z then [(bs "type", text_node (bs "FileLogAppender")); (bs "file", text_node (file_ a))]
            else if (type_ a =? 2)%Z then [(bs "type", text_node (bs "StdoutLogAppender"))] else []) ++
           level_field (d_level a) ++ formatter_field (d_formatter a)).
Definition define_to_string (i : LogDefine) : option bytes :=
  Some (print_node (Mapping ([(bs "name", text_node (d_name i))] ++ level_field (ld_level i) ++
    formatter_field (ld_formatter i) ++
    match d_appenders i with [] => [] | l => [(bs "appenders", Sequence (map appender_node l))] end))).

#[export] Instance cast_define : LexicalCast LogDefine := {| from_string := define_from_string; to_string := define_to_string |}.
End cast.

(** ** The listener *)

Section listener.
Context (can_open : bytes → bool) (strftime : bytes → Z → option bytes).
(** The event of the message at the start. *)
Context (ev : LogEvent).

(** The body of the loop over the appenders of a logger. *)
Definition configure_appender (logger : nat) (i : LogDefine) (a : LogAppenderDefine) : M World unit :=
  ap ← (if (type_ a =? 1)%Z then FileLogAppender_new can_open (file_ a)
        else if (type_ a =? 2)%Z then StdoutLogAppender_new
        else undef null_deref);
  LogAppender_SetLevel ap (d_level a);;
  (if bool_decide (d_formatter a = []) then mret tt
   else
     fmt ← make_formatter (d_formatter a);
     if is_error_ fmt then
       print (bs "log.name=" ++ d_name i ++ bs " appender type=" ++ signed_dec (type_ a) ++ bs " formatter=" ++
              d_formatter a ++ bs " is invalid" ++ newline)
     else LogAppender_SetFormatter ap (Some fmt));;
  Logger_AddAppender logger ap.
Fixpoint configure_appenders (logger : nat) (i : LogDefine) (l : list LogAppenderDefine) : M World unit :=
  match l with [] => mret tt | a :: l => configure_appender logger i a;; configure_appenders logger i l end.

(** A new logger or one that changed. *)
Definition configure (i : LogDefine) : M World unit :=
  logger ← GetLogger (d_name i);
  Logger_SetLevel logger (ld_level i);;
  (if bool_decide (ld_formatter i = []) then mret tt else Logger_SetFormatter_text logger (ld_formatter i));;
  Logger_ClearAppenders logger;;
  configure_appenders logger i (d_appenders i).

(** Whether a definition is new or differs from the old one. *)
Definition changed (old : set_of LogDefine) (i : LogDefine) : bool :=
  match set_find i (set_list old) with Some it => negb (define_eqb i it) | None => true end.
Fixpoint configure_all (old : set_of LogDefine) (l : list LogDefine) : M World unit :=
  match l with
  | [] => mret tt
  | i :: l => (if changed old i then configure i else mret tt);; configure_all old l
  end.

(** A logger that is gone. *)
Definition removed (new : set_of LogDefine) (i : LogDefine) : bool := bool_decide (set_find i (set_list new) = None).
Definition silence (i : LogDefine) : M World unit :=
  logger ← GetLogger (d_name i);
  Logger_SetLevel logger kUnknown;;
  Logger_ClearAppenders logger.
Fixpoint silence_all (new : set_of LogDefine) (l : list LogDefine) : M World unit :=
  match l with
  | [] => mret tt
  | i :: l => (if removed new i then silence i else mret tt);; silence_all new l
  end.

(** The listener of [LogIniter]. *)
Definition on_change (old_value new_value : set_of LogDefine) : M World unit :=
  r ← GetRoot;
  YGW_LOG_LEVEL can_open strftime r kInfo ev;;
  configure_all old_value (set_list new_value);;
  silence_all new_value (set_list old_value).
End listener.
