(* ===== verification/LogConfigLaws.v ===== *)
(** * The loggers follow their configuration

    After a change of the variable [logs] the loggers named in it are as it says,
    and those it no longer names are silenced; what the code does with changes of
    appenders, levels of appenders and loggers that are gone. *)
From stdpp Require Import list gmap relations sorting.
From S2P Require Import Prelude Strings CLib Config ConfigLaws ConfigLoad LogFormatter LogPattern Logger LoggerLaws LogConfig.

(** ** What an operation may touch *)

(** An appender keeps what it is, its level and its own formatter. *)
Definition kind (t : target) : option bytes := match t with StdoutLogAppender => None | FileLogAppender f _ _ => Some f end.
Definition follows (y y' : LogAppender) : Prop :=
  kind (target_ y') = kind (target_ y) ∧ a_level y' = a_level y ∧ has_formatter y' = has_formatter y ∧
  (has_formatter y = true → a_formatter y' = a_formatter y).

#[export] Instance follows_preorder : PreOrder follows.
Proof.
  split; [done|]. intros y1 y2 y3 (H1 & H2 & H3 & H4) (H5 & H6 & H7 & H8).
  split_and!; [congruence..|]. intros Hh. rewrite H8, H4; congruence.
Qed.

Definition named (w : World) (name : bytes) (l : nat) (x : Logger) : Prop :=
  loggers_ w !! name = Some l ∧ loggers w !! l = Some x.

(** Only the loggers of these names change. *)
Definition only (ns : list bytes) (w w' : World) : Prop :=
  (∀ n l x, (n ∉ ns) → named w n l x → named w' n l x) ∧
  ∀ a y, appenders w !! a = Some y → ∃ y', appenders w' !! a = Some y' ∧ follows y y'.

Lemma only_refl ns w : only ns w w.
Proof. split; [done|]. intros a y Hy. by exists y. Qed.

Lemma only_trans ns1 ns2 w1 w2 w3 : only ns1 w1 w2 → only ns2 w2 w3 → only (ns1 ++ ns2) w1 w3.
Proof.
  intros [H1 H2] [H3 H4]. split.
  - intros n l x Hn Hx. apply not_elem_of_app in Hn as [Hn1 Hn2]. eauto.
  - intros a y Hy. destruct (H2 a y Hy) as (y2 & Hy2 & F2). destruct (H4 a y2 Hy2) as (y3 & Hy3 & F3).
    exists y3. split; [done|by etrans].
Qed.

Lemma only_same n w1 w2 w3 : only [n] w1 w2 → only [n] w2 w3 → only [n] w1 w3.
Proof.
  intros H1 H2. destruct (only_trans _ _ _ _ _ H1 H2) as [H3 H4]. split; [|done].
  intros m l x Hm. apply H3. set_solver.
Qed.

(** Changes of one logger, of one appender, of neither. *)
Lemma only_put_logger w name l x x' : wf w → named w name l x → only [name] w (set_loggers <[l := x']> w).
Proof.
  intros Hw [Hn Hx]. split; [|intros a y Hy; by exists y]. intros m k z Hm [Hk Hz]. split; [done|]. simpl.
  rewrite list_lookup_insert_ne; [done|]. intros <-. apply Hm.
  destruct (wf_map w Hw _ _ Hn) as (u & Hu & Hun). destruct (wf_map w Hw _ _ Hk) as (v & Hv & Hvn). simplify_eq. left.
Qed.

Lemma only_put_appender ns w a y y' : appenders w !! a = Some y → follows y y' → only ns w (set_appenders <[a := y']> w).
Proof.
  intros Hy Hf. split; [done|]. intros b z Hz. simpl. destruct (decide (a = b)) as [->|Hab].
  - exists y'. rewrite list_lookup_insert_eq by (by eapply lookup_lt_Some). by simplify_eq.
  - exists z. by rewrite list_lookup_insert_ne.
Qed.

Lemma only_same_objects ns w w' : loggers_ w' = loggers_ w → loggers w' = loggers w →
  (∀ a y, appenders w !! a = Some y → appenders w' !! a = Some y) → only ns w w'.
Proof.
  intros E1 E2 E3. split; [|intros a y Hy; exists y; split; [by apply E3|reflexivity]].
  intros n l x _. unfold named. by rewrite E1, E2.
Qed.

(** ** The operations on a logger *)

Section operations.
Context {C : Cause}.

Lemma wp_GetRoot (Q : nat → World → Prop) w : Q (root_ w) w → wp GetRoot Q w.
Proof. done. Qed.

Lemma GetLogger_spec name w : wf w →
  wp (GetLogger name) (λ l w', wf w' ∧ only [name] w w' ∧ ∃ x, named w' name l x) w.
Proof.
  intros Hw. destruct (loggers_ w !! name) as [l|] eqn:Hn.
  - apply (wp_GetLogger_found l); [done|]. split_and!; [done|apply only_refl|].
    destruct (wf_map w Hw _ _ Hn) as (x & Hx & _). by exists x.
  - apply (wp_mono _ (λ l w', wf w' ∧ (only [name] w w' ∧ ∃ x, named w' name l x))); [|naive_solver].
    apply (wp_and _ (λ _, wf)); [by apply GetLogger_ok|].
    apply wp_GetLogger_new; [done|]. unfold create_logger. apply wp_bind. eapply wp_mono; [by apply Logger_new_ok|].
    intros l w1 (H1 & -> & Em & Er & f & El & Ea). set (x := mkLogger name kDebug [] (Some f) None) in *.
    assert (loggers w1 !! length (loggers w) = Some x) as Hx by (rewrite El; by apply list_lookup_middle).
    apply wp_bind, (wp_logger_at _ x); [done|]. apply wp_bind, wp_modify, wp_bind, wp_modify, wp_ret. split.
    + split; [|intros a y Hy; exists y; simpl; by rewrite Ea]. intros n l y Hnn [Hl Hy]. split; simpl.
      * rewrite lookup_insert_ne by set_solver. by rewrite Em.
      * rewrite list_lookup_insert_ne by (apply lookup_lt_Some in Hy; lia). rewrite El. by apply lookup_app_l_Some.
    + eexists. split; simpl; [by rewrite lookup_insert_eq|by rewrite list_lookup_insert_eq by (by eapply lookup_lt_Some)].
Qed.

(** An operation on the logger [l] of a name: the invariant stays, only this logger
    changes, and [P] relates it before and after. *)
Definition touches (name : bytes) (l : nat) (x : Logger) (P : Logger → World → Prop) (w w' : World) : Prop :=
  wf w' ∧ only [name] w w' ∧ ∃ x', named w' name l x' ∧ l_name x' = l_name x ∧ l_root x' = l_root x ∧ P x' w'.

Lemma touches_put name l x x' P w : wf w → named w name l x → l_name x' = l_name x → l_root x' = l_root x →
  is_Some (l_formatter x') → Forall (good w) (appenders_ x') →
  P x' (set_loggers <[l := x']> w) → wp (put_logger l x') (λ _, touches name l x P w) w.
Proof.
  intros Hw Hx Hn Hr Hf Ha HP. pose proof (put_logger_ok l x x' w Hw (proj2 Hx) Hn Hr Hf Ha) as Hp. unfold wp, put_logger in *.
  simpl in *. split; [apply Hp|]. split; [by eapply only_put_logger|]. exists x'. split_and!; [|done..].
  split; [apply Hx|]. simpl. apply list_lookup_insert_eq. destruct Hx as [_ Hx]. by eapply lookup_lt_Some.
Qed.

Lemma SetLevel_touches name l x v w : wf w → named w name l x →
  wp (Logger_SetLevel l v) (λ _, touches name l x (λ x' _, l_level x' = v ∧ appenders_ x' = appenders_ x) w) w.
Proof.
  intros Hw Hx. destruct (wf_loggers w Hw l x (proj2 Hx)) as [Hf Ha _ _].
  apply wp_bind, (wp_logger_at l x); [apply Hx|]. by apply touches_put.
Qed.

Lemma Clear_touches name l x w : wf w → named w name l x →
  wp (Logger_ClearAppenders l) (λ _, touches name l x (λ x' _, l_level x' = l_level x ∧ appenders_ x' = []) w) w.
Proof.
  intros Hw Hx. destruct (wf_loggers w Hw l x (proj2 Hx)) as [Hf Ha _ _].
  apply wp_bind, (wp_logger_at l x); [apply Hx|]. apply touches_put; [done..|constructor|done].
Qed.

(** Giving a formatter to appenders that have none of their own. *)
Definition app_only (w w' : World) : Prop :=
  loggers_ w' = loggers_ w ∧ loggers w' = loggers w ∧ wf w' ∧
  ∀ a y, appenders w !! a = Some y → ∃ y', appenders w' !! a = Some y' ∧ follows y y'.

Lemma give_formatter_only l val w : wf w → Forall (good w) l → is_Some val →
  wp (give_formatter l val) (λ _, app_only w) w.
Proof.
  intros Hw Hl Hv. revert w Hw Hl. induction l as [|a l IH]; intros w Hw Hl; simpl.
  { apply wp_ret. split_and!; [done..|]. intros b y Hy. by exists y. }
  apply Forall_cons in Hl as [(y & Hy & Hs) Hl]. apply wp_bind, (wp_appender_at a y); [done|]. apply wp_bind.
  destruct (has_formatter y) eqn:Hh; [by apply wp_ret, IH|]. apply wp_modify.
  destruct (calm_put_appender w a y (set_a_formatter val y) Hw Hy (λ _, Hv)) as (H1 & H2 & H3).
  eapply wp_mono; [apply IH; [done|by eapply Forall_impl]|]. intros [] w2 (E1 & E2 & E3 & E4).
  split_and!; [done..|]. intros b z Hz.
  destruct (only_put_appender [] w a y (set_a_formatter val y) Hy) as [_ Ho]; [unfold follows; split_and!; [done..|by rewrite Hh]|].
  destruct (Ho b z Hz) as (z1 & Hz1 & F1). destruct (E4 b z1 Hz1) as (z2 & Hz2 & F2). exists z2. split; [done|by etrans].
Qed.

Lemma SetFormatter_text_touches name l x val w : wf w → named w name l x →
  wp (Logger_SetFormatter_text l val) (λ _, touches name l x (λ x' _, l_level x' = l_level x ∧ appenders_ x' = appenders_ x) w) w.
Proof.
  intros Hw Hx. destruct (wf_loggers w Hw l x (proj2 Hx)) as [Hf Ha _ _].
  unfold Logger_SetFormatter_text. apply wp_bind, wp_make_formatter. intros f out _. apply wp_modify.
  fold (printed out w).
  assert (wf (printed out w)) as Hw1 by (by apply (calm_print out w)).
  assert (named (printed out w) name l x) as Hx1 by done.
  assert (∀ w', only [name] (printed out w) w' → only [name] w w') as Ho by done.
  apply wp_bind, (wp_logger_at l x); [apply Hx|]. destruct (is_error_ f).
  - apply wp_modify. split; [by apply calm_print|]. split; [apply only_same_objects; [done..|by intros a y]|]. by exists x.
  - unfold Logger_SetFormatter. apply wp_bind, (wp_logger_at l x); [apply Hx|]. apply wp_bind.
    eapply wp_mono; [by apply (touches_put name l x (set_l_formatter (Some f) x) (λ x' _, x' = set_l_formatter (Some f) x) (printed out w))|].
    intros [] w1 (H1 & H2 & x' & Hx' & _ & _ & ->). destruct (wf_loggers w1 H1 l _ (proj2 Hx')) as [_ Ha1 _ _].
    eapply wp_mono; [by apply (give_formatter_only (appenders_ x))|]. intros [] w2 (E1 & E2 & E3 & E4).
    split; [done|]. split.
    + apply Ho. apply (only_same name _ w1); [done|]. split; [|done]. intros n k z _. unfold named. by rewrite E1, E2.
    + eexists. split; [unfold named; rewrite E1, E2; exact Hx'|done].
Qed.

(** ** The appenders of a definition *)

(** Valid types: what is not a file or the standard output has no appender. *)
Definition type_ok (d : LogAppenderDefine) : Prop := type_ d = 1%Z ∨ type_ d = 2%Z.
Definition kind_of (d : LogAppenderDefine) : option bytes := if (type_ d =? 1)%Z then Some (file_ d) else None.

(** The formatter of a definition, when it has one without errors. *)
Definition own_formatter (d : LogAppenderDefine) : option LogFormatter :=
  if bool_decide (d_formatter d = []) then None
  else match LogFormatter_new (d_formatter d) with Some (f, _) => if is_error_ f then None else Some f | None => None end.

(** An appender is as its definition says. *)
Definition matches (w : World) (d : LogAppenderDefine) (a : nat) : Prop :=
  ∃ y, appenders w !! a = Some y ∧ kind (target_ y) = kind_of d ∧ a_level y = d_level d ∧
    match own_formatter d with
    | Some f => has_formatter y = true ∧ a_formatter y = Some f
    | None => has_formatter y = false
    end.

Lemma matches_only ns w w' d a : only ns w w' → matches w d a → matches w' d a.
Proof.
  intros [_ Ho] (y & Hy & H1 & H2 & H3). destruct (Ho a y Hy) as (y' & Hy' & F1 & F2 & F3 & F4).
  exists y'. split_and!; [done|congruence..|]. destruct (own_formatter d); [|congruence].
  destruct H3 as [H3 H4]. split; [congruence|]. by rewrite F4.
Qed.

(** One appender more. *)
Definition one_more (w : World) (y : LogAppender) (w' : World) : Prop :=
  wf w' ∧ loggers_ w' = loggers_ w ∧ loggers w' = loggers w ∧ appenders w' = appenders w ++ [y].

Lemma one_more_at w y w' : one_more w y w' → appenders w' !! length (appenders w) = Some y.
Proof. intros (_ & _ & _ & ->). by apply list_lookup_middle. Qed.

Lemma one_more_put w y y' w' : one_more w y w' → (is_Some (a_formatter y) → is_Some (a_formatter y')) →
  one_more w y' (set_appenders <[length (appenders w) := y']> w').
Proof.
  intros Ho Hf. pose proof (one_more_at _ _ _ Ho) as Hy. destruct Ho as (H1 & H2 & H3 & H4). split_and!; [|done..|].
  - by eapply calm_put_appender.
  - simpl. rewrite H4. replace (length (appenders w)) with (length (appenders w) + 0) by lia. by rewrite insert_app_r.
Qed.

Lemma one_more_only ns w y w' : one_more w y w' → only ns w w'.
Proof. intros (_ & H2 & H3 & H4). apply only_same_objects; [done..|]. intros a z Hz. rewrite H4. by apply lookup_app_l_Some. Qed.

End operations.

Section listener.
Context {C : Cause} (can_open : bytes → bool) (strftime : bytes → Z → option bytes).

Lemma new_appender_one_more (d : LogAppenderDefine) w : wf w → type_ok d →
  wp (if (type_ d =? 1)%Z then FileLogAppender_new can_open (file_ d)
      else if (type_ d =? 2)%Z then StdoutLogAppender_new else undef null_deref)
    (λ a w', a = length (appenders w) ∧ ∃ t, one_more w (mkAppender t kDebug false None) w' ∧ kind t = kind_of d) w.
Proof.
  intros Hw Hd. unfold kind_of. destruct (type_ d =? 1)%Z eqn:H1.
  - unfold FileLogAppender_new. apply wp_bind. unfold ofstream_open.
    assert (∀ w' st, wf w' → loggers_ w' = loggers_ w → loggers w' = loggers w → appenders w' = appenders w →
      wp (new_appender (mkAppender (FileLogAppender (file_ d) st 0) kDebug false None))
        (λ a w', a = length (appenders w) ∧ ∃ t, one_more w (mkAppender t kDebug false None) w' ∧ kind t = Some (file_ d)) w') as Hn.
    { intros w' st H2 H3 H4 H5. unfold wp, new_appender. simpl. split; [by rewrite H5|].
      exists (FileLogAppender (file_ d) st 0). split; [|done].
      split_and!; [by apply wf_new_appender|done..|]. simpl. by rewrite H5. }
    destruct (can_open (file_ d)); [apply wp_bind, wp_modify, wp_ret|apply wp_ret]; apply Hn; try done. by apply calm_files.
  - assert ((type_ d =? 2)%Z = true) as -> by (destruct Hd; lia).
    unfold wp, StdoutLogAppender_new, new_appender. simpl. split; [done|].
    exists StdoutLogAppender. split; [|done]. split_and!; [by apply wf_new_appender|done..].
Qed.

Lemma configure_appender_touches name l x i d w : wf w → named w name l x → type_ok d →
  wp (configure_appender can_open l i d)
    (λ _, touches name l x (λ x' w', l_level x' = l_level x ∧ ∃ a, appenders_ x' = appenders_ x ++ [a] ∧ matches w' d a) w) w.
Proof.
  intros Hw Hx Hd. unfold configure_appender. apply wp_bind. eapply wp_mono; [by apply new_appender_one_more|].
  intros a w1 (-> & t & H1 & Ht). apply wp_bind. unfold LogAppender_SetLevel.
  apply wp_bind, (wp_appender_at _ _ _ _ (one_more_at _ _ _ H1)), wp_modify. simpl.
  apply (one_more_put _ _ (mkAppender t (d_level d) false None)) in H1; [|done].
  set (w2 := set_appenders _ w1) in *. clearbody w2. clear w1. apply wp_bind.
  eapply (wp_mono _ (λ _ w3, ∃ y, one_more w y w3 ∧ kind (target_ y) = kind_of d ∧ a_level y = d_level d ∧
    match own_formatter d with Some f => has_formatter y = true ∧ a_formatter y = Some f | None => has_formatter y = false end)).
  { unfold own_formatter. case_bool_decide; [apply wp_ret; by exists (mkAppender t (d_level d) false None)|].
    apply wp_bind, wp_make_formatter. intros f out ->. apply wp_modify. fold (printed out w2).
    assert (∀ s, one_more w (mkAppender t (d_level d) false None) (printed s w2)) as Hp.
    { intros s. destruct H1 as (H2 & H3 & H4 & H5). split_and!; [|done..]. by apply (calm_print s w2). }
    destruct (is_error_ f).
    - apply wp_modify. exists (mkAppender t (d_level d) false None). split; [|done].
      destruct (Hp out) as (H2 & H3 & H4 & H5). split_and!; [|done..]. by apply (calm_print _ (printed out w2)).
    - unfold LogAppender_SetFormatter. apply wp_bind, (wp_appender_at _ _ _ _ (one_more_at _ _ _ (Hp out))), wp_modify.
      exists (mkAppender t (d_level d) true (Some f)). split; [by apply (one_more_put _ _ _ _ (Hp out))|done]. }
  intros [] w3 (y & H3 & Hk & Hv & Ho). unfold Logger_AddAppender.
  assert (named w3 name l x) as Hx3. { destruct H3 as (_ & E1 & E2 & _). unfold named. by rewrite E1, E2. }
  destruct (wf_loggers w3 (proj1 H3) l x (proj2 Hx3)) as [Hf Ha _ _].
  apply wp_bind, (wp_logger_at l x); [apply Hx3|]. unfold LogAppender_GetFormatter.
  pose proof (one_more_at _ _ _ H3) as Hy. apply wp_bind, wp_bind, (wp_appender_at _ _ _ _ Hy), wp_ret.
  apply wp_bind, (wp_appender_at _ _ _ _ Hy), wp_bind.
  eapply (wp_mono _ (λ _ w4, ∃ z, one_more w z w4 ∧ is_Some (a_formatter z) ∧ follows y z)).
  { case_bool_decide as Hn.
    - apply wp_modify. exists (set_a_formatter (l_formatter x) y). split; [apply (one_more_put _ _ (set_a_formatter (l_formatter x) y) _ H3); by rewrite Hn; intros [? ?]|].
      split; [done|]. unfold follows. split_and!; [done..|]. destruct (own_formatter d); [|congruence]. destruct Ho. congruence.
    - apply wp_ret. exists y. split; [done|]. split; [by apply not_eq_None_Some|reflexivity]. }
  intros [] w4 (z & H4 & Hz & F1 & F2 & F3 & F4).
  assert (named w4 name l x) as Hx4. { destruct H4 as (_ & E1 & E2 & _). unfold named. by rewrite E1, E2. }
  pose proof (one_more_at _ _ _ H4) as Hz4. destruct (wf_loggers w4 (proj1 H4) l x (proj2 Hx4)) as [_ Ha4 _ _].
  eapply wp_mono; [apply (touches_put name l x _ (λ x' w', l_level x' = l_level x ∧
    ∃ a, appenders_ x' = appenders_ x ++ [a] ∧ matches w' d a) w4); [apply H4|done..| |]|].
  - simpl. apply Forall_app. split; [done|]. constructor; [|constructor]. by exists z.
  - split; [done|]. eexists. split; [done|]. exists z. simpl. split; [done|]. split; [congruence|]. split; [congruence|].
    destruct (own_formatter d); [|congruence]. destruct Ho as [Ho1 Ho2]. split; [congruence|]. by rewrite F4.
  - intros [] w5 (W5 & O5 & R5). split; [done|]. split; [|done]. apply (only_same name _ w4); [|done].
    by eapply one_more_only.
Qed.

Lemma configure_appenders_touches name l x i ds w : wf w → named w name l x → Forall type_ok ds →
  wp (configure_appenders can_open l i ds)
    (λ _, touches name l x (λ x' w', l_level x' = l_level x ∧
       ∃ ids, appenders_ x' = appenders_ x ++ ids ∧ Forall2 (matches w') ds ids) w) w.
Proof.
  intros Hw Hx Hds. revert x w Hw Hx. induction Hds as [|d ds Hd _ IH]; intros x w Hw Hx; cbn [configure_appenders].
  { apply wp_ret. split; [done|]. split; [apply only_refl|]. exists x. split_and!; [done..|]. exists [].
    by rewrite app_nil_r. }
  apply wp_bind. eapply wp_mono; [by apply configure_appender_touches|].
  intros [] w1 (W1 & O1 & x1 & X1 & N1 & R1 & L1 & a & A1 & M1).
  eapply wp_mono; [by apply IH|]. intros [] w2 (W2 & O2 & x2 & X2 & N2 & R2 & L2 & ids & A2 & M2).
  split; [done|]. split; [by eapply only_same|]. exists x2. split_and!; [done|congruence..|].
  exists (a :: ids). split; [by rewrite A2, A1, <- app_assoc|]. constructor; [by eapply matches_only|done].
Qed.

(** What the configuration wants of a logger. *)
Definition configured (w : World) (i : LogDefine) : Prop :=
  ∃ l x, named w (d_name i) l x ∧ l_level x = ld_level i ∧ Forall2 (matches w) (d_appenders i) (appenders_ x).
Definition silenced (w : World) (name : bytes) : Prop :=
  ∃ l x, named w name l x ∧ l_level x = kUnknown ∧ appenders_ x = [].

Lemma configured_only ns w w' i : only ns w w' → (d_name i ∉ ns) → configured w i → configured w' i.
Proof.
  intros Ho Hn (l & x & Hx & H1 & H2). exists l, x. split_and!; [by apply Ho|done|].
  eapply Forall2_impl; [done|]. intros d a. by apply matches_only with ns.
Qed.

Lemma silenced_only ns w w' n : only ns w w' → (n ∉ ns) → silenced w n → silenced w' n.
Proof. intros Ho Hn (l & x & Hx & H1). exists l, x. split; [by apply Ho|done]. Qed.

Lemma configure_ok i w : wf w → Forall type_ok (d_appenders i) →
  wp (configure can_open i) (λ _ w', wf w' ∧ only [d_name i] w w' ∧ configured w' i) w.
Proof.
  intros Hw Hd. unfold configure. apply wp_bind. eapply wp_mono; [by apply GetLogger_spec|].
  intros l w1 (W1 & O1 & x & X1). apply wp_bind. eapply wp_mono; [by apply (SetLevel_touches (d_name i) l x)|].
  intros [] w2 (W2 & O2 & x2 & X2 & _ & _ & L2 & A2). apply wp_bind.
  eapply (wp_mono _ (λ _, touches (d_name i) l x2 (λ x' _, l_level x' = l_level x2 ∧ appenders_ x' = appenders_ x2) w2)).
  { case_bool_decide; [|by apply SetFormatter_text_touches]. apply wp_ret. split; [done|]. split; [apply only_refl|]. by exists x2. }
  intros [] w3 (W3 & O3 & x3 & X3 & _ & _ & L3 & A3). apply wp_bind.
  eapply wp_mono; [by apply (Clear_touches (d_name i) l x3)|].
  intros [] w4 (W4 & O4 & x4 & X4 & _ & _ & L4 & A4).
  eapply wp_mono; [by apply (configure_appenders_touches (d_name i) l x4)|].
  intros [] w5 (W5 & O5 & x5 & X5 & _ & _ & L5 & ids & A5 & M5). split; [done|]. split.
  - eauto 6 using only_same.
  - exists l, x5. split; [done|]. split; [congruence|]. rewrite A5, A4. done.
Qed.

Lemma silence_ok i w : wf w → wp (silence i) (λ _ w', wf w' ∧ only [d_name i] w w' ∧ silenced w' (d_name i)) w.
Proof.
  intros Hw. unfold silence. apply wp_bind. eapply wp_mono; [by apply GetLogger_spec|].
  intros l w1 (W1 & O1 & x & X1). apply wp_bind. eapply wp_mono; [by apply (SetLevel_touches (d_name i) l x)|].
  intros [] w2 (W2 & O2 & x2 & X2 & _ & _ & L2 & A2).
  eapply wp_mono; [by apply (Clear_touches (d_name i) l x2)|].
  intros [] w3 (W3 & O3 & x3 & X3 & _ & _ & L3 & A3). split; [done|]. split.
  - eauto 6 using only_same.
  - exists l, x3. split; [done|]. split; [congruence|done].
Qed.

Lemma configure_all_ok old l w : wf w → NoDup (d_name <$> l) → Forall (λ i, Forall type_ok (d_appenders i)) l →
  wp (configure_all can_open old l) (λ _ w', wf w' ∧ only (d_name <$> l) w w' ∧
    ∀ i, i ∈ l → changed old i = true → configured w' i) w.
Proof.
  intros Hw Hnd Hl. revert w Hw Hnd. induction Hl as [|i l Hi _ IH]; intros w Hw Hnd; cbn [configure_all].
  { apply wp_ret. split_and!; [done|apply only_refl|]. by intros i ?%elem_of_nil. }
  rewrite fmap_cons in Hnd. apply NoDup_cons in Hnd as [Hni Hnd]. apply wp_bind.
  eapply (wp_mono _ (λ _ w', wf w' ∧ only [d_name i] w w' ∧ (changed old i = true → configured w' i))).
  { destruct (changed old i); [|by apply wp_ret; split_and!; [|apply only_refl|]].
    eapply wp_mono; [by apply configure_ok|]. naive_solver. }
  intros [] w1 (W1 & O1 & C1). eapply wp_mono; [by apply IH|]. intros [] w2 (W2 & O2 & C2).
  split; [done|]. split; [rewrite fmap_cons; by apply (only_trans [d_name i] (d_name <$> l) _ w1)|].
  intros j [->|Hj]%elem_of_cons Hc; [|by apply C2]. eapply configured_only; [done|done|by apply C1].
Qed.

Lemma silence_all_ok new l w : wf w →
  wp (silence_all new l) (λ _ w', wf w' ∧ only (d_name <$> filter (λ i, removed new i = true) l) w w' ∧
    ∀ i, i ∈ l → removed new i = true → silenced w' (d_name i)) w.
Proof.
  revert w. induction l as [|i l IH]; intros w Hw; cbn [silence_all].
  { apply wp_ret. split_and!; [done|apply only_refl|]. by intros i ?%elem_of_nil. }
  apply wp_bind. destruct (removed new i) eqn:Hr.
  - eapply wp_mono; [by apply silence_ok|]. intros [] w1 (W1 & O1 & S1).
    eapply wp_mono; [by apply IH|]. intros [] w2 (W2 & O2 & S2). split; [done|].
    rewrite filter_cons_True by done. rewrite fmap_cons.
    split; [by apply (only_trans [d_name i] _ _ w1)|].
    intros j [->|Hj]%elem_of_cons Hc; [|by apply S2].
    destruct (decide (d_name i ∈ d_name <$> filter (λ i, removed new i = true) l)) as [Hin|Hin].
    + apply list_elem_of_fmap in Hin as (k & Hk & [Hr' Hkl]%list_elem_of_filter). rewrite Hk. by apply S2.
    + by eapply silenced_only.
  - apply wp_ret. eapply wp_mono; [by apply IH|]. intros [] w2 (W2 & O2 & S2). split; [done|].
    rewrite filter_cons_False by congruence. split; [done|].
    intros j [->|Hj]%elem_of_cons Hc; [congruence|by apply S2].
Qed.

(** The definitions of a set have different names, and its [find] goes by the name. *)
Lemma define_names l : ascending l → NoDup (d_name <$> l).
Proof.
  induction 1 as [|i l _ IH Hl]; [constructor|]. rewrite fmap_cons. constructor; [|done].
  intros (j & Hj & Hjl)%list_elem_of_fmap. rewrite Forall_forall in Hl. destruct (Hl j Hjl) as [H _].
  unfold less, define_less in H. by rewrite Hj, string_less_irrefl in H.
Qed.

Lemma removed_name new i : removed new i = true → d_name i ∉ d_name <$> set_list new.
Proof.
  unfold removed. intros Hr%bool_decide_eq_true (j & Hj & Hjl)%list_elem_of_fmap. unfold set_find in Hr.
  apply fmap_None in Hr. apply (list_find_None _ _) in Hr. rewrite Forall_forall in Hr. apply (Hr j Hjl).
  unfold less, define_less. by rewrite Hj, string_less_irrefl.
Qed.

(** What the listener does, except where it logs the change with a time that does not
    fit. *)
Lemma on_change_ok ev old new w : wf w → ascending (set_list new) → Forall (λ i, Forall type_ok (d_appenders i)) (set_list new) →
  (time_overflows strftime w (time_ ev) → cause) →
  wp (on_change can_open strftime ev old new) (λ _ w', wf w' ∧
     (∀ i, i ∈ set_list new → changed old i = true → configured w' i) ∧
     ∀ i, i ∈ set_list old → removed new i = true → silenced w' (d_name i)) w.
Proof.
  intros Hw Ha Ht Hcause. unfold on_change. apply wp_bind, wp_GetRoot, wp_bind.
  destruct (wf_map w Hw _ _ (wf_main w Hw)) as (r & Hr & _).
  eapply (wp_mono _ (λ _ w1, wf w1)).
  { unfold YGW_LOG_LEVEL. apply wp_bind, (wp_logger_at _ r); [done|].
    destruct (level_ge _ _); [|by apply wp_ret]. eapply wp_mono; [apply Log_ok; [done|by eapply lookup_lt_Some|done]|].
    by intros [] w1 [[? _] _]. }
  intros [] w1 W1. apply wp_bind. eapply wp_mono; [apply configure_all_ok; [done|by apply define_names|done]|].
  intros [] w2 (W2 & O2 & C2). eapply wp_mono; [by apply silence_all_ok|]. intros [] w3 (W3 & O3 & S3).
  split_and!; [done| |done]. intros i Hi Hch. eapply configured_only; [done| |by apply C2].
  intros (j & Hj & [Hjr Hjl]%list_elem_of_filter)%list_elem_of_fmap. apply (removed_name new j Hjr).
  rewrite <- Hj. apply list_elem_of_fmap. by exists i.
Qed.
End listener.

(** When the variable changes, the loggers follow: every definition that is new
    or differs from the old one ends up with a logger under its name, at its level and
    with exactly its appenders in order, each of the kind, file and level it says and
    with its own formatter when that is valid; every name that went away loses its level
    and its appenders; and no null pointer is read on the way.  It is undefined only if the
    time of the message about the change does not fit where an appender prints it. *)
Theorem loggers_follow_config can_open strftime ev old new w : wf w → ascending (set_list new) →
  Forall (λ i, Forall type_ok (d_appenders i)) (set_list new) →
  (∃ w', on_change can_open strftime ev old new w = Ret tt w' ∧ wf w' ∧
     (∀ i, i ∈ set_list new → changed old i = true → configured w' i) ∧
     ∀ i, i ∈ set_list old → removed new i = true → silenced w' (d_name i)) ∨
  on_change can_open strftime ev old new w = Undef uninitialised ∧ time_overflows strftime w (time_ ev).
Proof.
  intros Hw Ha Ht. pose proof (on_change_ok (C := time_overflows strftime w (time_ ev)) can_open strftime ev old new w Hw Ha Ht id) as Hc.
  unfold wp in Hc. destruct (on_change can_open strftime ev old new w) as [[] w'|e w'|u|]; [left; by exists w'|done| |done].
  right. by destruct Hc as [-> ?].
Qed.

(** ** What the conversion gives *)

Section conversion.
Context `{Y : Yaml} `{YF : !YamlFields Y}.

Lemma appender_from_type level n a : appender_from level n = Some (Some a) → type_ok a ∧ d_level a = level.
Proof.
  unfold appender_from, type_ok. destruct (opt_string n (bs "type")) as [[type|]|]; simpl; [|done..].
  case_bool_decide.
  - destruct (opt_string n (bs "file")) as [[file|]|]; simpl; [|done..].
    destruct (opt_string n (bs "formatter")) as [f|]; simpl; [|done]. intros [= <-]. auto.
  - case_bool_decide; [|done]. destruct (opt_string n (bs "formatter")) as [f|]; simpl; [|done]. intros [= <-]. auto.
Qed.

(** Whatever the text, the appenders of a definition read from it are files or
    the standard output, and their level is that of the logger: the level written
    under an appender, which the conversion to text emits, is not read. *)
Theorem define_from_string_levels v d : define_from_string v = Some d →
  Forall (λ a, type_ok a ∧ d_level a = ld_level d) (d_appenders d).
Proof.
  unfold define_from_string. intros (n & _ & (nm & _ & (name & _ & (lv & _ & (f & _ & (apps & _ & Hd)%bind_Some)%bind_Some)%bind_Some)%bind_Some)%bind_Some)%bind_Some.
  apply bind_Some in Hd as (l & Hl & [= <-]). cbn [d_appenders ld_level].
  assert (∀ o, o ∈ l → ∀ a, o = Some a → type_ok a ∧ d_level a = LogLevel.FromString (default [] lv)) as Ho.
  { intros o Ho a ->. destruct apps as [m|]; [|injection Hl as <-; by apply elem_of_nil in Ho].
    apply mapM_Some_1 in Hl. apply list_elem_of_lookup in Ho as [k Hk].
    destruct (Forall2_lookup_r _ _ _ _ _ Hl Hk) as (x & _ & Hx). by eapply appender_from_type. }
  apply Forall_forall. intros a (o & Hin & Ha)%list_elem_of_omap. by eapply Ho.
Qed.

(** The order of names. *)

Lemma set_insert_ascending (x : LogDefine) l : ascending l → ascending (set_insert x l) ∧ ∀ y, y ∈ set_insert x l → y = x ∨ y ∈ l.
Proof.
  induction 1 as [|y l Hl IH Hy]; simpl.
  { split; [repeat constructor|]. intros y Hy. apply list_elem_of_singleton in Hy. by left. }
  destruct (less x y) eqn:Hxy.
  { split; [|set_solver]. constructor; [by constructor|]. constructor.
    - split; [done|]. by apply string_less_asym.
    - eapply Forall_impl; [done|]. intros z [Hz _]. assert (less x z = true) by (by eapply string_less_trans).
      split; [done|by apply string_less_asym]. }
  destruct (less y x) eqn:Hyx; [|split; [by constructor|set_solver]].
  destruct IH as [IH1 IH2]. split.
  - constructor; [done|]. apply Forall_forall. intros z [->|Hz]%IH2.
    + split; [done|by apply string_less_asym].
    + rewrite Forall_forall in Hy. by apply Hy.
  - intros z [->|Hz]%elem_of_cons; [set_solver|]. apply IH2 in Hz. set_solver.
Qed.

Lemma set_inserts_ascending l acc : ascending acc →
  ascending (foldl (λ s x, set_insert x s) acc l) ∧ ∀ y : LogDefine, y ∈ foldl (λ s x, set_insert x s) acc l → y ∈ acc ∨ y ∈ l.
Proof.
  revert acc. induction l as [|x l IH]; intros acc Ha; simpl; [split; [done|set_solver]|].
  destruct (set_insert_ascending x acc Ha) as [H1 H2]. destruct (IH _ H1) as [H3 H4]. split; [done|].
  intros y [Hy|Hy]%H4; [apply H2 in Hy; set_solver|set_solver].
Qed.

Lemma defines_from_string v s : from_string (T := set_of LogDefine) v = Some s →
  ascending (set_list s) ∧ Forall (λ i, Forall type_ok (d_appenders i)) (set_list s).
Proof.
  simpl. intros (n & _ & (l & Hl & [= <-])%bind_Some)%bind_Some. simpl.
  destruct (set_inserts_ascending l []) as [H1 H2]; [constructor|]. split; [done|].
  apply Forall_forall. intros i [Hi|Hi]%H2; [by apply elem_of_nil in Hi|].
  unfold cast_elements in Hl. apply mapM_Some_1 in Hl. apply list_elem_of_lookup in Hi as [k Hk].
  destruct (Forall2_lookup_r _ _ _ _ _ Hl Hk) as (x & _ & Hx). apply define_from_string_levels in Hx.
  eapply Forall_impl; [done|]. by intros a [? _].
Qed.

(** ** The variable with its listener *)

(** Variables whose values are sets of definitions. *)
#[local] Instance log_types : Types := {|
  ty := unit; interp _ := set_of LogDefine; ty_cast _ := cast_set; ty_eqb _ := defines_eqb |}.

(** [g_log_defines] with the listener of [LogIniter], found at [p]. *)
Definition log_var can_open strftime ev (v : set_of LogDefine) : Var World :=
  mkAny (tt : ty) (mkVar (bs "logs") (bs "logs config") v [(1%Z, on_change can_open strftime ev)]).

Lemma define_eqb_same i j : d_name i = d_name j → ld_level i = ld_level j → ld_formatter i = ld_formatter j → define_eqb i j = true.
Proof.
  intros H1 H2 H3. unfold define_eqb. rewrite !bool_decide_true by done. simpl.
  generalize (d_appenders i). intros l. induction l as [|a l IH]; [done|]. simpl. rewrite IH.
  unfold appender_eqb. by rewrite Z.eqb_refl, !bool_decide_true by done.
Qed.

Context (can_open : bytes → bool) (strftime : bytes → Z → option bytes) (ev : LogEvent).

(** The comparison of definitions compares the appenders with themselves, so a
    new value that differs in appenders only is taken for the old one: it is not
    stored and the loggers stay as they are. *)
Theorem appender_changes_ignored (c : Config World) p old new :
  vars c !! p = Some (log_var can_open strftime ev old) →
  Forall2 (λ i j, d_name i = d_name j ∧ ld_level i = ld_level j ∧ ld_formatter i = ld_formatter j) (set_list new) (set_list old) →
  SetValue p tt new c = Ret tt c.
Proof.
  intros Hp Hs. unfold SetValue. erewrite bind_Ret by (by apply var_at_typed). simpl.
  assert (defines_eqb new old = true) as ->; [|done]. unfold defines_eqb.
  induction Hs as [|i j l1 l2 (H1 & H2 & H3) _ IH]; [done|]. simpl. by rewrite define_eqb_same, IH.
Qed.

(** C19: Any text given to the variable leaves the program in order.  Text that does not
    convert changes nothing, nor does a value that the comparison of definitions takes for
    the present one; that comparison looks at names, levels and formatters, but compares the
    appenders with themselves ([appender_changes_ignored]).  Any other value is stored; each
    definition in it that is new, or differs from its old one for that comparison, then has
    its logger with its level and its appenders; and a logger whose definition is gone has no
    level and no appenders any more, so that its messages go to the main logger
    ([silenced_forwards]).  The one exception is that the time of the message about the
    change does not fit the 64 bytes it is printed into, in a time format that an appender
    has: then the change is undefined. *)
Theorem log_config_applies (c : Config World) p old s :
  vars c !! p = Some (log_var can_open strftime ev old) → wf (world c) →
  FromString p tt s c = Undef uninitialised ∧ time_overflows strftime (world c) (time_ ev) ∨
  ∃ c', FromString p tt s c = Ret false c' ∧ wf (world c') ∧
    match from_string (T := set_of LogDefine) s with
    | None => c' = c
    | Some new =>
        if defines_eqb new old then c' = c
        else vars c' !! p = Some (log_var can_open strftime ev new) ∧
          (∀ i, i ∈ set_list new → changed old i = true → configured (world c') i) ∧
          ∀ i, i ∈ set_list old → removed new i = true → silenced (world c') (d_name i)
    end.
Proof.
  intros Hp Hw. unfold FromString. cbn [interp ty_cast log_types].
  destruct (from_string s) as [new|] eqn:Hs; [|right; by exists c].
  unfold SetValue, mbind, M_bind. rewrite (var_at_typed p _ c _ Hp). cbn [ty_eqb log_types val_].
  destruct (defines_eqb new old); [right; by exists c|].
  destruct (defines_from_string s new Hs) as [Ha Ht].
  cbn [call_listeners cbs_]. unfold mbind, M_bind, in_world.
  destruct (loggers_follow_config can_open strftime ev old new (world c) Hw Ha Ht) as [(w' & -> & Hw' & Hc & Hsil)|[-> Ho]]; [|by left].
  right. eexists. split; [reflexivity|]. split; [done|]. split_and!; [|done..].
  simpl. rewrite list_lookup_insert_eq; [done|]. by eapply lookup_lt_Some.
Qed.
End conversion.

(** A logger that the configuration no longer names is not off: whatever the
    level, its messages go to the main logger. *)
Theorem silenced_forwards can_open strftime w l x level e : wf w → loggers w !! l = Some x →
  l_level x = kUnknown → appenders_ x = [] → l_root x = Some (root_ w) →
  Log can_open strftime l level e w = Log can_open strftime (root_ w) level e w.
Proof.
  intros Hw Hx Hv Ha Hr. destruct (wf_map w Hw _ _ (wf_main w Hw)) as (r & Hroot & _).
  destruct (wf_loggers w Hw _ r Hroot) as [_ _ Hrr _]. specialize (Hrr eq_refl). unfold Log.
  cbn [Logger_Log]. erewrite bind_Ret by (unfold logger_at; by rewrite Hx). rewrite Hv, Ha, Hr. simpl.
  erewrite !bind_Ret by (unfold logger_at; by rewrite Hroot). by rewrite Hrr.
Qed.

(** ** Witnesses *)

#[local] Instance tree_fields : YamlFields TreeYaml.yaml := {|
  field n key := Some (snd <$> (snd <$> list_find (λ p, Scalar (Yaml := TreeYaml.yaml) p.1 = key) (pairs (Yaml := TreeYaml.yaml) n)));
  as_string n := match n with GenLeaf s => Some s | _ => None end;
  text_node := GenLeaf |}.
#[local] Existing Instances TreeYaml.yaml log_types.

Definition to_file : LogDefine := mkDefine (bs "app") kWarn [] [mkAppenderDefine 1 kWarn (bs "%m%n") (bs "a.log")].
Definition to_stdout : LogDefine := mkDefine (bs "system") kInfo (bs "%m") [mkAppenderDefine 2 kInfo [] []].
Definition ev0 : LogEvent := sample_event 5 (bs "on_logger_conf_changed").

Lemma loggers_follow_config_witness :
  let old := mkSet [to_stdout] in
  let new := mkSet [to_file] in
  let r := on_change (λ _, true) clock ev0 old new (new_world ∅) in
  (∃ w', r = Ret tt w' ∧ wf w' ∧ (∀ i, i ∈ set_list new → changed old i = true → configured w' i) ∧
     ∀ i, i ∈ set_list old → removed new i = true → silenced w' (d_name i)) ∨
  r = Undef uninitialised ∧ time_overflows clock (new_world ∅) (time_ ev0).
Proof.
  apply loggers_follow_config; [|repeat constructor..].
  apply (LoggerManager_new_wf ∅). apply LoggerManager_new_world.
Defined.

(** The text of a definition, as the library prints it, is read back but for the
    level of its appender. *)
Definition sample_text : bytes := default [] (define_to_string (mkDefine (bs "app") kWarn [] [mkAppenderDefine 1 kDebug (bs "%m%n") (bs "a.log")])).

Lemma define_from_string_levels_witness :
  define_from_string sample_text = Some to_file ∧ Forall (λ a, type_ok a ∧ d_level a = kWarn) (d_appenders to_file).
Proof.
  assert (define_from_string sample_text = Some to_file) as H by (vm_compute; reflexivity).
  split; [exact H|]. exact (define_from_string_levels sample_text to_file H).
Defined.

Definition log_config : Config World :=
  mkConfig {[bs "logs" := 0]} [log_var (λ _, true) clock ev0 (mkSet [to_file])] (λ _, 1%Z) (new_world ∅) ∅.

Lemma appender_changes_ignored_witness :
  let muted := mkDefine (bs "app") kWarn [] [] in
  SetValue 0 (tt : ty) (mkSet [muted]) log_config = Ret tt log_config.
Proof.
  apply (appender_changes_ignored (λ _, true) clock ev0 log_config 0 (mkSet [to_file])); [reflexivity|]. by repeat constructor.
Defined.

Lemma log_config_applies_witness :
  let s := default [] (to_string (mkSet [to_file; to_stdout])) in
  FromString 0 (tt : ty) s log_config = Undef uninitialised ∧ time_overflows clock (world log_config) (time_ ev0) ∨
  ∃ c', FromString 0 (tt : ty) s log_config = Ret false c' ∧ wf (world c') ∧
    match from_string (T := set_of LogDefine) s with
    | None => c' = log_config
    | Some new =>
        if defines_eqb new (mkSet [to_file]) then c' = log_config
        else vars c' !! 0 = Some (log_var (λ _, true) clock ev0 new) ∧
          (∀ i, i ∈ set_list new → changed (mkSet [to_file]) i = true → configured (world c') i) ∧
          ∀ i, i ∈ set_list (mkSet [to_file]) → removed new i = true → silenced (world c') (d_name i)
    end.
Proof.
  apply log_config_applies; [reflexivity|]. apply (LoggerManager_new_wf ∅). apply LoggerManager_new_world.
Defined.

(** A manager whose second logger was silenced. *)
Definition silenced_world : World :=
  mkWorld (<[bs "system" := 1]> {[bs "root" := 0]}) 0
    [mkLogger (bs "root") kDebug [0] (Some default_formatter) None;
     mkLogger (bs "system") kUnknown [] (Some default_formatter) (Some 0)]
    [mkAppender StdoutLogAppender kDebug false (Some default_formatter)] ∅ [].

Lemma silenced_wf : wf silenced_world.
Proof.
  split.
  - intros [|[|l]] x [= <-].
    + split; [by eexists| |done|by left]. repeat constructor. by repeat eexists.
    + split; [by eexists|constructor|done|by right].
  - intros n l. simpl. rewrite lookup_insert_Some, lookup_singleton_Some.
    intros [[<- <-]|(_ & <- & <-)]; by eexists.
  - simpl. by rewrite lookup_insert_ne, lookup_singleton_eq by done.
Qed.

Lemma silenced_forwards_witness :
  Log (λ _, true) clock 1 kDebug ev0 silenced_world = Log (λ _, true) clock 0 kDebug ev0 silenced_world.
Proof.
  apply (silenced_forwards (λ _, true) clock silenced_world 1 _ kDebug ev0 silenced_wf eq_refl); reflexivity.
Defined.
