(* ===== verification/ServerConf.v ===== *)
(** * The configuration of a server: [TcpServerConf] of [tcp_server.h]

    Its comparison and its conversions from and to YAML, over the interface of
    [Config.v] with the fields of [LogConfig.v]. *)
From stdpp Require Import list countable.
From S2P Require Import Prelude Strings CLib Util Config ConfigLaws LogFormatter LogConfig.
Local Open Scope Z_scope.

(** ** Data *)

Record TcpServerConf := mkConf {
  address : list bytes; keepalive : Z; timeout : Z; ssl : Z; id_ : bytes; type : bytes; name : bytes;
  cert_file : bytes; key_file : bytes; accept_worker : bytes; io_worker : bytes; process_worker : bytes;
  args : map_of bytes }.

Definition new_TcpServerConf : TcpServerConf := mkConf [] 0 (1000 * 2 * 60) 0 [] (bs "tcp") [] [] [] [] [] [] (mkMap []).

Definition IsValid (c : TcpServerConf) : bool := bool_decide (address c ≠ []).

Definition conf_eqb (a oth : TcpServerConf) : bool :=
  bool_decide (address a = address oth) && (keepalive a =? keepalive oth) && (timeout a =? timeout oth) &&
  bool_decide (name a = name oth) && (ssl a =? ssl oth) && bool_decide (cert_file a = cert_file oth) && bool_decide (key_file a = key_file oth) &&
  bool_decide (accept_worker a = accept_worker oth) && bool_decide (io_worker a = io_worker oth) && bool_decide (process_worker a = process_worker oth) &&
  bool_decide (map_list (args a) = map_list (args oth)) && bool_decide (id_ a = id_ oth) && bool_decide (type a = type oth).

(** ** Conversions *)

(** [as<int>] ([None]: it throws, and [as<int>(fallback)] is the fallback). *)
Class YamlInts (Y : Yaml) := { as_int : Node → option Z }.

Section cast.
Context `{Y : Yaml} `{YF : !YamlFields Y} `{YI : !YamlInts Y}.

(** [node[key].as<std::string>(fallback)], the same for [int], and without a fallback. *)
Definition string_or (n : Node) (key fallback : bytes) : option bytes :=
  o ← field n key; Some (match o with Some m => default fallback (as_string m) | None => fallback end).
Definition int_or (n : Node) (key : bytes) (fallback : Z) : option Z :=
  o ← field n key; Some (match o with Some m => default fallback (as_int m) | None => fallback end).
Definition string_of (n : Node) (key : bytes) : option bytes := o ← field n key; m ← o; as_string m.

(** [LexicalCast<std::string, TcpServerConf>] *)
Definition conf_from_string (v : bytes) : option TcpServerConf :=
  node ← Load v;
  let conf := new_TcpServerConf in
  id' ← string_or node (bs "id") (id_ conf);
  type' ← string_or node (bs "type") (type conf);
  keepalive' ← int_or node (bs "keepalive") (keepalive conf);
  timeout' ← int_or node (bs "timeout") (timeout conf);
  name' ← string_or node (bs "name") (name conf);
  ssl' ← int_or node (bs "ssl") (ssl conf);
  cert_file' ← string_or node (bs "cert_file") (cert_file conf);
  key_file' ← string_or node (bs "key_file") (key_file conf);
  accept_worker' ← string_of node (bs "accept_worker");
  io_worker' ← string_of node (bs "io_worker");
  process_worker' ← string_of node (bs "process_worker");
  args_text ← string_or node (bs "args") [];
  args' ← from_string args_text;
  a ← field node (bs "address");
  address' ← match a with Some m => mapM as_string (elements m) | None => Some [] end;
  Some (mkConf address' keepalive' timeout' ssl' id' type' name' cert_file' key_file' accept_worker' io_worker' process_worker' args').

(** [LexicalCast<TcpServerConf, std::string>] *)
Definition conf_fields (conf : TcpServerConf) (args_node : Node) : list (bytes * Node) :=
  [(bs "id", text_node (id_ conf)); (bs "type", text_node (type conf)); (bs "name", text_node (name conf));
    (bs "keepalive", text_node (signed_dec (keepalive conf))); (bs "timeout", text_node (signed_dec (timeout conf)));
    (bs "ssl", text_node (signed_dec (ssl conf))); (bs "cert_file", text_node (cert_file conf)); (bs "key_file", text_node (key_file conf));
    (bs "accept_worker", text_node (accept_worker conf)); (bs "io_worker", text_node (io_worker conf));
    (bs "process_worker", text_node (process_worker conf)); (bs "args", args_node)].
Definition conf_node (conf : TcpServerConf) (args_node : Node) : Node :=
  Mapping (conf_fields conf args_node ++
    match address conf with [] => [] | l => [(bs "address", Sequence (map text_node l))] end).
Definition conf_to_string (conf : TcpServerConf) : option bytes :=
  text ← to_string (args conf); args_node ← Load text; Some (print_node (conf_node conf args_node)).

#[export] Instance cast_conf : LexicalCast TcpServerConf := {| from_string := conf_from_string; to_string := conf_to_string |}.
End cast.

(** ** Laws *)

(** Fields of a mapping, the kinds of nodes, numbers that are printed, and the empty text. *)
Class YamlFieldLaws (Y : Yaml) {YF : YamlFields Y} {YI : YamlInts Y} := {
  field_there l k v : NoDup l.*1 → (k, v) ∈ l → field (Mapping l) k = Some (Some v);
  field_missing l k : k ∉ l.*1 → field (Mapping l) k = Some None;
  text_as s : as_string (text_node s) = Some s;
  mapping_as l : as_string (Mapping l) = None;
  int_as z : in_s 32 z → as_int (text_node (signed_dec z)) = Some z;
  load_empty : ∃ n, Load [] = Some n ∧ pairs n = [] }.

Section laws.
Context `{Y : Yaml} `{YL : !YamlLaws Y} {YF : YamlFields Y} {YI : YamlInts Y} `{FL : !YamlFieldLaws Y}.

(** The texts of a configuration. *)
Definition texts (c : TcpServerConf) : list bytes :=
  [id_ c; type c; name c; signed_dec (keepalive c); signed_dec (timeout c); signed_dec (ssl c); cert_file c; key_file c;
   accept_worker c; io_worker c; process_worker c] ++ address c.

(** What can be written as YAML: texts that are read back, numbers that fit, and a map. *)
Record printable (c : TcpServerConf) : Prop := {
  pr_texts : Forall (λ s, sound (text_node s)) (texts c);
  pr_ints : in_s 32 (keepalive c) ∧ in_s 32 (timeout c) ∧ in_s 32 (ssl c);
  pr_args : keys_ascending (map_list (args c)) ∧ Forall (λ p, stable p.2) (map_list (args c)) }.

Definition set_args (m : map_of bytes) (c : TcpServerConf) : TcpServerConf :=
  mkConf (address c) (keepalive c) (timeout c) (ssl c) (id_ c) (type c) (name c) (cert_file c) (key_file c) (accept_worker c) (io_worker c) (process_worker c) m.

Lemma conf_nodup (c : TcpServerConf) n : NoDup ((conf_fields c n ++ match address c with [] => [] | l => [(bs "address", Sequence (map text_node l))] end).*1).
Proof. destruct (address c); cbn [conf_fields fmap list_fmap app fst]; apply (bool_decide_unpack _); by vm_compute. Qed.

Lemma args_node_ok (c : TcpServerConf) : printable c → ∃ l, to_string (args c) = Some (print_node (Mapping l)) ∧ sound (Mapping l).
Proof.
  intros [_ _ [Ha Hs]]. destruct (stable_pairs _ Hs) as (l & Hl & Hsound & Hk & _). exists l. cbn. rewrite Hl. split; [done|].
  apply mapping_sound; [rewrite Hk; by apply keys_nodup|done].
Qed.

Lemma as_strings l : mapM as_string (map text_node l) = Some l.
Proof. induction l as [|s l IH]; [done|]. cbn [map]. by rewrite mapM_Some_cons, text_as, IH. Qed.

(** ** Properties *)

Lemma conf_sound (c : TcpServerConf) n : Forall (λ s, sound (text_node s)) (texts c) → sound n → sound (conf_node c n).
Proof.
  unfold texts. rewrite Forall_app, !Forall_cons. intros [(?&?&?&?&?&?&?&?&?&?&?&_) Hta] Hn. apply mapping_sound; [apply conf_nodup|].
  rewrite fmap_app. apply Forall_app. split; [by repeat constructor|]. destruct (address c) as [|a r]; [done|]. constructor; [|done].
  apply sequence_sound. by apply Forall_map.
Qed.

Lemma conf_field (c : TcpServerConf) n k v : (k, v) ∈ conf_fields c n → field (conf_node c n) k = Some (Some v).
Proof. intros Hin. apply field_there; [apply conf_nodup|]. apply elem_of_app. by left. Qed.

Lemma conf_address (c : TcpServerConf) n : ∃ a, field (conf_node c n) (bs "address") = Some a ∧
  match a with Some m => mapM as_string (elements m) | None => Some [] end = Some (address c).
Proof.
  unfold conf_node. pose proof (conf_nodup c n) as Hnd. destruct (address c) as [|a r].
  - exists None. split; [|done]. apply field_missing. rewrite app_nil_r. cbn [conf_fields fmap list_fmap fst]. apply (bool_decide_unpack _). by vm_compute.
  - eexists. split; [apply field_there; [done|]; apply elem_of_app; right; by left|]. cbn beta iota. by rewrite elements_sequence, as_strings.
Qed.

Lemma read_back (c : TcpServerConf) l : printable c → sound (Mapping l) → conf_from_string (print_node (conf_node c (Mapping l))) = Some (set_args (mkMap []) c).
Proof.
  intros [Ht (Hk & Hti & Hss) _] Hl. unfold conf_from_string. rewrite load_print by (by apply conf_sound). cbn [mbind option_bind].
  unfold string_or, int_or, string_of.
  assert (∀ k v, (k, v) ∈ conf_fields c (Mapping l) → field (conf_node c (Mapping l)) k = Some (Some v)) as Hf by (intros; by apply conf_field).
  unfold conf_fields in Hf. destruct (conf_address c (Mapping l)) as (a & Ha & Hm). set (n := conf_node c (Mapping l)) in *. clearbody n.
  rewrite (Hf (bs "id") (text_node (id_ c))), (Hf (bs "type") (text_node (type c))), (Hf (bs "keepalive") (text_node (signed_dec (keepalive c)))),
    (Hf (bs "timeout") (text_node (signed_dec (timeout c)))), (Hf (bs "name") (text_node (name c))), (Hf (bs "ssl") (text_node (signed_dec (ssl c)))),
    (Hf (bs "cert_file") (text_node (cert_file c))), (Hf (bs "key_file") (text_node (key_file c))), (Hf (bs "accept_worker") (text_node (accept_worker c))),
    (Hf (bs "io_worker") (text_node (io_worker c))), (Hf (bs "process_worker") (text_node (process_worker c))), (Hf (bs "args") (Mapping l)), Ha
    by (repeat (apply elem_of_cons; first [left; reflexivity|right])).
  cbn [mbind option_bind]. rewrite !text_as, !int_as, mapping_as by done. cbn [default from_option mbind option_bind].
  destruct load_empty as (e & He & Hp). cbn [from_string cast_map]. rewrite He. cbn [mbind option_bind]. rewrite Hp. cbn [mapM mbind option_bind].
  rewrite Hm. done.
Qed.

(** ** Properties *)

(** A configuration that is printed is read back with its arguments lost: they are written
    as a mapping and read as a text, and a mapping is not one. *)
Theorem server_args_lost (c : TcpServerConf) : printable c → ∃ s,
  to_string c = Some s ∧ from_string s = Some (set_args (mkMap []) c).
Proof.
  intros Hc. destruct (args_node_ok c Hc) as (l & Hl & Hs). exists (print_node (conf_node c (Mapping l))). split; [|by apply read_back].
  change (to_string c) with (conf_to_string c). unfold conf_to_string. rewrite Hl. cbn [mbind option_bind]. by rewrite load_print.
Qed.

(** A document that leaves out one of the three workers is refused, whatever else it says,
    though all other fields have defaults. *)
Theorem workers_required (v : bytes) (n : Node) : Load v = Some n →
  (∃ k, k ∈ [bs "accept_worker"; bs "io_worker"; bs "process_worker"] ∧ field n k = Some None) → from_string (T := TcpServerConf) v = None.
Proof.
  intros Hv (k & Hk & Hf). change (from_string (T := TcpServerConf)) with conf_from_string.
  assert (string_of n k = None) as Hn by (unfold string_of; by rewrite Hf).
  destruct (conf_from_string v) as [c|] eqn:E; [|done]. unfold conf_from_string in E. rewrite Hv in E. cbn [mbind option_bind] in E.
  do 11 (apply bind_Some in E as (? & ? & E)). rewrite !elem_of_cons in Hk. destruct Hk as [->|[->|[->|Hk]]]; [congruence..|by apply elem_of_nil in Hk].
Qed.
End laws.

(** ** An example *)

#[local] Existing Instances TreeYaml.yaml TreeYaml.yaml_laws.

(** The trees of [ConfigLaws.v]; numbers are their texts. *)
Module TreeFields.
#[export] Instance fields : YamlFields TreeYaml.yaml := {|
  field n key := Some (snd <$> (snd <$> list_find (λ p, Scalar (Yaml := TreeYaml.yaml) p.1 = key) (pairs (Yaml := TreeYaml.yaml) n)));
  as_string n := match n with GenLeaf s => Some s | _ => None end;
  text_node := GenLeaf |}.

Definition read_int (s : bytes) : option Z :=
  match s with
  | [] => None
  | b :: r => Some (if uchar b =? 45 then - strtol_digits 10 0 r else strtol_digits 10 0 s)
  end.
#[export] Instance ints : YamlInts TreeYaml.yaml := {| as_int n := match n with GenLeaf s => read_int s | _ => None end |}.

Lemma field_cons k v l key : field (Mapping ((k, v) :: l)) key = if decide (k = key) then Some (Some v) else field (Mapping l) key.
Proof.
  cbn. repeat (case_decide; try done). do 2 f_equal. by destruct (list_find _ (omap _ _)) as [[i p]|].
Qed.

#[export] Instance field_laws : YamlFieldLaws TreeYaml.yaml.
Proof.
  constructor.
  - intros l k v Hnd Hin. induction l as [|[k' v'] l IH]; [by apply elem_of_nil in Hin|]. rewrite field_cons. cbn in Hnd. apply NoDup_cons in Hnd as [Hk Hnd].
    apply elem_of_cons in Hin as [[= -> ->]|Hin]; [by rewrite decide_True|]. rewrite decide_False; [by apply IH|].
    intros ->. apply Hk, list_elem_of_fmap. by exists (k, v).
  - intros l k Hk. induction l as [|[k' v'] l IH]; [done|]. rewrite field_cons. cbn in Hk. apply not_elem_of_cons in Hk as [Hne Hk].
    rewrite decide_False by done. by apply IH.
  - done.
  - done.
  - intros z _. cbn. unfold signed_dec. destruct (Z.ltb_spec z 0).
    + unfold read_int. change (uchar (byte.of_Z 45) =? 45) with true. cbn iota. rewrite strtol_digits_all. f_equal. lia.
    + pose proof (strtol_digits_all (Z.to_N z)) as Hz. destruct (dec_digits (Z.to_N z)) as (a & s & E & Hd). rewrite E in *. cbn [forallb] in Hd.
      apply andb_true_iff in Hd as [Ha _]. unfold read_int. rewrite (proj2 (Z.eqb_neq (uchar a) 45)) by lia. rewrite Hz. f_equal. lia.
  - by exists (GenLeaf []).
Qed.
End TreeFields.

#[local] Existing Instances TreeFields.fields TreeFields.ints TreeFields.field_laws.

Definition sample_conf : TcpServerConf :=
  mkConf [bs "0.0.0.0:8020"; bs "unix:/tmp/s"] 1 5000 (-1) (bs "1") (bs "http") (bs "web") [] [] (bs "accept") (bs "io") (bs "io")
    (mkMap [(bs "root", bs "/srv")]).

Lemma sample_printable : printable sample_conf.
Proof.
  split.
  - apply Forall_forall. intros s Hs. assert (∀ b s', s = b :: s' → b ≠ TreeYaml.sharp) as Hb.
    { intros b s' ->. repeat (apply elem_of_cons in Hs as [Hs|Hs]; [first [discriminate Hs|injection Hs as -> _; by vm_compute]|]). by apply elem_of_nil in Hs. }
    destruct s as [|b s]; [done|]. by apply (Hb b s).
  - done.
  - split; [by repeat constructor|]. constructor; [|done]. by exists (bs "/srv"), (GenLeaf (bs "/srv")).
Qed.

Lemma server_args_lost_witness : ∃ s, to_string sample_conf = Some s ∧ from_string s = Some (set_args (mkMap []) sample_conf).
Proof. exact (server_args_lost sample_conf sample_printable). Defined.

Definition no_worker : bytes := print_node (Mapping [(bs "name", text_node (bs "web"))] : @Node TreeYaml.yaml).

Lemma workers_required_witness : from_string (T := TcpServerConf) no_worker = None.
Proof.
  apply (workers_required no_worker (Mapping [(bs "name", text_node (bs "web"))])).
  - by apply load_print.
  - exists (bs "io_worker"). split; [right; by left|vm_compute; reflexivity].
Defined.
