(* ===== verification/HttpTypes.v ===== *)
(** * Tables and maps of the HTTP layer: [http/http.h]

    The methods and status codes, and the map with keys that differ in case only. *)
From Stdlib Require Import Sorting.Sorted.
From S2P Require Import Prelude Strings.

(** ** Methods *)

Module Method.
Inductive HttpMethod :=
  | DELETE | GET | HEAD | POST | PUT | CONNECT | OPTIONS | TRACE | COPY | LOCK | MKCOL
  | MOVE | PROPFIND | PROPPATCH | SEARCH | UNLOCK | BIND | REBIND | UNBIND | ACL | REPORT
  | MKACTIVITY | CHECKOUT | MERGE | MSEARCH | NOTIFY | SUBSCRIBE | UNSUBSCRIBE | PATCH
  | PURGE | MKCALENDAR | LINK | UNLINK | SOURCE | INVALID_METHOD.
#[export] Instance eq_dec : EqDecision HttpMethod.
Proof. solve_decision. Defined.

(** [HTTP_METHOD_MAP]: the methods in the order of their numbers. *)
Definition HTTP_METHOD_MAP : list (HttpMethod * bytes) := [
  (DELETE, bs "DELETE"); (GET, bs "GET"); (HEAD, bs "HEAD"); (POST, bs "POST");
  (PUT, bs "PUT"); (CONNECT, bs "CONNECT"); (OPTIONS, bs "OPTIONS"); (TRACE, bs "TRACE");
  (COPY, bs "COPY"); (LOCK, bs "LOCK"); (MKCOL, bs "MKCOL"); (MOVE, bs "MOVE");
  (PROPFIND, bs "PROPFIND"); (PROPPATCH, bs "PROPPATCH"); (SEARCH, bs "SEARCH");
  (UNLOCK, bs "UNLOCK"); (BIND, bs "BIND"); (REBIND, bs "REBIND"); (UNBIND, bs "UNBIND");
  (ACL, bs "ACL"); (REPORT, bs "REPORT"); (MKACTIVITY, bs "MKACTIVITY");
  (CHECKOUT, bs "CHECKOUT"); (MERGE, bs "MERGE"); (MSEARCH, bs "M-SEARCH");
  (NOTIFY, bs "NOTIFY"); (SUBSCRIBE, bs "SUBSCRIBE"); (UNSUBSCRIBE, bs "UNSUBSCRIBE");
  (PATCH, bs "PATCH"); (PURGE, bs "PURGE"); (MKCALENDAR, bs "MKCALENDAR");
  (LINK, bs "LINK"); (UNLINK, bs "UNLINK"); (SOURCE, bs "SOURCE")
].
End Method.

Import Method.

(** The number of a method is its place in the table; [INVALID_METHOD] is next. *)
Definition HttpMethod_num (m : HttpMethod) : nat :=
  match list_find (λ x, x.1 = m) HTTP_METHOD_MAP with
  | Some (i, _) => i
  | None => length HTTP_METHOD_MAP
  end.

(** The chain of [if (strcmp(...) == 0)]; [m] is cut at its first NUL. *)
Definition StringToHttpMethod (m : bytes) : HttpMethod :=
  match list_find (λ x, x.2 = c_str m) HTTP_METHOD_MAP with
  | Some (_, (name, _)) => name
  | None => INVALID_METHOD
  end.

(** The same with [strncmp] for the length of the method: a prefix is enough. *)
Definition CharsToHttpMethod (m : bytes) : HttpMethod :=
  match list_find (λ x, starts_with x.2 (c_str m) = true) HTTP_METHOD_MAP with
  | Some (_, (name, _)) => name
  | None => INVALID_METHOD
  end.

Definition HttpMethodToString (m : HttpMethod) : bytes :=
  match HTTP_METHOD_MAP !! HttpMethod_num m with Some x => x.2 | None => bs "<unknown>" end.

(** ** Status codes *)

Module Status.
Inductive HttpStatus :=
  | CONTINUE | SWITCHING_PROTOCOLS | PROCESSING | OK | CREATED | ACCEPTED
  | NON_AUTHORITATIVE_INFORMATION | NO_CONTENT | RESET_CONTENT | PARTIAL_CONTENT
  | MULTI_STATUS | ALREADY_REPORTED | IM_USED | MULTIPLE_CHOICES | MOVED_PERMANENTLY
  | FOUND | SEE_OTHER | NOT_MODIFIED | USE_PROXY | TEMPORARY_REDIRECT
  | PERMANENT_REDIRECT | BAD_REQUEST | UNAUTHORIZED | PAYMENT_REQUIRED | FORBIDDEN
  | NOT_FOUND | METHOD_NOT_ALLOWED | NOT_ACCEPTABLE | PROXY_AUTHENTICATION_REQUIRED
  | REQUEST_TIMEOUT | CONFLICT | GONE | LENGTH_REQUIRED | PRECONDITION_FAILED
  | PAYLOAD_TOO_LARGE | URI_TOO_LONG | UNSUPPORTED_MEDIA_TYPE | RANGE_NOT_SATISFIABLE
  | EXPECTATION_FAILED | MISDIRECTED_REQUEST | UNPROCESSABLE_ENTITY | LOCKED
  | FAILED_DEPENDENCY | UPGRADE_REQUIRED | PRECONDITION_REQUIRED | TOO_MANY_REQUESTS
  | REQUEST_HEADER_FIELDS_TOO_LARGE | UNAVAILABLE_FOR_LEGAL_REASONS
  | INTERNAL_SERVER_ERROR | NOT_IMPLEMENTED | BAD_GATEWAY | SERVICE_UNAVAILABLE
  | GATEWAY_TIMEOUT | HTTP_VERSION_NOT_SUPPORTED | VARIANT_ALSO_NEGOTIATES
  | INSUFFICIENT_STORAGE | LOOP_DETECTED | NOT_EXTENDED | NETWORK_AUTHENTICATION_REQUIRED .
#[export] Instance eq_dec : EqDecision HttpStatus.
Proof. solve_decision. Defined.

(** [HTTP_STATUS_MAP]: number, name and text. *)
Definition HTTP_STATUS_MAP : list (Z * HttpStatus * bytes) := [
  (100%Z, CONTINUE, bs "Continue");
  (101%Z, SWITCHING_PROTOCOLS, bs "Switching Protocols");
  (102%Z, PROCESSING, bs "Processing"); (200%Z, OK, bs "OK");
  (201%Z, CREATED, bs "Created"); (202%Z, ACCEPTED, bs "Accepted");
  (203%Z, NON_AUTHORITATIVE_INFORMATION, bs "Non-Authoritative Information");
  (204%Z, NO_CONTENT, bs "No Content"); (205%Z, RESET_CONTENT, bs "Reset Content");
  (206%Z, PARTIAL_CONTENT, bs "Partial Content");
  (207%Z, MULTI_STATUS, bs "Multi-Status");
  (208%Z, ALREADY_REPORTED, bs "Already Reported"); (226%Z, IM_USED, bs "IM Used");
  (300%Z, MULTIPLE_CHOICES, bs "Multiple Choices");
  (301%Z, MOVED_PERMANENTLY, bs "Moved Permanently"); (302%Z, FOUND, bs "Found");
  (303%Z, SEE_OTHER, bs "See Other"); (304%Z, NOT_MODIFIED, bs "Not Modified");
  (305%Z, USE_PROXY, bs "Use Proxy");
  (307%Z, TEMPORARY_REDIRECT, bs "Temporary Redirect");
  (308%Z, PERMANENT_REDIRECT, bs "Permanent Redirect");
  (400%Z, BAD_REQUEST, bs "Bad Request"); (401%Z, UNAUTHORIZED, bs "Unauthorized");
  (402%Z, PAYMENT_REQUIRED, bs "Payment Required"); (403%Z, FORBIDDEN, bs "Forbidden");
  (404%Z, NOT_FOUND, bs "Not Found");
  (405%Z, METHOD_NOT_ALLOWED, bs "Method Not Allowed");
  (406%Z, NOT_ACCEPTABLE, bs "Not Acceptable");
  (407%Z, PROXY_AUTHENTICATION_REQUIRED, bs "Proxy Authentication Required");
  (408%Z, REQUEST_TIMEOUT, bs "Request Timeout"); (409%Z, CONFLICT, bs "Conflict");
  (410%Z, GONE, bs "Gone"); (411%Z, LENGTH_REQUIRED, bs "Length Required");
  (412%Z, PRECONDITION_FAILED, bs "Precondition Failed");
  (413%Z, PAYLOAD_TOO_LARGE, bs "Payload Too Large");
  (414%Z, URI_TOO_LONG, bs "URI Too Long");
  (415%Z, UNSUPPORTED_MEDIA_TYPE, bs "Unsupported Media Type");
  (416%Z, RANGE_NOT_SATISFIABLE, bs "Range Not Satisfiable");
  (417%Z, EXPECTATION_FAILED, bs "Expectation Failed");
  (421%Z, MISDIRECTED_REQUEST, bs "Misdirected Request");
  (422%Z, UNPROCESSABLE_ENTITY, bs "Unprocessable Entity"); (423%Z, LOCKED, bs "Locked");
  (424%Z, FAILED_DEPENDENCY, bs "Failed Dependency");
  (426%Z, UPGRADE_REQUIRED, bs "Upgrade Required");
  (428%Z, PRECONDITION_REQUIRED, bs "Precondition Required");
  (429%Z, TOO_MANY_REQUESTS, bs "Too Many Requests");
  (431%Z, REQUEST_HEADER_FIELDS_TOO_LARGE, bs "Request Header Fields Too Large");
  (451%Z, UNAVAILABLE_FOR_LEGAL_REASONS, bs "Unavailable For Legal Reasons");
  (500%Z, INTERNAL_SERVER_ERROR, bs "Internal Server Error");
  (501%Z, NOT_IMPLEMENTED, bs "Not Implemented"); (502%Z, BAD_GATEWAY, bs "Bad Gateway");
  (503%Z, SERVICE_UNAVAILABLE, bs "Service Unavailable");
  (504%Z, GATEWAY_TIMEOUT, bs "Gateway Timeout");
  (505%Z, HTTP_VERSION_NOT_SUPPORTED, bs "HTTP Version Not Supported");
  (506%Z, VARIANT_ALSO_NEGOTIATES, bs "Variant Also Negotiates");
  (507%Z, INSUFFICIENT_STORAGE, bs "Insufficient Storage");
  (508%Z, LOOP_DETECTED, bs "Loop Detected"); (510%Z, NOT_EXTENDED, bs "Not Extended");
  (511%Z, NETWORK_AUTHENTICATION_REQUIRED, bs "Network Authentication Required")
].
End Status.
Import Status.

Definition HttpStatus_code (s : HttpStatus) : Z :=
  match list_find (λ x, x.1.2 = s) HTTP_STATUS_MAP with Some (_, (code, _, _)) => code | None => 0 end.

(** The [switch] on a status that may be any number. *)
Definition HttpStatusToString (code : Z) : bytes :=
  match list_find (λ x, x.1.1 = code) HTTP_STATUS_MAP with
  | Some (_, (_, _, msg)) => msg
  | None => bs "<unknown>"
  end.

(** ** Maps whose keys differ in more than case *)

(** [strcasecmp] compares like this, character by character up to the NULs. *)
Definition folded (s : bytes) : list Z := map uchar (ToLower (c_str s)).

Fixpoint lex_lt (a b : list Z) : bool :=
  match a, b with
  | _, [] => false
  | [], _ :: _ => true
  | x :: a, y :: b => (x <? y)%Z || (x =? y)%Z && lex_lt a b
  end.

Definition CaseInsensitiveLess (lhs rhs : bytes) : bool := lex_lt (folded lhs) (folded rhs).

(** [std::map<std::string, std::string, CaseInsensitiveLess>]: the pairs in order. *)
Definition MapType : Type := list (bytes * bytes).

Fixpoint map_find (m : MapType) (key : bytes) : option bytes :=
  match m with
  | [] => None
  | (k, v) :: m => if CaseInsensitiveLess k key then map_find m key
                   else if CaseInsensitiveLess key k then None else Some v
  end.

(** [m[key] = val] when [over], [m.insert({key, val})] otherwise: the key that is
    there is kept, and with [insert] its value. *)
Fixpoint map_put (over : bool) (m : MapType) (key val : bytes) : MapType :=
  match m with
  | [] => [(key, val)]
  | (k, v) :: m' => if CaseInsensitiveLess k key then (k, v) :: map_put over m' key val
                    else if CaseInsensitiveLess key k then (key, val) :: m
                    else (k, if over then val else v) :: m'
  end.
Abbreviation map_set := (map_put true).
Abbreviation map_insert := (map_put false).

Fixpoint map_erase (m : MapType) (key : bytes) : MapType :=
  match m with
  | [] => []
  | (k, v) :: m' => if CaseInsensitiveLess k key then (k, v) :: map_erase m' key
                    else if CaseInsensitiveLess key k then m else m'
  end.

(** [CheckGetAs] and [GetAs]; [lexical_cast] is a parameter, [None] its exception. *)
Definition CheckGetAs {T} (lexical_cast : bytes → option T) (m : MapType) (key : bytes) (def : T) : bool * T :=
  match map_find m key with
  | None => (false, def)
  | Some s => match lexical_cast s with Some val => (true, val) | None => (false, def) end
  end.
Definition GetAs {T} (lexical_cast : bytes → option T) (m : MapType) (key : bytes) (def : T) : T :=
  match map_find m key with
  | None => def
  | Some s => match lexical_cast s with Some val => val | None => def end
  end.

(** ** The order *)

Lemma lex_lt_irrefl a : lex_lt a a = false.
Proof. induction a as [|x a IH]; [done|]. cbn. by rewrite Z.ltb_irrefl, IH, andb_false_r. Qed.

Lemma lex_lt_trans a : ∀ b c, lex_lt a b = true → lex_lt b c = true → lex_lt a c = true.
Proof.
  induction a as [|x a IH]; intros [|y b] [|z c]; cbn; try done.
  rewrite !orb_true_iff, !andb_true_iff, !Z.ltb_lt, !Z.eqb_eq.
  intros [Hxy|[-> Hab]] [Hyz|[-> Hbc]]; [left; lia|by left|by left|]. right. split; [done|]. by eapply IH.
Qed.

Lemma lex_lt_total a : ∀ b, lex_lt a b = false → lex_lt b a = false → a = b.
Proof.
  induction a as [|x a IH]; intros [|y b]; cbn; try done.
  rewrite !orb_false_iff, !andb_false_iff, !Z.ltb_ge, !Z.eqb_neq.
  intros [? H1] [? H2]. assert (x = y) as -> by lia.
  destruct H1 as [|H1]; [lia|]. destruct H2 as [|H2]; [lia|]. f_equal. by apply IH.
Qed.

Definition key_lt (a b : bytes * bytes) : Prop := CaseInsensitiveLess a.1 b.1 = true.
Definition key_eq (a b : bytes) : Prop := folded a = folded b.
#[export] Instance key_eq_dec a b : Decision (key_eq a b).
Proof. unfold key_eq. apply _. Defined.

Lemma less_cases a b : CaseInsensitiveLess a b = true ∧ ¬ key_eq a b ∧ CaseInsensitiveLess b a = false ∨
  CaseInsensitiveLess a b = false ∧ CaseInsensitiveLess b a = true ∧ ¬ key_eq a b ∨
  CaseInsensitiveLess a b = false ∧ CaseInsensitiveLess b a = false ∧ key_eq a b.
Proof.
  unfold CaseInsensitiveLess, key_eq. destruct (lex_lt (folded a) (folded b)) eqn:E1.
  - left. split; [done|]. split; [intros H; by rewrite H, lex_lt_irrefl in E1|].
    destruct (lex_lt (folded b) (folded a)) eqn:E2; [|done].
    by rewrite <- (lex_lt_irrefl (folded a)), (lex_lt_trans _ _ _ E1 E2).
  - right. destruct (lex_lt (folded b) (folded a)) eqn:E2; [left|right].
    + split_and!; [done..|]. intros H. by rewrite H, lex_lt_irrefl in E2.
    + split_and!; [done..|]. by apply lex_lt_total.
Qed.

#[export] Instance key_lt_trans : Transitive key_lt.
Proof. intros a b c. apply lex_lt_trans. Qed.

(** The map is in the order of its comparator, without equivalent keys. *)
Definition map_ok (m : MapType) : Prop := StronglySorted key_lt m.

#[export] Instance key_eq_equiv : Equivalence key_eq.
Proof. unfold key_eq. split; congruence. Qed.
#[export] Instance less_proper : Proper (key_eq ==> key_eq ==> eq) CaseInsensitiveLess.
Proof. unfold key_eq, CaseInsensitiveLess. by intros ? ? -> ? ? ->. Qed.
#[export] Instance map_find_proper m : Proper (key_eq ==> eq) (map_find m).
Proof.
  induction m as [|[a w] m IH]; intros k k' Hk; cbn; [done|]. rewrite (IH _ _ Hk).
  assert (CaseInsensitiveLess a k = CaseInsensitiveLess a k') as -> by by rewrite Hk.
  by assert (CaseInsensitiveLess k a = CaseInsensitiveLess k' a) as -> by by rewrite Hk.
Qed.

Lemma less_trans a b c : CaseInsensitiveLess a b = true → CaseInsensitiveLess b c = true → CaseInsensitiveLess a c = true.
Proof. apply lex_lt_trans. Qed.

Lemma less_eq a b : key_eq a b → CaseInsensitiveLess a b = false.
Proof. unfold key_eq, CaseInsensitiveLess. intros ->. apply lex_lt_irrefl. Qed.

Lemma less_asym a b : CaseInsensitiveLess a b = true → CaseInsensitiveLess b a = false.
Proof. destruct (less_cases a b) as [(?&?&?)|[(?&?&?)|(?&?&?)]]; congruence. Qed.

(** The comparison of two keys as the code makes it: in three ways. *)
Variant compared (a b : bytes) : bool → bool → Prop :=
  | cmp_lt : CaseInsensitiveLess a b = true → CaseInsensitiveLess b a = false → ¬ key_eq a b → compared a b true false
  | cmp_gt : CaseInsensitiveLess a b = false → CaseInsensitiveLess b a = true → ¬ key_eq a b → compared a b false true
  | cmp_eq : CaseInsensitiveLess a b = false → CaseInsensitiveLess b a = false → key_eq a b → compared a b false false.

Lemma compareP a b : compared a b (CaseInsensitiveLess a b) (CaseInsensitiveLess b a).
Proof.
  destruct (less_cases a b) as [(H1&H2&H3)|[(H1&H2&H3)|(H1&H2&H3)]]; rewrite H1, ?H2, ?H3; by constructor.
Qed.

Lemma map_find_put over m k v k' : map_find (map_put over m k v) k' =
  if decide (key_eq k k') then Some (match map_find m k with Some w => if over then v else w | None => v end)
  else map_find m k'.
Proof.
  induction m as [|[a w] m IH]; cbn [map_put map_find].
  - destruct (compareP k k'); by case_decide.
  - destruct (compareP a k) as [Hlt _ Hne|_ Hlt Hne|_ _ He]; cbn [map_find].
    + rewrite IH. destruct (compareP a k') as [| |_ _ He]; case_decide as Hk; try done; rewrite Hk in *; try done; congruence.
    + destruct (compareP k k') as [|_ Hlt' ?|_ _ Hk]; case_decide; try done.
      * assert (CaseInsensitiveLess k' a = true) as Ht by by eapply less_trans.
        by rewrite Ht, (less_asym _ _ Ht).
    + destruct (compareP a k') as [? ? Hn|? ? Hn|_ _ He']; case_decide as Hk; try done.
      all: try (rewrite He in Hn; by rewrite Hk in Hn).
      rewrite <- He, He' in Hk. done.
Qed.

Lemma map_put_keys over m k v p : p ∈ map_put over m k v → (p.1 = k ∨ ∃ q, q ∈ m ∧ p.1 = q.1).
Proof.
  induction m as [|[a w] m IH]; cbn [map_put].
  - intros ->%list_elem_of_singleton. by left.
  - destruct (compareP a k); rewrite ?elem_of_cons.
    + intros [->|Hp]; [right; exists (a, w); split; [by left|done]|].
      destruct (IH Hp) as [|(q & ? & ?)]; [by left|right]. exists q. split; [by right|done].
    + intros [->|Hp]; [by left|]. right. exists p. split; [by apply elem_of_cons|done].
    + intros [->|Hp]; [right; exists (a, w); split; [by left|done]|]. right. exists p. split; [by right|done].
Qed.

Lemma map_put_ok over m k v : map_ok m → map_ok (map_put over m k v).
Proof.
  unfold map_ok. induction m as [|[a w] m IH]; intros Hm; cbn [map_put]; [by repeat constructor|].
  apply StronglySorted_inv in Hm as [Hm Ha]. rewrite List.Forall_forall in Ha.
  destruct (compareP a k) as [Hlt _ _|_ Hlt _|_ _ He]; constructor.
  - by apply IH.
  - rewrite List.Forall_forall. intros p Hp%list_elem_of_In. unfold key_lt. cbn.
    apply map_put_keys in Hp as [->|(q & Hq%list_elem_of_In & ->)]; [done|]. by apply (Ha q).
  - constructor; [done|]. by rewrite List.Forall_forall.
  - constructor; [done|]. rewrite List.Forall_forall. intros p Hp. unfold key_lt. cbn.
    eapply less_trans; [exact Hlt|]. by apply (Ha p).
  - done.
  - rewrite List.Forall_forall. intros p Hp. unfold key_lt. cbn. by apply (Ha p).
Qed.

Lemma map_find_beyond m k : Forall (λ p, CaseInsensitiveLess k p.1 = true) m → map_find m k = None.
Proof.
  destruct m as [|[a w] m]; [done|]. intros [Ha _]%Forall_cons. cbn in *. by rewrite Ha, (less_asym _ _ Ha).
Qed.

Lemma map_find_erase m k k' : map_ok m →
  map_find (map_erase m k) k' = if decide (key_eq k k') then None else map_find m k'.
Proof.
  unfold map_ok. induction m as [|[a w] m IH]; intros Hm; cbn [map_erase map_find]; [by case_decide|].
  apply StronglySorted_inv in Hm as [Hm Ha]. rewrite List.Forall_forall in Ha.
  destruct (compareP a k) as [Hlt _ Hne|_ Hlt Hne|_ _ He]; cbn [map_find].
  - rewrite IH by done. destruct (compareP a k') as [| |_ _ He]; case_decide as Hk; try done.
    rewrite He, Hk in Hne. done.
  - destruct (compareP a k') as [Hlt' _ _|_ Hlt' _|_ _ He]; case_decide as Hk; try done.
    + rewrite Hk in Hlt. rewrite (less_asym _ _ Hlt) in Hlt'. done.
    + rewrite He, Hk in Hne. done.
  - case_decide as Hk.
    + rewrite <- Hk. apply map_find_beyond. rewrite Forall_forall. intros p Hp%list_elem_of_In.
      rewrite <- He. by apply (Ha p).
    + destruct (compareP a k') as [Hlt' _ _|Hlt1 Hlt2 _|_ _ He']; [done| |].
      * apply map_find_beyond. rewrite Forall_forall. intros p Hp%list_elem_of_In.
        eapply less_trans; [exact Hlt2|]. by apply (Ha p).
      * rewrite <- He, He' in Hk. done.
Qed.

Lemma map_erase_ok m k : map_ok m → map_ok (map_erase m k).
Proof.
  unfold map_ok. induction m as [|[a w] m IH]; intros Hm; cbn [map_erase]; [done|].
  pose proof Hm as [Hm' Ha]%StronglySorted_inv. destruct (compareP a k); [|done..].
  constructor; [by apply IH|]. rewrite List.Forall_forall in Ha |- *. intros p Hp. apply Ha.
  clear -Hp. induction m as [|[b u] m IH]; [done|]. cbn [map_erase] in Hp.
  destruct (compareP b k); [destruct Hp; [by left|right; by apply IH]|done|by right].
Qed.

(** ** Names of methods *)

Lemma find_if_app_l P a b : Forall (λ c, P c = false) a → find_if P (a ++ b) = (λ i, (length a + i)%nat) <$> find_if P b.
Proof.
  induction 1 as [|c a Hc _ IH]; cbn; [by destruct (find_if P b)|]. rewrite Hc, IH. by destruct (find_if P b).
Qed.

Lemma c_str_app a b : Forall (λ c, is_char (byte.of_Z 0) c = false) a → c_str (a ++ b) = a ++ c_str b.
Proof.
  intros Ha. unfold c_str. rewrite find_if_app_l by done. destruct (find_if _ b) as [i|]; cbn; [|done].
  by rewrite take_app_add.
Qed.

(** Every method is read back from its name; [CharsToHttpMethod] also takes
    any text that goes on after the name for that method, and no name is taken
    for another. *)
Theorem method_names (m : HttpMethod) (rest : bytes) : m ≠ INVALID_METHOD →
  StringToHttpMethod (HttpMethodToString m) = m ∧
  CharsToHttpMethod (HttpMethodToString m ++ rest) = m ∧
  HTTP_METHOD_MAP !! HttpMethod_num m = Some (m, HttpMethodToString m).
Proof.
  intros Hm. split_and!; [by destruct m| |by destruct m].
  unfold CharsToHttpMethod. rewrite c_str_app by (destruct m; vm_compute; repeat constructor).
  by destruct m.
Qed.

Lemma method_names_witness : StringToHttpMethod (bs "M-SEARCH") = MSEARCH ∧
  CharsToHttpMethod (bs "GETTER") = GET.
Proof.
  split; [exact (proj1 (method_names MSEARCH [] ltac:(done)))|].
  exact (proj1 (proj2 (method_names GET (bs "TER") ltac:(done)))).
Defined.
