(* ===== verification/Address.v ===== *)
(** * Socket addresses: [address.{h,cc}]

    IPv4, IPv6, Unix and unknown addresses with their masks, their order and their
    text, the splitting of host names, and the addresses of the interfaces. The
    resolver and the list of interfaces are parameters. *)
From stdpp Require Import list.
From Stdlib Require Import HexadecimalN Numbers.HexadecimalString.
From S2P Require Import Prelude Strings CLib ByteCodec HttpTypes.
Local Open Scope Z_scope.

(** ** The structures of the system *)

Definition AF_UNSPEC : Z := 0.
Definition AF_UNIX : Z := 1.
Definition AF_INET : Z := 2.
Definition AF_INET6 : Z := 10.

(** [sin_port] and [s_addr] are the integers the host sees: in network byte order. *)
Record sockaddr_in := mkIn { sin_family : Z; sin_port : Z; s_addr : Z; sin_zero : bytes }.
Record sockaddr_in6 := mkIn6 { sin6_family : Z; sin6_port : Z; sin6_flowinfo : Z; s6_addr : bytes; sin6_scope_id : Z }.
Record sockaddr_un := mkUn { sun_family : Z; sun_path : bytes }.
Record sockaddr := mkSa { sa_family : Z; sa_data : bytes }.

(** The classes derived from [Address]. *)
Inductive Address :=
  | IPv4Address (addr_ : sockaddr_in)
  | IPv6Address (addr_ : sockaddr_in6)
  | UnixAddress (addr_ : sockaddr_un) (length_ : Z)
  | UnknownAddress (addr_ : sockaddr).

(** [std::multimap<std::string, std::pair<Address::ptr, uint32_t>>]: the pairs in order. *)
Abbreviation Interfaces := (list (bytes * (Address * Z))).

(** ** Bits *)

(** [(1 << (sizeof(T) * 8 - bits)) - 1] for a [w]-bit [T]: the 1 is an [int]. *)
Definition CreateMask {St} `{OverflowMode} (w bits : Z) : M St Z :=
  let n := u64 (w - bits) in
  if 32 <=? n then undef shift_too_far
  else v ← sint 32 (s32 (Z.shiftl 1 n) - 1); mret (wrap w v).

(** The loop of [CountBits]. *)
Fixpoint CountBits_loop (fuel : nat) (w value result : Z) : option Z :=
  if value =? 0 then Some result else
  match fuel with
  | O => None
  | S fuel => CountBits_loop fuel w (Z.land value (wrap w (value - 1))) (u32 (result + 1))
  end.
Definition CountBits (w value : Z) : option Z := CountBits_loop (S (Z.to_nat w)) w value 0.

Definition enough {St A} (o : option A) : M St A := match o with Some a => mret a | None => λ _, NoFuel end.

(** Printed numbers. *)
Definition hex (n : N) : bytes := bs (NilZero.string_of_uint (N.to_hex_uint n)).

Section addresses.
Context `{HostOrder} `{OverflowMode}.

Abbreviation swap16 := (ByteswapOnLittleEndian 2 u16).
Abbreviation swap32 := (ByteswapOnLittleEndian 4 u32).

(** ** IPv4 *)

Definition IPv4_new (address port : Z) : sockaddr_in :=
  mkIn AF_INET (swap16 port) (swap32 address) (replicate 8 (byte.of_Z 0)).

Definition IPv4_Insert (a : sockaddr_in) : bytes :=
  let addr := swap32 (s_addr a) in
  let part (k : Z) := dec (Z.to_N (Z.land (Z.shiftr addr k) 0xff)) in
  part 24 ++ bs "." ++ part 16 ++ bs "." ++ part 8 ++ bs "." ++ part 0
    ++ bs ":" ++ dec (Z.to_N (swap16 (sin_port a))).

Definition set_s_addr (v : Z) (a : sockaddr_in) : sockaddr_in := mkIn (sin_family a) (sin_port a) v (sin_zero a).

Definition IPv4_BroadcastAddress {St} (prefix_len : Z) (a : sockaddr_in) : M St (option Address) :=
  if 32 <? prefix_len then mret None
  else mask ← CreateMask 32 prefix_len; mret (Some (IPv4Address (set_s_addr (Z.lor (s_addr a) (swap32 mask)) a))).
Definition IPv4_NetworkAddress {St} (prefix_len : Z) (a : sockaddr_in) : M St (option Address) :=
  if 32 <? prefix_len then mret None
  else mask ← CreateMask 32 prefix_len; mret (Some (IPv4Address (set_s_addr (Z.land (s_addr a) (swap32 mask)) a))).
Definition IPv4_SubnetMask {St} (prefix_len : Z) : M St (option Address) :=
  mask ← CreateMask 32 prefix_len;
  mret (Some (IPv4Address (mkIn AF_INET 0 (u32 (Z.lnot (swap32 mask))) (replicate 8 (byte.of_Z 0))))).

Definition IPv4_GetPort (a : sockaddr_in) : Z := swap16 (sin_port a).
Definition IPv4_SetPort (v : Z) (a : sockaddr_in) : sockaddr_in := mkIn (sin_family a) (swap16 v) (s_addr a) (sin_zero a).

(** ** IPv6 *)

Definition zero_in6 : sockaddr_in6 := mkIn6 AF_INET6 0 0 (replicate 16 (byte.of_Z 0)) 0.
Definition IPv6_new (address : bytes) (port : Z) : sockaddr_in6 := mkIn6 AF_INET6 (swap16 port) 0 (take 16 address) 0.

(** [addr[i]] after the cast to [uint16_t*]. *)
Definition word (a : sockaddr_in6) (i : nat) : Z := object_value (slice (2 * i) 2 (s6_addr a)).

(** The loop of [Insert] from [i] on, with the word before; [used_zeros] at its end. *)
Fixpoint Insert_words (words : list Z) (before : option Z) (used_zeros : bool) : bytes * bool :=
  match words with
  | [] => ([], used_zeros)
  | w :: words =>
    if (w =? 0) && negb used_zeros then Insert_words words (Some w) used_zeros
    else
      let gap := match before with Some v => (v =? 0) && negb used_zeros | None => false end in
      let '(os, used) := Insert_words words (Some w) (used_zeros || gap) in
      ((if gap then bs ":" else []) ++ match before with Some _ => bs ":" | None => [] end ++ hex (Z.to_N (swap16 w)) ++ os, used)
  end.

Definition IPv6_text (words : list Z) : bytes :=
  let '(os, used_zeros) := Insert_words words None false in
  os ++ (if negb used_zeros && (nth 7 words 0 =? 0) then bs "::" else []).

Definition IPv6_Insert (a : sockaddr_in6) : bytes :=
  bs "[" ++ IPv6_text (map (word a) (seq 0 8)) ++ bs "]:" ++ dec (Z.to_N (swap16 (sin6_port a))).

Definition set_s6_addr (v : bytes) (a : sockaddr_in6) : sockaddr_in6 :=
  mkIn6 (sin6_family a) (sin6_port a) (sin6_flowinfo a) v (sin6_scope_id a).

(** [s6_addr[i] = f(s6_addr[i])], within the array. *)
Definition update_byte {St} (i : Z) (f : Z → Z) (l : bytes) : M St bytes :=
  match l !! Z.to_nat i with
  | Some b => mret (<[Z.to_nat i := byte.of_Z (f (uchar b))]> l)
  | None => undef out_of_bounds
  end.
(** [for (int i = from; i < 16; ++i) s6_addr[i] = v]. *)
Definition fill_from (from : Z) (v : byte) (l : bytes) : bytes :=
  take (Z.to_nat from) l ++ replicate (16 - Z.to_nat from) v.

Definition IPv6_BroadcastAddress {St} (prefix_len : Z) (a : sockaddr_in6) : M St (option Address) :=
  mask ← CreateMask 8 (prefix_len `mod` 8);
  l ← update_byte (prefix_len / 8) (λ b, Z.lor b mask) (s6_addr a);
  mret (Some (IPv6Address (set_s6_addr (fill_from (prefix_len / 8 + 1) (byte.of_Z 0xff) l) a))).
Definition IPv6_NetworkAddress {St} (prefix_len : Z) (a : sockaddr_in6) : M St (option Address) :=
  mask ← CreateMask 8 (prefix_len `mod` 8);
  l ← update_byte (prefix_len / 8) (λ b, Z.land b mask) (s6_addr a);
  mret (Some (IPv6Address (set_s6_addr (fill_from (prefix_len / 8 + 1) (byte.of_Z 0x00) l) a))).
Definition IPv6_SubnetMask {St} (prefix_len : Z) : M St (option Address) :=
  mask ← CreateMask 8 (prefix_len `mod` 8);
  l ← update_byte (prefix_len / 8) (λ _, Z.lnot mask) (s6_addr zero_in6);
  mret (Some (IPv6Address (set_s6_addr (replicate (Z.to_nat (prefix_len / 8)) (byte.of_Z 0xff) ++ drop (Z.to_nat (prefix_len / 8)) l) zero_in6))).

Definition IPv6_GetPort (a : sockaddr_in6) : Z := swap16 (sin6_port a).
Definition IPv6_SetPort (v : Z) (a : sockaddr_in6) : sockaddr_in6 :=
  mkIn6 (sin6_family a) (swap16 v) (sin6_flowinfo a) (s6_addr a) (sin6_scope_id a).

(** ** Unix *)

(** [offsetof(sockaddr_un, sun_path)] and the size of [sun_path]. *)
Definition path_offset : Z := 2.
Definition path_size : nat := 108.
Definition MAX_PATH_LEN : Z := Z.of_nat path_size - 1.
Definition nul : byte := byte.of_Z 0.
Definition no_path : bytes := replicate path_size nul.

Definition Unix_default : Address := UnixAddress (mkUn AF_UNIX no_path) (path_offset + MAX_PATH_LEN).

Definition Unix_new {St} (path : bytes) : M St Address :=
  let length_ := u32 (Z.of_nat (length path) + 1) in
  let length_ := if bool_decide (head path = Some nul) then u32 (length_ - 1) else length_ in
  if Z.of_nat path_size <? length_ then throw logic_error
  else match memcpy_from (path ++ [nul]) 0 (Z.to_nat length_) with
       | None => undef out_of_bounds
       | Some src => match memcpy_to no_path 0 src with
                     | None => undef out_of_bounds
                     | Some p => mret (UnixAddress (mkUn AF_UNIX p) (u32 (length_ + path_offset)))
                     end
       end.

Definition Unix_SetAddrLen (v : Z) (a : sockaddr_un) : Address := UnixAddress a v.

(** [GetPath] and [Insert] are the same. *)
Definition Unix_GetPath {St} (a : sockaddr_un) (length_ : Z) : M St bytes :=
  if (path_offset <? length_) && bool_decide (head (sun_path a) = Some nul) then
    match memcpy_from (sun_path a) 1 (Z.to_nat (length_ - path_offset - 1)) with
    | None => undef out_of_bounds
    | Some s => mret (bs "\0" ++ s)
    end
  else match find_if (is_char nul) (sun_path a) with
       | None => undef out_of_bounds
       | Some i => mret (take i (sun_path a))
       end.

(** ** All of them *)

Definition GetAddrLen (a : Address) : Z :=
  match a with
  | IPv4Address _ | UnknownAddress _ => 16
  | IPv6Address _ => 28
  | UnixAddress _ length_ => length_
  end.

(** What is in memory at [GetAddr()]. *)
Definition GetAddr (a : Address) : bytes :=
  match a with
  | IPv4Address i => object_bytes 2 (sin_family i) ++ object_bytes 2 (sin_port i) ++ object_bytes 4 (s_addr i) ++ sin_zero i
  | IPv6Address i => object_bytes 2 (sin6_family i) ++ object_bytes 2 (sin6_port i) ++ object_bytes 4 (sin6_flowinfo i)
      ++ s6_addr i ++ object_bytes 4 (sin6_scope_id i)
  | UnixAddress u _ => object_bytes 2 (sun_family u) ++ sun_path u
  | UnknownAddress u => object_bytes 2 (sa_family u) ++ sa_data u
  end.

Definition GetFamily (a : Address) : Z :=
  match a with
  | IPv4Address i => sin_family i
  | IPv6Address i => sin6_family i
  | UnixAddress u _ => sun_family u
  | UnknownAddress u => sa_family u
  end.

Definition Insert {St} (a : Address) : M St bytes :=
  match a with
  | IPv4Address i => mret (IPv4_Insert i)
  | IPv6Address i => mret (IPv6_Insert i)
  | UnixAddress u n => Unix_GetPath u n
  | UnknownAddress u => mret (bs "[UnknownAddress family=" ++ dec (Z.to_N (sa_family u)) ++ bs "]")
  end.

(** [memcmp]: the bytes as [unsigned char], [None] beyond one of the objects. *)
Definition memcmp {St} (a b : bytes) (n : Z) : M St comparison :=
  match memcpy_from a 0 (Z.to_nat n), memcpy_from b 0 (Z.to_nat n) with
  | Some a, Some b =>
    mret (if lex_lt (map uchar a) (map uchar b) then Lt else if lex_lt (map uchar b) (map uchar a) then Gt else Eq)
  | _, _ => undef out_of_bounds
  end.

Definition operator_lt {St} (l r : Address) : M St bool :=
  result ← memcmp (GetAddr l) (GetAddr r) (GetAddrLen l `min` GetAddrLen r);
  mret match result with
  | Lt => true
  | Gt => false
  | Eq => GetAddrLen l <? GetAddrLen r
  end.
Definition operator_eq {St} (l r : Address) : M St bool :=
  if GetAddrLen l =? GetAddrLen r then
    result ← memcmp (GetAddr l) (GetAddr r) (GetAddrLen l);
    mret match result with Eq => true | _ => false end
  else mret false.
Definition operator_ne {St} (l r : Address) : M St bool := negb <$> operator_eq l r.

(** [SetPort] of the classes derived from [IPAddress]; [None] when the cast to it fails. *)
Definition SetPort (v : Z) (a : Address) : option Address :=
  match a with
  | IPv4Address i => Some (IPv4Address (IPv4_SetPort v i))
  | IPv6Address i => Some (IPv6Address (IPv6_SetPort v i))
  | _ => None
  end.

(** ** From the system *)

(** What a [sockaddr*] of the system points to. *)
Inductive object := of_in (a : sockaddr_in) | of_in6 (a : sockaddr_in6) | of_any (a : sockaddr).
Definition object_family (o : object) : Z :=
  match o with of_in a => sin_family a | of_in6 a => sin6_family a | of_any a => sa_family a end.

(** [Address::Create]; the family says what the object is. *)
Definition Create (addr : option object) : option Address :=
  match addr with
  | None => None
  | Some (of_in a) => Some (IPv4Address a)
  | Some (of_in6 a) => Some (IPv6Address a)
  | Some (of_any a) => Some (UnknownAddress a)
  end.

(** *** Names of hosts *)

(** [memchr] in [host] from [from] on. *)
Definition memchr (host : bytes) (c : byte) (from : nat) : option nat := find_from (is_char c) host from.

Definition left_bracket : byte := byte.of_Z 91.
Definition right_bracket : byte := byte.of_Z 93.
Definition colon : byte := byte.of_Z 58.

(** [node] and [service] of [Lookup]; [service] is a pointer into [host]. *)
Definition split_host (host : bytes) : bytes * option nat :=
  let '(node, service) :=
    if bool_decide (head host = Some left_bracket) then
      match memchr host right_bracket 1 with
      | Some e => (substr host 1 (e - 1), if bool_decide (host !! S e = Some colon) then Some (e + 2)%nat else None)
      | None => ([], None)
      end
    else ([], None) in
  let '(node, service) :=
    match node with
    | [] =>
      match memchr host colon 0 with
      | Some s => match memchr host colon (S s) with
                  | None => (take s host, Some (S s))
                  | Some _ => ([], Some s)
                  end
      | None => ([], None)
      end
    | _ => (node, service)
    end in
  (match node with [] => host | _ => node end, service).

Definition service_text (host : bytes) (service : option nat) : option bytes := (λ s, c_str (drop s host)) <$> service.

(** [getaddrinfo] on a node, a service and hints; [None] for an error. *)
Variable getaddrinfo : bytes → option bytes → Z * Z * Z → option (list object).

Definition Lookup (result : list Address) (host : bytes) (family type protocol : Z) : bool * list Address :=
  let '(node, service) := split_host host in
  match getaddrinfo (c_str node) (service_text host service) (family, type, protocol) with
  | None => (false, result)
  | Some results =>
    let result := result ++ omap (λ o, Create (Some o)) results in
    (negb (bool_decide (result = [])), result)
  end.

Definition LookupAny (host : bytes) (family type protocol : Z) : option Address :=
  let '(ok, result) := Lookup [] host family type protocol in if ok : bool then head result else None.

Definition is_ip (a : Address) : bool := match a with IPv4Address _ | IPv6Address _ => true | _ => false end.
Definition LookupAnyIPAddress (host : bytes) (family type protocol : Z) : option Address :=
  let '(ok, result) := Lookup [] host family type protocol in if ok : bool then find is_ip result else None.

(** [IPAddress::Create], with [AI_NUMERICHOST]. *)
Variable getnumericinfo : bytes → option object.
Definition IPAddress_Create (address : bytes) (port : Z) : option Address :=
  o ← getnumericinfo address; a ← Create (Some o); SetPort port a.

(** [IPv4Address::Create] and [IPv6Address::Create]; [inet_pton] fills in the address. *)
Variable inet_pton4 : bytes → option Z.
Variable inet_pton6 : bytes → option bytes.
Definition IPv4_Create (address : bytes) (port : Z) : option Address :=
  v ← inet_pton4 address; Some (IPv4Address (set_s_addr v (IPv4_new 0 port))).
Definition IPv6_Create (address : bytes) (port : Z) : option Address :=
  v ← inet_pton6 address; Some (IPv6Address (set_s6_addr v (IPv6_SetPort port zero_in6))).

(** *** Interfaces *)

(** An entry of [getifaddrs]; the pointers in it may be null. *)
Record ifaddrs := mkIf { ifa_name : bytes; ifa_addr : option object; ifa_netmask : option object }.

(** Equal keys stay in the order of their insertion. *)
Fixpoint multi_insert (m : Interfaces) (k : bytes) (v : Address * Z) : Interfaces :=
  match m with
  | [] => [(k, v)]
  | (k', v') :: m' => if lex_lt (map uchar k) (map uchar k') then (k, v) :: m else (k', v') :: multi_insert m' k v
  end.

Definition count_netmask6 (l : bytes) : option Z :=
  foldl (λ o b, p ← o; n ← CountBits 8 (uchar b); Some (u32 (p + n))) (Some 0) l.

(** The body of the loop: the address and the length of its prefix. *)
Definition interface_of {St} (next : ifaddrs) : M St (option (Address * Z)) :=
  a ← deref (ifa_addr next);
  match a with
  | of_in i =>
    m ← deref (ifa_netmask next);
    match m with
    | of_in k => n ← enough (CountBits 32 (s_addr k)); mret (Some (IPv4Address i, n))
    | _ => undef out_of_bounds
    end
  | of_in6 i =>
    m ← deref (ifa_netmask next);
    match m with
    | of_in6 k => n ← enough (count_netmask6 (s6_addr k)); mret (Some (IPv6Address i, n))
    | _ => undef out_of_bounds
    end
  | of_any _ => mret None
  end.

Fixpoint interfaces_loop {St} (family : Z) (results : list ifaddrs) (m : Interfaces) : M St Interfaces :=
  match results with
  | [] => mret m
  | next :: results =>
    skip ← (if family =? AF_UNSPEC then mret false
            else a ← deref (ifa_addr next); mret (negb (family =? object_family a)));
    if skip : bool then interfaces_loop family results m
    else
      r ← interface_of next;
      match r with
      | Some v => interfaces_loop family results (multi_insert m (ifa_name next) v)
      | None => interfaces_loop family results m
      end
  end.

(** The two overloads; [getifaddrs] is [None] when it fails. *)
Variable getifaddrs : option (list ifaddrs).
Definition GetInterfaceAddresses {St} (family : Z) (result : Interfaces) : M St (bool * Interfaces) :=
  match getifaddrs with
  | None => mret (false, result)
  | Some results => m ← interfaces_loop family results result; mret (negb (bool_decide (m = [])), m)
  end.

Definition GetInterfaceAddresses_of {St} (iface : bytes) (family : Z) (result : list (Address * Z))
    : M St (bool * list (Address * Z)) :=
  if bool_decide (iface = []) || bool_decide (iface = bs "*") then
    let result := if (family =? AF_INET) || (family =? AF_UNSPEC) then result ++ [(IPv4Address (IPv4_new 0 0), 0)] else result in
    let result := if (family =? AF_INET6) || (family =? AF_UNSPEC) then result ++ [(IPv6Address zero_in6, 0)] else result in
    mret (true, result)
  else
    '(ok, results) ← GetInterfaceAddresses family [];
    if ok : bool then
      let result := result ++ map snd (filter (λ r, r.1 = iface) results) in
      mret (negb (bool_decide (result = [])), result)
    else mret (false, result).
End addresses.
