(* ===== verification/AddressMasks.v ===== *)
(** * Masks of addresses

    What [BroadcastAddress], [NetworkAddress] and [SubnetMask] compute, bit by bit, and
    where they are undefined; [CountBits]. *)
From stdpp Require Import list.
From coqutil Require Import Word.LittleEndianList.
From S2P Require Import Prelude ByteBuffer ByteCodec Address.
Local Open Scope Z_scope.

(** ** Bits of integers in memory *)

Lemma testbit_uchar b i : 8 ≤ i → Z.testbit (uchar b) i = false.
Proof. intros. apply (testbit_above 8); [|done]. apply uchar_range. Qed.

Lemma testbit_of_Z z i : 0 ≤ i < 8 → Z.testbit (uchar (byte.of_Z z)) i = Z.testbit z i.
Proof. intros. rewrite uchar_of_Z. unfold wrap. by rewrite Z.mod_pow2_bits_low by lia. Qed.

Lemma testbit_le_combine (l : bytes) i : 0 ≤ i →
  Z.testbit (le_combine l) i = match l !! Z.to_nat (i / 8) with Some b => Z.testbit (uchar b) (i mod 8) | None => false end.
Proof.
  revert i. induction l as [|b l IH]; intros i Hi; [by rewrite Z.testbit_0_l|].
  change (le_combine (b :: l)) with (Z.lor (uchar b) (Z.shiftl (le_combine l) 8)). rewrite Z.lor_spec, Z.shiftl_spec by lia. destruct (decide (i < 8)).
  - rewrite Z.div_small, Z.mod_small by lia. cbn. rewrite (Z.testbit_neg_r _ (i - 8)) by lia. apply orb_false_r.
  - rewrite testbit_uchar by lia. cbn [orb]. rewrite IH by lia.
    replace (Z.to_nat (i / 8)) with (S (Z.to_nat ((i - 8) / 8))); [cbn|].
    + replace ((i - 8) mod 8) with (i mod 8); [done|].
      replace i with (i - 8 + 1 * 8) at 1 by lia. by rewrite Z.mod_add by lia.
    + replace i with (i - 8 + 1 * 8) at 2 by lia. rewrite Z.div_add by lia.
      pose proof (Z.div_pos (i - 8) 8). lia.
Qed.

Lemma lookup_le_split n v k : (k < n)%nat → le_split n v !! k = Some (byte.of_Z (Z.shiftr v (8 * Z.of_nat k))).
Proof.
  revert v k. induction n as [|n IH]; intros v k Hk; [lia|]. destruct k as [|k].
  - change (Some (byte.of_Z v) = Some (byte.of_Z (Z.shiftr v 0))). by rewrite Z.shiftr_0_r.
  - change (le_split n (Z.shiftr v 8) !! k = Some (byte.of_Z (Z.shiftr v (8 * Z.of_nat (S k))))). rewrite IH by lia. rewrite Z.shiftr_shiftr by lia. do 3 f_equal. lia.
Qed.

Lemma lookup_rev {A} (l : list A) i : (i < length l)%nat → rev l !! i = l !! (length l - S i)%nat.
Proof. intros. rewrite rev_alt. by apply (reverse_lookup l i). Qed.

(** The bits of an integer whose bytes are swapped. *)
Lemma testbit_bswap n v i : 0 ≤ i →
  Z.testbit (bswap n v) i = if i <? 8 * Z.of_nat n then Z.testbit v (8 * (Z.of_nat n - 1 - i / 8) + i mod 8) else false.
Proof.
  intros Hi. unfold bswap. rewrite testbit_le_combine by done.
  pose proof (Z.div_pos i 8). pose proof (Z.mod_pos_bound i 8). pose proof (Z.div_mod i 8).
  destruct (Z.ltb_spec i (8 * Z.of_nat n)).
  - rewrite lookup_rev by (rewrite length_le_split; lia).
    rewrite length_le_split, lookup_le_split by lia. rewrite testbit_of_Z, Z.shiftr_spec by lia. f_equal. lia.
  - by rewrite lookup_ge_None_2 by (rewrite length_rev, length_le_split; lia).
Qed.

(** Integers are equal when their bits are, up to a width. *)
Lemma eq_bits w a b : 0 ≤ w → in_u w a → in_u w b → (∀ i, 0 ≤ i < w → Z.testbit a i = Z.testbit b i) → a = b.
Proof.
  intros Hw Ha Hb H. apply Z.bits_inj'. intros i Hi. destruct (decide (i < w)); [by apply H|].
  by rewrite !(testbit_above w) by (done || lia).
Qed.

Lemma range_bits w a : 0 ≤ w → (∀ i, w ≤ i → Z.testbit a i = false) → in_u w a.
Proof.
  intros Hw H. replace a with (wrap w a); [by apply wrap_range|]. unfold wrap. apply Z.bits_inj'. intros i Hi.
  destruct (decide (i < w)); [by rewrite Z.mod_pow2_bits_low|]. rewrite Z.mod_pow2_bits_high by lia. symmetry. apply H. lia.
Qed.

Lemma lor_range w a b : 0 ≤ w → in_u w a → in_u w b → in_u w (Z.lor a b).
Proof. intros. apply range_bits; [done|]. intros. by rewrite Z.lor_spec, !(testbit_above w). Qed.
Lemma land_range w a b : 0 ≤ w → in_u w a → in_u w (Z.land a b).
Proof. intros. apply range_bits; [done|]. intros. by rewrite Z.land_spec, (testbit_above w). Qed.

(** ** Masks *)

Lemma testbit_mask n i : 0 ≤ n → Z.testbit (2 ^ n - 1) i = (0 <=? i) && (i <? n).
Proof.
  intros. destruct (Z.leb_spec 0 i); [|by rewrite Z.testbit_neg_r by lia].
  replace (2 ^ n - 1) with (Z.ones n) by (rewrite Z.ones_equiv; lia). by rewrite Z.testbit_ones_nonneg.
Qed.

Section masks.
Context `{HostOrder} `{OverflowMode}.

(** A mask is computed for a shift by less than 31, or by 31 where overflow wraps around. *)
Lemma CreateMask_ok {St} w bits (s : St) : 0 < w ≤ 32 → 0 ≤ bits ≤ w → w - bits < 31 ∨ w - bits = 31 ∧ wraps = true →
  CreateMask w bits s = Ret (2 ^ (w - bits) - 1) s.
Proof.
  intros Hw Hb Hn. unfold CreateMask. rewrite wrap_small by (unfold in_u; lia).
  rewrite (proj2 (Z.leb_gt _ _)) by lia. rewrite Z.shiftl_1_l.
  assert (0 < 2 ^ (w - bits) ≤ 2 ^ w) by (split; [apply Z.pow_pos_nonneg|apply Z.pow_le_mono_r]; lia).
  assert (wrap w (2 ^ (w - bits) - 1) = 2 ^ (w - bits) - 1) as Hwr by (apply wrap_small; unfold in_u; lia).
  destruct Hn as [Hn|[Hn Hwraps]].
  - assert (2 ^ (w - bits) < 2 ^ 31) by (apply Z.pow_lt_mono_r; lia).
    rewrite swrap_small by (unfold in_s; lia).
    rewrite (bind_Ret _ _ _ (2 ^ (w - bits) - 1) s); [by rewrite Hwr|].
    rewrite sint_spec by (done || right; unfold in_s; lia). by rewrite swrap_small by (unfold in_s; lia).
  - rewrite Hn in *.
    rewrite (bind_Ret _ _ _ (2 ^ 31 - 1) s); [by rewrite Hwr|].
    rewrite sint_spec by (done || by left). done.
Qed.

(** The address as an integer, the first byte on top. *)
Definition value4 (a : sockaddr_in) : Z := ByteswapOnLittleEndian 4 u32 (s_addr a).
Definition value6 (a : sockaddr_in6) : Z := le_combine (rev (s6_addr a)).
Definition value_ip (a : Address) : Z :=
  match a with IPv4Address i => value4 i | IPv6Address i => value6 i | _ => 0 end.

Lemma swap32_range v : in_u 32 v → in_u 32 (ByteswapOnLittleEndian 4 u32 v).
Proof. unfold ByteswapOnLittleEndian, Byteswap. destruct YGW_BYTE_ORDER; intros; [|done]. by apply wrap_range. Qed.

Definition swap_bit (i : Z) : Z :=
  match YGW_BYTE_ORDER with YGW_LITTLE_ENDIAN => 8 * (3 - i / 8) + i mod 8 | YGW_BIG_ENDIAN => i end.
Lemma swap_bit_ok i : 0 ≤ i < 32 → 0 ≤ swap_bit i < 32 ∧ swap_bit (swap_bit i) = i.
Proof.
  unfold swap_bit. destruct YGW_BYTE_ORDER; [|done]. intros.
  pose proof (Z.mod_pos_bound i 8). pose proof (Z.div_mod i 8). split; [lia|].
  rewrite <- (Z.div_unique (8 * (3 - i / 8) + i mod 8) 8 (3 - i / 8) (i mod 8)) by lia.
  rewrite <- (Z.mod_unique (8 * (3 - i / 8) + i mod 8) 8 (3 - i / 8) (i mod 8)) by lia. lia.
Qed.

Lemma testbit_swap32 v i : 0 ≤ i < 32 → Z.testbit (ByteswapOnLittleEndian 4 u32 v) i = Z.testbit v (swap_bit i).
Proof.
  unfold ByteswapOnLittleEndian, Byteswap, swap_bit. destruct YGW_BYTE_ORDER; [|done]. intros.
  unfold wrap. rewrite Z.mod_pow2_bits_low, testbit_bswap by lia. by rewrite (proj2 (Z.ltb_lt _ _)) by lia.
Qed.

(** *** IPv4 *)

(** The swapped mask, bit by bit. *)
Lemma testbit_swapped_mask n i : 0 ≤ n ≤ 32 → 0 ≤ i < 32 →
  Z.testbit (ByteswapOnLittleEndian 4 u32 (2 ^ n - 1)) (swap_bit i) = (i <? n).
Proof.
  intros Hn Hi. destruct (swap_bit_ok i Hi) as [Hs Hss]. rewrite testbit_swap32, Hss, testbit_mask by lia.
  by rewrite (proj2 (Z.leb_le _ _)) by lia.
Qed.

(** What the three functions compute for a mask of [n] bits, host by host. *)
Lemma masks4 {St} p (a : sockaddr_in) (s : St) : 0 ≤ p ≤ 32 → in_u 32 (s_addr a) → 2 ≤ p ∨ p = 1 ∧ wraps = true →
  (∃ b, IPv4_BroadcastAddress p a s = Ret (Some (IPv4Address b)) s ∧ value4 b = Z.lor (value4 a) (2 ^ (32 - p) - 1)) ∧
  (∃ b, IPv4_NetworkAddress p a s = Ret (Some (IPv4Address b)) s ∧ value4 b = value4 a mod 2 ^ (32 - p)) ∧
  (∃ b, IPv4_SubnetMask p s = Ret (Some (IPv4Address b)) s ∧ value4 b = 2 ^ 32 - 2 ^ (32 - p)).
Proof.
  intros Hp Ha Hd.
  assert (CreateMask 32 p s = Ret (2 ^ (32 - p) - 1) s) as Hm
    by (apply CreateMask_ok; [lia|lia|destruct Hd as [?|[-> ?]]; [left; lia|by right]]).
  assert (0 < 2 ^ (32 - p) ≤ 2 ^ 32) by (split; [apply Z.pow_pos_nonneg|apply Z.pow_le_mono_r]; lia).
  assert (in_u 32 (2 ^ (32 - p) - 1)) as Hmu by (unfold in_u; lia).
  pose proof (swap32_range _ Hmu) as Hsm.
  unfold IPv4_BroadcastAddress, IPv4_NetworkAddress, IPv4_SubnetMask. rewrite (proj2 (Z.ltb_ge _ _)) by lia.
  split_and!; (eexists; split; [by rewrite (bind_Ret _ _ _ _ _ Hm)|]); unfold value4, set_s_addr; cbn [s_addr];
    (apply (eq_bits 32); [lia|apply swap32_range; first [by apply lor_range|by apply land_range|by apply wrap_range]| |]).
  - apply lor_range; [lia|by apply swap32_range|done].
  - intros i Hi. rewrite Z.lor_spec, !testbit_swap32, Z.lor_spec, testbit_swapped_mask, testbit_mask by lia.
    by rewrite (proj2 (Z.leb_le 0 i)) by lia.
  - pose proof (Z.mod_pos_bound (ByteswapOnLittleEndian 4 u32 (s_addr a)) (2 ^ (32 - p))). unfold in_u. lia.
  - intros i Hi. rewrite !testbit_swap32, Z.land_spec, testbit_swapped_mask by lia.
    destruct (Z.ltb_spec i (32 - p)).
    + rewrite Z.mod_pow2_bits_low, testbit_swap32 by lia. apply andb_true_r.
    + rewrite Z.mod_pow2_bits_high by lia. apply andb_false_r.
  - unfold in_u. lia.
  - intros i Hi. destruct (swap_bit_ok i Hi). rewrite testbit_swap32 by lia. unfold wrap.
    rewrite Z.mod_pow2_bits_low, Z.lnot_spec, testbit_swapped_mask by lia.
    replace (2 ^ 32 - 2 ^ (32 - p)) with (Z.lxor (2 ^ (32 - p) - 1) (2 ^ 32 - 1)) by (rewrite (lxor_ones 32) by (done || lia); lia).
    rewrite Z.lxor_spec, !testbit_mask by lia. rewrite (proj2 (Z.leb_le 0 i)), (proj2 (Z.ltb_lt i 32)) by lia.
    cbn. by destruct (i <? 32 - p).
Qed.

(** *** IPv6 *)

Lemma testbit_value (l : bytes) i : length l = 16%nat → 0 ≤ i < 128 →
  Z.testbit (le_combine (rev l)) i = match l !! Z.to_nat (15 - i / 8) with Some b => Z.testbit (uchar b) (i mod 8) | None => false end.
Proof.
  intros Hl Hi. rewrite testbit_le_combine by lia. pose proof (Z.mod_pos_bound i 8). pose proof (Z.div_mod i 8).
  rewrite lookup_rev by lia. rewrite Hl. by replace (16 - S (Z.to_nat (i / 8)))%nat with (Z.to_nat (15 - i / 8)) by lia.
Qed.

Lemma value_range (l : bytes) : length l = 16%nat → in_u 128 (le_combine (rev l)).
Proof. intros Hl. pose proof (le_combine_bound (rev l)) as H1. rewrite length_rev, Hl in H1. exact H1. Qed.

(** The bytes before [q] are kept, the one at [q] is [x], those behind it are [v]. *)
Lemma testbit_filled l q x v i : length l = 16%nat → 0 ≤ q < 16 → 0 ≤ i < 128 →
  Z.testbit (le_combine (rev (fill_from (q + 1) v (<[Z.to_nat q := x]> l)))) i =
  if 15 - i / 8 <? q then Z.testbit (le_combine (rev l)) i
  else Z.testbit (uchar (if 15 - i / 8 =? q then x else v)) (i mod 8).
Proof.
  intros Hl Hq Hi. pose proof (Z.mod_pos_bound i 8). pose proof (Z.div_mod i 8).
  assert (length (fill_from (q + 1) v (<[Z.to_nat q := x]> l)) = 16%nat) as Hf.
  { unfold fill_from. rewrite length_app, length_take, length_replicate, length_insert. lia. }
  rewrite !testbit_value by done. unfold fill_from.
  assert (length (take (Z.to_nat (q + 1)) (<[Z.to_nat q := x]> l)) = Z.to_nat (q + 1)) as Ht
    by (rewrite length_take, length_insert; lia).
  destruct (Z.ltb_spec (15 - i / 8) q).
  - rewrite lookup_app_l by lia. rewrite lookup_take_lt by lia. by rewrite list_lookup_insert_ne by lia.
  - destruct (Z.eqb_spec (15 - i / 8) q) as [->|].
    + rewrite lookup_app_l by lia. rewrite lookup_take_lt by lia. by rewrite list_lookup_insert_eq by lia.
    + rewrite lookup_app_r, lookup_replicate_2 by lia. done.
Qed.

(** What is known of the byte at [q] in [p = 8 q + r]. *)
Lemma mask_position p i : 0 ≤ p < 128 → 0 ≤ i < 128 →
  (15 - i / 8 < p / 8 → 128 - p ≤ i) ∧ (15 - i / 8 = p / 8 → (i <? 128 - p) = (i mod 8 <? 8 - p mod 8)) ∧
  (p / 8 < 15 - i / 8 → i < 128 - p).
Proof.
  intros. pose proof (Z.mod_pos_bound i 8). pose proof (Z.div_mod i 8).
  pose proof (Z.mod_pos_bound p 8). pose proof (Z.div_mod p 8).
  split_and!; [lia| |lia]. intros. destruct (Z.ltb_spec i (128 - p)), (Z.ltb_spec (i mod 8) (8 - p mod 8)); lia.
Qed.

Lemma update_byte_ok {St} q f l b (s : St) : l !! Z.to_nat q = Some b →
  update_byte q f l s = Ret (<[Z.to_nat q := byte.of_Z (f (uchar b))]> l) s.
Proof. unfold update_byte. by intros ->. Qed.

(** Bit [i] of the network address: in the byte of the end of the prefix the host's bits
    are kept, not those of the network. *)
Definition network6_bit (p v i : Z) : bool :=
  Z.testbit v i && ((8 * (16 - p / 8) <=? i) || (8 * (15 - p / 8) <=? i) && (i <? 128 - p)).

Lemma length_filled q v (x : byte) l : length l = 16%nat → 0 ≤ q < 16 →
  length (fill_from (q + 1) v (<[Z.to_nat q := x]> l)) = 16%nat.
Proof. intros. unfold fill_from. rewrite length_app, length_take, length_replicate, length_insert. lia. Qed.

Lemma mask8 {St} p (s : St) : CreateMask 8 (p `mod` 8) s = Ret (2 ^ (8 - p `mod` 8) - 1) s.
Proof. pose proof (Z.mod_pos_bound p 8). apply CreateMask_ok; [lia..|left; lia]. Qed.

Lemma pow_128 p : 0 ≤ p < 128 → 0 < 2 ^ (128 - p) ≤ 2 ^ 128.
Proof. intros. split; [apply Z.pow_pos_nonneg|apply Z.pow_le_mono_r]; lia. Qed.

Lemma broadcast6 {St} p (a : sockaddr_in6) (s : St) : 0 ≤ p < 128 → length (s6_addr a) = 16%nat →
  ∃ b, IPv6_BroadcastAddress p a s = Ret (Some (IPv6Address b)) s ∧ value6 b = Z.lor (value6 a) (2 ^ (128 - p) - 1).
Proof.
  intros Hp Ha. pose proof (Z.mod_pos_bound p 8). pose proof (Z.div_mod p 8). pose proof (pow_128 p Hp).
  destruct (lookup_lt_is_Some_2 (s6_addr a) (Z.to_nat (p / 8))) as [b Hb]; [lia|].
  unfold IPv6_BroadcastAddress. rewrite (bind_Ret _ _ _ _ _ (mask8 p s)), (bind_Ret _ _ _ _ _ (update_byte_ok _ _ _ _ _ Hb)).
  eexists. split; [done|]. unfold value6. cbn [set_s6_addr s6_addr].
  apply (eq_bits 128); [lia| |apply lor_range; [lia|by apply value_range|unfold in_u; lia]|].
  { apply value_range, length_filled; lia. }
  intros i Hi. rewrite testbit_filled, Z.lor_spec, testbit_mask by lia. rewrite (proj2 (Z.leb_le 0 i)) by lia. cbn [andb].
  destruct (mask_position p i Hp Hi) as (M1 & M2 & M3). pose proof (Z.mod_pos_bound i 8).
  destruct (Z.ltb_spec (15 - i / 8) (p / 8)).
  - rewrite (proj2 (Z.ltb_ge _ _)) by lia. by rewrite orb_false_r.
  - destruct (Z.eqb_spec (15 - i / 8) (p / 8)) as [Hq|].
    + rewrite testbit_of_Z, Z.lor_spec, testbit_mask by lia. rewrite M2 by done.
      rewrite (proj2 (Z.leb_le 0 (i mod 8))) by lia. rewrite testbit_value, Hq, Hb by lia. done.
    + rewrite (proj2 (Z.ltb_lt i (128 - p))) by lia. rewrite orb_true_r.
      rewrite testbit_of_Z by lia. change 0xff with (2 ^ 8 - 1). rewrite testbit_mask by lia.
      by rewrite (proj2 (Z.leb_le 0 (i mod 8))), (proj2 (Z.ltb_lt (i mod 8) 8)) by lia.
Qed.

Lemma network6 {St} p (a : sockaddr_in6) (s : St) : 0 ≤ p < 128 → length (s6_addr a) = 16%nat →
  ∃ b, IPv6_NetworkAddress p a s = Ret (Some (IPv6Address b)) s ∧
    ∀ i, 0 ≤ i < 128 → Z.testbit (value6 b) i = network6_bit p (value6 a) i.
Proof.
  intros Hp Ha. pose proof (Z.mod_pos_bound p 8). pose proof (Z.div_mod p 8).
  destruct (lookup_lt_is_Some_2 (s6_addr a) (Z.to_nat (p / 8))) as [b Hb]; [lia|].
  unfold IPv6_NetworkAddress. rewrite (bind_Ret _ _ _ _ _ (mask8 p s)), (bind_Ret _ _ _ _ _ (update_byte_ok _ _ _ _ _ Hb)).
  eexists. split; [done|]. unfold value6. cbn [set_s6_addr s6_addr].
  intros i Hi. rewrite testbit_filled by lia. unfold network6_bit.
  destruct (mask_position p i Hp Hi) as (M1 & M2 & M3). pose proof (Z.mod_pos_bound i 8). pose proof (Z.div_mod i 8).
  destruct (Z.ltb_spec (15 - i / 8) (p / 8)).
  - rewrite (proj2 (Z.leb_le (8 * (16 - p / 8)) i)) by lia. by rewrite andb_true_r.
  - rewrite (proj2 (Z.leb_gt (8 * (16 - p / 8)) i)) by lia. cbn [orb].
    destruct (Z.eqb_spec (15 - i / 8) (p / 8)) as [Hq|].
    + rewrite testbit_of_Z, Z.land_spec, testbit_mask by lia. rewrite (proj2 (Z.leb_le (8 * (15 - p / 8)) i)), M2 by lia.
      rewrite (proj2 (Z.leb_le 0 (i mod 8))) by lia. rewrite testbit_value, Hq, Hb by lia. done.
    + rewrite (proj2 (Z.leb_gt (8 * (15 - p / 8)) i)) by lia. rewrite testbit_of_Z, Z.testbit_0_l by lia. by rewrite andb_false_r.
Qed.

Lemma subnet6 {St} p (s : St) : 0 ≤ p < 128 →
  ∃ b, IPv6_SubnetMask p s = Ret (Some (IPv6Address b)) s ∧ value6 b = 2 ^ 128 - 2 ^ (128 - p).
Proof.
  intros Hp. pose proof (Z.mod_pos_bound p 8). pose proof (Z.div_mod p 8). pose proof (pow_128 p Hp).
  assert (replicate 16 (byte.of_Z 0) !! Z.to_nat (p / 8) = Some (byte.of_Z 0)) as Hb by (apply lookup_replicate_2; lia).
  unfold IPv6_SubnetMask. rewrite (bind_Ret _ _ _ _ _ (mask8 p s)).
  change (s6_addr zero_in6) with (replicate 16 (byte.of_Z 0)).
  rewrite (bind_Ret _ _ _ _ _ (update_byte_ok _ _ _ _ _ Hb)).
  eexists. split; [done|]. unfold value6. cbn [set_s6_addr s6_addr].
  set (x := byte.of_Z (Z.lnot _)). set (q := Z.to_nat (p / 8)) in *.
  set (l := replicate q (byte.of_Z 0xff) ++ drop q (<[q := x]> (replicate 16 (byte.of_Z 0)))).
  assert (length l = 16%nat) as Hl.
  { unfold l. rewrite length_app, length_replicate, length_drop, length_insert, length_replicate. lia. }
  apply (eq_bits 128); [lia|by apply value_range|unfold in_u; lia|]. intros i Hi.
  replace (2 ^ 128 - 2 ^ (128 - p)) with (Z.lxor (2 ^ (128 - p) - 1) (2 ^ 128 - 1))
    by (rewrite (lxor_ones 128) by (unfold in_u; lia); lia).
  rewrite Z.lxor_spec, !testbit_mask by lia. rewrite (proj2 (Z.leb_le 0 i)), (proj2 (Z.ltb_lt i 128)) by lia. cbn [andb].
  rewrite testbit_value by done. destruct (mask_position p i Hp Hi) as (M1 & M2 & M3).
  pose proof (Z.mod_pos_bound i 8). pose proof (Z.div_mod i 8). unfold l.
  destruct (Z.ltb_spec (15 - i / 8) (p / 8)).
  - rewrite lookup_app_l by (rewrite length_replicate; lia). rewrite lookup_replicate_2 by lia.
    rewrite testbit_of_Z by lia. change 0xff with (2 ^ 8 - 1). rewrite testbit_mask by lia.
    by rewrite (proj2 (Z.ltb_ge i (128 - p))), (proj2 (Z.leb_le 0 (i mod 8))), (proj2 (Z.ltb_lt (i mod 8) 8)) by lia.
  - rewrite lookup_app_r by (rewrite length_replicate; lia). rewrite length_replicate, lookup_drop.
    destruct (Z.eqb_spec (15 - i / 8) (p / 8)) as [Hq|].
    + replace (q + (Z.to_nat (15 - i / 8) - q))%nat with q by lia.
      rewrite list_lookup_insert_eq by (rewrite length_replicate; lia). unfold x.
      rewrite testbit_of_Z, Z.lnot_spec, testbit_mask, M2 by lia.
      rewrite (proj2 (Z.leb_le 0 (i mod 8))) by lia. cbn [andb]. by destruct (_ <? _).
    + rewrite list_lookup_insert_ne, lookup_replicate_2 by lia. rewrite testbit_of_Z, Z.testbit_0_l by lia.
      by rewrite (proj2 (Z.ltb_lt i (128 - p))) by lia.
Qed.
End masks.

(** ** Counting bits *)

Fixpoint ones_of (p : positive) : Z :=
  match p with xH => 1 | xO p => ones_of p | xI p => 1 + ones_of p end.
(** The number of bits of [z] that are set. *)
Definition ones_in (z : Z) : Z := match z with Zpos p => ones_of p | _ => 0 end.

Lemma ones_in_double z : ones_in (2 * z) = ones_in z.
Proof. by destruct z. Qed.

Lemma land_double_odd a b : Z.land (2 * a) (2 * b + 1) = 2 * Z.land a b.
Proof.
  apply Z.bits_inj'. intros i Hi. rewrite Z.land_spec. destruct (Z.eq_dec i 0) as [->|].
  - by rewrite !Z.testbit_even_0.
  - replace i with (Z.succ (i - 1)) by lia.
    rewrite !Z.testbit_even_succ, Z.testbit_odd_succ, Z.land_spec by lia. done.
Qed.

(** [value & (value - 1)] has one bit less. *)
Lemma clear_lowest p : 0 ≤ Z.land (Zpos p) (Zpos p - 1) < Zpos p ∧ ones_in (Z.land (Zpos p) (Zpos p - 1)) = ones_of p - 1.
Proof.
  induction p as [p IH|p IH|]; [| |done].
  - replace (Zpos p~1 - 1) with (2 * Zpos p) by lia. replace (Zpos p~1) with (2 * Zpos p + 1) by lia.
    rewrite Z.land_comm, land_double_odd, Z.land_diag. split; [lia|]. rewrite ones_in_double. cbn. lia.
  - replace (Zpos p~0 - 1) with (2 * (Zpos p - 1) + 1) by lia. replace (Zpos p~0) with (2 * Zpos p) by lia.
    rewrite land_double_odd, ones_in_double. cbn [ones_of]. lia.
Qed.

Lemma ones_of_pos p : 1 ≤ ones_of p.
Proof. induction p; cbn; lia. Qed.

Lemma ones_of_bound w p : 0 ≤ w → Zpos p < 2 ^ w → ones_of p ≤ w.
Proof.
  revert w. induction p as [p IH|p IH|]; intros w Hw Hp; cbn [ones_of].
  - assert (0 < w) by (destruct (decide (w = 0)) as [->|]; [cbn in Hp|]; lia).
    specialize (IH (w - 1)). replace w with (Z.succ (w - 1)) in Hp by lia. rewrite Z.pow_succ_r in Hp by lia. lia.
  - assert (0 < w) by (destruct (decide (w = 0)) as [->|]; [cbn in Hp|]; lia).
    specialize (IH (w - 1)). replace w with (Z.succ (w - 1)) in Hp by lia. rewrite Z.pow_succ_r in Hp by lia. lia.
  - destruct (decide (w = 0)) as [->|]; [cbn in Hp|]; lia.
Qed.

Lemma CountBits_loop_ok fuel w v r : 0 ≤ w ≤ 32 → in_u w v → ones_in v ≤ Z.of_nat fuel → 0 ≤ r → r + ones_in v < 2 ^ 32 →
  CountBits_loop fuel w v r = Some (r + ones_in v).
Proof.
  intros Hw. revert v r. induction fuel as [|fuel IH]; intros v r Hv Hf Hr Hs; cbn [CountBits_loop];
    (destruct (Z.eqb_spec v 0) as [->|]; [f_equal; cbn; lia|]); unfold in_u in Hv; (destruct v as [|p|p]; [lia| |lia]).
  - cbn in Hf. pose proof (ones_of_pos p). lia.
  - destruct (clear_lowest p) as [Hc Ho]. cbn [ones_in] in *. rewrite (wrap_small w (Zpos p - 1)) by (unfold in_u; lia).
    pose proof (ones_of_pos p). rewrite (wrap_small 32) by (unfold in_u; lia).
    rewrite IH; [f_equal; lia|unfold in_u; lia|lia..].
Qed.

Lemma CountBits_ok w v : 0 ≤ w ≤ 32 → in_u w v → CountBits w v = Some (ones_in v).
Proof.
  intros Hw Hv. assert (0 ≤ ones_in v ≤ w).
  { destruct v as [|p|p]; cbn; [lia| |lia]. split; [|apply ones_of_bound; unfold in_u in Hv; lia].
    pose proof (ones_of_pos p). lia. }
  unfold CountBits. rewrite CountBits_loop_ok by (done || lia). f_equal.
Qed.

(** ** Properties *)

Section properties.
Context `{HostOrder} `{OverflowMode}.

(** [CountBits] ends and counts the bits that are set, and the netmask of a prefix of [n]
    bits, in either byte order, counts [n]: the length that [GetInterfaceAddresses]
    reports. *)
Theorem CountBits_counts w v n : 0 ≤ w ≤ 32 → in_u w v → 0 ≤ n ≤ 32 →
  CountBits w v = Some (ones_in v) ∧ CountBits 32 (ByteswapOnLittleEndian 4 u32 (2 ^ 32 - 2 ^ (32 - n))) = Some n.
Proof.
  intros Hw Hv Hn. split; [by apply CountBits_ok|].
  assert (forallb (λ n, forallb (λ e, bool_decide (CountBits 32 (@ByteswapOnLittleEndian e 4 u32 (2 ^ 32 - 2 ^ (32 - n))) = Some n))
    [YGW_LITTLE_ENDIAN; YGW_BIG_ENDIAN]) (seqZ 0 33) = true) as Hc by (vm_compute; reflexivity).
  rewrite forallb_forall in Hc. specialize (Hc n). rewrite forallb_forall in Hc.
  apply (bool_decide_eq_true_1 _), Hc; [apply list_elem_of_In, elem_of_seqZ; lia|]. generalize H. intros []; cbn; auto.
Qed.

(** For a prefix of [p] bits the broadcast address sets all bits behind the prefix and the
    subnet mask is that of the prefix, for IPv4 from 2 bits on and for IPv6 below 128. *)
Theorem masks_of_prefix {St} (s : St) p (a : sockaddr_in) (b : sockaddr_in6) :
  in_u 32 (s_addr a) → length (s6_addr b) = 16%nat →
  (2 ≤ p ≤ 32 →
    (∃ c, IPv4_BroadcastAddress p a s = Ret (Some (IPv4Address c)) s ∧ value4 c = Z.lor (value4 a) (2 ^ (32 - p) - 1)) ∧
    (∃ c, IPv4_SubnetMask p s = Ret (Some (IPv4Address c)) s ∧ value4 c = 2 ^ 32 - 2 ^ (32 - p))) ∧
  (0 ≤ p < 128 →
    (∃ c, IPv6_BroadcastAddress p b s = Ret (Some (IPv6Address c)) s ∧ value6 c = Z.lor (value6 b) (2 ^ (128 - p) - 1)) ∧
    (∃ c, IPv6_SubnetMask p s = Ret (Some (IPv6Address c)) s ∧ value6 c = 2 ^ 128 - 2 ^ (128 - p))).
Proof.
  intros Ha Hb. split; intros Hp.
  - destruct (masks4 p a s) as (? & _ & ?); [lia|done|left; lia|done].
  - split; [by apply broadcast6|by apply subnet6].
Qed.

(** [NetworkAddress] keeps the bits that the prefix does not cover in place of those it
    covers: for IPv4 the result is the number of the host, for IPv6 it is so in the byte where
    the prefix ends. *)
Theorem NetworkAddress_is_the_host {St} (s : St) p (a : sockaddr_in) (b : sockaddr_in6) :
  in_u 32 (s_addr a) → length (s6_addr b) = 16%nat →
  (2 ≤ p ≤ 32 → ∃ c, IPv4_NetworkAddress p a s = Ret (Some (IPv4Address c)) s ∧ value4 c = value4 a mod 2 ^ (32 - p)) ∧
  (0 ≤ p < 128 → ∃ c, IPv6_NetworkAddress p b s = Ret (Some (IPv6Address c)) s ∧
    ∀ i, 0 ≤ i < 128 → Z.testbit (value6 c) i = network6_bit p (value6 b) i).
Proof.
  intros Ha Hb. split; intros Hp.
  - destruct (masks4 p a s) as (_ & ? & _); [lia|done|left; lia|done].
  - by apply network6.
Qed.

(** The ends of the range are undefined: a prefix of no bits shifts an [int] by 32, one of a
    single bit overflows (unless overflow wraps around), [SubnetMask] does not check for more
    than 32, and for IPv6 a prefix of 128 bits or more is behind the address. *)
Theorem masks_undefined {St} (s : St) (a : sockaddr_in) (b : sockaddr_in6) p :
  length (s6_addr b) = 16%nat → 33 ≤ p < 2 ^ 32 → 128 ≤ p →
  IPv4_BroadcastAddress 0 a s = Undef shift_too_far ∧
  (wraps = false → IPv4_BroadcastAddress 1 a s = Undef signed_overflow) ∧
  IPv4_SubnetMask p s = Undef shift_too_far ∧
  IPv6_BroadcastAddress p b s = Undef out_of_bounds ∧ IPv6_NetworkAddress p b s = Undef out_of_bounds ∧
  IPv6_SubnetMask p s = Undef out_of_bounds.
Proof.
  intros Hb Hp Hp6. pose proof (Z.div_mod p 8). pose proof (Z.mod_pos_bound p 8).
  assert (∀ l f, length l = 16%nat → update_byte (p / 8) f l s = Undef out_of_bounds) as Hout.
  { intros l f Hl. unfold update_byte. by rewrite lookup_ge_None_2 by lia. }
  split_and!.
  - done.
  - intros Hw. unfold IPv4_BroadcastAddress, CreateMask, sint. rewrite Hw. done.
  - unfold IPv4_SubnetMask, CreateMask.
    assert (u64 (32 - p) = 2 ^ 64 + 32 - p) as -> by (unfold wrap; rewrite <- (Z.mod_unique (32 - p) (2 ^ 64) (-1) (2 ^ 64 + 32 - p)); lia).
    by rewrite (proj2 (Z.leb_le _ _)) by lia.
  - unfold IPv6_BroadcastAddress. rewrite (bind_Ret _ _ _ _ _ (mask8 p s)). unfold mbind, M_bind. by rewrite Hout.
  - unfold IPv6_NetworkAddress. rewrite (bind_Ret _ _ _ _ _ (mask8 p s)). unfold mbind, M_bind. by rewrite Hout.
  - unfold IPv6_SubnetMask. rewrite (bind_Ret _ _ _ _ _ (mask8 p s)). unfold mbind, M_bind. by rewrite Hout.
Qed.
End properties.

#[local] Instance little : HostOrder := YGW_LITTLE_ENDIAN.
#[local] Instance strict : OverflowMode := false.

(** 192.168.1.7, and 2001:db8::7. *)
Definition sample4 : sockaddr_in := IPv4_new 0xc0a80107 80.
Definition sample6 : sockaddr_in6 :=
  IPv6_new (map byte.of_Z [0x20; 0x01; 0x0d; 0xb8; 0; 0; 0; 0; 0; 0; 0; 0; 0; 0; 0; 7]) 80.

Lemma CountBits_counts_witness :
  CountBits 8 0xf0 = Some 4 ∧ CountBits 32 (ByteswapOnLittleEndian 4 u32 (2 ^ 32 - 2 ^ (32 - 24))) = Some 24.
Proof. apply (CountBits_counts 8 0xf0 24); unfold in_u; lia. Defined.

Lemma masks_of_prefix_witness : ∃ c, IPv4_BroadcastAddress 24 sample4 tt = Ret (Some (IPv4Address c)) tt ∧ value4 c = 0xc0a801ff.
Proof.
  assert (in_u 32 (s_addr sample4)) as H by (vm_compute; split; congruence).
  destruct (proj1 (masks_of_prefix tt 24 sample4 sample6 H eq_refl) ltac:(lia)) as [(c & Hc & Hv) _]. by exists c.
Defined.

Lemma NetworkAddress_is_the_host_witness : ∃ c, IPv4_NetworkAddress 24 sample4 tt = Ret (Some (IPv4Address c)) tt ∧ value4 c = 7.
Proof.
  assert (in_u 32 (s_addr sample4)) as H by (vm_compute; split; congruence).
  destruct (proj1 (NetworkAddress_is_the_host tt 24 sample4 sample6 H eq_refl) ltac:(lia)) as (c & Hc & Hv). by exists c.
Defined.

Lemma masks_undefined_witness : IPv6_SubnetMask 128 tt = Undef out_of_bounds.
Proof. destruct (masks_undefined tt sample4 sample6 128 eq_refl) as (_ & _ & _ & _ & _ & H); [lia..|exact H]. Defined.
