(* ===== verification/AddressLaws.v ===== *)
(** * Addresses as keys, paths and interfaces

    [operator<] and [operator==] order addresses; Unix paths come back from [GetPath];
    what [GetInterfaceAddresses] collects. *)
From stdpp Require Import list sorting.
From coqutil Require Import Word.LittleEndianList.
From S2P Require Import Prelude Strings ByteBuffer ByteCodec HttpTypes Address AddressMasks.
Local Open Scope Z_scope.

Section laws.
Context `{HostOrder}.

(** ** The order *)

(** An address whose fields have their sizes; [SetAddrLen] may shorten a Unix address. *)
Definition wf_address (a : Address) : Prop :=
  match a with
  | IPv4Address i => length (sin_zero i) = 8%nat
  | IPv6Address i => length (s6_addr i) = 16%nat
  | UnixAddress u n => length (sun_path u) = path_size ∧ 0 ≤ n ≤ 110
  | UnknownAddress u => length (sa_data u) = 14%nat
  end.

(** The bytes that are compared. *)
Definition key (a : Address) : list Z := map uchar (take (Z.to_nat (GetAddrLen a)) (GetAddr a)).

Lemma length_GetAddr a : wf_address a → 0 ≤ GetAddrLen a ≤ Z.of_nat (length (GetAddr a)).
Proof.
  destruct a as [i|i|u n|u]; cbn [wf_address GetAddrLen GetAddr]; intros Hw;
    rewrite ?length_app; unfold object_bytes; rewrite ?length_bytes_of; unfold path_size in *; lia.
Qed.

Lemma length_key a : wf_address a → Z.of_nat (length (key a)) = GetAddrLen a.
Proof. intros Ha. unfold key. pose proof (length_GetAddr a Ha). rewrite length_map, length_take. lia. Qed.

(** [operator<] compares the shorter length, then the lengths: the lexicographic order. *)
Lemma lex_lt_take a : ∀ b, lex_lt a b =
  if lex_lt (take (length a `min` length b) a) (take (length a `min` length b) b) then true
  else if lex_lt (take (length a `min` length b) b) (take (length a `min` length b) a) then false
  else (length a <? length b)%nat.
Proof.
  induction a as [|x a IH]; intros [|y b]; cbn; [done..|]. rewrite IH. cbn.
  destruct (Z.ltb_spec x y), (Z.ltb_spec y x); cbn; try lia.
  - by rewrite (proj2 (Z.eqb_neq x y)) by lia.
  - assert (x = y) as -> by lia. by rewrite Z.eqb_refl.
Qed.

Lemma take_key a n : n ≤ GetAddrLen a → map uchar (take (Z.to_nat n) (GetAddr a)) = take (Z.to_nat n) (key a).
Proof. intros. unfold key. rewrite firstn_map, take_take. do 2 f_equal. lia. Qed.

Lemma memcmp_ok {St} a b n (s : St) : wf_address a → wf_address b → 0 ≤ n ≤ GetAddrLen a → n ≤ GetAddrLen b →
  memcmp (GetAddr a) (GetAddr b) n s =
  Ret (if lex_lt (take (Z.to_nat n) (key a)) (take (Z.to_nat n) (key b)) then Lt
       else if lex_lt (take (Z.to_nat n) (key b)) (take (Z.to_nat n) (key a)) then Gt else Eq) s.
Proof.
  intros Ha Hb Hn Hn'. pose proof (length_GetAddr a Ha). pose proof (length_GetAddr b Hb). unfold memcmp.
  rewrite !memcpy_from_Some by lia. unfold slice. rewrite !drop_0, !take_key by lia. done.
Qed.

Lemma operator_lt_ok {St} a b (s : St) : wf_address a → wf_address b → operator_lt a b s = Ret (lex_lt (key a) (key b)) s.
Proof.
  intros Ha Hb. pose proof (length_key a Ha). pose proof (length_key b Hb).
  pose proof (length_GetAddr a Ha). pose proof (length_GetAddr b Hb).
  unfold operator_lt. rewrite (bind_Ret _ _ _ _ _ (memcmp_ok a b (GetAddrLen a `min` GetAddrLen b) s Ha Hb ltac:(lia) ltac:(lia))).
  rewrite (lex_lt_take (key a) (key b)).
  replace (Z.to_nat (GetAddrLen a `min` GetAddrLen b)) with (length (key a) `min` length (key b))%nat by lia.
  destruct (lex_lt _ _); [done|]. destruct (lex_lt _ _); [done|]. unfold mret, M_ret. f_equal.
  destruct (Z.ltb_spec (GetAddrLen a) (GetAddrLen b)), (Nat.ltb_spec (length (key a)) (length (key b))); lia.
Qed.

Lemma lex_eq a b : negb (lex_lt a b || lex_lt b a) = bool_decide (a = b).
Proof.
  case_bool_decide as E; [subst; by rewrite lex_lt_irrefl|].
  destruct (lex_lt a b) eqn:E1; [done|]. destruct (lex_lt b a) eqn:E2; [done|]. by destruct E, (lex_lt_total a b E1 E2).
Qed.

Lemma operator_eq_ok {St} a b (s : St) : wf_address a → wf_address b → operator_eq a b s = Ret (bool_decide (key a = key b)) s.
Proof.
  intros Ha Hb. pose proof (length_key a Ha). pose proof (length_key b Hb).
  pose proof (length_GetAddr a Ha). pose proof (length_GetAddr b Hb). unfold operator_eq.
  destruct (Z.eqb_spec (GetAddrLen a) (GetAddrLen b)) as [E|E].
  - rewrite (bind_Ret _ _ _ _ _ (memcmp_ok a b (GetAddrLen a) s Ha Hb ltac:(lia) ltac:(lia))).
    rewrite !take_ge by lia. rewrite <- lex_eq. by destruct (lex_lt (key a) (key b)), (lex_lt (key b) (key a)).
  - rewrite bool_decide_eq_false_2; [done|]. intros Hk. by rewrite Hk in *; lia.
Qed.

(** Addresses can be keys: no comparison reads behind an address, [operator<] is
    irreflexive, transitive and total up to [operator==], which holds exactly when neither is
    less, and [operator!=] is its negation. *)
Theorem addresses_ordered {St} (s : St) a b c : wf_address a → wf_address b → wf_address c →
  ∃ ab ba bc ac eq, operator_lt a b s = Ret ab s ∧ operator_lt b a s = Ret ba s ∧ operator_lt b c s = Ret bc s ∧
    operator_lt a c s = Ret ac s ∧ operator_eq a b s = Ret eq s ∧ operator_ne a b s = Ret (negb eq) s ∧
    operator_lt a a s = Ret false s ∧ (ab && bc = true → ac = true) ∧ eq = negb (ab || ba) ∧ ab && ba = false.
Proof.
  intros Ha Hb Hc. do 5 eexists. rewrite !operator_lt_ok, operator_eq_ok by done.
  split_and!; [done|done|done|done|done| | | | |].
  - unfold operator_ne, fmap, M_fmap. by rewrite (bind_Ret _ _ _ _ _ (operator_eq_ok a b s Ha Hb)).
  - by rewrite lex_lt_irrefl.
  - rewrite andb_true_iff. intros []. by eapply lex_lt_trans.
  - symmetry. apply lex_eq.
  - apply andb_false_iff. destruct (lex_lt (key a) (key b)) eqn:E1; [|by left]. right.
    destruct (lex_lt (key b) (key a)) eqn:E2; [|done]. by rewrite <- (lex_lt_irrefl (key a)), (lex_lt_trans _ _ _ E1 E2).
Qed.

(** ** Unix paths *)

Lemma take_path path n : n ≤ Z.of_nat (length path) + 1 → 0 ≤ n ≤ 108 →
  memcpy_from (path ++ [nul]) 0 (Z.to_nat n) = Some (take (Z.to_nat n) (path ++ [nul])) ∧
  memcpy_to no_path 0 (take (Z.to_nat n) (path ++ [nul])) =
    Some (take (Z.to_nat n) (path ++ [nul]) ++ replicate (108 - Z.to_nat n) nul).
Proof.
  intros Hn Hb.
  assert (length (path ++ [nul]) = S (length path)) as Hl by (rewrite length_app; cbn; lia).
  rewrite memcpy_from_Some by lia. unfold slice. rewrite drop_0. split; [done|].
  unfold no_path. rewrite memcpy_to_Some by (rewrite length_take, length_replicate, Hl; unfold path_size; lia).
  unfold splice. rewrite take_0, app_nil_l, length_take, Hl. do 2 f_equal.
  rewrite Nat.add_0_l, drop_replicate. f_equal. unfold path_size. lia.
Qed.

Lemma find_nul (path rest : bytes) : nul ∉ path → find_if (is_char nul) (path ++ nul :: rest) = Some (length path).
Proof.
  induction path as [|b path IH]; [done|]. rewrite not_elem_of_cons. intros [Hb Hp]. cbn.
  assert (is_char nul b = false) as -> by (by apply bool_decide_eq_false_2). by rewrite IH.
Qed.

Lemma stored_length (path : bytes) : Z.of_nat (length path) + 1 < 2 ^ 32 →
  u32 (Z.of_nat (length path) + 1) = Z.of_nat (length path) + 1 ∧
  u32 (Z.of_nat (length path) + 1 - 1) = Z.of_nat (length path).
Proof. intros. split; rewrite wrap_small; unfold in_u; lia. Qed.

Lemma Unix_path_ok {St} (s : St) path : path ≠ [] → nul ∉ path → (length path <= 107)%nat →
  ∃ u, Unix_new path s = Ret (UnixAddress u (Z.of_nat (length path) + 3)) s ∧
    Unix_GetPath u (Z.of_nat (length path) + 3) s = Ret path s.
Proof.
  intros Hne Hn Hp.
  assert (∀ r, head (path ++ r) ≠ Some nul) as Hh by (intros r; destruct path; [done|]; cbn; intros [= ->]; apply Hn; by left).
  unfold Unix_new. rewrite (proj1 (stored_length path ltac:(lia))).
  pose proof (Hh []) as Hh0. rewrite app_nil_r in Hh0. rewrite bool_decide_eq_false_2 by done.
  rewrite (proj2 (Z.ltb_ge _ _)) by (unfold path_size; lia).
  destruct (take_path path (Z.of_nat (length path) + 1)) as [-> ->]; [lia..|].
  rewrite (take_ge (path ++ [nul])) by (rewrite length_app; cbn; lia). rewrite <- app_assoc. cbn [app].
  rewrite wrap_small by (unfold in_u, path_offset; lia). eexists. split.
  { unfold mret, M_ret. do 2 f_equal. unfold path_offset. lia. }
  unfold Unix_GetPath. cbn [sun_path]. rewrite andb_comm, bool_decide_eq_false_2 by apply Hh. cbn [andb].
  rewrite find_nul by done. by rewrite take_app_length.
Qed.

Lemma Unix_abstract_ok {St} (s : St) name : (length name < 108)%nat →
  ∃ u, Unix_new (nul :: name) s = Ret (UnixAddress u (Z.of_nat (length name) + 3)) s ∧
    Unix_GetPath u (Z.of_nat (length name) + 3) s = Ret (bs "\0" ++ name) s ∧
    ∀ n, 110 < n → Unix_GetPath u n s = Undef out_of_bounds.
Proof.
  intros Hp. unfold Unix_new. rewrite (proj1 (stored_length (nul :: name) ltac:(cbn [length]; lia))).
  rewrite bool_decide_eq_true_2, (proj2 (stored_length (nul :: name) ltac:(cbn [length]; lia))) by done.
  rewrite (proj2 (Z.ltb_ge _ _)) by (unfold path_size; cbn [length]; lia).
  destruct (take_path (nul :: name) (Z.of_nat (length (nul :: name)))) as [-> ->]; [cbn [length]; lia..|].
  rewrite Nat2Z.id, take_app_length. rewrite wrap_small by (unfold in_u, path_offset; cbn [length]; lia). eexists.
  split; [unfold mret, M_ret, path_offset; do 2 f_equal; cbn [length]; lia|].
  assert (∀ n, 2 < n → Unix_GetPath (mkUn AF_UNIX ((nul :: name) ++ replicate (108 - length (nul :: name)) nul)) n s =
    match memcpy_from ((nul :: name) ++ replicate (108 - length (nul :: name)) nul) 1 (Z.to_nat (n - 2 - 1)) with
    | None => Undef out_of_bounds | Some x => Ret (bs "\0" ++ x) s end) as Hg.
  { intros n Hn. unfold Unix_GetPath, path_offset. rewrite (proj2 (Z.ltb_lt _ _)) by lia.
    rewrite bool_decide_eq_true_2 by done. cbn [andb sun_path]. by destruct (memcpy_from _ _ _). }
  split.
  - rewrite Hg by lia. rewrite memcpy_from_Some by (rewrite length_app, length_replicate; cbn [length]; lia).
    unfold slice. change (drop 1 ((nul :: name) ++ ?r)) with (name ++ r).
    by rewrite take_app_length' by lia.
  - intros n Hn. rewrite Hg by lia. unfold memcpy_from.
    by rewrite (proj2 (Nat.leb_gt _ _)) by (rewrite length_app, length_replicate; cbn [length]; lia).
Qed.

(** A Unix path of up to 107 bytes, or an abstract one of up to 108, is stored and comes
    back from [GetPath], the latter with its NUL spelled out; longer ones throw; and a length
    set behind the structure makes [GetPath] read there. *)
Theorem unix_paths {St} (s : St) path : Z.of_nat (length path) + 1 < 2 ^ 32 →
  (path ≠ [] → nul ∉ path → (length path <= 107)%nat →
    ∃ u, Unix_new path s = Ret (UnixAddress u (Z.of_nat (length path) + 3)) s ∧
      Unix_GetPath u (Z.of_nat (length path) + 3) s = Ret path s) ∧
  (∀ name, path = nul :: name → (length name < 108)%nat →
    ∃ u, Unix_new path s = Ret (UnixAddress u (Z.of_nat (length name) + 3)) s ∧
      Unix_GetPath u (Z.of_nat (length name) + 3) s = Ret (bs "\0" ++ name) s ∧
      ∀ n, 110 < n → Unix_GetPath u n s = Undef out_of_bounds) ∧
  ((head path ≠ Some nul ∧ (107 < length path)%nat) ∨ (head path = Some nul ∧ (108 < length path)%nat) →
    Unix_new path s = Throw logic_error s).
Proof.
  intros Hlen. split_and!; [by apply Unix_path_ok|by intros name ->; apply Unix_abstract_ok|].
  unfold Unix_new. destruct (stored_length path Hlen) as [Hu Hu1]. rewrite Hu.
  intros [[Hh Hl]|[Hh Hl]].
  - rewrite bool_decide_eq_false_2 by done. by rewrite (proj2 (Z.ltb_lt _ _)) by (unfold path_size; lia).
  - rewrite bool_decide_eq_true_2, Hu1 by done. by rewrite (proj2 (Z.ltb_lt _ _)) by (unfold path_size; lia).
Qed.
(** ** Interfaces *)

Definition ones_in_bytes (l : bytes) : Z := foldr (λ b n, ones_in (uchar b) + n) 0 l.

Lemma ones_in_uchar b : 0 ≤ ones_in (uchar b) ≤ 8.
Proof.
  pose proof (uchar_range b). destruct (uchar b) as [|p|p]; [cbn; lia| |lia]. cbn [ones_in].
  pose proof (ones_of_pos p). split; [lia|]. apply ones_of_bound; lia.
Qed.

Lemma count_netmask6_ok l p : 0 ≤ p → p + 8 * Z.of_nat (length l) < 2 ^ 32 →
  foldl (λ o b, p ← o; n ← CountBits 8 (uchar b); Some (u32 (p + n))) (Some p) l = Some (p + ones_in_bytes l).
Proof.
  revert p. induction l as [|b l IH]; intros p Hp Hl; cbn [foldl ones_in_bytes foldr]; [f_equal; lia|].
  cbn [length] in Hl. pose proof (ones_in_uchar b). cbn [mbind option_bind].
  rewrite CountBits_ok by (lia || apply uchar_range). cbn [mbind option_bind].
  rewrite wrap_small by (unfold in_u; lia). rewrite IH by lia. f_equal. unfold ones_in_bytes. lia.
Qed.

(** What an entry of the list contributes. *)
Definition contribution (family : Z) (e : ifaddrs) : option (bytes * (Address * Z)) :=
  match ifa_addr e, ifa_netmask e with
  | Some (of_in i), Some (of_in k) =>
    if (family =? AF_UNSPEC) || (family =? sin_family i) then Some (ifa_name e, (IPv4Address i, ones_in (s_addr k))) else None
  | Some (of_in6 i), Some (of_in6 k) =>
    if (family =? AF_UNSPEC) || (family =? sin6_family i) then Some (ifa_name e, (IPv6Address i, ones_in_bytes (s6_addr k))) else None
  | _, _ => None
  end.
(** An entry with an address and the netmask that goes with it. *)
Definition complete (e : ifaddrs) : Prop :=
  match ifa_addr e, ifa_netmask e with
  | Some (of_in i), Some (of_in k) => in_u 32 (s_addr k)
  | Some (of_in6 i), Some (of_in6 k) => length (s6_addr k) = 16%nat
  | Some (of_any _), _ => True
  | _, _ => False
  end.

Definition insert_all (m : Interfaces) (l : list (bytes * (Address * Z))) : Interfaces :=
  foldl (λ m r, multi_insert m r.1 r.2) m l.

Lemma interfaces_loop_app {St} family results more m (s : St) : Forall complete results →
  interfaces_loop family (results ++ more) m s = interfaces_loop family more (insert_all m (omap (contribution family) results)) s.
Proof.
  intros Hr. revert m. induction Hr as [|e results He Hr IH]; intros m; [done|].
  cbn [app interfaces_loop omap list_omap]. unfold complete in He. unfold contribution at 1. unfold interface_of.
  destruct (ifa_addr e) as [[i|i|i]|]; [destruct (ifa_netmask e) as [[k|k|k]|]; [|done..]| | |done].
  - pose proof (CountBits_ok 32 (s_addr k) ltac:(lia) He) as Hc. unfold mbind, M_bind.
    destruct (Z.eqb_spec family AF_UNSPEC); cbn -[CountBits]; [rewrite Hc; apply IH|].
    destruct (Z.eqb_spec family (sin_family i)); cbn -[CountBits]; [rewrite Hc|]; apply IH.
  - destruct (ifa_netmask e) as [[k|k|k]|]; [done| |done..].
    assert (count_netmask6 (s6_addr k) = Some (ones_in_bytes (s6_addr k))) as Hc
      by (unfold count_netmask6; rewrite count_netmask6_ok by (rewrite ?He; lia); done).
    unfold mbind, M_bind. destruct (Z.eqb_spec family AF_UNSPEC); cbn -[count_netmask6]; [rewrite Hc; apply IH|].
    destruct (Z.eqb_spec family (sin6_family i)); cbn -[count_netmask6]; [rewrite Hc|]; apply IH.
  - unfold mbind, M_bind. destruct (Z.eqb_spec family AF_UNSPEC); cbn; [apply IH|].
    destruct (Z.eqb_spec family (sa_family i)); cbn; apply IH.
Qed.

Lemma interfaces_loop_ok {St} family results m (s : St) : Forall complete results →
  interfaces_loop family results m s = Ret (insert_all m (omap (contribution family) results)) s.
Proof. intros Hr. rewrite <- (app_nil_r results) at 1. by rewrite interfaces_loop_app. Qed.

(** The map is in the order of its keys, and equal ones in that of their insertion. *)
Abbreviation above := (λ x y : bytes * (Address * Z), lex_lt (map uchar y.1) (map uchar x.1) = false).

Lemma map_uchar_inj (a b : bytes) : map uchar a = map uchar b → a = b.
Proof.
  revert b. induction a as [|x a IH]; intros [|y b] E; try done. cbn in E. injection E as E1 E2.
  f_equal; [|by apply IH]. rewrite <- (byte.of_Z_unsigned x), <- (byte.of_Z_unsigned y). by f_equal.
Qed.

Lemma multi_insert_elem m k v x : x ∈ multi_insert m k v → x = (k, v) ∨ x ∈ m.
Proof.
  induction m as [|[k' v'] m IH]; cbn; [by intros ->%list_elem_of_singleton; left|].
  destruct (lex_lt _ _); rewrite !elem_of_cons; [tauto|]. intros [->|Hx]; [auto|]. destruct (IH Hx); auto.
Qed.

Lemma multi_insert_ok m k v key : StronglySorted above m → StronglySorted above (multi_insert m k v) ∧
  filter (λ r, r.1 = key) (multi_insert m k v) = filter (λ r, r.1 = key) m ++ (if decide (k = key) then [(k, v)] else []).
Proof.
  induction 1 as [|[k' v'] m Hm IH Hk]; cbn [multi_insert].
  { split; [by repeat constructor|]. rewrite filter_cons, filter_nil. cbn. by case_decide. }
  destruct (lex_lt (map uchar k) (map uchar k')) eqn:E.
  - split.
    + constructor; [by constructor|]. constructor.
      * cbn. destruct (lex_lt (map uchar k') (map uchar k)) eqn:E2; [|done].
        by rewrite <- (lex_lt_irrefl (map uchar k)), (lex_lt_trans _ _ _ E E2).
      * eapply Forall_impl; [exact Hk|]. intros [k2 v2] H2. cbn in *.
        destruct (lex_lt (map uchar k2) (map uchar k)) eqn:E2; [|done]. by rewrite <- H2, (lex_lt_trans _ _ _ E2 E).
    + rewrite (filter_cons _ (k, v)). cbn [fst]. case_decide as Hd; [|by rewrite app_nil_r]. subst key.
      assert (filter (λ r : bytes * (Address * Z), r.1 = k) ((k', v') :: m) = []) as ->; [|done].
      apply elem_of_nil_inv. intros x [Hk1 Hx]%list_elem_of_filter. rewrite Forall_forall in Hk.
      apply elem_of_cons in Hx as [->|Hx]; cbn in *; [by rewrite Hk1, lex_lt_irrefl in E|].
      specialize (Hk _ Hx). cbn in Hk. rewrite Hk1 in Hk. congruence.
  - destruct IH as [IH1 IH2]. split.
    + constructor; [done|]. rewrite Forall_forall in *. intros x [->|Hx]%multi_insert_elem; [exact E|by apply Hk].
    + rewrite !filter_cons. cbn [fst]. rewrite IH2. by destruct (decide (k' = key)).
Qed.

Lemma insert_all_ok l m key : StronglySorted above m →
  filter (λ r, r.1 = key) (insert_all m l) = filter (λ r, r.1 = key) m ++ filter (λ r, r.1 = key) l.
Proof.
  revert m. induction l as [|[k v] l IH]; intros m Hm; [cbn; by rewrite app_nil_r|].
  destruct (multi_insert_ok m k v key Hm) as [H1 H2].
  change (insert_all m ((k, v) :: l)) with (insert_all (multi_insert m k v) l).
  rewrite IH, H2 by done. rewrite <- app_assoc, filter_cons. cbn [fst]. by destruct (decide (k = key)).
Qed.

(** Asked for an interface by name, [GetInterfaceAddresses] returns the addresses of that
    interface and of the family, in the order of the system's list, with the number of bits
    of their netmasks, and whether there is one; an entry without an address, which the
    system's list may have, is dereferenced all the same. *)
Theorem interfaces_by_name {St} (s : St) results iface family : iface ≠ [] → iface ≠ bs "*" →
  (Forall complete results →
   let found := map snd (filter (λ r, r.1 = iface) (omap (contribution family) results)) in
   GetInterfaceAddresses_of (Some results) iface family [] s = Ret (negb (bool_decide (found = [])), found) s) ∧
  (∀ before e after, results = before ++ e :: after → Forall complete before → ifa_addr e = None →
   GetInterfaceAddresses_of (Some results) iface family [] s = Undef null_deref).
Proof.
  intros Hi1 Hi2. unfold GetInterfaceAddresses_of. rewrite !bool_decide_eq_false_2 by done. cbn [orb]. split.
  - intros Hc. set (found := map snd (filter (λ r, r.1 = iface) (omap (contribution family) results))). unfold GetInterfaceAddresses, mbind, M_bind. rewrite interfaces_loop_ok by done. cbn.
    pose proof (insert_all_ok (omap (contribution family) results) [] iface ltac:(constructor)) as Hf.
    set (m := insert_all [] (omap (contribution family) results)) in *. cbn in Hf.
    case_bool_decide as Hm; cbn.
    + unfold found. rewrite <- Hf, Hm. done.
    + by rewrite Hf.
  - intros before e after -> Hb He. unfold GetInterfaceAddresses, mbind, M_bind. rewrite interfaces_loop_app by done.
    cbn [interfaces_loop]. unfold interface_of. rewrite He. by destruct (family =? AF_UNSPEC).
Qed.
End laws.

#[local] Instance little : HostOrder := YGW_LITTLE_ENDIAN.

Lemma addresses_ordered_witness :
  ∃ ab ba bc ac eq, operator_lt (IPv4Address sample4) (IPv6Address sample6) tt = Ret ab tt ∧
    operator_lt (IPv6Address sample6) (IPv4Address sample4) tt = Ret ba tt ∧
    operator_lt (IPv6Address sample6) Unix_default tt = Ret bc tt ∧
    operator_lt (IPv4Address sample4) Unix_default tt = Ret ac tt ∧
    operator_eq (IPv4Address sample4) (IPv6Address sample6) tt = Ret eq tt ∧
    operator_ne (IPv4Address sample4) (IPv6Address sample6) tt = Ret (negb eq) tt ∧
    operator_lt (IPv4Address sample4) (IPv4Address sample4) tt = Ret false tt ∧
    (ab && bc = true → ac = true) ∧ eq = negb (ab || ba) ∧ ab && ba = false.
Proof. apply (addresses_ordered tt); [done|done|]. split; [done|cbv; split; congruence]. Defined.

Lemma unix_paths_witness : ∃ u, Unix_new (bs "/tmp/s") tt = Ret (UnixAddress u 9) tt ∧ Unix_GetPath u 9 tt = Ret (bs "/tmp/s") tt.
Proof.
  assert (Z.of_nat (length (bs "/tmp/s")) + 1 < 2 ^ 32) as H by (cbn; lia).
  destruct (unix_paths tt (bs "/tmp/s") H) as [Hp _]. apply Hp; [done| |cbn; lia].
  apply (bool_decide_unpack _). vm_compute. exact I.
Defined.

Definition an_interface : ifaddrs :=
  mkIf (bs "eth0") (Some (of_in sample4)) (Some (of_in (IPv4_new 0xffffff00 0))).

Lemma interfaces_by_name_witness :
  GetInterfaceAddresses_of (Some [an_interface]) (bs "eth0") AF_INET [] tt = Ret (true, [(IPv4Address sample4, 24)]) tt ∧
  GetInterfaceAddresses_of (Some [an_interface; mkIf (bs "tun0") None None]) (bs "eth0") AF_INET [] tt = Undef null_deref.
Proof.
  assert (Forall complete [an_interface]) as H.
  { repeat constructor; vm_compute; congruence. }
  split.
  - exact (proj1 (interfaces_by_name tt [an_interface] (bs "eth0") AF_INET ltac:(done) ltac:(done)) H).
  - apply (proj2 (interfaces_by_name tt [an_interface; mkIf (bs "tun0") None None] (bs "eth0") AF_INET ltac:(done) ltac:(done))
      [an_interface] (mkIf (bs "tun0") None None) []); [done|exact H|done].
Defined.
