(* ===== verification/AddressText.v ===== *)
(** * The text of addresses, and the names given to [Lookup]

    A reader of the notation of RFC 4291 takes back what [IPv6Address::Insert] prints, and
    [Lookup] takes the printed address and port apart. *)
From stdpp Require Import list.
From coqutil Require Import Word.LittleEndianList.
From S2P Require Import Prelude Strings CLib ByteBuffer ByteCodec HttpTypes Address AddressMasks.
Local Open Scope Z_scope.

(** ** Reading *)

Definition dot : byte := byte.of_Z 46.

(** The parts between separators; there is always one. *)
Fixpoint fields (sep : byte) (s : bytes) : list bytes :=
  match s with
  | [] => [[]]
  | b :: s =>
    let r := fields sep s in
    if bool_decide (b = sep) then [] :: r
    else match r with f :: r => (b :: f) :: r | [] => [[b]] end
  end.

(** A group of one to four hexadecimal digits, and groups between colons. *)
Definition group (t : bytes) : option Z :=
  if (1 <=? length t)%nat && (length t <=? 4)%nat && forallb is_xdigit t then Some (strtol_digits 16 0 t) else None.
Definition groups (s : bytes) : option (list Z) := if bool_decide (s = []) then Some [] else mapM group (fields colon s).

(** The text of an IPv6 address: [::] stands for as many zeros as are missing. *)
Definition read6 (s : bytes) : option (list Z) :=
  match find_sub (bs "::") s with
  | Some i =>
    l ← groups (take i s); r ← groups (drop (i + 2) s);
    if (length l + length r <? 8)%nat then Some (l ++ replicate (8 - (length l + length r)) 0 ++ r) else None
  | None => l ← groups s; if (length l =? 8)%nat then Some l else None
  end.

(** A decimal number below 256, and four of them between dots. *)
Definition octet (t : bytes) : option Z :=
  if (1 <=? length t)%nat && forallb (λ b, (48 <=? uchar b) && (uchar b <=? 57)) t && (strtol_digits 10 0 t <? 256)
  then Some (strtol_digits 10 0 t) else None.
Definition read4 (s : bytes) : option Z :=
  match mapM octet (fields dot s) with
  | Some [a; b; c; d] => Some (((a * 256 + b) * 256 + c) * 256 + d)
  | _ => None
  end.

(** ** Numbers and separators *)

Definition hex_ok (v : Z) : bool :=
  match hex (Z.to_N v) with [] => false | t => forallb is_xdigit t && bool_decide (group t = Some v) end.

Lemma hex_good v : in_u 16 v → hex (Z.to_N v) ≠ [] ∧ forallb is_xdigit (hex (Z.to_N v)) = true ∧ group (hex (Z.to_N v)) = Some v.
Proof.
  intros Hv.
  assert (forallb (λ a, forallb (λ b, hex_ok (a * 256 + b)) (seqZ 0 256)) (seqZ 0 256) = true) as H by (vm_compute; reflexivity).
  unfold in_u in Hv. pose proof (Z.div_mod v 256). pose proof (Z.mod_pos_bound v 256).
  rewrite forallb_forall in H. specialize (H (v / 256) ltac:(apply list_elem_of_In, elem_of_seqZ; lia)).
  rewrite forallb_forall in H. specialize (H (v mod 256) ltac:(apply list_elem_of_In, elem_of_seqZ; lia)).
  replace (v / 256 * 256 + v `mod` 256) with v in H by lia. unfold hex_ok in H.
  destruct (hex (Z.to_N v)) as [|b t]; [done|]. apply andb_true_iff in H as [Hx Hg].
  by apply bool_decide_eq_true in Hg.
Qed.

Lemma octet_good v : in_u 8 v → octet (dec (Z.to_N v)) = Some v.
Proof.
  intros Hv. assert (forallb (λ v, bool_decide (octet (dec (Z.to_N v)) = Some v)) (seqZ 0 256) = true) as H by (vm_compute; reflexivity).
  rewrite forallb_forall in H. specialize (H v ltac:(apply list_elem_of_In, elem_of_seqZ; unfold in_u in Hv; lia)).
  by apply bool_decide_eq_true in H.
Qed.

Lemma not_in_class (P : byte → bool) s b : forallb P s = true → P b = false → b ∉ s.
Proof. intros Hs Hb Hin. rewrite forallb_forall in Hs. apply list_elem_of_In, Hs in Hin. congruence. Qed.

Lemma hex_free v : in_u 16 v → (colon ∉ hex (Z.to_N v)) ∧ (right_bracket ∉ hex (Z.to_N v)).
Proof. intros Hv. destruct (hex_good v Hv) as (_ & Hx & _). split; by apply (not_in_class is_xdigit). Qed.

Lemma not_in_dec n b : (48 <=? uchar b) && (uchar b <=? 57) = false → (b ∉ dec n).
Proof.
  intros Hb. destruct (dec_digits n) as (a & s & -> & Hd).
  by apply (not_in_class (λ b, (48 <=? uchar b) && (uchar b <=? 57))).
Qed.

(** Texts joined by a separator. *)
Fixpoint joined (sep : byte) (l : list bytes) : bytes :=
  match l with
  | [] => []
  | [t] => t
  | t :: l => t ++ sep :: joined sep l
  end.

Lemma fields_one sep t : sep ∉ t → fields sep t = [t].
Proof.
  induction t as [|b t IH]; [done|]. rewrite not_elem_of_cons. intros [Hb Ht]. cbn [fields].
  rewrite IH by done. by rewrite bool_decide_eq_false_2 by congruence.
Qed.
Lemma fields_app sep t s : sep ∉ t → fields sep (t ++ sep :: s) = t :: fields sep s.
Proof.
  induction t as [|b t IH]; cbn [app fields]; [by rewrite bool_decide_eq_true_2|].
  rewrite not_elem_of_cons. intros [Hb Ht]. rewrite IH by done. by rewrite bool_decide_eq_false_2 by congruence.
Qed.
Lemma fields_joined sep l : l ≠ [] → Forall (λ t, sep ∉ t) l → fields sep (joined sep l) = l.
Proof.
  intros Hne Hl. induction Hl as [|t l Ht Hl IH]; [done|]. destruct l as [|u l]; [by apply fields_one|].
  change (joined sep (t :: u :: l)) with (t ++ sep :: joined sep (u :: l)). by rewrite fields_app, IH.
Qed.

(** ** Printing IPv6 addresses *)

Section text.
Context `{HostOrder}.

Abbreviation swap16 := (ByteswapOnLittleEndian 2 u16).

Definition shown (w : Z) : bytes := hex (Z.to_N (swap16 w)).
Definition good_word (w : Z) : Prop := in_u 16 w.

Lemma swap16_range w : good_word w → in_u 16 (swap16 w).
Proof. unfold ByteswapOnLittleEndian, Byteswap. destruct YGW_BYTE_ORDER; intros; [|done]. by apply wrap_range. Qed.

Lemma Insert_used ws v : Insert_words ws (Some v) true = (concat (map (λ w, colon :: shown w) ws), true).
Proof.
  revert v. induction ws as [|w ws IH]; intros v; [done|]. cbn [Insert_words]. rewrite !andb_false_r. cbn [orb]. by rewrite IH.
Qed.

Lemma Insert_zeros n ws before : Insert_words (replicate (S n) 0 ++ ws) before false = Insert_words ws (Some 0) false.
Proof. revert before. induction n as [|n IH]; intros before; [done|]. exact (IH (Some 0)). Qed.

Lemma last_default (w : Z) A v : List.last (w :: A) v = List.last A w.
Proof.
  destruct A as [|a A]; [done|]. cbn. revert a. induction A as [|b A IH]; intros a; [done|apply IH].
Qed.

Lemma Insert_nonzero A ws v : v ≠ 0 → Forall (λ w, w ≠ 0) A →
  Insert_words (A ++ ws) (Some v) false =
  let '(os, used) := Insert_words ws (Some (List.last A v)) false in (concat (map (λ w, colon :: shown w) A) ++ os, used).
Proof.
  intros Hv HA. revert v Hv. induction HA as [|w A Hw HA IH]; intros v Hv; [cbn; by destruct (Insert_words _ _ _)|].
  cbn [app Insert_words]. rewrite (proj2 (Z.eqb_neq w 0)), (proj2 (Z.eqb_neq v 0)) by done. cbn [andb orb negb].
  rewrite IH by done. rewrite (last_default w A v).
  destruct (Insert_words _ _ _). cbn. by rewrite <- !app_assoc.
Qed.

Lemma joined_concat w A : joined colon (map shown (w :: A)) = shown w ++ concat (map (λ w, colon :: shown w) A).
Proof.
  revert w. induction A as [|a A IH]; intros w; [cbn; by rewrite app_nil_r|].
  change (joined colon (map shown (w :: a :: A))) with (shown w ++ colon :: joined colon (map shown (a :: A))). by rewrite IH.
Qed.
(** Where the zeros are: nowhere, or between words without zeros and the rest. *)
Lemma zero_run ws : Forall (λ w, w ≠ 0) ws ∨
  ∃ A n B, ws = A ++ replicate (S n) 0 ++ B ∧ Forall (λ w, w ≠ 0) A ∧ head B ≠ Some 0.
Proof.
  induction ws as [|w ws IH]; [by left|]. destruct (decide (w = 0)) as [->|Hw].
  - right. assert (∃ n B, ws = replicate n 0 ++ B ∧ head B ≠ Some 0) as (n & B & -> & HB).
    { clear IH. induction ws as [|w ws IH]; [by exists 0%nat, []|]. destruct (decide (w = 0)) as [->|Hw].
      - destruct IH as (n & B & -> & HB). by exists (S n), B.
      - exists 0%nat, (w :: ws). split; [done|]. cbn. congruence. }
    by exists [], n, B.
  - destruct IH as [IH|(A & n & B & -> & HA & HB)]; [left; by constructor|]. right.
    exists (w :: A), n, B. split_and!; [done|by constructor|done].
Qed.

Lemma Insert_prefix A ws : Forall (λ w, w ≠ 0) A → A ≠ [] → ∃ v, v ≠ 0 ∧
  Insert_words (A ++ ws) None false =
  let '(os, used) := Insert_words ws (Some v) false in (joined colon (map shown A) ++ os, used).
Proof.
  intros HA Hne. destruct HA as [|w A Hw HA]; [done|]. exists (List.last A w). split.
  { clear Hne. revert w Hw. induction HA as [|a A Ha HA IH]; intros w Hw; [done|]. rewrite last_default. by apply IH. }
  cbn [app Insert_words]. rewrite (proj2 (Z.eqb_neq w 0)) by done. cbn [andb orb negb].
  rewrite Insert_nonzero by done. rewrite joined_concat. destruct (Insert_words _ _ _). by rewrite <- !app_assoc.
Qed.

(** The zeros and what follows them. *)
Lemma Insert_tail n B before : head B ≠ Some 0 →
  Insert_words (replicate (S n) 0 ++ B) before false =
  match B with [] => ([], false) | _ => (bs "::" ++ joined colon (map shown B), true) end.
Proof.
  intros HB. rewrite Insert_zeros. destruct B as [|b B]; [done|]. cbn [Insert_words].
  rewrite (proj2 (Z.eqb_neq b 0)) by (intros ->; by apply HB). cbn [andb orb negb].
  change (0 =? 0) with true. cbn [andb orb negb]. rewrite Insert_used, joined_concat. done.
Qed.

Lemma IPv6_text_shape ws : length ws = 8%nat →
  (Forall (λ w, w ≠ 0) ws ∧ IPv6_text ws = joined colon (map shown ws)) ∨
  ∃ A n B, ws = A ++ replicate (S n) 0 ++ B ∧ IPv6_text ws = joined colon (map shown A) ++ bs "::" ++ joined colon (map shown B).
Proof.
  intros Hl. destruct (zero_run ws) as [Hz|(A & n & B & -> & HA & HB)].
  - left. split; [done|]. unfold IPv6_text.
    destruct (Insert_prefix ws [] Hz) as (v & Hv & E); [by destruct ws|]. rewrite app_nil_r in E. rewrite E. cbn [Insert_words].
    assert (nth 7 ws 0 ≠ 0) as Hn by (apply (proj1 (List.Forall_forall _ _) Hz), nth_In; lia).
    rewrite (proj2 (Z.eqb_neq _ _)) by done. by rewrite andb_false_r, !app_nil_r.
  - right. exists A, n, B. split; [done|]. unfold IPv6_text.
    assert (Insert_words (A ++ replicate (S n) 0 ++ B) None false =
      match B with [] => (joined colon (map shown A), false)
      | _ => (joined colon (map shown A) ++ bs "::" ++ joined colon (map shown B), true) end) as ->.
    { destruct A as [|a A]; [cbn [app]; rewrite Insert_tail by done; by destruct B|].
      destruct (Insert_prefix (a :: A) (replicate (S n) 0 ++ B) HA) as (v & Hv & ->); [done|].
      rewrite Insert_tail by done. destruct B; [by rewrite app_nil_r|done]. }
    destruct B as [|b B]; [|by rewrite !app_nil_r]. cbn [negb andb].
    assert (nth 7 (A ++ replicate (S n) 0 ++ []) 0 = 0) as ->; [|done].
    rewrite app_nil_r in *. rewrite length_app, length_replicate in Hl. rewrite app_nth2 by lia.
    by rewrite nth_lookup, lookup_replicate_2 by lia.
Qed.

(** ** Reading it back *)

Lemma find_sub_free (t r : bytes) : colon ∉ t → find_sub (bs "::") (t ++ r) = Nat.add (length t) <$> find_sub (bs "::") r.
Proof.
  induction t as [|b t IH]; intros Ht; [cbn [app length]; by destruct (find_sub _ r)|].
  apply not_elem_of_cons in Ht as [Hb Ht]. cbn [app find_sub].
  assert (starts_with (bs "::") (b :: t ++ r) = false) as ->.
  { change (bs "::") with [colon; colon]. cbn [starts_with]. by rewrite bool_decide_eq_false_2. }
  rewrite IH by done. by destruct (find_sub _ r).
Qed.

Lemma find_sub_single c (r : bytes) : c ≠ colon → find_sub (bs "::") (colon :: c :: r) = S <$> find_sub (bs "::") (c :: r).
Proof.
  intros Hc. change (find_sub (bs "::") (colon :: c :: r)) with
    (if starts_with (bs "::") (colon :: c :: r) then Some 0%nat else S <$> find_sub (bs "::") (c :: r)).
  change (bs "::") with [colon; colon]. cbn [starts_with]. rewrite (bool_decide_eq_false_2 (colon = c)) by congruence.
  by rewrite andb_false_r.
Qed.

Definition plain_text (t : bytes) : Prop := t ≠ [] ∧ colon ∉ t.

Lemma shown_plain ws : Forall good_word ws → Forall plain_text (map shown ws).
Proof.
  induction 1 as [|w ws Hw Hws IH]; [constructor|]. constructor; [|done].
  pose proof (swap16_range w Hw) as Hs. split; [apply (hex_good _ Hs)|apply (hex_free _ Hs)].
Qed.

Lemma find_sub_joined l r : Forall plain_text l →
  find_sub (bs "::") (joined colon l ++ r) = Nat.add (length (joined colon l)) <$> find_sub (bs "::") r.
Proof.
  intros Hl. induction Hl as [|t l [Hne Ht] Hl IH]; [cbn [joined app length]; by destruct (find_sub _ r)|].
  destruct l as [|u l]; [by apply find_sub_free|].
  change (joined colon (t :: u :: l)) with (t ++ colon :: joined colon (u :: l)). rewrite <- app_assoc, find_sub_free by done.
  assert (∃ c x, joined colon (u :: l) = c :: x ∧ c ≠ colon) as (c & x & E & Hc).
  { apply Forall_cons in Hl as [[Hu Hu2] _]. destruct u as [|c u]; [done|]. apply not_elem_of_cons in Hu2 as [Hc _].
    destruct l; (eexists c, _; split; [reflexivity|congruence]). }
  rewrite E in *. cbn [app]. rewrite find_sub_single by done. cbn [app] in IH. rewrite IH.
  rewrite length_app. destruct (find_sub _ r); [|done]. cbn. f_equal. lia.
Qed.

Lemma groups_shown ws : Forall good_word ws → groups (joined colon (map shown ws)) = Some (map swap16 ws).
Proof.
  intros Hws. unfold groups. destruct ws as [|w ws]; [done|].
  pose proof (shown_plain _ Hws) as Hp. rewrite bool_decide_eq_false_2.
  - rewrite fields_joined; [|done|eapply Forall_impl; [exact Hp|by intros t []]].
    apply mapM_Some. clear Hp. induction Hws as [|v vs Hv Hvs IH]; [constructor|]. constructor; [|done].
    apply (hex_good _ (swap16_range v Hv)).
  - intros E. apply Forall_cons in Hp as [[Hne _] _]. rewrite joined_concat in E. by apply app_nil in E as [? _].
Qed.

Lemma swap16_0 : swap16 0 = 0.
Proof. unfold ByteswapOnLittleEndian. by destruct YGW_BYTE_ORDER. Qed.

Lemma read6_text ws : length ws = 8%nat → Forall good_word ws → read6 (IPv6_text ws) = Some (map swap16 ws).
Proof.
  intros Hl Hg. unfold read6. destruct (IPv6_text_shape ws Hl) as [[_ ->]|(A & n & B & -> & ->)].
  - rewrite <- (app_nil_r (joined colon (map shown ws))), find_sub_joined by (by apply shown_plain).
    change (find_sub (bs "::") []) with (@None nat). cbn [fmap option_fmap option_map]. rewrite app_nil_r, groups_shown by done.
    cbn [mbind option_bind]. by rewrite length_map, Hl.
  - rewrite !Forall_app in Hg. destruct Hg as (HA & _ & HB).
    rewrite find_sub_joined by (by apply shown_plain).
    assert (find_sub (bs "::") (bs "::" ++ joined colon (map shown B)) = Some 0%nat) as -> by done.
    cbn [fmap option_fmap option_map]. rewrite Nat.add_0_r, take_app_length, <- drop_drop, drop_app_length.
    change (drop 2 (bs "::" ++ ?x)) with x. rewrite !groups_shown by done. cbn [mbind option_bind].
    rewrite !length_app, length_replicate in Hl. rewrite !length_map, (proj2 (Nat.ltb_lt _ _)) by lia.
    rewrite !map_app. do 3 f_equal. replace (8 - (length A + length B))%nat with (S n) by lia.
    clear. generalize (S n). intros k. induction k as [|k IH]; [done|]. cbn. by rewrite swap16_0, <- IH.
Qed.

(** The 16-bit groups of the bytes, the first byte on top. *)
Fixpoint pairs (l : bytes) : list Z :=
  match l with a :: b :: l => uchar a * 256 + uchar b :: pairs l | _ => [] end.

Lemma swap16_pair a b : swap16 (object_value [a; b]) = uchar a * 256 + uchar b.
Proof.
  pose proof (uchar_range a). pose proof (uchar_range b).
  unfold ByteswapOnLittleEndian, Byteswap, object_value, value_of. destruct YGW_BYTE_ORDER.
  - unfold bswap. rewrite (split_le_combine' [a; b] 2) by done. cbn [rev app].
    change (le_combine [b; a]) with (Z.lor (uchar b) (Z.shiftl (Z.lor (uchar a) 0) 8)).
    rewrite Z.lor_0_r, lor_shiftl_add by (unfold in_u; lia). rewrite wrap_small by (unfold in_u; lia). lia.
  - cbn [rev app]. change (le_combine [b; a]) with (Z.lor (uchar b) (Z.shiftl (Z.lor (uchar a) 0) 8)).
    rewrite Z.lor_0_r, lor_shiftl_add by (unfold in_u; lia). lia.
Qed.

Lemma words_ok a : length (s6_addr a) = 16%nat →
  map swap16 (map (word a) (seq 0 8)) = pairs (s6_addr a) ∧ Forall good_word (map (word a) (seq 0 8)).
Proof.
  intros Hl. unfold word.
  assert (∀ x y : byte, good_word (object_value [x; y])) as Hw.
  { intros x y. unfold good_word, in_u, object_value, value_of.
    destruct YGW_BYTE_ORDER; [pose proof (le_combine_bound [x; y])|pose proof (le_combine_bound (rev [x; y]))]; done. }
  destruct (s6_addr a) as [|b0 [|b1 [|b2 [|b3 [|b4 [|b5 [|b6 [|b7 [|b8 [|b9 [|b10 [|b11 [|b12 [|b13 [|b14 [|b15 [|? ?]]]]]]]]]]]]]]]]]; try done.
  cbn [seq map Nat.mul Nat.add slice drop take pairs]. unfold slice. cbn [drop take]. rewrite !swap16_pair. split; [done|].
  repeat constructor; apply Hw.
Qed.

(** [find_first_of] in text around the character. *)
Lemma memchr_at (x r : bytes) c from : (from <= length x)%nat → c ∉ drop from x → memchr (x ++ c :: r) c from = Some (length x).
Proof.
  intros Hf Hc. unfold memchr, find_from. rewrite drop_app_le by done.
  assert (∀ y, c ∉ y → find_if (is_char c) (y ++ c :: r) = Some (length y)) as Hi.
  { intros y. induction y as [|b y IH]; intros Hy; cbn [app find_if].
    - unfold is_char. by rewrite bool_decide_eq_true_2.
    - apply not_elem_of_cons in Hy as [Hb Hy]. rewrite IH by done. unfold is_char. by rewrite bool_decide_eq_false_2. }
  rewrite Hi by done. cbn. rewrite length_drop. f_equal. lia.
Qed.
Lemma memchr_none (x : bytes) c from : c ∉ drop from x → memchr x c from = None.
Proof.
  intros Hc. unfold memchr, find_from.
  assert (find_if (is_char c) (drop from x) = None) as ->; [|done].
  induction (drop from x) as [|b y IH]; [done|]. apply not_elem_of_cons in Hc as [Hb Hy]. cbn [find_if].
  rewrite IH by done. unfold is_char. by rewrite bool_decide_eq_false_2.
Qed.

(** ** Host names *)

(** A name and a port, with a colon in between. *)
Lemma split_host_port n p : n ≠ [] → colon ∉ n → colon ∉ p → head n ≠ Some left_bracket →
  split_host (n ++ colon :: p) = (n, Some (S (length n))).
Proof.
  intros Hne Hn Hp Hb. unfold split_host. rewrite bool_decide_eq_false_2 by (by destruct n).
  rewrite memchr_at by (cbn; done || lia). rewrite memchr_none.
  - rewrite take_app_length. by destruct n.
  - by rewrite (cons_middle colon), app_assoc, drop_app_length' by (rewrite length_app; cbn; lia).
Qed.

(** A name in brackets, with a port or without. *)
Lemma split_bracketed t r : t ≠ [] → right_bracket ∉ t → (∀ b, head r = Some b → b = colon) →
  split_host (left_bracket :: t ++ right_bracket :: r) = (t, match r with [] => None | _ => Some (length t + 3)%nat end).
Proof.
  intros Hne Ht Hr. unfold split_host. rewrite bool_decide_eq_true_2 by done.
  change (left_bracket :: t ++ right_bracket :: r) with ((left_bracket :: t) ++ right_bracket :: r).
  rewrite memchr_at by (cbn; done || lia). cbn [length].
  assert (substr ((left_bracket :: t) ++ right_bracket :: r) 1 (S (length t) - 1) = t) as ->.
  { unfold substr, slice. cbn [app drop]. rewrite Nat.sub_succ, Nat.sub_0_r. apply take_app_length. }
  assert (((left_bracket :: t) ++ right_bracket :: r) !! S (S (length t)) = head r) as ->.
  { rewrite lookup_app_r by (cbn [length]; lia). cbn [length].
    replace (S (S (length t)) - S (length t))%nat with 1%nat by lia. by destruct r. }
  destruct t as [|c t]; [done|]. destruct r as [|b r]; cbn [head]; [by rewrite bool_decide_eq_false_2|].
  rewrite (Hr b eq_refl), bool_decide_eq_true_2 by done. do 2 f_equal. cbn [length]. lia.
Qed.

(** Two colons without brackets: the name is all of it, and the pointer to the service is
    still at the first colon. *)
Lemma split_two_colons x y z : colon ∉ x → head x ≠ Some left_bracket →
  split_host (x ++ colon :: y ++ colon :: z) = (x ++ colon :: y ++ colon :: z, Some (length x)).
Proof.
  intros Hx Hb. unfold split_host. rewrite bool_decide_eq_false_2 by (destruct x; [done|exact Hb]).
  rewrite memchr_at by (cbn; done || lia).
  assert (∃ i, memchr (x ++ colon :: y ++ colon :: z) colon (S (length x)) = Some i) as (i & ->).
  { unfold memchr, find_from. rewrite (cons_middle colon), app_assoc, drop_app_length' by (rewrite length_app; cbn; lia).
    assert (∃ i, find_if (is_char colon) (y ++ colon :: z) = Some i) as (i & ->); [|by eexists].
    clear. induction y as [|b y IH]; cbn [app find_if].
    - unfold is_char. rewrite bool_decide_eq_true_2 by done. by eexists.
    - destruct (is_char colon b); [by eexists|]. destruct IH as (i & ->). by eexists. }
  by destruct x.
Qed.

(** ** Properties *)

Lemma c_str_dec n : c_str (dec n) = dec n.
Proof.
  destruct (dec_digits n) as (a & s & E & Hd). unfold c_str.
  pose proof (memchr_none (dec n) (byte.of_Z 0) 0 (not_in_dec n (byte.of_Z 0) eq_refl)) as Hm.
  unfold memchr, find_from in Hm. rewrite drop_0 in Hm. by destruct (find_if _ (dec n)).
Qed.

Lemma text_no_bracket ws : Forall good_word ws → length ws = 8%nat → (right_bracket ∉ IPv6_text ws) ∧ IPv6_text ws ≠ [].
Proof.
  intros Hg Hl.
  assert (∀ vs, Forall good_word vs → right_bracket ∉ joined colon (map shown vs)) as Hj.
  { clear. induction 1 as [|v vs Hv Hvs IH]; [apply not_elem_of_nil|]. rewrite joined_concat.
    pose proof (proj2 (hex_free _ (swap16_range v Hv))) as Hs. apply not_elem_of_app. split; [exact Hs|]. clear -Hvs.
    induction Hvs as [|u us Hu Hus IH]; [apply not_elem_of_nil|]. cbn [map concat].
    apply not_elem_of_app. split; [|done]. apply not_elem_of_cons. split; [done|]. apply (hex_free _ (swap16_range u Hu)). }
  destruct (IPv6_text_shape ws Hl) as [[_ ->]|(A & n & B & -> & ->)].
  - split; [by apply Hj|]. destruct ws as [|w ws]; [done|]. rewrite joined_concat. apply Forall_cons in Hg as [Hw _].
    pose proof (proj1 (hex_good _ (swap16_range w Hw))) as Hs. unfold shown. by destruct (hex _).
  - rewrite !Forall_app in Hg. destruct Hg as (HA & _ & HB). split; [|by destruct (joined colon (map shown A))].
    rewrite !not_elem_of_app. split_and!; [by apply Hj| |by apply Hj].
    by apply (bool_decide_unpack _); vm_compute.
Qed.

(** C31: the text of an IPv6 address, given to [Lookup], is taken apart into the text between the
    brackets and the port, and a reader of the notation of RFC 4291 takes back from the former
    the groups of the address; so different addresses print differently. *)
Theorem IPv6_text_roundtrip a : length (s6_addr a) = 16%nat →
  ∃ t, split_host (IPv6_Insert a) = (t, Some (length t + 3)%nat) ∧ read6 t = Some (pairs (s6_addr a)) ∧
    service_text (IPv6_Insert a) (Some (length t + 3)%nat) = Some (dec (Z.to_N (IPv6_GetPort a))).
Proof.
  intros Hl. destruct (words_ok a Hl) as [Hp Hg]. set (ws := map (word a) (seq 0 8)) in *.
  assert (length ws = 8%nat) as Hws by done. destruct (text_no_bracket ws Hg Hws) as [Hb Hne].
  exists (IPv6_text ws). unfold IPv6_Insert. fold ws. fold (IPv6_GetPort a).
  change (bs "[" ++ IPv6_text ws ++ bs "]:" ++ dec (Z.to_N (IPv6_GetPort a))) with
    (left_bracket :: IPv6_text ws ++ right_bracket :: colon :: dec (Z.to_N (IPv6_GetPort a))).
  split_and!.
  - by rewrite split_bracketed; [|done|done|intros b [= <-]].
  - by rewrite read6_text, Hp.
  - unfold service_text. cbn [fmap option_fmap option_map]. f_equal.
    replace (left_bracket :: IPv6_text ws ++ right_bracket :: colon :: dec (Z.to_N (IPv6_GetPort a)))
      with ((left_bracket :: IPv6_text ws ++ [right_bracket; colon]) ++ dec (Z.to_N (IPv6_GetPort a)))
      by (cbn [app]; by rewrite <- app_assoc).
    rewrite drop_app_length' by (cbn; rewrite !length_app; cbn; lia). apply c_str_dec.
Qed.

Lemma dec_joined l : Forall (λ v, in_u 8 v) l → l ≠ [] →
  mapM octet (fields dot (joined dot (map (λ v, dec (Z.to_N v)) l))) = Some l.
Proof.
  intros Hl Hne. rewrite fields_joined.
  - apply mapM_Some. clear Hne. induction Hl as [|v l Hv Hl IH]; [constructor|]. constructor; [|done]. by apply octet_good.
  - by destruct l.
  - clear. induction l as [|v l IH]; constructor; [by apply not_in_dec|done].
Qed.

Lemma value4_octets v : in_u 32 v →
  ((Z.land (Z.shiftr v 24) 0xff * 256 + Z.land (Z.shiftr v 16) 0xff) * 256 + Z.land (Z.shiftr v 8) 0xff) * 256 + Z.land (Z.shiftr v 0) 0xff = v.
Proof.
  intros Hv. unfold in_u in Hv. change 0xff with (2 ^ 8 - 1). rewrite !land_ones_mod by lia. rewrite !Z.shiftr_div_pow2 by lia.
  change (2 ^ 24) with (256 * 65536). change (2 ^ 16) with (256 * 256). change (2 ^ 8) with 256. change (2 ^ 0) with 1.
  rewrite Z.div_1_r. rewrite (Z.mod_small (v / (256 * 65536))) by (split; [apply Z.div_pos; lia|apply Z.div_lt_upper_bound; lia]).
  pose proof (Z.div_mod v 256). pose proof (Z.div_mod (v / 256) 256). pose proof (Z.div_mod (v / 256 / 256) 256).
  rewrite <- (Z.div_div v 256 256) by lia.
  replace (v / (256 * 65536)) with (v / 256 / 256 / 256) by (rewrite !Z.div_div by lia; done). lia.
Qed.

(** The text of an IPv4 address, given to [Lookup], is taken apart into the four numbers and
    the port, and the numbers read back as the address. *)
Theorem IPv4_text_roundtrip a : in_u 32 (s_addr a) →
  ∃ t, split_host (IPv4_Insert a) = (t, Some (S (length t))) ∧ read4 t = Some (value4 a) ∧
    service_text (IPv4_Insert a) (Some (S (length t))) = Some (dec (Z.to_N (IPv4_GetPort a))).
Proof.
  intros Ha. pose proof (swap32_range _ Ha) as Hv. fold (value4 a) in Hv.
  set (l := map (λ k, Z.land (Z.shiftr (value4 a) k) 0xff) [24; 16; 8; 0]).
  set (t := joined dot (map (λ v, dec (Z.to_N v)) l)). exists t.
  assert (Forall (λ v, in_u 8 v) l) as Hl.
  { unfold l. repeat constructor; change 0xff with (2 ^ 8 - 1); rewrite land_ones_mod by lia; apply Z.mod_pos_bound; lia. }
  assert (IPv4_Insert a = t ++ colon :: dec (Z.to_N (IPv4_GetPort a))) as ->.
  { unfold IPv4_Insert. fold (value4 a). fold (IPv4_GetPort a). unfold t, l. cbn [map joined].
    change (bs ".") with [dot]. change (bs ":") with [colon].
    repeat (rewrite <- app_assoc; cbn [app]). reflexivity. }
  assert (∀ c, (48 <=? uchar c) && (uchar c <=? 57) = false → c ≠ dot → c ∉ t) as Ht.
  { intros c Hc Hd. unfold t, l. cbn [map joined]. rewrite !not_elem_of_app, !not_elem_of_cons, !not_elem_of_app, !not_elem_of_cons.
    rewrite ?not_elem_of_app, ?not_elem_of_cons. split_and!; auto using not_in_dec. }
  assert (t ≠ []) as Hne by (unfold t, l; cbn [map joined]; by destruct (dec _)).
  split_and!.
  - apply split_host_port; [done|by apply Ht|by apply not_in_dec|].
    intros E. destruct t as [|b t']; [done|]. injection E as ->. by destruct (Ht left_bracket eq_refl ltac:(done)); left.
  - unfold read4, t. rewrite dec_joined by done. unfold l. cbn [map]. f_equal. by apply value4_octets.
  - unfold service_text. cbn [fmap option_fmap option_map]. f_equal.
    rewrite (cons_middle colon), app_assoc, drop_app_length' by (rewrite length_app; cbn; lia). apply c_str_dec.
Qed.

(** A name with two colons or more and no brackets, such as an IPv6 address by itself: the
    whole of it is the node, but the pointer to the service stays at the first colon, so the
    resolver is asked for a service whose name begins with a colon. *)
Theorem bare_IPv6_has_service x y z : colon ∉ x → head x ≠ Some left_bracket → byte.of_Z 0 ∉ x →
  let host := x ++ colon :: y ++ colon :: z in
  ∃ s, split_host host = (host, Some (length x)) ∧ service_text host (Some (length x)) = Some (colon :: s).
Proof.
  intros Hx Hb Hn host. unfold host. rewrite split_two_colons by done. unfold service_text. cbn [fmap option_fmap option_map].
  rewrite drop_app_length. unfold c_str. cbn [find_if].
  assert (is_char (byte.of_Z 0) colon = false) as -> by done. destruct (find_if _ _) as [i|]; by eexists.
Qed.
End text.

#[local] Instance little : HostOrder := YGW_LITTLE_ENDIAN.

Lemma IPv6_text_roundtrip_witness :
  split_host (bs "[2001:db8::7]:80") = (bs "2001:db8::7", Some 14%nat) ∧ read6 (bs "2001:db8::7") = Some (pairs (s6_addr sample6)).
Proof.
  destruct (IPv6_text_roundtrip sample6 eq_refl) as (t & E & Hr & _).
  assert (split_host (IPv6_Insert sample6) = (bs "2001:db8::7", Some 14%nat)) as E2 by (vm_compute; reflexivity).
  rewrite E2 in E. injection E as <- _. split; [vm_compute; reflexivity|exact Hr].
Defined.

Lemma IPv4_text_roundtrip_witness : split_host (bs "192.168.1.7:80") = (bs "192.168.1.7", Some 12%nat) ∧ read4 (bs "192.168.1.7") = Some 0xc0a80107.
Proof.
  assert (in_u 32 (s_addr sample4)) as H by (vm_compute; split; congruence).
  destruct (IPv4_text_roundtrip sample4 H) as (t & E & Hr & _).
  assert (split_host (IPv4_Insert sample4) = (bs "192.168.1.7", Some 12%nat)) as E2 by (vm_compute; reflexivity).
  rewrite E2 in E. injection E as <- _. split; [vm_compute; reflexivity|exact Hr].
Defined.

Lemma bare_IPv6_has_service_witness : service_text (bs "fe80::1") (Some 4%nat) = Some (bs "::1").
Proof.
  destruct (bare_IPv6_has_service (bs "fe80") [] (bs "1")) as (s & _ & H); [|done| |vm_compute; reflexivity];
    apply (bool_decide_unpack _); vm_compute; exact I.
Defined.
