(* ===== verification/Socket.v ===== *)
(** * Sockets: the class [Socket] of [server_frame/socket.{h,cc}]

    An object with its descriptor and its addresses, over the table of descriptors and
    the hooked calls of [FdManager.v].  What the kernel answers to a call is given with
    the call; the options that change nothing here ([SO_REUSEADDR], [TCP_NODELAY]) are
    left out; encryption is in [SslSocket.v]. *)
From stdpp Require Import list gmap.
From S2P Require Import Prelude FdManager FdLaws Address.
Local Open Scope Z_scope.

(** ** Data *)

Record Socket := mkSocket {
  sockfd_ : Z; family_ : Z; type_ : Z; protocol_ : Z; is_connected_ : bool;
  local_address_ : option Address; remote_address_ : option Address }.

Definition kTCP : Z := 1.
Definition kUDP : Z := 2.
Definition new_Socket (family type protocol : Z) : Socket := mkSocket (-1) family type protocol false None None.

Definition set_fd fd s := mkSocket fd (family_ s) (type_ s) (protocol_ s) (is_connected_ s) (local_address_ s) (remote_address_ s).
Definition set_connected b s := mkSocket (sockfd_ s) (family_ s) (type_ s) (protocol_ s) b (local_address_ s) (remote_address_ s).
Definition set_local a s := mkSocket (sockfd_ s) (family_ s) (type_ s) (protocol_ s) (is_connected_ s) a (remote_address_ s).
Definition set_remote a s := mkSocket (sockfd_ s) (family_ s) (type_ s) (protocol_ s) (is_connected_ s) (local_address_ s) a.

Definition IsValid (s : Socket) : bool := negb (sockfd_ s =? -1).
Definition IsConnected (s : Socket) : bool := is_connected_ s.

(** What the kernel answers: to [socket] and [accept], the descriptor and its flags; to
    [connect], [bind] and [listen]; and to [getpeername] and [getsockname]. *)
Record Kernel := mkKernel {
  k_socket : option (Z * Z); k_ok : bool; k_peer : option Address; k_name : option Address }.

Section socket.
Context (settable : Z).
(** Whether hooks are on, and whether the thread has an IO manager. *)
Context (t_hook_enable has_iom : bool).

(** An object and the table. *)
Definition State : Type := Socket * Fds.
Definition on_sock (f : Socket → Socket) : M State unit := modify (λ s, (f s.1, s.2)).
Definition this : M State Socket := λ s, Ret s.1 s.
Definition on_fds {A} : M Fds A → M State A := zoom snd (λ t s, (s.1, t)).

(** The calls of the system go through the hooks. *)
Definition NewSock (k : Kernel) : M State unit :=
  fd ← on_fds (hook_socket settable t_hook_enable (k_socket k));
  on_sock (set_fd fd).

(** The answer is remembered; without one it is an address that is not known. *)
Definition unknown (s : Socket) : Address := UnknownAddress (mkSa (family_ s) (replicate 14 (byte.of_Z 0))).
Definition GetRemoteAddress (k : Kernel) : M State Address :=
  s ← this;
  match remote_address_ s with
  | Some a => mret a
  | None => match k_peer k with
            | Some a => on_sock (set_remote (Some a)) ;; mret a
            | None => mret (unknown s)
            end
  end.
Definition GetLocalAddress (k : Kernel) : M State Address :=
  s ← this;
  match local_address_ s with
  | Some a => mret a
  | None => match k_name k with
            | Some a => on_sock (set_local (Some a)) ;; mret a
            | None => mret (unknown s)
            end
  end.

Definition Close : M State bool :=
  s ← this;
  if negb (is_connected_ s) && (sockfd_ s =? -1) then mret true
  else
    on_sock (set_connected false) ;;
    (if negb (sockfd_ s =? -1) then on_fds (hook_close settable t_hook_enable has_iom (sockfd_ s)) ;; on_sock (set_fd (-1)) else mret tt) ;;
    mret false.

(** [Init], of the object that [Accept] makes. *)
Definition Init (fd : Z) (k : Kernel) : M State bool :=
  ctx ← on_fds (managed settable fd);
  match ctx with
  | Some _ =>
      on_sock (set_connected true ∘ set_fd fd) ;; GetLocalAddress k ;; GetRemoteAddress k ;; mret true
  | None => mret false
  end.

(** Another object than the one at hand, over the same table. *)
Definition on_new {A} (sock : Socket) (m : M State A) : M State A := on_fds (zoom (λ t, (sock, t)) (λ st t, st.2) m).

(** The new object, if any. *)
Definition Accept (k : Kernel) : M State (option Socket) :=
  s ← this;
  newsockfd ← on_fds (hook_accept settable (k_socket k));
  if newsockfd =? -1 then mret None
  else on_new (new_Socket (family_ s) (type_ s) (protocol_ s))
         (ok ← Init newsockfd k; sock ← this; mret (if (ok : bool) then Some sock else None)).

(** [if (!IsValid()) NewSock()]. *)
Definition ensure_valid (k : Kernel) : M State bool :=
  s ← this;
  (if negb (IsValid s) then NewSock k else mret tt) ;;
  s ← this;
  mret (IsValid s).

Definition Listen (k : Kernel) : M State bool :=
  s ← this;
  mret (IsValid s && k_ok k).

(** A null pointer has no family. *)
Definition Connect (addr : option Address) (k : Kernel) : M State bool :=
  on_sock (set_remote addr) ;;
  ok ← ensure_valid k;
  if negb ok then mret false
  else
    s ← this;
    match addr with
    | None => undef null_deref
    | Some a =>
        if negb (GetFamily a =? family_ s) then mret false
        else if negb (k_ok k) then Close ;; mret false
        else on_sock (set_connected true) ;; GetRemoteAddress k ;; GetLocalAddress k ;; mret true
    end.

(** [Bind] looks first whether a Unix socket at the path answers, with a socket of its
    own, whose destructor closes it; [probe] is what the kernel answers to that one. *)
Definition answers (addr : Address) (probe : Kernel) : M State bool :=
  on_new (new_Socket AF_UNIX kTCP 0) (ok ← Connect (Some addr) probe; Close ;; mret ok).
Definition Bind (addr : Address) (probe k : Kernel) : M State bool :=
  ok ← ensure_valid k;
  if negb ok then mret false
  else
    busy ← (match addr with UnixAddress _ _ => answers addr probe | _ => mret false end);
    if (busy : bool) then mret false
    else if negb (k_ok k) then mret false
    else GetLocalAddress k ;; mret true.

(** The test is the wrong way round. *)
Definition Reconnect (k : Kernel) : M State bool :=
  s ← this;
  match remote_address_ s with
  | Some _ => mret false
  | None => on_sock (set_local None) ;; Connect None k
  end.

(** [Send], [SendTo], [Recv] and [RecvFrom]: the call, or -1 when not connected. *)
Definition guarded (call : M State Z) : M State Z :=
  s ← this;
  if IsConnected s then call else mret (-1).

(** The timeouts, in milliseconds. *)
Definition SetTimeout_ms (optname v : Z) : M State unit :=
  s ← this;
  on_fds (hook_setsockopt settable t_hook_enable (sockfd_ s) SOL_SOCKET optname (s32 (Z.quot v 1000)) (s32 (Z.rem v 1000 * 1000))).
Definition SetSendTimeout := SetTimeout_ms SO_SNDTIMEO.
Definition SetRecvTimeout := SetTimeout_ms SO_RCVTIMEO.
(** [uint64_t] as [int64_t]. *)
Definition GetTimeout_ms (optname : Z) : M State Z :=
  s ← this;
  ctx ← on_fds (Get settable (sockfd_ s) false);
  match ctx with
  | Some p => x ← on_fds (ctx_at p); mret (s64 (GetTimeout x optname))
  | None => mret (-1)
  end.
Definition GetSendTimeout := GetTimeout_ms SO_SNDTIMEO.
Definition GetRecvTimeout := GetTimeout_ms SO_RCVTIMEO.

Definition CreateUDP (family : Z) (k : Kernel) : M State unit := NewSock k ;; on_sock (set_connected true).
End socket.

(** ** What holds of every socket *)

Section laws.
Context (settable : Z) (settable_nonblock : Z.testbit settable 11 = true).
Context (has_iom : bool).

(** The table is in order, a connected socket has a descriptor, and a descriptor is not
    negative. *)
Record sock_ok (s : State) : Prop := {
  so_table : table_ok s.2;
  so_connected : is_connected_ s.1 = true → sockfd_ s.1 ≠ -1;
  so_fd : sockfd_ s.1 ≠ -1 → 0 ≤ sockfd_ s.1 }.

(** It returns, and [Q] holds then. *)
Definition returns {A} (m : M State A) (Q : A → State → Prop) (s : State) : Prop :=
  match m s with Ret a s' => Q a s' | _ => False end.

Lemma returns_ret {A} (a : A) (Q : A → State → Prop) s : Q a s → returns (mret a) Q s.
Proof. done. Qed.
Lemma returns_bind {A B} (m : M State A) (k : A → M State B) Q s : returns m (λ a, returns (k a) Q) s → returns (m ≫= k) Q s.
Proof. unfold returns, mbind, M_bind. by destruct (m s). Qed.
Lemma returns_mono {A} (m : M State A) (P Q : A → State → Prop) s : returns m P s → (∀ a s', P a s' → Q a s') → returns m Q s.
Proof. unfold returns. destruct (m s); naive_solver. Qed.
Lemma returns_fds {A} (m : M Fds A) (Q : A → State → Prop) s : runs m (λ a t, Q a (s.1, t)) s.2 → returns (on_fds m) Q s.
Proof. unfold returns, runs, on_fds, zoom. by destruct (m s.2). Qed.

(** The kernel opens descriptors that are not open. *)
Definition opens (k : Kernel) (t : Fds) : Prop := match k_socket k with Some (fd, _) => 0 ≤ fd ∧ kernel t !! fd = None | None => True end.

Lemma hook_socket_ok new t : table_ok t → match new with Some (fd, _) => 0 ≤ fd ∧ kernel t !! fd = None | None => True end →
  runs (hook_socket settable true new) (λ fd t', table_ok t' ∧ (fd = -1 ∨ 0 ≤ fd)) t.
Proof.
  intros Ht Hn. unfold hook_socket. apply runs_bind. destruct new as [[fd flags]|]; unfold runs at 1, open_socket.
  - destruct Hn as [Hfd Hk]. rewrite (proj2 (Z.eqb_neq fd (-1))) by lia. cbn [negb orb].
    apply runs_bind. eapply runs_mono; [by apply open_then_Get|]. intros r t' Ht'. apply runs_ret. split; [done|by right].
  - apply runs_ret. split; [done|by left].
Qed.

Lemma ensure_valid_ok k s : sock_ok s → opens k s.2 →
  returns (ensure_valid settable true k) (λ b s', sock_ok s' ∧ family_ s'.1 = family_ s.1 ∧ b = negb (sockfd_ s'.1 =? -1)) s.
Proof.
  intros [Ht Hc Hf] Hk. unfold ensure_valid, IsValid. apply returns_bind. unfold returns at 1, this.
  destruct (Z.eqb_spec (sockfd_ s.1) (-1)) as [Hfd|Hfd]; cbn [negb].
  - apply returns_bind. unfold NewSock. apply returns_bind, returns_fds. eapply runs_mono; [by apply hook_socket_ok|].
    intros fd t' [Ht' Hor]. unfold returns at 1, on_sock, modify. apply returns_bind. unfold returns at 1. cbn. split_and!; try done.
    split; cbn; [done| |lia]. intros Hconn. by destruct (Hc Hconn).
  - apply returns_bind. unfold returns at 1. cbn. apply returns_bind. unfold returns. cbn.
    rewrite (proj2 (Z.eqb_neq _ _) Hfd). by split_and!.
Qed.

Lemma GetRemoteAddress_ok k s : sock_ok s → returns (GetRemoteAddress k) (λ _, sock_ok) s.
Proof.
  intros [Ht Hc Hf]. unfold GetRemoteAddress. apply returns_bind. unfold returns at 1, this.
  destruct (remote_address_ s.1); [by apply returns_ret|]. by destruct (k_peer k).
Qed.
Lemma GetLocalAddress_ok k s : sock_ok s → returns (GetLocalAddress k) (λ _, sock_ok) s.
Proof.
  intros [Ht Hc Hf]. unfold GetLocalAddress. apply returns_bind. unfold returns at 1, this.
  destruct (local_address_ s.1); [by apply returns_ret|]. by destruct (k_name k).
Qed.

(** Closing leaves no descriptor. *)
Lemma hook_close_gone fd t : table_ok t → 0 ≤ fd →
  runs (hook_close settable true has_iom fd) (λ _ t', table_ok t' ∧ kernel t' !! fd = None) t.
Proof.
  intros Ht Hfd. assert (∀ t, runs (close_f fd) (λ _ t', kernel t' !! fd = None) t) as Hgone.
  { intros t1. unfold runs, close_f. destruct (kernel t1 !! fd) eqn:E; cbn; [apply lookup_delete_eq|done]. }
  pose proof (hook_close_ok settable has_iom fd t Ht) as Hok. unfold runs in *.
  destruct (hook_close settable true has_iom fd t) as [r t'| | |] eqn:E; try done. split; [done|].
  unfold hook_close in E. cbn [negb] in E. unfold mbind, M_bind in E.
  repeat match type of E with context [match ?m with Ret _ _ => _ | _ => _ end] => destruct m eqn:?; try done end;
    match type of E with close_f fd ?t1 = _ => specialize (Hgone t1); by rewrite E in Hgone | _ => idtac end.
Qed.

Lemma Close_ok s : sock_ok s → returns (Close settable true has_iom) (λ _ s', sock_ok s' ∧
  sockfd_ s'.1 = -1 ∧ is_connected_ s'.1 = false ∧ (sockfd_ s.1 ≠ -1 → kernel s'.2 !! sockfd_ s.1 = None)) s.
Proof.
  intros Hs. pose proof Hs as [Ht Hc Hf]. unfold Close. apply returns_bind. unfold returns at 1, this.
  destruct (is_connected_ s.1) eqn:Hconn, (Z.eqb_spec (sockfd_ s.1) (-1)) as [Hfd|Hfd]; cbn [negb andb].
  - by destruct (Hc eq_refl).
  - apply returns_bind. unfold returns at 1. cbn. apply returns_bind, returns_bind, returns_fds. cbn.
    eapply runs_mono; [apply hook_close_gone; [done|by apply Hf]|]. intros r t' [Ht' Hk]. cbn. split; [by split|]. by split_and!.
  - apply returns_ret. by split_and!.
  - apply returns_bind. unfold returns at 1. cbn. apply returns_bind, returns_bind, returns_fds. cbn.
    eapply runs_mono; [apply hook_close_gone; [done|by apply Hf]|]. intros r t' [Ht' Hk]. cbn. split; [by split|]. by split_and!.
Qed.
Lemma SetTimeout_ms_ok opt v s : sock_ok s → returns (SetTimeout_ms settable true opt v) (λ _, sock_ok) s.
Proof.
  intros [Ht Hc Hf]. unfold SetTimeout_ms. apply returns_bind. unfold returns at 1, this. apply returns_fds.
  eapply runs_mono; [exact (run_hook_ok settable settable_nonblock s.2 (HSetsockopt (sockfd_ s.1) SOL_SOCKET opt _ _) Ht I)|].
  intros [] t' Ht'. by split.
Qed.

Lemma GetTimeout_ms_ok opt s : sock_ok s → returns (GetTimeout_ms settable opt) (λ _ s', s' = s) s.
Proof.
  intros [Ht Hc Hf]. unfold GetTimeout_ms. apply returns_bind. unfold returns at 1, this. apply returns_bind, returns_fds.
  eapply runs_mono; [apply Get_found|]. intros [p|] t' [-> H]; [|by destruct s].
  destruct (found_ctx s.2 (sockfd_ s.1) p Ht H) as (user & r & w & f & Hctx & _).
  apply returns_bind, returns_fds. unfold runs, ctx_at. cbn [snd]. rewrite Hctx. by destruct s.
Qed.

(** ** What a program does with a socket *)

Inductive sock_op :=
  | SBind (addr : Address) (probe k : Kernel) | SListen (k : Kernel) | SConnect (addr : Address) (k : Kernel)
  | SClose | SSetTimeout (optname v : Z) | SGetTimeout (optname : Z) | SRemote (k : Kernel) | SLocal (k : Kernel)
  | SAccept (k : Kernel) | SReconnect (k : Kernel).

(** The calls that change a socket or ask for what it remembers. *)
Definition run_sock (o : sock_op) : M State unit :=
  match o with
  | SBind addr probe k => Bind settable true has_iom addr probe k ;; mret tt
  | SListen k => Listen k ;; mret tt
  | SConnect addr k => Connect settable true has_iom (Some addr) k ;; mret tt
  | SClose => Close settable true has_iom ;; mret tt
  | SSetTimeout optname v => SetTimeout_ms settable true optname v
  | SGetTimeout optname => GetTimeout_ms settable optname ;; mret tt
  | SRemote k => GetRemoteAddress k ;; mret tt
  | SLocal k => GetLocalAddress k ;; mret tt
  | SAccept k => Accept settable k ;; mret tt
  | SReconnect k => Reconnect settable true has_iom k ;; mret tt
  end.
(** The kernel opens descriptors that are not open; and [Reconnect] is called only where an
    address is remembered, see [Reconnect_never_connects]. *)
Definition sock_valid (o : sock_op) (s : State) : Prop :=
  match o with
  | SBind _ probe k => opens k s.2 ∧ returns (ensure_valid settable true k) (λ _ s', opens probe s'.2) s
  | SConnect _ k | SAccept k => opens k s.2
  | SReconnect _ => remote_address_ s.1 ≠ None
  | _ => True
  end.

Lemma returns_drop {A} (m : M State A) s : returns m (λ _, sock_ok) s → returns (m ;; mret tt) (λ _, sock_ok) s.
Proof. intros Hm. apply returns_bind. eapply returns_mono; [done|]. intros a s' Hs'. by apply returns_ret. Qed.

Lemma names_ok k s : sock_ok s → returns (GetRemoteAddress k ;; GetLocalAddress k ;; mret true) (λ _, sock_ok) s.
Proof.
  intros Hs. apply returns_bind. eapply returns_mono; [by apply GetRemoteAddress_ok|]. intros a s1 H1.
  apply returns_bind. eapply returns_mono; [by apply GetLocalAddress_ok|]. intros b s2 H2. by apply returns_ret.
Qed.

Lemma Connect_ok addr k s : sock_ok s → opens k s.2 → returns (Connect settable true has_iom (Some addr) k) (λ _, sock_ok) s.
Proof.
  intros [Ht Hc Hf] Hk. unfold Connect. apply returns_bind. unfold returns at 1. cbn. set (s1 := (_, s.2)).
  assert (sock_ok s1) as H1 by (by split). apply returns_bind. eapply returns_mono; [by apply ensure_valid_ok|].
  intros b s2 (H2 & _ & ->). destruct (Z.eqb_spec (sockfd_ s2.1) (-1)) as [Hfd|Hfd]; cbn [negb]; [by apply returns_ret|].
  apply returns_bind. unfold returns at 1, this. destruct (negb _); [by apply returns_ret|]. destruct (k_ok k); cbn [negb].
  - apply returns_bind. unfold returns at 1. cbn. apply names_ok. destruct H2 as [Ht2 Hc2 Hf2]. by split.
  - apply returns_bind. eapply returns_mono; [by apply Close_ok|]. intros r s3 (H3 & _). by apply returns_ret.
Qed.

Lemma answers_ok addr probe s : sock_ok s → opens probe s.2 → returns (answers settable true has_iom addr probe) (λ _, sock_ok) s.
Proof.
  intros [Ht Hc Hf] Hk. unfold answers, on_new. apply returns_fds. set (s1 := (new_Socket AF_UNIX kTCP 0, s.2)).
  assert (returns (ok ← Connect settable true has_iom (Some addr) probe; Close settable true has_iom ;; mret ok) (λ _, sock_ok) s1) as H.
  { apply returns_bind. eapply returns_mono; [by apply Connect_ok|]. intros ok s2 H2. apply returns_bind.
    eapply returns_mono; [by apply Close_ok|]. intros r s3 (H3 & _). by apply returns_ret. }
  unfold returns, runs, zoom in *. fold s1. case_match; try done. destruct H. by split.
Qed.

Lemma Bind_ok addr probe k s : sock_ok s → sock_valid (SBind addr probe k) s →
  returns (Bind settable true has_iom addr probe k) (λ _, sock_ok) s.
Proof.
  intros Hs [Hk Hp]. unfold Bind. apply returns_bind. pose proof (ensure_valid_ok k s Hs Hk) as H. unfold returns in *.
  destruct (ensure_valid settable true k s) as [b s1| | |]; try done. destruct H as (H1 & _).
  destruct b; cbn [negb]; [|by apply returns_ret]. apply returns_bind.
  apply (returns_mono _ (λ _, sock_ok)); [destruct addr; try (by apply returns_ret); by apply answers_ok|].
  intros [] s2 H2; [by apply returns_ret|]. destruct (k_ok k); cbn [negb]; [|by apply returns_ret].
  apply returns_bind. eapply returns_mono; [by apply GetLocalAddress_ok|]. intros a s3 H3. by apply returns_ret.
Qed.

Lemma Init_ok fd k s : sock_ok s → returns (Init settable fd k) (λ _, sock_ok) s.
Proof.
  intros [Ht Hc Hf]. unfold Init. apply returns_bind, returns_fds. eapply runs_mono; [by apply managed_ok|].
  intros [[p x]|] t [-> H]; [|apply returns_ret; by split]. destruct H as ([Hfd _] & _).
  apply returns_bind. unfold returns at 1. cbn. apply returns_bind.
  eapply returns_mono; [apply GetLocalAddress_ok; split; cbn; [done|lia|done]|]. intros a s1 H1.
  apply returns_bind. eapply returns_mono; [by apply GetRemoteAddress_ok|]. intros b s2 H2. by apply returns_ret.
Qed.

Lemma Accept_ok k s : sock_ok s → opens k s.2 →
  returns (Accept settable k) (λ r s', sock_ok s' ∧ match r with Some sock => sock_ok (sock, s'.2) | None => True end) s.
Proof.
  intros [Ht Hc Hf] Hk. unfold Accept. apply returns_bind. unfold returns at 1, this. apply returns_bind, returns_fds.
  apply (runs_mono _ (λ _, table_ok)).
  - unfold hook_accept, opens in *. destruct (k_socket k) as [[fd flags]|]; apply runs_bind; unfold runs at 1, open_socket.
    + destruct Hk. rewrite (proj2 (Z.leb_le 0 fd)) by done. apply runs_bind. eapply runs_mono; [by apply open_then_Get|]. intros r t' Ht'. by apply runs_ret.
    + by apply runs_ret.
  - intros fd t Ht'. destruct (fd =? -1); [apply returns_ret; by split|]. unfold on_new. apply returns_fds. cbn [snd fst].
    pose proof (Init_ok fd k (new_Socket (family_ s.1) (type_ s.1) (protocol_ s.1), t)) as H.
    unfold returns, runs, zoom in *.
    specialize (H ltac:(by split)). unfold mbind at 1, M_bind at 1. destruct (Init _ _ _ _) as [ok s1| | |]; try done.
    destruct H as [H1 H2 H3]. unfold mbind, M_bind, this. by destruct ok.
Qed.

Lemma run_sock_ok o s : sock_ok s → sock_valid o s → returns (run_sock o) (λ _, sock_ok) s.
Proof.
  intros Hs Hv. destruct o as [addr probe k|k|addr k| |opt v|opt|k|k|k|k]; cbn [run_sock sock_valid] in *; try apply returns_drop.
  - by apply Bind_ok.
  - by apply returns_bind.
  - by apply Connect_ok.
  - eapply returns_mono; [by apply Close_ok|]. by intros r s' (? & _).
  - by apply SetTimeout_ms_ok.
  - eapply returns_mono; [by apply GetTimeout_ms_ok|]. by intros r s' ->.
  - by apply GetRemoteAddress_ok.
  - by apply GetLocalAddress_ok.
  - eapply returns_mono; [by apply Accept_ok|]. by intros r s' [H _].
  - unfold Reconnect. apply returns_bind. unfold returns at 1, this. by destruct (remote_address_ s.1).
Qed.

Lemma CreateUDP_ok family k fd flags t : table_ok t → k_socket k = Some (fd, flags) → 0 ≤ fd → kernel t !! fd = None →
  returns (CreateUDP settable true family k) (λ _, sock_ok) (new_Socket family kUDP 0, t).
Proof.
  intros Ht Hk Hfd Hn. unfold CreateUDP, NewSock. apply returns_bind, returns_bind, returns_fds. rewrite Hk. unfold hook_socket.
  apply runs_bind. unfold runs at 1, open_socket. cbn [snd]. rewrite (proj2 (Z.eqb_neq fd (-1))) by lia. cbn [negb orb].
  apply runs_bind. eapply runs_mono; [by apply open_then_Get|]. intros r t' Ht'. apply runs_ret. unfold returns. cbn.
  split; cbn; [done|lia|done].
Qed.

(** A socket of any type is made over a table in order; a datagram socket may be made
    connected, by [CreateUDP] when the kernel has a descriptor for it; others are accepted.
    Between two calls on it the rest of the program does with the table what it likes, as
    long as it leaves it in order. *)
Inductive sock_reachable : State → Prop :=
  | sock_new family type protocol t : table_ok t → sock_reachable (new_Socket family type protocol, t)
  | sock_udp family k t s' : table_ok t → opens k t → k_socket k ≠ None →
      CreateUDP settable true family k (new_Socket family kUDP 0, t) = Ret tt s' → sock_reachable s'
  | sock_accepted s k sock s' : sock_reachable s → opens k s.2 → Accept settable k s = Ret (Some sock) s' → sock_reachable (sock, s'.2)
  | sock_others s t : sock_reachable s → table_ok t → sock_reachable (s.1, t)
  | sock_step s o s' : sock_reachable s → sock_valid o s → run_sock o s = Ret tt s' → sock_reachable s'.

Lemma sock_reachable_ok s : sock_reachable s → sock_ok s.
Proof.
  induction 1 as [family type protocol t Ht|family k t s' Ht Hk Hne He|s k sock s' _ IH Hk He|s t _ [H1 H2 H3] Ht|s o' s' _ IH Hv He]; [by split| | |by split|].
  - unfold opens in Hk. destruct (k_socket k) as [[fd flags]|] eqn:E; [|done]. destruct Hk as [Hfd Hn].
    pose proof (CreateUDP_ok family k fd flags t Ht E Hfd Hn) as H. unfold returns in H. by rewrite He in H.
  - pose proof (Accept_ok k s IH Hk) as H. unfold returns in H. rewrite He in H. by destruct H.
  - pose proof (run_sock_ok o' s IH Hv) as H. unfold returns in H. by rewrite He in H.
Qed.

(** C3: on a thread with hooks, a socket that was made, accepted, or made by [CreateUDP]
    with a descriptor of the kernel is connected only while it has a descriptor: through
    any sequence of the calls of [sock_op], whatever the kernel answers, and whatever the
    rest of the program does to the table of descriptors between them, keeping it in order.
    Each of these calls returns, without following a null or dangling pointer; of
    [Reconnect] that is so only with a remembered address, where it answers false.
    [Close] gives the descriptor back: the kernel has closed it, and the table has no
    context for it; closing again changes nothing. *)
Theorem sockets_safe (s : State) (o : sock_op) : sock_reachable s → sock_valid o s →
  (∃ s', run_sock o s = Ret tt s' ∧ sock_reachable s') ∧ (is_connected_ s.1 = true → sockfd_ s.1 ≠ -1) ∧
  ∃ r s', Close settable true has_iom s = Ret r s' ∧ sockfd_ s'.1 = -1 ∧ is_connected_ s'.1 = false ∧
    (sockfd_ s.1 ≠ -1 → kernel s'.2 !! sockfd_ s.1 = None ∧ absent s'.2 (sockfd_ s.1)) ∧
    Close settable true has_iom s' = Ret true s'.
Proof.
  intros Hr Hv. pose proof (sock_reachable_ok s Hr) as Hs.
  split; [|split; [apply Hs|]].
  - pose proof (run_sock_ok o s Hs Hv) as H. unfold returns in H. destruct (run_sock o s) as [[] s'| | |] eqn:He; try done.
    exists s'. split; [done|]. by eapply sock_step.
  - pose proof (Close_ok s Hs) as H. unfold returns in H. destruct (Close settable true has_iom s) as [r s'| | |]; try done.
    destruct H as (H1 & H2 & H3 & H4). exists r, s'. split_and!; try done.
    + intros Hfd. split; [by apply H4|]. apply absent_closed; [apply H1|by apply H4].
    + unfold Close, mbind, M_bind, this. by rewrite H2, H3.
Qed.

(** A timeout is read back as it was set, to the millisecond and in either
    direction, through [setsockopt], its hook and the table of descriptors: any number
    of milliseconds that fits, and -1 for no timeout. *)
Theorem timeout_roundtrip (s : State) (p : nat) (optname v : Z) : table_ok s.2 → found s.2 (sockfd_ s.1) p →
  optname = SO_RCVTIMEO ∨ optname = SO_SNDTIMEO → - (2 ^ 31) * 1000 < v < 2 ^ 31 * 1000 →
  ∃ s', SetTimeout_ms settable true optname v s = Ret tt s' ∧ GetTimeout_ms settable optname s' = Ret v s'.
Proof.
  intros Ht Hf Hopt Hv. destruct (found_ctx s.2 (sockfd_ s.1) p Ht Hf) as (user & r & w & f & Hc & _). destruct Hf as [Hfd Hp].
  destruct s as [s t]. cbn [fst snd] in *.
  assert (s32 (Z.quot v 1000) * 1000 + Z.quot (s32 (Z.rem v 1000 * 1000)) 1000 = v) as Hms.
  { assert (- 2 ^ 31 < Z.quot v 1000 < 2 ^ 31 ∧ -1000 < Z.rem v 1000 < 1000 ∧ v = 1000 * Z.quot v 1000 + Z.rem v 1000) as (Hq & Hr & He)
      by (Z.to_euclidean_division_equations; lia).
    rewrite !swrap_small by (unfold in_s; lia). rewrite Z.quot_mul by done. lia. }
  assert (Get settable (sockfd_ s) false t = Ret (Some p) t) as Hget.
  { unfold Get, Get_read, mbind, M_bind. rewrite (proj2 (Z.ltb_ge _ 0)) by done. by rewrite Hp. }
  set (x' := if optname =? SO_RCVTIMEO then mkFd true true true user false (sockfd_ s) (u64 v) w
             else mkFd true true true user false (sockfd_ s) r (u64 v)).
  set (t1 := set_ctxs <[p := x']> t).
  set (t2 := mkFds (datas_ t1) (ctxs t1) (kernel t1) (requests t1 ++ [RSetTimeout (sockfd_ s) optname v])).
  assert (ctxs t2 !! p = Some x') as Hx' by (apply list_lookup_insert_eq; by eapply lookup_lt_Some).
  exists (s, t2). split.
  - unfold SetTimeout_ms, this, mbind, M_bind, on_fds, zoom. cbn [fst snd].
    assert (hook_setsockopt settable true (sockfd_ s) SOL_SOCKET optname (s32 (Z.quot v 1000)) (s32 (Z.rem v 1000 * 1000)) t = Ret tt t2) as ->; [|done].
    unfold hook_setsockopt. rewrite Hms.
    assert (true && (SOL_SOCKET =? SOL_SOCKET) && ((optname =? SO_RCVTIMEO) || (optname =? SO_SNDTIMEO)) = true) as ->
      by (by destruct Hopt as [->| ->]).
    assert ((ctx ← Get settable (sockfd_ s) false; match ctx with Some p => SetTimeout p optname v | None => mret () end) t = Ret tt t1) as He.
    { erewrite bind_Ret by exact Hget. unfold SetTimeout. erewrite bind_Ret by (unfold ctx_at; by rewrite Hc).
      unfold put_ctx, modify, t1, x'. by destruct (optname =? SO_RCVTIMEO). }
    by erewrite bind_Ret by exact He.
  - unfold GetTimeout_ms. erewrite bind_Ret by reflexivity. cbn [fst].
    assert (Get settable (sockfd_ s) false t2 = Ret (Some p) t2) as Hget2.
    { unfold Get, Get_read, mbind, M_bind. rewrite (proj2 (Z.ltb_ge _ 0)) by done. cbn [datas_ t2 t1 set_ctxs]. by rewrite Hp. }
    erewrite bind_Ret by (by apply zoom_Ret). cbn beta iota.
    erewrite bind_Ret by (apply zoom_Ret; cbn [snd]; unfold ctx_at; by rewrite Hx'). unfold mret, M_ret. do 2 f_equal.
    assert (s64 (u64 v) = v) as Hw.
    { unfold swrap, wrap. rewrite Zplus_mod_idemp_l. fold (wrap 64 (v + 2 ^ (64 - 1))). fold (swrap 64 v). apply swrap_small; unfold in_s; lia. }
    unfold GetTimeout, x'. destruct Hopt as [->| ->]; exact Hw.
Qed.
End laws.

(** [Reconnect] never connects: its test is the wrong way round, so that a socket
    that was connected is refused, and one that was not goes on with a null address,
    which is undefined unless the system has no descriptor left. *)
Theorem Reconnect_never_connects (settable : Z) (hook iom : bool) (k : Kernel) (s s' : State) :
  Reconnect settable hook iom k s ≠ Ret true s' ∧
  (remote_address_ s.1 = None → sockfd_ s.1 ≠ -1 → Reconnect settable hook iom k s = Undef null_deref).
Proof.
  unfold Reconnect, this, mbind, M_bind. destruct (remote_address_ s.1) eqn:Hr; [done|]. cbn [on_sock modify].
  unfold Connect, ensure_valid, mbind, M_bind, this, on_sock, modify. cbn [fst snd]. unfold IsValid. cbn.
  destruct (Z.eqb_spec (sockfd_ s.1) (-1)) as [Hfd|Hfd]; cbn [negb].
  - split; [|done]. destruct (NewSock settable hook k _) as [u s1| | |]; try done. cbn. by destruct (sockfd_ s1.1 =? -1).
  - unfold mret, M_ret. cbn. rewrite (proj2 (Z.eqb_neq _ _) Hfd). by split.
Qed.

(** A datagram socket that could not be made is connected all the same. *)
Theorem CreateUDP_connected_without_descriptor (settable family : Z) (k : Kernel) (t : Fds) : k_socket k = None →
  ∃ s', CreateUDP settable true family k (new_Socket family kUDP 0, t) = Ret tt s' ∧ is_connected_ s'.1 = true ∧ sockfd_ s'.1 = -1.
Proof. intros Hk. unfold CreateUDP, NewSock, hook_socket. rewrite Hk. by eexists. Qed.

(** ** Examples *)

Definition some_peer : Address := UnknownAddress (mkSa AF_INET []).
Definition ok_kernel : Kernel := mkKernel (Some (5, 2)) true (Some some_peer) (Some some_peer).

Lemma sockets_safe_witness : let s := (new_Socket AF_INET kTCP 0, FdContextManager_new ∅) in
  let o := SConnect some_peer ok_kernel in
  (∃ s', run_sock (2 ^ 11) true o s = Ret tt s' ∧ sock_reachable (2 ^ 11) true s') ∧ (is_connected_ s.1 = true → sockfd_ s.1 ≠ -1) ∧
  ∃ r s', Close (2 ^ 11) true true s = Ret r s' ∧ sockfd_ s'.1 = -1 ∧ is_connected_ s'.1 = false ∧
    (sockfd_ s.1 ≠ -1 → kernel s'.2 !! sockfd_ s.1 = None ∧ absent s'.2 (sockfd_ s.1)) ∧
    Close (2 ^ 11) true true s' = Ret true s'.
Proof.
  intros s o. apply (sockets_safe (2 ^ 11) eq_refl true s o (sock_new (2 ^ 11) true AF_INET kTCP 0 _ (new_table_ok ∅))).
  split; [lia|apply lookup_empty].
Defined.

Lemma timeout_roundtrip_witness : ∃ s',
  let s := (set_fd 5 (new_Socket AF_INET kTCP 0), one_socket) in
  SetTimeout_ms (2 ^ 11) true SO_RCVTIMEO 1500 s = Ret tt s' ∧ GetTimeout_ms (2 ^ 11) SO_RCVTIMEO s' = Ret 1500 s'.
Proof.
  apply (timeout_roundtrip (2 ^ 11) (set_fd 5 (new_Socket AF_INET kTCP 0), one_socket) 0 SO_RCVTIMEO 1500);
    [apply one_socket_ok|apply one_socket_ok|by left|lia].
Defined.

Lemma CreateUDP_connected_without_descriptor_witness : ∃ s',
  CreateUDP (2 ^ 11) true AF_INET (mkKernel None true None None) (new_Socket AF_INET kUDP 0, FdContextManager_new ∅) = Ret tt s' ∧
  is_connected_ s'.1 = true ∧ sockfd_ s'.1 = -1.
Proof. exact (CreateUDP_connected_without_descriptor (2 ^ 11) AF_INET (mkKernel None true None None) (FdContextManager_new ∅) eq_refl). Defined.
