(* ===== verification/SslSocket.v ===== *)
(** * Sockets over TLS: [SSLSocket] of [socket.cc]

    A [Socket] ([Socket.v]) with a context and a session of OpenSSL.  A session is the
    descriptor it was given by [SSL_set_fd]; what OpenSSL answers to a handshake, to the
    loading of a certificate and to each [SSL_write] and [SSL_read] is given. *)
From stdpp Require Import list gmap.
From S2P Require Import Prelude FdManager FdLaws Address Socket.
Local Open Scope Z_scope.

(** ** State *)

Record SSLSocket := mkSsl { base : Socket; ctx_ : bool; ssl_ : option Z }.
Definition new_SSLSocket (family type protocol : Z) : SSLSocket := mkSsl (new_Socket family type protocol) false None.

Definition SslState : Type := SSLSocket * Fds.
Definition on_base {A} : M State A → M SslState A :=
  zoom (λ s, (base s.1, s.2)) (λ t s, (mkSsl t.1 (ctx_ s.1) (ssl_ s.1), t.2)).
Definition set_ssl (ctx : bool) (ssl : option Z) : M SslState unit := modify (λ s, (mkSsl (base s.1) ctx ssl, s.2)).

Section ssl.
Context (settable : Z) (t_hook_enable has_iom : bool).

(** [SSL_new] and [SSL_set_fd], with a new context or the one there is. *)
Definition start_session (ctx : bool) : M SslState unit := s ← get; set_ssl ctx (Some (sockfd_ (base s.1))).

Definition ssl_Connect (addr : Address) (k : Kernel) (handshake : bool) : M SslState bool :=
  v ← on_base (Connect settable t_hook_enable has_iom (Some addr) k);
  if (v : bool) then start_session true ;; mret handshake else mret false.

(** A null context gives a null session, which [SSL_set_fd] follows. *)
Definition ssl_Init (fd : Z) (k : Kernel) (handshake : bool) : M SslState bool :=
  v ← on_base (Init settable fd k);
  if (v : bool) then
    s ← get;
    if ctx_ s.1 then start_session true ;; mret handshake else undef null_deref
  else mret false.

(** The new object shares the context. *)
Definition ssl_Accept (k : Kernel) (handshake : bool) : M SslState (option SSLSocket) :=
  s ← get;
  newsock ← on_base (on_fds (hook_accept settable (k_socket k)));
  if newsock =? -1 then mret None
  else
    let sock := mkSsl (new_Socket (family_ (base s.1)) (type_ (base s.1)) (protocol_ (base s.1))) (ctx_ s.1) None in
    zoom (λ s, (sock, s.2)) (λ st s, (s.1, st.2))
      (ok ← ssl_Init newsock k handshake; st ← get; mret (if (ok : bool) then Some st.1 else None)).

Definition ssl_Close : M SslState bool := on_base (Close settable t_hook_enable has_iom).

(** Whether the chain, the key and their check succeed, in this order. *)
Definition LoadCertificates (chain key check : bool) : M SslState bool :=
  s ← get;
  set_ssl true (ssl_ s.1) ;;
  mret (if negb chain then false else if negb key then false else check).

(** ** Sending and receiving *)

(** One [SSL_write]: it takes at most what it is offered. *)
Definition taken (answer : Z) (b : bytes) : Z := Z.min answer (Z.of_nat (length b)).

(** The loop over the buffers: the answer, and what was written. *)
Fixpoint ssl_send_loop (answers : list Z) (buffers : list bytes) (total : Z) (sent : bytes) {struct buffers} : Z * bytes :=
  match buffers, answers with
  | [], _ => (total, sent)
  | _, [] => (-1, sent)
  | b :: buffers, a :: answers =>
    let tmp := taken a b in
    if tmp <=? 0 then (tmp, sent)
    else
      let sent := sent ++ take (Z.to_nat tmp) b in
      if negb (tmp =? Z.of_nat (length b)) then (s32 (total + tmp), sent)
      else ssl_send_loop answers buffers (s32 (total + tmp)) sent
  end.

(** The session's descriptor, the answer, and what was written. *)
Definition ssl_Send (answers : list Z) (buffers : list bytes) (s : SSLSocket) : option Z * Z * bytes :=
  match ssl_ s with
  | None => (None, -1, [])
  | Some fd => let '(r, sent) := ssl_send_loop answers buffers 0 [] in (Some fd, r, sent)
  end.

(** One [SSL_read] brings what it has, at most the size of the buffer; the loop goes on
    to the next buffer when this one is full. *)
Fixpoint ssl_recv_loop (answers : list (Z + bytes)) (sizes : list nat) (total : Z) (got : list bytes) {struct sizes} : Z * list bytes :=
  match sizes, answers with
  | [], _ => (total, got)
  | _, [] => (-1, got)
  | _ :: _, inl e :: _ => (Z.min e 0, got)
  | n :: sizes, inr d :: answers =>
    let d := take n d in
    if bool_decide (d = []) then (0, got)
    else if negb (length d =? n)%nat then (s32 (total + Z.of_nat (length d)), got ++ [d])
    else ssl_recv_loop answers sizes (s32 (total + Z.of_nat (length d))) (got ++ [d])
  end.
Definition ssl_Recv (answers : list (Z + bytes)) (sizes : list nat) (s : SSLSocket) : Z * list bytes :=
  match ssl_ s with None => (-1, []) | Some _ => ssl_recv_loop answers sizes 0 [] end.
End ssl.

(** ** What is sent and received *)

Lemma ssl_send_loop_ok answers buffers : ∀ total sent, 0 ≤ total → total + Z.of_nat (length (concat buffers)) < 2 ^ 31 →
  let '(r, out) := ssl_send_loop answers buffers total sent in
  ∃ n, (n ≤ length (concat buffers))%nat ∧ out = sent ++ take n (concat buffers) ∧ (r = total + Z.of_nat n ∨ r ≤ 0).
Proof.
  revert answers. induction buffers as [|b buffers IH]; intros answers total sent Ht Hl; cbn [ssl_send_loop concat] in *.
  { exists 0%nat. rewrite app_nil_r. split_and!; [done..|left; lia]. }
  destruct answers as [|a answers]; [exists 0%nat; rewrite app_nil_r; split_and!; [lia|done|right; lia]|].
  rewrite length_app in *. unfold taken. set (tmp := Z.min _ _). destruct (Z.leb_spec tmp 0) as [H0|H0].
  { exists 0%nat. rewrite app_nil_r. split_and!; [lia|done|by right]. }
  rewrite swrap_small by (unfold in_s; lia). destruct (Z.eqb_spec tmp (Z.of_nat (length b))) as [He|He]; cbn [negb].
  - specialize (IH answers (total + tmp) (sent ++ take (Z.to_nat tmp) b)).
    destruct (ssl_send_loop answers buffers (total + tmp) (sent ++ take (Z.to_nat tmp) b)) as [r out].
    cbn beta iota in IH. destruct IH as (n & Hn & -> & Hr); [lia|lia|]. exists (length b + n)%nat. split_and!; [lia| |].
    + rewrite He, Nat2Z.id, firstn_all, <- app_assoc. f_equal. by rewrite take_app_add.
    + destruct Hr as [->|Hr]; [left; lia|by right].
  - exists (Z.to_nat tmp). split_and!; [lia| |left; lia]. by rewrite take_app_le by lia.
Qed.

(** Sending a list of buffers over TLS sends a beginning of their contents, in order
    and without gaps; a positive answer is how much that is.  Without a session nothing
    is sent and the answer is -1. *)
Theorem ssl_sends_a_prefix (answers : list Z) (buffers : list bytes) (s : SSLSocket) :
  Z.of_nat (length (concat buffers)) < 2 ^ 31 →
  let '(fd, r, sent) := ssl_Send answers buffers s in
  fd = ssl_ s ∧ (ssl_ s = None → r = -1 ∧ sent = []) ∧
  ∃ n, sent = take n (concat buffers) ∧ (0 < r → r = Z.of_nat n ∧ (n ≤ length (concat buffers))%nat).
Proof.
  intros Hl. unfold ssl_Send. destruct (ssl_ s) as [fd|]; [|split_and!; [done|done|exists 0%nat; by split]].
  pose proof (ssl_send_loop_ok answers buffers 0 [] ltac:(lia) ltac:(lia)) as H.
  destruct (ssl_send_loop answers buffers 0 []) as [r sent]. destruct H as (n & Hn & -> & Hr). split_and!; [done|done|].
  exists n. split; [done|]. lia.
Qed.

Lemma ssl_recv_loop_ok answers sizes : ∀ total got, 0 ≤ total → total + Z.of_nat (sum_list sizes) < 2 ^ 31 →
  let '(r, out) := ssl_recv_loop answers sizes total got in
  ∃ ds, out = got ++ ds ∧ (length ds ≤ length sizes)%nat ∧ (∀ i d n, ds !! i = Some d → sizes !! i = Some n → (length d ≤ n)%nat ∧ (S i < length ds → length d = n)%nat) ∧
    (0 < r → r = total + Z.of_nat (length (concat ds))).
Proof.
  revert answers. induction sizes as [|m sizes IH]; intros answers total got Ht Hl; cbn [ssl_recv_loop sum_list] in *.
  { exists []. rewrite app_nil_r. split_and!; [done|done|by intros i d n Hx; rewrite lookup_nil in Hx|cbn; lia]. }
  destruct answers as [|[e|d] answers].
  1,2: exists []; rewrite app_nil_r; split_and!; [done|cbn; lia|by intros i d n Hx; rewrite lookup_nil in Hx|lia].
  case_bool_decide as Hd; [exists []; rewrite app_nil_r; split_and!; [done|cbn; lia|by intros i d' n Hx; rewrite lookup_nil in Hx|lia]|].
  set (d' := take m d) in *. assert (length d' ≤ m)%nat by (unfold d'; rewrite length_take; lia). cbn [sum_list foldr] in Hl.
  rewrite swrap_small by (unfold in_s; cbn in *; lia). destruct (Nat.eqb_spec (length d') m) as [He|He]; cbn [negb].
  - specialize (IH answers (total + Z.of_nat (length d')) (got ++ [d'])).
    destruct (ssl_recv_loop answers sizes (total + Z.of_nat (length d')) (got ++ [d'])) as [r out].
    cbn beta iota in IH. destruct IH as (ds & -> & Hlen & Hds & Hr); [lia|cbn in *; lia|]. exists (d' :: ds). rewrite <- app_assoc. split_and!; [done|cbn; lia| |].
    + intros [|i] x n Hx Hn; cbn in Hx, Hn; [by injection Hx as <-; injection Hn as <-|]. destruct (Hds i x n Hx Hn) as [H1 H2]. split; [done|cbn; lia].
    + intros Hpos. rewrite (Hr Hpos). cbn [concat]. rewrite length_app. lia.
  - exists [d']. split_and!; [done|cbn; lia| |].
    + intros [|i] x n Hx Hn; [injection Hx as <-; injection Hn as <-; split; [done|cbn; lia]|by apply list_lookup_singleton_Some in Hx as [? _]].
    + intros _. cbn [concat]. rewrite app_nil_r. lia.
Qed.

(** Receiving into a list of buffers over TLS fills them in order, each one but the
    last to its end, and a positive answer is how much was received. *)
Theorem ssl_fills_in_order (answers : list (Z + bytes)) (sizes : list nat) (s : SSLSocket) :
  Z.of_nat (sum_list sizes) < 2 ^ 31 →
  let '(r, got) := ssl_Recv answers sizes s in
  (length got ≤ length sizes)%nat ∧ (0 < r → r = Z.of_nat (length (concat got))) ∧ (ssl_ s = None → r = -1 ∧ got = []) ∧
  ∀ i d n, got !! i = Some d → sizes !! i = Some n → (length d ≤ n)%nat ∧ (S i < length got → length d = n)%nat.
Proof.
  intros Hl. unfold ssl_Recv. destruct (ssl_ s) as [fd|].
  - pose proof (ssl_recv_loop_ok answers sizes 0 [] ltac:(lia) ltac:(lia)) as H.
    destruct (ssl_recv_loop answers sizes 0 []) as [r got]. destruct H as (ds & -> & Hlen & Hds & Hr). by split_and!.
  - split_and!; [cbn; lia|lia|done|]. intros i d n Hx. by rewrite lookup_nil in Hx.
Qed.

(** ** Where the session and the socket part *)

(** [Close] closes the socket but keeps the session: a later [Send] is not refused,
    and writes through the number of the closed descriptor, which may be another
    connection's by then. *)
Theorem ssl_writes_after_Close (settable : Z) (k : Kernel) (iom : bool) (fd : Z) (s : SslState) (a : Z) (data : bytes) :
  Z.testbit settable 11 = true → sock_ok (base s.1, s.2) → ssl_ s.1 = Some fd → 0 < a → data ≠ [] →
  Z.of_nat (length data) < 2 ^ 31 →
  ∃ r s', ssl_Close settable true iom s = Ret r s' ∧ sockfd_ (base s'.1) = -1 ∧ is_connected_ (base s'.1) = false ∧
    ∃ n sent, ssl_Send [a] [data] s'.1 = (Some fd, n, sent) ∧ 0 < n ∧ sent ≠ [].
Proof.
  intros Hset Hs Hfd Ha Hd Hl. pose proof (Close_ok settable iom (base s.1, s.2) Hs) as H. unfold returns in H.
  destruct (Close settable true iom (base s.1, s.2)) as [r t| | |] eqn:He; try done. destruct H as (_ & H1 & H2 & _).
  do 2 eexists. split; [unfold ssl_Close, on_base; by apply zoom_Ret|]. cbn [fst base]. split_and!; [done|done|].
  unfold ssl_Send. cbn [ssl_ ssl_send_loop]. rewrite Hfd. unfold taken. assert (length data ≠ 0%nat) by (by destruct data).
  rewrite (proj2 (Z.leb_gt _ 0)) by lia. rewrite swrap_small by (unfold in_s; lia).
  destruct (negb _); do 2 eexists; (split; [reflexivity|]); (split; [lia|]); destruct data; try done;
    intros Hn; apply (f_equal length) in Hn; rewrite length_app, length_take in Hn; cbn [length] in Hn; lia.
Qed.

(** When the handshake fails, [Connect] answers [false] but leaves the socket
    connected, and [Send] writes to the session. *)
Theorem failed_handshake_stays_connected (settable : Z) (addr : Address) (k : Kernel) (iom : bool) (s s' : SslState) :
  ssl_Connect settable true iom addr k true s = Ret true s' →
  ∃ s'', ssl_Connect settable true iom addr k false s = Ret false s'' ∧ s'' = s' ∧ ssl_ s''.1 = Some (sockfd_ (base s''.1)).
Proof.
  unfold ssl_Connect, start_session, set_ssl, mbind, M_bind, modify, get, mret, M_ret.
  destruct (on_base _ s) as [[] t| | |]; try done. intros [= <-]. by eexists.
Qed.

(** ** Examples *)

Definition closed_soon : SslState := (mkSsl (set_connected true (set_fd 5 (new_Socket AF_INET kTCP 0))) true (Some 5), one_socket).

Lemma ssl_sends_a_prefix_witness : ∃ n, (ssl_Send [3; 2] [bs "abc"; bs "defg"] closed_soon.1).2 = take n (bs "abcdefg").
Proof.
  pose proof (ssl_sends_a_prefix [3; 2] [bs "abc"; bs "defg"] closed_soon.1) as H. cbn in H.
  destruct H as (_ & _ & n & Hs & _); [done|]. exists n. exact Hs.
Defined.

Lemma ssl_fills_in_order_witness : (ssl_Recv [inr (bs "abcd"); inr (bs "ef")] [4%nat; 8%nat] closed_soon.1).1 = 6.
Proof.
  pose proof (ssl_fills_in_order [inr (bs "abcd"); inr (bs "ef")] [4%nat; 8%nat] closed_soon.1) as H. cbn in H.
  destruct H as (_ & Hr & _); [done|]. by apply Hr.
Defined.

Lemma ssl_writes_after_Close_witness : ∃ r s', ssl_Close (2 ^ 11) true true closed_soon = Ret r s' ∧ sockfd_ (base s'.1) = -1 ∧
  is_connected_ (base s'.1) = false ∧ ∃ n sent, ssl_Send [4] [bs "data"] s'.1 = (Some 5, n, sent) ∧ 0 < n ∧ sent ≠ [].
Proof.
  apply (ssl_writes_after_Close (2 ^ 11) ok_kernel true 5 closed_soon 4 (bs "data")); try done.
  split; cbn; [apply one_socket_ok|done|done].
Defined.

Lemma failed_handshake_stays_connected_witness : let s := (new_SSLSocket AF_INET kTCP 0, FdContextManager_new ∅) in
  ∃ s'', ssl_Connect (2 ^ 11) true true some_peer ok_kernel false s = Ret false s'' ∧ is_connected_ (base s''.1) = true ∧ ssl_ s''.1 = Some 5.
Proof.
  intros s. destruct (failed_handshake_stays_connected (2 ^ 11) some_peer ok_kernel true s
    (mkSsl (mkSocket 5 AF_INET kTCP 0 true (Some some_peer) (Some some_peer)) true (Some 5),
     match ssl_Connect (2 ^ 11) true true some_peer ok_kernel true s with Ret _ t => t.2 | _ => s.2 end)) as (s'' & He & -> & _).
  - by vm_compute.
  - eexists. split; [exact He|done].
Defined.
