(* ===== verification/TcpServer.v ===== *)
(** * Listening: [server_frame/tcp_server.{h,cc}]

    Listening sockets are numbers.  [Start] and [Stop] schedule tasks on the worker
    that accepts; a task that accepts waits in the hooked [accept], and is one fiber.
    What the kernel does with each socket, and when a task runs, is given by the
    environment of a step. *)
From stdpp Require Import list sets.
From S2P Require Import Prelude.

(** ** Data *)

(** A task of the worker that accepts: [StartAccept] of a socket, and the function
    [Stop] schedules. *)
Inductive task := TAccept (sock : nat) | TClose.
#[export] Instance task_eq_dec : EqDecision task.
Proof. solve_decision. Defined.

(** The sockets that listen, those that were closed, the tasks scheduled, the fibers
    that wait in [Accept] with their sockets, and the clients whose [HandleClient] was
    scheduled with their receive timeouts. *)
Record TcpServer := mkTcp {
  socks_ : list nat; is_stop_ : bool; recv_timeout_ : Z; closed_socks : list nat;
  tasks : list task; accepting : list nat; handled : list (nat * Z) }.

Definition default_read_timeout : Z := 60 * 1000 * 2.

(** ** Operations *)

(** What the system answers for an address: the socket made for it, and whether
    [Bind] and [Listen] succeed. *)
Record bound := mkBound { b_sock : nat; b_bind : bool; b_listen : bool }.

(** The loop over the addresses: the sockets that listen, and the addresses that
    failed. *)
Fixpoint bind_all {A} (addrs : list (A * bound)) (socks : list nat) (fails : list A) : list nat * list A :=
  match addrs with
  | [] => (socks, fails)
  | (addr, b) :: addrs =>
    if negb (b_bind b) then bind_all addrs socks (fails ++ [addr])
    else if negb (b_listen b) then bind_all addrs socks (fails ++ [addr])
    else bind_all addrs (socks ++ [b_sock b]) fails
  end.

(** Sockets that [socks_.clear()] drops are closed by their destructors. *)
Definition Bind {A} (addrs : list (A * bound)) (fails : list A) (s : TcpServer) : bool * list A * TcpServer :=
  let '(socks, fails) := bind_all addrs (socks_ s) fails in
  if bool_decide (fails = []) then (true, fails, mkTcp socks (is_stop_ s) (recv_timeout_ s) (closed_socks s) (tasks s) (accepting s) (handled s))
  else (false, fails, mkTcp [] (is_stop_ s) (recv_timeout_ s) (closed_socks s ++ socks) (tasks s) (accepting s) (handled s)).

Definition Start (s : TcpServer) : TcpServer :=
  if negb (is_stop_ s) then s
  else mkTcp (socks_ s) false (recv_timeout_ s) (closed_socks s) (tasks s ++ map TAccept (socks_ s)) (accepting s) (handled s).

Definition Stop (s : TcpServer) : TcpServer :=
  mkTcp (socks_ s) true (recv_timeout_ s) (closed_socks s) (tasks s ++ [TClose]) (accepting s) (handled s).

(** A task begins: [StartAccept] up to its first [Accept], or the sockets are closed. *)
Definition run_task (i : nat) (s : TcpServer) : option TcpServer :=
  match tasks s !! i with
  | None => None
  | Some (TAccept sock) =>
    Some (mkTcp (socks_ s) (is_stop_ s) (recv_timeout_ s) (closed_socks s) (delete i (tasks s))
      (if is_stop_ s then accepting s else accepting s ++ [sock]) (handled s))
  | Some TClose =>
    Some (mkTcp [] (is_stop_ s) (recv_timeout_ s) (closed_socks s ++ socks_ s) (delete i (tasks s)) (accepting s) (handled s))
  end.

(** [Accept] returns in the [i]-th fiber that waits, with a client or without, and the
    fiber goes on to its next [Accept] or ends.  A closed socket has no client. *)
Definition accept_returns (i : nat) (client : option nat) (s : TcpServer) : option TcpServer :=
  match accepting s !! i with
  | None => None
  | Some sock =>
    if bool_decide (sock ∈ closed_socks s) && bool_decide (client ≠ None) then None
    else
      let handled_ := match client with Some c => handled s ++ [(c, recv_timeout_ s)] | None => handled s end in
      Some (mkTcp (socks_ s) (is_stop_ s) (recv_timeout_ s) (closed_socks s) (tasks s)
        (if is_stop_ s then delete i (accepting s) else accepting s) handled_)
  end.

Inductive tcp_event := EStart | EStop | ERun (i : nat) | EAccept (i : nat) (client : option nat).
Definition tcp_step (e : tcp_event) (s : TcpServer) : option TcpServer :=
  match e with
  | EStart => Some (Start s)
  | EStop => Some (Stop s)
  | ERun i => run_task i s
  | EAccept i client => accept_returns i client s
  end.
Fixpoint tcp_run (es : list tcp_event) (s : TcpServer) : option TcpServer :=
  match es with [] => Some s | e :: es => tcp_step e s ≫= tcp_run es end.

(** ** Binding *)

Definition listens {A} (x : A * bound) : bool := b_bind x.2 && b_listen x.2.

Lemma bind_all_ok {A} (addrs : list (A * bound)) : ∀ socks fails,
  bind_all addrs socks fails = (socks ++ map (b_sock ∘ snd) (filter (λ x, listens x = true) addrs),
    fails ++ map fst (filter (λ x, listens x = false) addrs)).
Proof.
  induction addrs as [|[a b] addrs IH]; intros socks fails; cbn [bind_all]; [by rewrite !app_nil_r|].
  rewrite !filter_cons. assert (listens (a, b) = b_bind b && b_listen b) as Hl by done.
  destruct (b_bind b), (b_listen b); cbn [negb andb] in Hl |- *; rewrite IH; do 2 case_decide; try congruence;
    cbn; by rewrite <- ?app_assoc.
Qed.

(** [Bind] is all or nothing.  It succeeds exactly when every address was bound and
    listens, with a socket for each in their order behind those there were; when one
    fails, those that failed are reported, and no socket is left, not even one of an
    earlier [Bind]. *)
Theorem Bind_all_or_nothing {A} (addrs : list (A * bound)) (s : TcpServer) :
  let '(ok, fails, s') := Bind addrs [] s in
  ok = forallb listens addrs ∧ fails = map fst (filter (λ x, listens x = false) addrs) ∧
  socks_ s' = (if ok then socks_ s ++ map (b_sock ∘ snd) addrs else []) ∧
  (ok = false → ∀ sock, sock ∈ socks_ s → sock ∈ closed_socks s').
Proof.
  unfold Bind. rewrite bind_all_ok. cbn [app].
  assert (forallb listens addrs = true → filter (λ x, listens x = true) addrs = addrs ∧ filter (λ x, listens x = false) addrs = []) as H1.
  { induction addrs as [|x addrs IH]; [done|]. cbn [forallb]. intros [Hx Ha]%andb_prop. destruct (IH Ha) as [H1 H2].
    rewrite !filter_cons, decide_True, decide_False by congruence. by rewrite H1. }
  assert (forallb listens addrs = false → map fst (filter (λ x, listens x = false) addrs) ≠ []) as H2.
  { clear H1. induction addrs as [|x addrs IH]; [done|]. cbn [forallb]. rewrite filter_cons. destruct (listens x) eqn:Hx; cbn [andb].
    - intros Ha. rewrite decide_False by done. by apply IH.
    - by rewrite decide_True by done. }
  destruct (forallb listens addrs) eqn:Hall.
  - destruct (H1 eq_refl) as [-> ->]. rewrite bool_decide_true by done. done.
  - rewrite bool_decide_false by (by apply H2). cbn. split_and!; [done..|]. intros _ sock Hs. set_solver.
Qed.



(** *** Sockets that are waited on *)









(** A server that listens on one socket, started, and waiting for a client. *)
Definition one_listener : TcpServer := mkTcp [0] false 120000 [] [] [0] [].



(** A server that is started again before the task of [Stop] has run loses its
    sockets and does not stop accepting: the fibers of the first [Start] go round with
    a closed socket, each [Accept] failing at once, until the next [Stop]. *)
Theorem restart_spins : ∃ s, tcp_run [EStop; EStart; ERun 0; ERun 0] one_listener = Some s ∧
  socks_ s = [] ∧ is_stop_ s = false ∧ tasks s = [] ∧ accepting s = [0; 0] ∧
  (∀ i c, c ≠ None → tcp_step (EAccept i c) s = None) ∧
  ∀ n i, i < 2 → tcp_run (replicate n (EAccept i None)) s = Some s.
Proof.
  eexists. split; [reflexivity|]. do 4 (split; [reflexivity|]). split.
  - intros [|[|i]] [c|] Hc; cbn; done.
  - intros n i Hi. induction n as [|n IH]; [done|]. cbn [replicate tcp_run].
    destruct i as [|[|i]]; [exact IH|exact IH|lia].
Qed.
