(* ===== verification/Daemon.v ===== *)
(** * Running as a daemon: [sys/daemon.{h,cc}]

    The process that watches a child and starts it again when it crashed.  What [fork]
    and [waitpid] answer is given in advance. *)
From stdpp Require Import list.
From S2P Require Import Prelude.
Local Open Scope Z_scope.

(** ** State *)

Record ProcessInfo := mkInfo {
  parent_id : Z; main_id : Z; parent_start_time : Z; main_start_time : Z; restart_count : Z }.

(** The information, and the seconds slept for each restart. *)
Record Proc := mkProc { info : ProcessInfo; slept : list Z }.
Definition set_parent (pid now : Z) (p : Proc) : Proc :=
  mkProc (mkInfo pid (main_id (info p)) now (main_start_time (info p)) (restart_count (info p))) (slept p).
Definition set_main (pid now : Z) (p : Proc) : Proc :=
  mkProc (mkInfo (parent_id (info p)) pid (parent_start_time (info p)) now (restart_count (info p))) (slept p).
Definition restarted (interval : Z) (p : Proc) : Proc :=
  mkProc (mkInfo (parent_id (info p)) (main_id (info p)) (parent_start_time (info p)) (main_start_time (info p)) (u32 (restart_count (info p) + 1)))
    (slept p ++ [interval]).

(** What comes of one [fork]: an error; this process is the child, with its id and the
    time; or it is the parent, and the child ends with a status. *)
Inductive forked := FFail | FChild (pid now : Z) | FParent (status : Z).

Section daemon.
(** The callback [main_cb] with its arguments, which gets the information as it is. *)
Variable main_cb : ProcessInfo → Z.
Variable interval : Z.

Definition RealStart (pid now : Z) : M Proc Z :=
  modify (set_main pid now) ;; p ← get; mret (main_cb (info p)).

(** The loop, one round for each [fork]; without one the process still runs. *)
Fixpoint RealDaemon_loop (forks : list forked) : M Proc Z :=
  match forks with
  | [] => λ _, NoFuel
  | FFail :: _ => mret (-1)
  | FChild pid now :: _ => modify (set_main pid now) ;; RealStart pid now
  | FParent status :: forks =>
    if negb (status =? 0) then
      if status =? 9 then mret 0
      else modify (restarted interval) ;; RealDaemon_loop forks
    else mret 0
  end.

Definition RealDaemon (daemon_ok : bool) (pid now : Z) (forks : list forked) : M Proc Z :=
  if negb daemon_ok then mret (-1)
  else modify (set_parent pid now) ;; RealDaemon_loop forks.

Definition StartDaemon (is_daemon daemon_ok : bool) (pid now : Z) (forks : list forked) : M Proc Z :=
  if negb is_daemon then modify (set_parent pid now) ;; RealStart pid now
  else RealDaemon daemon_ok pid now forks.

(** ** Restarting *)

(** A child that is started again: it did not end well, nor was it killed. *)
Definition crashed (status : Z) : Prop := status ≠ 0 ∧ status ≠ 9.

Lemma crashes_restart crashes rest p : Forall crashed crashes →
  RealDaemon_loop (map FParent crashes ++ rest) p =
  RealDaemon_loop rest (mkProc (mkInfo (parent_id (info p)) (main_id (info p)) (parent_start_time (info p)) (main_start_time (info p))
    (match crashes with [] => restart_count (info p) | _ => u32 (restart_count (info p) + Z.of_nat (length crashes)) end))
    (slept p ++ replicate (length crashes) interval)).
Proof.
  intros Hc. revert p. induction Hc as [|st crashes [H0 H9] Hc IH]; intros p.
  { cbn. rewrite app_nil_r. by destruct p as [[]]. }
  cbn [map app RealDaemon_loop]. rewrite (proj2 (Z.eqb_neq _ _) H0), (proj2 (Z.eqb_neq _ _) H9). cbn [negb].
  unfold mbind at 1, M_bind at 1, modify at 1. rewrite IH. do 2 f_equal.
  - cbn [restarted info parent_id main_id parent_start_time main_start_time restart_count]. f_equal. destruct crashes as [|x crashes]; [done|].
    unfold wrap. rewrite Zplus_mod_idemp_l. f_equal. cbn [length]. lia.
  - cbn [restarted slept length replicate]. by rewrite <- app_assoc.
Qed.

(** The daemon starts its child again exactly as often as it crashes, and counts
    it, with a pause each time; it ends with 0 when the child ends well or is killed,
    and with -1 when a child cannot be started; and a child runs the program knowing
    how often it was restarted. *)
Theorem daemon_restarts (pid now : Z) (crashes : list Z) (last_ : forked) (rest : list forked) (p : Proc) :
  Forall crashed crashes → Z.of_nat (length crashes) < 2 ^ 32 → restart_count (info p) = 0 →
  let p1 := mkProc (mkInfo pid (main_id (info p)) now (main_start_time (info p)) (Z.of_nat (length crashes)))
    (slept p ++ replicate (length crashes) interval) in
  StartDaemon true true pid now (map FParent crashes ++ last_ :: rest) p =
  match last_ with
  | FFail => Ret (-1) p1
  | FParent status => if decide (crashed status) then RealDaemon_loop rest (restarted interval p1) else Ret 0 p1
  | FChild child t => Ret (main_cb (info (set_main child t p1))) (set_main child t p1)
  end.
Proof.
  intros Hc Hl Hr p1. cbn [StartDaemon negb]. unfold StartDaemon, RealDaemon. cbn [negb]. unfold mbind at 1, M_bind at 1, modify at 1.
  rewrite crashes_restart by done.
  assert (mkProc (mkInfo (parent_id (info (set_parent pid now p))) (main_id (info (set_parent pid now p))) (parent_start_time (info (set_parent pid now p)))
    (main_start_time (info (set_parent pid now p))) (match crashes with [] => restart_count (info (set_parent pid now p))
    | _ => u32 (restart_count (info (set_parent pid now p)) + Z.of_nat (length crashes)) end))
    (slept (set_parent pid now p) ++ replicate (length crashes) interval) = p1) as ->.
  { unfold p1. cbn. rewrite Hr. do 2 f_equal. destruct crashes; [done|]. apply wrap_small. unfold in_u. lia. }
  destruct last_ as [|child t|status]; [done|done|]. cbn [RealDaemon_loop]. case_decide as Hst.
  - destruct Hst as [H0 H9]. by rewrite (proj2 (Z.eqb_neq _ _) H0), (proj2 (Z.eqb_neq _ _) H9).
  - destruct (Z.eqb_spec status 0); [done|]. destruct (Z.eqb_spec status 9); [done|]. by destruct Hst.
Qed.
End daemon.

(** ** Examples *)

Lemma daemon_restarts_witness : StartDaemon (λ _, 0) 5 true true 10 100 (map FParent [11; 256] ++ FParent 0 :: []) (mkProc (mkInfo 0 0 0 0 0) []) =
  Ret 0 (mkProc (mkInfo 10 0 100 0 2) [5; 5]).
Proof.
  rewrite (daemon_restarts (λ _, 0) 5 10 100 [11; 256] (FParent 0) [] (mkProc (mkInfo 0 0 0 0 0) [])); [|by repeat constructor|done|done].
  case_decide as H; [by destruct H|done].
Defined.
