(* ===== verification/Http.v ===== *)
(** * Requests and responses: [http/http.cc] *)
From Stdlib Require Import Sorting.Sorted.
From stdpp Require Import list.
From S2P Require Import Prelude Strings CLib HttpTypes.
Import Method Status.

(** ** Data *)

Record HttpRequest := mkRequest {
  method_ : HttpMethod;
  version_ : Z;
  close_ : bool;
  websocket_ : bool;
  parser_param_flag_ : Z;
  path_ : bytes;
  query_ : bytes;
  fragment_ : bytes;
  body_ : bytes;
  headers_ : MapType;
  params_ : MapType;
  cookies_ : MapType
}.

Definition new_HttpRequest (version : Z) (close : bool) : HttpRequest :=
  mkRequest GET version close false 0 (bs "/") [] [] [] [] [] [].

Definition set_headers_ m r := mkRequest (method_ r) (version_ r) (close_ r) (websocket_ r) (parser_param_flag_ r)
  (path_ r) (query_ r) (fragment_ r) (body_ r) m (params_ r) (cookies_ r).
Definition set_params_ m r := mkRequest (method_ r) (version_ r) (close_ r) (websocket_ r) (parser_param_flag_ r)
  (path_ r) (query_ r) (fragment_ r) (body_ r) (headers_ r) m (cookies_ r).
Definition set_cookies_ m r := mkRequest (method_ r) (version_ r) (close_ r) (websocket_ r) (parser_param_flag_ r)
  (path_ r) (query_ r) (fragment_ r) (body_ r) (headers_ r) (params_ r) m.
Definition set_flag f r := mkRequest (method_ r) (version_ r) (close_ r) (websocket_ r) f
  (path_ r) (query_ r) (fragment_ r) (body_ r) (headers_ r) (params_ r) (cookies_ r).
Definition set_close_ b r := mkRequest (method_ r) (version_ r) b (websocket_ r) (parser_param_flag_ r)
  (path_ r) (query_ r) (fragment_ r) (body_ r) (headers_ r) (params_ r) (cookies_ r).

Record HttpResponse := mkResponse {
  status_ : Z;
  rsp_version_ : Z;
  rsp_close_ : bool;
  rsp_websocket_ : bool;
  rsp_body_ : bytes;
  reason_ : bytes;
  rsp_headers_ : MapType;
  rsp_cookies_ : list bytes
}.

Definition new_HttpResponse (version : Z) (close : bool) : HttpResponse :=
  mkResponse (HttpStatus_code OK) version close false [] [] [] [].

Definition CreateResponse (r : HttpRequest) : HttpResponse := new_HttpResponse (version_ r) (close_ r).

(** ** Headers *)

Definition GetHeader (r : HttpRequest) (key def : bytes) : bytes := default def (map_find (headers_ r) key).
Definition SetHeader (key val : bytes) (r : HttpRequest) : HttpRequest := set_headers_ (map_set (headers_ r) key val) r.
Definition DelHeader (key : bytes) (r : HttpRequest) : HttpRequest := set_headers_ (map_erase (headers_ r) key) r.
(** The value is [*val] when there is one. *)
Definition HasHeader (r : HttpRequest) (key : bytes) : option bytes := map_find (headers_ r) key.

Definition SetParam (key val : bytes) (r : HttpRequest) : HttpRequest := set_params_ (map_set (params_ r) key val) r.
Definition DelParam (key : bytes) (r : HttpRequest) : HttpRequest := set_params_ (map_erase (params_ r) key) r.
Definition SetCookie (key val : bytes) (r : HttpRequest) : HttpRequest := set_cookies_ (map_set (cookies_ r) key val) r.
Definition DelCookie (key : bytes) (r : HttpRequest) : HttpRequest := set_cookies_ (map_erase (cookies_ r) key) r.

Definition rsp_GetHeader (r : HttpResponse) (key def : bytes) : bytes := default def (map_find (rsp_headers_ r) key).
Definition rsp_set_headers_ m r := mkResponse (status_ r) (rsp_version_ r) (rsp_close_ r) (rsp_websocket_ r)
  (rsp_body_ r) (reason_ r) m (rsp_cookies_ r).
Definition rsp_SetBody (body : bytes) (r : HttpResponse) : HttpResponse :=
  mkResponse (status_ r) (rsp_version_ r) (rsp_close_ r) (rsp_websocket_ r) body (reason_ r) (rsp_headers_ r) (rsp_cookies_ r).
Definition rsp_SetHeader (key val : bytes) (r : HttpResponse) : HttpResponse :=
  rsp_set_headers_ (map_set (rsp_headers_ r) key val) r.
Definition rsp_DelHeader (key : bytes) (r : HttpResponse) : HttpResponse :=
  rsp_set_headers_ (map_erase (rsp_headers_ r) key) r.
Definition SetRedirect (uri : bytes) (r : HttpResponse) : HttpResponse :=
  rsp_SetHeader (bs "Location") uri
    (mkResponse (HttpStatus_code FOUND) (rsp_version_ r) (rsp_close_ r) (rsp_websocket_ r)
       (rsp_body_ r) (reason_ r) (rsp_headers_ r) (rsp_cookies_ r)).

(** A cookie of a response; [time2str] is [Time2Str] with the format given, which
    asks the C library for local time. *)
Definition rsp_SetCookie (time2str : Z → bytes) (key val : bytes) (expired : Z) (path domain : bytes) (secure : bool)
    (r : HttpResponse) : HttpResponse :=
  let ss := key ++ bs "=" ++ val
    ++ (if (0 <? expired)%Z then bs ";expires=" ++ time2str expired ++ bs " GMT" else [])
    ++ (if bool_decide (domain = []) then [] else bs ";domain=" ++ domain)
    ++ (if bool_decide (path = []) then [] else bs ";path=" ++ path)
    ++ (if secure then bs ";secure" else []) in
  mkResponse (status_ r) (rsp_version_ r) (rsp_close_ r) (rsp_websocket_ r)
    (rsp_body_ r) (reason_ r) (rsp_headers_ r) (rsp_cookies_ r ++ [ss]).

(** ** Parameters *)

Definition eq_char : byte := byte.of_Z 61.
Definition amp : byte := byte.of_Z 38.
Definition semicolon : byte := byte.of_Z 59.

(** The loop of [PARSE_PARAM], with [pos] at most the size. *)
Fixpoint PARSE_PARAM_loop (fuel : nat) (trim : bytes → bytes) (flag : byte) (str : bytes) (pos : nat) (m : MapType)
    : option MapType :=
  match fuel with
  | 0 => None
  | S fuel =>
    match find_from (is_char eq_char) str pos with
    | None => Some m
    | Some key =>
      let name := trim (substr str pos (key - pos)) in
      match find_from (is_char flag) str key with
      | None => Some (map_insert m name (UrlDecode (substr_from str (key + 1)) true))
      | Some pos' =>
        PARSE_PARAM_loop fuel trim flag str (pos' + 1)
          (map_insert m name (UrlDecode (substr str (key + 1) (pos' - key - 1)) true))
      end
    end
  end.
Definition PARSE_PARAM (trim : bytes → bytes) (flag : byte) (str : bytes) (m : MapType) : option MapType :=
  PARSE_PARAM_loop (S (length str)) trim flag str 0 m.

Definition has_flag (r : HttpRequest) (f : Z) : bool := negb (Z.land (parser_param_flag_ r) f =? 0)%Z.
Definition add_flag (f : Z) (r : HttpRequest) : HttpRequest := set_flag (Z.lor (parser_param_flag_ r) f) r.

Definition InitQueryParam (r : HttpRequest) : option HttpRequest :=
  if has_flag r 1 then Some r else
  m ← PARSE_PARAM id amp (query_ r) (params_ r); Some (add_flag 1 (set_params_ m r)).

(** [strcasestr]: whether [needle] occurs, in any case. *)
Definition strcasestr (haystack needle : bytes) : bool :=
  bool_decide (find_sub (ToLower (c_str needle)) (ToLower (c_str haystack)) ≠ None).

Definition form_type : bytes := bs "application/x-www-form-urlencoded".
Definition InitBodyParam (r : HttpRequest) : option HttpRequest :=
  if has_flag r 2 then Some r else
  if negb (strcasestr (GetHeader r (bs "content-type") []) form_type) then Some (add_flag 2 r) else
  m ← PARSE_PARAM id amp (body_ r) (params_ r); Some (add_flag 2 (set_params_ m r)).

(** The default blanks of [Trim]. *)
Definition blanks : bytes := map byte.of_Z [32; 9; 13; 10]%Z.
Definition InitCookies (r : HttpRequest) : option HttpRequest :=
  if has_flag r 4 then Some r else
  let cookie := GetHeader r (bs "cookie") [] in
  if bool_decide (cookie = []) then Some (add_flag 4 r) else
  m ← PARSE_PARAM (λ s, Trim s blanks) semicolon cookie (cookies_ r); Some (add_flag 4 (set_cookies_ m r)).

Definition InitParam (r : HttpRequest) : option HttpRequest :=
  r ← InitQueryParam r; r ← InitBodyParam r; InitCookies r.

(** [GetParam] and [HasParam], [GetCookie] and [HasCookie]: the request changes,
    for what is parsed once is kept. *)
Definition FindParam (r : HttpRequest) (key : bytes) : option (option bytes * HttpRequest) :=
  r ← InitQueryParam r; r ← InitBodyParam r; Some (map_find (params_ r) key, r).
Definition GetParam (r : HttpRequest) (key def : bytes) : option (bytes * HttpRequest) :=
  x ← FindParam r key; Some (default def x.1, x.2).
Definition FindCookie (r : HttpRequest) (key : bytes) : option (option bytes * HttpRequest) :=
  r ← InitCookies r; Some (map_find (cookies_ r) key, r).
Definition GetCookie (r : HttpRequest) (key def : bytes) : option (bytes * HttpRequest) :=
  x ← FindCookie r key; Some (default def x.1, x.2).

(** [Init]: the connection header decides whether the connection is closed. *)
Definition Init (r : HttpRequest) : HttpRequest :=
  let conn := GetHeader r (bs "connection") [] in
  if bool_decide (conn = []) then r
  else set_close_ (negb (strcase_eq (c_str conn) (bs "keep-alive"))) r.

(** ** Printing *)

Definition crlf : bytes := map byte.of_Z [13; 10]%Z.

Definition version_text (v : Z) : bytes := dec (Z.to_N (Z.shiftr v 4)) ++ bs "." ++ dec (Z.to_N (Z.land v 0x0F)).

Definition connection_line (close : bool) : bytes :=
  bs "connection: " ++ (if close then bs "close" else bs "keep-alive") ++ crlf.

Definition is_connection (key : bytes) : bool := strcase_eq (c_str key) (bs "connection").

(** The loop over the headers: unless [websocket], [connection] is left out. *)
Definition dump_headers (websocket : bool) (m : MapType) : bytes :=
  concat (map (λ p, if negb websocket && is_connection p.1 then [] else p.1 ++ bs ": " ++ p.2 ++ crlf) m).

Definition dump_body (body : bytes) : bytes :=
  if bool_decide (body = []) then crlf
  else bs "content-length: " ++ dec (N.of_nat (length body)) ++ crlf ++ crlf ++ body.

Definition prefixed (mark : bytes) (s : bytes) : bytes := if bool_decide (s = []) then [] else mark ++ s.

Definition ToString (r : HttpRequest) : bytes :=
  HttpMethodToString (method_ r) ++ bs " " ++ path_ r ++ prefixed (bs "?") (query_ r)
    ++ prefixed (bs "#") (fragment_ r) ++ bs " HTTP/" ++ version_text (version_ r) ++ crlf
  ++ (if websocket_ r then [] else connection_line (close_ r))
  ++ dump_headers (websocket_ r) (headers_ r)
  ++ dump_body (body_ r).

Definition rsp_ToString (r : HttpResponse) : bytes :=
  bs "HTTP/" ++ version_text (rsp_version_ r) ++ bs " " ++ dec (Z.to_N (status_ r)) ++ bs " "
    ++ (if bool_decide (reason_ r = []) then HttpStatusToString (status_ r) else reason_ r) ++ crlf
  ++ dump_headers (rsp_websocket_ r) (rsp_headers_ r)
  ++ concat (map (λ i, bs "Set-Cookie: " ++ i ++ crlf) (rsp_cookies_ r))
  ++ (if rsp_websocket_ r then [] else connection_line (rsp_close_ r))
  ++ dump_body (rsp_body_ r).

(** ** Parameters *)

(** A query: the pairs joined with the mark, the values URL-encoded. *)
Definition pair_text (p : bytes * bytes) : bytes := p.1 ++ [eq_char] ++ UrlEncode p.2 true.
Fixpoint query_text (flag : byte) (kvs : list (bytes * bytes)) : bytes :=
  match kvs with
  | [] => []
  | [p] => pair_text p
  | p :: kvs => pair_text p ++ [flag] ++ query_text flag kvs
  end.

Definition insert_all (trim : bytes → bytes) (m : MapType) (kvs : list (bytes * bytes)) : MapType :=
  foldl (λ m p, map_insert m (trim p.1) p.2) m kvs.

Definition free_of (c : byte) (s : bytes) : Prop := Forall (λ x, is_char c x = false) s.

Lemma url_char_marks c p :
  forallb (λ x, negb (is_char amp x) && negb (is_char semicolon x)) (url_char p c) = true.
Proof. destruct p, c; vm_compute; reflexivity. Qed.

Lemma url_char_free c p : free_of amp (url_char p c) ∧ free_of semicolon (url_char p c).
Proof.
  pose proof (url_char_marks c p) as H. rewrite forallb_forall in H.
  split; apply Forall_forall; intros x Hx%list_elem_of_In; specialize (H x Hx);
    destruct (is_char amp x), (is_char semicolon x); done.
Qed.

Lemma UrlEncode_marks s p flag : flag = amp ∨ flag = semicolon → free_of flag (UrlEncode s p).
Proof.
  intros Hf. rewrite UrlEncode_spec. induction s as [|c s IH]; cbn; [constructor|].
  apply Forall_app. split; [|done]. destruct Hf as [->| ->]; apply url_char_free.
Qed.

Lemma find_from_at P pre a c b : Forall (λ x, P x = false) a → P c = true →
  find_from P (pre ++ a ++ c :: b) (length pre) = Some (length pre + length a)%nat.
Proof.
  intros Ha Hc. rewrite find_from_app, find_if_app_l by done. cbn. rewrite Hc. cbn. f_equal. lia.
Qed.

Lemma find_from_none P pre a : Forall (λ x, P x = false) a → find_from P (pre ++ a) (length pre) = None.
Proof.
  intros Ha. rewrite find_from_app. assert (find_if P a = None) as ->; [|done].
  induction Ha as [|c a Hc _ IH]; cbn; [done|]. by rewrite Hc, IH.
Qed.

Lemma substr_at (pre a b : bytes) n : n = length a → substr (pre ++ a ++ b) (length pre) n = a.
Proof. intros ->. unfold substr, slice. by rewrite drop_app_length, take_app_length. Qed.

Lemma is_char_self c : is_char c c = true.
Proof. unfold is_char. by rewrite bool_decide_eq_true_2. Qed.

(** The loop reads a query back, from anywhere. *)
Lemma PARSE_PARAM_loop_ok trim flag kvs : flag = amp ∨ flag = semicolon →
  Forall (λ p, free_of eq_char p.1) kvs → ∀ fuel pre m, length kvs < fuel →
  PARSE_PARAM_loop fuel trim flag (pre ++ query_text flag kvs) (length pre) m = Some (insert_all trim m kvs).
Proof.
  intros Hflag. induction 1 as [|[k v] kvs Hk _ IH]; intros [|fuel] pre m Hf; cbn in Hf; try lia.
  { cbn. rewrite app_nil_r. rewrite <- (app_nil_r pre) at 1. by rewrite find_from_none by constructor. }
  cbn [fst] in Hk. cbn [PARSE_PARAM_loop].
  assert (query_text flag ((k, v) :: kvs) =
    k ++ eq_char :: UrlEncode v true ++ match kvs with [] => [] | _ => flag :: query_text flag kvs end) as ->.
  { cbn [query_text]. unfold pair_text. cbn. destruct kvs; [by rewrite app_nil_r|]. by rewrite <- !app_assoc. }
  rewrite find_from_at by (done || apply is_char_self).
  rewrite substr_at by lia.
  assert (Forall (λ x, is_char flag x = false) (eq_char :: UrlEncode v true)) as Hfree.
  { constructor; [by destruct Hflag as [->| ->]|]. by apply UrlEncode_marks. }
  set (rest := match kvs with [] => [] | _ => _ end).
  assert (pre ++ k ++ eq_char :: UrlEncode v true ++ rest =
    (pre ++ k) ++ (eq_char :: UrlEncode v true) ++ rest) as -> by by rewrite <- app_assoc.
  rewrite <- (length_app pre k). destruct kvs as [|p kvs]; subst rest.
  - rewrite app_nil_r, find_from_none by done. cbn [insert_all foldl fst snd]. do 2 f_equal.
    unfold substr_from. rewrite (drop_app_add (pre ++ k) (eq_char :: UrlEncode v true) 1).
    change (drop 1 (eq_char :: UrlEncode v true)) with (UrlEncode v true). by rewrite url_roundtrip_ok.
  - rewrite find_from_at by (done || apply is_char_self).
    set (enc := UrlEncode v true).
    assert (substr ((pre ++ k) ++ (eq_char :: enc) ++ flag :: query_text flag (p :: kvs)) (length (pre ++ k) + 1)
      (length (pre ++ k) + length (eq_char :: enc) - length (pre ++ k) - 1) = enc) as ->.
    { replace ((pre ++ k) ++ (eq_char :: enc) ++ flag :: query_text flag (p :: kvs))
        with (((pre ++ k) ++ [eq_char]) ++ enc ++ flag :: query_text flag (p :: kvs)) by by rewrite <- !app_assoc.
      replace (length (pre ++ k) + 1) with (length ((pre ++ k) ++ [eq_char])) by (rewrite length_app; done).
      apply substr_at. cbn [length]. lia. }
    subst enc. rewrite url_roundtrip_ok.
    replace ((pre ++ k) ++ (eq_char :: UrlEncode v true) ++ flag :: query_text flag (p :: kvs))
      with (((pre ++ k) ++ (eq_char :: UrlEncode v true) ++ [flag]) ++ query_text flag (p :: kvs))
      by by rewrite <- !app_assoc.
    replace (length (pre ++ k) + length (eq_char :: UrlEncode v true) + 1)
      with (length ((pre ++ k) ++ (eq_char :: UrlEncode v true) ++ [flag]))
      by (rewrite !length_app; cbn [length]; lia).
    rewrite IH by lia. done.
Qed.

Lemma find_from_bound P s pos i : pos ≤ length s → find_from P s pos = Some i → pos ≤ i < length s.
Proof.
  unfold find_from. intros Hp Hi. apply fmap_Some in Hi as (j & Hj & ->).
  pose proof (find_if_bound _ _ _ Hj) as Hb. rewrite length_drop in Hb. lia.
Qed.

(** The loop ends on every string. *)
Lemma PARSE_PARAM_total trim flag str fuel : ∀ pos m, pos ≤ length str → length str < fuel + pos →
  is_Some (PARSE_PARAM_loop fuel trim flag str pos m).
Proof.
  induction fuel as [|fuel IH]; intros pos m Hp Hf; [lia|]. cbn [PARSE_PARAM_loop].
  destruct (find_from (is_char eq_char) str pos) as [key|] eqn:Hk; [|by eexists].
  apply find_from_bound in Hk; [|done].
  destruct (find_from (is_char flag) str key) as [pos'|] eqn:Hf'; [|by eexists].
  apply find_from_bound in Hf'; [|lia]. apply IH; lia.
Qed.

Lemma InitParams_total r : is_Some (InitQueryParam r) ∧ is_Some (InitBodyParam r) ∧ is_Some (InitCookies r).
Proof.
  assert (∀ trim flag str m, is_Some (PARSE_PARAM trim flag str m)) as Hp.
  { intros. apply PARSE_PARAM_total; lia. }
  unfold InitQueryParam, InitBodyParam, InitCookies. split_and!; repeat case_match; try by eexists.
  - destruct (Hp id amp (query_ r) (params_ r)) as [m ->]. by eexists.
  - destruct (Hp id amp (body_ r) (params_ r)) as [m ->]. by eexists.
  - destruct (Hp (λ s, Trim s blanks) semicolon (GetHeader r (bs "cookie") []) (cookies_ r)) as [m ->]. by eexists.
Qed.

(** The first pair with the key. *)
Fixpoint first_value (kvs : list (bytes * bytes)) (key : bytes) : option bytes :=
  match kvs with
  | [] => None
  | p :: kvs => if decide (key_eq p.1 key) then Some p.2 else first_value kvs key
  end.

Lemma map_find_insert_all kvs key : ∀ m, map_find (insert_all id m kvs) key =
  match map_find m key with Some v => Some v | None => first_value kvs key end.
Proof.
  induction kvs as [|[k v] kvs IH]; intros m; cbn; [by destruct (map_find m key)|].
  unfold insert_all in IH. rewrite IH, map_find_put. unfold id. cbn.
  case_decide as Hk; [rewrite <- Hk|]; by destruct (map_find m k).
Qed.

Lemma length_query_text flag kvs : length kvs ≤ length (query_text flag kvs).
Proof.
  induction kvs as [|p kvs IH]; [done|]. cbn [query_text]. destruct kvs as [|q kvs].
  - unfold pair_text. rewrite !length_app. cbn. lia.
  - rewrite !length_app. unfold pair_text. rewrite !length_app. cbn [length] in *. lia.
Qed.

Lemma PARSE_PARAM_ok trim flag kvs m : flag = amp ∨ flag = semicolon →
  Forall (λ p, free_of eq_char p.1) kvs →
  PARSE_PARAM trim flag (query_text flag kvs) m = Some (insert_all trim m kvs).
Proof.
  intros Hf Hk. apply (PARSE_PARAM_loop_ok trim flag kvs Hf Hk _ []).
  pose proof (length_query_text flag kvs). lia.
Qed.

(** ** Printing *)

Definition cr : byte := byte.of_Z 13.
Definition colon : byte := byte.of_Z 58.

(** A reference reader of messages: lines up to an empty one, then the body; a
    header's name ends at the first colon and blank. *)
Definition take_line (s : bytes) : option (bytes * bytes) :=
  i ← find_sub crlf s; Some (take i s, drop (i + 2) s).

Fixpoint read_headers (fuel : nat) (s : bytes) : option (list (bytes * bytes) * bytes) :=
  match fuel with
  | 0 => None
  | S fuel =>
    '(line, s) ← take_line s;
    match line with
    | [] => Some ([], s)
    | _ => i ← find_sub (bs ": ") line;
           '(hs, body) ← read_headers fuel s;
           Some ((take i line, drop (i + 2) line) :: hs, body)
    end
  end.

Definition read_message (s : bytes) : option (bytes * list (bytes * bytes) * bytes) :=
  '(line, s) ← take_line s;
  '(hs, body) ← read_headers (S (length s)) s;
  Some (line, hs, body).

(** What is sent. *)
Definition request_line (r : HttpRequest) : bytes :=
  HttpMethodToString (method_ r) ++ bs " " ++ path_ r ++ prefixed (bs "?") (query_ r)
    ++ prefixed (bs "#") (fragment_ r) ++ bs " HTTP/" ++ version_text (version_ r).

Definition own_connection (websocket close : bool) : list (bytes * bytes) :=
  if websocket then [] else [(bs "connection", if close then bs "close" else bs "keep-alive")].
Definition kept_headers (websocket : bool) (m : list (bytes * bytes)) : list (bytes * bytes) :=
  filter (λ p, negb (negb websocket && is_connection p.1)) m.
Definition length_header (body : bytes) : list (bytes * bytes) :=
  if bool_decide (body = []) then [] else [(bs "content-length", dec (N.of_nat (length body)))].

Definition sent_headers (r : HttpRequest) : list (bytes * bytes) :=
  own_connection (websocket_ r) (close_ r) ++ kept_headers (websocket_ r) (headers_ r) ++ length_header (body_ r).

(** The fields hold no line break, and the names of headers no colon. *)
Definition clean (r : HttpRequest) : Prop :=
  free_of cr (path_ r) ∧ free_of cr (query_ r) ∧ free_of cr (fragment_ r) ∧
  Forall (λ p, free_of cr p.1 ∧ free_of colon p.1 ∧ free_of cr p.2) (headers_ r).

Definition header_line (p : bytes * bytes) : bytes := p.1 ++ bs ": " ++ p.2 ++ crlf.
Definition lines (hs : list (bytes * bytes)) : bytes := concat (map header_line hs).

Lemma lines_app a b : lines (a ++ b) = lines a ++ lines b.
Proof. unfold lines. by rewrite List.map_app, concat_app. Qed.

Lemma dump_headers_lines w m : dump_headers w m = lines (kept_headers w m).
Proof.
  unfold dump_headers, lines, kept_headers. induction m as [|p m IH]; [done|]. cbn [map concat].
  rewrite IH, filter_cons.
  destruct (negb w && is_connection p.1); case_decide as Hd; done.
Qed.

Lemma dump_body_lines body : dump_body body = lines (length_header body) ++ crlf ++ body.
Proof.
  unfold dump_body, length_header. case_bool_decide as H; [by rewrite H, app_nil_r|].
  unfold lines, header_line. cbn [map concat fst snd]. by rewrite app_nil_r, <- !app_assoc.
Qed.

Lemma connection_line_lines (w c : bool) : (if w then [] else connection_line c) = lines (own_connection w c).
Proof. destruct w, c; reflexivity. Qed.

Lemma ToString_lines r : ToString r = request_line r ++ crlf ++ lines (sent_headers r) ++ crlf ++ body_ r.
Proof.
  unfold ToString, sent_headers, request_line.
  rewrite connection_line_lines, dump_headers_lines, dump_body_lines, !lines_app. by rewrite <- !app_assoc.
Qed.

(** *** Reading back *)

Lemma free_cr_cons x s : free_of cr (x :: s) → is_char cr x = false ∧ free_of cr s.
Proof. intros H. by inversion H. Qed.

Lemma starts_crlf x s : is_char cr x = false → starts_with crlf (x :: s) = false.
Proof.
  unfold is_char. rewrite bool_decide_eq_false. intros Hx.
  change crlf with [cr; byte.of_Z 10]. cbn [starts_with]. by rewrite bool_decide_eq_false_2 by congruence.
Qed.

Lemma find_crlf a s : free_of cr a → find_sub crlf (a ++ crlf ++ s) = Some (length a).
Proof.
  induction a as [|x a IH]; intros Ha; [by destruct s|].
  apply free_cr_cons in Ha as [Hx Ha]. cbn [app find_sub]. rewrite starts_crlf by done.
  by rewrite IH.
Qed.

Lemma take_line_ok a s : free_of cr a → take_line (a ++ crlf ++ s) = Some (a, s).
Proof.
  intros Ha. unfold take_line. rewrite find_crlf by done. cbn [mbind option_bind]. rewrite take_app_length. do 2 f_equal.
  rewrite (drop_app_add a (crlf ++ s) 2). done.
Qed.

Lemma find_colon a s : free_of colon a → find_sub (bs ": ") (a ++ bs ": " ++ s) = Some (length a).
Proof.
  induction a as [|x a IH]; intros Ha; [by destruct s|]. inversion Ha as [|? ? Hx Ha']; subst.
  cbn [app find_sub]. unfold is_char in Hx. rewrite bool_decide_eq_false in Hx.
  change (bs ": ") with [colon; byte.of_Z 32] in *. cbn [starts_with].
  rewrite (bool_decide_eq_false_2 (colon = x)) by congruence. cbn [andb]. by rewrite IH.
Qed.

Definition clean_header (p : bytes * bytes) : Prop := free_of cr p.1 ∧ free_of colon p.1 ∧ free_of cr p.2.

Lemma read_headers_ok body hs : Forall clean_header hs → ∀ fuel, length hs < fuel →
  read_headers fuel (lines hs ++ crlf ++ body) = Some (hs, body).
Proof.
  induction 1 as [|[k v] hs (Hk & Hc & Hv) _ IH]; intros [|fuel] Hf; cbn [length] in Hf; try lia.
  - change (lines []) with (@nil byte). cbn [read_headers]. by rewrite take_line_ok by constructor.
  - cbn [read_headers fst snd] in *.
    assert (lines ((k, v) :: hs) ++ crlf ++ body = (k ++ bs ": " ++ v) ++ crlf ++ lines hs ++ crlf ++ body) as ->.
    { unfold lines, header_line. cbn [map concat fst snd]. by rewrite <- !app_assoc. }
    rewrite take_line_ok.
    2:{ apply Forall_app. split; [done|]. apply Forall_app. split; [|done]. vm_compute. by repeat constructor. }
    cbn [mbind option_bind]. rewrite IH by lia. rewrite find_colon by done.
    destruct (k ++ bs ": " ++ v) as [|c l] eqn:Hl; [by destruct k|]. rewrite <- Hl. clear c l Hl.
    cbn [mbind option_bind]. rewrite take_app_length, (drop_app_add k (bs ": " ++ v) 2). done.
Qed.

Lemma length_lines hs : length hs ≤ length (lines hs).
Proof.
  induction hs as [|p hs IH]; [done|]. unfold lines in *. cbn [map concat length]. rewrite length_app.
  assert (2 ≤ length (header_line p)); [|lia]. unfold header_line. rewrite !length_app. cbn. lia.
Qed.

Lemma read_message_ok line hs body : free_of cr line → Forall clean_header hs →
  read_message (line ++ crlf ++ lines hs ++ crlf ++ body) = Some (line, hs, body).
Proof.
  intros Hl Hh. unfold read_message. rewrite take_line_ok by done. cbn [mbind option_bind].
  rewrite read_headers_ok; [done|done|]. rewrite length_app. pose proof (length_lines hs). lia.
Qed.

(** Printed numbers are digits. *)
Lemma dec_free c n : existsb (Z.eqb (uchar c)) [48; 49; 50; 51; 52; 53; 54; 55; 56; 57]%Z = false → free_of c (dec n).
Proof.
  intros Hc. unfold dec. assert (∀ u, free_of c (bs (DecimalString.NilEmpty.string_of_uint u))) as Hu.
  { intros u. induction u as [|u IH|u IH|u IH|u IH|u IH|u IH|u IH|u IH|u IH|u IH]; [constructor|..].
    all: constructor; [|exact IH]; unfold is_char; apply bool_decide_eq_false; intros <-; by vm_compute in Hc. }
  unfold DecimalString.NilZero.string_of_uint. destruct (N.to_uint n) as [|u|u|u|u|u|u|u|u|u|u] eqn:E; [|apply (Hu (_ u))..].
  constructor; [|constructor]. unfold is_char. apply bool_decide_eq_false. intros <-. by vm_compute in Hc.
Qed.

Lemma free_app c a b : free_of c a → free_of c b → free_of c (a ++ b).
Proof. intros. by apply Forall_app. Qed.

(** A fixed text without a character. *)
Lemma free_check c a : forallb (λ x, negb (is_char c x)) a = true → free_of c a.
Proof.
  rewrite forallb_forall. intros H. apply Forall_forall. intros x Hx%list_elem_of_In.
  specialize (H x Hx). by destruct (is_char c x).
Qed.

Lemma prefixed_free c mark s : free_of c mark → free_of c s → free_of c (prefixed mark s).
Proof. intros. unfold prefixed. case_bool_decide; [constructor|by apply free_app]. Qed.

Lemma request_line_free r : clean r → free_of cr (request_line r).
Proof.
  intros (Hp & Hq & Hf & _). unfold request_line, version_text.
  repeat apply free_app; try apply prefixed_free; try done; try (by apply dec_free);
    try (by apply free_check; vm_compute).
  destruct (method_ r); by apply free_check; vm_compute.
Qed.

Lemma sent_headers_clean r : clean r → Forall clean_header (sent_headers r).
Proof.
  intros (_ & _ & _ & Hh). unfold sent_headers. apply Forall_app. split; [|apply Forall_app; split].
  - unfold own_connection. destruct (websocket_ r); [constructor|]. constructor; [|constructor].
    split_and!; [by apply free_check; vm_compute..|]. destruct (close_ r); by apply free_check; vm_compute.
  - unfold kept_headers. apply Forall_forall. intros p [_ Hp]%list_elem_of_filter.
    rewrite Forall_forall in Hh. by apply Hh.
  - unfold length_header. case_bool_decide; [constructor|]. constructor; [|constructor].
    split_and!; [by apply free_check; vm_compute..|]. by apply dec_free.
Qed.

(** *** No header twice *)

Lemma is_connection_eq k : is_connection k = true → key_eq k (bs "connection").
Proof.
  unfold is_connection, strcase_eq, key_eq, folded. intros H%bool_decide_eq_true. by rewrite H.
Qed.

Lemma key_eq_connection k : key_eq k (bs "connection") → is_connection k = true.
Proof.
  unfold is_connection, strcase_eq, key_eq, folded. intros H. apply bool_decide_eq_true.
  change (c_str (bs "connection")) with (bs "connection") in H.
  revert H. generalize (ToLower (c_str k)), (ToLower (bs "connection")). intros a.
  induction a as [|x a IH]; intros [|y b]; cbn; try done. intros [= Hx Hb].
  f_equal; [|by apply IH]. by apply byte.unsigned_inj.
Qed.

Lemma kept_keys m : Forall (λ p, ¬ key_eq p.1 (bs "connection")) (kept_headers false m).
Proof.
  apply Forall_forall. intros p [Hp _]%list_elem_of_filter Hk. by rewrite key_eq_connection in Hp.
Qed.

Lemma map_find_None m key : map_ok m → map_find m key = None → ∀ p, p ∈ m → ¬ key_eq p.1 key.
Proof.
  unfold map_ok. induction m as [|[a w] m IH]; intros Hm Hf p Hp; [by apply elem_of_nil in Hp|].
  apply StronglySorted_inv in Hm as [Hm Ha]. rewrite List.Forall_forall in Ha. cbn in Hf.
  apply elem_of_cons in Hp as [->|Hp].
  - cbn. destruct (compareP a key); done.
  - destruct (compareP a key) as [|_ Hlt _|]; [by apply IH| |done].
    intros Hk. specialize (Ha p (proj1 (list_elem_of_In _ _) Hp)). unfold key_lt in Ha. cbn in Ha.
    pose proof (less_trans _ _ _ Hlt Ha) as Ht. rewrite Hk, less_eq in Ht by done. done.
Qed.

Lemma sorted_NoDup m : map_ok m → NoDup (map (λ p, folded p.1) m).
Proof.
  unfold map_ok. induction 1 as [|p m _ IH Hp]; [constructor|]. cbn. constructor; [|done].
  rewrite list_elem_of_In, in_map_iff. intros (q & Hq & Hin). rewrite List.Forall_forall in Hp.
  specialize (Hp q Hin). unfold key_lt, CaseInsensitiveLess in Hp. by rewrite Hq, lex_lt_irrefl in Hp.
Qed.

Lemma kept_ok w m : map_ok m → map_ok (kept_headers w m).
Proof.
  unfold map_ok, kept_headers. induction 1 as [|p m _ IH Hp]; [constructor|]. rewrite filter_cons.
  case_decide; [|done]. constructor; [done|]. rewrite List.Forall_forall in Hp |- *.
  intros q [_ Hq]%list_elem_of_In%list_elem_of_filter. by apply Hp, list_elem_of_In.
Qed.

Lemma map_find_Some m key v : map_find m key = Some v → ∃ p, p ∈ m ∧ key_eq p.1 key.
Proof.
  induction m as [|[a w] m IH]; [done|]. cbn. intros Hf. destruct (compareP a key) as [| |_ _ Hk]; [|done|exists (a, w); by split; [left|]].
  destruct (IH Hf) as (p & Hp & Hk). exists p. by split; [right|].
Qed.

(** Of the headers of the map no two have the same name, nor is [connection] among them
    where it is printed from [close_]. *)
Lemma sent_first_NoDup r : map_ok (headers_ r) →
  NoDup (map (λ p, folded p.1) (own_connection (websocket_ r) (close_ r) ++ kept_headers (websocket_ r) (headers_ r))).
Proof.
  intros Hm. pose proof (sorted_NoDup _ (kept_ok (websocket_ r) _ Hm)) as Hk. destruct (websocket_ r); [done|].
  cbn [own_connection app map]. constructor; [|done]. intros (p & Hp & Hin)%list_elem_of_fmap.
  pose proof (kept_keys (headers_ r)) as Hkc. rewrite Forall_forall in Hkc. by apply (Hkc p Hin).
Qed.

(** So the length that is printed with a body is the only one that may be there twice. *)
Lemma sent_NoDup r : map_ok (headers_ r) →
  NoDup (map (λ p, folded p.1) (sent_headers r)) ↔ body_ r = [] ∨ map_find (headers_ r) (bs "content-length") = None.
Proof.
  intros Hm. pose proof (sent_first_NoDup r Hm) as Hfirst. unfold sent_headers. rewrite app_assoc, List.map_app.
  unfold length_header. case_bool_decide as Hb; [rewrite app_nil_r; split; [by left|done]|]. cbn [map fst snd].
  rewrite NoDup_app. split.
  - intros (_ & Hnin & _). right. destruct (map_find _ _) as [v|] eqn:Hf; [|done]. destruct (map_find_Some _ _ _ Hf) as (p & Hp & Hk).
    destruct (Hnin (folded p.1)); [|by rewrite Hk; left]. apply list_elem_of_fmap. exists p. split; [done|]. apply elem_of_app. right.
    apply list_elem_of_filter. split; [|done]. apply negb_prop_intro, Is_true_false_2. apply andb_false_iff. right.
    destruct (is_connection p.1) eqn:Hc; [|done]. apply is_connection_eq in Hc. unfold key_eq in Hk, Hc. rewrite Hc in Hk. by vm_compute in Hk.
  - intros [?|Hf]; [done|]. split_and!; [done| |by apply NoDup_singleton]. intros k (p & -> & Hp)%list_elem_of_fmap Hl%list_elem_of_singleton.
    apply elem_of_app in Hp as [Hp|[_ Hp]%list_elem_of_filter]; [|by apply (map_find_None _ _ Hm Hf p)].
    destruct (websocket_ r); [by apply elem_of_nil in Hp|]. apply list_elem_of_singleton in Hp as ->. by vm_compute in Hl.
Qed.

(** ** Properties *)

(** Parameters come back.  From a request whose query is any list of pairs,
    the values URL-encoded and no equals sign in a name, [GetParam] finds the
    value of the first pair with the name, in any case, or the default; asking
    again finds the same. *)
Theorem GetParam_reads_query (r : HttpRequest) (kvs : list (bytes * bytes)) (key def : bytes) :
  query_ r = query_text amp kvs → Forall (λ p, free_of eq_char p.1) kvs →
  params_ r = [] → parser_param_flag_ r = 0%Z →
  strcasestr (GetHeader r (bs "content-type") []) form_type = false →
  ∃ r', GetParam r key def = Some (default def (first_value kvs key), r') ∧
    GetParam r' key def = Some (default def (first_value kvs key), r').
Proof.
  intros Hq Hk Hp Hf Hc.
  assert (InitQueryParam r = Some (add_flag 1 (set_params_ (insert_all id [] kvs) r))) as H1.
  { unfold InitQueryParam, has_flag. rewrite Hf, Hq, PARSE_PARAM_ok, Hp by (done || by left). done. }
  set (r1 := add_flag 1 (set_params_ (insert_all id [] kvs) r)) in *.
  assert (InitBodyParam r1 = Some (add_flag 2 r1)) as H2.
  { unfold InitBodyParam. assert (has_flag r1 2 = false) as ->.
    { unfold has_flag. subst r1. cbn. by rewrite Hf. }
    change (GetHeader r1 (bs "content-type") []) with (GetHeader r (bs "content-type") []). by rewrite Hc. }
  exists (add_flag 2 r1). split.
  - unfold GetParam, FindParam. rewrite H1. cbn [mbind option_bind]. rewrite H2. cbn [mbind option_bind fst snd].
    do 3 f_equal. apply (map_find_insert_all kvs key []).
  - assert (has_flag (add_flag 2 r1) 1 = true ∧ has_flag (add_flag 2 r1) 2 = true) as [Hf1 Hf2].
    { unfold has_flag. subst r1. cbn. by rewrite Hf. }
    unfold GetParam, FindParam, InitQueryParam, InitBodyParam. rewrite Hf1. cbn [mbind option_bind].
    rewrite Hf2. cbn [mbind option_bind fst snd]. do 3 f_equal. apply (map_find_insert_all kvs key []).
Qed.

(** Parsing parameters, forms and cookies ends on every input. *)
Theorem parameters_total (r : HttpRequest) (key def : bytes) :
  is_Some (GetParam r key def) ∧ is_Some (GetCookie r key def) ∧ is_Some (InitParam r).
Proof.
  pose proof InitParams_total as H. unfold GetParam, FindParam, GetCookie, FindCookie, InitParam.
  destruct (H r) as ([r1 ->] & _ & [r3 Hc]). cbn [mbind option_bind].
  destruct (H r1) as (_ & [r2 ->] & _). cbn [mbind option_bind].
  destruct (H r2) as (_ & _ & [r4 ->]). rewrite Hc. cbn [mbind option_bind]. split_and!; by eexists.
Qed.

(** C20: what [ToString] prints is a message that a reader of lines takes apart into
    the request line, the headers and exactly the body, when no field holds a
    carriage return and no header name a colon: nothing can be smuggled in.  The
    headers are [connection] as [close_] says, except for a websocket, then those of the
    map but its own [connection], then the length if there is a body; and no two of them
    have the same name exactly when there is no body or no [content-length] was set by
    hand, websocket or not. *)
Theorem ToString_reads_back (r : HttpRequest) : clean r →
  read_message (ToString r) = Some (request_line r, sent_headers r, body_ r) ∧
  (map_ok (headers_ r) →
   NoDup (map (λ p, folded p.1) (sent_headers r)) ↔ body_ r = [] ∨ map_find (headers_ r) (bs "content-length") = None).
Proof.
  intros Hr. split; [|apply sent_NoDup]. rewrite ToString_lines.
  apply read_message_ok; [by apply request_line_free|by apply sent_headers_clean].
Qed.

(** Headers are found by name in any case: after [SetHeader] the new value,
    after [DelHeader] none, and every other header is untouched; the map stays in
    order. *)
Theorem headers_by_name (r : HttpRequest) (key val key' def : bytes) : map_ok (headers_ r) →
  map_ok (headers_ (SetHeader key val r)) ∧ map_ok (headers_ (DelHeader key r)) ∧
  GetHeader (SetHeader key val r) key' def = (if decide (key_eq key key') then val else GetHeader r key' def) ∧
  GetHeader (DelHeader key r) key' def = (if decide (key_eq key key') then def else GetHeader r key' def).
Proof.
  intros Hm. unfold GetHeader, SetHeader, DelHeader. cbn. split_and!.
  - by apply map_put_ok.
  - by apply map_erase_ok.
  - rewrite map_find_put. case_decide; [|done]. by destruct (map_find (headers_ r) key).
  - rewrite map_find_erase by done. by case_decide.
Qed.

(** ** Examples *)

Definition search : list (bytes * bytes) :=
  [(bs "q", bs "a b&c"); (bs "Page", bs "2"); (bs "Q", bs "second")].

Lemma GetParam_reads_query_witness : let r := mkRequest GET 0x11 false false 0 (bs "/find")
    (query_text amp search) [] [] [] [] [] in
  query_text amp search = bs "q=a+b%26c&Page=2&Q=second" ∧
  ∃ r', GetParam r (bs "Q") [] = Some (bs "a b&c", r') ∧ GetParam r' (bs "Q") [] = Some (bs "a b&c", r').
Proof.
  split; [by vm_compute|].
  apply (GetParam_reads_query _ search (bs "Q") []); [done| |done|done|by vm_compute].
  repeat constructor; apply free_check; by vm_compute.
Defined.

Definition post : HttpRequest := SetHeader (bs "Connection") (bs "upgrade") (SetHeader (bs "Host") (bs "h")
  (mkRequest POST 0x11 false false 0 (bs "/p") (bs "a=1") [] (bs "x=1") [] [] [])).

Lemma ToString_reads_back_witness :
  read_message (ToString post) = Some (bs "POST /p?a=1 HTTP/1.1",
    [(bs "connection", bs "keep-alive"); (bs "Host", bs "h"); (bs "content-length", bs "3")], bs "x=1").
Proof.
  apply (ToString_reads_back post). split_and!; [by apply free_check; vm_compute..|].
  cbn. repeat constructor; by apply free_check; vm_compute.
Defined.

Lemma headers_by_name_witness : map_ok (headers_ post) ∧
  GetHeader (SetHeader (bs "HOST") (bs "i") post) (bs "host") [] = bs "i".
Proof.
  assert (map_ok (headers_ post)) as H by (repeat apply map_put_ok; constructor). split; [done|].
  destruct (headers_by_name post (bs "HOST") (bs "i") (bs "host") [] H) as (_ & _ & Hg & _).
  rewrite Hg. by rewrite decide_True by by vm_compute.
Defined.
