(* ===== verification/HttpMessages.v ===== *)
(** * Headers on the wire

    The characters that may be in a header, and what a sequence of headers says
    about a name, shared by the round trips of requests and responses. *)
From stdpp Require Import list.
From S2P Require Import Prelude Strings CLib HttpTypes Http.
Local Open Scope Z_scope.

Definition among (l : list (Z * Z)) (b : byte) : bool := existsb (λ r, (r.1 <=? uchar b) && (uchar b <=? r.2)) l.

(** The characters of the name of a header. *)
Definition token_char : byte → bool :=
  among [(33, 33); (35, 39); (42, 43); (45, 46); (48, 57); (65, 90); (94, 122); (124, 124); (126, 126)].
(** Those of its value, and of the value's beginning. *)
Definition value_char (b : byte) : bool := negb (among [(0, 0); (10, 10); (13, 13); (127, 127)] b).
Definition value_start (b : byte) : bool := value_char b && negb (among [(9, 9); (32, 32)] b).
(** Those of a path, and of a query or a fragment; [pct_text] adds percent signs. *)
Definition path_char : byte → bool :=
  among [(33, 33); (36, 36); (38, 59); (61, 61); (64, 90); (95, 95); (97, 122); (126, 126); (128, 255)].
Definition query_char (b : byte) : bool := path_char b || among [(63, 63)] b.

Definition good_name (s : bytes) : bool := negb (bool_decide (s = [])) && forallb token_char s.
Definition good_value (s : bytes) : bool :=
  match s with [] => true | c :: _ => value_start c && forallb value_char s end.

(** The last value of a header among those that were set. *)
Definition last_value (hs : list (bytes * bytes)) (key : bytes) (o : option bytes) : option bytes :=
  foldl (λ o p, if decide (key_eq p.1 key) then Some p.2 else o) o hs.

Lemma last_value_map m key o : map_ok m → last_value m key o = match map_find m key with Some v => Some v | None => o end.
Proof.
  unfold map_ok, last_value. intros Hm. revert o. induction Hm as [|[a w] m Hm IH Ha]; intros o; [done|].
  cbn [foldl map_find fst snd]. rewrite IH. rewrite List.Forall_forall in Ha.
  destruct (compareP a key) as [Hlt _ Hne|_ Hlt Hne|_ _ He].
  - by rewrite decide_False.
  - rewrite decide_False by done. rewrite map_find_beyond; [done|]. apply Forall_forall. intros [b x] Hp%list_elem_of_In.
    eapply less_trans; [exact Hlt|]. apply (Ha _ Hp).
  - rewrite decide_True by done. rewrite map_find_beyond; [done|]. apply Forall_forall. intros [b x] Hp%list_elem_of_In.
    rewrite <- He. apply (Ha _ Hp).
Qed.

Lemma last_value_kept m key o : ¬ key_eq key (bs "connection") →
  last_value (kept_headers false m) key o = last_value m key o.
Proof.
  intros Hk. unfold last_value, kept_headers. revert o. induction m as [|p m IH]; intros o; [done|].
  rewrite filter_cons. case_decide as Hc; cbn [foldl]; [apply IH|]. rewrite IH, decide_False; [done|].
  intros He. apply Hk. rewrite <- He. apply is_connection_eq. cbn in Hc. by destruct (is_connection p.1).
Qed.

Lemma last_value_app a b key o : last_value (a ++ b) key o = last_value b key (last_value a key o).
Proof. apply foldl_app. Qed.
