(* ===== verification/UriScanner.v ===== *)
(** * The automaton of [http/uri.rl.cc]

    The labels of the generated part of [Uri::Create], stretch by stretch in the
    order of the file, and the actions at the end of the text. *)
From S2P Require Import Prelude Ragel.
Local Open Scope Z_scope.
Local Open Scope ragel_scope.

(** The actions of the grammar; [mark] stands for [marku] and [markh]. *)
Inductive action :=
  | mark | save_scheme | save_port | save_userinfo | save_host | save_path | save_query | save_fragment.
#[export] Instance action_eq_dec : EqDecision action.
Proof. solve_decision. Defined.

Definition uri_states_1 : part action := mkPart
  [(467, go [mark; save_query] 453); (469, go [save_query] 453); (474, go [mark; save_host] 453);
   (485, go [save_host] 453); (489, go [mark; save_port] 453); (493, go [save_port] 453);
   (548, go [mark; save_host; save_path] 453)]
  [(451, plain [(-128) -- (-1) ~> St 452; 33 ~> St 452; 35 ~> St 453; 36 ~> St 452; 37 ~> St 3; 38 -- 46 ~> St 452;
        47 ~> St 458; 48 -- 57 ~> St 452; 59 ~> St 452; 61 ~> St 452; 63 ~> St 456; 64 ~> St 452;
        65 -- 90 ~> Tr 461; 95 ~> St 452; 97 -- 122 ~> Tr 461; 126 ~> St 452]);
   (452, plain [(-128) -- (-1) ~> St 452; 33 ~> St 452; 35 ~> St 453; 36 ~> St 452; 37 ~> St 3; 38 -- 46 ~> St 452;
        47 ~> St 455; 48 -- 57 ~> St 452; 59 ~> St 452; 61 ~> St 452; 63 ~> St 456; 64 -- 90 ~> St 452;
        95 ~> St 452; 97 -- 122 ~> St 452; 126 ~> St 452])].

Definition uri_states_2 : part action := mkPart
  [(559, go [save_host; mark; save_path] 453); (563, go [save_path] 453);
   (566, go [mark; save_port; save_path] 453); (570, go [save_port; mark; save_path] 453);
   (462, go [mark] 454); (463, go [mark] 1)]
  [(453, plain [(-128) -- (-1) ~> Tr 462; 33 ~> Tr 462; 36 ~> Tr 462; 37 ~> Tr 463; 38 -- 59 ~> Tr 462; 61 ~> Tr 462;
        63 -- 90 ~> Tr 462; 95 ~> Tr 462; 97 -- 122 ~> Tr 462; 126 ~> Tr 462]);
   (454, plain [(-128) -- (-1) ~> St 454; 33 ~> St 454; 36 ~> St 454; 37 ~> St 1; 38 -- 59 ~> St 454; 61 ~> St 454;
        63 -- 90 ~> St 454; 95 ~> St 454; 97 -- 122 ~> St 454; 126 ~> St 454]);
   (1, plain [48 -- 57 ~> St 2; 65 -- 70 ~> St 2; 97 -- 102 ~> St 2]);
   (2, plain [48 -- 57 ~> St 454; 65 -- 70 ~> St 454; 97 -- 102 ~> St 454])].

Definition uri_states_3 : part action := mkPart
  [(476, go [mark; save_host] 455); (486, go [save_host] 455); (490, go [mark; save_port] 455);
   (494, go [save_port] 455); (482, go [mark; save_host] 456); (488, go [save_host] 456)]
  [(3, plain [48 -- 57 ~> St 4; 65 -- 70 ~> St 4; 97 -- 102 ~> St 4]);
   (4, plain [48 -- 57 ~> St 452; 65 -- 70 ~> St 452; 97 -- 102 ~> St 452]);
   (455, plain [(-128) -- (-1) ~> St 455; 33 ~> St 455; 35 ~> St 453; 36 ~> St 455; 37 ~> St 5; 38 -- 59 ~> St 455;
        61 ~> St 455; 63 ~> St 456; 64 -- 90 ~> St 455; 95 ~> St 455; 97 -- 122 ~> St 455; 126 ~> St 455]);
   (5, plain [48 -- 57 ~> St 6; 65 -- 70 ~> St 6; 97 -- 102 ~> St 6]);
   (6, plain [48 -- 57 ~> St 455; 65 -- 70 ~> St 455; 97 -- 102 ~> St 455])].

Definition uri_states_4 : part action := mkPart
  [(492, go [mark; save_port] 456); (496, go [save_port] 456); (556, go [mark; save_host; save_path] 456);
   (562, go [save_host; mark; save_path] 456); (565, go [save_path] 456);
   (569, go [mark; save_port; save_path] 456); (573, go [save_port; mark; save_path] 456);
   (466, go [mark] 457)]
  [(456, plain [(-128) -- (-1) ~> Tr 466; 33 ~> Tr 466; 35 ~> Tr 467; 36 ~> Tr 466; 37 ~> Tr 468; 38 -- 59 ~> Tr 466;
        61 ~> Tr 466; 63 -- 90 ~> Tr 466; 95 ~> Tr 466; 97 -- 122 ~> Tr 466; 126 ~> Tr 466])].

Definition uri_states_5 : part action := mkPart
  [(468, go [mark] 7); (472, go [mark] 9)]
  [(457, plain [(-128) -- (-1) ~> St 457; 33 ~> St 457; 35 ~> Tr 469; 36 ~> St 457; 37 ~> St 7; 38 -- 59 ~> St 457;
        61 ~> St 457; 63 -- 90 ~> St 457; 95 ~> St 457; 97 -- 122 ~> St 457; 126 ~> St 457]);
   (7, plain [48 -- 57 ~> St 8; 65 -- 70 ~> St 8; 97 -- 102 ~> St 8]);
   (8, plain [48 -- 57 ~> St 457; 65 -- 70 ~> St 457; 97 -- 102 ~> St 457]);
   (458, plain [(-128) -- (-1) ~> St 455; 33 ~> St 455; 35 ~> St 453; 36 ~> St 455; 37 ~> St 5; 38 -- 46 ~> St 455;
        47 ~> St 459; 48 -- 59 ~> St 455; 61 ~> St 455; 63 ~> St 456; 64 -- 90 ~> St 455; 95 ~> St 455;
        97 -- 122 ~> St 455; 126 ~> St 455]);
   (459, plain [2 ~> Tr 472; 33 ~> Tr 473; 35 ~> Tr 474; 36 ~> Tr 473; 37 ~> Tr 475; 38 -- 46 ~> Tr 473; 47 ~> Tr 476;
        48 ~> Tr 477; 49 ~> Tr 478; 50 ~> Tr 479; 51 -- 57 ~> Tr 480; 58 ~> Tr 481; 59 ~> Tr 473; 61 ~> Tr 473;
        63 ~> Tr 482; 64 ~> Tr 483; 65 -- 90 ~> Tr 473; 91 ~> Tr 484; 95 ~> Tr 473; 97 -- 122 ~> Tr 473;
        126 ~> Tr 473]);
   (9, plain [48 -- 52 ~> St 10]);
   (10, plain [48 -- 57 ~> St 11]);
   (11, plain [46 ~> St 12])].

Definition uri_states_6 : part action := mkPart
  [(507, go [mark; save_host] 461); (487, go [save_host] 461); (491, go [mark] 462)]
  [(12, plain [2 ~> St 13; 48 ~> St 15; 49 ~> St 27; 50 ~> St 29; 51 -- 57 ~> St 28]);
   (13, plain [48 -- 52 ~> St 14]);
   (14, plain [48 -- 57 ~> St 15]);
   (15, plain [46 ~> St 16]);
   (16, plain [2 ~> St 17; 48 ~> St 19; 49 ~> St 23; 50 ~> St 25; 51 -- 57 ~> St 24]);
   (17, plain [48 -- 52 ~> St 18]);
   (18, plain [48 -- 57 ~> St 19]);
   (19, plain [46 ~> St 20]);
   (20, plain [2 ~> St 21; 48 ~> St 460; 49 ~> St 463; 50 ~> St 465; 51 -- 57 ~> St 464]);
   (21, plain [48 -- 52 ~> St 22]);
   (22, plain [48 -- 57 ~> St 460]);
   (460, plain [35 ~> Tr 485; 47 ~> Tr 486; 58 ~> Tr 487; 63 ~> Tr 488]);
   (461, plain [35 ~> Tr 489; 47 ~> Tr 490; 48 -- 57 ~> Tr 491; 63 ~> Tr 492])].

Definition uri_states_7 : part action := mkPart
  []
  [(462, plain [35 ~> Tr 493; 47 ~> Tr 494; 48 -- 57 ~> St 462; 63 ~> Tr 496]);
   (463, plain [35 ~> Tr 485; 47 ~> Tr 486; 48 -- 57 ~> St 464; 58 ~> Tr 487; 63 ~> Tr 488]);
   (464, plain [35 ~> Tr 485; 47 ~> Tr 486; 48 -- 57 ~> St 460; 58 ~> Tr 487; 63 ~> Tr 488]);
   (465, plain [35 ~> Tr 485; 47 ~> Tr 486; 48 -- 52 ~> St 460; 53 ~> St 466; 54 -- 57 ~> St 460; 58 ~> Tr 487;
        63 ~> Tr 488]);
   (466, plain [35 ~> Tr 485; 47 ~> Tr 486; 48 -- 53 ~> St 460; 58 ~> Tr 487; 63 ~> Tr 488]);
   (23, plain [46 ~> St 20; 48 -- 57 ~> St 24]);
   (24, plain [46 ~> St 20; 48 -- 57 ~> St 19]);
   (25, plain [46 ~> St 20; 48 -- 52 ~> St 19; 53 ~> St 26; 54 -- 57 ~> St 19]);
   (26, plain [46 ~> St 20; 48 -- 53 ~> St 19]);
   (27, plain [46 ~> St 16; 48 -- 57 ~> St 28]);
   (28, plain [46 ~> St 16; 48 -- 57 ~> St 15]);
   (29, plain [46 ~> St 16; 48 -- 52 ~> St 15; 53 ~> St 30; 54 -- 57 ~> St 15]);
   (30, plain [46 ~> St 16; 48 -- 53 ~> St 15])].

Definition uri_states_8 : part action := mkPart
  [(473, go [mark] 467); (475, go [mark] 31); (481, go [mark; save_host] 468); (499, go [save_host] 468)]
  [(467, plain [33 ~> St 467; 35 ~> Tr 485; 36 ~> St 467; 37 ~> St 31; 38 -- 46 ~> St 467; 47 ~> Tr 486;
        48 -- 57 ~> St 467; 58 ~> Tr 499; 59 ~> St 467; 61 ~> St 467; 63 ~> Tr 488; 64 ~> Tr 38;
        65 -- 90 ~> St 467; 95 ~> St 467; 97 -- 122 ~> St 467; 126 ~> St 467]);
   (31, plain [48 -- 57 ~> St 32; 65 -- 70 ~> St 32; 97 -- 102 ~> St 32]);
   (32, plain [48 -- 57 ~> St 467; 65 -- 70 ~> St 467; 97 -- 102 ~> St 467]);
   (468, plain [33 ~> St 33; 35 ~> Tr 489; 36 ~> St 33; 37 ~> St 34; 38 -- 46 ~> St 33; 47 ~> Tr 490;
        48 -- 57 ~> Tr 500; 58 -- 59 ~> St 33; 61 ~> St 33; 63 ~> Tr 492; 64 ~> Tr 38; 65 -- 90 ~> St 33;
        95 ~> St 33; 97 -- 122 ~> St 33; 126 ~> St 33]);
   (33, plain [33 ~> St 33; 36 ~> St 33; 37 ~> St 34; 38 -- 46 ~> St 33; 48 -- 59 ~> St 33; 61 ~> St 33; 64 ~> Tr 38;
        65 -- 90 ~> St 33; 95 ~> St 33; 97 -- 122 ~> St 33; 126 ~> St 33])].

Definition uri_states_9 : part action := mkPart
  [(38, go [save_userinfo] 469); (483, go [mark; save_userinfo] 469); (501, go [mark] 470);
   (502, go [mark] 36)]
  [(34, plain [48 -- 57 ~> St 35; 65 -- 70 ~> St 35; 97 -- 102 ~> St 35]);
   (35, plain [48 -- 57 ~> St 33; 65 -- 70 ~> St 33; 97 -- 102 ~> St 33]);
   (469, plain [2 ~> Tr 472; 33 ~> Tr 501; 35 ~> Tr 474; 36 ~> Tr 501; 37 ~> Tr 502; 38 -- 46 ~> Tr 501; 47 ~> Tr 476;
        48 ~> Tr 503; 49 ~> Tr 504; 50 ~> Tr 505; 51 -- 57 ~> Tr 506; 58 ~> Tr 507; 59 ~> Tr 501; 61 ~> Tr 501;
        63 ~> Tr 482; 65 -- 90 ~> Tr 501; 91 ~> Tr 484; 95 ~> Tr 501; 97 -- 122 ~> Tr 501; 126 ~> Tr 501]);
   (470, plain [33 ~> St 470; 35 ~> Tr 485; 36 ~> St 470; 37 ~> St 36; 38 -- 46 ~> St 470; 47 ~> Tr 486;
        48 -- 57 ~> St 470; 58 ~> Tr 487; 59 ~> St 470; 61 ~> St 470; 63 ~> Tr 488; 65 -- 90 ~> St 470;
        95 ~> St 470; 97 -- 122 ~> St 470; 126 ~> St 470]);
   (36, plain [48 -- 57 ~> St 37; 65 -- 70 ~> St 37; 97 -- 102 ~> St 37]);
   (37, plain [48 -- 57 ~> St 470; 65 -- 70 ~> St 470; 97 -- 102 ~> St 470])].

Definition uri_states_10 : part action := mkPart
  [(503, go [mark] 471)]
  [(471, plain [33 ~> St 470; 35 ~> Tr 485; 36 ~> St 470; 37 ~> St 36; 38 -- 45 ~> St 470; 46 ~> St 472; 47 ~> Tr 486;
        48 -- 57 ~> St 470; 58 ~> Tr 487; 59 ~> St 470; 61 ~> St 470; 63 ~> Tr 488; 65 -- 90 ~> St 470;
        95 ~> St 470; 97 -- 122 ~> St 470; 126 ~> St 470]);
   (472, plain [2 ~> St 13; 33 ~> St 470; 35 ~> Tr 485; 36 ~> St 470; 37 ~> St 36; 38 -- 46 ~> St 470; 47 ~> Tr 486;
        48 ~> St 473; 49 ~> St 481; 50 ~> St 483; 51 -- 57 ~> St 482; 58 ~> Tr 487; 59 ~> St 470; 61 ~> St 470;
        63 ~> Tr 488; 65 -- 90 ~> St 470; 95 ~> St 470; 97 -- 122 ~> St 470; 126 ~> St 470]);
   (473, plain [33 ~> St 470; 35 ~> Tr 485; 36 ~> St 470; 37 ~> St 36; 38 -- 45 ~> St 470; 46 ~> St 474; 47 ~> Tr 486;
        48 -- 57 ~> St 470; 58 ~> Tr 487; 59 ~> St 470; 61 ~> St 470; 63 ~> Tr 488; 65 -- 90 ~> St 470;
        95 ~> St 470; 97 -- 122 ~> St 470; 126 ~> St 470]);
   (474, plain [2 ~> St 17; 33 ~> St 470; 35 ~> Tr 485; 36 ~> St 470; 37 ~> St 36; 38 -- 46 ~> St 470; 47 ~> Tr 486;
        48 ~> St 475; 49 ~> St 477; 50 ~> St 479; 51 -- 57 ~> St 478; 58 ~> Tr 487; 59 ~> St 470; 61 ~> St 470;
        63 ~> Tr 488; 65 -- 90 ~> St 470; 95 ~> St 470; 97 -- 122 ~> St 470; 126 ~> St 470]);
   (475, plain [33 ~> St 470; 35 ~> Tr 485; 36 ~> St 470; 37 ~> St 36; 38 -- 45 ~> St 470; 46 ~> St 476; 47 ~> Tr 486;
        48 -- 57 ~> St 470; 58 ~> Tr 487; 59 ~> St 470; 61 ~> St 470; 63 ~> Tr 488; 65 -- 90 ~> St 470;
        95 ~> St 470; 97 -- 122 ~> St 470; 126 ~> St 470])].

Definition uri_states_11 : part action := mkPart
  []
  [(476, plain [2 ~> St 21; 33 ~> St 470; 35 ~> Tr 485; 36 ~> St 470; 37 ~> St 36; 38 -- 46 ~> St 470; 47 ~> Tr 486;
        48 -- 57 ~> St 470; 58 ~> Tr 487; 59 ~> St 470; 61 ~> St 470; 63 ~> Tr 488; 65 -- 90 ~> St 470;
        95 ~> St 470; 97 -- 122 ~> St 470; 126 ~> St 470]);
   (477, plain [33 ~> St 470; 35 ~> Tr 485; 36 ~> St 470; 37 ~> St 36; 38 -- 45 ~> St 470; 46 ~> St 476; 47 ~> Tr 486;
        48 -- 57 ~> St 478; 58 ~> Tr 487; 59 ~> St 470; 61 ~> St 470; 63 ~> Tr 488; 65 -- 90 ~> St 470;
        95 ~> St 470; 97 -- 122 ~> St 470; 126 ~> St 470]);
   (478, plain [33 ~> St 470; 35 ~> Tr 485; 36 ~> St 470; 37 ~> St 36; 38 -- 45 ~> St 470; 46 ~> St 476; 47 ~> Tr 486;
        48 -- 57 ~> St 475; 58 ~> Tr 487; 59 ~> St 470; 61 ~> St 470; 63 ~> Tr 488; 65 -- 90 ~> St 470;
        95 ~> St 470; 97 -- 122 ~> St 470; 126 ~> St 470]);
   (479, plain [33 ~> St 470; 35 ~> Tr 485; 36 ~> St 470; 37 ~> St 36; 38 -- 45 ~> St 470; 46 ~> St 476; 47 ~> Tr 486;
        48 -- 52 ~> St 475; 53 ~> St 480; 54 -- 57 ~> St 475; 58 ~> Tr 487; 59 ~> St 470; 61 ~> St 470;
        63 ~> Tr 488; 65 -- 90 ~> St 470; 95 ~> St 470; 97 -- 122 ~> St 470; 126 ~> St 470]);
   (480, plain [33 ~> St 470; 35 ~> Tr 485; 36 ~> St 470; 37 ~> St 36; 38 -- 45 ~> St 470; 46 ~> St 476; 47 ~> Tr 486;
        48 -- 53 ~> St 475; 54 -- 57 ~> St 470; 58 ~> Tr 487; 59 ~> St 470; 61 ~> St 470; 63 ~> Tr 488;
        65 -- 90 ~> St 470; 95 ~> St 470; 97 -- 122 ~> St 470; 126 ~> St 470])].

Definition uri_states_12 : part action := mkPart
  [(504, go [mark] 485)]
  [(481, plain [33 ~> St 470; 35 ~> Tr 485; 36 ~> St 470; 37 ~> St 36; 38 -- 45 ~> St 470; 46 ~> St 474; 47 ~> Tr 486;
        48 -- 57 ~> St 482; 58 ~> Tr 487; 59 ~> St 470; 61 ~> St 470; 63 ~> Tr 488; 65 -- 90 ~> St 470;
        95 ~> St 470; 97 -- 122 ~> St 470; 126 ~> St 470]);
   (482, plain [33 ~> St 470; 35 ~> Tr 485; 36 ~> St 470; 37 ~> St 36; 38 -- 45 ~> St 470; 46 ~> St 474; 47 ~> Tr 486;
        48 -- 57 ~> St 473; 58 ~> Tr 487; 59 ~> St 470; 61 ~> St 470; 63 ~> Tr 488; 65 -- 90 ~> St 470;
        95 ~> St 470; 97 -- 122 ~> St 470; 126 ~> St 470]);
   (483, plain [33 ~> St 470; 35 ~> Tr 485; 36 ~> St 470; 37 ~> St 36; 38 -- 45 ~> St 470; 46 ~> St 474; 47 ~> Tr 486;
        48 -- 52 ~> St 473; 53 ~> St 484; 54 -- 57 ~> St 473; 58 ~> Tr 487; 59 ~> St 470; 61 ~> St 470;
        63 ~> Tr 488; 65 -- 90 ~> St 470; 95 ~> St 470; 97 -- 122 ~> St 470; 126 ~> St 470]);
   (484, plain [33 ~> St 470; 35 ~> Tr 485; 36 ~> St 470; 37 ~> St 36; 38 -- 45 ~> St 470; 46 ~> St 474; 47 ~> Tr 486;
        48 -- 53 ~> St 473; 54 -- 57 ~> St 470; 58 ~> Tr 487; 59 ~> St 470; 61 ~> St 470; 63 ~> Tr 488;
        65 -- 90 ~> St 470; 95 ~> St 470; 97 -- 122 ~> St 470; 126 ~> St 470])].

Definition uri_states_13 : part action := mkPart
  [(506, go [mark] 486); (505, go [mark] 487); (484, go [mark] 38)]
  [(485, plain [33 ~> St 470; 35 ~> Tr 485; 36 ~> St 470; 37 ~> St 36; 38 -- 45 ~> St 470; 46 ~> St 472; 47 ~> Tr 486;
        48 -- 57 ~> St 486; 58 ~> Tr 487; 59 ~> St 470; 61 ~> St 470; 63 ~> Tr 488; 65 -- 90 ~> St 470;
        95 ~> St 470; 97 -- 122 ~> St 470; 126 ~> St 470]);
   (486, plain [33 ~> St 470; 35 ~> Tr 485; 36 ~> St 470; 37 ~> St 36; 38 -- 45 ~> St 470; 46 ~> St 472; 47 ~> Tr 486;
        48 -- 57 ~> St 471; 58 ~> Tr 487; 59 ~> St 470; 61 ~> St 470; 63 ~> Tr 488; 65 -- 90 ~> St 470;
        95 ~> St 470; 97 -- 122 ~> St 470; 126 ~> St 470]);
   (487, plain [33 ~> St 470; 35 ~> Tr 485; 36 ~> St 470; 37 ~> St 36; 38 -- 45 ~> St 470; 46 ~> St 472; 47 ~> Tr 486;
        48 -- 52 ~> St 471; 53 ~> St 488; 54 -- 57 ~> St 471; 58 ~> Tr 487; 59 ~> St 470; 61 ~> St 470;
        63 ~> Tr 488; 65 -- 90 ~> St 470; 95 ~> St 470; 97 -- 122 ~> St 470; 126 ~> St 470]);
   (488, plain [33 ~> St 470; 35 ~> Tr 485; 36 ~> St 470; 37 ~> St 36; 38 -- 45 ~> St 470; 46 ~> St 472; 47 ~> Tr 486;
        48 -- 53 ~> St 471; 54 -- 57 ~> St 470; 58 ~> Tr 487; 59 ~> St 470; 61 ~> St 470; 63 ~> Tr 488;
        65 -- 90 ~> St 470; 95 ~> St 470; 97 -- 122 ~> St 470; 126 ~> St 470])].

Definition uri_states_14 : part action := mkPart
  []
  [(38, plain [48 -- 57 ~> St 39; 58 ~> St 146; 65 -- 70 ~> St 39; 97 -- 102 ~> St 39; 118 ~> St 225]);
   (39, plain [48 -- 57 ~> St 40; 58 ~> St 43; 65 -- 70 ~> St 40; 97 -- 102 ~> St 40]);
   (40, plain [48 -- 57 ~> St 41; 58 ~> St 43; 65 -- 70 ~> St 41; 97 -- 102 ~> St 41]);
   (41, plain [48 -- 57 ~> St 42; 58 ~> St 43; 65 -- 70 ~> St 42; 97 -- 102 ~> St 42]);
   (42, plain [58 ~> St 43]);
   (43, plain [48 -- 57 ~> St 44; 58 ~> St 141; 65 -- 70 ~> St 44; 97 -- 102 ~> St 44]);
   (44, plain [48 -- 57 ~> St 45; 58 ~> St 48; 65 -- 70 ~> St 45; 97 -- 102 ~> St 45]);
   (45, plain [48 -- 57 ~> St 46; 58 ~> St 48; 65 -- 70 ~> St 46; 97 -- 102 ~> St 46]);
   (46, plain [48 -- 57 ~> St 47; 58 ~> St 48; 65 -- 70 ~> St 47; 97 -- 102 ~> St 47]);
   (47, plain [58 ~> St 48])].

Definition uri_states_15 : part action := mkPart
  []
  [(48, plain [48 -- 57 ~> St 49; 58 ~> St 136; 65 -- 70 ~> St 49; 97 -- 102 ~> St 49]);
   (49, plain [48 -- 57 ~> St 50; 58 ~> St 53; 65 -- 70 ~> St 50; 97 -- 102 ~> St 50]);
   (50, plain [48 -- 57 ~> St 51; 58 ~> St 53; 65 -- 70 ~> St 51; 97 -- 102 ~> St 51]);
   (51, plain [48 -- 57 ~> St 52; 58 ~> St 53; 65 -- 70 ~> St 52; 97 -- 102 ~> St 52]);
   (52, plain [58 ~> St 53]);
   (53, plain [48 -- 57 ~> St 54; 58 ~> St 131; 65 -- 70 ~> St 54; 97 -- 102 ~> St 54]);
   (54, plain [48 -- 57 ~> St 55; 58 ~> St 58; 65 -- 70 ~> St 55; 97 -- 102 ~> St 55]);
   (55, plain [48 -- 57 ~> St 56; 58 ~> St 58; 65 -- 70 ~> St 56; 97 -- 102 ~> St 56]);
   (56, plain [48 -- 57 ~> St 57; 58 ~> St 58; 65 -- 70 ~> St 57; 97 -- 102 ~> St 57]);
   (57, plain [58 ~> St 58])].

Definition uri_states_16 : part action := mkPart
  []
  [(58, plain [48 -- 57 ~> St 59; 58 ~> St 126; 65 -- 70 ~> St 59; 97 -- 102 ~> St 59]);
   (59, plain [48 -- 57 ~> St 60; 58 ~> St 63; 65 -- 70 ~> St 60; 97 -- 102 ~> St 60]);
   (60, plain [48 -- 57 ~> St 61; 58 ~> St 63; 65 -- 70 ~> St 61; 97 -- 102 ~> St 61]);
   (61, plain [48 -- 57 ~> St 62; 58 ~> St 63; 65 -- 70 ~> St 62; 97 -- 102 ~> St 62]);
   (62, plain [58 ~> St 63]);
   (63, plain [48 -- 57 ~> St 64; 58 ~> St 113; 65 -- 70 ~> St 64; 97 -- 102 ~> St 64]);
   (64, plain [48 -- 57 ~> St 65; 58 ~> St 68; 65 -- 70 ~> St 65; 97 -- 102 ~> St 65]);
   (65, plain [48 -- 57 ~> St 66; 58 ~> St 68; 65 -- 70 ~> St 66; 97 -- 102 ~> St 66]);
   (66, plain [48 -- 57 ~> St 67; 58 ~> St 68; 65 -- 70 ~> St 67; 97 -- 102 ~> St 67]);
   (67, plain [58 ~> St 68])].

Definition uri_states_17 : part action := mkPart
  []
  [(68, plain [2 ~> St 69; 48 ~> St 96; 49 ~> St 104; 50 ~> St 107; 51 -- 57 ~> St 110; 58 ~> St 111;
        65 -- 70 ~> St 112; 97 -- 102 ~> St 112]);
   (69, plain [48 -- 52 ~> St 70]);
   (70, plain [48 -- 57 ~> St 71]);
   (71, plain [46 ~> St 72]);
   (72, plain [2 ~> St 73; 48 ~> St 75; 49 ~> St 92; 50 ~> St 94; 51 -- 57 ~> St 93]);
   (73, plain [48 -- 52 ~> St 74]);
   (74, plain [48 -- 57 ~> St 75]);
   (75, plain [46 ~> St 76]);
   (76, plain [2 ~> St 77; 48 ~> St 79; 49 ~> St 88; 50 ~> St 90; 51 -- 57 ~> St 89]);
   (77, plain [48 -- 52 ~> St 78]);
   (78, plain [48 -- 57 ~> St 79]);
   (79, plain [46 ~> St 80]);
   (80, plain [2 ~> St 81; 48 ~> St 83; 49 ~> St 84; 50 ~> St 86; 51 -- 57 ~> St 85]);
   (81, plain [48 -- 52 ~> St 82]);
   (82, plain [48 -- 57 ~> St 83]);
   (83, plain [93 ~> St 460])].

Definition uri_states_18 : part action := mkPart
  []
  [(84, plain [48 -- 57 ~> St 85; 93 ~> St 460]);
   (85, plain [48 -- 57 ~> St 83; 93 ~> St 460]);
   (86, plain [48 -- 52 ~> St 83; 53 ~> St 87; 54 -- 57 ~> St 83; 93 ~> St 460]);
   (87, plain [48 -- 53 ~> St 83; 93 ~> St 460]);
   (88, plain [46 ~> St 80; 48 -- 57 ~> St 89]);
   (89, plain [46 ~> St 80; 48 -- 57 ~> St 79]);
   (90, plain [46 ~> St 80; 48 -- 52 ~> St 79; 53 ~> St 91; 54 -- 57 ~> St 79]);
   (91, plain [46 ~> St 80; 48 -- 53 ~> St 79]);
   (92, plain [46 ~> St 76; 48 -- 57 ~> St 93]);
   (93, plain [46 ~> St 76; 48 -- 57 ~> St 75]);
   (94, plain [46 ~> St 76; 48 -- 52 ~> St 75; 53 ~> St 95; 54 -- 57 ~> St 75]);
   (95, plain [46 ~> St 76; 48 -- 53 ~> St 75]);
   (96, plain [46 ~> St 72; 48 -- 57 ~> St 97; 58 ~> St 100; 65 -- 70 ~> St 97; 97 -- 102 ~> St 97])].

Definition uri_states_19 : part action := mkPart
  []
  [(97, plain [48 -- 57 ~> St 98; 58 ~> St 100; 65 -- 70 ~> St 98; 97 -- 102 ~> St 98]);
   (98, plain [48 -- 57 ~> St 99; 58 ~> St 100; 65 -- 70 ~> St 99; 97 -- 102 ~> St 99]);
   (99, plain [58 ~> St 100]);
   (100, plain [48 -- 57 ~> St 101; 58 ~> St 83; 65 -- 70 ~> St 101; 97 -- 102 ~> St 101]);
   (101, plain [48 -- 57 ~> St 102; 65 -- 70 ~> St 102; 93 ~> St 460; 97 -- 102 ~> St 102]);
   (102, plain [48 -- 57 ~> St 103; 65 -- 70 ~> St 103; 93 ~> St 460; 97 -- 102 ~> St 103]);
   (103, plain [48 -- 57 ~> St 83; 65 -- 70 ~> St 83; 93 ~> St 460; 97 -- 102 ~> St 83]);
   (104, plain [46 ~> St 72; 48 -- 57 ~> St 105; 58 ~> St 100; 65 -- 70 ~> St 97; 97 -- 102 ~> St 97]);
   (105, plain [46 ~> St 72; 48 -- 57 ~> St 106; 58 ~> St 100; 65 -- 70 ~> St 98; 97 -- 102 ~> St 98])].

Definition uri_states_20 : part action := mkPart
  []
  [(106, plain [46 ~> St 72; 48 -- 57 ~> St 99; 58 ~> St 100; 65 -- 70 ~> St 99; 97 -- 102 ~> St 99]);
   (107, plain [46 ~> St 72; 48 -- 52 ~> St 108; 53 ~> St 109; 54 -- 57 ~> St 108; 58 ~> St 100; 65 -- 70 ~> St 97;
        97 -- 102 ~> St 97]);
   (108, plain [46 ~> St 72; 48 -- 57 ~> St 98; 58 ~> St 100; 65 -- 70 ~> St 98; 97 -- 102 ~> St 98]);
   (109, plain [46 ~> St 72; 48 -- 53 ~> St 106; 54 -- 57 ~> St 98; 58 ~> St 100; 65 -- 70 ~> St 98; 97 -- 102 ~> St 98]);
   (110, plain [46 ~> St 72; 48 -- 57 ~> St 108; 58 ~> St 100; 65 -- 70 ~> St 97; 97 -- 102 ~> St 97]);
   (111, plain [48 -- 57 ~> St 101; 65 -- 70 ~> St 101; 97 -- 102 ~> St 101]);
   (112, plain [48 -- 57 ~> St 97; 58 ~> St 100; 65 -- 70 ~> St 97; 97 -- 102 ~> St 97]);
   (113, plain [2 ~> St 69; 48 ~> St 114; 49 ~> St 118; 50 ~> St 121; 51 -- 57 ~> St 124; 65 -- 70 ~> St 125;
        97 -- 102 ~> St 125])].

Definition uri_states_21 : part action := mkPart
  []
  [(114, plain [46 ~> St 72; 48 -- 57 ~> St 115; 58 ~> St 111; 65 -- 70 ~> St 115; 97 -- 102 ~> St 115]);
   (115, plain [48 -- 57 ~> St 116; 58 ~> St 111; 65 -- 70 ~> St 116; 97 -- 102 ~> St 116]);
   (116, plain [48 -- 57 ~> St 117; 58 ~> St 111; 65 -- 70 ~> St 117; 97 -- 102 ~> St 117]);
   (117, plain [58 ~> St 111]);
   (118, plain [46 ~> St 72; 48 -- 57 ~> St 119; 58 ~> St 111; 65 -- 70 ~> St 115; 97 -- 102 ~> St 115]);
   (119, plain [46 ~> St 72; 48 -- 57 ~> St 120; 58 ~> St 111; 65 -- 70 ~> St 116; 97 -- 102 ~> St 116]);
   (120, plain [46 ~> St 72; 48 -- 57 ~> St 117; 58 ~> St 111; 65 -- 70 ~> St 117; 97 -- 102 ~> St 117]);
   (121, plain [46 ~> St 72; 48 -- 52 ~> St 122; 53 ~> St 123; 54 -- 57 ~> St 122; 58 ~> St 111; 65 -- 70 ~> St 115;
        97 -- 102 ~> St 115]);
   (122, plain [46 ~> St 72; 48 -- 57 ~> St 116; 58 ~> St 111; 65 -- 70 ~> St 116; 97 -- 102 ~> St 116])].

Definition uri_states_22 : part action := mkPart
  []
  [(123, plain [46 ~> St 72; 48 -- 53 ~> St 120; 54 -- 57 ~> St 116; 58 ~> St 111; 65 -- 70 ~> St 116;
        97 -- 102 ~> St 116]);
   (124, plain [46 ~> St 72; 48 -- 57 ~> St 122; 58 ~> St 111; 65 -- 70 ~> St 115; 97 -- 102 ~> St 115]);
   (125, plain [48 -- 57 ~> St 115; 58 ~> St 111; 65 -- 70 ~> St 115; 97 -- 102 ~> St 115]);
   (126, plain [48 -- 57 ~> St 127; 65 -- 70 ~> St 127; 97 -- 102 ~> St 127]);
   (127, plain [48 -- 57 ~> St 128; 58 ~> St 113; 65 -- 70 ~> St 128; 97 -- 102 ~> St 128]);
   (128, plain [48 -- 57 ~> St 129; 58 ~> St 113; 65 -- 70 ~> St 129; 97 -- 102 ~> St 129]);
   (129, plain [48 -- 57 ~> St 130; 58 ~> St 113; 65 -- 70 ~> St 130; 97 -- 102 ~> St 130]);
   (130, plain [58 ~> St 113]);
   (131, plain [48 -- 57 ~> St 132; 65 -- 70 ~> St 132; 97 -- 102 ~> St 132]);
   (132, plain [48 -- 57 ~> St 133; 58 ~> St 126; 65 -- 70 ~> St 133; 97 -- 102 ~> St 133])].

Definition uri_states_23 : part action := mkPart
  []
  [(133, plain [48 -- 57 ~> St 134; 58 ~> St 126; 65 -- 70 ~> St 134; 97 -- 102 ~> St 134]);
   (134, plain [48 -- 57 ~> St 135; 58 ~> St 126; 65 -- 70 ~> St 135; 97 -- 102 ~> St 135]);
   (135, plain [58 ~> St 126]);
   (136, plain [48 -- 57 ~> St 137; 65 -- 70 ~> St 137; 97 -- 102 ~> St 137]);
   (137, plain [48 -- 57 ~> St 138; 58 ~> St 131; 65 -- 70 ~> St 138; 97 -- 102 ~> St 138]);
   (138, plain [48 -- 57 ~> St 139; 58 ~> St 131; 65 -- 70 ~> St 139; 97 -- 102 ~> St 139]);
   (139, plain [48 -- 57 ~> St 140; 58 ~> St 131; 65 -- 70 ~> St 140; 97 -- 102 ~> St 140]);
   (140, plain [58 ~> St 131]);
   (141, plain [48 -- 57 ~> St 142; 65 -- 70 ~> St 142; 97 -- 102 ~> St 142]);
   (142, plain [48 -- 57 ~> St 143; 58 ~> St 136; 65 -- 70 ~> St 143; 97 -- 102 ~> St 143]);
   (143, plain [48 -- 57 ~> St 144; 58 ~> St 136; 65 -- 70 ~> St 144; 97 -- 102 ~> St 144])].

Definition uri_states_24 : part action := mkPart
  []
  [(144, plain [48 -- 57 ~> St 145; 58 ~> St 136; 65 -- 70 ~> St 145; 97 -- 102 ~> St 145]);
   (145, plain [58 ~> St 136]);
   (146, plain [58 ~> St 147]);
   (147, plain [2 ~> St 69; 48 ~> St 148; 49 ~> St 217; 50 ~> St 220; 51 -- 57 ~> St 223; 65 -- 70 ~> St 224;
        93 ~> St 460; 97 -- 102 ~> St 224]);
   (148, plain [46 ~> St 72; 48 -- 57 ~> St 149; 58 ~> St 152; 65 -- 70 ~> St 149; 93 ~> St 460; 97 -- 102 ~> St 149]);
   (149, plain [48 -- 57 ~> St 150; 58 ~> St 152; 65 -- 70 ~> St 150; 93 ~> St 460; 97 -- 102 ~> St 150]);
   (150, plain [48 -- 57 ~> St 151; 58 ~> St 152; 65 -- 70 ~> St 151; 93 ~> St 460; 97 -- 102 ~> St 151]);
   (151, plain [58 ~> St 152; 93 ~> St 460]);
   (152, plain [2 ~> St 69; 48 ~> St 153; 49 ~> St 209; 50 ~> St 212; 51 -- 57 ~> St 215; 65 -- 70 ~> St 216;
        97 -- 102 ~> St 216])].

Definition uri_states_25 : part action := mkPart
  []
  [(153, plain [46 ~> St 72; 48 -- 57 ~> St 154; 58 ~> St 157; 65 -- 70 ~> St 154; 93 ~> St 460; 97 -- 102 ~> St 154]);
   (154, plain [48 -- 57 ~> St 155; 58 ~> St 157; 65 -- 70 ~> St 155; 93 ~> St 460; 97 -- 102 ~> St 155]);
   (155, plain [48 -- 57 ~> St 156; 58 ~> St 157; 65 -- 70 ~> St 156; 93 ~> St 460; 97 -- 102 ~> St 156]);
   (156, plain [58 ~> St 157; 93 ~> St 460]);
   (157, plain [2 ~> St 69; 48 ~> St 158; 49 ~> St 201; 50 ~> St 204; 51 -- 57 ~> St 207; 65 -- 70 ~> St 208;
        97 -- 102 ~> St 208]);
   (158, plain [46 ~> St 72; 48 -- 57 ~> St 159; 58 ~> St 162; 65 -- 70 ~> St 159; 93 ~> St 460; 97 -- 102 ~> St 159]);
   (159, plain [48 -- 57 ~> St 160; 58 ~> St 162; 65 -- 70 ~> St 160; 93 ~> St 460; 97 -- 102 ~> St 160]);
   (160, plain [48 -- 57 ~> St 161; 58 ~> St 162; 65 -- 70 ~> St 161; 93 ~> St 460; 97 -- 102 ~> St 161]);
   (161, plain [58 ~> St 162; 93 ~> St 460])].

Definition uri_states_26 : part action := mkPart
  []
  [(162, plain [2 ~> St 69; 48 ~> St 163; 49 ~> St 193; 50 ~> St 196; 51 -- 57 ~> St 199; 65 -- 70 ~> St 200;
        97 -- 102 ~> St 200]);
   (163, plain [46 ~> St 72; 48 -- 57 ~> St 164; 58 ~> St 167; 65 -- 70 ~> St 164; 93 ~> St 460; 97 -- 102 ~> St 164]);
   (164, plain [48 -- 57 ~> St 165; 58 ~> St 167; 65 -- 70 ~> St 165; 93 ~> St 460; 97 -- 102 ~> St 165]);
   (165, plain [48 -- 57 ~> St 166; 58 ~> St 167; 65 -- 70 ~> St 166; 93 ~> St 460; 97 -- 102 ~> St 166]);
   (166, plain [58 ~> St 167; 93 ~> St 460]);
   (167, plain [2 ~> St 69; 48 ~> St 168; 49 ~> St 185; 50 ~> St 188; 51 -- 57 ~> St 191; 65 -- 70 ~> St 192;
        97 -- 102 ~> St 192]);
   (168, plain [46 ~> St 72; 48 -- 57 ~> St 169; 58 ~> St 172; 65 -- 70 ~> St 169; 93 ~> St 460; 97 -- 102 ~> St 169]);
   (169, plain [48 -- 57 ~> St 170; 58 ~> St 172; 65 -- 70 ~> St 170; 93 ~> St 460; 97 -- 102 ~> St 170])].

Definition uri_states_27 : part action := mkPart
  []
  [(170, plain [48 -- 57 ~> St 171; 58 ~> St 172; 65 -- 70 ~> St 171; 93 ~> St 460; 97 -- 102 ~> St 171]);
   (171, plain [58 ~> St 172; 93 ~> St 460]);
   (172, plain [2 ~> St 69; 48 ~> St 173; 49 ~> St 177; 50 ~> St 180; 51 -- 57 ~> St 183; 65 -- 70 ~> St 184;
        97 -- 102 ~> St 184]);
   (173, plain [46 ~> St 72; 48 -- 57 ~> St 174; 58 ~> St 111; 65 -- 70 ~> St 174; 93 ~> St 460; 97 -- 102 ~> St 174]);
   (174, plain [48 -- 57 ~> St 175; 58 ~> St 111; 65 -- 70 ~> St 175; 93 ~> St 460; 97 -- 102 ~> St 175]);
   (175, plain [48 -- 57 ~> St 176; 58 ~> St 111; 65 -- 70 ~> St 176; 93 ~> St 460; 97 -- 102 ~> St 176]);
   (176, plain [58 ~> St 111; 93 ~> St 460]);
   (177, plain [46 ~> St 72; 48 -- 57 ~> St 178; 58 ~> St 111; 65 -- 70 ~> St 174; 93 ~> St 460; 97 -- 102 ~> St 174]);
   (178, plain [46 ~> St 72; 48 -- 57 ~> St 179; 58 ~> St 111; 65 -- 70 ~> St 175; 93 ~> St 460; 97 -- 102 ~> St 175])].

Definition uri_states_28 : part action := mkPart
  []
  [(179, plain [46 ~> St 72; 48 -- 57 ~> St 176; 58 ~> St 111; 65 -- 70 ~> St 176; 93 ~> St 460; 97 -- 102 ~> St 176]);
   (180, plain [46 ~> St 72; 48 -- 52 ~> St 181; 53 ~> St 182; 54 -- 57 ~> St 181; 58 ~> St 111; 65 -- 70 ~> St 174;
        93 ~> St 460; 97 -- 102 ~> St 174]);
   (181, plain [46 ~> St 72; 48 -- 57 ~> St 175; 58 ~> St 111; 65 -- 70 ~> St 175; 93 ~> St 460; 97 -- 102 ~> St 175]);
   (182, plain [46 ~> St 72; 48 -- 53 ~> St 179; 54 -- 57 ~> St 175; 58 ~> St 111; 65 -- 70 ~> St 175; 93 ~> St 460;
        97 -- 102 ~> St 175]);
   (183, plain [46 ~> St 72; 48 -- 57 ~> St 181; 58 ~> St 111; 65 -- 70 ~> St 174; 93 ~> St 460; 97 -- 102 ~> St 174]);
   (184, plain [48 -- 57 ~> St 174; 58 ~> St 111; 65 -- 70 ~> St 174; 93 ~> St 460; 97 -- 102 ~> St 174]);
   (185, plain [46 ~> St 72; 48 -- 57 ~> St 186; 58 ~> St 172; 65 -- 70 ~> St 169; 93 ~> St 460; 97 -- 102 ~> St 169])].

Definition uri_states_29 : part action := mkPart
  []
  [(186, plain [46 ~> St 72; 48 -- 57 ~> St 187; 58 ~> St 172; 65 -- 70 ~> St 170; 93 ~> St 460; 97 -- 102 ~> St 170]);
   (187, plain [46 ~> St 72; 48 -- 57 ~> St 171; 58 ~> St 172; 65 -- 70 ~> St 171; 93 ~> St 460; 97 -- 102 ~> St 171]);
   (188, plain [46 ~> St 72; 48 -- 52 ~> St 189; 53 ~> St 190; 54 -- 57 ~> St 189; 58 ~> St 172; 65 -- 70 ~> St 169;
        93 ~> St 460; 97 -- 102 ~> St 169]);
   (189, plain [46 ~> St 72; 48 -- 57 ~> St 170; 58 ~> St 172; 65 -- 70 ~> St 170; 93 ~> St 460; 97 -- 102 ~> St 170]);
   (190, plain [46 ~> St 72; 48 -- 53 ~> St 187; 54 -- 57 ~> St 170; 58 ~> St 172; 65 -- 70 ~> St 170; 93 ~> St 460;
        97 -- 102 ~> St 170]);
   (191, plain [46 ~> St 72; 48 -- 57 ~> St 189; 58 ~> St 172; 65 -- 70 ~> St 169; 93 ~> St 460; 97 -- 102 ~> St 169]);
   (192, plain [48 -- 57 ~> St 169; 58 ~> St 172; 65 -- 70 ~> St 169; 93 ~> St 460; 97 -- 102 ~> St 169])].

Definition uri_states_30 : part action := mkPart
  []
  [(193, plain [46 ~> St 72; 48 -- 57 ~> St 194; 58 ~> St 167; 65 -- 70 ~> St 164; 93 ~> St 460; 97 -- 102 ~> St 164]);
   (194, plain [46 ~> St 72; 48 -- 57 ~> St 195; 58 ~> St 167; 65 -- 70 ~> St 165; 93 ~> St 460; 97 -- 102 ~> St 165]);
   (195, plain [46 ~> St 72; 48 -- 57 ~> St 166; 58 ~> St 167; 65 -- 70 ~> St 166; 93 ~> St 460; 97 -- 102 ~> St 166]);
   (196, plain [46 ~> St 72; 48 -- 52 ~> St 197; 53 ~> St 198; 54 -- 57 ~> St 197; 58 ~> St 167; 65 -- 70 ~> St 164;
        93 ~> St 460; 97 -- 102 ~> St 164]);
   (197, plain [46 ~> St 72; 48 -- 57 ~> St 165; 58 ~> St 167; 65 -- 70 ~> St 165; 93 ~> St 460; 97 -- 102 ~> St 165]);
   (198, plain [46 ~> St 72; 48 -- 53 ~> St 195; 54 -- 57 ~> St 165; 58 ~> St 167; 65 -- 70 ~> St 165; 93 ~> St 460;
        97 -- 102 ~> St 165]);
   (199, plain [46 ~> St 72; 48 -- 57 ~> St 197; 58 ~> St 167; 65 -- 70 ~> St 164; 93 ~> St 460; 97 -- 102 ~> St 164])].

Definition uri_states_31 : part action := mkPart
  []
  [(200, plain [48 -- 57 ~> St 164; 58 ~> St 167; 65 -- 70 ~> St 164; 93 ~> St 460; 97 -- 102 ~> St 164]);
   (201, plain [46 ~> St 72; 48 -- 57 ~> St 202; 58 ~> St 162; 65 -- 70 ~> St 159; 93 ~> St 460; 97 -- 102 ~> St 159]);
   (202, plain [46 ~> St 72; 48 -- 57 ~> St 203; 58 ~> St 162; 65 -- 70 ~> St 160; 93 ~> St 460; 97 -- 102 ~> St 160]);
   (203, plain [46 ~> St 72; 48 -- 57 ~> St 161; 58 ~> St 162; 65 -- 70 ~> St 161; 93 ~> St 460; 97 -- 102 ~> St 161]);
   (204, plain [46 ~> St 72; 48 -- 52 ~> St 205; 53 ~> St 206; 54 -- 57 ~> St 205; 58 ~> St 162; 65 -- 70 ~> St 159;
        93 ~> St 460; 97 -- 102 ~> St 159]);
   (205, plain [46 ~> St 72; 48 -- 57 ~> St 160; 58 ~> St 162; 65 -- 70 ~> St 160; 93 ~> St 460; 97 -- 102 ~> St 160]);
   (206, plain [46 ~> St 72; 48 -- 53 ~> St 203; 54 -- 57 ~> St 160; 58 ~> St 162; 65 -- 70 ~> St 160; 93 ~> St 460;
        97 -- 102 ~> St 160])].

Definition uri_states_32 : part action := mkPart
  []
  [(207, plain [46 ~> St 72; 48 -- 57 ~> St 205; 58 ~> St 162; 65 -- 70 ~> St 159; 93 ~> St 460; 97 -- 102 ~> St 159]);
   (208, plain [48 -- 57 ~> St 159; 58 ~> St 162; 65 -- 70 ~> St 159; 93 ~> St 460; 97 -- 102 ~> St 159]);
   (209, plain [46 ~> St 72; 48 -- 57 ~> St 210; 58 ~> St 157; 65 -- 70 ~> St 154; 93 ~> St 460; 97 -- 102 ~> St 154]);
   (210, plain [46 ~> St 72; 48 -- 57 ~> St 211; 58 ~> St 157; 65 -- 70 ~> St 155; 93 ~> St 460; 97 -- 102 ~> St 155]);
   (211, plain [46 ~> St 72; 48 -- 57 ~> St 156; 58 ~> St 157; 65 -- 70 ~> St 156; 93 ~> St 460; 97 -- 102 ~> St 156]);
   (212, plain [46 ~> St 72; 48 -- 52 ~> St 213; 53 ~> St 214; 54 -- 57 ~> St 213; 58 ~> St 157; 65 -- 70 ~> St 154;
        93 ~> St 460; 97 -- 102 ~> St 154]);
   (213, plain [46 ~> St 72; 48 -- 57 ~> St 155; 58 ~> St 157; 65 -- 70 ~> St 155; 93 ~> St 460; 97 -- 102 ~> St 155])].

Definition uri_states_33 : part action := mkPart
  []
  [(214, plain [46 ~> St 72; 48 -- 53 ~> St 211; 54 -- 57 ~> St 155; 58 ~> St 157; 65 -- 70 ~> St 155; 93 ~> St 460;
        97 -- 102 ~> St 155]);
   (215, plain [46 ~> St 72; 48 -- 57 ~> St 213; 58 ~> St 157; 65 -- 70 ~> St 154; 93 ~> St 460; 97 -- 102 ~> St 154]);
   (216, plain [48 -- 57 ~> St 154; 58 ~> St 157; 65 -- 70 ~> St 154; 93 ~> St 460; 97 -- 102 ~> St 154]);
   (217, plain [46 ~> St 72; 48 -- 57 ~> St 218; 58 ~> St 152; 65 -- 70 ~> St 149; 93 ~> St 460; 97 -- 102 ~> St 149]);
   (218, plain [46 ~> St 72; 48 -- 57 ~> St 219; 58 ~> St 152; 65 -- 70 ~> St 150; 93 ~> St 460; 97 -- 102 ~> St 150]);
   (219, plain [46 ~> St 72; 48 -- 57 ~> St 151; 58 ~> St 152; 65 -- 70 ~> St 151; 93 ~> St 460; 97 -- 102 ~> St 151]);
   (220, plain [46 ~> St 72; 48 -- 52 ~> St 221; 53 ~> St 222; 54 -- 57 ~> St 221; 58 ~> St 152; 65 -- 70 ~> St 149;
        93 ~> St 460; 97 -- 102 ~> St 149])].

Definition uri_states_34 : part action := mkPart
  []
  [(221, plain [46 ~> St 72; 48 -- 57 ~> St 150; 58 ~> St 152; 65 -- 70 ~> St 150; 93 ~> St 460; 97 -- 102 ~> St 150]);
   (222, plain [46 ~> St 72; 48 -- 53 ~> St 219; 54 -- 57 ~> St 150; 58 ~> St 152; 65 -- 70 ~> St 150; 93 ~> St 460;
        97 -- 102 ~> St 150]);
   (223, plain [46 ~> St 72; 48 -- 57 ~> St 221; 58 ~> St 152; 65 -- 70 ~> St 149; 93 ~> St 460; 97 -- 102 ~> St 149]);
   (224, plain [48 -- 57 ~> St 149; 58 ~> St 152; 65 -- 70 ~> St 149; 93 ~> St 460; 97 -- 102 ~> St 149]);
   (225, plain [48 -- 57 ~> St 226; 65 -- 70 ~> St 226; 97 -- 102 ~> St 226]);
   (226, plain [46 ~> St 227; 48 -- 57 ~> St 226; 65 -- 70 ~> St 226; 97 -- 102 ~> St 226]);
   (227, plain [33 ~> St 228; 36 ~> St 228; 38 -- 46 ~> St 228; 48 -- 59 ~> St 228; 61 ~> St 228; 65 -- 90 ~> St 228;
        95 ~> St 228; 97 -- 122 ~> St 228; 126 ~> St 228])].

Definition uri_states_35 : part action := mkPart
  [(500, go [mark] 489); (477, go [mark] 490)]
  [(228, plain [33 ~> St 228; 36 ~> St 228; 38 -- 46 ~> St 228; 48 -- 59 ~> St 228; 61 ~> St 228; 65 -- 90 ~> St 228;
        93 ~> St 460; 95 ~> St 228; 97 -- 122 ~> St 228; 126 ~> St 228]);
   (489, plain [33 ~> St 33; 35 ~> Tr 493; 36 ~> St 33; 37 ~> St 34; 38 -- 46 ~> St 33; 47 ~> Tr 494;
        48 -- 57 ~> St 489; 58 -- 59 ~> St 33; 61 ~> St 33; 63 ~> Tr 496; 64 ~> Tr 38; 65 -- 90 ~> St 33;
        95 ~> St 33; 97 -- 122 ~> St 33; 126 ~> St 33]);
   (490, plain [33 ~> St 467; 35 ~> Tr 485; 36 ~> St 467; 37 ~> St 31; 38 -- 45 ~> St 467; 46 ~> St 491; 47 ~> Tr 486;
        48 -- 57 ~> St 467; 58 ~> Tr 499; 59 ~> St 467; 61 ~> St 467; 63 ~> Tr 488; 64 ~> Tr 38;
        65 -- 90 ~> St 467; 95 ~> St 467; 97 -- 122 ~> St 467; 126 ~> St 467]);
   (491, plain [2 ~> St 13; 33 ~> St 467; 35 ~> Tr 485; 36 ~> St 467; 37 ~> St 31; 38 -- 46 ~> St 467; 47 ~> Tr 486;
        48 ~> St 492; 49 ~> St 500; 50 ~> St 502; 51 -- 57 ~> St 501; 58 ~> Tr 499; 59 ~> St 467; 61 ~> St 467;
        63 ~> Tr 488; 64 ~> Tr 38; 65 -- 90 ~> St 467; 95 ~> St 467; 97 -- 122 ~> St 467; 126 ~> St 467])].

Definition uri_states_36 : part action := mkPart
  []
  [(492, plain [33 ~> St 467; 35 ~> Tr 485; 36 ~> St 467; 37 ~> St 31; 38 -- 45 ~> St 467; 46 ~> St 493; 47 ~> Tr 486;
        48 -- 57 ~> St 467; 58 ~> Tr 499; 59 ~> St 467; 61 ~> St 467; 63 ~> Tr 488; 64 ~> Tr 38;
        65 -- 90 ~> St 467; 95 ~> St 467; 97 -- 122 ~> St 467; 126 ~> St 467]);
   (493, plain [2 ~> St 17; 33 ~> St 467; 35 ~> Tr 485; 36 ~> St 467; 37 ~> St 31; 38 -- 46 ~> St 467; 47 ~> Tr 486;
        48 ~> St 494; 49 ~> St 496; 50 ~> St 498; 51 -- 57 ~> St 497; 58 ~> Tr 499; 59 ~> St 467; 61 ~> St 467;
        63 ~> Tr 488; 64 ~> Tr 38; 65 -- 90 ~> St 467; 95 ~> St 467; 97 -- 122 ~> St 467; 126 ~> St 467]);
   (494, plain [33 ~> St 467; 35 ~> Tr 485; 36 ~> St 467; 37 ~> St 31; 38 -- 45 ~> St 467; 46 ~> St 495; 47 ~> Tr 486;
        48 -- 57 ~> St 467; 58 ~> Tr 499; 59 ~> St 467; 61 ~> St 467; 63 ~> Tr 488; 64 ~> Tr 38;
        65 -- 90 ~> St 467; 95 ~> St 467; 97 -- 122 ~> St 467; 126 ~> St 467]);
   (495, plain [2 ~> St 21; 33 ~> St 467; 35 ~> Tr 485; 36 ~> St 467; 37 ~> St 31; 38 -- 46 ~> St 467; 47 ~> Tr 486;
        48 -- 57 ~> St 467; 58 ~> Tr 499; 59 ~> St 467; 61 ~> St 467; 63 ~> Tr 488; 64 ~> Tr 38;
        65 -- 90 ~> St 467; 95 ~> St 467; 97 -- 122 ~> St 467; 126 ~> St 467]);
   (496, plain [33 ~> St 467; 35 ~> Tr 485; 36 ~> St 467; 37 ~> St 31; 38 -- 45 ~> St 467; 46 ~> St 495; 47 ~> Tr 486;
        48 -- 57 ~> St 497; 58 ~> Tr 499; 59 ~> St 467; 61 ~> St 467; 63 ~> Tr 488; 64 ~> Tr 38;
        65 -- 90 ~> St 467; 95 ~> St 467; 97 -- 122 ~> St 467; 126 ~> St 467])].

Definition uri_states_37 : part action := mkPart
  []
  [(497, plain [33 ~> St 467; 35 ~> Tr 485; 36 ~> St 467; 37 ~> St 31; 38 -- 45 ~> St 467; 46 ~> St 495; 47 ~> Tr 486;
        48 -- 57 ~> St 494; 58 ~> Tr 499; 59 ~> St 467; 61 ~> St 467; 63 ~> Tr 488; 64 ~> Tr 38;
        65 -- 90 ~> St 467; 95 ~> St 467; 97 -- 122 ~> St 467; 126 ~> St 467]);
   (498, plain [33 ~> St 467; 35 ~> Tr 485; 36 ~> St 467; 37 ~> St 31; 38 -- 45 ~> St 467; 46 ~> St 495; 47 ~> Tr 486;
        48 -- 52 ~> St 494; 53 ~> St 499; 54 -- 57 ~> St 494; 58 ~> Tr 499; 59 ~> St 467; 61 ~> St 467;
        63 ~> Tr 488; 64 ~> Tr 38; 65 -- 90 ~> St 467; 95 ~> St 467; 97 -- 122 ~> St 467; 126 ~> St 467]);
   (499, plain [33 ~> St 467; 35 ~> Tr 485; 36 ~> St 467; 37 ~> St 31; 38 -- 45 ~> St 467; 46 ~> St 495; 47 ~> Tr 486;
        48 -- 53 ~> St 494; 54 -- 57 ~> St 467; 58 ~> Tr 499; 59 ~> St 467; 61 ~> St 467; 63 ~> Tr 488;
        64 ~> Tr 38; 65 -- 90 ~> St 467; 95 ~> St 467; 97 -- 122 ~> St 467; 126 ~> St 467]);
   (500, plain [33 ~> St 467; 35 ~> Tr 485; 36 ~> St 467; 37 ~> St 31; 38 -- 45 ~> St 467; 46 ~> St 493; 47 ~> Tr 486;
        48 -- 57 ~> St 501; 58 ~> Tr 499; 59 ~> St 467; 61 ~> St 467; 63 ~> Tr 488; 64 ~> Tr 38;
        65 -- 90 ~> St 467; 95 ~> St 467; 97 -- 122 ~> St 467; 126 ~> St 467])].

Definition uri_states_38 : part action := mkPart
  [(478, go [mark] 504); (480, go [mark] 505)]
  [(501, plain [33 ~> St 467; 35 ~> Tr 485; 36 ~> St 467; 37 ~> St 31; 38 -- 45 ~> St 467; 46 ~> St 493; 47 ~> Tr 486;
        48 -- 57 ~> St 492; 58 ~> Tr 499; 59 ~> St 467; 61 ~> St 467; 63 ~> Tr 488; 64 ~> Tr 38;
        65 -- 90 ~> St 467; 95 ~> St 467; 97 -- 122 ~> St 467; 126 ~> St 467]);
   (502, plain [33 ~> St 467; 35 ~> Tr 485; 36 ~> St 467; 37 ~> St 31; 38 -- 45 ~> St 467; 46 ~> St 493; 47 ~> Tr 486;
        48 -- 52 ~> St 492; 53 ~> St 503; 54 -- 57 ~> St 492; 58 ~> Tr 499; 59 ~> St 467; 61 ~> St 467;
        63 ~> Tr 488; 64 ~> Tr 38; 65 -- 90 ~> St 467; 95 ~> St 467; 97 -- 122 ~> St 467; 126 ~> St 467]);
   (503, plain [33 ~> St 467; 35 ~> Tr 485; 36 ~> St 467; 37 ~> St 31; 38 -- 45 ~> St 467; 46 ~> St 493; 47 ~> Tr 486;
        48 -- 53 ~> St 492; 54 -- 57 ~> St 467; 58 ~> Tr 499; 59 ~> St 467; 61 ~> St 467; 63 ~> Tr 488;
        64 ~> Tr 38; 65 -- 90 ~> St 467; 95 ~> St 467; 97 -- 122 ~> St 467; 126 ~> St 467]);
   (504, plain [33 ~> St 467; 35 ~> Tr 485; 36 ~> St 467; 37 ~> St 31; 38 -- 45 ~> St 467; 46 ~> St 491; 47 ~> Tr 486;
        48 -- 57 ~> St 505; 58 ~> Tr 499; 59 ~> St 467; 61 ~> St 467; 63 ~> Tr 488; 64 ~> Tr 38;
        65 -- 90 ~> St 467; 95 ~> St 467; 97 -- 122 ~> St 467; 126 ~> St 467])].

Definition uri_states_39 : part action := mkPart
  [(479, go [mark] 506); (461, go [mark] 508)]
  [(505, plain [33 ~> St 467; 35 ~> Tr 485; 36 ~> St 467; 37 ~> St 31; 38 -- 45 ~> St 467; 46 ~> St 491; 47 ~> Tr 486;
        48 -- 57 ~> St 490; 58 ~> Tr 499; 59 ~> St 467; 61 ~> St 467; 63 ~> Tr 488; 64 ~> Tr 38;
        65 -- 90 ~> St 467; 95 ~> St 467; 97 -- 122 ~> St 467; 126 ~> St 467]);
   (506, plain [33 ~> St 467; 35 ~> Tr 485; 36 ~> St 467; 37 ~> St 31; 38 -- 45 ~> St 467; 46 ~> St 491; 47 ~> Tr 486;
        48 -- 52 ~> St 490; 53 ~> St 507; 54 -- 57 ~> St 490; 58 ~> Tr 499; 59 ~> St 467; 61 ~> St 467;
        63 ~> Tr 488; 64 ~> Tr 38; 65 -- 90 ~> St 467; 95 ~> St 467; 97 -- 122 ~> St 467; 126 ~> St 467]);
   (507, plain [33 ~> St 467; 35 ~> Tr 485; 36 ~> St 467; 37 ~> St 31; 38 -- 45 ~> St 467; 46 ~> St 491; 47 ~> Tr 486;
        48 -- 53 ~> St 490; 54 -- 57 ~> St 467; 58 ~> Tr 499; 59 ~> St 467; 61 ~> St 467; 63 ~> Tr 488;
        64 ~> Tr 38; 65 -- 90 ~> St 467; 95 ~> St 467; 97 -- 122 ~> St 467; 126 ~> St 467]);
   (508, plain [(-128) -- (-1) ~> St 452; 33 ~> St 452; 35 ~> St 453; 36 ~> St 452; 37 ~> St 3; 38 -- 42 ~> St 452;
        43 ~> St 508; 44 ~> St 452; 45 -- 46 ~> St 508; 47 ~> St 455; 48 -- 57 ~> St 508; 58 ~> Tr 543;
        59 ~> St 452; 61 ~> St 452; 63 ~> St 456; 64 ~> St 452; 65 -- 90 ~> St 508; 95 ~> St 452;
        97 -- 122 ~> St 508; 126 ~> St 452])].

Definition uri_states_40 : part action := mkPart
  [(543, go [save_scheme] 509); (546, go [mark] 229)]
  [(509, plain [(-128) -- (-1) ~> St 455; 33 ~> St 455; 35 ~> St 453; 36 ~> St 455; 37 ~> St 5; 38 -- 46 ~> St 455;
        47 ~> St 510; 48 -- 59 ~> St 455; 61 ~> St 455; 63 ~> St 456; 64 -- 90 ~> St 455; 95 ~> St 455;
        97 -- 122 ~> St 455; 126 ~> St 455]);
   (510, plain [(-128) -- (-1) ~> St 455; 33 ~> St 455; 35 ~> St 453; 36 ~> St 455; 37 ~> St 5; 38 -- 46 ~> St 455;
        47 ~> St 511; 48 -- 59 ~> St 455; 61 ~> St 455; 63 ~> St 456; 64 -- 90 ~> St 455; 95 ~> St 455;
        97 -- 122 ~> St 455; 126 ~> St 455]);
   (511, plain [2 ~> Tr 546; 33 ~> Tr 547; 35 ~> Tr 548; 36 ~> Tr 547; 37 ~> Tr 549; 38 -- 46 ~> Tr 547; 47 ~> Tr 550;
        48 ~> Tr 551; 49 ~> Tr 552; 50 ~> Tr 553; 51 -- 57 ~> Tr 554; 58 ~> Tr 555; 59 ~> Tr 547; 61 ~> Tr 547;
        63 ~> Tr 556; 64 ~> Tr 557; 65 -- 90 ~> Tr 547; 91 ~> Tr 558; 95 ~> Tr 547; 97 -- 122 ~> Tr 547;
        126 ~> Tr 547]);
   (229, plain [48 -- 52 ~> St 230]);
   (230, plain [48 -- 57 ~> St 231]);
   (231, plain [46 ~> St 232]);
   (232, plain [2 ~> St 233; 48 ~> St 235; 49 ~> St 249; 50 ~> St 251; 51 -- 57 ~> St 250]);
   (233, plain [48 -- 52 ~> St 234]);
   (234, plain [48 -- 57 ~> St 235])].

Definition uri_states_41 : part action := mkPart
  [(550, go [mark; save_host] 513); (567, go [mark; save_port] 513); (560, go [save_host; mark] 513);
   (571, go [save_port; mark] 513)]
  [(235, plain [46 ~> St 236]);
   (236, plain [2 ~> St 237; 48 ~> St 239; 49 ~> St 245; 50 ~> St 247; 51 -- 57 ~> St 246]);
   (237, plain [48 -- 52 ~> St 238]);
   (238, plain [48 -- 57 ~> St 239]);
   (239, plain [46 ~> St 240]);
   (240, plain [2 ~> St 241; 48 ~> St 512; 49 ~> St 516; 50 ~> St 518; 51 -- 57 ~> St 517]);
   (241, plain [48 -- 52 ~> St 242]);
   (242, plain [48 -- 57 ~> St 512]);
   (512, plain [35 ~> Tr 559; 47 ~> Tr 560; 58 ~> Tr 561; 63 ~> Tr 562])].

Definition uri_states_42 : part action := mkPart
  [(584, go [mark; save_host] 514); (561, go [save_host] 514); (568, go [mark] 515)]
  [(513, plain [(-128) -- (-1) ~> St 513; 33 ~> St 513; 35 ~> Tr 563; 36 ~> St 513; 37 ~> St 243; 38 -- 59 ~> St 513;
        61 ~> St 513; 63 ~> Tr 565; 64 -- 90 ~> St 513; 95 ~> St 513; 97 -- 122 ~> St 513; 126 ~> St 513]);
   (243, plain [48 -- 57 ~> St 244; 65 -- 70 ~> St 244; 97 -- 102 ~> St 244]);
   (244, plain [48 -- 57 ~> St 513; 65 -- 70 ~> St 513; 97 -- 102 ~> St 513]);
   (514, plain [35 ~> Tr 566; 47 ~> Tr 567; 48 -- 57 ~> Tr 568; 63 ~> Tr 569]);
   (515, plain [35 ~> Tr 570; 47 ~> Tr 571; 48 -- 57 ~> St 515; 63 ~> Tr 573]);
   (516, plain [35 ~> Tr 559; 47 ~> Tr 560; 48 -- 57 ~> St 517; 58 ~> Tr 561; 63 ~> Tr 562]);
   (517, plain [35 ~> Tr 559; 47 ~> Tr 560; 48 -- 57 ~> St 512; 58 ~> Tr 561; 63 ~> Tr 562]);
   (518, plain [35 ~> Tr 559; 47 ~> Tr 560; 48 -- 52 ~> St 512; 53 ~> St 519; 54 -- 57 ~> St 512; 58 ~> Tr 561;
        63 ~> Tr 562])].

Definition uri_states_43 : part action := mkPart
  [(547, go [mark] 520); (549, go [mark] 253)]
  [(519, plain [35 ~> Tr 559; 47 ~> Tr 560; 48 -- 53 ~> St 512; 58 ~> Tr 561; 63 ~> Tr 562]);
   (245, plain [46 ~> St 240; 48 -- 57 ~> St 246]);
   (246, plain [46 ~> St 240; 48 -- 57 ~> St 239]);
   (247, plain [46 ~> St 240; 48 -- 52 ~> St 239; 53 ~> St 248; 54 -- 57 ~> St 239]);
   (248, plain [46 ~> St 240; 48 -- 53 ~> St 239]);
   (249, plain [46 ~> St 236; 48 -- 57 ~> St 250]);
   (250, plain [46 ~> St 236; 48 -- 57 ~> St 235]);
   (251, plain [46 ~> St 236; 48 -- 52 ~> St 235; 53 ~> St 252; 54 -- 57 ~> St 235]);
   (252, plain [46 ~> St 236; 48 -- 53 ~> St 235]);
   (520, plain [33 ~> St 520; 35 ~> Tr 559; 36 ~> St 520; 37 ~> St 253; 38 -- 46 ~> St 520; 47 ~> Tr 560;
        48 -- 57 ~> St 520; 58 ~> Tr 576; 59 ~> St 520; 61 ~> St 520; 63 ~> Tr 562; 64 ~> Tr 263;
        65 -- 90 ~> St 520; 95 ~> St 520; 97 -- 122 ~> St 520; 126 ~> St 520]);
   (253, plain [48 -- 57 ~> St 254; 65 -- 70 ~> St 254; 97 -- 102 ~> St 254])].

Definition uri_states_44 : part action := mkPart
  [(555, go [mark; save_host] 521); (576, go [save_host] 521); (263, go [save_userinfo] 522);
   (557, go [mark; save_userinfo] 522)]
  [(254, plain [48 -- 57 ~> St 520; 65 -- 70 ~> St 520; 97 -- 102 ~> St 520]);
   (521, plain [33 ~> St 255; 35 ~> Tr 566; 36 ~> St 255; 37 ~> St 256; 38 -- 46 ~> St 255; 47 ~> Tr 567;
        48 -- 57 ~> Tr 577; 58 -- 59 ~> St 255; 61 ~> St 255; 63 ~> Tr 569; 64 ~> Tr 263; 65 -- 90 ~> St 255;
        95 ~> St 255; 97 -- 122 ~> St 255; 126 ~> St 255]);
   (255, plain [33 ~> St 255; 36 ~> St 255; 37 ~> St 256; 38 -- 46 ~> St 255; 48 -- 59 ~> St 255; 61 ~> St 255;
        64 ~> Tr 263; 65 -- 90 ~> St 255; 95 ~> St 255; 97 -- 122 ~> St 255; 126 ~> St 255]);
   (256, plain [48 -- 57 ~> St 257; 65 -- 70 ~> St 257; 97 -- 102 ~> St 257]);
   (257, plain [48 -- 57 ~> St 255; 65 -- 70 ~> St 255; 97 -- 102 ~> St 255])].

Definition uri_states_45 : part action := mkPart
  [(578, go [mark] 523); (579, go [mark] 258); (580, go [mark] 524)]
  [(522, plain [2 ~> Tr 546; 33 ~> Tr 578; 35 ~> Tr 548; 36 ~> Tr 578; 37 ~> Tr 579; 38 -- 46 ~> Tr 578; 47 ~> Tr 550;
        48 ~> Tr 580; 49 ~> Tr 581; 50 ~> Tr 582; 51 -- 57 ~> Tr 583; 58 ~> Tr 584; 59 ~> Tr 578; 61 ~> Tr 578;
        63 ~> Tr 556; 65 -- 90 ~> Tr 578; 91 ~> Tr 558; 95 ~> Tr 578; 97 -- 122 ~> Tr 578; 126 ~> Tr 578]);
   (523, plain [33 ~> St 523; 35 ~> Tr 559; 36 ~> St 523; 37 ~> St 258; 38 -- 46 ~> St 523; 47 ~> Tr 560;
        48 -- 57 ~> St 523; 58 ~> Tr 561; 59 ~> St 523; 61 ~> St 523; 63 ~> Tr 562; 65 -- 90 ~> St 523;
        95 ~> St 523; 97 -- 122 ~> St 523; 126 ~> St 523]);
   (258, plain [48 -- 57 ~> St 259; 65 -- 70 ~> St 259; 97 -- 102 ~> St 259]);
   (259, plain [48 -- 57 ~> St 523; 65 -- 70 ~> St 523; 97 -- 102 ~> St 523]);
   (524, plain [33 ~> St 523; 35 ~> Tr 559; 36 ~> St 523; 37 ~> St 258; 38 -- 45 ~> St 523; 46 ~> St 525; 47 ~> Tr 560;
        48 -- 57 ~> St 523; 58 ~> Tr 561; 59 ~> St 523; 61 ~> St 523; 63 ~> Tr 562; 65 -- 90 ~> St 523;
        95 ~> St 523; 97 -- 122 ~> St 523; 126 ~> St 523])].

Definition uri_states_46 : part action := mkPart
  []
  [(525, plain [2 ~> St 233; 33 ~> St 523; 35 ~> Tr 559; 36 ~> St 523; 37 ~> St 258; 38 -- 46 ~> St 523; 47 ~> Tr 560;
        48 ~> St 526; 49 ~> St 534; 50 ~> St 536; 51 -- 57 ~> St 535; 58 ~> Tr 561; 59 ~> St 523; 61 ~> St 523;
        63 ~> Tr 562; 65 -- 90 ~> St 523; 95 ~> St 523; 97 -- 122 ~> St 523; 126 ~> St 523]);
   (526, plain [33 ~> St 523; 35 ~> Tr 559; 36 ~> St 523; 37 ~> St 258; 38 -- 45 ~> St 523; 46 ~> St 527; 47 ~> Tr 560;
        48 -- 57 ~> St 523; 58 ~> Tr 561; 59 ~> St 523; 61 ~> St 523; 63 ~> Tr 562; 65 -- 90 ~> St 523;
        95 ~> St 523; 97 -- 122 ~> St 523; 126 ~> St 523]);
   (527, plain [2 ~> St 237; 33 ~> St 523; 35 ~> Tr 559; 36 ~> St 523; 37 ~> St 258; 38 -- 46 ~> St 523; 47 ~> Tr 560;
        48 ~> St 528; 49 ~> St 530; 50 ~> St 532; 51 -- 57 ~> St 531; 58 ~> Tr 561; 59 ~> St 523; 61 ~> St 523;
        63 ~> Tr 562; 65 -- 90 ~> St 523; 95 ~> St 523; 97 -- 122 ~> St 523; 126 ~> St 523]);
   (528, plain [33 ~> St 523; 35 ~> Tr 559; 36 ~> St 523; 37 ~> St 258; 38 -- 45 ~> St 523; 46 ~> St 529; 47 ~> Tr 560;
        48 -- 57 ~> St 523; 58 ~> Tr 561; 59 ~> St 523; 61 ~> St 523; 63 ~> Tr 562; 65 -- 90 ~> St 523;
        95 ~> St 523; 97 -- 122 ~> St 523; 126 ~> St 523]);
   (529, plain [2 ~> St 241; 33 ~> St 523; 35 ~> Tr 559; 36 ~> St 523; 37 ~> St 258; 38 -- 46 ~> St 523; 47 ~> Tr 560;
        48 -- 57 ~> St 523; 58 ~> Tr 561; 59 ~> St 523; 61 ~> St 523; 63 ~> Tr 562; 65 -- 90 ~> St 523;
        95 ~> St 523; 97 -- 122 ~> St 523; 126 ~> St 523])].

Definition uri_states_47 : part action := mkPart
  []
  [(530, plain [33 ~> St 523; 35 ~> Tr 559; 36 ~> St 523; 37 ~> St 258; 38 -- 45 ~> St 523; 46 ~> St 529; 47 ~> Tr 560;
        48 -- 57 ~> St 531; 58 ~> Tr 561; 59 ~> St 523; 61 ~> St 523; 63 ~> Tr 562; 65 -- 90 ~> St 523;
        95 ~> St 523; 97 -- 122 ~> St 523; 126 ~> St 523]);
   (531, plain [33 ~> St 523; 35 ~> Tr 559; 36 ~> St 523; 37 ~> St 258; 38 -- 45 ~> St 523; 46 ~> St 529; 47 ~> Tr 560;
        48 -- 57 ~> St 528; 58 ~> Tr 561; 59 ~> St 523; 61 ~> St 523; 63 ~> Tr 562; 65 -- 90 ~> St 523;
        95 ~> St 523; 97 -- 122 ~> St 523; 126 ~> St 523]);
   (532, plain [33 ~> St 523; 35 ~> Tr 559; 36 ~> St 523; 37 ~> St 258; 38 -- 45 ~> St 523; 46 ~> St 529; 47 ~> Tr 560;
        48 -- 52 ~> St 528; 53 ~> St 533; 54 -- 57 ~> St 528; 58 ~> Tr 561; 59 ~> St 523; 61 ~> St 523;
        63 ~> Tr 562; 65 -- 90 ~> St 523; 95 ~> St 523; 97 -- 122 ~> St 523; 126 ~> St 523]);
   (533, plain [33 ~> St 523; 35 ~> Tr 559; 36 ~> St 523; 37 ~> St 258; 38 -- 45 ~> St 523; 46 ~> St 529; 47 ~> Tr 560;
        48 -- 53 ~> St 528; 54 -- 57 ~> St 523; 58 ~> Tr 561; 59 ~> St 523; 61 ~> St 523; 63 ~> Tr 562;
        65 -- 90 ~> St 523; 95 ~> St 523; 97 -- 122 ~> St 523; 126 ~> St 523])].

Definition uri_states_48 : part action := mkPart
  [(581, go [mark] 538)]
  [(534, plain [33 ~> St 523; 35 ~> Tr 559; 36 ~> St 523; 37 ~> St 258; 38 -- 45 ~> St 523; 46 ~> St 527; 47 ~> Tr 560;
        48 -- 57 ~> St 535; 58 ~> Tr 561; 59 ~> St 523; 61 ~> St 523; 63 ~> Tr 562; 65 -- 90 ~> St 523;
        95 ~> St 523; 97 -- 122 ~> St 523; 126 ~> St 523]);
   (535, plain [33 ~> St 523; 35 ~> Tr 559; 36 ~> St 523; 37 ~> St 258; 38 -- 45 ~> St 523; 46 ~> St 527; 47 ~> Tr 560;
        48 -- 57 ~> St 526; 58 ~> Tr 561; 59 ~> St 523; 61 ~> St 523; 63 ~> Tr 562; 65 -- 90 ~> St 523;
        95 ~> St 523; 97 -- 122 ~> St 523; 126 ~> St 523]);
   (536, plain [33 ~> St 523; 35 ~> Tr 559; 36 ~> St 523; 37 ~> St 258; 38 -- 45 ~> St 523; 46 ~> St 527; 47 ~> Tr 560;
        48 -- 52 ~> St 526; 53 ~> St 537; 54 -- 57 ~> St 526; 58 ~> Tr 561; 59 ~> St 523; 61 ~> St 523;
        63 ~> Tr 562; 65 -- 90 ~> St 523; 95 ~> St 523; 97 -- 122 ~> St 523; 126 ~> St 523]);
   (537, plain [33 ~> St 523; 35 ~> Tr 559; 36 ~> St 523; 37 ~> St 258; 38 -- 45 ~> St 523; 46 ~> St 527; 47 ~> Tr 560;
        48 -- 53 ~> St 526; 54 -- 57 ~> St 523; 58 ~> Tr 561; 59 ~> St 523; 61 ~> St 523; 63 ~> Tr 562;
        65 -- 90 ~> St 523; 95 ~> St 523; 97 -- 122 ~> St 523; 126 ~> St 523])].

Definition uri_states_49 : part action := mkPart
  [(583, go [mark] 539); (582, go [mark] 540); (558, go [mark] 260)]
  [(538, plain [33 ~> St 523; 35 ~> Tr 559; 36 ~> St 523; 37 ~> St 258; 38 -- 45 ~> St 523; 46 ~> St 525; 47 ~> Tr 560;
        48 -- 57 ~> St 539; 58 ~> Tr 561; 59 ~> St 523; 61 ~> St 523; 63 ~> Tr 562; 65 -- 90 ~> St 523;
        95 ~> St 523; 97 -- 122 ~> St 523; 126 ~> St 523]);
   (539, plain [33 ~> St 523; 35 ~> Tr 559; 36 ~> St 523; 37 ~> St 258; 38 -- 45 ~> St 523; 46 ~> St 525; 47 ~> Tr 560;
        48 -- 57 ~> St 524; 58 ~> Tr 561; 59 ~> St 523; 61 ~> St 523; 63 ~> Tr 562; 65 -- 90 ~> St 523;
        95 ~> St 523; 97 -- 122 ~> St 523; 126 ~> St 523]);
   (540, plain [33 ~> St 523; 35 ~> Tr 559; 36 ~> St 523; 37 ~> St 258; 38 -- 45 ~> St 523; 46 ~> St 525; 47 ~> Tr 560;
        48 -- 52 ~> St 524; 53 ~> St 541; 54 -- 57 ~> St 524; 58 ~> Tr 561; 59 ~> St 523; 61 ~> St 523;
        63 ~> Tr 562; 65 -- 90 ~> St 523; 95 ~> St 523; 97 -- 122 ~> St 523; 126 ~> St 523]);
   (541, plain [33 ~> St 523; 35 ~> Tr 559; 36 ~> St 523; 37 ~> St 258; 38 -- 45 ~> St 523; 46 ~> St 525; 47 ~> Tr 560;
        48 -- 53 ~> St 524; 54 -- 57 ~> St 523; 58 ~> Tr 561; 59 ~> St 523; 61 ~> St 523; 63 ~> Tr 562;
        65 -- 90 ~> St 523; 95 ~> St 523; 97 -- 122 ~> St 523; 126 ~> St 523])].

Definition uri_states_50 : part action := mkPart
  []
  [(260, plain [48 -- 57 ~> St 261; 58 ~> St 368; 65 -- 70 ~> St 261; 97 -- 102 ~> St 261; 118 ~> St 447]);
   (261, plain [48 -- 57 ~> St 262; 58 ~> St 265; 65 -- 70 ~> St 262; 97 -- 102 ~> St 262]);
   (262, plain [48 -- 57 ~> St 263; 58 ~> St 265; 65 -- 70 ~> St 263; 97 -- 102 ~> St 263]);
   (263, plain [48 -- 57 ~> St 264; 58 ~> St 265; 65 -- 70 ~> St 264; 97 -- 102 ~> St 264]);
   (264, plain [58 ~> St 265]);
   (265, plain [48 -- 57 ~> St 266; 58 ~> St 363; 65 -- 70 ~> St 266; 97 -- 102 ~> St 266]);
   (266, plain [48 -- 57 ~> St 267; 58 ~> St 270; 65 -- 70 ~> St 267; 97 -- 102 ~> St 267]);
   (267, plain [48 -- 57 ~> St 268; 58 ~> St 270; 65 -- 70 ~> St 268; 97 -- 102 ~> St 268]);
   (268, plain [48 -- 57 ~> St 269; 58 ~> St 270; 65 -- 70 ~> St 269; 97 -- 102 ~> St 269]);
   (269, plain [58 ~> St 270])].

Definition uri_states_51 : part action := mkPart
  []
  [(270, plain [48 -- 57 ~> St 271; 58 ~> St 358; 65 -- 70 ~> St 271; 97 -- 102 ~> St 271]);
   (271, plain [48 -- 57 ~> St 272; 58 ~> St 275; 65 -- 70 ~> St 272; 97 -- 102 ~> St 272]);
   (272, plain [48 -- 57 ~> St 273; 58 ~> St 275; 65 -- 70 ~> St 273; 97 -- 102 ~> St 273]);
   (273, plain [48 -- 57 ~> St 274; 58 ~> St 275; 65 -- 70 ~> St 274; 97 -- 102 ~> St 274]);
   (274, plain [58 ~> St 275]);
   (275, plain [48 -- 57 ~> St 276; 58 ~> St 353; 65 -- 70 ~> St 276; 97 -- 102 ~> St 276]);
   (276, plain [48 -- 57 ~> St 277; 58 ~> St 280; 65 -- 70 ~> St 277; 97 -- 102 ~> St 277]);
   (277, plain [48 -- 57 ~> St 278; 58 ~> St 280; 65 -- 70 ~> St 278; 97 -- 102 ~> St 278]);
   (278, plain [48 -- 57 ~> St 279; 58 ~> St 280; 65 -- 70 ~> St 279; 97 -- 102 ~> St 279]);
   (279, plain [58 ~> St 280])].

Definition uri_states_52 : part action := mkPart
  []
  [(280, plain [48 -- 57 ~> St 281; 58 ~> St 348; 65 -- 70 ~> St 281; 97 -- 102 ~> St 281]);
   (281, plain [48 -- 57 ~> St 282; 58 ~> St 285; 65 -- 70 ~> St 282; 97 -- 102 ~> St 282]);
   (282, plain [48 -- 57 ~> St 283; 58 ~> St 285; 65 -- 70 ~> St 283; 97 -- 102 ~> St 283]);
   (283, plain [48 -- 57 ~> St 284; 58 ~> St 285; 65 -- 70 ~> St 284; 97 -- 102 ~> St 284]);
   (284, plain [58 ~> St 285]);
   (285, plain [48 -- 57 ~> St 286; 58 ~> St 335; 65 -- 70 ~> St 286; 97 -- 102 ~> St 286]);
   (286, plain [48 -- 57 ~> St 287; 58 ~> St 290; 65 -- 70 ~> St 287; 97 -- 102 ~> St 287]);
   (287, plain [48 -- 57 ~> St 288; 58 ~> St 290; 65 -- 70 ~> St 288; 97 -- 102 ~> St 288]);
   (288, plain [48 -- 57 ~> St 289; 58 ~> St 290; 65 -- 70 ~> St 289; 97 -- 102 ~> St 289]);
   (289, plain [58 ~> St 290])].

Definition uri_states_53 : part action := mkPart
  []
  [(290, plain [2 ~> St 291; 48 ~> St 318; 49 ~> St 326; 50 ~> St 329; 51 -- 57 ~> St 332; 58 ~> St 333;
        65 -- 70 ~> St 334; 97 -- 102 ~> St 334]);
   (291, plain [48 -- 52 ~> St 292]);
   (292, plain [48 -- 57 ~> St 293]);
   (293, plain [46 ~> St 294]);
   (294, plain [2 ~> St 295; 48 ~> St 297; 49 ~> St 314; 50 ~> St 316; 51 -- 57 ~> St 315]);
   (295, plain [48 -- 52 ~> St 296]);
   (296, plain [48 -- 57 ~> St 297]);
   (297, plain [46 ~> St 298]);
   (298, plain [2 ~> St 299; 48 ~> St 301; 49 ~> St 310; 50 ~> St 312; 51 -- 57 ~> St 311]);
   (299, plain [48 -- 52 ~> St 300]);
   (300, plain [48 -- 57 ~> St 301]);
   (301, plain [46 ~> St 302]);
   (302, plain [2 ~> St 303; 48 ~> St 305; 49 ~> St 306; 50 ~> St 308; 51 -- 57 ~> St 307]);
   (303, plain [48 -- 52 ~> St 304]);
   (304, plain [48 -- 57 ~> St 305]);
   (305, plain [93 ~> St 512])].

Definition uri_states_54 : part action := mkPart
  []
  [(306, plain [48 -- 57 ~> St 307; 93 ~> St 512]);
   (307, plain [48 -- 57 ~> St 305; 93 ~> St 512]);
   (308, plain [48 -- 52 ~> St 305; 53 ~> St 309; 54 -- 57 ~> St 305; 93 ~> St 512]);
   (309, plain [48 -- 53 ~> St 305; 93 ~> St 512]);
   (310, plain [46 ~> St 302; 48 -- 57 ~> St 311]);
   (311, plain [46 ~> St 302; 48 -- 57 ~> St 301]);
   (312, plain [46 ~> St 302; 48 -- 52 ~> St 301; 53 ~> St 313; 54 -- 57 ~> St 301]);
   (313, plain [46 ~> St 302; 48 -- 53 ~> St 301]);
   (314, plain [46 ~> St 298; 48 -- 57 ~> St 315]);
   (315, plain [46 ~> St 298; 48 -- 57 ~> St 297]);
   (316, plain [46 ~> St 298; 48 -- 52 ~> St 297; 53 ~> St 317; 54 -- 57 ~> St 297]);
   (317, plain [46 ~> St 298; 48 -- 53 ~> St 297]);
   (318, plain [46 ~> St 294; 48 -- 57 ~> St 319; 58 ~> St 322; 65 -- 70 ~> St 319; 97 -- 102 ~> St 319])].

Definition uri_states_55 : part action := mkPart
  []
  [(319, plain [48 -- 57 ~> St 320; 58 ~> St 322; 65 -- 70 ~> St 320; 97 -- 102 ~> St 320]);
   (320, plain [48 -- 57 ~> St 321; 58 ~> St 322; 65 -- 70 ~> St 321; 97 -- 102 ~> St 321]);
   (321, plain [58 ~> St 322]);
   (322, plain [48 -- 57 ~> St 323; 58 ~> St 305; 65 -- 70 ~> St 323; 97 -- 102 ~> St 323]);
   (323, plain [48 -- 57 ~> St 324; 65 -- 70 ~> St 324; 93 ~> St 512; 97 -- 102 ~> St 324]);
   (324, plain [48 -- 57 ~> St 325; 65 -- 70 ~> St 325; 93 ~> St 512; 97 -- 102 ~> St 325]);
   (325, plain [48 -- 57 ~> St 305; 65 -- 70 ~> St 305; 93 ~> St 512; 97 -- 102 ~> St 305]);
   (326, plain [46 ~> St 294; 48 -- 57 ~> St 327; 58 ~> St 322; 65 -- 70 ~> St 319; 97 -- 102 ~> St 319]);
   (327, plain [46 ~> St 294; 48 -- 57 ~> St 328; 58 ~> St 322; 65 -- 70 ~> St 320; 97 -- 102 ~> St 320])].

Definition uri_states_56 : part action := mkPart
  []
  [(328, plain [46 ~> St 294; 48 -- 57 ~> St 321; 58 ~> St 322; 65 -- 70 ~> St 321; 97 -- 102 ~> St 321]);
   (329, plain [46 ~> St 294; 48 -- 52 ~> St 330; 53 ~> St 331; 54 -- 57 ~> St 330; 58 ~> St 322; 65 -- 70 ~> St 319;
        97 -- 102 ~> St 319]);
   (330, plain [46 ~> St 294; 48 -- 57 ~> St 320; 58 ~> St 322; 65 -- 70 ~> St 320; 97 -- 102 ~> St 320]);
   (331, plain [46 ~> St 294; 48 -- 53 ~> St 328; 54 -- 57 ~> St 320; 58 ~> St 322; 65 -- 70 ~> St 320;
        97 -- 102 ~> St 320]);
   (332, plain [46 ~> St 294; 48 -- 57 ~> St 330; 58 ~> St 322; 65 -- 70 ~> St 319; 97 -- 102 ~> St 319]);
   (333, plain [48 -- 57 ~> St 323; 65 -- 70 ~> St 323; 97 -- 102 ~> St 323]);
   (334, plain [48 -- 57 ~> St 319; 58 ~> St 322; 65 -- 70 ~> St 319; 97 -- 102 ~> St 319]);
   (335, plain [2 ~> St 291; 48 ~> St 336; 49 ~> St 340; 50 ~> St 343; 51 -- 57 ~> St 346; 65 -- 70 ~> St 347;
        97 -- 102 ~> St 347])].

Definition uri_states_57 : part action := mkPart
  []
  [(336, plain [46 ~> St 294; 48 -- 57 ~> St 337; 58 ~> St 333; 65 -- 70 ~> St 337; 97 -- 102 ~> St 337]);
   (337, plain [48 -- 57 ~> St 338; 58 ~> St 333; 65 -- 70 ~> St 338; 97 -- 102 ~> St 338]);
   (338, plain [48 -- 57 ~> St 339; 58 ~> St 333; 65 -- 70 ~> St 339; 97 -- 102 ~> St 339]);
   (339, plain [58 ~> St 333]);
   (340, plain [46 ~> St 294; 48 -- 57 ~> St 341; 58 ~> St 333; 65 -- 70 ~> St 337; 97 -- 102 ~> St 337]);
   (341, plain [46 ~> St 294; 48 -- 57 ~> St 342; 58 ~> St 333; 65 -- 70 ~> St 338; 97 -- 102 ~> St 338]);
   (342, plain [46 ~> St 294; 48 -- 57 ~> St 339; 58 ~> St 333; 65 -- 70 ~> St 339; 97 -- 102 ~> St 339]);
   (343, plain [46 ~> St 294; 48 -- 52 ~> St 344; 53 ~> St 345; 54 -- 57 ~> St 344; 58 ~> St 333; 65 -- 70 ~> St 337;
        97 -- 102 ~> St 337]);
   (344, plain [46 ~> St 294; 48 -- 57 ~> St 338; 58 ~> St 333; 65 -- 70 ~> St 338; 97 -- 102 ~> St 338])].

Definition uri_states_58 : part action := mkPart
  []
  [(345, plain [46 ~> St 294; 48 -- 53 ~> St 342; 54 -- 57 ~> St 338; 58 ~> St 333; 65 -- 70 ~> St 338;
        97 -- 102 ~> St 338]);
   (346, plain [46 ~> St 294; 48 -- 57 ~> St 344; 58 ~> St 333; 65 -- 70 ~> St 337; 97 -- 102 ~> St 337]);
   (347, plain [48 -- 57 ~> St 337; 58 ~> St 333; 65 -- 70 ~> St 337; 97 -- 102 ~> St 337]);
   (348, plain [48 -- 57 ~> St 349; 65 -- 70 ~> St 349; 97 -- 102 ~> St 349]);
   (349, plain [48 -- 57 ~> St 350; 58 ~> St 335; 65 -- 70 ~> St 350; 97 -- 102 ~> St 350]);
   (350, plain [48 -- 57 ~> St 351; 58 ~> St 335; 65 -- 70 ~> St 351; 97 -- 102 ~> St 351]);
   (351, plain [48 -- 57 ~> St 352; 58 ~> St 335; 65 -- 70 ~> St 352; 97 -- 102 ~> St 352]);
   (352, plain [58 ~> St 335]);
   (353, plain [48 -- 57 ~> St 354; 65 -- 70 ~> St 354; 97 -- 102 ~> St 354]);
   (354, plain [48 -- 57 ~> St 355; 58 ~> St 348; 65 -- 70 ~> St 355; 97 -- 102 ~> St 355])].

Definition uri_states_59 : part action := mkPart
  []
  [(355, plain [48 -- 57 ~> St 356; 58 ~> St 348; 65 -- 70 ~> St 356; 97 -- 102 ~> St 356]);
   (356, plain [48 -- 57 ~> St 357; 58 ~> St 348; 65 -- 70 ~> St 357; 97 -- 102 ~> St 357]);
   (357, plain [58 ~> St 348]);
   (358, plain [48 -- 57 ~> St 359; 65 -- 70 ~> St 359; 97 -- 102 ~> St 359]);
   (359, plain [48 -- 57 ~> St 360; 58 ~> St 353; 65 -- 70 ~> St 360; 97 -- 102 ~> St 360]);
   (360, plain [48 -- 57 ~> St 361; 58 ~> St 353; 65 -- 70 ~> St 361; 97 -- 102 ~> St 361]);
   (361, plain [48 -- 57 ~> St 362; 58 ~> St 353; 65 -- 70 ~> St 362; 97 -- 102 ~> St 362]);
   (362, plain [58 ~> St 353]);
   (363, plain [48 -- 57 ~> St 364; 65 -- 70 ~> St 364; 97 -- 102 ~> St 364]);
   (364, plain [48 -- 57 ~> St 365; 58 ~> St 358; 65 -- 70 ~> St 365; 97 -- 102 ~> St 365]);
   (365, plain [48 -- 57 ~> St 366; 58 ~> St 358; 65 -- 70 ~> St 366; 97 -- 102 ~> St 366])].

Definition uri_states_60 : part action := mkPart
  []
  [(366, plain [48 -- 57 ~> St 367; 58 ~> St 358; 65 -- 70 ~> St 367; 97 -- 102 ~> St 367]);
   (367, plain [58 ~> St 358]);
   (368, plain [58 ~> St 369]);
   (369, plain [2 ~> St 291; 48 ~> St 370; 49 ~> St 439; 50 ~> St 442; 51 -- 57 ~> St 445; 65 -- 70 ~> St 446;
        93 ~> St 512; 97 -- 102 ~> St 446]);
   (370, plain [46 ~> St 294; 48 -- 57 ~> St 371; 58 ~> St 374; 65 -- 70 ~> St 371; 93 ~> St 512; 97 -- 102 ~> St 371]);
   (371, plain [48 -- 57 ~> St 372; 58 ~> St 374; 65 -- 70 ~> St 372; 93 ~> St 512; 97 -- 102 ~> St 372]);
   (372, plain [48 -- 57 ~> St 373; 58 ~> St 374; 65 -- 70 ~> St 373; 93 ~> St 512; 97 -- 102 ~> St 373]);
   (373, plain [58 ~> St 374; 93 ~> St 512]);
   (374, plain [2 ~> St 291; 48 ~> St 375; 49 ~> St 431; 50 ~> St 434; 51 -- 57 ~> St 437; 65 -- 70 ~> St 438;
        97 -- 102 ~> St 438])].

Definition uri_states_61 : part action := mkPart
  []
  [(375, plain [46 ~> St 294; 48 -- 57 ~> St 376; 58 ~> St 379; 65 -- 70 ~> St 376; 93 ~> St 512; 97 -- 102 ~> St 376]);
   (376, plain [48 -- 57 ~> St 377; 58 ~> St 379; 65 -- 70 ~> St 377; 93 ~> St 512; 97 -- 102 ~> St 377]);
   (377, plain [48 -- 57 ~> St 378; 58 ~> St 379; 65 -- 70 ~> St 378; 93 ~> St 512; 97 -- 102 ~> St 378]);
   (378, plain [58 ~> St 379; 93 ~> St 512]);
   (379, plain [2 ~> St 291; 48 ~> St 380; 49 ~> St 423; 50 ~> St 426; 51 -- 57 ~> St 429; 65 -- 70 ~> St 430;
        97 -- 102 ~> St 430]);
   (380, plain [46 ~> St 294; 48 -- 57 ~> St 381; 58 ~> St 384; 65 -- 70 ~> St 381; 93 ~> St 512; 97 -- 102 ~> St 381]);
   (381, plain [48 -- 57 ~> St 382; 58 ~> St 384; 65 -- 70 ~> St 382; 93 ~> St 512; 97 -- 102 ~> St 382]);
   (382, plain [48 -- 57 ~> St 383; 58 ~> St 384; 65 -- 70 ~> St 383; 93 ~> St 512; 97 -- 102 ~> St 383]);
   (383, plain [58 ~> St 384; 93 ~> St 512])].

Definition uri_states_62 : part action := mkPart
  []
  [(384, plain [2 ~> St 291; 48 ~> St 385; 49 ~> St 415; 50 ~> St 418; 51 -- 57 ~> St 421; 65 -- 70 ~> St 422;
        97 -- 102 ~> St 422]);
   (385, plain [46 ~> St 294; 48 -- 57 ~> St 386; 58 ~> St 389; 65 -- 70 ~> St 386; 93 ~> St 512; 97 -- 102 ~> St 386]);
   (386, plain [48 -- 57 ~> St 387; 58 ~> St 389; 65 -- 70 ~> St 387; 93 ~> St 512; 97 -- 102 ~> St 387]);
   (387, plain [48 -- 57 ~> St 388; 58 ~> St 389; 65 -- 70 ~> St 388; 93 ~> St 512; 97 -- 102 ~> St 388]);
   (388, plain [58 ~> St 389; 93 ~> St 512]);
   (389, plain [2 ~> St 291; 48 ~> St 390; 49 ~> St 407; 50 ~> St 410; 51 -- 57 ~> St 413; 65 -- 70 ~> St 414;
        97 -- 102 ~> St 414]);
   (390, plain [46 ~> St 294; 48 -- 57 ~> St 391; 58 ~> St 394; 65 -- 70 ~> St 391; 93 ~> St 512; 97 -- 102 ~> St 391]);
   (391, plain [48 -- 57 ~> St 392; 58 ~> St 394; 65 -- 70 ~> St 392; 93 ~> St 512; 97 -- 102 ~> St 392])].

Definition uri_states_63 : part action := mkPart
  []
  [(392, plain [48 -- 57 ~> St 393; 58 ~> St 394; 65 -- 70 ~> St 393; 93 ~> St 512; 97 -- 102 ~> St 393]);
   (393, plain [58 ~> St 394; 93 ~> St 512]);
   (394, plain [2 ~> St 291; 48 ~> St 395; 49 ~> St 399; 50 ~> St 402; 51 -- 57 ~> St 405; 65 -- 70 ~> St 406;
        97 -- 102 ~> St 406]);
   (395, plain [46 ~> St 294; 48 -- 57 ~> St 396; 58 ~> St 333; 65 -- 70 ~> St 396; 93 ~> St 512; 97 -- 102 ~> St 396]);
   (396, plain [48 -- 57 ~> St 397; 58 ~> St 333; 65 -- 70 ~> St 397; 93 ~> St 512; 97 -- 102 ~> St 397]);
   (397, plain [48 -- 57 ~> St 398; 58 ~> St 333; 65 -- 70 ~> St 398; 93 ~> St 512; 97 -- 102 ~> St 398]);
   (398, plain [58 ~> St 333; 93 ~> St 512]);
   (399, plain [46 ~> St 294; 48 -- 57 ~> St 400; 58 ~> St 333; 65 -- 70 ~> St 396; 93 ~> St 512; 97 -- 102 ~> St 396]);
   (400, plain [46 ~> St 294; 48 -- 57 ~> St 401; 58 ~> St 333; 65 -- 70 ~> St 397; 93 ~> St 512; 97 -- 102 ~> St 397])].

Definition uri_states_64 : part action := mkPart
  []
  [(401, plain [46 ~> St 294; 48 -- 57 ~> St 398; 58 ~> St 333; 65 -- 70 ~> St 398; 93 ~> St 512; 97 -- 102 ~> St 398]);
   (402, plain [46 ~> St 294; 48 -- 52 ~> St 403; 53 ~> St 404; 54 -- 57 ~> St 403; 58 ~> St 333; 65 -- 70 ~> St 396;
        93 ~> St 512; 97 -- 102 ~> St 396]);
   (403, plain [46 ~> St 294; 48 -- 57 ~> St 397; 58 ~> St 333; 65 -- 70 ~> St 397; 93 ~> St 512; 97 -- 102 ~> St 397]);
   (404, plain [46 ~> St 294; 48 -- 53 ~> St 401; 54 -- 57 ~> St 397; 58 ~> St 333; 65 -- 70 ~> St 397; 93 ~> St 512;
        97 -- 102 ~> St 397]);
   (405, plain [46 ~> St 294; 48 -- 57 ~> St 403; 58 ~> St 333; 65 -- 70 ~> St 396; 93 ~> St 512; 97 -- 102 ~> St 396]);
   (406, plain [48 -- 57 ~> St 396; 58 ~> St 333; 65 -- 70 ~> St 396; 93 ~> St 512; 97 -- 102 ~> St 396]);
   (407, plain [46 ~> St 294; 48 -- 57 ~> St 408; 58 ~> St 394; 65 -- 70 ~> St 391; 93 ~> St 512; 97 -- 102 ~> St 391])].

Definition uri_states_65 : part action := mkPart
  []
  [(408, plain [46 ~> St 294; 48 -- 57 ~> St 409; 58 ~> St 394; 65 -- 70 ~> St 392; 93 ~> St 512; 97 -- 102 ~> St 392]);
   (409, plain [46 ~> St 294; 48 -- 57 ~> St 393; 58 ~> St 394; 65 -- 70 ~> St 393; 93 ~> St 512; 97 -- 102 ~> St 393]);
   (410, plain [46 ~> St 294; 48 -- 52 ~> St 411; 53 ~> St 412; 54 -- 57 ~> St 411; 58 ~> St 394; 65 -- 70 ~> St 391;
        93 ~> St 512; 97 -- 102 ~> St 391]);
   (411, plain [46 ~> St 294; 48 -- 57 ~> St 392; 58 ~> St 394; 65 -- 70 ~> St 392; 93 ~> St 512; 97 -- 102 ~> St 392]);
   (412, plain [46 ~> St 294; 48 -- 53 ~> St 409; 54 -- 57 ~> St 392; 58 ~> St 394; 65 -- 70 ~> St 392; 93 ~> St 512;
        97 -- 102 ~> St 392]);
   (413, plain [46 ~> St 294; 48 -- 57 ~> St 411; 58 ~> St 394; 65 -- 70 ~> St 391; 93 ~> St 512; 97 -- 102 ~> St 391]);
   (414, plain [48 -- 57 ~> St 391; 58 ~> St 394; 65 -- 70 ~> St 391; 93 ~> St 512; 97 -- 102 ~> St 391])].

Definition uri_states_66 : part action := mkPart
  []
  [(415, plain [46 ~> St 294; 48 -- 57 ~> St 416; 58 ~> St 389; 65 -- 70 ~> St 386; 93 ~> St 512; 97 -- 102 ~> St 386]);
   (416, plain [46 ~> St 294; 48 -- 57 ~> St 417; 58 ~> St 389; 65 -- 70 ~> St 387; 93 ~> St 512; 97 -- 102 ~> St 387]);
   (417, plain [46 ~> St 294; 48 -- 57 ~> St 388; 58 ~> St 389; 65 -- 70 ~> St 388; 93 ~> St 512; 97 -- 102 ~> St 388]);
   (418, plain [46 ~> St 294; 48 -- 52 ~> St 419; 53 ~> St 420; 54 -- 57 ~> St 419; 58 ~> St 389; 65 -- 70 ~> St 386;
        93 ~> St 512; 97 -- 102 ~> St 386]);
   (419, plain [46 ~> St 294; 48 -- 57 ~> St 387; 58 ~> St 389; 65 -- 70 ~> St 387; 93 ~> St 512; 97 -- 102 ~> St 387]);
   (420, plain [46 ~> St 294; 48 -- 53 ~> St 417; 54 -- 57 ~> St 387; 58 ~> St 389; 65 -- 70 ~> St 387; 93 ~> St 512;
        97 -- 102 ~> St 387]);
   (421, plain [46 ~> St 294; 48 -- 57 ~> St 419; 58 ~> St 389; 65 -- 70 ~> St 386; 93 ~> St 512; 97 -- 102 ~> St 386])].

Definition uri_states_67 : part action := mkPart
  []
  [(422, plain [48 -- 57 ~> St 386; 58 ~> St 389; 65 -- 70 ~> St 386; 93 ~> St 512; 97 -- 102 ~> St 386]);
   (423, plain [46 ~> St 294; 48 -- 57 ~> St 424; 58 ~> St 384; 65 -- 70 ~> St 381; 93 ~> St 512; 97 -- 102 ~> St 381]);
   (424, plain [46 ~> St 294; 48 -- 57 ~> St 425; 58 ~> St 384; 65 -- 70 ~> St 382; 93 ~> St 512; 97 -- 102 ~> St 382]);
   (425, plain [46 ~> St 294; 48 -- 57 ~> St 383; 58 ~> St 384; 65 -- 70 ~> St 383; 93 ~> St 512; 97 -- 102 ~> St 383]);
   (426, plain [46 ~> St 294; 48 -- 52 ~> St 427; 53 ~> St 428; 54 -- 57 ~> St 427; 58 ~> St 384; 65 -- 70 ~> St 381;
        93 ~> St 512; 97 -- 102 ~> St 381]);
   (427, plain [46 ~> St 294; 48 -- 57 ~> St 382; 58 ~> St 384; 65 -- 70 ~> St 382; 93 ~> St 512; 97 -- 102 ~> St 382]);
   (428, plain [46 ~> St 294; 48 -- 53 ~> St 425; 54 -- 57 ~> St 382; 58 ~> St 384; 65 -- 70 ~> St 382; 93 ~> St 512;
        97 -- 102 ~> St 382])].

Definition uri_states_68 : part action := mkPart
  []
  [(429, plain [46 ~> St 294; 48 -- 57 ~> St 427; 58 ~> St 384; 65 -- 70 ~> St 381; 93 ~> St 512; 97 -- 102 ~> St 381]);
   (430, plain [48 -- 57 ~> St 381; 58 ~> St 384; 65 -- 70 ~> St 381; 93 ~> St 512; 97 -- 102 ~> St 381]);
   (431, plain [46 ~> St 294; 48 -- 57 ~> St 432; 58 ~> St 379; 65 -- 70 ~> St 376; 93 ~> St 512; 97 -- 102 ~> St 376]);
   (432, plain [46 ~> St 294; 48 -- 57 ~> St 433; 58 ~> St 379; 65 -- 70 ~> St 377; 93 ~> St 512; 97 -- 102 ~> St 377]);
   (433, plain [46 ~> St 294; 48 -- 57 ~> St 378; 58 ~> St 379; 65 -- 70 ~> St 378; 93 ~> St 512; 97 -- 102 ~> St 378]);
   (434, plain [46 ~> St 294; 48 -- 52 ~> St 435; 53 ~> St 436; 54 -- 57 ~> St 435; 58 ~> St 379; 65 -- 70 ~> St 376;
        93 ~> St 512; 97 -- 102 ~> St 376]);
   (435, plain [46 ~> St 294; 48 -- 57 ~> St 377; 58 ~> St 379; 65 -- 70 ~> St 377; 93 ~> St 512; 97 -- 102 ~> St 377])].

Definition uri_states_69 : part action := mkPart
  []
  [(436, plain [46 ~> St 294; 48 -- 53 ~> St 433; 54 -- 57 ~> St 377; 58 ~> St 379; 65 -- 70 ~> St 377; 93 ~> St 512;
        97 -- 102 ~> St 377]);
   (437, plain [46 ~> St 294; 48 -- 57 ~> St 435; 58 ~> St 379; 65 -- 70 ~> St 376; 93 ~> St 512; 97 -- 102 ~> St 376]);
   (438, plain [48 -- 57 ~> St 376; 58 ~> St 379; 65 -- 70 ~> St 376; 93 ~> St 512; 97 -- 102 ~> St 376]);
   (439, plain [46 ~> St 294; 48 -- 57 ~> St 440; 58 ~> St 374; 65 -- 70 ~> St 371; 93 ~> St 512; 97 -- 102 ~> St 371]);
   (440, plain [46 ~> St 294; 48 -- 57 ~> St 441; 58 ~> St 374; 65 -- 70 ~> St 372; 93 ~> St 512; 97 -- 102 ~> St 372]);
   (441, plain [46 ~> St 294; 48 -- 57 ~> St 373; 58 ~> St 374; 65 -- 70 ~> St 373; 93 ~> St 512; 97 -- 102 ~> St 373]);
   (442, plain [46 ~> St 294; 48 -- 52 ~> St 443; 53 ~> St 444; 54 -- 57 ~> St 443; 58 ~> St 374; 65 -- 70 ~> St 371;
        93 ~> St 512; 97 -- 102 ~> St 371])].

Definition uri_states_70 : part action := mkPart
  []
  [(443, plain [46 ~> St 294; 48 -- 57 ~> St 372; 58 ~> St 374; 65 -- 70 ~> St 372; 93 ~> St 512; 97 -- 102 ~> St 372]);
   (444, plain [46 ~> St 294; 48 -- 53 ~> St 441; 54 -- 57 ~> St 372; 58 ~> St 374; 65 -- 70 ~> St 372; 93 ~> St 512;
        97 -- 102 ~> St 372]);
   (445, plain [46 ~> St 294; 48 -- 57 ~> St 443; 58 ~> St 374; 65 -- 70 ~> St 371; 93 ~> St 512; 97 -- 102 ~> St 371]);
   (446, plain [48 -- 57 ~> St 371; 58 ~> St 374; 65 -- 70 ~> St 371; 93 ~> St 512; 97 -- 102 ~> St 371]);
   (447, plain [48 -- 57 ~> St 448; 65 -- 70 ~> St 448; 97 -- 102 ~> St 448]);
   (448, plain [46 ~> St 449; 48 -- 57 ~> St 448; 65 -- 70 ~> St 448; 97 -- 102 ~> St 448]);
   (449, plain [33 ~> St 450; 36 ~> St 450; 38 -- 46 ~> St 450; 48 -- 59 ~> St 450; 61 ~> St 450; 65 -- 90 ~> St 450;
        95 ~> St 450; 97 -- 122 ~> St 450; 126 ~> St 450])].

Definition uri_states_71 : part action := mkPart
  [(577, go [mark] 542); (551, go [mark] 543)]
  [(450, plain [33 ~> St 450; 36 ~> St 450; 38 -- 46 ~> St 450; 48 -- 59 ~> St 450; 61 ~> St 450; 65 -- 90 ~> St 450;
        93 ~> St 512; 95 ~> St 450; 97 -- 122 ~> St 450; 126 ~> St 450]);
   (542, plain [33 ~> St 255; 35 ~> Tr 570; 36 ~> St 255; 37 ~> St 256; 38 -- 46 ~> St 255; 47 ~> Tr 571;
        48 -- 57 ~> St 542; 58 -- 59 ~> St 255; 61 ~> St 255; 63 ~> Tr 573; 64 ~> Tr 263; 65 -- 90 ~> St 255;
        95 ~> St 255; 97 -- 122 ~> St 255; 126 ~> St 255]);
   (543, plain [33 ~> St 520; 35 ~> Tr 559; 36 ~> St 520; 37 ~> St 253; 38 -- 45 ~> St 520; 46 ~> St 544; 47 ~> Tr 560;
        48 -- 57 ~> St 520; 58 ~> Tr 576; 59 ~> St 520; 61 ~> St 520; 63 ~> Tr 562; 64 ~> Tr 263;
        65 -- 90 ~> St 520; 95 ~> St 520; 97 -- 122 ~> St 520; 126 ~> St 520]);
   (544, plain [2 ~> St 233; 33 ~> St 520; 35 ~> Tr 559; 36 ~> St 520; 37 ~> St 253; 38 -- 46 ~> St 520; 47 ~> Tr 560;
        48 ~> St 545; 49 ~> St 553; 50 ~> St 555; 51 -- 57 ~> St 554; 58 ~> Tr 576; 59 ~> St 520; 61 ~> St 520;
        63 ~> Tr 562; 64 ~> Tr 263; 65 -- 90 ~> St 520; 95 ~> St 520; 97 -- 122 ~> St 520; 126 ~> St 520])].

Definition uri_states_72 : part action := mkPart
  []
  [(545, plain [33 ~> St 520; 35 ~> Tr 559; 36 ~> St 520; 37 ~> St 253; 38 -- 45 ~> St 520; 46 ~> St 546; 47 ~> Tr 560;
        48 -- 57 ~> St 520; 58 ~> Tr 576; 59 ~> St 520; 61 ~> St 520; 63 ~> Tr 562; 64 ~> Tr 263;
        65 -- 90 ~> St 520; 95 ~> St 520; 97 -- 122 ~> St 520; 126 ~> St 520]);
   (546, plain [2 ~> St 237; 33 ~> St 520; 35 ~> Tr 559; 36 ~> St 520; 37 ~> St 253; 38 -- 46 ~> St 520; 47 ~> Tr 560;
        48 ~> St 547; 49 ~> St 549; 50 ~> St 551; 51 -- 57 ~> St 550; 58 ~> Tr 576; 59 ~> St 520; 61 ~> St 520;
        63 ~> Tr 562; 64 ~> Tr 263; 65 -- 90 ~> St 520; 95 ~> St 520; 97 -- 122 ~> St 520; 126 ~> St 520]);
   (547, plain [33 ~> St 520; 35 ~> Tr 559; 36 ~> St 520; 37 ~> St 253; 38 -- 45 ~> St 520; 46 ~> St 548; 47 ~> Tr 560;
        48 -- 57 ~> St 520; 58 ~> Tr 576; 59 ~> St 520; 61 ~> St 520; 63 ~> Tr 562; 64 ~> Tr 263;
        65 -- 90 ~> St 520; 95 ~> St 520; 97 -- 122 ~> St 520; 126 ~> St 520]);
   (548, plain [2 ~> St 241; 33 ~> St 520; 35 ~> Tr 559; 36 ~> St 520; 37 ~> St 253; 38 -- 46 ~> St 520; 47 ~> Tr 560;
        48 -- 57 ~> St 520; 58 ~> Tr 576; 59 ~> St 520; 61 ~> St 520; 63 ~> Tr 562; 64 ~> Tr 263;
        65 -- 90 ~> St 520; 95 ~> St 520; 97 -- 122 ~> St 520; 126 ~> St 520]);
   (549, plain [33 ~> St 520; 35 ~> Tr 559; 36 ~> St 520; 37 ~> St 253; 38 -- 45 ~> St 520; 46 ~> St 548; 47 ~> Tr 560;
        48 -- 57 ~> St 550; 58 ~> Tr 576; 59 ~> St 520; 61 ~> St 520; 63 ~> Tr 562; 64 ~> Tr 263;
        65 -- 90 ~> St 520; 95 ~> St 520; 97 -- 122 ~> St 520; 126 ~> St 520])].

Definition uri_states_73 : part action := mkPart
  []
  [(550, plain [33 ~> St 520; 35 ~> Tr 559; 36 ~> St 520; 37 ~> St 253; 38 -- 45 ~> St 520; 46 ~> St 548; 47 ~> Tr 560;
        48 -- 57 ~> St 547; 58 ~> Tr 576; 59 ~> St 520; 61 ~> St 520; 63 ~> Tr 562; 64 ~> Tr 263;
        65 -- 90 ~> St 520; 95 ~> St 520; 97 -- 122 ~> St 520; 126 ~> St 520]);
   (551, plain [33 ~> St 520; 35 ~> Tr 559; 36 ~> St 520; 37 ~> St 253; 38 -- 45 ~> St 520; 46 ~> St 548; 47 ~> Tr 560;
        48 -- 52 ~> St 547; 53 ~> St 552; 54 -- 57 ~> St 547; 58 ~> Tr 576; 59 ~> St 520; 61 ~> St 520;
        63 ~> Tr 562; 64 ~> Tr 263; 65 -- 90 ~> St 520; 95 ~> St 520; 97 -- 122 ~> St 520; 126 ~> St 520]);
   (552, plain [33 ~> St 520; 35 ~> Tr 559; 36 ~> St 520; 37 ~> St 253; 38 -- 45 ~> St 520; 46 ~> St 548; 47 ~> Tr 560;
        48 -- 53 ~> St 547; 54 -- 57 ~> St 520; 58 ~> Tr 576; 59 ~> St 520; 61 ~> St 520; 63 ~> Tr 562;
        64 ~> Tr 263; 65 -- 90 ~> St 520; 95 ~> St 520; 97 -- 122 ~> St 520; 126 ~> St 520]);
   (553, plain [33 ~> St 520; 35 ~> Tr 559; 36 ~> St 520; 37 ~> St 253; 38 -- 45 ~> St 520; 46 ~> St 546; 47 ~> Tr 560;
        48 -- 57 ~> St 554; 58 ~> Tr 576; 59 ~> St 520; 61 ~> St 520; 63 ~> Tr 562; 64 ~> Tr 263;
        65 -- 90 ~> St 520; 95 ~> St 520; 97 -- 122 ~> St 520; 126 ~> St 520])].

Definition uri_states_74 : part action := mkPart
  [(552, go [mark] 557); (554, go [mark] 558)]
  [(554, plain [33 ~> St 520; 35 ~> Tr 559; 36 ~> St 520; 37 ~> St 253; 38 -- 45 ~> St 520; 46 ~> St 546; 47 ~> Tr 560;
        48 -- 57 ~> St 545; 58 ~> Tr 576; 59 ~> St 520; 61 ~> St 520; 63 ~> Tr 562; 64 ~> Tr 263;
        65 -- 90 ~> St 520; 95 ~> St 520; 97 -- 122 ~> St 520; 126 ~> St 520]);
   (555, plain [33 ~> St 520; 35 ~> Tr 559; 36 ~> St 520; 37 ~> St 253; 38 -- 45 ~> St 520; 46 ~> St 546; 47 ~> Tr 560;
        48 -- 52 ~> St 545; 53 ~> St 556; 54 -- 57 ~> St 545; 58 ~> Tr 576; 59 ~> St 520; 61 ~> St 520;
        63 ~> Tr 562; 64 ~> Tr 263; 65 -- 90 ~> St 520; 95 ~> St 520; 97 -- 122 ~> St 520; 126 ~> St 520]);
   (556, plain [33 ~> St 520; 35 ~> Tr 559; 36 ~> St 520; 37 ~> St 253; 38 -- 45 ~> St 520; 46 ~> St 546; 47 ~> Tr 560;
        48 -- 53 ~> St 545; 54 -- 57 ~> St 520; 58 ~> Tr 576; 59 ~> St 520; 61 ~> St 520; 63 ~> Tr 562;
        64 ~> Tr 263; 65 -- 90 ~> St 520; 95 ~> St 520; 97 -- 122 ~> St 520; 126 ~> St 520]);
   (557, plain [33 ~> St 520; 35 ~> Tr 559; 36 ~> St 520; 37 ~> St 253; 38 -- 45 ~> St 520; 46 ~> St 544; 47 ~> Tr 560;
        48 -- 57 ~> St 558; 58 ~> Tr 576; 59 ~> St 520; 61 ~> St 520; 63 ~> Tr 562; 64 ~> Tr 263;
        65 -- 90 ~> St 520; 95 ~> St 520; 97 -- 122 ~> St 520; 126 ~> St 520])].

Definition uri_states_75 : part action := mkPart
  [(553, go [mark] 559)]
  [(558, plain [33 ~> St 520; 35 ~> Tr 559; 36 ~> St 520; 37 ~> St 253; 38 -- 45 ~> St 520; 46 ~> St 544; 47 ~> Tr 560;
        48 -- 57 ~> St 543; 58 ~> Tr 576; 59 ~> St 520; 61 ~> St 520; 63 ~> Tr 562; 64 ~> Tr 263;
        65 -- 90 ~> St 520; 95 ~> St 520; 97 -- 122 ~> St 520; 126 ~> St 520]);
   (559, plain [33 ~> St 520; 35 ~> Tr 559; 36 ~> St 520; 37 ~> St 253; 38 -- 45 ~> St 520; 46 ~> St 544; 47 ~> Tr 560;
        48 -- 52 ~> St 543; 53 ~> St 560; 54 -- 57 ~> St 543; 58 ~> Tr 576; 59 ~> St 520; 61 ~> St 520;
        63 ~> Tr 562; 64 ~> Tr 263; 65 -- 90 ~> St 520; 95 ~> St 520; 97 -- 122 ~> St 520; 126 ~> St 520]);
   (560, plain [33 ~> St 520; 35 ~> Tr 559; 36 ~> St 520; 37 ~> St 253; 38 -- 45 ~> St 520; 46 ~> St 544; 47 ~> Tr 560;
        48 -- 53 ~> St 543; 54 -- 57 ~> St 520; 58 ~> Tr 576; 59 ~> St 520; 61 ~> St 520; 63 ~> Tr 562;
        64 ~> Tr 263; 65 -- 90 ~> St 520; 95 ~> St 520; 97 -- 122 ~> St 520; 126 ~> St 520])].

Definition uri_table : list (part action) :=
  [uri_states_1; uri_states_2; uri_states_3; uri_states_4; uri_states_5; uri_states_6; uri_states_7;
   uri_states_8; uri_states_9; uri_states_10; uri_states_11; uri_states_12; uri_states_13; uri_states_14;
   uri_states_15; uri_states_16; uri_states_17; uri_states_18; uri_states_19; uri_states_20; uri_states_21;
   uri_states_22; uri_states_23; uri_states_24; uri_states_25; uri_states_26; uri_states_27; uri_states_28;
   uri_states_29; uri_states_30; uri_states_31; uri_states_32; uri_states_33; uri_states_34; uri_states_35;
   uri_states_36; uri_states_37; uri_states_38; uri_states_39; uri_states_40; uri_states_41; uri_states_42;
   uri_states_43; uri_states_44; uri_states_45; uri_states_46; uri_states_47; uri_states_48; uri_states_49;
   uri_states_50; uri_states_51; uri_states_52; uri_states_53; uri_states_54; uri_states_55; uri_states_56;
   uri_states_57; uri_states_58; uri_states_59; uri_states_60; uri_states_61; uri_states_62; uri_states_63;
   uri_states_64; uri_states_65; uri_states_66; uri_states_67; uri_states_68; uri_states_69; uri_states_70;
   uri_states_71; uri_states_72; uri_states_73; uri_states_74; uri_states_75].

(** The actions at the end of the text, by the state. *)
Definition uri_eof : list (list Z * list action) :=
  [([462; 489],
    [save_port]);
   ([460; 463; 464; 465; 466; 467; 470; 471; 472; 473; 474; 475; 476; 477; 478; 479; 480; 481; 482; 483; 484;
    485; 486; 487; 488; 490; 491; 492; 493; 494; 495; 496; 497; 498; 499; 500; 501; 502; 503; 504; 505; 506;
    507],
    [save_host]);
   ([513],
    [save_path]);
   ([457],
    [save_query]);
   ([454],
    [save_fragment]);
   ([456],
    [mark; save_query]);
   ([453],
    [mark; save_fragment]);
   ([461; 468],
    [mark; save_port]);
   ([459; 469],
    [mark; save_host]);
   ([514; 521],
    [mark; save_port; save_path]);
   ([511; 522],
    [mark; save_host; save_path]);
   ([515; 542],
    [save_port; mark; save_path]);
   ([512; 516; 517; 518; 519; 520; 523; 524; 525; 526; 527; 528; 529; 530; 531; 532; 533; 534; 535; 536; 537;
    538; 539; 540; 541; 543; 544; 545; 546; 547; 548; 549; 550; 551; 552; 553; 554; 555; 556; 557; 558; 559;
    560],
    [save_host; mark; save_path])].
