(* ===== verification/Uri.v ===== *)
(** * URIs: [http/uri.rl]

    [Uri::Create] around the automaton of [UriScanner.v], the accessors and the
    printing. *)
From stdpp Require Import list sets.
From S2P Require Import Prelude CLib Ragel UriScanner HttpTypes Http HttpMessages.
Local Open Scope Z_scope.

(** ** Data *)

Record Uri := mkUri {
  scheme_ : bytes;
  userinfo_ : bytes;
  host_ : bytes;
  uri_path_ : bytes;
  uri_query_ : bytes;
  uri_fragment_ : bytes;
  port_ : Z
}.
Definition new_Uri : Uri := mkUri [] [] [] [] [] [] 0.

Definition SetScheme v u := mkUri v (userinfo_ u) (host_ u) (uri_path_ u) (uri_query_ u) (uri_fragment_ u) (port_ u).
Definition SetUserinfo v u := mkUri (scheme_ u) v (host_ u) (uri_path_ u) (uri_query_ u) (uri_fragment_ u) (port_ u).
Definition SetHost v u := mkUri (scheme_ u) (userinfo_ u) v (uri_path_ u) (uri_query_ u) (uri_fragment_ u) (port_ u).
Definition uri_SetPath v u := mkUri (scheme_ u) (userinfo_ u) (host_ u) v (uri_query_ u) (uri_fragment_ u) (port_ u).
Definition uri_SetQuery v u := mkUri (scheme_ u) (userinfo_ u) (host_ u) (uri_path_ u) v (uri_fragment_ u) (port_ u).
Definition uri_SetFragment v u := mkUri (scheme_ u) (userinfo_ u) (host_ u) (uri_path_ u) (uri_query_ u) v (port_ u).
Definition SetPort v u := mkUri (scheme_ u) (userinfo_ u) (host_ u) (uri_path_ u) (uri_query_ u) (uri_fragment_ u) v.

(** ** Parsing *)

(** [mark], an offset or null, and the URI; [None] when a string was made from a null
    pointer, for which [std::string] throws an exception of its own ([logic_error]). *)
Definition store : Type := option (option Z * Uri).

Definition text_at (data : bytes) (m p : Z) : bytes := take (Z.to_nat (p - m)) (drop (Z.to_nat m) data).
(** [uri->Set(std::string(mark, fpc - mark))]; the length of the text from a null
    pointer is not 0. *)
Definition save (data : bytes) (set : bytes → Uri → Uri) (p : Z) (mark : option Z) (u : Uri) : option Uri :=
  m ← mark; Some (set (text_at data m p) u).

Definition act (data : bytes) (a : action) (p : Z) (s : store) : store :=
  '(m, u) ← s;
  match a with
  | mark => Some (Some p, u)
  | save_scheme => u ← save data SetScheme p m u; Some (None, u)
  | save_port =>
    match m with
    | None => None
    | Some k => Some (None, if p =? k then u else SetPort (atoi (drop (Z.to_nat k) data)) u)
    end
  | save_userinfo => Some (None, match m with Some k => SetUserinfo (text_at data k p) u | None => u end)
  | save_host => Some (m, match m with Some k => SetHost (text_at data k p) u | None => u end)
  | save_path => u ← save data uri_SetPath p m u; Some (None, u)
  | save_query => u ← save data uri_SetQuery p m u; Some (None, u)
  | save_fragment => u ← save data uri_SetFragment p m u; Some (None, u)
  end.

Definition uri_parser_start : Z := 451.
Definition uri_parser_first_final : Z := 451.
Definition uri_parser_error : Z := 0.

(** The actions at the end of the text. *)
Definition eof_actions (cs : Z) : list action :=
  default [] (snd <$> find (λ r, bool_decide (cs ∈ r.1)) uri_eof).

Definition Create (uristr : bytes) : result unit (option Uri) :=
  let '(cs, p, s, out) := exec uri_table id (act uristr) (λ _, false) uri_parser_start 0 uristr (Some (None, new_Uri)) in
  let s := if out : bool then s else run_actions (act uristr) (eof_actions cs) p s in
  match s with
  | None => Undef null_deref
  | Some (_, u) => Ret (if (cs =? uri_parser_error) || (cs <? uri_parser_first_final) then None else Some u) tt
  end.

(** ** The accessors *)

Definition IsDefaultPort (u : Uri) : bool :=
  if port_ u =? 0 then true
  else if bool_decide (scheme_ u = bs "http") || bool_decide (scheme_ u = bs "ws") then port_ u =? 80
  else if bool_decide (scheme_ u = bs "https") || bool_decide (scheme_ u = bs "wss") then port_ u =? 443
  else false.

Definition uri_GetPath (u : Uri) : bytes := if bool_decide (uri_path_ u = []) then bs "/" else uri_path_ u.

Definition GetPort (u : Uri) : Z :=
  if negb (port_ u =? 0) then port_ u
  else if bool_decide (scheme_ u = bs "http") || bool_decide (scheme_ u = bs "ws") then 80
  else if bool_decide (scheme_ u = bs "https") || bool_decide (scheme_ u = bs "wss") then 443
  else port_ u.

(** [std::to_string] of an [int32_t]. *)
Definition to_string (v : Z) : bytes := (if v <? 0 then bs "-" else []) ++ dec (Z.to_N (Z.abs v)).

Definition uri_ToString (u : Uri) : bytes :=
  scheme_ u ++ bs "://" ++ userinfo_ u ++ (if bool_decide (userinfo_ u = []) then [] else bs "@") ++ host_ u
    ++ (if IsDefaultPort u then [] else bs ":" ++ to_string (port_ u))
    ++ uri_GetPath u ++ prefixed (bs "?") (uri_query_ u) ++ prefixed (bs "#") (uri_fragment_ u).
