(* ===== verification/LocalAddress.v ===== *)
(** * The address of a URI and of this host: [Uri::CreateAddress] and [GetIPv4Inet]

    Two clients of the addresses of [Address.v]: the address a URI names, by the resolver,
    and the address of this host ([util.cc]), from the list of its interfaces. *)
From stdpp Require Import list.
From S2P Require Import Prelude Strings ByteBuffer ByteCodec Address Uri.
Local Open Scope Z_scope.

Section local.
Context `{HostOrder}.

(** ** Uri::CreateAddress *)

Variable getaddrinfo : bytes → option bytes → Z * Z * Z → option (list object).

(** The defaults of [LookupAnyIPAddress] are [AF_INET], and no type and protocol; the port
    is converted to [uint16_t]. *)
Definition CreateAddress (u : Uri) : option Address :=
  addr ← LookupAnyIPAddress getaddrinfo (host_ u) AF_INET 0 0;
  Address.SetPort (u16 (GetPort u)) addr.

Definition port_of (a : Address) : Z :=
  match a with IPv4Address i => IPv4_GetPort i | IPv6Address i => IPv6_GetPort i | _ => 0 end.

(** ** GetIPv4Inet *)

(** [inet_addr("127.0.0.1")], in the byte order of the network. *)
Definition localhost : Z := object_value (map byte.of_Z [127; 0; 0; 1]).

(** [sin_addr.s_addr] of [ifa_addr] taken for a [sockaddr_in]: the four bytes behind the first
    four of whatever object this is. *)
Definition sin_addr_of (o : object) : Z :=
  match o with
  | of_in a => s_addr a
  | of_in6 a => sin6_flowinfo a
  | of_any a => object_value (slice 2 4 (sa_data a))
  end.

(** [strncasecmp(name, "lo", 2) == 0]. *)
Definition is_lo (name : bytes) : bool := bool_decide (take 2 (ToLower (c_str name)) = bs "lo").

(** The loop ends at the end of the list or at the first entry without an address. *)
Fixpoint GetIPv4_loop (ifa : list ifaddrs) (ipv4 : Z) : Z :=
  match ifa with
  | [] => ipv4
  | e :: ifa =>
    match ifa_addr e with
    | None => ipv4
    | Some a =>
      if negb (object_family a =? AF_INET) then GetIPv4_loop ifa ipv4
      else if is_lo (ifa_name e) then GetIPv4_loop ifa ipv4
      else let ipv4 := sin_addr_of a in
        if ipv4 =? localhost then GetIPv4_loop ifa ipv4 else GetIPv4_loop ifa ipv4
    end
  end.

Definition GetIPv4Inet (getifaddrs : option (list ifaddrs)) : Z :=
  match getifaddrs with None => localhost | Some ifas => GetIPv4_loop ifas localhost end.

(** ** Properties *)

Lemma swap16_twice v : in_u 16 v → ByteswapOnLittleEndian 2 u16 (ByteswapOnLittleEndian 2 u16 v) = v.
Proof.
  intros Hv. unfold ByteswapOnLittleEndian. destruct YGW_BYTE_ORDER; [|done]. unfold Byteswap.
  change 16 with (8 * Z.of_nat 2) in *.
  assert (∀ x, bswap 2 (wrap (8 * Z.of_nat 2) x) = bswap 2 x) as Hw by (intros x; unfold bswap; by rewrite le_split_wrap).
  rewrite Hw, bswap_bswap, wrap_idemp by lia. by apply wrap_small.
Qed.

(** The address made of a URI is the first address of the IPv4 protocol that the
    resolver has for its host, with the port of the URI, or the one its scheme stands for,
    but for what does not fit into 16 bits: that is cut off. *)
Theorem CreateAddress_port (u : Uri) (a : Address) : CreateAddress u = Some a →
  port_of a = u16 (GetPort u) ∧ ∃ os o i, getaddrinfo (c_str (split_host (host_ u)).1)
    (service_text (host_ u) (split_host (host_ u)).2) (AF_INET, 0, 0) = Some os ∧ o ∈ os ∧
    Address.Create (Some o) = Some i ∧ is_ip i = true ∧ Address.SetPort (u16 (GetPort u)) i = Some a.
Proof.
  unfold CreateAddress, LookupAnyIPAddress, Lookup. intros Hc. apply bind_Some in Hc as (i & Hl & Hs).
  destruct (split_host (host_ u)) as [node service]. cbn [fst snd].
  destruct (getaddrinfo _ _ _) as [os|]; [|done]. cbn [app] in Hl.
  destruct (negb (bool_decide (omap _ os = []))); [|done]. apply find_some in Hl as [Hin Hip].
  apply list_elem_of_In, list_elem_of_omap in Hin as (o & Ho & Hco). split; [|by exists os, o, i].
  destruct i; try done; injection Hs as <-; cbn; (apply swap16_twice, wrap_range; lia).
Qed.

(** Entries that do not change the address: of another family, or called like the loopback. *)
Definition passed (e : ifaddrs) : Prop := ∃ a, ifa_addr e = Some a ∧ (object_family a ≠ AF_INET ∨ is_lo (ifa_name e) = true).
Definition usable (e : ifaddrs) (a : object) : Prop := ifa_addr e = Some a ∧ object_family a = AF_INET ∧ is_lo (ifa_name e) = false.

Lemma GetIPv4_passed es v rest : Forall passed es → GetIPv4_loop (es ++ rest) v = GetIPv4_loop rest v.
Proof.
  induction 1 as [|e es (a & Ha & Hf) _ IH]; [done|]. cbn [app GetIPv4_loop]. rewrite Ha.
  destruct (Z.eqb_spec (object_family a) AF_INET); cbn [negb]; [|done]. destruct Hf as [|Hl]; [done|]. by rewrite Hl.
Qed.

Lemma GetIPv4_usable e a es v : usable e a → GetIPv4_loop (e :: es) v = GetIPv4_loop es (sin_addr_of a).
Proof. intros (Ha & Hf & Hl). cbn [GetIPv4_loop]. rewrite Ha, Hf, Hl. cbn. by case_match. Qed.

(** The address of this host is that of the last usable interface, not of the first: a
    usable interface takes the place of all in front of it, even when its address is that
    of the loopback; and whatever follows an interface without an address is not looked
    at. *)
Theorem last_interface_wins (front back : list ifaddrs) (e : ifaddrs) (a : object) (hole : ifaddrs) (rest : list ifaddrs) :
  Forall (λ e, is_Some (ifa_addr e)) front → usable e a → Forall passed back → ifa_addr hole = None →
  GetIPv4Inet (Some (front ++ e :: back)) = sin_addr_of a ∧
  GetIPv4Inet (Some (front ++ e :: back ++ hole :: rest)) = sin_addr_of a ∧
  GetIPv4Inet (Some (back ++ hole :: rest)) = localhost.
Proof.
  intros Hf He Hb Hh. unfold GetIPv4Inet.
  assert (∀ v tail, ∃ w, GetIPv4_loop (front ++ tail) v = GetIPv4_loop tail w) as Hfront.
  { clear He Hb. induction Hf as [|x front [o Ho] _ IH]; intros v tail; [by exists v|]. cbn [app GetIPv4_loop]. rewrite Ho.
    repeat case_match; apply IH. }
  assert (∀ v, GetIPv4_loop (back ++ hole :: rest) v = v) as Hhole by (intros v; rewrite GetIPv4_passed by done; cbn; by rewrite Hh).
  split_and!; [| |apply Hhole].
  - destruct (Hfront localhost (e :: back)) as (w & ->). rewrite (GetIPv4_usable _ _ _ _ He).
    rewrite <- (app_nil_r back). by rewrite GetIPv4_passed.
  - destruct (Hfront localhost (e :: back ++ hole :: rest)) as (w & ->). by rewrite (GetIPv4_usable _ _ _ _ He), Hhole.
Qed.
End local.

(** *** Examples *)

(** A resolver that knows one host. *)
Definition one_host (node : bytes) (_ : option bytes) (_ : Z * Z * Z) : option (list object) :=
  if bool_decide (node = bs "db") then Some [of_in (mkIn AF_INET 0 167772161 [])] else None.

(** Port 65616 of a URI is port 80. *)
Lemma CreateAddress_port_witness : ∃ a,
  CreateAddress (H := YGW_BIG_ENDIAN) one_host (mkUri (bs "tcp") [] (bs "db") [] [] [] 65616) = Some a ∧ port_of (H := YGW_BIG_ENDIAN) a = 80.
Proof.
  eexists. split; [vm_compute; reflexivity|].
  refine (eq_trans (proj1 (CreateAddress_port (H := YGW_BIG_ENDIAN) one_host (mkUri (bs "tcp") [] (bs "db") [] [] [] 65616) _ _)) _);
    vm_compute; reflexivity.
Defined.

Definition iface (name : bytes) (v : Z) : ifaddrs := mkIf name (Some (of_in (mkIn AF_INET 0 v []))) None.
Lemma last_interface_wins_witness :
  GetIPv4Inet (H := YGW_BIG_ENDIAN) (Some [iface (bs "lo") 0x7F000001; iface (bs "eth0") 0xC0A80002; iface (bs "docker0") 0xAC110001]) = 0xAC110001 ∧
  GetIPv4Inet (H := YGW_BIG_ENDIAN) (Some [mkIf (bs "ppp0") None None; iface (bs "eth0") 0xC0A80002]) = 0x7F000001.
Proof.
  split.
  - refine (proj1 (last_interface_wins (H := YGW_BIG_ENDIAN) [iface (bs "lo") 0x7F000001; iface (bs "eth0") 0xC0A80002] []
      (iface (bs "docker0") 0xAC110001) (of_in (mkIn AF_INET 0 0xAC110001 [])) (mkIf [] None None) [] _ _ _ _)); try done.
    + repeat (apply List.Forall_cons; [by eexists|]). apply List.Forall_nil.
  - refine (proj2 (proj2 (last_interface_wins (H := YGW_BIG_ENDIAN) [] [] (iface (bs "eth0") 0xC0A80002) (of_in (mkIn AF_INET 0 0xC0A80002 []))
      (mkIf (bs "ppp0") None None) [iface (bs "eth0") 0xC0A80002] _ _ _ _))); done.
Defined.
