(* ===== verification/Servlet.v ===== *)
(** * Dispatching requests: [http/servlet.{h,cc}]

    The functions that handle requests are numbers; what they do to a response,
    and the matching of a pattern ([fnmatch] of the C library), are parameters. *)
From stdpp Require Import gmap list.
From S2P Require Import Prelude Strings CLib HttpTypes Http.
Import Method Status.

(** ** Data *)

Inductive Servlet :=
  | FunctionServlet (cb_ : nat)
  | NotFoundServlet (content_ : bytes)
  | OtherServlet (id : nat).

(** A creator that holds a servlet (or null) and one that makes a new one. *)
Inductive IServletCreator :=
  | HoldServletCreator (servlet_ : option Servlet)
  | ServletCreator (make : Servlet).
Definition creator_Get (c : IServletCreator) : option Servlet :=
  match c with HoldServletCreator s => s | ServletCreator s => Some s end.

Record ServletDispatch := mkDispatch {
  datas_ : gmap bytes IServletCreator;
  globs_ : list (bytes * IServletCreator);
  default_ : option Servlet
}.

Definition new_NotFoundServlet (name : bytes) : Servlet :=
  NotFoundServlet (bs "<html><head><title>404 Not Found"
    ++ bs "</title></head><body><center><h1>404 Not Found</h1></center>"
    ++ bs "<hr><center>" ++ name ++ bs "</center></body></html>").

Definition new_ServletDispatch : ServletDispatch := mkDispatch ∅ [] (Some (new_NotFoundServlet (bs "ygw/1.0"))).

(** ** Registration *)

Definition AddServletCreator (uri : bytes) (creator : IServletCreator) (d : ServletDispatch) : ServletDispatch :=
  mkDispatch (<[uri := creator]> (datas_ d)) (globs_ d) (default_ d).
Definition AddServlet (uri : bytes) (slt : option Servlet) (d : ServletDispatch) : ServletDispatch :=
  AddServletCreator uri (HoldServletCreator slt) d.
Definition AddServlet_cb (uri : bytes) (cb : nat) (d : ServletDispatch) : ServletDispatch :=
  AddServletCreator uri (HoldServletCreator (Some (FunctionServlet cb))) d.

(** The loop that erases the first pair with this name. *)
Fixpoint erase_glob (uri : bytes) (globs : list (bytes * IServletCreator)) : list (bytes * IServletCreator) :=
  match globs with
  | [] => []
  | g :: globs => if bool_decide (g.1 = uri) then globs else g :: erase_glob uri globs
  end.

Definition AddGlobServletCreator (uri : bytes) (creator : IServletCreator) (d : ServletDispatch) : ServletDispatch :=
  mkDispatch (datas_ d) (erase_glob uri (globs_ d) ++ [(uri, creator)]) (default_ d).
Definition AddGlobServlet (uri : bytes) (slt : option Servlet) (d : ServletDispatch) : ServletDispatch :=
  AddGlobServletCreator uri (HoldServletCreator slt) d.
Definition AddGlobServlet_cb (uri : bytes) (cb : nat) (d : ServletDispatch) : ServletDispatch :=
  AddGlobServlet uri (Some (FunctionServlet cb)) d.

Definition DelServlet (uri : bytes) (d : ServletDispatch) : ServletDispatch :=
  mkDispatch (delete uri (datas_ d)) (globs_ d) (default_ d).
Definition DelGlobServlet (uri : bytes) (d : ServletDispatch) : ServletDispatch :=
  mkDispatch (datas_ d) (erase_glob uri (globs_ d)) (default_ d).

Definition GetServlet (uri : bytes) (d : ServletDispatch) : option Servlet := datas_ d !! uri ≫= creator_Get.
Fixpoint find_glob (uri : bytes) (globs : list (bytes * IServletCreator)) : option IServletCreator :=
  match globs with
  | [] => None
  | g :: globs => if bool_decide (g.1 = uri) then Some g.2 else find_glob uri globs
  end.
Definition GetGlobServlet (uri : bytes) (d : ServletDispatch) : option Servlet :=
  find_glob uri (globs_ d) ≫= creator_Get.

(** The maps that list everything: later entries overwrite. *)
Definition ListAllServletCreator (infos : gmap bytes IServletCreator) (d : ServletDispatch) : gmap bytes IServletCreator :=
  datas_ d ∪ infos.
Definition ListAllGlobServletCreator (infos : gmap bytes IServletCreator) (d : ServletDispatch) : gmap bytes IServletCreator :=
  foldl (λ m g, <[g.1 := g.2]> m) infos (globs_ d).

(** ** Matching and handling *)

Section dispatch.
(** Whether a pattern matches a path, both C strings. *)
Variable fnmatch : bytes → bytes → bool.
(** What a function, and another servlet, does to the response. *)
Variable call other : nat → HttpRequest → HttpResponse → HttpResponse.

Fixpoint match_globs (uri : bytes) (globs : list (bytes * IServletCreator)) (default_ : option Servlet) : option Servlet :=
  match globs with
  | [] => default_
  | g :: globs => if fnmatch (c_str g.1) (c_str uri) then creator_Get g.2 else match_globs uri globs default_
  end.

Definition GetMatchedServlet (uri : bytes) (d : ServletDispatch) : option Servlet :=
  match datas_ d !! uri with
  | Some c => creator_Get c
  | None => match_globs uri (globs_ d) (default_ d)
  end.

Definition NotFound_Handle (content : bytes) (rsp : HttpResponse) : HttpResponse :=
  let rsp := rsp_SetHeader (bs "Content-Type") (bs "text/html") (rsp_SetHeader (bs "Server") (bs "ygw/1.0.0")
    (mkResponse (HttpStatus_code NOT_FOUND) (rsp_version_ rsp) (rsp_close_ rsp) (rsp_websocket_ rsp)
       (rsp_body_ rsp) (reason_ rsp) (rsp_headers_ rsp) (rsp_cookies_ rsp))) in
  mkResponse (status_ rsp) (rsp_version_ rsp) (rsp_close_ rsp) (rsp_websocket_ rsp)
    content (reason_ rsp) (rsp_headers_ rsp) (rsp_cookies_ rsp).

Definition Servlet_Handle (s : Servlet) (req : HttpRequest) (rsp : HttpResponse) : HttpResponse :=
  match s with
  | FunctionServlet cb => call cb req rsp
  | NotFoundServlet content => NotFound_Handle content rsp
  | OtherServlet id => other id req rsp
  end.

(** It returns 0, whatever the servlet returns. *)
Definition Dispatch_Handle (d : ServletDispatch) (req : HttpRequest) (rsp : HttpResponse) : Z * HttpResponse :=
  match GetMatchedServlet (path_ req) d with
  | Some s => (0%Z, Servlet_Handle s req rsp)
  | None => (0%Z, rsp)
  end.

(** ** Registering and matching *)

(** No pattern is registered twice. *)
Definition dispatch_ok (d : ServletDispatch) : Prop := NoDup (globs_ d).*1.

Lemma erase_glob_spec uri globs : NoDup globs.*1 → erase_glob uri globs = filter (λ g, g.1 ≠ uri) globs.
Proof.
  induction globs as [|g globs IH]; [done|]. cbn [fmap list_fmap erase_glob]. intros [Hg Hn]%NoDup_cons.
  rewrite filter_cons. case_bool_decide as He; case_decide; try done; [|by rewrite IH].
  clear -Hg He. subst uri. induction globs as [|x globs IH]; [done|]. rewrite filter_cons.
  cbn in Hg. apply not_elem_of_cons in Hg as [Hx Hg]. rewrite decide_True by congruence. f_equal. by apply IH.
Qed.

Lemma match_globs_app uri a b df : match_globs uri (a ++ b) df = match_globs uri a (match_globs uri b df).
Proof. induction a as [|g a IH]; [done|]. cbn. by rewrite IH. Qed.

Lemma erase_nodup uri globs : NoDup globs.*1 → NoDup (erase_glob uri globs).*1 ∧ uri ∉ (erase_glob uri globs).*1.
Proof.
  intros Hn. rewrite erase_glob_spec by done. split.
  - induction globs as [|g globs IH]; [constructor|]. apply NoDup_cons in Hn as [Hg Hn]. rewrite filter_cons.
    case_decide; [|by apply IH]. apply NoDup_cons. split; [|by apply IH].
    intros Hin. apply Hg. apply list_elem_of_fmap in Hin as (x & -> & Hx).
    apply list_elem_of_filter in Hx as [_ Hx]. by apply list_elem_of_fmap_2.
  - intros Hin. apply list_elem_of_fmap in Hin as (x & Hx & Hin). apply list_elem_of_filter in Hin as [Hne _]. congruence.
Qed.

(** The states registration can reach. *)
Inductive dispatch_op :=
  | OpAdd (uri : bytes) (c : IServletCreator)
  | OpAddGlob (uri : bytes) (c : IServletCreator)
  | OpDel (uri : bytes)
  | OpDelGlob (uri : bytes).
Definition run_op (o : dispatch_op) (d : ServletDispatch) : ServletDispatch :=
  match o with
  | OpAdd uri c => AddServletCreator uri c d
  | OpAddGlob uri c => AddGlobServletCreator uri c d
  | OpDel uri => DelServlet uri d
  | OpDelGlob uri => DelGlobServlet uri d
  end.

Lemma run_op_ok o d : dispatch_ok d → dispatch_ok (run_op o d).
Proof.
  unfold dispatch_ok. intros Hd. destruct o as [uri c|uri c|uri|uri]; cbn; try done.
  - destruct (erase_nodup uri _ Hd) as [Hn Hno]. rewrite fmap_app. apply NoDup_app. split_and!; [done| |].
    + intros x Hx Hin. cbn in Hin. apply list_elem_of_singleton in Hin. by subst.
    + by apply NoDup_singleton.
  - by apply erase_nodup.
Qed.

Lemma run_ops_ok ops : dispatch_ok (foldl (λ d o, run_op o d) new_ServletDispatch ops).
Proof.
  assert (∀ d, dispatch_ok d → dispatch_ok (foldl (λ d o, run_op o d) d ops)) as H.
  { induction ops as [|o ops IH]; [done|]. intros d Hd. cbn. by apply IH, run_op_ok. }
  apply H. constructor.
Qed.

(** ** Properties *)

(** Which servlet a path gets, whatever was registered before.  An exact path
    wins over every pattern, and removing it leaves the other paths alone; a
    pattern registered now is asked after the patterns that stay, in their order;
    a removed one no more; and the default only when nothing matches. *)
Theorem dispatch_matches (ops : list dispatch_op) (uri path : bytes) (c : IServletCreator) :
  let d := foldl (λ d o, run_op o d) new_ServletDispatch ops in
  let others := filter (λ g, g.1 ≠ uri) (globs_ d) in
  GetMatchedServlet path (AddServletCreator uri c d) =
    (if decide (uri = path) then creator_Get c else GetMatchedServlet path d) ∧
  GetMatchedServlet path (DelServlet uri d) =
    (if decide (uri = path) then match_globs path (globs_ d) (default_ d) else GetMatchedServlet path d) ∧
  (datas_ d !! path = None →
    GetMatchedServlet path (AddGlobServletCreator uri c d) =
      match_globs path others (if fnmatch (c_str uri) (c_str path) then creator_Get c else default_ d) ∧
    GetMatchedServlet path (DelGlobServlet uri d) = match_globs path others (default_ d) ∧
    ((∀ g, g ∈ globs_ d → fnmatch (c_str g.1) (c_str path) = false) → GetMatchedServlet path d = default_ d)).
Proof.
  intros d others. pose proof (run_ops_ok ops) as Hd. fold d in Hd. unfold dispatch_ok in Hd.
  unfold GetMatchedServlet, AddServletCreator, DelServlet, AddGlobServletCreator, DelGlobServlet.
  cbn [datas_ globs_ default_]. split_and!.
  - case_decide as Hp; [subst; by rewrite lookup_insert_eq|by rewrite lookup_insert_ne].
  - case_decide as Hp; [subst; by rewrite lookup_delete_eq|by rewrite lookup_delete_ne].
  - intros ->. rewrite erase_glob_spec by done. fold others. split_and!; [|done|].
    + by rewrite match_globs_app.
    + generalize (globs_ d) as globs. intros globs Hno. induction globs as [|g globs IH]; [done|]. cbn.
      rewrite Hno by by left. apply IH. intros g' Hg'. apply Hno. by right.
Qed.

(** A path that nothing was registered for gets a page that says so, with the
    status and the headers of one. *)
Theorem unmatched_is_404 (req : HttpRequest) (rsp : HttpResponse) :
  let '(rt, rsp') := Dispatch_Handle new_ServletDispatch req rsp in
  rt = 0%Z ∧ status_ rsp' = 404%Z ∧ rsp_GetHeader rsp' (bs "content-type") [] = bs "text/html" ∧
  rsp_GetHeader rsp' (bs "SERVER") [] = bs "ygw/1.0.0".
Proof.
  unfold Dispatch_Handle, GetMatchedServlet, new_ServletDispatch. cbn [datas_ globs_ default_ match_globs].
  rewrite lookup_empty. unfold new_NotFoundServlet, Servlet_Handle, NotFound_Handle, rsp_SetHeader, rsp_GetHeader.
  split_and!; [done|done|..]; cbn [rsp_headers_ rsp_set_headers_].
  - rewrite map_find_put, decide_True by by vm_compute. by destruct (map_find _ _).
  - rewrite map_find_put, decide_False by by vm_compute. rewrite map_find_put, decide_True by by vm_compute.
    by destruct (map_find _ _).
Qed.
End dispatch.

(** A pattern that ends in a star matches by prefix, others match themselves. *)
Definition simple_match (pattern path : bytes) : bool :=
  match rev pattern with
  | x :: p => if bool_decide (x = byte.of_Z 42) then starts_with (rev p) path else bool_decide (pattern = path)
  | [] => bool_decide (path = [])
  end.

Lemma dispatch_matches_witness : let page n := HoldServletCreator (Some (FunctionServlet n)) in
  let d := foldl (λ d o, run_op o d) new_ServletDispatch
    [OpAddGlob (bs "/a/*") (page 1); OpAddGlob (bs "/*") (page 2); OpAdd (bs "/a/b") (page 3)] in
  GetMatchedServlet simple_match (bs "/a/c") (AddGlobServletCreator (bs "/a/*") (page 4) d) = Some (FunctionServlet 2).
Proof.
  intros page d. assert (datas_ d !! bs "/a/c" = None) as Hn by by vm_compute.
  destruct (dispatch_matches simple_match [OpAddGlob (bs "/a/*") (page 1); OpAddGlob (bs "/*") (page 2); OpAdd (bs "/a/b") (page 3)]
    (bs "/a/*") (bs "/a/c") (page 4)) as (_ & _ & H).
  etransitivity; [exact (proj1 (H Hn))|by vm_compute].
Defined.
