(* ===== verification/HttpSession.v ===== *)
(** * Receiving requests: [http/http_parser.cc], [http/http_session.cc], [stream/stream.cc]

    The scanner that [http_parser_execute] runs is generated from a grammar; it is
    an interface here, which [HttpParser.v] implements: from its state and a buffer it
    reports tokens and how far it got.  What the code does with the tokens, and the loops that read from the
    connection, are the code's. *)
From stdpp Require Import list.
From S2P Require Import Prelude Strings CLib HttpTypes Http.
Import Method Status.

(** ** The parser of requests *)

(** A token: the buffer from where it starts, and its length. *)
Inductive callback :=
  | CbMethod (at_ : bytes) (length : nat)
  | CbUri (at_ : bytes) (length : nat)
  | CbFragment (at_ : bytes) (length : nat)
  | CbPath (at_ : bytes) (length : nat)
  | CbQuery (at_ : bytes) (length : nat)
  | CbVersion (at_ : bytes) (length : nat)
  | CbHeaderDone
  | CbField (field : bytes) (flen : nat) (value : bytes) (vlen : nat).

(** [http_parser_init], [http_parser_execute] with how far it got and the callbacks
    it made, [http_parser_finish] and [http_parser_has_error]. *)
Class Scanner := {
  scan_state : Type;
  scan_init : scan_state;
  scan_execute : bytes → M scan_state (nat * list callback);
  scan_finished : scan_state → bool;
  scan_error : scan_state → bool
}.
(** It does not run past the buffer; a callback may throw for a token whose length
    is no length of a string. *)
Class ScannerLaws (S : Scanner) := {
  scan_ok : scan_state → Prop;
  scan_init_ok : scan_ok scan_init ∧ scan_finished scan_init = false ∧ scan_error scan_init = false;
  scan_execute_ok st data : scan_ok st → scan_finished st = false → scan_error st = false →
    (Z.of_nat (length data) < 2 ^ 31)%Z →
    match scan_execute data st with
    | Ret (n, _) st' => n ≤ length data ∧ scan_ok st'
    | Throw e _ => e = length_error
    | _ => False
    end
}.

(** [strncmp(a, b, n) == 0]. *)
Definition strncmp_eq (a b : bytes) (n : nat) : bool :=
  bool_decide (take n (c_str a ++ [byte.of_Z 0]) = take n (c_str b ++ [byte.of_Z 0])).

Section session.
Context `{Sc : Scanner}.

Record HttpRequestParser := mkParser { parser_ : scan_state; data_ : HttpRequest; error_ : Z }.
Definition new_HttpRequestParser : HttpRequestParser := mkParser scan_init (new_HttpRequest 0x11 true) 0.

Definition on_data (f : HttpRequest → HttpRequest) (p : HttpRequestParser) : HttpRequestParser :=
  mkParser (parser_ p) (f (data_ p)) (error_ p).
Definition SetError (v : Z) (p : HttpRequestParser) : HttpRequestParser := mkParser (parser_ p) (data_ p) v.

Definition SetMethod m r := mkRequest m (version_ r) (close_ r) (websocket_ r) (parser_param_flag_ r)
  (path_ r) (query_ r) (fragment_ r) (body_ r) (headers_ r) (params_ r) (cookies_ r).
Definition SetVersion v r := mkRequest (method_ r) v (close_ r) (websocket_ r) (parser_param_flag_ r)
  (path_ r) (query_ r) (fragment_ r) (body_ r) (headers_ r) (params_ r) (cookies_ r).
Definition SetPath s r := mkRequest (method_ r) (version_ r) (close_ r) (websocket_ r) (parser_param_flag_ r)
  s (query_ r) (fragment_ r) (body_ r) (headers_ r) (params_ r) (cookies_ r).
Definition SetQuery s r := mkRequest (method_ r) (version_ r) (close_ r) (websocket_ r) (parser_param_flag_ r)
  (path_ r) s (fragment_ r) (body_ r) (headers_ r) (params_ r) (cookies_ r).
Definition SetFragment s r := mkRequest (method_ r) (version_ r) (close_ r) (websocket_ r) (parser_param_flag_ r)
  (path_ r) (query_ r) s (body_ r) (headers_ r) (params_ r) (cookies_ r).
Definition SetBody s r := mkRequest (method_ r) (version_ r) (close_ r) (websocket_ r) (parser_param_flag_ r)
  (path_ r) (query_ r) (fragment_ r) s (headers_ r) (params_ r) (cookies_ r).

(** The length is not used: the method is compared with the whole rest. *)
Definition OnRequestMethod (at_ : bytes) (p : HttpRequestParser) : HttpRequestParser :=
  let m := CharsToHttpMethod at_ in
  if bool_decide (m = INVALID_METHOD) then SetError 1000 p else on_data (SetMethod m) p.

Definition OnRequestVersion (at_ : bytes) (length : nat) (p : HttpRequestParser) : HttpRequestParser :=
  if strncmp_eq at_ (bs "HTTP/1.1") length then on_data (SetVersion 0x11) p
  else if strncmp_eq at_ (bs "HTTP/1.0") length then on_data (SetVersion 0x10) p
  else SetError 1001 p.

Definition OnRequestHttpField (field : bytes) (flen : nat) (value : bytes) (vlen : nat)
    (p : HttpRequestParser) : HttpRequestParser :=
  if flen =? 0 then p else on_data (SetHeader (take flen field) (take vlen value)) p.

Definition run_callback (p : HttpRequestParser) (c : callback) : HttpRequestParser :=
  match c with
  | CbMethod at_ _ => OnRequestMethod at_ p
  | CbUri _ _ => p
  | CbFragment at_ n => on_data (SetFragment (take n at_)) p
  | CbPath at_ n => on_data (SetPath (take n at_)) p
  | CbQuery at_ n => on_data (SetQuery (take n at_)) p
  | CbVersion at_ n => OnRequestVersion at_ n p
  | CbHeaderDone => p
  | CbField field flen value vlen => OnRequestHttpField field flen value vlen p
  end.

(** What is left of the buffer is moved to its start.  The result's state is that of
    the scanner, which an exception leaves half way. *)
Definition Execute (p : HttpRequestParser) (data : bytes) : result scan_state (HttpRequestParser * nat * bytes) :=
  match scan_execute data (parser_ p) with
  | Ret (offset, cbs) st =>
    let p := foldl run_callback (mkParser st (data_ p) (error_ p)) cbs in
    Ret (p, offset, drop offset data) st
  | Throw e st => Throw e st
  | Undef u => Undef u
  | NoFuel => NoFuel
  end.

Definition IsFinished (p : HttpRequestParser) : bool := scan_finished (parser_ p).
Definition HasError (p : HttpRequestParser) : bool := negb (error_ p =? 0)%Z || scan_error (parser_ p).

(** [lexical_cast<uint64_t>] is a parameter. *)
Variable to_uint64 : bytes → option Z.
Definition GetContentLength (p : HttpRequestParser) : Z := GetAs to_uint64 (headers_ (data_ p)) (bs "content-length") 0%Z.

(** ** The connection *)

(** What the peer will send, in the pieces in which it arrives; an empty piece is
    the end of the stream. *)
Record Session := mkSession { net : list bytes; closed : bool }.

Definition Close : M Session unit := modify (λ s, mkSession (net s) true).

(** [Read(buf, n)]: [None] for a result that is not positive. *)
Definition Read (n : nat) : M Session (option bytes) :=
  s ← get;
  match net s with
  | [] | [] :: _ => mret None
  | c :: rest =>
    if n =? 0 then mret None else
    modify (mkSession (if bool_decide (drop n c = []) then rest else drop n c :: rest) ∘ closed) ;;
    mret (Some (take n c))
  end.

(** [ReadFixSize]: [acc] is what the buffer holds, [left] what is missing. *)
Fixpoint ReadFixSize_loop (fuel : nat) (acc : bytes) (left : nat) : M Session (option bytes) :=
  match fuel with
  | 0 => λ _, NoFuel
  | S fuel =>
    if left =? 0 then mret (Some acc) else
    r ← Read left;
    match r with
    | None => mret None
    | Some d => ReadFixSize_loop fuel (acc ++ d) (left - length d)
    end
  end.

(** The result, an [int], and the buffer; 0 stands for every result of a failed
    [Read]. *)
Definition ReadFixSize (fuel : nat) (acc : bytes) (left : nat) : M Session (Z * bytes) :=
  r ← ReadFixSize_loop fuel acc left;
  mret match r with Some d => (s32 (Z.of_nat left), d) | None => (0%Z, acc) end.

(** Code that works on the parser alone; the parser is lost with an exception. *)
Definition run_parser {St A} (r : result St A) : M Session A := λ s,
  match r with
  | Ret a _ => Ret a s
  | Throw e _ => Throw e s
  | Undef u => Undef u
  | NoFuel => NoFuel
  end.

(** The [do ... while] of [RecvRequest]: [buffer] holds the bytes not consumed. *)
Fixpoint recv_head (fuel : nat) (buff_size : nat) (p : HttpRequestParser) (buffer : bytes)
    : M Session (option (HttpRequestParser * bytes)) :=
  match fuel with
  | 0 => λ _, NoFuel
  | S fuel =>
    r ← Read (buff_size - length buffer);
    match r with
    | None => Close ;; mret None
    | Some d =>
      '(p, _, buffer) ← run_parser (Execute p (buffer ++ d));
      if HasError p then Close ;; mret None
      else if length buffer =? buff_size then Close ;; mret None
      else if IsFinished p then mret (Some (p, buffer))
      else recv_head fuel buff_size p buffer
    end
  end.

(** The rest: [length] is an [int64_t] that was a [uint64_t]. *)
Definition recv_body (fuel : nat) (p : HttpRequestParser) (buffer : bytes) : M Session (option HttpRequest) :=
  let length_ := s64 (GetContentLength p) in
  if (0 <? length_)%Z then
    let n := Z.to_nat length_ in
    let body := take n buffer in
    let left := n - length buffer in
    if left =? 0 then mret (Some (Init (SetBody body (data_ p)))) else
    '(rt, body) ← ReadFixSize fuel body left;
    if (rt <=? 0)%Z then Close ;; mret None
    else mret (Some (Init (SetBody body (data_ p))))
  else mret (Some (Init (data_ p))).

Definition RecvRequest (fuel : nat) (buff_size : nat) : M Session (option HttpRequest) :=
  r ← recv_head fuel buff_size new_HttpRequestParser [];
  match r with
  | None => mret None
  | Some (p, buffer) => recv_body fuel p buffer
  end.

(** ** Reading *)

Definition stream (s : Session) : bytes := concat (net s).
(** Pieces that arrive hold something; the end of the stream is the end of the list. *)
Definition pieces (s : Session) : Prop := Forall (λ c, c ≠ []) (net s).

Lemma Read_ok n s : pieces s → 0 < n →
  (stream s = [] ∧ Read n s = Ret None s) ∨
  ∃ d s', Read n s = Ret (Some d) s' ∧ pieces s' ∧ closed s' = closed s ∧
    d ≠ [] ∧ length d ≤ n ∧ stream s = d ++ stream s'.
Proof.
  destruct s as [l cl]. unfold pieces, stream. cbn. intros Hp Hn. destruct l as [|c rest]; [by left|right].
  apply Forall_cons in Hp as [Hc Hrest]. unfold Read, mbind, M_bind, get. cbn. destruct c as [|x c]; [done|].
  rewrite (proj2 (Nat.eqb_neq n 0)) by lia. eexists _, _. split; [reflexivity|]. cbn [net closed].
  destruct n as [|n]; [lia|]. split_and!; try done.
  - case_bool_decide; [done|]. by constructor.
  - cbn. rewrite length_take. lia.
  - case_bool_decide as Hd; cbn [concat].
    + cbn. f_equal. cbn in Hd. rewrite <- (take_drop n c) at 1. by rewrite Hd, app_nil_r.
    + cbn. f_equal. by rewrite app_assoc, take_drop.
Qed.

(** A piece that fits is read as it arrived. *)
Lemma Read_whole n c rest cl : c ≠ [] → length c ≤ n →
  Read n (mkSession (c :: rest) cl) = Ret (Some c) (mkSession rest cl).
Proof.
  intros Hc Hn. unfold Read, mbind, M_bind, get. cbn [net]. destruct c as [|x c]; [done|].
  rewrite (proj2 (Nat.eqb_neq n 0)) by (cbn in Hn; lia). rewrite take_ge, drop_ge by done. by rewrite bool_decide_eq_true_2.
Qed.

(** The loop reads exactly what is missing, or to the end of the stream. *)
Lemma ReadFixSize_loop_ok fuel : ∀ acc left s, pieces s → length (stream s) < fuel →
  (left ≤ length (stream s) ∧ ∃ s', ReadFixSize_loop fuel acc left s = Ret (Some (acc ++ take left (stream s))) s' ∧
     stream s' = drop left (stream s) ∧ pieces s' ∧ closed s' = closed s) ∨
  (length (stream s) < left ∧ ∃ s', ReadFixSize_loop fuel acc left s = Ret None s' ∧ pieces s').
Proof.
  induction fuel as [|fuel IH]; intros acc left s Hp Hf; [lia|]. cbn [ReadFixSize_loop].
  destruct (Nat.eqb_spec left 0) as [->|Hl].
  { left. split; [lia|]. exists s. rewrite take_0, app_nil_r, drop_0. done. }
  destruct (Read_ok left s Hp) as [[He Hr]|(d & s1 & Hr & Hp1 & Hc1 & Hd & Hlen & Hs)]; [lia| |];
    rewrite (bind_Ret _ _ _ _ _ Hr).
  - right. rewrite He. split; [cbn; lia|]. by exists s.
  - assert (0 < length d) as Hd0 by (destruct d; [done|cbn; lia]).
    assert (length (stream s1) < length (stream s)) as Hlt1 by (rewrite Hs, length_app; lia).
    destruct (IH (acc ++ d) (left - length d) s1 Hp1) as [[Hle (s2 & Hr2 & Hs2 & Hp2 & Hc2)]|[Hlt (s2 & Hr2 & Hp2)]]; [lia|left|right];
      rewrite Hs, length_app.
    + split; [lia|]. exists s2. rewrite Hr2. split_and!; [|..|done|congruence].
      * rewrite take_app, (take_ge d) by lia. by rewrite app_assoc.
      * rewrite Hs2, drop_app, (drop_ge d) by lia. done.
    + split; [lia|]. by exists s2.
Qed.

(** When what is missing ends with a piece, the pieces behind it stay as they are. *)
Lemma ReadFixSize_loop_exact fuel : ∀ acc rest later cl, Forall (λ c, c ≠ []) rest → length (concat rest) < fuel →
  ReadFixSize_loop fuel acc (length (concat rest)) (mkSession (rest ++ later) cl) = Ret (Some (acc ++ concat rest)) (mkSession later cl).
Proof.
  induction fuel as [|fuel IH]; intros acc rest later cl Hr Hf; [lia|]. cbn [ReadFixSize_loop].
  destruct rest as [|c rest]; cbn [concat]; [by rewrite app_nil_r|]. apply Forall_cons in Hr as [Hc Hr].
  assert (0 < length c) by (destruct c; [done|cbn; lia]). cbn [concat] in Hf. rewrite length_app in *.
  rewrite (proj2 (Nat.eqb_neq _ 0)) by lia. cbn [app]. erewrite bind_Ret by (apply Read_whole; [done|lia]).
  cbn beta iota. replace (length c + length (concat rest) - length c) with (length (concat rest)) by lia.
  rewrite IH by (done || lia). by rewrite <- app_assoc.
Qed.

(** So does [ReadFixSize], but what it returns for 2^31 bytes and more need not be
    positive. *)
Lemma ReadFixSize_ok fuel acc left s : pieces s → length (stream s) < fuel → 0 < left →
  (left ≤ length (stream s) ∧ ∃ s', ReadFixSize fuel acc left s = Ret (s32 (Z.of_nat left), acc ++ take left (stream s)) s' ∧
     stream s' = drop left (stream s) ∧ pieces s' ∧ closed s' = closed s) ∨
  (length (stream s) < left ∧ ∃ s', ReadFixSize fuel acc left s = Ret (0%Z, acc) s' ∧ pieces s').
Proof.
  intros Hp Hf Hl. unfold ReadFixSize.
  destruct (ReadFixSize_loop_ok fuel acc left s Hp Hf) as [[Hle (s' & Hr & ?)]|[Hlt (s' & Hr & ?)]]; [left|right];
    (split; [done|]); exists s'; by rewrite (bind_Ret _ _ _ _ _ Hr).
Qed.

(** The first read gets the head, and some of what is behind it. *)
Lemma first_read hd behind rest n : hd ≠ [] → (length hd ≤ n)%nat → Forall (λ c, c ≠ []) rest → ∃ b s,
  Read n (mkSession ((hd ++ behind) :: rest) false) = Ret (Some (hd ++ b)) s ∧ (length (hd ++ b) ≤ n)%nat ∧
  pieces s ∧ closed s = false ∧ b ++ stream s = behind ++ concat rest.
Proof.
  intros Hne Hn Hrest. exists (take (n - length hd) behind). unfold Read, mbind, M_bind, get. cbn [net].
  destruct (hd ++ behind) as [|c l] eqn:Hc; [by destruct hd|]. rewrite <- Hc.
  rewrite (proj2 (Nat.eqb_neq n 0)) by (destruct hd; [done|cbn in Hn; lia]).
  eexists. split; [cbn; rewrite take_app, (take_ge hd) by done; reflexivity|].
  split; [|split; [|split; [reflexivity|]]].
  - rewrite length_app, length_take. lia.
  - unfold pieces. cbn. rewrite drop_app, (drop_ge hd), app_nil_l by done. case_bool_decide; [done|by constructor].
  - unfold stream. cbn. rewrite drop_app, (drop_ge hd), app_nil_l by done. case_bool_decide as Hd; cbn [concat].
    + rewrite take_ge; [done|]. by apply drop_nil_length in Hd || (rewrite <- (take_drop (n - length hd) behind) at 1; rewrite Hd, app_nil_r, length_take; lia).
    + by rewrite app_assoc, take_drop.
Qed.

Section laws.
Context `{!ScannerLaws Sc}.

(** A parser the loop goes on with. *)
Definition parsing (p : HttpRequestParser) : Prop :=
  scan_ok (parser_ p) ∧ IsFinished p = false ∧ scan_error (parser_ p) = false.

Lemma run_callback_parser cbs p : parser_ (foldl run_callback p cbs) = parser_ p.
Proof.
  revert p. induction cbs as [|c cbs IH]; intros p; [done|]. cbn [foldl]. rewrite IH.
  destruct c; cbn; try done; unfold OnRequestMethod, OnRequestVersion, OnRequestHttpField; by repeat case_match.
Qed.

Lemma Execute_ok p data : parsing p → (Z.of_nat (length data) < 2 ^ 31)%Z →
  (∃ st, Execute p data = Throw length_error st) ∨
  ∃ p' n st, Execute p data = Ret (p', n, drop n data) st ∧ n ≤ length data ∧ scan_ok (parser_ p').
Proof.
  intros (Hok & Hf & He) Hd. pose proof (scan_execute_ok _ _ Hok Hf He Hd) as H. unfold Execute.
  destruct (scan_execute data (parser_ p)) as [[n cbs] st|e st| |]; [right|left|done|done].
  - destruct H as [Hn Hst]. do 3 eexists. split; [reflexivity|]. by rewrite run_callback_parser.
  - subst e. by eexists.
Qed.

(** The loop ends, with a request whose head the scanner finished or closed; what
    it leaves is the end of what was sent. *)
Lemma recv_head_ok fuel buff_size : (Z.of_nat buff_size < 2 ^ 31)%Z → ∀ p buffer s, parsing p →
  pieces s → length (stream s) < fuel → length buffer < buff_size →
  (∃ s', recv_head fuel buff_size p buffer s = Throw length_error s') ∨
  ∃ r s', recv_head fuel buff_size p buffer s = Ret r s' ∧ pieces s' ∧
    length (stream s') ≤ length (stream s) ∧
    match r with
    | None => closed s' = true
    | Some (p', buffer') => IsFinished p' = true ∧ HasError p' = false ∧ length buffer' < buff_size ∧
        length (stream s') < length (stream s) ∧ ∃ used, buffer ++ stream s = used ++ buffer' ++ stream s'
    end.
Proof.
  intros Hsz. induction fuel as [|fuel IH]; intros p buffer s Hpar Hp Hf Hb; [lia|]. cbn [recv_head].
  destruct (Read_ok (buff_size - length buffer) s Hp) as [[He Hr]|(d & s1 & Hr & Hp1 & Hc1 & Hd & Hlen & Hs)];
    [lia| |]; rewrite (bind_Ret _ _ _ _ _ Hr).
  { right. exists None. eexists. split; [reflexivity|]. split_and!; [done| |done]. unfold stream. cbn. lia. }
  assert (0 < length d) as Hd0 by (destruct d; [done|cbn; lia]).
  destruct (Execute_ok p (buffer ++ d) Hpar) as [(st & Hx)|(p1 & n & st & Hx & Hn & Hok1)]; [rewrite length_app; lia| |];
    rewrite Hx.
  { left. by eexists. }
  set (b1 := drop n (buffer ++ d)). rewrite (bind_Ret _ _ s1 (p1, n, b1) s1) by done. cbn beta iota.
  assert (length (stream s1) < length (stream s)) as Hlt by (rewrite Hs, length_app; lia).
  assert (length b1 ≤ buff_size) as Hle by (unfold b1; rewrite length_drop, length_app; lia).
  assert (buffer ++ stream s = take n (buffer ++ d) ++ b1 ++ stream s1) as Hsplit.
  { unfold b1. rewrite app_assoc, take_drop, Hs. by rewrite app_assoc. }
  destruct (HasError p1) eqn:Herr; [|destruct (Nat.eqb_spec (length b1) buff_size)].
  1-2: right; exists None; eexists; split; [reflexivity|]; split_and!; [done| |done]; unfold stream in *; cbn; lia.
  destruct (IsFinished p1) eqn:Hfin.
  { right. exists (Some (p1, b1)), s1. split_and!; try done; [lia|lia|]. by eexists. }
  apply orb_false_iff in Herr as [_ Herr].
  destruct (IH p1 b1 s1) as [?|(r & s2 & Hr2 & Hp2 & Hl2 & Hres)]; [done|done|lia|lia|by left|right].
  exists r, s2. split_and!; [done|done|lia|]. destruct r as [[p' b']|]; [|done].
  destruct Hres as (? & ? & ? & ? & used & Hu). split_and!; [done..|lia|]. exists (take n (buffer ++ d) ++ used).
  by rewrite Hsplit, Hu, app_assoc.
Qed.

(** ** Properties *)

Lemma Init_body r : body_ (Init r) = body_ r.
Proof. unfold Init. by case_bool_decide. Qed.

Lemma recv_body_ok fuel p buffer s : pieces s → length (stream s) < fuel →
  let n := Z.to_nat (s64 (GetContentLength p)) in
  ∃ r s', recv_body fuel p buffer s = Ret r s' ∧
    match r with
    | None => closed s' = true
    | Some req => n ≤ length (buffer ++ stream s) ∧
        body_ req = (if n =? 0 then body_ (data_ p) else take n (buffer ++ stream s)) ∧
        stream s' = drop (n - length buffer) (stream s) ∧ pieces s'
    end.
Proof.
  intros Hp Hf n. unfold recv_body. destruct (Z.ltb_spec 0 (s64 (GetContentLength p))) as [Hn|Hn]; fold n.
  - cbn zeta. destruct (Nat.eqb_spec (n - length buffer) 0) as [H0|H0].
    { eexists (Some _), s. split; [reflexivity|]. rewrite Init_body, length_app. cbn [SetBody body_]. rewrite H0, drop_0.
      split_and!; [lia| |done|done]. rewrite (proj2 (Nat.eqb_neq n 0)) by lia. by rewrite take_app, H0, app_nil_r. }
    destruct (ReadFixSize_ok fuel (take n buffer) (n - length buffer) s Hp Hf ltac:(lia))
      as [[Hle (s' & Hr & Hs' & Hp' & _)]|[Hlt (s' & Hr & _)]]; rewrite (bind_Ret _ _ _ _ _ Hr).
    + cbn beta iota. destruct (Z.leb_spec (s32 (Z.of_nat (n - length buffer))) 0); [by eexists None, _|].
      eexists (Some _), _. split; [reflexivity|]. rewrite Init_body, length_app. cbn [SetBody body_].
      split_and!; [lia| |done|done]. rewrite (proj2 (Nat.eqb_neq n 0)) by lia. by rewrite take_app.
    + eexists None, _. by split.
  - assert (n = 0) as Hn0 by lia. exists (Some (Init (data_ p))), s. split; [done|].
    rewrite Init_body, Hn0. split_and!; [lia|done|done|done].
Qed.

(** Without a request the connection is closed; with one, less is left to come. *)
Lemma RecvRequest_ok fuel buff_size s : pieces s → length (stream s) < fuel → 0 < buff_size → (Z.of_nat buff_size < 2 ^ 31)%Z →
  (∃ s', RecvRequest fuel buff_size s = Throw length_error s') ∨
  ∃ r s', RecvRequest fuel buff_size s = Ret r s' ∧
    match r with None => closed s' = true | Some _ => pieces s' ∧ length (stream s') < length (stream s) end.
Proof.
  intros Hp Hf Hb Hsz. unfold RecvRequest.
  destruct (recv_head_ok fuel buff_size Hsz new_HttpRequestParser [] s scan_init_ok Hp Hf Hb)
    as [[s' Hr]|(r & s1 & Hr & Hp1 & Hl & Hres)].
  { left. exists s'. by apply bind_Throw. }
  right. rewrite (bind_Ret _ _ _ _ _ Hr). destruct r as [[p buffer]|]; [|by eexists None, _].
  destruct Hres as (_ & _ & _ & Hlt & _).
  destruct (recv_body_ok fuel p buffer s1 Hp1 ltac:(lia)) as (r & s' & Hr' & Hres').
  exists r, s'. split; [done|]. destruct r as [req|]; [|done]. destruct Hres' as (_ & _ & -> & Hp').
  split; [done|]. rewrite length_drop. lia.
Qed.

(** [RecvRequest] always ends, however the bytes arrive.  An exception is one of
    a callback.  Without a request the connection is closed.  A request has a head
    that the scanner accepted from a first part of what was sent; its body is as
    many of the bytes right after as [content-length] says, wherever the reads were
    cut, and the connection is left after them: except that what the buffer holds
    beyond the body is lost. *)
Theorem RecvRequest_frames_body (s : Session) (fuel buff_size : nat) :
  pieces s → length (stream s) < fuel → 0 < buff_size → (Z.of_nat buff_size < 2 ^ 31)%Z →
  (∃ s', RecvRequest fuel buff_size s = Throw length_error s') ∨
  ∃ r s', RecvRequest fuel buff_size s = Ret r s' ∧
    match r with
    | None => closed s' = true
    | Some req => ∃ p used buffer rest, IsFinished p = true ∧ HasError p = false ∧
        stream s = used ++ buffer ++ rest ∧ length buffer < buff_size ∧
        let n := Z.to_nat (s64 (GetContentLength p)) in
        n ≤ length (buffer ++ rest) ∧
        body_ req = (if n =? 0 then body_ (data_ p) else take n (buffer ++ rest)) ∧
        stream s' = drop (n - length buffer) rest
    end.
Proof.
  intros Hp Hf Hb Hsz. unfold RecvRequest.
  destruct (recv_head_ok fuel buff_size Hsz new_HttpRequestParser [] s scan_init_ok Hp Hf Hb)
    as [[s' Hr]|(r & s1 & Hr & Hp1 & Hl & Hres)].
  { left. exists s'. by apply bind_Throw. }
  right. rewrite (bind_Ret _ _ _ _ _ Hr). destruct r as [[p buffer]|]; [|by eexists None, _].
  destruct Hres as (Hfin & Herr & Hlen & _ & used & Hu).
  destruct (recv_body_ok fuel p buffer s1 Hp1 ltac:(lia)) as (r & s' & Hr' & Hres').
  exists r, s'. split; [done|]. destruct r as [req|]; [|done]. destruct Hres' as (Hn & Hbody & Hs' & _).
  by exists p, used, buffer, (stream s1).
Qed.
End laws.
End session.

(** ** A small scanner *)

(** It accepts one line, whose text is the length of the body. *)
#[local] Instance line_scanner : Scanner := {
  scan_state := bool;
  scan_init := false;
  scan_execute data done :=
    match find_if (is_char (byte.of_Z 10)) data with
    | Some i => if done : bool then Ret (0, []) true
                else Ret (S i, [CbMethod (bs "POST /") 4; CbField (bs "Content-Length") 14 data i]) true
    | None => Ret (0, []) done
    end;
  scan_finished done := done;
  scan_error _ := false
}.
#[local] Instance line_scanner_laws : ScannerLaws line_scanner.
Proof.
  refine (Build_ScannerLaws _ (λ _, True) (conj I (conj eq_refl eq_refl)) _).
  intros st data _ _ _ _. cbn. destruct (find_if _ data) as [i|] eqn:Hi; [|by split; [lia|]].
  apply find_if_bound in Hi. destruct st; cbn; split; (lia || done).
Qed.

(** Decimal digits. *)
Definition digits (s : bytes) : option Z :=
  Some (foldl (λ n c, (n * 10 + (uchar c - 48))%Z) 0%Z s).

Definition newline : bytes := [byte.of_Z 10].

Lemma RecvRequest_frames_body_witness : ∃ req s',
  RecvRequest digits 30 16 (mkSession [bs "1"; bs "2" ++ newline ++ bs "hel"; bs "lo wo"; bs "rld!next"] false) = Ret (Some req) s' ∧
  body_ req = bs "hello world!" ∧ stream s' = bs "next".
Proof.
  set (s := mkSession _ _).
  destruct (RecvRequest_frames_body digits s 30 16) as [[s' Hr]|(r & s' & Hr & Hres)];
    [by repeat constructor|vm_compute; lia|lia|lia|by vm_compute in Hr|].
  destruct r as [req|]; [|by vm_compute in Hr]. exists req, s'. split; [exact Hr|].
  destruct Hres as (p & used & buffer & rest & _). vm_compute in Hr. injection Hr as <- <-.
  split; vm_compute; reflexivity.
Defined.
