(* ===== verification/HttpScanner.v ===== *)
(** * The automaton of [http/parser/http11_parser.rl.cc]

    The labels of the generated [http_parser_execute], stretch by stretch in the
    order of the file.  A [case] that compares [_widec] is a [wide] row: its numbers
    are those of the file, 606, 635 and 637 for the marks of [more_delims]. *)
From S2P Require Import Prelude Ragel.
Local Open Scope Z_scope.
Local Open Scope ragel_scope.

(** The actions of the grammar; [mark] and [start_value] are the same code. *)
Inductive action :=
  | mark | start_field | write_field | write_value | request_method | request_uri | fragment
  | start_query | query_string | http_version | request_path | done | xml | json.
#[export] Instance action_eq_dec : EqDecision action.
Proof. solve_decision. Defined.

Definition http_states_1 : part action := mkPart
  [(0, go [mark] 2); (4, go [request_method] 3); (6, go [mark; request_path; request_uri] 4);
   (37, go [request_path; request_uri] 4); (44, go [mark; fragment] 4); (47, go [fragment] 4);
   (54, go [start_query; query_string; request_uri] 4)]
  [(1, plain [48 -- 57 ~> Tr 0; 60 ~> Tr 2; 64 ~> Tr 3; 65 -- 90 ~> Tr 0]);
   (2, plain [32 ~> Tr 4; 48 -- 57 ~> St 175; 65 -- 90 ~> St 175]);
   (3, wide [32 ~> Tr 6; 33 ~> Tr 7; 35 ~> Tr 8; 36 ~> Tr 7; 37 ~> Tr 9; 38 -- 46 ~> Tr 7; 47 ~> Tr 10;
        48 -- 57 ~> Tr 7; 59 ~> Tr 7; 61 ~> Tr 7; 63 ~> Tr 11; 64 ~> Tr 7; 65 -- 90 ~> Tr 12; 95 ~> Tr 7;
        97 -- 122 ~> Tr 12; 126 ~> Tr 7; 606 ~> Tr 7; 635 ~> Tr 7; 637 ~> Tr 7])].

Definition http_states_2 : part action := mkPart
  [(58, go [query_string; request_uri] 4); (13, go [mark] 5); (21, go [http_version] 13);
   (30, go [mark; write_value] 13); (33, go [write_value] 13)]
  [(4, plain [72 ~> Tr 13]);
   (5, plain [84 ~> St 6]);
   (6, plain [84 ~> St 7]);
   (7, plain [80 ~> St 8]);
   (8, plain [47 ~> St 9]);
   (9, plain [49 ~> St 10]);
   (10, plain [46 ~> St 11]);
   (11, plain [48 -- 49 ~> St 12]);
   (12, plain [10 ~> Tr 21; 13 ~> Tr 22]);
   (13, plain [1 -- 8 ~> Tr 23; 10 ~> Tr 24; 11 -- 12 ~> Tr 23; 13 ~> Tr 25; 14 -- 31 ~> Tr 23; 33 ~> Tr 23;
        35 -- 39 ~> Tr 23; 42 -- 43 ~> Tr 23; 45 -- 46 ~> Tr 23; 48 -- 57 ~> Tr 23; 65 -- 90 ~> Tr 23;
        94 -- 122 ~> Tr 23; 124 ~> Tr 23; 126 ~> Tr 23])].

Definition http_states_3 : part action := mkPart
  [(23, go [start_field] 14); (27, go [write_field] 15); (29, go [mark] 15); (28, go [mark] 16);
   (22, go [http_version] 17); (31, go [mark; write_value] 17); (34, go [write_value] 17);
   (24, go [start_field; done] 348)]
  [(14, plain [1 -- 8 ~> St 14; 10 -- 31 ~> St 14; 33 ~> St 14; 35 -- 39 ~> St 14; 42 -- 43 ~> St 14;
        45 -- 46 ~> St 14; 48 -- 57 ~> St 14; 58 ~> Tr 27; 65 -- 90 ~> St 14; 94 -- 122 ~> St 14; 124 ~> St 14;
        126 ~> St 14]);
   (15, plain [(-128) -- (-1) ~> Tr 28; 1 -- 8 ~> Tr 28; 9 ~> Tr 29; 10 ~> Tr 30; 11 -- 12 ~> Tr 28; 13 ~> Tr 31;
        14 -- 31 ~> Tr 28; 32 ~> Tr 29; 33 -- 126 ~> Tr 28]);
   (16, plain [(-128) -- (-1) ~> St 16; 1 -- 9 ~> St 16; 10 ~> Tr 33; 11 -- 12 ~> St 16; 13 ~> Tr 34;
        14 -- 126 ~> St 16]);
   (17, plain [10 ~> St 13])].

Definition http_states_4 : part action := mkPart
  [(36, go [done] 348); (25, go [start_field] 18); (7, go [mark] 19)]
  [(348, plain [1 -- 8 ~> St 14; 10 -- 31 ~> St 14; 33 ~> St 14; 35 -- 39 ~> St 14; 42 -- 43 ~> St 14;
        45 -- 46 ~> St 14; 48 -- 57 ~> St 14; 58 ~> Tr 27; 65 -- 90 ~> St 14; 94 -- 122 ~> St 14; 124 ~> St 14;
        126 ~> St 14]);
   (18, plain [1 -- 8 ~> St 14; 10 ~> Tr 36; 11 -- 31 ~> St 14; 33 ~> St 14; 35 -- 39 ~> St 14; 42 -- 43 ~> St 14;
        45 -- 46 ~> St 14; 48 -- 57 ~> St 14; 58 ~> Tr 27; 65 -- 90 ~> St 14; 94 -- 122 ~> St 14; 124 ~> St 14;
        126 ~> St 14])].

Definition http_states_5 : part action := mkPart
  [(8, go [mark; request_path; request_uri] 20); (39, go [request_path; request_uri] 20);
   (55, go [start_query; query_string; request_uri] 20); (59, go [query_string; request_uri] 20)]
  [(19, wide [32 ~> Tr 37; 33 ~> St 19; 35 ~> Tr 39; 36 ~> St 19; 37 ~> St 24; 38 -- 46 ~> St 19; 47 ~> St 26;
        48 -- 57 ~> St 19; 59 ~> St 19; 61 ~> St 19; 63 ~> Tr 42; 64 -- 90 ~> St 19; 95 ~> St 19;
        97 -- 122 ~> St 19; 126 ~> St 19; 606 ~> St 19; 635 ~> St 19; 637 ~> St 19])].

Definition http_states_6 : part action := mkPart
  [(43, go [mark] 21); (45, go [mark] 22); (9, go [mark] 24)]
  [(20, wide [(-128) -- (-1) ~> Tr 43; 32 ~> Tr 44; 33 ~> Tr 43; 36 ~> Tr 43; 37 ~> Tr 45; 38 -- 59 ~> Tr 43;
        61 ~> Tr 43; 63 -- 90 ~> Tr 43; 95 ~> Tr 43; 97 -- 122 ~> Tr 43; 126 ~> Tr 43; 606 ~> Tr 43;
        635 ~> Tr 43; 637 ~> Tr 43]);
   (21, wide [(-128) -- (-1) ~> St 21; 32 ~> Tr 47; 33 ~> St 21; 36 ~> St 21; 37 ~> St 22; 38 -- 59 ~> St 21;
        61 ~> St 21; 63 -- 90 ~> St 21; 95 ~> St 21; 97 -- 122 ~> St 21; 126 ~> St 21; 606 ~> St 21;
        635 ~> St 21; 637 ~> St 21]);
   (22, plain [48 -- 57 ~> St 23; 65 -- 70 ~> St 23; 97 -- 102 ~> St 23]);
   (23, plain [48 -- 57 ~> St 21; 65 -- 70 ~> St 21; 97 -- 102 ~> St 21])].

Definition http_states_7 : part action := mkPart
  [(203, go [mark] 26); (204, go [mark] 27); (11, go [mark; request_path] 29); (42, go [request_path] 29)]
  [(24, plain [48 -- 57 ~> St 25; 65 -- 70 ~> St 25; 97 -- 102 ~> St 25]);
   (25, plain [48 -- 57 ~> St 19; 65 -- 70 ~> St 19; 97 -- 102 ~> St 19]);
   (26, wide [(-128) -- (-1) ~> St 26; 32 ~> Tr 37; 33 ~> St 26; 35 ~> Tr 39; 36 ~> St 26; 37 ~> St 27;
        38 -- 59 ~> St 26; 61 ~> St 26; 63 ~> Tr 42; 64 -- 90 ~> St 26; 95 ~> St 26; 97 -- 122 ~> St 26;
        126 ~> St 26; 606 ~> St 26; 635 ~> St 26; 637 ~> St 26]);
   (27, plain [48 -- 57 ~> St 28; 65 -- 70 ~> St 28; 97 -- 102 ~> St 28]);
   (28, plain [48 -- 57 ~> St 26; 65 -- 70 ~> St 26; 97 -- 102 ~> St 26])].

Definition http_states_8 : part action := mkPart
  [(53, go [start_query] 30); (56, go [start_query] 31); (10, go [mark] 33)]
  [(29, wide [(-128) -- (-1) ~> Tr 53; 32 ~> Tr 54; 33 ~> Tr 53; 35 ~> Tr 55; 36 ~> Tr 53; 37 ~> Tr 56;
        38 -- 59 ~> Tr 53; 61 ~> Tr 53; 63 -- 90 ~> Tr 53; 95 ~> Tr 53; 97 -- 122 ~> Tr 53; 126 ~> Tr 53;
        606 ~> Tr 53; 635 ~> Tr 53; 637 ~> Tr 53]);
   (30, wide [(-128) -- (-1) ~> St 30; 32 ~> Tr 58; 33 ~> St 30; 35 ~> Tr 59; 36 ~> St 30; 37 ~> St 31;
        38 -- 59 ~> St 30; 61 ~> St 30; 63 -- 90 ~> St 30; 95 ~> St 30; 97 -- 122 ~> St 30; 126 ~> St 30;
        606 ~> St 30; 635 ~> St 30; 637 ~> St 30]);
   (31, plain [48 -- 57 ~> St 32; 65 -- 70 ~> St 32; 97 -- 102 ~> St 32]);
   (32, plain [48 -- 57 ~> St 30; 65 -- 70 ~> St 30; 97 -- 102 ~> St 30])].

Definition http_states_9 : part action := mkPart
  []
  [(33, wide [(-128) -- (-1) ~> St 26; 32 ~> Tr 37; 33 ~> St 26; 35 ~> Tr 39; 36 ~> St 26; 37 ~> St 27;
        38 -- 46 ~> St 26; 47 ~> St 34; 48 -- 59 ~> St 26; 61 ~> St 26; 63 ~> Tr 42; 64 -- 90 ~> St 26;
        95 ~> St 26; 97 -- 122 ~> St 26; 126 ~> St 26; 606 ~> St 26; 635 ~> St 26; 637 ~> St 26]);
   (34, wide [32 ~> Tr 37; 33 ~> St 35; 35 ~> Tr 39; 36 ~> St 35; 37 ~> St 36; 38 -- 46 ~> St 35; 47 ~> St 26;
        48 -- 57 ~> St 35; 58 ~> St 38; 59 ~> St 35; 61 ~> St 35; 63 ~> Tr 42; 64 ~> St 42; 65 -- 90 ~> St 35;
        91 ~> St 47; 95 ~> St 35; 97 -- 122 ~> St 35; 126 ~> St 35; 606 ~> St 35; 635 ~> St 35; 637 ~> St 35])].

Definition http_states_10 : part action := mkPart
  []
  [(35, wide [32 ~> Tr 37; 33 ~> St 35; 35 ~> Tr 39; 36 ~> St 35; 37 ~> St 36; 38 -- 46 ~> St 35; 47 ~> St 26;
        48 -- 57 ~> St 35; 58 ~> St 38; 59 ~> St 35; 61 ~> St 35; 63 ~> Tr 42; 64 ~> St 42; 65 -- 90 ~> St 35;
        95 ~> St 35; 97 -- 122 ~> St 35; 126 ~> St 35; 606 ~> St 35; 635 ~> St 35; 637 ~> St 35]);
   (36, plain [48 -- 57 ~> St 37; 65 -- 70 ~> St 37; 97 -- 102 ~> St 37]);
   (37, plain [48 -- 57 ~> St 35; 65 -- 70 ~> St 35; 97 -- 102 ~> St 35]);
   (38, wide [32 ~> Tr 37; 33 ~> St 39; 35 ~> Tr 39; 36 ~> St 39; 37 ~> St 40; 38 -- 46 ~> St 39; 47 ~> St 26;
        48 -- 57 ~> St 38; 58 -- 59 ~> St 39; 61 ~> St 39; 63 ~> Tr 42; 64 ~> St 42; 65 -- 90 ~> St 39;
        95 ~> St 39; 97 -- 122 ~> St 39; 126 ~> St 39; 606 ~> St 39; 635 ~> St 39; 637 ~> St 39])].

Definition http_states_11 : part action := mkPart
  []
  [(39, wide [33 ~> St 39; 36 ~> St 39; 37 ~> St 40; 38 -- 46 ~> St 39; 48 -- 59 ~> St 39; 61 ~> St 39; 64 ~> St 42;
        65 -- 90 ~> St 39; 95 ~> St 39; 97 -- 122 ~> St 39; 126 ~> St 39; 606 ~> St 39; 635 ~> St 39;
        637 ~> St 39]);
   (40, plain [48 -- 57 ~> St 41; 65 -- 70 ~> St 41; 97 -- 102 ~> St 41]);
   (41, plain [48 -- 57 ~> St 39; 65 -- 70 ~> St 39; 97 -- 102 ~> St 39]);
   (42, wide [32 ~> Tr 37; 33 ~> St 43; 35 ~> Tr 39; 36 ~> St 43; 37 ~> St 44; 38 -- 46 ~> St 43; 47 ~> St 26;
        48 -- 57 ~> St 43; 58 ~> St 46; 59 ~> St 43; 61 ~> St 43; 63 ~> Tr 42; 65 -- 90 ~> St 43; 91 ~> St 47;
        95 ~> St 43; 97 -- 122 ~> St 43; 126 ~> St 43; 606 ~> St 43; 635 ~> St 43; 637 ~> St 43])].

Definition http_states_12 : part action := mkPart
  []
  [(43, wide [32 ~> Tr 37; 33 ~> St 43; 35 ~> Tr 39; 36 ~> St 43; 37 ~> St 44; 38 -- 46 ~> St 43; 47 ~> St 26;
        48 -- 57 ~> St 43; 58 ~> St 46; 59 ~> St 43; 61 ~> St 43; 63 ~> Tr 42; 65 -- 90 ~> St 43; 95 ~> St 43;
        97 -- 122 ~> St 43; 126 ~> St 43; 606 ~> St 43; 635 ~> St 43; 637 ~> St 43]);
   (44, plain [48 -- 57 ~> St 45; 65 -- 70 ~> St 45; 97 -- 102 ~> St 45]);
   (45, plain [48 -- 57 ~> St 43; 65 -- 70 ~> St 43; 97 -- 102 ~> St 43]);
   (46, plain [32 ~> Tr 37; 35 ~> Tr 39; 47 ~> St 26; 48 -- 57 ~> St 46; 63 ~> Tr 42]);
   (47, plain [6 ~> St 48; 48 -- 57 ~> St 91; 58 ~> St 167; 65 -- 70 ~> St 91; 97 -- 102 ~> St 91; 118 ~> St 169]);
   (48, plain [48 -- 57 ~> St 49; 65 -- 70 ~> St 49; 97 -- 102 ~> St 49]);
   (49, plain [48 -- 57 ~> St 50; 58 ~> St 53; 65 -- 70 ~> St 50; 97 -- 102 ~> St 50])].

Definition http_states_13 : part action := mkPart
  []
  [(50, plain [48 -- 57 ~> St 51; 58 ~> St 53; 65 -- 70 ~> St 51; 97 -- 102 ~> St 51]);
   (51, plain [48 -- 57 ~> St 52; 58 ~> St 53; 65 -- 70 ~> St 52; 97 -- 102 ~> St 52]);
   (52, plain [58 ~> St 53]);
   (53, plain [48 ~> St 54; 49 ~> St 84; 50 ~> St 87; 51 -- 57 ~> St 54; 65 -- 70 ~> St 90; 97 -- 102 ~> St 90]);
   (54, plain [46 ~> St 55; 48 -- 57 ~> St 77; 58 ~> St 80; 65 -- 70 ~> St 77; 97 -- 102 ~> St 77]);
   (55, plain [48 ~> St 56; 49 ~> St 72; 50 ~> St 74; 51 -- 57 ~> St 56]);
   (56, plain [46 ~> St 57]);
   (57, plain [48 ~> St 58; 49 ~> St 67; 50 ~> St 69; 51 -- 57 ~> St 58]);
   (58, plain [46 ~> St 59]);
   (59, plain [48 ~> St 60; 49 ~> St 62; 50 ~> St 64; 51 -- 57 ~> St 60]);
   (60, plain [93 ~> St 61]);
   (61, plain [32 ~> Tr 37; 35 ~> Tr 39; 47 ~> St 26; 58 ~> St 46; 63 ~> Tr 42])].

Definition http_states_14 : part action := mkPart
  []
  [(62, plain [48 -- 57 ~> St 63; 93 ~> St 61]);
   (63, plain [48 -- 57 ~> St 60; 93 ~> St 61]);
   (64, plain [48 ~> St 65; 53 ~> St 66; 93 ~> St 61]);
   (65, plain [48 -- 57 ~> St 60]);
   (66, plain [48 ~> St 60]);
   (67, plain [46 ~> St 59; 48 -- 57 ~> St 68]);
   (68, plain [46 ~> St 59; 48 -- 57 ~> St 58]);
   (69, plain [46 ~> St 59; 48 ~> St 70; 53 ~> St 71]);
   (70, plain [48 -- 57 ~> St 58]);
   (71, plain [48 ~> St 58]);
   (72, plain [46 ~> St 57; 48 -- 57 ~> St 73]);
   (73, plain [46 ~> St 57; 48 -- 57 ~> St 56]);
   (74, plain [46 ~> St 57; 48 ~> St 75; 53 ~> St 76]);
   (75, plain [48 -- 57 ~> St 56]);
   (76, plain [48 ~> St 56]);
   (77, plain [48 -- 57 ~> St 78; 58 ~> St 80; 65 -- 70 ~> St 78; 97 -- 102 ~> St 78])].

Definition http_states_15 : part action := mkPart
  []
  [(78, plain [48 -- 57 ~> St 79; 58 ~> St 80; 65 -- 70 ~> St 79; 97 -- 102 ~> St 79]);
   (79, plain [58 ~> St 80]);
   (80, plain [48 -- 57 ~> St 81; 65 -- 70 ~> St 81; 97 -- 102 ~> St 81]);
   (81, plain [48 -- 57 ~> St 82; 65 -- 70 ~> St 82; 93 ~> St 61; 97 -- 102 ~> St 82]);
   (82, plain [48 -- 57 ~> St 83; 65 -- 70 ~> St 83; 93 ~> St 61; 97 -- 102 ~> St 83]);
   (83, plain [48 -- 57 ~> St 60; 65 -- 70 ~> St 60; 93 ~> St 61; 97 -- 102 ~> St 60]);
   (84, plain [46 ~> St 55; 48 -- 57 ~> St 85; 58 ~> St 80; 65 -- 70 ~> St 77; 97 -- 102 ~> St 77]);
   (85, plain [46 ~> St 55; 48 -- 57 ~> St 86; 58 ~> St 80; 65 -- 70 ~> St 78; 97 -- 102 ~> St 78]);
   (86, plain [46 ~> St 55; 48 -- 57 ~> St 79; 58 ~> St 80; 65 -- 70 ~> St 79; 97 -- 102 ~> St 79])].

Definition http_states_16 : part action := mkPart
  []
  [(87, plain [46 ~> St 55; 48 ~> St 88; 49 -- 52 ~> St 77; 53 ~> St 89; 54 -- 57 ~> St 77; 58 ~> St 80;
        65 -- 70 ~> St 77; 97 -- 102 ~> St 77]);
   (88, plain [48 -- 57 ~> St 86; 58 ~> St 80; 65 -- 70 ~> St 78; 97 -- 102 ~> St 78]);
   (89, plain [48 ~> St 86; 49 -- 57 ~> St 78; 58 ~> St 80; 65 -- 70 ~> St 78; 97 -- 102 ~> St 78]);
   (90, plain [48 -- 57 ~> St 77; 58 ~> St 80; 65 -- 70 ~> St 77; 97 -- 102 ~> St 77]);
   (91, plain [48 -- 57 ~> St 92; 58 ~> St 95; 65 -- 70 ~> St 92; 97 -- 102 ~> St 92]);
   (92, plain [48 -- 57 ~> St 93; 58 ~> St 95; 65 -- 70 ~> St 93; 97 -- 102 ~> St 93]);
   (93, plain [48 -- 57 ~> St 94; 58 ~> St 95; 65 -- 70 ~> St 94; 97 -- 102 ~> St 94]);
   (94, plain [58 ~> St 95]);
   (95, plain [48 -- 57 ~> St 96; 58 ~> St 166; 65 -- 70 ~> St 96; 97 -- 102 ~> St 96])].

Definition http_states_17 : part action := mkPart
  []
  [(96, plain [48 -- 57 ~> St 97; 58 ~> St 100; 65 -- 70 ~> St 97; 97 -- 102 ~> St 97]);
   (97, plain [48 -- 57 ~> St 98; 58 ~> St 100; 65 -- 70 ~> St 98; 97 -- 102 ~> St 98]);
   (98, plain [48 -- 57 ~> St 99; 58 ~> St 100; 65 -- 70 ~> St 99; 97 -- 102 ~> St 99]);
   (99, plain [58 ~> St 100]);
   (100, plain [48 -- 57 ~> St 101; 58 ~> St 165; 65 -- 70 ~> St 101; 97 -- 102 ~> St 101]);
   (101, plain [48 -- 57 ~> St 102; 58 ~> St 105; 65 -- 70 ~> St 102; 97 -- 102 ~> St 102]);
   (102, plain [48 -- 57 ~> St 103; 58 ~> St 105; 65 -- 70 ~> St 103; 97 -- 102 ~> St 103]);
   (103, plain [48 -- 57 ~> St 104; 58 ~> St 105; 65 -- 70 ~> St 104; 97 -- 102 ~> St 104]);
   (104, plain [58 ~> St 105]);
   (105, plain [48 -- 57 ~> St 106; 58 ~> St 164; 65 -- 70 ~> St 106; 97 -- 102 ~> St 106])].

Definition http_states_18 : part action := mkPart
  []
  [(106, plain [48 -- 57 ~> St 107; 58 ~> St 110; 65 -- 70 ~> St 107; 97 -- 102 ~> St 107]);
   (107, plain [48 -- 57 ~> St 108; 58 ~> St 110; 65 -- 70 ~> St 108; 97 -- 102 ~> St 108]);
   (108, plain [48 -- 57 ~> St 109; 58 ~> St 110; 65 -- 70 ~> St 109; 97 -- 102 ~> St 109]);
   (109, plain [58 ~> St 110]);
   (110, plain [48 -- 57 ~> St 111; 58 ~> St 163; 65 -- 70 ~> St 111; 97 -- 102 ~> St 111]);
   (111, plain [48 -- 57 ~> St 112; 58 ~> St 115; 65 -- 70 ~> St 112; 97 -- 102 ~> St 112]);
   (112, plain [48 -- 57 ~> St 113; 58 ~> St 115; 65 -- 70 ~> St 113; 97 -- 102 ~> St 113]);
   (113, plain [48 -- 57 ~> St 114; 58 ~> St 115; 65 -- 70 ~> St 114; 97 -- 102 ~> St 114]);
   (114, plain [58 ~> St 115]);
   (115, plain [48 -- 57 ~> St 116; 58 ~> St 151; 65 -- 70 ~> St 116; 97 -- 102 ~> St 116])].

Definition http_states_19 : part action := mkPart
  []
  [(116, plain [48 -- 57 ~> St 117; 58 ~> St 120; 65 -- 70 ~> St 117; 97 -- 102 ~> St 117]);
   (117, plain [48 -- 57 ~> St 118; 58 ~> St 120; 65 -- 70 ~> St 118; 97 -- 102 ~> St 118]);
   (118, plain [48 -- 57 ~> St 119; 58 ~> St 120; 65 -- 70 ~> St 119; 97 -- 102 ~> St 119]);
   (119, plain [58 ~> St 120]);
   (120, plain [48 -- 57 ~> St 121; 58 ~> St 150; 65 -- 70 ~> St 121; 97 -- 102 ~> St 121]);
   (121, plain [48 -- 57 ~> St 122; 58 ~> St 125; 65 -- 70 ~> St 122; 97 -- 102 ~> St 122]);
   (122, plain [48 -- 57 ~> St 123; 58 ~> St 125; 65 -- 70 ~> St 123; 97 -- 102 ~> St 123]);
   (123, plain [48 -- 57 ~> St 124; 58 ~> St 125; 65 -- 70 ~> St 124; 97 -- 102 ~> St 124]);
   (124, plain [58 ~> St 125]);
   (125, plain [48 -- 57 ~> St 121; 58 ~> St 126; 65 -- 70 ~> St 121; 97 -- 102 ~> St 121])].

Definition http_states_20 : part action := mkPart
  []
  [(126, plain [2 -- 3 ~> St 48; 48 ~> St 127; 49 ~> St 143; 50 ~> St 146; 51 -- 57 ~> St 127; 65 -- 70 ~> St 149;
        93 ~> St 61; 97 -- 102 ~> St 149]);
   (127, plain [46 ~> St 55; 48 -- 57 ~> St 128; 58 ~> St 131; 65 -- 70 ~> St 128; 93 ~> St 61; 97 -- 102 ~> St 128]);
   (128, plain [48 -- 57 ~> St 129; 58 ~> St 131; 65 -- 70 ~> St 129; 93 ~> St 61; 97 -- 102 ~> St 129]);
   (129, plain [48 -- 57 ~> St 130; 58 ~> St 131; 65 -- 70 ~> St 130; 93 ~> St 61; 97 -- 102 ~> St 130]);
   (130, plain [58 ~> St 131; 93 ~> St 61]);
   (131, plain [48 ~> St 132; 49 ~> St 136; 50 ~> St 139; 51 -- 57 ~> St 132; 65 -- 70 ~> St 142; 97 -- 102 ~> St 142]);
   (132, plain [46 ~> St 55; 48 -- 57 ~> St 133; 58 ~> St 80; 65 -- 70 ~> St 133; 93 ~> St 61; 97 -- 102 ~> St 133]);
   (133, plain [48 -- 57 ~> St 134; 58 ~> St 80; 65 -- 70 ~> St 134; 93 ~> St 61; 97 -- 102 ~> St 134])].

Definition http_states_21 : part action := mkPart
  []
  [(134, plain [48 -- 57 ~> St 135; 58 ~> St 80; 65 -- 70 ~> St 135; 93 ~> St 61; 97 -- 102 ~> St 135]);
   (135, plain [58 ~> St 80; 93 ~> St 61]);
   (136, plain [46 ~> St 55; 48 -- 57 ~> St 137; 58 ~> St 80; 65 -- 70 ~> St 133; 93 ~> St 61; 97 -- 102 ~> St 133]);
   (137, plain [46 ~> St 55; 48 -- 57 ~> St 138; 58 ~> St 80; 65 -- 70 ~> St 134; 93 ~> St 61; 97 -- 102 ~> St 134]);
   (138, plain [46 ~> St 55; 48 -- 57 ~> St 135; 58 ~> St 80; 65 -- 70 ~> St 135; 93 ~> St 61; 97 -- 102 ~> St 135]);
   (139, plain [46 ~> St 55; 48 ~> St 140; 49 -- 52 ~> St 133; 53 ~> St 141; 54 -- 57 ~> St 133; 58 ~> St 80;
        65 -- 70 ~> St 133; 93 ~> St 61; 97 -- 102 ~> St 133]);
   (140, plain [48 -- 57 ~> St 138; 58 ~> St 80; 65 -- 70 ~> St 134; 93 ~> St 61; 97 -- 102 ~> St 134]);
   (141, plain [48 ~> St 138; 49 -- 57 ~> St 134; 58 ~> St 80; 65 -- 70 ~> St 134; 93 ~> St 61; 97 -- 102 ~> St 134])].

Definition http_states_22 : part action := mkPart
  []
  [(142, plain [48 -- 57 ~> St 133; 58 ~> St 80; 65 -- 70 ~> St 133; 93 ~> St 61; 97 -- 102 ~> St 133]);
   (143, plain [46 ~> St 55; 48 -- 57 ~> St 144; 58 ~> St 131; 65 -- 70 ~> St 128; 93 ~> St 61; 97 -- 102 ~> St 128]);
   (144, plain [46 ~> St 55; 48 -- 57 ~> St 145; 58 ~> St 131; 65 -- 70 ~> St 129; 93 ~> St 61; 97 -- 102 ~> St 129]);
   (145, plain [46 ~> St 55; 48 -- 57 ~> St 130; 58 ~> St 131; 65 -- 70 ~> St 130; 93 ~> St 61; 97 -- 102 ~> St 130]);
   (146, plain [46 ~> St 55; 48 ~> St 147; 49 -- 52 ~> St 128; 53 ~> St 148; 54 -- 57 ~> St 128; 58 ~> St 131;
        65 -- 70 ~> St 128; 93 ~> St 61; 97 -- 102 ~> St 128]);
   (147, plain [48 -- 57 ~> St 145; 58 ~> St 131; 65 -- 70 ~> St 129; 93 ~> St 61; 97 -- 102 ~> St 129]);
   (148, plain [48 ~> St 145; 49 -- 57 ~> St 129; 58 ~> St 131; 65 -- 70 ~> St 129; 93 ~> St 61; 97 -- 102 ~> St 129]);
   (149, plain [48 -- 57 ~> St 128; 58 ~> St 131; 65 -- 70 ~> St 128; 93 ~> St 61; 97 -- 102 ~> St 128])].

Definition http_states_23 : part action := mkPart
  []
  [(150, plain [2 -- 3 ~> St 48; 48 ~> St 127; 49 ~> St 143; 50 ~> St 146; 51 -- 57 ~> St 127; 65 -- 70 ~> St 149;
        97 -- 102 ~> St 149]);
   (151, plain [2 -- 3 ~> St 48; 48 ~> St 152; 49 ~> St 156; 50 ~> St 159; 51 -- 57 ~> St 152; 65 -- 70 ~> St 162;
        97 -- 102 ~> St 162]);
   (152, plain [46 ~> St 55; 48 -- 57 ~> St 153; 58 ~> St 131; 65 -- 70 ~> St 153; 97 -- 102 ~> St 153]);
   (153, plain [48 -- 57 ~> St 154; 58 ~> St 131; 65 -- 70 ~> St 154; 97 -- 102 ~> St 154]);
   (154, plain [48 -- 57 ~> St 155; 58 ~> St 131; 65 -- 70 ~> St 155; 97 -- 102 ~> St 155]);
   (155, plain [58 ~> St 131]);
   (156, plain [46 ~> St 55; 48 -- 57 ~> St 157; 58 ~> St 131; 65 -- 70 ~> St 153; 97 -- 102 ~> St 153]);
   (157, plain [46 ~> St 55; 48 -- 57 ~> St 158; 58 ~> St 131; 65 -- 70 ~> St 154; 97 -- 102 ~> St 154]);
   (158, plain [46 ~> St 55; 48 -- 57 ~> St 155; 58 ~> St 131; 65 -- 70 ~> St 155; 97 -- 102 ~> St 155])].

Definition http_states_24 : part action := mkPart
  []
  [(159, plain [46 ~> St 55; 48 ~> St 160; 49 -- 52 ~> St 153; 53 ~> St 161; 54 -- 57 ~> St 153; 58 ~> St 131;
        65 -- 70 ~> St 153; 97 -- 102 ~> St 153]);
   (160, plain [48 -- 57 ~> St 158; 58 ~> St 131; 65 -- 70 ~> St 154; 97 -- 102 ~> St 154]);
   (161, plain [48 ~> St 158; 49 -- 57 ~> St 154; 58 ~> St 131; 65 -- 70 ~> St 154; 97 -- 102 ~> St 154]);
   (162, plain [48 -- 57 ~> St 153; 58 ~> St 131; 65 -- 70 ~> St 153; 97 -- 102 ~> St 153]);
   (163, plain [2 -- 3 ~> St 48; 48 -- 57 ~> St 49; 65 -- 70 ~> St 49; 97 -- 102 ~> St 49]);
   (164, plain [2 -- 3 ~> St 48]);
   (165, plain [3 ~> St 48]);
   (166, plain [4 ~> St 48]);
   (167, plain [58 ~> St 168]);
   (168, plain [2 -- 5 ~> St 48; 48 ~> St 127; 49 ~> St 143; 50 ~> St 146; 51 -- 57 ~> St 127; 65 -- 70 ~> St 149;
        93 ~> St 61; 97 -- 102 ~> St 149]);
   (169, plain [48 -- 57 ~> St 170; 65 -- 70 ~> St 170; 97 -- 102 ~> St 170])].

Definition http_states_25 : part action := mkPart
  [(12, go [mark] 173)]
  [(170, plain [46 ~> St 171; 48 -- 57 ~> St 170; 65 -- 70 ~> St 170; 97 -- 102 ~> St 170]);
   (171, wide [33 ~> St 172; 36 ~> St 172; 38 -- 46 ~> St 172; 48 -- 59 ~> St 172; 61 ~> St 172; 65 -- 90 ~> St 172;
        95 ~> St 172; 97 -- 122 ~> St 172; 126 ~> St 172; 606 ~> St 172; 635 ~> St 172; 637 ~> St 172]);
   (172, wide [33 ~> St 172; 36 ~> St 172; 38 -- 46 ~> St 172; 48 -- 59 ~> St 172; 61 ~> St 172; 65 -- 90 ~> St 172;
        93 ~> St 61; 95 ~> St 172; 97 -- 122 ~> St 172; 126 ~> St 172; 606 ~> St 172; 635 ~> St 172;
        637 ~> St 172])].

Definition http_states_26 : part action := mkPart
  []
  [(173, wide [32 ~> Tr 37; 33 ~> St 19; 35 ~> Tr 39; 36 ~> St 19; 37 ~> St 24; 38 -- 42 ~> St 19; 43 ~> St 173;
        44 ~> St 19; 45 -- 46 ~> St 173; 47 ~> St 26; 48 -- 57 ~> St 173; 58 ~> St 174; 59 ~> St 19;
        61 ~> St 19; 63 ~> Tr 42; 64 ~> St 19; 65 -- 90 ~> St 173; 95 ~> St 19; 97 -- 122 ~> St 173;
        126 ~> St 19; 606 ~> St 19; 635 ~> St 19; 637 ~> St 19]);
   (174, wide [(-128) -- (-1) ~> Tr 203; 32 ~> Tr 6; 33 ~> Tr 203; 35 ~> Tr 8; 36 ~> Tr 203; 37 ~> Tr 204;
        38 -- 46 ~> Tr 203; 47 ~> Tr 10; 48 -- 59 ~> Tr 203; 61 ~> Tr 203; 63 ~> Tr 11; 64 -- 90 ~> Tr 203;
        95 ~> Tr 203; 97 -- 122 ~> Tr 203; 126 ~> Tr 203; 606 ~> Tr 203; 635 ~> Tr 203; 637 ~> Tr 203]);
   (175, plain [32 ~> Tr 4; 48 -- 57 ~> St 176; 65 -- 90 ~> St 176]);
   (176, plain [32 ~> Tr 4; 48 -- 57 ~> St 177; 65 -- 90 ~> St 177]);
   (177, plain [32 ~> Tr 4; 48 -- 57 ~> St 178; 65 -- 90 ~> St 178])].

Definition http_states_27 : part action := mkPart
  []
  [(178, plain [32 ~> Tr 4; 48 -- 57 ~> St 179; 65 -- 90 ~> St 179]);
   (179, plain [32 ~> Tr 4; 48 -- 57 ~> St 180; 65 -- 90 ~> St 180]);
   (180, plain [32 ~> Tr 4; 48 -- 57 ~> St 181; 65 -- 90 ~> St 181]);
   (181, plain [32 ~> Tr 4; 48 -- 57 ~> St 182; 65 -- 90 ~> St 182]);
   (182, plain [32 ~> Tr 4; 48 -- 57 ~> St 183; 65 -- 90 ~> St 183]);
   (183, plain [32 ~> Tr 4; 48 -- 57 ~> St 184; 65 -- 90 ~> St 184]);
   (184, plain [32 ~> Tr 4; 48 -- 57 ~> St 185; 65 -- 90 ~> St 185]);
   (185, plain [32 ~> Tr 4; 48 -- 57 ~> St 186; 65 -- 90 ~> St 186]);
   (186, plain [32 ~> Tr 4; 48 -- 57 ~> St 187; 65 -- 90 ~> St 187]);
   (187, plain [32 ~> Tr 4; 48 -- 57 ~> St 188; 65 -- 90 ~> St 188]);
   (188, plain [32 ~> Tr 4; 48 -- 57 ~> St 189; 65 -- 90 ~> St 189]);
   (189, plain [32 ~> Tr 4; 48 -- 57 ~> St 190; 65 -- 90 ~> St 190])].

Definition http_states_28 : part action := mkPart
  [(2, go [mark] 194); (224, go [request_path] 196); (227, go [xml; done] 349)]
  [(190, plain [32 ~> Tr 4; 48 -- 57 ~> St 191; 65 -- 90 ~> St 191]);
   (191, plain [32 ~> Tr 4; 48 -- 57 ~> St 192; 65 -- 90 ~> St 192]);
   (192, plain [32 ~> Tr 4; 48 -- 57 ~> St 193; 65 -- 90 ~> St 193]);
   (193, plain [32 ~> Tr 4]);
   (194, plain [45 -- 46 ~> St 195; 48 -- 57 ~> St 195; 65 -- 90 ~> St 195; 97 -- 122 ~> St 195]);
   (195, plain [9 -- 13 ~> Tr 224; 32 ~> Tr 224; 45 -- 46 ~> St 195; 47 ~> Tr 224; 48 -- 57 ~> St 195; 62 ~> Tr 224;
        65 -- 90 ~> St 195; 97 -- 122 ~> St 195]);
   (196, plain [(-128) -- 61 ~> St 196; 62 ~> St 197; 63 -- 127 ~> St 196]);
   (197, plain [(-128) -- (-1) ~> St 196; 0 ~> Tr 227; 1 -- 61 ~> St 196; 62 ~> St 197; 63 -- 127 ~> St 196])].

Definition http_states_29 : part action := mkPart
  [(235, go [json; done] 349); (3, go [mark] 198); (228, go [request_path] 199); (232, go [mark] 200)]
  [(349, plain []);
   (198, wide [32 ~> Tr 228; 33 ~> St 202; 36 ~> St 202; 37 ~> St 203; 38 -- 46 ~> St 202; 47 ~> St 208;
        48 -- 57 ~> St 202; 59 ~> St 202; 61 ~> St 202; 64 -- 90 ~> St 202; 95 ~> St 202; 97 -- 122 ~> St 202;
        126 ~> St 202; 606 ~> St 202; 635 ~> St 202; 637 ~> St 202]);
   (199, plain [123 ~> Tr 232]);
   (200, plain [(-128) -- 124 ~> St 200; 125 ~> St 201; 126 -- 127 ~> St 200]);
   (201, plain [(-128) -- (-1) ~> St 200; 0 ~> Tr 235; 1 -- 124 ~> St 200; 125 ~> St 201; 126 -- 127 ~> St 200])].

Definition http_states_30 : part action := mkPart
  []
  [(202, wide [32 ~> Tr 228; 33 ~> St 202; 36 ~> St 202; 37 ~> St 203; 38 -- 46 ~> St 202; 47 ~> St 205;
        48 -- 57 ~> St 202; 59 ~> St 202; 61 ~> St 202; 64 -- 90 ~> St 202; 95 ~> St 202; 97 -- 122 ~> St 202;
        126 ~> St 202; 606 ~> St 202; 635 ~> St 202; 637 ~> St 202]);
   (203, plain [48 -- 57 ~> St 204; 65 -- 70 ~> St 204; 97 -- 102 ~> St 204]);
   (204, plain [48 -- 57 ~> St 202; 65 -- 70 ~> St 202; 97 -- 102 ~> St 202]);
   (205, wide [(-128) -- (-1) ~> St 205; 32 ~> Tr 228; 33 ~> St 205; 36 ~> St 205; 37 ~> St 206; 38 -- 59 ~> St 205;
        61 ~> St 205; 64 -- 90 ~> St 205; 95 ~> St 205; 97 -- 122 ~> St 205; 126 ~> St 205; 606 ~> St 205;
        635 ~> St 205; 637 ~> St 205]);
   (206, plain [48 -- 57 ~> St 207; 65 -- 70 ~> St 207; 97 -- 102 ~> St 207])].

Definition http_states_31 : part action := mkPart
  []
  [(207, plain [48 -- 57 ~> St 205; 65 -- 70 ~> St 205; 97 -- 102 ~> St 205]);
   (208, wide [(-128) -- (-1) ~> St 205; 32 ~> Tr 228; 33 ~> St 205; 36 ~> St 205; 37 ~> St 206; 38 -- 46 ~> St 205;
        47 ~> St 209; 48 -- 59 ~> St 205; 61 ~> St 205; 64 -- 90 ~> St 205; 95 ~> St 205; 97 -- 122 ~> St 205;
        126 ~> St 205; 606 ~> St 205; 635 ~> St 205; 637 ~> St 205]);
   (209, wide [32 ~> Tr 228; 33 ~> St 210; 36 ~> St 210; 37 ~> St 211; 38 -- 46 ~> St 210; 47 ~> St 205;
        48 -- 57 ~> St 210; 58 ~> St 213; 59 ~> St 210; 61 ~> St 210; 64 ~> St 217; 65 -- 90 ~> St 210;
        91 ~> St 222; 95 ~> St 210; 97 -- 122 ~> St 210; 126 ~> St 210; 606 ~> St 210; 635 ~> St 210;
        637 ~> St 210])].

Definition http_states_32 : part action := mkPart
  []
  [(210, wide [32 ~> Tr 228; 33 ~> St 210; 36 ~> St 210; 37 ~> St 211; 38 -- 46 ~> St 210; 47 ~> St 205;
        48 -- 57 ~> St 210; 58 ~> St 213; 59 ~> St 210; 61 ~> St 210; 64 ~> St 217; 65 -- 90 ~> St 210;
        95 ~> St 210; 97 -- 122 ~> St 210; 126 ~> St 210; 606 ~> St 210; 635 ~> St 210; 637 ~> St 210]);
   (211, plain [48 -- 57 ~> St 212; 65 -- 70 ~> St 212; 97 -- 102 ~> St 212]);
   (212, plain [48 -- 57 ~> St 210; 65 -- 70 ~> St 210; 97 -- 102 ~> St 210]);
   (213, wide [32 ~> Tr 228; 33 ~> St 214; 36 ~> St 214; 37 ~> St 215; 38 -- 46 ~> St 214; 47 ~> St 205;
        48 -- 57 ~> St 213; 58 -- 59 ~> St 214; 61 ~> St 214; 64 ~> St 217; 65 -- 90 ~> St 214; 95 ~> St 214;
        97 -- 122 ~> St 214; 126 ~> St 214; 606 ~> St 214; 635 ~> St 214; 637 ~> St 214])].

Definition http_states_33 : part action := mkPart
  []
  [(214, wide [33 ~> St 214; 36 ~> St 214; 37 ~> St 215; 38 -- 46 ~> St 214; 48 -- 59 ~> St 214; 61 ~> St 214;
        64 ~> St 217; 65 -- 90 ~> St 214; 95 ~> St 214; 97 -- 122 ~> St 214; 126 ~> St 214; 606 ~> St 214;
        635 ~> St 214; 637 ~> St 214]);
   (215, plain [48 -- 57 ~> St 216; 65 -- 70 ~> St 216; 97 -- 102 ~> St 216]);
   (216, plain [48 -- 57 ~> St 214; 65 -- 70 ~> St 214; 97 -- 102 ~> St 214]);
   (217, wide [32 ~> Tr 228; 33 ~> St 218; 36 ~> St 218; 37 ~> St 219; 38 -- 46 ~> St 218; 47 ~> St 205;
        48 -- 57 ~> St 218; 58 ~> St 221; 59 ~> St 218; 61 ~> St 218; 65 -- 90 ~> St 218; 91 ~> St 222;
        95 ~> St 218; 97 -- 122 ~> St 218; 126 ~> St 218; 606 ~> St 218; 635 ~> St 218; 637 ~> St 218])].

Definition http_states_34 : part action := mkPart
  []
  [(218, wide [32 ~> Tr 228; 33 ~> St 218; 36 ~> St 218; 37 ~> St 219; 38 -- 46 ~> St 218; 47 ~> St 205;
        48 -- 57 ~> St 218; 58 ~> St 221; 59 ~> St 218; 61 ~> St 218; 65 -- 90 ~> St 218; 95 ~> St 218;
        97 -- 122 ~> St 218; 126 ~> St 218; 606 ~> St 218; 635 ~> St 218; 637 ~> St 218]);
   (219, plain [48 -- 57 ~> St 220; 65 -- 70 ~> St 220; 97 -- 102 ~> St 220]);
   (220, plain [48 -- 57 ~> St 218; 65 -- 70 ~> St 218; 97 -- 102 ~> St 218]);
   (221, plain [32 ~> Tr 228; 47 ~> St 205; 48 -- 57 ~> St 221]);
   (222, plain [6 ~> St 223; 48 -- 57 ~> St 266; 58 ~> St 342; 65 -- 70 ~> St 266; 97 -- 102 ~> St 266; 118 ~> St 344]);
   (223, plain [48 -- 57 ~> St 224; 65 -- 70 ~> St 224; 97 -- 102 ~> St 224]);
   (224, plain [48 -- 57 ~> St 225; 58 ~> St 228; 65 -- 70 ~> St 225; 97 -- 102 ~> St 225]);
   (225, plain [48 -- 57 ~> St 226; 58 ~> St 228; 65 -- 70 ~> St 226; 97 -- 102 ~> St 226])].

Definition http_states_35 : part action := mkPart
  []
  [(226, plain [48 -- 57 ~> St 227; 58 ~> St 228; 65 -- 70 ~> St 227; 97 -- 102 ~> St 227]);
   (227, plain [58 ~> St 228]);
   (228, plain [48 ~> St 229; 49 ~> St 259; 50 ~> St 262; 51 -- 57 ~> St 229; 65 -- 70 ~> St 265; 97 -- 102 ~> St 265]);
   (229, plain [46 ~> St 230; 48 -- 57 ~> St 252; 58 ~> St 255; 65 -- 70 ~> St 252; 97 -- 102 ~> St 252]);
   (230, plain [48 ~> St 231; 49 ~> St 247; 50 ~> St 249; 51 -- 57 ~> St 231]);
   (231, plain [46 ~> St 232]);
   (232, plain [48 ~> St 233; 49 ~> St 242; 50 ~> St 244; 51 -- 57 ~> St 233]);
   (233, plain [46 ~> St 234]);
   (234, plain [48 ~> St 235; 49 ~> St 237; 50 ~> St 239; 51 -- 57 ~> St 235]);
   (235, plain [93 ~> St 236]);
   (236, plain [32 ~> Tr 228; 47 ~> St 205; 58 ~> St 221]);
   (237, plain [48 -- 57 ~> St 238; 93 ~> St 236]);
   (238, plain [48 -- 57 ~> St 235; 93 ~> St 236])].

Definition http_states_36 : part action := mkPart
  []
  [(239, plain [48 ~> St 240; 53 ~> St 241; 93 ~> St 236]);
   (240, plain [48 -- 57 ~> St 235]);
   (241, plain [48 ~> St 235]);
   (242, plain [46 ~> St 234; 48 -- 57 ~> St 243]);
   (243, plain [46 ~> St 234; 48 -- 57 ~> St 233]);
   (244, plain [46 ~> St 234; 48 ~> St 245; 53 ~> St 246]);
   (245, plain [48 -- 57 ~> St 233]);
   (246, plain [48 ~> St 233]);
   (247, plain [46 ~> St 232; 48 -- 57 ~> St 248]);
   (248, plain [46 ~> St 232; 48 -- 57 ~> St 231]);
   (249, plain [46 ~> St 232; 48 ~> St 250; 53 ~> St 251]);
   (250, plain [48 -- 57 ~> St 231]);
   (251, plain [48 ~> St 231]);
   (252, plain [48 -- 57 ~> St 253; 58 ~> St 255; 65 -- 70 ~> St 253; 97 -- 102 ~> St 253]);
   (253, plain [48 -- 57 ~> St 254; 58 ~> St 255; 65 -- 70 ~> St 254; 97 -- 102 ~> St 254]);
   (254, plain [58 ~> St 255])].

Definition http_states_37 : part action := mkPart
  []
  [(255, plain [48 -- 57 ~> St 256; 65 -- 70 ~> St 256; 97 -- 102 ~> St 256]);
   (256, plain [48 -- 57 ~> St 257; 65 -- 70 ~> St 257; 93 ~> St 236; 97 -- 102 ~> St 257]);
   (257, plain [48 -- 57 ~> St 258; 65 -- 70 ~> St 258; 93 ~> St 236; 97 -- 102 ~> St 258]);
   (258, plain [48 -- 57 ~> St 235; 65 -- 70 ~> St 235; 93 ~> St 236; 97 -- 102 ~> St 235]);
   (259, plain [46 ~> St 230; 48 -- 57 ~> St 260; 58 ~> St 255; 65 -- 70 ~> St 252; 97 -- 102 ~> St 252]);
   (260, plain [46 ~> St 230; 48 -- 57 ~> St 261; 58 ~> St 255; 65 -- 70 ~> St 253; 97 -- 102 ~> St 253]);
   (261, plain [46 ~> St 230; 48 -- 57 ~> St 254; 58 ~> St 255; 65 -- 70 ~> St 254; 97 -- 102 ~> St 254]);
   (262, plain [46 ~> St 230; 48 ~> St 263; 49 -- 52 ~> St 252; 53 ~> St 264; 54 -- 57 ~> St 252; 58 ~> St 255;
        65 -- 70 ~> St 252; 97 -- 102 ~> St 252]);
   (263, plain [48 -- 57 ~> St 261; 58 ~> St 255; 65 -- 70 ~> St 253; 97 -- 102 ~> St 253])].

Definition http_states_38 : part action := mkPart
  []
  [(264, plain [48 ~> St 261; 49 -- 57 ~> St 253; 58 ~> St 255; 65 -- 70 ~> St 253; 97 -- 102 ~> St 253]);
   (265, plain [48 -- 57 ~> St 252; 58 ~> St 255; 65 -- 70 ~> St 252; 97 -- 102 ~> St 252]);
   (266, plain [48 -- 57 ~> St 267; 58 ~> St 270; 65 -- 70 ~> St 267; 97 -- 102 ~> St 267]);
   (267, plain [48 -- 57 ~> St 268; 58 ~> St 270; 65 -- 70 ~> St 268; 97 -- 102 ~> St 268]);
   (268, plain [48 -- 57 ~> St 269; 58 ~> St 270; 65 -- 70 ~> St 269; 97 -- 102 ~> St 269]);
   (269, plain [58 ~> St 270]);
   (270, plain [48 -- 57 ~> St 271; 58 ~> St 341; 65 -- 70 ~> St 271; 97 -- 102 ~> St 271]);
   (271, plain [48 -- 57 ~> St 272; 58 ~> St 275; 65 -- 70 ~> St 272; 97 -- 102 ~> St 272]);
   (272, plain [48 -- 57 ~> St 273; 58 ~> St 275; 65 -- 70 ~> St 273; 97 -- 102 ~> St 273]);
   (273, plain [48 -- 57 ~> St 274; 58 ~> St 275; 65 -- 70 ~> St 274; 97 -- 102 ~> St 274])].

Definition http_states_39 : part action := mkPart
  []
  [(274, plain [58 ~> St 275]);
   (275, plain [48 -- 57 ~> St 276; 58 ~> St 340; 65 -- 70 ~> St 276; 97 -- 102 ~> St 276]);
   (276, plain [48 -- 57 ~> St 277; 58 ~> St 280; 65 -- 70 ~> St 277; 97 -- 102 ~> St 277]);
   (277, plain [48 -- 57 ~> St 278; 58 ~> St 280; 65 -- 70 ~> St 278; 97 -- 102 ~> St 278]);
   (278, plain [48 -- 57 ~> St 279; 58 ~> St 280; 65 -- 70 ~> St 279; 97 -- 102 ~> St 279]);
   (279, plain [58 ~> St 280]);
   (280, plain [48 -- 57 ~> St 281; 58 ~> St 339; 65 -- 70 ~> St 281; 97 -- 102 ~> St 281]);
   (281, plain [48 -- 57 ~> St 282; 58 ~> St 285; 65 -- 70 ~> St 282; 97 -- 102 ~> St 282]);
   (282, plain [48 -- 57 ~> St 283; 58 ~> St 285; 65 -- 70 ~> St 283; 97 -- 102 ~> St 283]);
   (283, plain [48 -- 57 ~> St 284; 58 ~> St 285; 65 -- 70 ~> St 284; 97 -- 102 ~> St 284]);
   (284, plain [58 ~> St 285])].

Definition http_states_40 : part action := mkPart
  []
  [(285, plain [48 -- 57 ~> St 286; 58 ~> St 338; 65 -- 70 ~> St 286; 97 -- 102 ~> St 286]);
   (286, plain [48 -- 57 ~> St 287; 58 ~> St 290; 65 -- 70 ~> St 287; 97 -- 102 ~> St 287]);
   (287, plain [48 -- 57 ~> St 288; 58 ~> St 290; 65 -- 70 ~> St 288; 97 -- 102 ~> St 288]);
   (288, plain [48 -- 57 ~> St 289; 58 ~> St 290; 65 -- 70 ~> St 289; 97 -- 102 ~> St 289]);
   (289, plain [58 ~> St 290]);
   (290, plain [48 -- 57 ~> St 291; 58 ~> St 326; 65 -- 70 ~> St 291; 97 -- 102 ~> St 291]);
   (291, plain [48 -- 57 ~> St 292; 58 ~> St 295; 65 -- 70 ~> St 292; 97 -- 102 ~> St 292]);
   (292, plain [48 -- 57 ~> St 293; 58 ~> St 295; 65 -- 70 ~> St 293; 97 -- 102 ~> St 293]);
   (293, plain [48 -- 57 ~> St 294; 58 ~> St 295; 65 -- 70 ~> St 294; 97 -- 102 ~> St 294]);
   (294, plain [58 ~> St 295])].

Definition http_states_41 : part action := mkPart
  []
  [(295, plain [48 -- 57 ~> St 296; 58 ~> St 325; 65 -- 70 ~> St 296; 97 -- 102 ~> St 296]);
   (296, plain [48 -- 57 ~> St 297; 58 ~> St 300; 65 -- 70 ~> St 297; 97 -- 102 ~> St 297]);
   (297, plain [48 -- 57 ~> St 298; 58 ~> St 300; 65 -- 70 ~> St 298; 97 -- 102 ~> St 298]);
   (298, plain [48 -- 57 ~> St 299; 58 ~> St 300; 65 -- 70 ~> St 299; 97 -- 102 ~> St 299]);
   (299, plain [58 ~> St 300]);
   (300, plain [48 -- 57 ~> St 296; 58 ~> St 301; 65 -- 70 ~> St 296; 97 -- 102 ~> St 296]);
   (301, plain [2 -- 3 ~> St 223; 48 ~> St 302; 49 ~> St 318; 50 ~> St 321; 51 -- 57 ~> St 302; 65 -- 70 ~> St 324;
        93 ~> St 236; 97 -- 102 ~> St 324]);
   (302, plain [46 ~> St 230; 48 -- 57 ~> St 303; 58 ~> St 306; 65 -- 70 ~> St 303; 93 ~> St 236; 97 -- 102 ~> St 303]);
   (303, plain [48 -- 57 ~> St 304; 58 ~> St 306; 65 -- 70 ~> St 304; 93 ~> St 236; 97 -- 102 ~> St 304])].

Definition http_states_42 : part action := mkPart
  []
  [(304, plain [48 -- 57 ~> St 305; 58 ~> St 306; 65 -- 70 ~> St 305; 93 ~> St 236; 97 -- 102 ~> St 305]);
   (305, plain [58 ~> St 306; 93 ~> St 236]);
   (306, plain [48 ~> St 307; 49 ~> St 311; 50 ~> St 314; 51 -- 57 ~> St 307; 65 -- 70 ~> St 317; 97 -- 102 ~> St 317]);
   (307, plain [46 ~> St 230; 48 -- 57 ~> St 308; 58 ~> St 255; 65 -- 70 ~> St 308; 93 ~> St 236; 97 -- 102 ~> St 308]);
   (308, plain [48 -- 57 ~> St 309; 58 ~> St 255; 65 -- 70 ~> St 309; 93 ~> St 236; 97 -- 102 ~> St 309]);
   (309, plain [48 -- 57 ~> St 310; 58 ~> St 255; 65 -- 70 ~> St 310; 93 ~> St 236; 97 -- 102 ~> St 310]);
   (310, plain [58 ~> St 255; 93 ~> St 236]);
   (311, plain [46 ~> St 230; 48 -- 57 ~> St 312; 58 ~> St 255; 65 -- 70 ~> St 308; 93 ~> St 236; 97 -- 102 ~> St 308]);
   (312, plain [46 ~> St 230; 48 -- 57 ~> St 313; 58 ~> St 255; 65 -- 70 ~> St 309; 93 ~> St 236; 97 -- 102 ~> St 309])].

Definition http_states_43 : part action := mkPart
  []
  [(313, plain [46 ~> St 230; 48 -- 57 ~> St 310; 58 ~> St 255; 65 -- 70 ~> St 310; 93 ~> St 236; 97 -- 102 ~> St 310]);
   (314, plain [46 ~> St 230; 48 ~> St 315; 49 -- 52 ~> St 308; 53 ~> St 316; 54 -- 57 ~> St 308; 58 ~> St 255;
        65 -- 70 ~> St 308; 93 ~> St 236; 97 -- 102 ~> St 308]);
   (315, plain [48 -- 57 ~> St 313; 58 ~> St 255; 65 -- 70 ~> St 309; 93 ~> St 236; 97 -- 102 ~> St 309]);
   (316, plain [48 ~> St 313; 49 -- 57 ~> St 309; 58 ~> St 255; 65 -- 70 ~> St 309; 93 ~> St 236; 97 -- 102 ~> St 309]);
   (317, plain [48 -- 57 ~> St 308; 58 ~> St 255; 65 -- 70 ~> St 308; 93 ~> St 236; 97 -- 102 ~> St 308]);
   (318, plain [46 ~> St 230; 48 -- 57 ~> St 319; 58 ~> St 306; 65 -- 70 ~> St 303; 93 ~> St 236; 97 -- 102 ~> St 303]);
   (319, plain [46 ~> St 230; 48 -- 57 ~> St 320; 58 ~> St 306; 65 -- 70 ~> St 304; 93 ~> St 236; 97 -- 102 ~> St 304]);
   (320, plain [46 ~> St 230; 48 -- 57 ~> St 305; 58 ~> St 306; 65 -- 70 ~> St 305; 93 ~> St 236; 97 -- 102 ~> St 305])].

Definition http_states_44 : part action := mkPart
  []
  [(321, plain [46 ~> St 230; 48 ~> St 322; 49 -- 52 ~> St 303; 53 ~> St 323; 54 -- 57 ~> St 303; 58 ~> St 306;
        65 -- 70 ~> St 303; 93 ~> St 236; 97 -- 102 ~> St 303]);
   (322, plain [48 -- 57 ~> St 320; 58 ~> St 306; 65 -- 70 ~> St 304; 93 ~> St 236; 97 -- 102 ~> St 304]);
   (323, plain [48 ~> St 320; 49 -- 57 ~> St 304; 58 ~> St 306; 65 -- 70 ~> St 304; 93 ~> St 236; 97 -- 102 ~> St 304]);
   (324, plain [48 -- 57 ~> St 303; 58 ~> St 306; 65 -- 70 ~> St 303; 93 ~> St 236; 97 -- 102 ~> St 303]);
   (325, plain [2 -- 3 ~> St 223; 48 ~> St 302; 49 ~> St 318; 50 ~> St 321; 51 -- 57 ~> St 302; 65 -- 70 ~> St 324;
        97 -- 102 ~> St 324]);
   (326, plain [2 -- 3 ~> St 223; 48 ~> St 327; 49 ~> St 331; 50 ~> St 334; 51 -- 57 ~> St 327; 65 -- 70 ~> St 337;
        97 -- 102 ~> St 337]);
   (327, plain [46 ~> St 230; 48 -- 57 ~> St 328; 58 ~> St 306; 65 -- 70 ~> St 328; 97 -- 102 ~> St 328]);
   (328, plain [48 -- 57 ~> St 329; 58 ~> St 306; 65 -- 70 ~> St 329; 97 -- 102 ~> St 329])].

Definition http_states_45 : part action := mkPart
  []
  [(329, plain [48 -- 57 ~> St 330; 58 ~> St 306; 65 -- 70 ~> St 330; 97 -- 102 ~> St 330]);
   (330, plain [58 ~> St 306]);
   (331, plain [46 ~> St 230; 48 -- 57 ~> St 332; 58 ~> St 306; 65 -- 70 ~> St 328; 97 -- 102 ~> St 328]);
   (332, plain [46 ~> St 230; 48 -- 57 ~> St 333; 58 ~> St 306; 65 -- 70 ~> St 329; 97 -- 102 ~> St 329]);
   (333, plain [46 ~> St 230; 48 -- 57 ~> St 330; 58 ~> St 306; 65 -- 70 ~> St 330; 97 -- 102 ~> St 330]);
   (334, plain [46 ~> St 230; 48 ~> St 335; 49 -- 52 ~> St 328; 53 ~> St 336; 54 -- 57 ~> St 328; 58 ~> St 306;
        65 -- 70 ~> St 328; 97 -- 102 ~> St 328]);
   (335, plain [48 -- 57 ~> St 333; 58 ~> St 306; 65 -- 70 ~> St 329; 97 -- 102 ~> St 329]);
   (336, plain [48 ~> St 333; 49 -- 57 ~> St 329; 58 ~> St 306; 65 -- 70 ~> St 329; 97 -- 102 ~> St 329]);
   (337, plain [48 -- 57 ~> St 328; 58 ~> St 306; 65 -- 70 ~> St 328; 97 -- 102 ~> St 328])].

Definition http_states_46 : part action := mkPart
  []
  [(338, plain [2 -- 3 ~> St 223; 48 -- 57 ~> St 224; 65 -- 70 ~> St 224; 97 -- 102 ~> St 224]);
   (339, plain [2 -- 3 ~> St 223]);
   (340, plain [3 ~> St 223]);
   (341, plain [4 ~> St 223]);
   (342, plain [58 ~> St 343]);
   (343, plain [2 -- 5 ~> St 223; 48 ~> St 302; 49 ~> St 318; 50 ~> St 321; 51 -- 57 ~> St 302; 65 -- 70 ~> St 324;
        93 ~> St 236; 97 -- 102 ~> St 324]);
   (344, plain [48 -- 57 ~> St 345; 65 -- 70 ~> St 345; 97 -- 102 ~> St 345]);
   (345, plain [46 ~> St 346; 48 -- 57 ~> St 345; 65 -- 70 ~> St 345; 97 -- 102 ~> St 345]);
   (346, wide [33 ~> St 347; 36 ~> St 347; 38 -- 46 ~> St 347; 48 -- 59 ~> St 347; 61 ~> St 347; 65 -- 90 ~> St 347;
        95 ~> St 347; 97 -- 122 ~> St 347; 126 ~> St 347; 606 ~> St 347; 635 ~> St 347; 637 ~> St 347])].

Definition http_states_47 : part action := mkPart
  []
  [(347, wide [33 ~> St 347; 36 ~> St 347; 38 -- 46 ~> St 347; 48 -- 59 ~> St 347; 61 ~> St 347; 65 -- 90 ~> St 347;
        93 ~> St 236; 95 ~> St 347; 97 -- 122 ~> St 347; 126 ~> St 347; 606 ~> St 347; 635 ~> St 347;
        637 ~> St 347])].

Definition http_table : list (part action) :=
  [http_states_1; http_states_2; http_states_3; http_states_4; http_states_5; http_states_6; http_states_7;
   http_states_8; http_states_9; http_states_10; http_states_11; http_states_12; http_states_13;
   http_states_14; http_states_15; http_states_16; http_states_17; http_states_18; http_states_19;
   http_states_20; http_states_21; http_states_22; http_states_23; http_states_24; http_states_25;
   http_states_26; http_states_27; http_states_28; http_states_29; http_states_30; http_states_31;
   http_states_32; http_states_33; http_states_34; http_states_35; http_states_36; http_states_37;
   http_states_38; http_states_39; http_states_40; http_states_41; http_states_42; http_states_43;
   http_states_44; http_states_45; http_states_46; http_states_47].
