(* ===== verification/ClientScanner.v ===== *)
(** * The automaton of [http/parser/httpclient_parser.rl.cc]

    The labels of the generated [httpclient_parser_execute], stretch by stretch in
    the order of the file. *)
From S2P Require Import Prelude Ragel.
Local Open Scope Z_scope.
Local Open Scope ragel_scope.

(** The actions of the grammar; [mark] and [start_value] are the same code. *)
Inductive action :=
  | start_field | write_field | start_value | write_content_len | write_connection_close | write_value
  | reason_phrase | status_code | http_version | chunk_size | trans_chunked | done.
#[export] Instance action_eq_dec : EqDecision action.
Proof. solve_decision. Defined.

Definition client_states_1 : part action := mkPart
  [(0, go [start_value] 2); (3, go [chunk_size; done] 120); (7, go [done] 120);
   (9, go [write_field; start_value; write_value; done] 120); (15, go [write_value; done] 120);
   (74, go [write_connection_close; done] 120); (4, go [chunk_size] 3)]
  [(1, plain [48 -- 57 ~> Tr 0; 65 -- 70 ~> Tr 0; 72 ~> Tr 2; 97 -- 102 ~> Tr 0]);
   (2, plain [10 ~> Tr 3; 13 ~> Tr 4; 48 -- 57 ~> St 2; 59 ~> Tr 6; 65 -- 70 ~> St 2; 97 -- 102 ~> St 2]);
   (120, plain [])].

Definition client_states_2 : part action := mkPart
  [(10, go [write_field; start_value; write_value] 3); (16, go [write_value] 3);
   (75, go [write_connection_close] 3); (6, go [chunk_size] 4);
   (12, go [write_field; start_value; write_value] 4); (18, go [write_value] 4); (8, go [start_field] 5);
   (13, go [write_field; start_value] 6)]
  [(3, plain [10 ~> Tr 7]);
   (4, plain [33 ~> Tr 8; 35 -- 39 ~> Tr 8; 42 -- 43 ~> Tr 8; 45 -- 46 ~> Tr 8; 48 -- 57 ~> Tr 8; 65 -- 90 ~> Tr 8;
        94 -- 122 ~> Tr 8; 124 ~> Tr 8; 126 ~> Tr 8]);
   (5, plain [10 ~> Tr 9; 13 ~> Tr 10; 33 ~> St 5; 35 -- 39 ~> St 5; 42 -- 43 ~> St 5; 45 -- 46 ~> St 5;
        48 -- 57 ~> St 5; 59 ~> Tr 12; 61 ~> Tr 13; 65 -- 90 ~> St 5; 94 -- 122 ~> St 5; 124 ~> St 5;
        126 ~> St 5])].

Definition client_states_3 : part action := mkPart
  [(14, go [start_value] 7); (2, go [start_value] 8); (26, go [http_version] 16)]
  [(6, plain [33 ~> Tr 14; 35 -- 39 ~> Tr 14; 42 -- 43 ~> Tr 14; 45 -- 46 ~> Tr 14; 48 -- 57 ~> Tr 14;
        65 -- 90 ~> Tr 14; 94 -- 122 ~> Tr 14; 124 ~> Tr 14; 126 ~> Tr 14]);
   (7, plain [10 ~> Tr 15; 13 ~> Tr 16; 33 ~> St 7; 35 -- 39 ~> St 7; 42 -- 43 ~> St 7; 45 -- 46 ~> St 7;
        48 -- 57 ~> St 7; 59 ~> Tr 18; 65 -- 90 ~> St 7; 94 -- 122 ~> St 7; 124 ~> St 7; 126 ~> St 7]);
   (8, plain [84 ~> St 9]);
   (9, plain [84 ~> St 10]);
   (10, plain [80 ~> St 11]);
   (11, plain [47 ~> St 12]);
   (12, plain [48 -- 57 ~> St 13]);
   (13, plain [46 ~> St 14; 48 -- 57 ~> St 13]);
   (14, plain [48 -- 57 ~> St 15]);
   (15, plain [32 ~> Tr 26; 48 -- 57 ~> St 15]);
   (16, plain [48 -- 57 ~> Tr 27])].

Definition client_states_4 : part action := mkPart
  [(27, go [start_value] 17); (28, go [status_code] 18); (30, go [start_value] 19);
   (45, go [write_value] 20); (32, go [reason_phrase] 20); (42, go [start_value; write_value] 20);
   (111, go [write_value; trans_chunked] 20); (113, go [trans_chunked] 20);
   (158, go [write_content_len; write_value] 20); (35, go [start_field] 21)]
  [(17, plain [32 ~> Tr 28; 48 -- 57 ~> St 17]);
   (18, plain [(-128) -- 9 ~> Tr 30; 11 -- 127 ~> Tr 30]);
   (19, plain [(-128) -- 9 ~> St 19; 10 ~> Tr 32; 11 -- 12 ~> St 19; 13 ~> Tr 33; 14 -- 127 ~> St 19]);
   (20, plain [10 ~> Tr 7; 13 ~> St 3; 33 ~> Tr 35; 35 -- 39 ~> Tr 35; 42 -- 43 ~> Tr 35; 45 -- 46 ~> Tr 35;
        48 -- 57 ~> Tr 35; 65 -- 66 ~> Tr 35; 67 ~> Tr 36; 68 -- 83 ~> Tr 35; 84 ~> Tr 37; 85 -- 90 ~> Tr 35;
        94 -- 98 ~> Tr 35; 99 ~> Tr 36; 100 -- 115 ~> Tr 35; 116 ~> Tr 37; 117 -- 122 ~> Tr 35; 124 ~> Tr 35;
        126 ~> Tr 35])].

Definition client_states_5 : part action := mkPart
  [(76, go [write_connection_close; start_field] 21); (41, go [start_value] 22); (39, go [write_field] 22);
   (40, go [start_value] 23); (46, go [write_value] 24); (33, go [reason_phrase] 24);
   (43, go [start_value; write_value] 24); (159, go [write_content_len; write_value] 24);
   (36, go [start_field] 25); (77, go [write_connection_close; start_field] 25)]
  [(21, plain [33 ~> St 21; 35 -- 39 ~> St 21; 42 -- 43 ~> St 21; 45 -- 46 ~> St 21; 48 -- 57 ~> St 21; 58 ~> Tr 39;
        65 -- 90 ~> St 21; 94 -- 122 ~> St 21; 124 ~> St 21; 126 ~> St 21]);
   (22, plain [(-128) -- 8 ~> Tr 40; 9 ~> Tr 41; 10 ~> Tr 42; 11 -- 12 ~> Tr 41; 13 ~> Tr 43; 14 -- 31 ~> Tr 40;
        32 ~> Tr 41; 33 -- 127 ~> Tr 40]);
   (23, plain [(-128) -- 9 ~> St 23; 10 ~> Tr 45; 11 -- 12 ~> St 23; 13 ~> Tr 46; 14 -- 127 ~> St 23]);
   (24, plain [10 ~> St 20])].

Definition client_states_6 : part action := mkPart
  []
  [(25, plain [33 ~> St 21; 35 -- 39 ~> St 21; 42 -- 43 ~> St 21; 45 -- 46 ~> St 21; 48 -- 57 ~> St 21; 58 ~> Tr 39;
        65 -- 78 ~> St 21; 79 ~> St 26; 80 -- 90 ~> St 21; 94 -- 110 ~> St 21; 111 ~> St 26;
        112 -- 122 ~> St 21; 124 ~> St 21; 126 ~> St 21]);
   (26, plain [33 ~> St 21; 35 -- 39 ~> St 21; 42 -- 43 ~> St 21; 45 -- 46 ~> St 21; 48 -- 57 ~> St 21; 58 ~> Tr 39;
        65 -- 77 ~> St 21; 78 ~> St 27; 79 -- 90 ~> St 21; 94 -- 109 ~> St 21; 110 ~> St 27;
        111 -- 122 ~> St 21; 124 ~> St 21; 126 ~> St 21]);
   (27, plain [33 ~> St 21; 35 -- 39 ~> St 21; 42 -- 43 ~> St 21; 45 -- 46 ~> St 21; 48 -- 57 ~> St 21; 58 ~> Tr 39;
        65 -- 77 ~> St 21; 78 ~> St 28; 79 -- 83 ~> St 21; 84 ~> St 101; 85 -- 90 ~> St 21; 94 -- 109 ~> St 21;
        110 ~> St 28; 111 -- 115 ~> St 21; 116 ~> St 101; 117 -- 122 ~> St 21; 124 ~> St 21; 126 ~> St 21]);
   (28, plain [33 ~> St 21; 35 -- 39 ~> St 21; 42 -- 43 ~> St 21; 45 -- 46 ~> St 21; 48 -- 57 ~> St 21; 58 ~> Tr 39;
        65 -- 68 ~> St 21; 69 ~> St 29; 70 -- 90 ~> St 21; 94 -- 100 ~> St 21; 101 ~> St 29;
        102 -- 122 ~> St 21; 124 ~> St 21; 126 ~> St 21])].

Definition client_states_7 : part action := mkPart
  []
  [(29, plain [33 ~> St 21; 35 -- 39 ~> St 21; 42 -- 43 ~> St 21; 45 -- 46 ~> St 21; 48 -- 57 ~> St 21; 58 ~> Tr 39;
        65 -- 66 ~> St 21; 67 ~> St 30; 68 -- 90 ~> St 21; 94 -- 98 ~> St 21; 99 ~> St 30; 100 -- 122 ~> St 21;
        124 ~> St 21; 126 ~> St 21]);
   (30, plain [33 ~> St 21; 35 -- 39 ~> St 21; 42 -- 43 ~> St 21; 45 -- 46 ~> St 21; 48 -- 57 ~> St 21; 58 ~> Tr 39;
        65 -- 83 ~> St 21; 84 ~> St 31; 85 -- 90 ~> St 21; 94 -- 115 ~> St 21; 116 ~> St 31;
        117 -- 122 ~> St 21; 124 ~> St 21; 126 ~> St 21]);
   (31, plain [33 ~> St 21; 35 -- 39 ~> St 21; 42 -- 43 ~> St 21; 45 -- 46 ~> St 21; 48 -- 57 ~> St 21; 58 ~> Tr 39;
        65 -- 72 ~> St 21; 73 ~> St 32; 74 -- 90 ~> St 21; 94 -- 104 ~> St 21; 105 ~> St 32;
        106 -- 122 ~> St 21; 124 ~> St 21; 126 ~> St 21]);
   (32, plain [33 ~> St 21; 35 -- 39 ~> St 21; 42 -- 43 ~> St 21; 45 -- 46 ~> St 21; 48 -- 57 ~> St 21; 58 ~> Tr 39;
        65 -- 78 ~> St 21; 79 ~> St 33; 80 -- 90 ~> St 21; 94 -- 110 ~> St 21; 111 ~> St 33;
        112 -- 122 ~> St 21; 124 ~> St 21; 126 ~> St 21])].

Definition client_states_8 : part action := mkPart
  [(59, go [start_value] 35); (58, go [write_field] 35); (60, go [start_value; write_value] 36)]
  [(33, plain [33 ~> St 21; 35 -- 39 ~> St 21; 42 -- 43 ~> St 21; 45 -- 46 ~> St 21; 48 -- 57 ~> St 21; 58 ~> Tr 39;
        65 -- 77 ~> St 21; 78 ~> St 34; 79 -- 90 ~> St 21; 94 -- 109 ~> St 21; 110 ~> St 34;
        111 -- 122 ~> St 21; 124 ~> St 21; 126 ~> St 21]);
   (34, plain [33 ~> St 21; 35 -- 39 ~> St 21; 42 -- 43 ~> St 21; 45 -- 46 ~> St 21; 48 -- 57 ~> St 21; 58 ~> Tr 58;
        65 -- 90 ~> St 21; 94 -- 122 ~> St 21; 124 ~> St 21; 126 ~> St 21]);
   (35, plain [(-128) -- 8 ~> Tr 40; 9 ~> Tr 59; 10 ~> Tr 60; 11 -- 12 ~> Tr 59; 13 ~> Tr 61; 14 -- 31 ~> Tr 40;
        32 ~> Tr 59; 33 -- 66 ~> Tr 40; 67 ~> Tr 62; 68 -- 98 ~> Tr 40; 99 ~> Tr 62; 100 -- 127 ~> Tr 40]);
   (36, plain [9 ~> St 37; 10 ~> Tr 64; 11 -- 12 ~> St 37; 13 ~> St 89; 32 ~> St 37; 33 ~> Tr 35; 35 -- 39 ~> Tr 35;
        42 -- 43 ~> Tr 35; 45 -- 46 ~> Tr 35; 48 -- 57 ~> Tr 35; 65 -- 66 ~> Tr 35; 67 ~> Tr 66;
        68 -- 83 ~> Tr 35; 84 ~> Tr 37; 85 -- 90 ~> Tr 35; 94 -- 98 ~> Tr 35; 99 ~> Tr 66; 100 -- 115 ~> Tr 35;
        116 ~> Tr 37; 117 -- 122 ~> Tr 35; 124 ~> Tr 35; 126 ~> Tr 35]);
   (37, plain [9 -- 13 ~> St 37; 32 ~> St 37; 67 ~> St 38; 99 ~> St 38])].

Definition client_states_9 : part action := mkPart
  [(136, go [write_value] 43); (37, go [start_field] 44); (78, go [write_connection_close; start_field] 44)]
  [(38, plain [76 ~> St 39; 108 ~> St 39]);
   (39, plain [79 ~> St 40; 111 ~> St 40]);
   (40, plain [83 ~> St 41; 115 ~> St 41]);
   (41, plain [69 ~> St 42; 101 ~> St 42]);
   (42, plain [10 ~> St 43; 13 ~> St 88]);
   (43, plain [10 ~> Tr 74; 13 ~> Tr 75; 33 ~> Tr 76; 35 -- 39 ~> Tr 76; 42 -- 43 ~> Tr 76; 45 -- 46 ~> Tr 76;
        48 -- 57 ~> Tr 76; 65 -- 66 ~> Tr 76; 67 ~> Tr 77; 68 -- 83 ~> Tr 76; 84 ~> Tr 78; 85 -- 90 ~> Tr 76;
        94 -- 98 ~> Tr 76; 99 ~> Tr 77; 100 -- 115 ~> Tr 76; 116 ~> Tr 78; 117 -- 122 ~> Tr 76; 124 ~> Tr 76;
        126 ~> Tr 76]);
   (44, plain [33 ~> St 21; 35 -- 39 ~> St 21; 42 -- 43 ~> St 21; 45 -- 46 ~> St 21; 48 -- 57 ~> St 21; 58 ~> Tr 39;
        65 -- 81 ~> St 21; 82 ~> St 45; 83 -- 90 ~> St 21; 94 -- 113 ~> St 21; 114 ~> St 45;
        115 -- 122 ~> St 21; 124 ~> St 21; 126 ~> St 21])].

Definition client_states_10 : part action := mkPart
  []
  [(45, plain [33 ~> St 21; 35 -- 39 ~> St 21; 42 -- 43 ~> St 21; 45 -- 46 ~> St 21; 48 -- 57 ~> St 21; 58 ~> Tr 39;
        65 ~> St 46; 66 -- 90 ~> St 21; 94 -- 96 ~> St 21; 97 ~> St 46; 98 -- 122 ~> St 21; 124 ~> St 21;
        126 ~> St 21]);
   (46, plain [33 ~> St 21; 35 -- 39 ~> St 21; 42 -- 43 ~> St 21; 45 -- 46 ~> St 21; 48 -- 57 ~> St 21; 58 ~> Tr 39;
        65 -- 77 ~> St 21; 78 ~> St 47; 79 -- 90 ~> St 21; 94 -- 109 ~> St 21; 110 ~> St 47;
        111 -- 122 ~> St 21; 124 ~> St 21; 126 ~> St 21]);
   (47, plain [33 ~> St 21; 35 -- 39 ~> St 21; 42 -- 43 ~> St 21; 45 -- 46 ~> St 21; 48 -- 57 ~> St 21; 58 ~> Tr 39;
        65 -- 82 ~> St 21; 83 ~> St 48; 84 -- 90 ~> St 21; 94 -- 114 ~> St 21; 115 ~> St 48;
        116 -- 122 ~> St 21; 124 ~> St 21; 126 ~> St 21]);
   (48, plain [33 ~> St 21; 35 -- 39 ~> St 21; 42 -- 43 ~> St 21; 45 -- 46 ~> St 21; 48 -- 57 ~> St 21; 58 ~> Tr 39;
        65 -- 69 ~> St 21; 70 ~> St 49; 71 -- 90 ~> St 21; 94 -- 101 ~> St 21; 102 ~> St 49;
        103 -- 122 ~> St 21; 124 ~> St 21; 126 ~> St 21])].

Definition client_states_11 : part action := mkPart
  []
  [(49, plain [33 ~> St 21; 35 -- 39 ~> St 21; 42 -- 43 ~> St 21; 45 -- 46 ~> St 21; 48 -- 57 ~> St 21; 58 ~> Tr 39;
        65 -- 68 ~> St 21; 69 ~> St 50; 70 -- 90 ~> St 21; 94 -- 100 ~> St 21; 101 ~> St 50;
        102 -- 122 ~> St 21; 124 ~> St 21; 126 ~> St 21]);
   (50, plain [33 ~> St 21; 35 -- 39 ~> St 21; 42 -- 43 ~> St 21; 45 -- 46 ~> St 21; 48 -- 57 ~> St 21; 58 ~> Tr 39;
        65 -- 81 ~> St 21; 82 ~> St 51; 83 -- 90 ~> St 21; 94 -- 113 ~> St 21; 114 ~> St 51;
        115 -- 122 ~> St 21; 124 ~> St 21; 126 ~> St 21]);
   (51, plain [33 ~> St 21; 35 -- 39 ~> St 21; 42 -- 43 ~> St 21; 45 ~> St 52; 46 ~> St 21; 48 -- 57 ~> St 21;
        58 ~> Tr 39; 65 -- 90 ~> St 21; 94 -- 122 ~> St 21; 124 ~> St 21; 126 ~> St 21]);
   (52, plain [33 ~> St 21; 35 -- 39 ~> St 21; 42 -- 43 ~> St 21; 45 -- 46 ~> St 21; 48 -- 57 ~> St 21; 58 ~> Tr 39;
        65 -- 68 ~> St 21; 69 ~> St 53; 70 -- 90 ~> St 21; 94 -- 100 ~> St 21; 101 ~> St 53;
        102 -- 122 ~> St 21; 124 ~> St 21; 126 ~> St 21])].

Definition client_states_12 : part action := mkPart
  []
  [(53, plain [33 ~> St 21; 35 -- 39 ~> St 21; 42 -- 43 ~> St 21; 45 -- 46 ~> St 21; 48 -- 57 ~> St 21; 58 ~> Tr 39;
        65 -- 77 ~> St 21; 78 ~> St 54; 79 -- 90 ~> St 21; 94 -- 109 ~> St 21; 110 ~> St 54;
        111 -- 122 ~> St 21; 124 ~> St 21; 126 ~> St 21]);
   (54, plain [33 ~> St 21; 35 -- 39 ~> St 21; 42 -- 43 ~> St 21; 45 -- 46 ~> St 21; 48 -- 57 ~> St 21; 58 ~> Tr 39;
        65 -- 66 ~> St 21; 67 ~> St 55; 68 -- 90 ~> St 21; 94 -- 98 ~> St 21; 99 ~> St 55; 100 -- 122 ~> St 21;
        124 ~> St 21; 126 ~> St 21]);
   (55, plain [33 ~> St 21; 35 -- 39 ~> St 21; 42 -- 43 ~> St 21; 45 -- 46 ~> St 21; 48 -- 57 ~> St 21; 58 ~> Tr 39;
        65 -- 78 ~> St 21; 79 ~> St 56; 80 -- 90 ~> St 21; 94 -- 110 ~> St 21; 111 ~> St 56;
        112 -- 122 ~> St 21; 124 ~> St 21; 126 ~> St 21]);
   (56, plain [33 ~> St 21; 35 -- 39 ~> St 21; 42 -- 43 ~> St 21; 45 -- 46 ~> St 21; 48 -- 57 ~> St 21; 58 ~> Tr 39;
        65 -- 67 ~> St 21; 68 ~> St 57; 69 -- 90 ~> St 21; 94 -- 99 ~> St 21; 100 ~> St 57; 101 -- 122 ~> St 21;
        124 ~> St 21; 126 ~> St 21])].

Definition client_states_13 : part action := mkPart
  [(96, go [start_value] 61); (95, go [write_field] 61)]
  [(57, plain [33 ~> St 21; 35 -- 39 ~> St 21; 42 -- 43 ~> St 21; 45 -- 46 ~> St 21; 48 -- 57 ~> St 21; 58 ~> Tr 39;
        65 -- 72 ~> St 21; 73 ~> St 58; 74 -- 90 ~> St 21; 94 -- 104 ~> St 21; 105 ~> St 58;
        106 -- 122 ~> St 21; 124 ~> St 21; 126 ~> St 21]);
   (58, plain [33 ~> St 21; 35 -- 39 ~> St 21; 42 -- 43 ~> St 21; 45 -- 46 ~> St 21; 48 -- 57 ~> St 21; 58 ~> Tr 39;
        65 -- 77 ~> St 21; 78 ~> St 59; 79 -- 90 ~> St 21; 94 -- 109 ~> St 21; 110 ~> St 59;
        111 -- 122 ~> St 21; 124 ~> St 21; 126 ~> St 21]);
   (59, plain [33 ~> St 21; 35 -- 39 ~> St 21; 42 -- 43 ~> St 21; 45 -- 46 ~> St 21; 48 -- 57 ~> St 21; 58 ~> Tr 39;
        65 -- 70 ~> St 21; 71 ~> St 60; 72 -- 90 ~> St 21; 94 -- 102 ~> St 21; 103 ~> St 60;
        104 -- 122 ~> St 21; 124 ~> St 21; 126 ~> St 21]);
   (60, plain [33 ~> St 21; 35 -- 39 ~> St 21; 42 -- 43 ~> St 21; 45 -- 46 ~> St 21; 48 -- 57 ~> St 21; 58 ~> Tr 95;
        65 -- 90 ~> St 21; 94 -- 122 ~> St 21; 124 ~> St 21; 126 ~> St 21]);
   (61, plain [(-128) -- 8 ~> Tr 40; 9 ~> Tr 96; 10 ~> Tr 97; 11 -- 12 ~> Tr 96; 13 ~> Tr 98; 14 -- 31 ~> Tr 40;
        32 ~> Tr 96; 33 -- 66 ~> Tr 40; 67 ~> Tr 99; 68 -- 98 ~> Tr 40; 99 ~> Tr 99; 100 -- 127 ~> Tr 40])].

Definition client_states_14 : part action := mkPart
  [(97, go [start_value; write_value] 62); (104, go [start_value] 64); (112, go [write_value] 71)]
  [(62, plain [9 ~> St 63; 10 ~> Tr 101; 11 -- 12 ~> St 63; 13 ~> St 72; 32 ~> St 63; 33 ~> Tr 35; 35 -- 39 ~> Tr 35;
        42 -- 43 ~> Tr 35; 45 -- 46 ~> Tr 35; 48 -- 57 ~> Tr 35; 65 -- 66 ~> Tr 35; 67 ~> Tr 103;
        68 -- 83 ~> Tr 35; 84 ~> Tr 37; 85 -- 90 ~> Tr 35; 94 -- 98 ~> Tr 35; 99 ~> Tr 103; 100 -- 115 ~> Tr 35;
        116 ~> Tr 37; 117 -- 122 ~> Tr 35; 124 ~> Tr 35; 126 ~> Tr 35]);
   (63, plain [9 -- 13 ~> St 63; 32 ~> St 63; 67 ~> Tr 104; 99 ~> Tr 104]);
   (64, plain [72 ~> St 65; 104 ~> St 65]);
   (65, plain [85 ~> St 66; 117 ~> St 66]);
   (66, plain [78 ~> St 67; 110 ~> St 67]);
   (67, plain [75 ~> St 68; 107 ~> St 68]);
   (68, plain [69 ~> St 69; 101 ~> St 69]);
   (69, plain [68 ~> St 70; 100 ~> St 70]);
   (70, plain [10 ~> Tr 111; 13 ~> Tr 112]);
   (71, plain [10 ~> Tr 113])].

Definition client_states_15 : part action := mkPart
  [(101, go [done] 121); (103, go [start_value; start_field] 73)]
  [(121, plain [9 -- 13 ~> St 63; 32 ~> St 63; 67 ~> Tr 104; 99 ~> Tr 104]);
   (72, plain [9 ~> St 63; 10 ~> Tr 101; 11 -- 13 ~> St 63; 32 ~> St 63; 67 ~> Tr 104; 99 ~> Tr 104]);
   (73, plain [33 ~> St 21; 35 -- 39 ~> St 21; 42 -- 43 ~> St 21; 45 -- 46 ~> St 21; 48 -- 57 ~> St 21; 58 ~> Tr 39;
        65 -- 71 ~> St 21; 72 ~> St 74; 73 -- 78 ~> St 21; 79 ~> St 26; 80 -- 90 ~> St 21; 94 -- 103 ~> St 21;
        104 ~> St 74; 105 -- 110 ~> St 21; 111 ~> St 26; 112 -- 122 ~> St 21; 124 ~> St 21; 126 ~> St 21]);
   (74, plain [33 ~> St 21; 35 -- 39 ~> St 21; 42 -- 43 ~> St 21; 45 -- 46 ~> St 21; 48 -- 57 ~> St 21; 58 ~> Tr 39;
        65 -- 84 ~> St 21; 85 ~> St 75; 86 -- 90 ~> St 21; 94 -- 116 ~> St 21; 117 ~> St 75;
        118 -- 122 ~> St 21; 124 ~> St 21; 126 ~> St 21]);
   (75, plain [33 ~> St 21; 35 -- 39 ~> St 21; 42 -- 43 ~> St 21; 45 -- 46 ~> St 21; 48 -- 57 ~> St 21; 58 ~> Tr 39;
        65 -- 77 ~> St 21; 78 ~> St 76; 79 -- 90 ~> St 21; 94 -- 109 ~> St 21; 110 ~> St 76;
        111 -- 122 ~> St 21; 124 ~> St 21; 126 ~> St 21])].

Definition client_states_16 : part action := mkPart
  [(98, go [start_value; write_value] 80)]
  [(76, plain [33 ~> St 21; 35 -- 39 ~> St 21; 42 -- 43 ~> St 21; 45 -- 46 ~> St 21; 48 -- 57 ~> St 21; 58 ~> Tr 39;
        65 -- 74 ~> St 21; 75 ~> St 77; 76 -- 90 ~> St 21; 94 -- 106 ~> St 21; 107 ~> St 77;
        108 -- 122 ~> St 21; 124 ~> St 21; 126 ~> St 21]);
   (77, plain [33 ~> St 21; 35 -- 39 ~> St 21; 42 -- 43 ~> St 21; 45 -- 46 ~> St 21; 48 -- 57 ~> St 21; 58 ~> Tr 39;
        65 -- 68 ~> St 21; 69 ~> St 78; 70 -- 90 ~> St 21; 94 -- 100 ~> St 21; 101 ~> St 78;
        102 -- 122 ~> St 21; 124 ~> St 21; 126 ~> St 21]);
   (78, plain [33 ~> St 21; 35 -- 39 ~> St 21; 42 -- 43 ~> St 21; 45 -- 46 ~> St 21; 48 -- 57 ~> St 21; 58 ~> Tr 39;
        65 -- 67 ~> St 21; 68 ~> St 79; 69 -- 90 ~> St 21; 94 -- 99 ~> St 21; 100 ~> St 79; 101 -- 122 ~> St 21;
        124 ~> St 21; 126 ~> St 21]);
   (79, plain [10 ~> Tr 111; 13 ~> Tr 112; 33 ~> St 21; 35 -- 39 ~> St 21; 42 -- 43 ~> St 21; 45 -- 46 ~> St 21;
        48 -- 57 ~> St 21; 58 ~> Tr 39; 65 -- 90 ~> St 21; 94 -- 122 ~> St 21; 124 ~> St 21; 126 ~> St 21]);
   (80, plain [9 ~> St 63; 10 ~> St 62; 11 -- 13 ~> St 63; 32 ~> St 63; 67 ~> Tr 104; 99 ~> Tr 104])].

Definition client_states_17 : part action := mkPart
  [(99, go [start_value] 81); (137, go [write_value] 88); (64, go [done] 122); (66, go [start_field] 90)]
  [(81, plain [(-128) -- 9 ~> St 23; 10 ~> Tr 45; 11 -- 12 ~> St 23; 13 ~> Tr 46; 14 -- 71 ~> St 23; 72 ~> St 82;
        73 -- 103 ~> St 23; 104 ~> St 82; 105 -- 127 ~> St 23]);
   (82, plain [(-128) -- 9 ~> St 23; 10 ~> Tr 45; 11 -- 12 ~> St 23; 13 ~> Tr 46; 14 -- 84 ~> St 23; 85 ~> St 83;
        86 -- 116 ~> St 23; 117 ~> St 83; 118 -- 127 ~> St 23]);
   (83, plain [(-128) -- 9 ~> St 23; 10 ~> Tr 45; 11 -- 12 ~> St 23; 13 ~> Tr 46; 14 -- 77 ~> St 23; 78 ~> St 84;
        79 -- 109 ~> St 23; 110 ~> St 84; 111 -- 127 ~> St 23]);
   (84, plain [(-128) -- 9 ~> St 23; 10 ~> Tr 45; 11 -- 12 ~> St 23; 13 ~> Tr 46; 14 -- 74 ~> St 23; 75 ~> St 85;
        76 -- 106 ~> St 23; 107 ~> St 85; 108 -- 127 ~> St 23]);
   (85, plain [(-128) -- 9 ~> St 23; 10 ~> Tr 45; 11 -- 12 ~> St 23; 13 ~> Tr 46; 14 -- 68 ~> St 23; 69 ~> St 86;
        70 -- 100 ~> St 23; 101 ~> St 86; 102 -- 127 ~> St 23]);
   (86, plain [(-128) -- 9 ~> St 23; 10 ~> Tr 45; 11 -- 12 ~> St 23; 13 ~> Tr 46; 14 -- 67 ~> St 23; 68 ~> St 87;
        69 -- 99 ~> St 23; 100 ~> St 87; 101 -- 127 ~> St 23]);
   (87, plain [(-128) -- 9 ~> St 23; 10 ~> Tr 111; 11 -- 12 ~> St 23; 13 ~> Tr 112; 14 -- 127 ~> St 23]);
   (88, plain [10 ~> St 43]);
   (122, plain [9 -- 13 ~> St 37; 32 ~> St 37; 67 ~> St 38; 99 ~> St 38]);
   (89, plain [9 ~> St 37; 10 ~> Tr 64; 11 -- 13 ~> St 37; 32 ~> St 37; 67 ~> St 38; 99 ~> St 38])].

Definition client_states_18 : part action := mkPart
  []
  [(90, plain [33 ~> St 21; 35 -- 39 ~> St 21; 42 -- 43 ~> St 21; 45 -- 46 ~> St 21; 48 -- 57 ~> St 21; 58 ~> Tr 39;
        65 -- 75 ~> St 21; 76 ~> St 91; 77 -- 78 ~> St 21; 79 ~> St 26; 80 -- 90 ~> St 21; 94 -- 107 ~> St 21;
        108 ~> St 91; 109 -- 110 ~> St 21; 111 ~> St 26; 112 -- 122 ~> St 21; 124 ~> St 21; 126 ~> St 21]);
   (91, plain [33 ~> St 21; 35 -- 39 ~> St 21; 42 -- 43 ~> St 21; 45 -- 46 ~> St 21; 48 -- 57 ~> St 21; 58 ~> Tr 39;
        65 -- 78 ~> St 21; 79 ~> St 92; 80 -- 90 ~> St 21; 94 -- 110 ~> St 21; 111 ~> St 92;
        112 -- 122 ~> St 21; 124 ~> St 21; 126 ~> St 21]);
   (92, plain [33 ~> St 21; 35 -- 39 ~> St 21; 42 -- 43 ~> St 21; 45 -- 46 ~> St 21; 48 -- 57 ~> St 21; 58 ~> Tr 39;
        65 -- 82 ~> St 21; 83 ~> St 93; 84 -- 90 ~> St 21; 94 -- 114 ~> St 21; 115 ~> St 93;
        116 -- 122 ~> St 21; 124 ~> St 21; 126 ~> St 21]);
   (93, plain [33 ~> St 21; 35 -- 39 ~> St 21; 42 -- 43 ~> St 21; 45 -- 46 ~> St 21; 48 -- 57 ~> St 21; 58 ~> Tr 39;
        65 -- 68 ~> St 21; 69 ~> St 94; 70 -- 90 ~> St 21; 94 -- 100 ~> St 21; 101 ~> St 94;
        102 -- 122 ~> St 21; 124 ~> St 21; 126 ~> St 21])].

Definition client_states_19 : part action := mkPart
  [(61, go [start_value; write_value] 95); (62, go [start_value] 96)]
  [(94, plain [10 ~> St 43; 13 ~> St 88; 33 ~> St 21; 35 -- 39 ~> St 21; 42 -- 43 ~> St 21; 45 -- 46 ~> St 21;
        48 -- 57 ~> St 21; 58 ~> Tr 39; 65 -- 90 ~> St 21; 94 -- 122 ~> St 21; 124 ~> St 21; 126 ~> St 21]);
   (95, plain [9 ~> St 37; 10 ~> St 36; 11 -- 13 ~> St 37; 32 ~> St 37; 67 ~> St 38; 99 ~> St 38]);
   (96, plain [(-128) -- 9 ~> St 23; 10 ~> Tr 45; 11 -- 12 ~> St 23; 13 ~> Tr 46; 14 -- 75 ~> St 23; 76 ~> St 97;
        77 -- 107 ~> St 23; 108 ~> St 97; 109 -- 127 ~> St 23]);
   (97, plain [(-128) -- 9 ~> St 23; 10 ~> Tr 45; 11 -- 12 ~> St 23; 13 ~> Tr 46; 14 -- 78 ~> St 23; 79 ~> St 98;
        80 -- 110 ~> St 23; 111 ~> St 98; 112 -- 127 ~> St 23]);
   (98, plain [(-128) -- 9 ~> St 23; 10 ~> Tr 45; 11 -- 12 ~> St 23; 13 ~> Tr 46; 14 -- 82 ~> St 23; 83 ~> St 99;
        84 -- 114 ~> St 23; 115 ~> St 99; 116 -- 127 ~> St 23]);
   (99, plain [(-128) -- 9 ~> St 23; 10 ~> Tr 45; 11 -- 12 ~> St 23; 13 ~> Tr 46; 14 -- 68 ~> St 23; 69 ~> St 100;
        70 -- 100 ~> St 23; 101 ~> St 100; 102 -- 127 ~> St 23]);
   (100, plain [(-128) -- 9 ~> St 23; 10 ~> Tr 136; 11 -- 12 ~> St 23; 13 ~> Tr 137; 14 -- 127 ~> St 23]);
   (101, plain [33 ~> St 21; 35 -- 39 ~> St 21; 42 -- 43 ~> St 21; 45 -- 46 ~> St 21; 48 -- 57 ~> St 21; 58 ~> Tr 39;
        65 -- 68 ~> St 21; 69 ~> St 102; 70 -- 90 ~> St 21; 94 -- 100 ~> St 21; 101 ~> St 102;
        102 -- 122 ~> St 21; 124 ~> St 21; 126 ~> St 21])].

Definition client_states_20 : part action := mkPart
  []
  [(102, plain [33 ~> St 21; 35 -- 39 ~> St 21; 42 -- 43 ~> St 21; 45 -- 46 ~> St 21; 48 -- 57 ~> St 21; 58 ~> Tr 39;
        65 -- 77 ~> St 21; 78 ~> St 103; 79 -- 90 ~> St 21; 94 -- 109 ~> St 21; 110 ~> St 103;
        111 -- 122 ~> St 21; 124 ~> St 21; 126 ~> St 21]);
   (103, plain [33 ~> St 21; 35 -- 39 ~> St 21; 42 -- 43 ~> St 21; 45 -- 46 ~> St 21; 48 -- 57 ~> St 21; 58 ~> Tr 39;
        65 -- 83 ~> St 21; 84 ~> St 104; 85 -- 90 ~> St 21; 94 -- 115 ~> St 21; 116 ~> St 104;
        117 -- 122 ~> St 21; 124 ~> St 21; 126 ~> St 21]);
   (104, plain [33 ~> St 21; 35 -- 39 ~> St 21; 42 -- 43 ~> St 21; 45 ~> St 105; 46 ~> St 21; 48 -- 57 ~> St 21;
        58 ~> Tr 39; 65 -- 90 ~> St 21; 94 -- 122 ~> St 21; 124 ~> St 21; 126 ~> St 21]);
   (105, plain [33 ~> St 21; 35 -- 39 ~> St 21; 42 -- 43 ~> St 21; 45 -- 46 ~> St 21; 48 -- 57 ~> St 21; 58 ~> Tr 39;
        65 -- 75 ~> St 21; 76 ~> St 106; 77 -- 90 ~> St 21; 94 -- 107 ~> St 21; 108 ~> St 106;
        109 -- 122 ~> St 21; 124 ~> St 21; 126 ~> St 21])].

Definition client_states_21 : part action := mkPart
  []
  [(106, plain [33 ~> St 21; 35 -- 39 ~> St 21; 42 -- 43 ~> St 21; 45 -- 46 ~> St 21; 48 -- 57 ~> St 21; 58 ~> Tr 39;
        65 -- 68 ~> St 21; 69 ~> St 107; 70 -- 90 ~> St 21; 94 -- 100 ~> St 21; 101 ~> St 107;
        102 -- 122 ~> St 21; 124 ~> St 21; 126 ~> St 21]);
   (107, plain [33 ~> St 21; 35 -- 39 ~> St 21; 42 -- 43 ~> St 21; 45 -- 46 ~> St 21; 48 -- 57 ~> St 21; 58 ~> Tr 39;
        65 -- 77 ~> St 21; 78 ~> St 108; 79 -- 90 ~> St 21; 94 -- 109 ~> St 21; 110 ~> St 108;
        111 -- 122 ~> St 21; 124 ~> St 21; 126 ~> St 21]);
   (108, plain [33 ~> St 21; 35 -- 39 ~> St 21; 42 -- 43 ~> St 21; 45 -- 46 ~> St 21; 48 -- 57 ~> St 21; 58 ~> Tr 39;
        65 -- 70 ~> St 21; 71 ~> St 109; 72 -- 90 ~> St 21; 94 -- 102 ~> St 21; 103 ~> St 109;
        104 -- 122 ~> St 21; 124 ~> St 21; 126 ~> St 21]);
   (109, plain [33 ~> St 21; 35 -- 39 ~> St 21; 42 -- 43 ~> St 21; 45 -- 46 ~> St 21; 48 -- 57 ~> St 21; 58 ~> Tr 39;
        65 -- 83 ~> St 21; 84 ~> St 110; 85 -- 90 ~> St 21; 94 -- 115 ~> St 21; 116 ~> St 110;
        117 -- 122 ~> St 21; 124 ~> St 21; 126 ~> St 21])].

Definition client_states_22 : part action := mkPart
  [(149, go [start_value] 112); (148, go [write_field] 112); (150, go [start_value; write_value] 113)]
  [(110, plain [33 ~> St 21; 35 -- 39 ~> St 21; 42 -- 43 ~> St 21; 45 -- 46 ~> St 21; 48 -- 57 ~> St 21; 58 ~> Tr 39;
        65 -- 71 ~> St 21; 72 ~> St 111; 73 -- 90 ~> St 21; 94 -- 103 ~> St 21; 104 ~> St 111;
        105 -- 122 ~> St 21; 124 ~> St 21; 126 ~> St 21]);
   (111, plain [33 ~> St 21; 35 -- 39 ~> St 21; 42 -- 43 ~> St 21; 45 -- 46 ~> St 21; 48 -- 57 ~> St 21; 58 ~> Tr 148;
        65 -- 90 ~> St 21; 94 -- 122 ~> St 21; 124 ~> St 21; 126 ~> St 21]);
   (112, plain [(-128) -- 8 ~> Tr 40; 9 ~> Tr 149; 10 ~> Tr 150; 11 -- 12 ~> Tr 149; 13 ~> Tr 151; 14 -- 31 ~> Tr 40;
        32 ~> Tr 149; 33 -- 47 ~> Tr 40; 48 -- 57 ~> Tr 152; 58 -- 127 ~> Tr 40]);
   (113, plain [9 ~> St 114; 10 ~> Tr 154; 11 -- 12 ~> St 114; 13 ~> St 116; 32 ~> St 114; 33 ~> Tr 35;
        35 -- 39 ~> Tr 35; 42 -- 43 ~> Tr 35; 45 -- 46 ~> Tr 35; 48 -- 57 ~> Tr 156; 65 -- 66 ~> Tr 35;
        67 ~> Tr 36; 68 -- 83 ~> Tr 35; 84 ~> Tr 37; 85 -- 90 ~> Tr 35; 94 -- 98 ~> Tr 35; 99 ~> Tr 36;
        100 -- 115 ~> Tr 35; 116 ~> Tr 37; 117 -- 122 ~> Tr 35; 124 ~> Tr 35; 126 ~> Tr 35]);
   (114, plain [9 -- 13 ~> St 114; 32 ~> St 114; 48 -- 57 ~> Tr 157])].

Definition client_states_23 : part action := mkPart
  [(157, go [start_value] 115); (154, go [done] 123); (156, go [start_value; start_field] 117);
   (151, go [start_value; write_value] 118); (152, go [start_value] 119)]
  [(115, plain [10 ~> Tr 158; 13 ~> Tr 159; 48 -- 57 ~> St 115]);
   (123, plain [9 -- 13 ~> St 114; 32 ~> St 114; 48 -- 57 ~> Tr 157]);
   (116, plain [9 ~> St 114; 10 ~> Tr 154; 11 -- 13 ~> St 114; 32 ~> St 114; 48 -- 57 ~> Tr 157]);
   (117, plain [10 ~> Tr 158; 13 ~> Tr 159; 33 ~> St 21; 35 -- 39 ~> St 21; 42 -- 43 ~> St 21; 45 -- 46 ~> St 21;
        48 -- 57 ~> St 117; 58 ~> Tr 39; 65 -- 90 ~> St 21; 94 -- 122 ~> St 21; 124 ~> St 21; 126 ~> St 21]);
   (118, plain [9 ~> St 114; 10 ~> St 113; 11 -- 13 ~> St 114; 32 ~> St 114; 48 -- 57 ~> Tr 157]);
   (119, plain [(-128) -- 9 ~> St 23; 10 ~> Tr 158; 11 -- 12 ~> St 23; 13 ~> Tr 159; 14 -- 47 ~> St 23;
        48 -- 57 ~> St 119; 58 -- 127 ~> St 23])].

Definition client_table : list (part action) :=
  [client_states_1; client_states_2; client_states_3; client_states_4; client_states_5; client_states_6;
   client_states_7; client_states_8; client_states_9; client_states_10; client_states_11; client_states_12;
   client_states_13; client_states_14; client_states_15; client_states_16; client_states_17;
   client_states_18; client_states_19; client_states_20; client_states_21; client_states_22;
   client_states_23].
