(* ===== verification/HttpParser.v ===== *)
(** * The scanner of requests: [http/parser/http11_parser.rl.cc]

    [http_parser_init], [http_parser_execute] and [http_parser_finish] around the
    automaton of [HttpScanner.v].  The functions that the actions call are the
    callbacks of [HttpSession.v]; a token is an offset into the buffer and a
    length, both of type [size_t]. *)
From stdpp Require Import list.
From S2P Require Import Prelude Ragel HttpScanner HttpTypes Http HttpSession.
Local Open Scope Z_scope.

(** ** The parser *)

Record http_parser := mkHttpParser {
  cs : Z;
  body_start : Z;
  content_len : Z;
  nread : Z;
  mark_ : Z;
  field_start_ : Z;
  field_len : Z;
  query_start : Z;
  xml_sent : bool;
  json_sent : bool;
  uri_relaxed : bool
}.

Definition http_parser_start : Z := 1.
Definition http_parser_first_final : Z := 348.
Definition http_parser_error : Z := 0.

(** [query_start] and [uri_relaxed] keep what the memory held. *)
Definition http_parser_init (query_start : Z) (uri_relaxed : bool) : http_parser :=
  mkHttpParser http_parser_start 0 0 0 0 0 0 query_start false false uri_relaxed.

Definition set_cs v st := mkHttpParser v (body_start st) (content_len st) (nread st) (mark_ st)
  (field_start_ st) (field_len st) (query_start st) (xml_sent st) (json_sent st) (uri_relaxed st).
Definition set_mark v st := mkHttpParser (cs st) (body_start st) (content_len st) (nread st) v
  (field_start_ st) (field_len st) (query_start st) (xml_sent st) (json_sent st) (uri_relaxed st).
Definition set_field_start v st := mkHttpParser (cs st) (body_start st) (content_len st) (nread st) (mark_ st)
  v (field_len st) (query_start st) (xml_sent st) (json_sent st) (uri_relaxed st).
Definition set_field_len v st := mkHttpParser (cs st) (body_start st) (content_len st) (nread st) (mark_ st)
  (field_start_ st) v (query_start st) (xml_sent st) (json_sent st) (uri_relaxed st).
Definition set_query_start v st := mkHttpParser (cs st) (body_start st) (content_len st) (nread st) (mark_ st)
  (field_start_ st) (field_len st) v (xml_sent st) (json_sent st) (uri_relaxed st).
Definition set_xml_sent v st := mkHttpParser (cs st) (body_start st) (content_len st) (nread st) (mark_ st)
  (field_start_ st) (field_len st) (query_start st) v (json_sent st) (uri_relaxed st).
Definition set_json_sent v st := mkHttpParser (cs st) (body_start st) (content_len st) (nread st) (mark_ st)
  (field_start_ st) (field_len st) (query_start st) (xml_sent st) v (uri_relaxed st).
Definition set_body b n st := mkHttpParser (cs st) b n (nread st) (mark_ st)
  (field_start_ st) (field_len st) (query_start st) (xml_sent st) (json_sent st) (uri_relaxed st).
Definition set_nread v st := mkHttpParser (cs st) (body_start st) (content_len st) v (mark_ st)
  (field_start_ st) (field_len st) (query_start st) (xml_sent st) (json_sent st) (uri_relaxed st).

(** ** Actions *)

(** A call of one of the functions: where its token starts, and its length. *)
Inductive token :=
  | TMethod (off len : Z)
  | TUri (off len : Z)
  | TFragment (off len : Z)
  | TPath (off len : Z)
  | TQuery (off len : Z)
  | TVersion (off len : Z)
  | THeaderDone
  | TField (foff flen voff vlen : Z).

Definition store : Type := http_parser * list token.

(** [LEN(AT, FPC)] and a call. *)
Definition LEN (at_ p : Z) : Z := u64 (p - at_).
Definition emit (t : token) (s : store) : store := (s.1, s.2 ++ [t]).
Definition on_parser (f : http_parser → http_parser) (s : store) : store := (f s.1, s.2).

Definition act (a : action) (p : Z) (s : store) : store :=
  let st := s.1 in
  match a with
  | mark => on_parser (set_mark p) s
  | start_field => on_parser (set_field_start p) s
  | write_field => on_parser (set_field_len (LEN (field_start_ st) p)) s
  | write_value => emit (TField (field_start_ st) (field_len st) (mark_ st) (LEN (mark_ st) p)) s
  | request_method => emit (TMethod (mark_ st) (LEN (mark_ st) p)) s
  | request_uri => emit (TUri (mark_ st) (LEN (mark_ st) p)) s
  | fragment => emit (TFragment (mark_ st) (LEN (mark_ st) p)) s
  | start_query => on_parser (set_query_start p) s
  | query_string => emit (TQuery (query_start st) (LEN (query_start st) p)) s
  | http_version => emit (TVersion (mark_ st) (LEN (mark_ st) p)) s
  | request_path => emit (TPath (mark_ st) (LEN (mark_ st) p)) s
  | done =>
    if xml_sent st || json_sent st then on_parser (set_body (mark_ st) (s32 (p - mark_ st + 1))) s
    else emit THeaderDone (on_parser (set_body (p + 1) (content_len st)) s)
  | xml => on_parser (set_xml_sent true) s
  | json => on_parser (set_json_sent true) s
  end.

Definition breaks (a : action) : bool := bool_decide (a = done).

(** The condition on [more_delims]. *)
Definition widec (relaxed : bool) (c : Z) : Z :=
  if (c =? 94) || (c =? 123) || (c =? 125) then 128 + (c + 128) + (if relaxed then 256 else 0) else c.

(** ** Execution *)

(** The string of a token, when its length is one: the constructor of [std::string]
    throws for more than [max_size]. *)
Definition max_size : Z := 2 ^ 63 - 1.
Definition element (data : bytes) (off len : Z) (f : bytes → nat → callback) : M http_parser callback :=
  if max_size <? len then throw length_error
  else if off + len <=? Z.of_nat (length data) then mret (f (drop (Z.to_nat off) data) (Z.to_nat len))
  else undef out_of_bounds.

Definition callback_of (data : bytes) (t : token) : M http_parser callback :=
  match t with
  | TMethod off len => element data off len CbMethod
  | TUri off len => element data off len CbUri
  | TFragment off len => element data off len CbFragment
  | TPath off len => element data off len CbPath
  | TQuery off len => element data off len CbQuery
  | TVersion off len => element data off len CbVersion
  | THeaderDone => mret CbHeaderDone
  | TField foff flen voff vlen =>
    element data foff flen (λ f n, CbField f n [] 0) ;;
    element data voff vlen (λ v m, CbField (drop (Z.to_nat foff) data) (Z.to_nat flen) v m)
  end.

Fixpoint callbacks_of (data : bytes) (ts : list token) : M http_parser (list callback) :=
  match ts with
  | [] => mret []
  | t :: ts => c ← callback_of data t; cs ← callbacks_of data ts; mret (c :: cs)
  end.

(** The goto code.  When no [case] is [cs] (it is 0 after an error), control falls
    out of the [switch] into the first statement after it, [cs = 2]. *)
Definition http_exec (st : http_parser) (data : bytes) : Z * Z * store * bool :=
  match row_of http_table (cs st) with
  | None => (2, 0, (st, []), false)
  | Some _ => exec http_table (widec (uri_relaxed st)) act breaks (cs st) 0 data (st, [])
  end.

Definition http_parser_has_error (st : http_parser) : bool := cs st =? http_parser_error.
Definition http_parser_is_finished (st : http_parser) : bool := http_parser_first_final <=? cs st.
(** [http_parser_finish]: -1, 1 or 0. *)
Definition http_parser_finish (st : http_parser) : Z :=
  if http_parser_has_error st then -1 else if http_parser_is_finished st then 1 else 0.

(** From offset 0, as [HttpRequestParser::Execute] calls it. *)
Definition http_parser_execute (data : bytes) : M http_parser (nat * list callback) :=
  let len := Z.of_nat (length data) in
  if len =? 0 then mret (O, []) else
  modify (λ st, set_nread 0 (set_mark 0 (set_field_len 0 (set_field_start 0 st)))) ;;
  massert (len =? s32 len) ;;
  st0 ← get;
  let '(cs', p, (st, ts), _) := http_exec st0 data in
  cbs ← callbacks_of data ts;
  modify (λ _, set_nread (nread st + p) (if http_parser_has_error st then st else set_cs cs' st)) ;;
  st ← get;
  massert (nread st <=? len) ;;
  massert (body_start st <=? len) ;;
  massert (mark_ st <? len) ;;
  massert (field_len st <=? len) ;;
  massert (field_start_ st <? len) ;;
  mret (Z.to_nat (nread st), cbs).

(** The scanner of [HttpRequestParser], whose memory held [query_start] and [uri_relaxed]. *)
Definition http_scanner (query_start : Z) (uri_relaxed : bool) : Scanner := {|
  scan_state := http_parser;
  scan_init := http_parser_init query_start uri_relaxed;
  scan_execute := http_parser_execute;
  scan_finished st := negb (http_parser_finish st =? 0);
  scan_error := http_parser_has_error
|}.

(** ** Offsets stay inside the buffer *)

(** In these states [query_start], or the name of the field, has been set. *)
Definition in_query (c : Z) : bool := (c =? 30) || (c =? 31) || (c =? 32).
Definition in_value (c : Z) : bool := (c =? 15) || (c =? 16).

(** What is known to be set, through the actions of a transition: [None] when an
    action uses what is not. *)
Definition track (k : bool * bool) (a : action) : option (bool * bool) :=
  match a with
  | start_query => Some (true, k.2)
  | query_string => if k.1 then Some k else None
  | start_field => Some (k.1, false)
  | write_field => Some (k.1, true)
  | write_value => if k.2 then Some k else None
  | _ => Some k
  end.
Fixpoint track_all (k : bool * bool) (l : list action) : option (bool * bool) :=
  match l with
  | [] => Some k
  | a :: l => k ← track k a; track_all k l
  end.

Definition has_row (c : Z) : bool := match row_of http_table c with Some _ => true | None => false end.

Definition edge_ok (e : Z * target action) : bool :=
  match track_all (in_query e.1, in_value e.1) (on_way e.2) with
  | Some (q, f) => implb (in_query (into e.2)) q && implb (in_value (into e.2)) f
  | None => false
  end && (if existsb breaks (on_way e.2) then http_parser_first_final <=? into e.2
          else (0 <? into e.2) && (into e.2 <? http_parser_first_final) && has_row (into e.2)).

Lemma edges_ok e : e ∈ edges http_table → edge_ok e = true.
Proof.
  intros He. assert (forallb edge_ok (edges http_table) = true) as H by (vm_compute; reflexivity).
  rewrite forallb_forall in H. by apply H, list_elem_of_In.
Qed.

(** A token in a buffer; [stale] allows a query that began in an
    earlier buffer, behind the end of this one. *)
Definition token_ok (stale : bool) (n : Z) (t : token) : Prop :=
  match t with
  | TMethod off len | TUri off len | TFragment off len | TPath off len | TVersion off len => inside n off len
  | TQuery off len => inside n off len ∨ (stale = true ∧ max_size < len)
  | THeaderDone => True
  | TField foff flen voff vlen => inside n foff flen ∧ inside n voff vlen
  end.

Record offsets_ok (stale : bool) (n p : Z) (k : bool * bool) (s : store) : Prop := {
  mark_in : 0 ≤ mark_ s.1 ≤ p ∧ mark_ s.1 < n;
  field_start_in : 0 ≤ field_start_ s.1 ≤ p ∧ field_start_ s.1 < n;
  field_len_in : 0 ≤ field_len s.1 ≤ n;
  body_in : 0 ≤ body_start s.1 ≤ n;
  field_known : k.2 = true → field_start_ s.1 + field_len s.1 ≤ p;
  query_known : k.1 = true → 0 ≤ query_start s.1 < 2 ^ 31 ∧ (stale = false → query_start s.1 ≤ p);
  tokens_in : Forall (token_ok stale n) s.2
}.

Lemma LEN_in at_ p n : 0 ≤ at_ ≤ p → p ≤ n < 2 ^ 31 → LEN at_ p = p - at_ ∧ inside n at_ (LEN at_ p).
Proof. apply distance_inside. Qed.

Lemma LEN_stale at_ p : 0 ≤ p < at_ → at_ < 2 ^ 31 → max_size < LEN at_ p.
Proof.
  intros H1 H2. unfold LEN, wrap, max_size. rewrite <- (Z_mod_plus_full _ 1), Z.mod_small; lia.
Qed.

Lemma offsets_emit stale n p k s t : offsets_ok stale n p k s → token_ok stale n t → offsets_ok stale n p k (emit t s).
Proof. intros [] Ht. split; cbn; try done. apply Forall_app; by split; [|constructor]. Qed.

Ltac offsets := split; cbn; intros; repeat match goal with
  | H : ?P → _, H' : ?P |- _ => specialize (H H')
  | H : true = true → _ |- _ => specialize (H eq_refl)
  | H : _ ∧ _ |- _ => destruct H
  end; split_and?; intros; try done; try lia; auto.

(** Every action keeps them. *)
Lemma act_offsets stale n p k k' a s : n < 2 ^ 31 → 0 ≤ p < n → track k a = Some k' →
  offsets_ok stale n p k s → offsets_ok stale n p k' (act a p s).
Proof.
  intros Hn Hp Hk Ho. pose proof Ho as []. destruct k as [q f].
  destruct a; cbn in Hk; repeat case_match; simplify_eq; cbn in *; try (apply offsets_emit; [exact Ho|cbn]);
    repeat match goal with H : _ ∧ _ |- _ => destruct H end; try (apply LEN_in; lia).
  - offsets.
  - offsets.
  - pose proof (LEN_in (field_start_ s.1) p n ltac:(lia) ltac:(lia)) as [Hl _].
    offsets; rewrite ?Hl; try lia.
  - split; [|apply LEN_in; lia]. unfold inside. specialize (field_known0 eq_refl). lia.
  - offsets.
  - destruct (query_known0 eq_refl) as [Hq Hs]. destruct (Z.le_gt_cases (query_start s.1) p).
    + left. apply LEN_in; lia.
    + right. split; [destruct stale; [done|lia]|apply LEN_stale; lia].
  - case_match; [offsets|]. apply offsets_emit; [|done]. offsets.
  - offsets.
  - offsets.
Qed.

Lemma actions_offsets stale n p l : n < 2 ^ 31 → 0 ≤ p < n → ∀ k k' s, track_all k l = Some k' →
  offsets_ok stale n p k s → offsets_ok stale n p k' (run_actions act l p s).
Proof.
  intros Hn Hp. induction l as [|a l IH]; intros k k' s Hk Ho; cbn in *; [by injection Hk as <-|].
  apply bind_Some in Hk as (k1 & H1 & H2). eapply IH; [done|]. by eapply act_offsets.
Qed.

Lemma offsets_next stale n p k k' s : (k'.1 = true → k.1 = true) → (k'.2 = true → k.2 = true) →
  offsets_ok stale n p k s → offsets_ok stale n (p + 1) k' s.
Proof. intros H1 H2 []. offsets; naive_solver lia. Qed.

(** ** Safety of the scanner *)

(** A parser between two buffers. *)
Definition parser_ok (st : http_parser) : Prop :=
  0 ≤ cs st ∧ (http_parser_finish st = 0 → has_row (cs st) = true) ∧ (in_query (cs st) = true → 0 ≤ query_start st < 2 ^ 31) ∧
  (body_start st = 0 ∨ http_parser_finish st ≠ 0).

Lemma act_frame a p s : cs (act a p s).1 = cs s.1 ∧ nread (act a p s).1 = nread s.1 ∧
  uri_relaxed (act a p s).1 = uri_relaxed s.1 ∧ (breaks a = false → body_start (act a p s).1 = body_start s.1).
Proof. destruct a; cbn; try done. by case_match. Qed.

Lemma actions_frame l p : ∀ s, let s' := run_actions act l p s in
  cs s'.1 = cs s.1 ∧ nread s'.1 = nread s.1 ∧ uri_relaxed s'.1 = uri_relaxed s.1 ∧
  (existsb breaks l = false → body_start s'.1 = body_start s.1).
Proof.
  induction l as [|a l IH]; intros s; [done|]. destruct (IH (act a p s)) as (H1 & H2 & H3 & H4).
  change (run_actions act (a :: l) p s) with (run_actions act l p (act a p s)). cbn [existsb]. destruct (act_frame a p s) as (G1 & G2 & G3 & G4). split_and!; try congruence.
  intros [Ha Hl]%orb_false_iff. rewrite H4, G4; done.
Qed.

(** Before every character of a buffer of [n] bytes, and where the run is left; [st]
    is the parser the run began with. *)
Definition running (st : http_parser) (n c p : Z) (s : store) : Prop :=
  offsets_ok (in_query (cs st)) n p (in_query c, in_value c) s ∧
  0 < c < http_parser_first_final ∧ body_start s.1 = 0 ∧ cs s.1 = cs st ∧ nread s.1 = nread st ∧
  uri_relaxed s.1 = uri_relaxed st ∧ has_row c = true.
Definition stopped (st : http_parser) (n c p : Z) (s : store) : Prop :=
  offsets_ok (in_query (cs st)) n p (false, false) s ∧
  (c = 0 ∧ body_start s.1 = 0 ∨ http_parser_first_final ≤ c) ∧ cs s.1 = cs st ∧ nread s.1 = nread st ∧
  uri_relaxed s.1 = uri_relaxed st.

Lemma offsets_weaken stale n p k s : offsets_ok stale n p k s → offsets_ok stale n p (false, false) s.
Proof. intros []. by split. Qed.

Lemma run_step st n c t p s : n < 2 ^ 31 → (c, t) ∈ edges http_table → 0 ≤ p < n → running st n c p s →
  (if existsb breaks (on_way t) then stopped st n else running st n) (into t) (p + 1) (run_actions act (on_way t) p s).
Proof.
  intros Hn He Hp (Ho & Hc & Hb & Hcs & Hnr & Hur & Hrow). pose proof (edges_ok _ He) as Hok. unfold edge_ok in Hok.
  cbn [fst snd] in Hok. destruct (track_all _ _) as [[q f]|] eqn:Ht; [|done].
  rewrite !andb_true_iff, !implb_true_iff in Hok. destruct Hok as [[Hq Hf] Hi].
  pose proof (actions_offsets _ _ _ _ Hn Hp _ _ _ Ht Ho) as Ho'.
  pose proof (actions_frame (on_way t) p s) as (F1 & F2 & F3 & F4).
  destruct (existsb breaks (on_way t)); rewrite ?andb_true_iff in Hi; split_and!; try congruence; try lia; try apply Hi.
  - eapply offsets_weaken, offsets_next, Ho'; done.
  - eapply offsets_next, Ho'; done.
Qed.

Lemma run_error st n c p s : running st n c p s → stopped st n 0 p s.
Proof. intros (Ho & Hc & Hb & ? & ? & ? & _). split_and!; [by eapply offsets_weaken|by left|done..]. Qed.

Lemma http_exec_ok st data (n := Z.of_nat (length data)) : n < 2 ^ 31 → 0 < n →
  mark_ st = 0 → field_start_ st = 0 → field_len st = 0 → body_start st = 0 → 0 < cs st < http_parser_first_final →
  (in_query (cs st) = true → 0 ≤ query_start st < 2 ^ 31) → has_row (cs st) = true →
  let '(cs', p, s', out) := http_exec st data in
  0 ≤ p ≤ n ∧ (if out : bool then stopped st n cs' p s' else running st n cs' p s').
Proof.
  intros Hn Hn0 Hm Hfs Hfl Hb Hc Hq Hrow. unfold http_exec.
  assert (running st n (cs st) 0 (st, [])) as H0.
  { split_and!; try done; try lia. split; cbn; rewrite ?Hm, ?Hfs, ?Hfl, ?Hb; try lia; try done.
    intros H. split; [by apply Hq|]. by rewrite H. }
  unfold has_row in Hrow. destruct (row_of http_table (cs st)); [|done].
  pose proof (exec_inv http_table (widec (uri_relaxed st)) act breaks (running st n) (stopped st n) n
    (λ c t p s, run_step st n c t p s Hn) (run_error st n) data (cs st) 0 (st, []) eq_refl ltac:(lia) H0) as H.
  destruct (exec _ _ _ _ _ _ _ _) as [[[cs' p] s'] out]. destruct H as [Hp H]. split; [lia|]. by destruct out.
Qed.

Lemma element_ok data off len f (st : http_parser) : inside (Z.of_nat (length data)) off len →
  Z.of_nat (length data) < 2 ^ 31 → ∃ c, element data off len f st = Ret c st.
Proof.
  intros (? & ? & ?) Hn. unfold element, max_size. rewrite (proj2 (Z.ltb_ge _ _)) by lia.
  rewrite (proj2 (Z.leb_le _ _)) by lia. by eexists.
Qed.

(** The calls that were recorded happen, unless the string of a query is too long. *)
Lemma callbacks_ok stale data ts st : Forall (token_ok stale (Z.of_nat (length data))) ts →
  Z.of_nat (length data) < 2 ^ 31 →
  (∃ cbs, callbacks_of data ts st = Ret cbs st) ∨ (stale = true ∧ callbacks_of data ts st = Throw length_error st).
Proof.
  intros Hts Hn. induction Hts as [|t ts Ht _ IH]; [left; by eexists|]. cbn [callbacks_of].
  assert ((∃ c, callback_of data t st = Ret c st) ∨ stale = true ∧ callback_of data t st = Throw length_error st) as [[c Hc]|[Hs Hc]].
  { destruct t; cbn in Ht |- *; try (left; by apply element_ok); [|left; by eexists|].
    - destruct Ht as [Ht|[Hs Hl]]; [left; by apply element_ok|right]. split; [done|].
      unfold element. by rewrite (proj2 (Z.ltb_lt _ _)).
    - destruct Ht as [Hf Hv]. left.
      destruct (element_ok data foff flen (λ f n, CbField f n [] 0) st Hf Hn) as [c Hc]. rewrite (bind_Ret _ _ _ _ _ Hc).
      by apply element_ok. }
  - rewrite (bind_Ret _ _ _ _ _ Hc). destruct IH as [[cbs H]|[Hs H]].
    + left. rewrite (bind_Ret _ _ _ _ _ H). by eexists.
    + right. split; [done|]. by apply bind_Throw.
  - right. split; [done|]. by apply bind_Throw.
Qed.

Lemma finish_0 st : http_parser_finish st = 0 → cs st ≠ 0 ∧ cs st < http_parser_first_final.
Proof.
  unfold http_parser_finish, http_parser_has_error, http_parser_is_finished, http_parser_error.
  destruct (Z.eqb_spec (cs st) 0); [done|]. destruct (Z.leb_spec http_parser_first_final (cs st)); [done|lia].
Qed.

(** Where the automaton is after a text, and whether it was left before its end. *)
Definition scan_states (relaxed : bool) (c : Z) (data : bytes) : Z * bool :=
  let '(c', _, _, out) := exec http_table (widec relaxed) act breaks c 0 data (http_parser_init 0 relaxed, []) in (c', out).

Lemma http_parser_execute_ok st data : parser_ok st → http_parser_finish st = 0 → Z.of_nat (length data) < 2 ^ 31 →
  (∃ n cbs st', http_parser_execute data st = Ret (n, cbs) st' ∧ (n ≤ length data)%nat ∧ parser_ok st' ∧
     uri_relaxed st' = uri_relaxed st ∧
     scan_states (uri_relaxed st) (cs st) data = (cs st', negb (http_parser_finish st' =? 0))) ∨
  (in_query (cs st) = true ∧ ∃ st', http_parser_execute data st = Throw length_error st').
Proof.
  intros (Hc0 & Hrow & Hq & Hb) Hfin Hn. specialize (Hrow Hfin). unfold http_parser_execute. set (n := Z.of_nat (length data)) in *.
  destruct (Z.eqb_spec n 0) as [H0|H0].
  { left. do 3 eexists. split; [reflexivity|]. split; [lia|]. split; [done|]. split; [done|].
    destruct data; [|done]. unfold scan_states. cbn. by rewrite Hfin. }
  destruct (finish_0 st Hfin) as [Hc1 Hc2]. set (st1 := set_nread 0 (set_mark 0 (set_field_len 0 (set_field_start 0 st)))).
  rewrite (bind_Ret _ _ st tt st1) by done.
  rewrite massert_true by (unfold n; rewrite swrap_small by (unfold in_s; lia); apply Z.eqb_refl).
  rewrite (bind_Ret _ _ st1 st1 st1) by done.
  pose proof (http_exec_ok st1 data Hn ltac:(lia) eq_refl eq_refl eq_refl ltac:(cbn; by destruct Hb)
    ltac:(cbn; lia) Hq Hrow) as Hx.
  assert (let '(c', p, s', out) := http_exec st1 data in scan_states (uri_relaxed st) (cs st) data = (c', out)) as Hst.
  { unfold http_exec. change (cs st1) with (cs st). change (uri_relaxed st1) with (uri_relaxed st). unfold has_row in Hrow.
    destruct (row_of http_table (cs st)); [|done]. unfold scan_states.
    pose proof (exec_states http_table (widec (uri_relaxed st)) act breaks (cs st) 0 (st1, []) data (cs st) 0
      (http_parser_init 0 (uri_relaxed st), []) eq_refl) as H.
    repeat match goal with |- context [exec ?a ?b ?c ?d ?e ?f ?g ?h] => destruct (exec a b c d e f g h) as [[[? ?] ?] ?] end.
    by destruct H as (-> & -> & _). }
  destruct (http_exec st1 data) as [[[cs' p] [st2 ts]] out]. destruct Hx as [Hp Hx]. fold n in Hp, Hx.
  set (st3 := set_nread p (set_cs cs' st2)).
  assert (offsets_ok (in_query (cs st)) n p (in_query cs', false) (st2, ts) ∧ cs st2 = cs st ∧ nread st2 = 0 ∧
    uri_relaxed st2 = uri_relaxed st ∧ 0 ≤ cs' ∧ (body_start st2 = 0 ∨ http_parser_finish st3 ≠ 0) ∧
    (http_parser_finish st3 = 0 → has_row cs' = true) ∧ out = negb (http_parser_finish st3 =? 0))
    as (Ho & Hcs & Hnr & Hur & Hc' & Hfb & Hrow' & Hout).
  { destruct out; destruct Hx as (Ho & Hx).
    - destruct Hx as (Hx & ? & ? & ?).
      assert (http_parser_finish st3 ≠ 0) as Hf3.
      { unfold http_parser_finish, http_parser_has_error, http_parser_is_finished. cbn.
        destruct Hx as [[-> ?]|Hx]; [done|]. rewrite (proj2 (Z.leb_le _ _) Hx). by destruct (cs' =? _). }
      split_and!; [|done..|destruct Hx as [[-> ?]|]; unfold http_parser_first_final in *; lia|by right|done|].
      + assert (in_query cs' = false) as -> by (destruct Hx as [[-> ?]|]; [done|]; unfold in_query, http_parser_first_final in *; lia).
        done.
      + by rewrite (proj2 (Z.eqb_neq _ _)).
    - destruct Hx as (? & ? & ? & ? & ? & ?). split_and!; [|done..|lia|by left|done|]; [destruct Ho; by split|].
      unfold http_parser_finish, http_parser_has_error, http_parser_is_finished, http_parser_error, http_parser_first_final in *. cbn.
      rewrite (proj2 (Z.eqb_neq cs' 0)) by lia. by rewrite (proj2 (Z.leb_gt 348 cs')) by lia. }
  destruct Ho as [? ? ? ? ? Hqk Hts]. cbn [fst snd] in *.
  destruct (callbacks_ok _ data ts st1 Hts Hn) as [[cbs Hcbs]|[Hs Hcbs]].
  2: { right. split; [done|]. exists st1. by apply bind_Throw. }
  left. rewrite (bind_Ret _ _ _ _ _ Hcbs).
  assert (http_parser_has_error st2 = false) as Hne.
  { unfold http_parser_has_error, http_parser_error. rewrite Hcs. by apply Z.eqb_neq. }
  rewrite (bind_Ret _ _ st1 tt st3) by (unfold modify; by rewrite Hne, Hnr).
  rewrite (bind_Ret _ _ st3 st3 st3) by done.
  rewrite !massert_true by (cbn; lia).
  do 3 eexists. split; [reflexivity|]. split; [cbn; lia|]. split; [|split; [done|by rewrite Hst, Hout]].
  split; [done|]. split; [done|]. split; [|done]. cbn. intros Hiq. by apply Hqk.
Qed.

#[export] Instance http_scanner_laws q r : ScannerLaws (http_scanner q r).
Proof.
  refine (Build_ScannerLaws (http_scanner q r) parser_ok _ _).
  - split; [|done]. split; [by cbn|]. split; [done|]. split; [done|by left].
  - intros st data Hok Hf _ Hn. cbn in Hf |- *. apply negb_false_iff, Z.eqb_eq in Hf.
    destruct (http_parser_execute_ok st data Hok Hf Hn) as [(n & cbs & st' & -> & ? & ? & _)|(_ & st' & ->)]; done.
Defined.

(** ** Requests in pieces *)

(** The pieces of a request, one after the other, as [recv_head] hands them on. *)
Fixpoint feed (ds : list bytes) : M http_parser (list callback) :=
  match ds with
  | [] => mret []
  | d :: ds =>
    '(_, cbs) ← http_parser_execute d;
    st ← get;
    if negb (http_parser_finish st =? 0) then mret cbs else
    cbs' ← feed ds; mret (cbs ++ cbs')
  end.

Lemma scan_states_app r c a b : scan_states r c (a ++ b) =
  let '(c', out) := scan_states r c a in if out : bool then (c', true) else scan_states r c' b.
Proof.
  unfold scan_states. rewrite exec_app. destruct (exec _ _ _ _ c 0 a _) as [[[c' p] s] out].
  destruct out; [done|].
  pose proof (exec_states http_table (widec r) act breaks c' p s b c' 0 (http_parser_init 0 r, []) eq_refl) as H.
  repeat match goal with |- context [exec ?a ?b ?c ?d ?e ?f ?g ?h] => destruct (exec a b c d e f g h) as [[[? ?] ?] ?] end.
  by destruct H as (-> & -> & _).
Qed.

(** Some piece ends inside a query. *)
Definition ends_in_query (ds : list bytes) (st : http_parser) : Prop :=
  ∃ before d after cbs st', ds = before ++ d :: after ∧ feed before st = Ret cbs st' ∧ in_query (cs st') = true.

Lemma feed_ok ds : ∀ st, parser_ok st → http_parser_finish st = 0 → Forall (λ d, Z.of_nat (length d) < 2 ^ 31) ds →
  (∃ cbs st', feed ds st = Ret cbs st' ∧ parser_ok st' ∧
     scan_states (uri_relaxed st) (cs st) (concat ds) = (cs st', negb (http_parser_finish st' =? 0))) ∨
  (∃ st', feed ds st = Throw length_error st' ∧ ends_in_query ds st).
Proof.
  induction ds as [|d ds IH]; intros st Hok Hfin Hds; cbn [feed concat].
  { left. do 2 eexists. split; [reflexivity|]. split; [done|]. unfold scan_states. cbn. by rewrite Hfin. }
  apply Forall_cons in Hds as [Hd Hds].
  destruct (http_parser_execute_ok st d Hok Hfin Hd) as [(n & cbs & st1 & Hr & _ & Hok1 & Hur & Hscan)|(Hq & st' & Hr)].
  2: { right. exists st'. split; [by apply bind_Throw|]. by exists [], d, ds, [], st. }
  rewrite (bind_Ret _ _ _ _ _ Hr). rewrite (bind_Ret _ _ st1 st1 st1) by done. rewrite scan_states_app, Hscan.
  destruct (Z.eqb_spec (http_parser_finish st1) 0) as [Hf|Hf]; cbn [negb].
  - destruct (IH st1 Hok1 Hf Hds) as [(cbs' & st2 & Hr2 & Hok2 & Hs2)|(st2 & Hr2 & before & d' & after & cbs' & st3 & -> & Hr3 & Hq)].
    + left. rewrite (bind_Ret _ _ _ _ _ Hr2). do 2 eexists. split; [reflexivity|]. split; [done|]. by rewrite <- Hur.
    + right. exists st2. split; [by apply bind_Throw|]. exists (d :: before), d', after, (cbs ++ cbs'), st3. split; [done|]. split; [|done].
      cbn [feed]. rewrite (bind_Ret _ _ _ _ _ Hr). rewrite (bind_Ret _ _ st1 st1 st1) by done. rewrite Hf. cbn [Z.eqb negb].
      by rewrite (bind_Ret _ _ _ _ _ Hr3).
  - left. do 2 eexists. split; [reflexivity|]. split; [done|]. by rewrite (proj2 (Z.eqb_neq _ 0)).
Qed.

Lemma init_ok q r : parser_ok (http_parser_init q r) ∧ http_parser_finish (http_parser_init q r) = 0.
Proof. split; [|done]. split_and!; [done|done|done|by left]. Qed.

(** C22: whatever bytes arrive, and however they are cut, no assertion of the parser
    fails, every token it hands on lies in the buffer and what it reports as read is
    no more than it was given; all that can happen is the exception of
    [std::string].  A request in one piece does not even throw. *)
Theorem parser_never_asserts q r ds : Forall (λ d, Z.of_nat (length d) < 2 ^ 31) ds →
  ((∃ cbs st, feed ds (http_parser_init q r) = Ret cbs st ∧ (http_parser_finish st = 0 → body_start st = 0)) ∨
   ∃ st, feed ds (http_parser_init q r) = Throw length_error st) ∧
  (∀ d, d ∈ ds → ∃ n cbs st, http_parser_execute d (http_parser_init q r) = Ret (n, cbs) st ∧ (n ≤ length d)%nat).
Proof.
  intros Hds. destruct (init_ok q r) as [Hok Hf]. split.
  - destruct (feed_ok ds _ Hok Hf Hds) as [(cbs & st & Hr & (_ & _ & _ & Hb) & _)|(st & Ht & _)]; [left|right; by exists st].
    do 2 eexists. split; [exact Hr|]. intros H0. by destruct Hb.
  - intros d Hd. rewrite Forall_forall in Hds.
    destruct (http_parser_execute_ok _ d Hok Hf (Hds d Hd)) as [(n & cbs & st & Hr & Hn & _)|[? _]]; [|done].
    do 3 eexists. by split.
Qed.

(** C23: the state the parser reaches does not depend on how the bytes are cut: fed
    in any pieces, it accepts, rejects or waits exactly as when it is given all of
    them at once; except that it may throw [length_error], and then only if some piece
    ends inside the query of the request.  (Both, and that the tokens may differ, are in
    [cut_request_differs].) *)
Theorem feed_cuts_agree q r ds : Z.of_nat (length (concat ds)) < 2 ^ 31 →
  ∃ cbs st, feed [concat ds] (http_parser_init q r) = Ret cbs st ∧
  ((∃ st', feed ds (http_parser_init q r) = Throw length_error st' ∧ ends_in_query ds (http_parser_init q r)) ∨
   ∃ cbs' st', feed ds (http_parser_init q r) = Ret cbs' st' ∧ cs st' = cs st ∧
     http_parser_finish st' = http_parser_finish st).
Proof.
  intros Hn. destruct (init_ok q r) as [Hok Hf].
  destruct (http_parser_execute_ok _ (concat ds) Hok Hf Hn) as [(n & cbs & st & Hr & _ & _ & _ & Hs)|[? _]]; [|done].
  assert (∃ cbs, feed [concat ds] (http_parser_init q r) = Ret cbs st) as [cbs1 H1].
  { cbn [feed]. rewrite (bind_Ret _ _ _ _ _ Hr). rewrite (bind_Ret _ _ st st st) by done.
    destruct (negb _); by eexists. }
  exists cbs1, st. split; [done|].
  assert (Forall (λ d, Z.of_nat (length d) < 2 ^ 31) ds) as Hds.
  { clear -Hn. induction ds as [|d ds IH]; [done|]. cbn in Hn. rewrite length_app in Hn. constructor; [lia|apply IH; lia]. }
  destruct (feed_ok ds _ Hok Hf Hds) as [(cbs' & st' & Hr' & _ & Hs')|Ht]; [right|by left].
  do 2 eexists. split; [exact Hr'|]. rewrite Hs in Hs'. injection Hs' as Hc _. split; [done|].
  unfold http_parser_finish, http_parser_has_error, http_parser_is_finished. by rewrite Hc.
Qed.

Definition request_end : bytes := [byte.of_Z 13; byte.of_Z 10; byte.of_Z 13; byte.of_Z 10].

Lemma feed_cuts_agree_witness : ∃ cbs st,
  feed [bs "GET /ind"; bs "ex HTTP/1.1"; request_end] (http_parser_init 7 false) = Ret cbs st ∧ http_parser_finish st = 1.
Proof.
  destruct (feed_cuts_agree 7 false [bs "GET /ind"; bs "ex HTTP/1.1"; request_end]) as (cbs & st & Hr & [(st' & Ht & _)|(cbs' & st' & Hr' & _ & Hf)]);
    [by vm_compute|by vm_compute in Ht|]. exists cbs', st'. split; [exact Hr'|]. rewrite Hf.
  vm_compute in Hr. by injection Hr as _ <-.
Defined.

Lemma parser_never_asserts_witness : ∃ n cbs st,
  http_parser_execute (bs "PUT zzz") (http_parser_init 0 true) = Ret (n, cbs) st ∧ (n ≤ 7)%nat.
Proof.
  destruct (parser_never_asserts 0 true [bs "PUT zzz"]) as [_ H]; [by repeat constructor|]. apply (H (bs "PUT zzz")). by left.
Defined.

(** What a request means does depend on how it is cut.  Cut in the path, the
    path is what arrived last, because [mark] is set to the start of the new buffer;
    cut in the query, the length of the query wraps around, because [query_start] is
    not, and the constructor of the string throws. *)
Theorem cut_request_differs q r :
  (∃ cbs st cbs' st',
     feed [bs "GET /index HTTP/1.1" ++ request_end] (http_parser_init q r) = Ret cbs st ∧
     feed [bs "GET /ind"; bs "ex HTTP/1.1" ++ request_end] (http_parser_init q r) = Ret cbs' st' ∧
     http_parser_finish st = 1 ∧ http_parser_finish st' = 1 ∧
     omap (λ c, if c is CbPath s n then Some (take n s) else None) cbs = [bs "/index"] ∧
     omap (λ c, if c is CbPath s n then Some (take n s) else None) cbs' = [bs "ex"]) ∧
  (∃ cbs st st',
     feed [bs "GET /path?ab HTTP/1.1" ++ request_end] (http_parser_init q r) = Ret cbs st ∧ http_parser_finish st = 1 ∧
     feed [bs "GET /path?a"; bs "b HTTP/1.1" ++ request_end] (http_parser_init q r) = Throw length_error st').
Proof.
  split.
  - do 4 eexists. destruct r; split_and!; vm_compute; reflexivity.
  - do 3 eexists. destruct r; split_and!; vm_compute; reflexivity.
Qed.
