(* ===== verification/HttpRoundtrip.v ===== *)
(** * Printed requests are parsed back

    [HttpRequest::ToString] of [http/http.cc] against the scanner of
    [http/parser/http11_parser.rl.cc], the callbacks of [http/http_parser.cc] and
    [HttpSession::RecvRequest]. *)
From stdpp Require Import list.
From S2P Require Import Prelude CLib Ragel HttpScanner Strings HttpTypes Http HttpMessages HttpSession HttpParser.
Import Method Status.
Local Open Scope Z_scope.

(** ** What a request may hold *)

Definition slash : byte := byte.of_Z 47.
Definition good_path (s : bytes) : bool :=
  match s with
  | c :: s => bool_decide (c = slash) && pct_text path_char s && negb (bool_decide (head s = Some slash))
  | [] => false
  end.
(** The requests that come back: methods the grammar has, an absolute path, and
    headers whose values do not begin with a blank. *)
Record sendable (r : HttpRequest) : Prop := {
  method_good : method_ r ≠ INVALID_METHOD ∧ method_ r ≠ MSEARCH;
  version_good : version_ r = 0x11 ∨ version_ r = 0x10;
  path_good : good_path (path_ r) = true;
  query_good : pct_text query_char (query_ r) = true;
  fragment_good : pct_text query_char (fragment_ r) = true;
  headers_good : Forall (λ p, good_name p.1 = true ∧ good_value p.2 = true) (headers_ r)
}.

(** ** Sections of a request *)

Lemma callbacks_app data a b (x : http_parser) : callbacks_of data (a ++ b) x =
  (callbacks_of data a ≫= λ ca, callbacks_of data b ≫= λ cb, mret (ca ++ cb)) x.
Proof.
  revert x. induction a as [|t a IH]; intros x; cbn [callbacks_of app].
  - unfold mbind, mret, M_bind, M_ret. by destruct (callbacks_of data b x).
  - unfold mbind, M_bind. destruct (callback_of data t x) as [c y| | |]; try done. rewrite IH.
    unfold mbind, mret, M_bind, M_ret. destruct (callbacks_of data a y) as [ca z| | |]; try done.
    by destruct (callbacks_of data b z).
Qed.

Lemma element_at (pre s post : bytes) f (x : http_parser) off len : off = Z.of_nat (length pre) → len = Z.of_nat (length s) →
  Z.of_nat (length (pre ++ s ++ post)) < 2 ^ 31 →
  element (pre ++ s ++ post) off len f x = Ret (f (s ++ post) (length s)) x.
Proof.
  intros -> -> Hn. rewrite !length_app in Hn. unfold element, max_size.
  rewrite (proj2 (Z.ltb_ge _ _)) by lia. rewrite (proj2 (Z.leb_le _ _)) by (rewrite !length_app; lia).
  by rewrite !Nat2Z.id, drop_app_length.
Qed.

Lemma element_eq (pre s post data rest : bytes) n f (x : http_parser) off len : data = pre ++ s ++ post → rest = s ++ post →
  n = length s → off = Z.of_nat (length pre) → len = Z.of_nat (length s) → Z.of_nat (length data) < 2 ^ 31 →
  element data off len f x = Ret (f rest n) x.
Proof. intros -> -> ->. apply element_at. Qed.

(** The callbacks of two texts in sequence. *)
Definition chain (f : bytes → list callback) (b : bytes) (g : bytes → list callback) (post : bytes) : list callback :=
  f (b ++ post) ++ g post.

Section scan.
Variable relaxed : bool.

Abbreviation nx := (next http_table (widec relaxed)).
Abbreviation reads := (reads http_table (widec relaxed) act breaks).
Abbreviation silent := (silent http_table (widec relaxed)).

(** Text [s] that the automaton reads from [c] to [c'], wherever it is in the
    buffer, and the callbacks it makes, given what comes behind. *)
Definition quiet (st : http_parser) : Prop :=
  xml_sent st = false ∧ json_sent st = false ∧ cs st = 1 ∧ nread st = 0.
Definition section (c : Z) (s : bytes) (c' : Z) (cbs : bytes → list callback) : Prop :=
  ∀ pre post st ts, let data := pre ++ s ++ post in
  quiet st → Z.of_nat (length data) < 2 ^ 31 →
  ∃ st' new, reads c (Z.of_nat (length pre)) (st, ts) s c' (st', ts ++ new) ∧ quiet st' ∧
    ∀ x : http_parser, callbacks_of data new x = Ret (cbs post) x.

Lemma section_app c a c1 f b c2 g : section c a c1 f → section c1 b c2 g → section c (a ++ b) c2 (chain f b g).
Proof.
  intros Ha Hb pre post st ts data Hq Hn. unfold data in *.
  assert (pre ++ (a ++ b) ++ post = pre ++ a ++ b ++ post) as Hd by (by rewrite <- app_assoc).
  assert (pre ++ (a ++ b) ++ post = (pre ++ a) ++ b ++ post) as Hd2 by (by rewrite <- !app_assoc).
  destruct (Ha pre (b ++ post) st ts Hq) as (st1 & n1 & R1 & Q1 & C1); [by rewrite <- Hd|].
  destruct (Hb (pre ++ a) post st1 (ts ++ n1) Q1) as (st2 & n2 & R2 & Q2 & C2); [by rewrite <- Hd2|].
  exists st2, (n1 ++ n2). split_and!; [|done|].
  - eapply reads_app; [exact R1|]. rewrite app_assoc. rewrite length_app, Nat2Z.inj_add in R2. exact R2.
  - intros x. rewrite callbacks_app, Hd. rewrite (bind_Ret _ _ _ _ _ (C1 x)).
    rewrite <- Hd, Hd2. by rewrite (bind_Ret _ _ _ _ _ (C2 x)).
Qed.

Lemma section_nil c : section c [] c (λ _, []).
Proof. intros pre post st ts data Hq _. exists st, []. rewrite app_nil_r. split_and!; [apply reads_nil|done|done]. Qed.

(** Text without actions. *)
Lemma section_silent c s c' : (∀ p x, reads c p x s c' x) → section c s c' (λ _, []).
Proof. intros H pre post st ts data Hq _. exists st, []. rewrite app_nil_r. by split_and!. Qed.

(** *** Transitions *)

Lemma check_arc P c t : (∀ r, forallb (λ b, implb (P b) (target_is (next http_table (widec r) c b) t)) all_bytes = true) →
  ∀ b, P b = true → nx c b = Some t.
Proof. intros H. apply check_next, H. Qed.

(** A token: [mark] at its first character, the actions [acts] behind it. *)
Lemma reads_token c b s e c1 c2 acts c' p st ts : nx c b = Some (go [mark] c1) →
  (∀ p x, reads c1 p x s c2 x) → nx c2 e = Some (go acts c') → existsb breaks acts = false →
  reads c p (st, ts) (b :: s ++ [e]) c' (run_actions act acts (p + Z.of_nat (length (b :: s))) (set_mark p st, ts)).
Proof.
  intros Hb Hs He Ha. eapply reads_cons; [exact Hb|done|]. eapply reads_app; [exact (Hs (p + 1) _)|].
  cbn [length]. replace (p + Z.of_nat (S (length s))) with (p + 1 + Z.of_nat (length s)) by lia.
  by apply (reads_one _ _ _ _ c2 _ _ e (go acts c')).
Qed.

Lemma LEN_at (k p : Z) (s : bytes) : 0 ≤ k → p = k + Z.of_nat (length s) → Z.of_nat (length s) < 2 ^ 31 →
  LEN k p = Z.of_nat (length s).
Proof. intros ? -> ?. unfold LEN. rewrite wrap_small by (unfold in_u; lia). lia. Qed.

(** Its callback. *)
Definition element_of (a : action) : option (bytes → nat → callback) :=
  match a with
  | request_method => Some CbMethod
  | fragment => Some CbFragment
  | http_version => Some CbVersion
  | _ => None
  end.

Lemma section_token c b s e c1 c2 a f c' : nx c b = Some (go [mark] c1) → (∀ p x, reads c1 p x s c2 x) →
  nx c2 e = Some (go [a] c') → element_of a = Some f →
  section c (b :: s ++ [e]) c' (λ post, [f (b :: s ++ e :: post) (S (length s))]).
Proof.
  intros Hb Hs He Ha pre post st ts data Hq Hn. unfold data in *.
  assert (pre ++ (b :: s ++ [e]) ++ post = pre ++ (b :: s) ++ (e :: post)) as Hd by (cbn; by rewrite <- app_assoc).
  rewrite Hd in *. set (p := Z.of_nat (length pre)).
  pose proof (reads_token c b s e c1 c2 [a] c' p st ts Hb Hs He ltac:(by destruct a)) as R.
  rewrite !length_app in Hn.
  destruct a; try done; injection Ha as <-; do 2 eexists; (split_and!; [exact R|exact Hq|]); intros x;
    cbn [callbacks_of callback_of mark_ set_mark]; rewrite (LEN_at p _ (b :: s)) by (unfold p; cbn [length] in *; lia);
    by rewrite (bind_Ret _ _ _ _ _ (element_at pre (b :: s) (e :: post) _ x _ _ eq_refl eq_refl ltac:(rewrite !length_app; lia))).
Qed.

Lemma section_ext c s c' f g : section c s c' f → (∀ post, f post = g post) → section c s c' g.
Proof.
  intros H He pre post st ts data Hq Hn. destruct (H pre post st ts Hq Hn) as (st' & new & R & Q & C).
  exists st', new. split_and!; [done..|]. intros x. by rewrite C, He.
Qed.

Lemma section_then_silent c a c1 f b c2 : section c a c1 f → silent c1 b = Some c2 →
  section c (a ++ b) c2 (λ post, f (b ++ post)).
Proof.
  intros Ha Hb. eapply section_ext; [exact (section_app _ _ _ _ _ _ _ Ha (section_silent _ _ _ (silent_reads _ _ _ _ _ _ _ Hb)))|].
  intros post. unfold chain. by rewrite app_nil_r.
Qed.

(** *** The method and the version *)

Definition method_scanned (m : HttpMethod) : bool :=
  match HttpMethodToString m with
  | b :: s => target_is (nx 1 b) (go [mark] 2) &&
              match silent 2 s with
              | Some c2 => target_is (nx c2 (byte.of_Z 32)) (go [request_method] 3)
              | None => false
              end
  | [] => false
  end.
End scan.

(** The methods the grammar has: all but [M-SEARCH]. *)
Definition grammar_methods : list HttpMethod :=
  [DELETE; GET; HEAD; POST; PUT; CONNECT; OPTIONS; TRACE; COPY; LOCK; MKCOL; MOVE; PROPFIND; PROPPATCH;
   SEARCH; UNLOCK; BIND; REBIND; UNBIND; ACL; REPORT; MKACTIVITY; CHECKOUT; MERGE; NOTIFY; SUBSCRIBE;
   UNSUBSCRIBE; PATCH; PURGE; MKCALENDAR; LINK; UNLINK; SOURCE].

Lemma methods_scanned r m : m ≠ INVALID_METHOD → m ≠ MSEARCH → method_scanned r m = true.
Proof.
  intros H1 H2. assert (forallb (method_scanned r) grammar_methods = true) as H by (destruct r; vm_compute; reflexivity).
  rewrite forallb_forall in H. apply H. destruct m; try done; repeat (first [left; reflexivity|right]).
Qed.

Section sections.
Variable relaxed : bool.
Abbreviation nx := (next http_table (widec relaxed)).
Abbreviation reads := (reads http_table (widec relaxed) act breaks).
Abbreviation silent := (silent http_table (widec relaxed)).
Abbreviation section := (section relaxed).

Ltac table :=
  match goal with
  | |- ∀ b, @?P b = true → _ => refine (check_arc relaxed P _ _ _); intros []
  | _ => destruct relaxed
  end; vm_compute; reflexivity.

Lemma method_section m : m ≠ INVALID_METHOD → m ≠ MSEARCH → section 1 (HttpMethodToString m ++ bs " ") 3
  (λ post, [CbMethod (HttpMethodToString m ++ bs " " ++ post) (length (HttpMethodToString m))]).
Proof.
  intros H1 H2. pose proof (methods_scanned relaxed m H1 H2) as H. unfold method_scanned in H.
  destruct (HttpMethodToString m) as [|b s]; [done|]. apply andb_true_iff in H as [Hb%bool_decide_eq_true H].
  destruct (silent 2 s) as [c2|] eqn:Hs; [|done]. apply bool_decide_eq_true in H.
  eapply section_token; [exact Hb|by apply silent_reads|exact H|done].
Qed.

Lemma version_section v : v = 0x11 ∨ v = 0x10 →
  section 4 (bs "HTTP/" ++ version_text v ++ crlf) 13 (λ post, [CbVersion (bs "HTTP/" ++ version_text v ++ crlf ++ post) 8]).
Proof.
  intros Hv. assert (section 4 (bs "HTTP/" ++ version_text v ++ [cr]) 17
    (λ post, [CbVersion (bs "HTTP/" ++ version_text v ++ [cr] ++ post) 8])) as H.
  { destruct Hv as [->| ->].
    - apply (section_token relaxed 4 (byte.of_Z 72) (bs "TTP/1.1") cr 5 12 http_version CbVersion 17);
        [|apply silent_reads| |]; destruct relaxed; vm_compute; reflexivity.
    - apply (section_token relaxed 4 (byte.of_Z 72) (bs "TTP/1.0") cr 5 12 http_version CbVersion 17);
        [|apply silent_reads| |]; destruct relaxed; vm_compute; reflexivity. }
  assert (∀ s, bs "HTTP/" ++ version_text v ++ crlf ++ s = (bs "HTTP/" ++ version_text v ++ [cr]) ++ [byte.of_Z 10] ++ s) as Hs.
  { intros s. by rewrite <- !app_assoc. }
  rewrite <- (app_nil_r crlf), Hs.
  eapply section_ext; [eapply section_then_silent; [exact H|destruct relaxed; vm_compute; reflexivity]|].
  intros post. cbn beta. by rewrite Hs, <- !app_assoc.
Qed.

(** *** The target *)

Lemma pct_reads c c1 c2 P : (∀ b, P b = true → nx c b = Some (go [] c)) → nx c percent = Some (go [] c1) →
  (∀ b, is_xdigit b = true → nx c1 b = Some (go [] c2)) → (∀ b, is_xdigit b = true → nx c2 b = Some (go [] c)) →
  ∀ s p x, pct_text P s = true → reads c p x s c x.
Proof.
  intros HP H0 H1 H2 s p x Hs.
  eapply reads_pct; [exact HP|by intros b ->%bool_decide_eq_true|exact H1|exact H2|exact Hs].
Qed.

(** Text that begins in [c0], with a character that is not excluded by [Q], and goes
    on in the loop of [c]; [acts] at its first character. *)
Lemma pct_first c0 d0 acts c c1 c2 P Q b s : (∀ b, P b && Q b = true → nx c0 b = Some (go acts c)) →
  nx c0 percent = Some (go acts d0) → (∀ b, is_xdigit b = true → nx d0 b = Some (go [] c2)) →
  (∀ b, P b = true → nx c b = Some (go [] c)) → nx c percent = Some (go [] c1) →
  (∀ b, is_xdigit b = true → nx c1 b = Some (go [] c2)) → (∀ b, is_xdigit b = true → nx c2 b = Some (go [] c)) →
  pct_text P (b :: s) = true → Q b = true → ∃ d, nx c0 b = Some (go acts d) ∧ ∀ p x, reads d p x s c x.
Proof.
  intros HF HFp HF1 HP H0 H1 H2 Hs HQ. cbn in Hs. case_bool_decide as Hb.
  - subst b. exists d0. split; [done|]. intros p x. destruct s as [|y [|z s]]; [done..|].
    rewrite !andb_true_iff in Hs. destruct Hs as [[Hy Hz] Hs].
    eapply reads_cons; [by apply HF1|done|]. eapply reads_cons; [by apply H2|done|]. by eapply pct_reads.
  - apply andb_true_iff in Hs as [Hb' Hs]. exists c. split; [apply HF; by rewrite Hb', HQ|]. intros p x. by eapply pct_reads.
Qed.

(** The path, from behind its first slash. *)
Lemma path_reads s : pct_text path_char s = true → head s ≠ Some slash →
  ∃ c, (c = 33 ∨ c = 26) ∧ ∀ p x, reads 33 p x s c x.
Proof.
  destruct s as [|b s]; intros Hs Hh; [exists 33; split; [by left|intros; apply reads_nil]|].
  destruct (pct_first 33 27 [] 26 27 28 path_char (λ b, negb (bool_decide (b = slash))) b s) as (d & Hd & Hr);
    [table..|done|apply negb_true_iff, bool_decide_eq_false; cbn in Hh; congruence|].
  exists 26. split; [by right|]. intros p x. by eapply reads_cons; [exact Hd|done|].
Qed.

Definition blank : byte := byte.of_Z 32.
Definition hash : byte := byte.of_Z 35.
Definition question : byte := byte.of_Z 63.

(** What may follow a path or a query, and where it leads. *)
Definition target_end (e : byte) (d : Z) : Prop := (e = blank ∧ d = 4) ∨ (e = hash ∧ d = 20).

Lemma path_ends c e d : c = 33 ∨ c = 26 → target_end e d → nx c e = Some (go [request_path; request_uri] d).
Proof. intros [->| ->] [[-> ->]|[-> ->]]; table. Qed.
Lemma query_ends e d : target_end e d → nx 30 e = Some (go [query_string; request_uri] d).
Proof. intros [[-> ->]|[-> ->]]; table. Qed.

Lemma callbacks_cons data t ts (x : http_parser) c cbs : callback_of data t x = Ret c x →
  callbacks_of data ts x = Ret cbs x → callbacks_of data (t :: ts) x = Ret (c :: cbs) x.
Proof. intros H1 H2. cbn [callbacks_of]. rewrite (bind_Ret _ _ _ _ _ H1). by rewrite (bind_Ret _ _ _ _ _ H2). Qed.

(** The path and the query, up to the character behind them. *)
Lemma target_section s q e d : pct_text path_char s = true → head s ≠ Some slash → pct_text query_char q = true →
  target_end e d →
  section 3 ((slash :: s) ++ prefixed [question] q ++ [e]) d
    (λ post, CbPath ((slash :: s) ++ prefixed [question] q ++ e :: post) (length (slash :: s))
      :: (if bool_decide (q = []) then [] else [CbQuery (q ++ e :: post) (length q)])
      ++ [CbUri ((slash :: s) ++ prefixed [question] q ++ e :: post) (length ((slash :: s) ++ prefixed [question] q))]).
Proof.
  intros Hs Hh Hq He. destruct (path_reads s Hs Hh) as (c & Hc & Hr).
  assert (nx 3 slash = Some (go [mark] 33)) as Hsl by table.
  intros pre post st ts data Hqt Hn. unfold data in *. clear data. set (p := Z.of_nat (length pre)).
  destruct q as [|b q].
  - cbn [prefixed] in *. change (prefixed [question] []) with (@nil byte) in *. rewrite app_nil_l in *.
    assert (pre ++ ((slash :: s) ++ [e]) ++ post = pre ++ (slash :: s) ++ (e :: post)) as Hd by (by rewrite <- !app_assoc).
    rewrite Hd in *. rewrite !length_app in Hn.
    pose proof (reads_token relaxed 3 slash s e 33 c _ d p st ts Hsl Hr (path_ends c e d Hc He) eq_refl) as R.
    exists (set_mark p st). eexists. split_and!; [|exact Hqt|].
    { cbn in R. unfold emit, on_parser in R. cbn in R. rewrite <- app_assoc in R. exact R. }
    intros x. rewrite !app_nil_r. change (S (length s)) with (length (slash :: s)).
    rewrite (LEN_at p _ (slash :: s)) by (unfold p; cbn [length] in *; lia).
    apply callbacks_cons; [|apply callbacks_cons, eq_refl]; cbn [callback_of];
      apply element_at; try done; rewrite !length_app; cbn [length] in *; lia.
  - destruct (pct_first 29 31 [start_query] 30 31 32 query_char (λ _, true) b q) as (d' & Hb & Hr');
      [table..|done|done|].
    change (prefixed [question] (b :: q)) with ([question] ++ b :: q) in *.
    set (full := (slash :: s) ++ [question] ++ b :: q).
    assert (pre ++ ((slash :: s) ++ ([question] ++ b :: q) ++ [e]) ++ post = pre ++ full ++ (e :: post)) as Hd by
      (unfold full; by rewrite <- !app_assoc).
    assert (pre ++ full ++ e :: post = pre ++ (slash :: s) ++ ([question] ++ (b :: q) ++ e :: post)) as Hd1 by
      (unfold full; by rewrite <- !app_assoc).
    assert (pre ++ full ++ e :: post = (pre ++ (slash :: s) ++ [question]) ++ (b :: q) ++ e :: post) as Hd2 by
      (unfold full; by rewrite <- !app_assoc).
    rewrite Hd in Hn. assert (Hn' := Hn). rewrite !length_app in Hn'. unfold full in Hn'. rewrite !length_app in Hn'. cbn [length] in Hn'.
    set (p1 := p + Z.of_nat (length (slash :: s)) + 1). set (p2 := p1 + Z.of_nat (length (b :: q))).
    assert (nx c question = Some (go [request_path] 29)) as Hqm by (destruct Hc as [->| ->]; table).
    pose proof (reads_token relaxed 3 slash s question 33 c _ 29 p st ts Hsl Hr Hqm eq_refl) as R1.
    assert (reads 3 p (st, ts) ((slash :: s ++ [question]) ++ b :: q ++ [e]) d
      (set_query_start p1 (set_mark p st), ts ++ [TPath p (LEN p (p + Z.of_nat (length (slash :: s))));
         TQuery p1 (LEN p1 p2); TUri p (LEN p p2)])) as R.
    { eapply reads_app; [exact R1|]. eapply reads_cons; [exact Hb|done|]. eapply reads_app; [exact (Hr' _ _)|].
      assert (p + Z.of_nat (length (slash :: s ++ [question])) = p1) as -> by (unfold p1; cbn [length]; rewrite length_app; cbn; lia).
      replace (p1 + 1 + Z.of_nat (length q)) with p2 by (unfold p2; cbn [length]; lia).
      change [TPath p ?a; ?b; ?c] with ([TPath p a] ++ [b] ++ [c]).
      rewrite !app_assoc. exact (reads_one http_table (widec relaxed) act breaks 30 p2 _ e _ (query_ends e d He) eq_refl). }
    exists (set_query_start p1 (set_mark p st)). eexists. split_and!; [|exact Hqt|].
    { assert ((slash :: s) ++ ([question] ++ b :: q) ++ [e] = (slash :: s ++ [question]) ++ b :: q ++ [e]) as -> by
        (cbn; by rewrite <- !app_assoc). exact R. }
    intros x. rewrite Hd. apply callbacks_cons; [|apply callbacks_cons; [|apply callbacks_cons, eq_refl]]; cbn [callback_of].
    + apply (element_eq pre (slash :: s) ([question] ++ (b :: q) ++ e :: post)); try done.
      apply LEN_at; unfold p; cbn [length] in *; lia.
    + apply (element_eq (pre ++ (slash :: s) ++ [question]) (b :: q) (e :: post)); try done.
      * unfold p1, p. rewrite !length_app. cbn [length] in *. lia.
      * apply LEN_at; unfold p1, p2, p; cbn [length] in *; lia.
    + apply (element_eq pre full (e :: post)); try done; [unfold full; by rewrite <- !app_assoc|].
      apply LEN_at; unfold full, p2, p1, p; rewrite ?length_app; cbn [length] in *; lia.
Qed.

(** The fragment, up to the blank behind it. *)
Lemma fragment_section f : f ≠ [] → pct_text query_char f = true →
  section 20 (f ++ [blank]) 4 (λ post, [CbFragment (f ++ blank :: post) (length f)]).
Proof.
  destruct f as [|b f]; [done|]. intros _ Hf.
  destruct (pct_first 20 22 [mark] 21 22 23 query_char (λ _, true) b f) as (d & Hb & Hr); [table..|done|done|].
  eapply section_token; [exact Hb|exact Hr|table|done].
Qed.

(** *** Headers *)

Lemma header_reads k v p st ts : good_name k = true → good_value v = true →
  let p1 := p + Z.of_nat (length k) in let pv := p1 + 2 in
  reads 13 p (st, ts) (header_line (k, v)) 13
    (set_mark pv (set_mark (p1 + 1) (set_field_len (LEN p p1) (set_field_start p st))),
     ts ++ [TField p (LEN p p1) pv (LEN pv (pv + Z.of_nat (length v)))]).
Proof.
  intros [Hk0 Hk]%andb_true_iff Hv p1 pv. destruct k as [|b k]; [done|].
  cbn [forallb] in Hk. apply andb_true_iff in Hk as [Hb Hk]. unfold header_line. cbn [fst snd].
  assert (∀ b, token_char b = true → nx 13 b = Some (go [start_field] 14)) as H13 by table.
  assert (∀ b, token_char b = true → nx 14 b = Some (go [] 14)) as H14 by table.
  eapply reads_cons; [by apply H13|done|]. eapply reads_app; [eapply reads_loop; [exact H14|exact Hk]|].
  replace (p + 1 + Z.of_nat (length k)) with p1 by (unfold p1; cbn [length]; lia).
  change (bs ": ") with [colon; blank].
  eapply reads_cons; [assert (nx 14 colon = Some (go [write_field] 15)) as H by table; exact H|done|].
  eapply reads_cons; [assert (nx 15 blank = Some (go [mark] 15)) as H by table; exact H|done|].
  change crlf with [cr; byte.of_Z 10]. cbn [app]. replace (p1 + 1 + 1) with pv by (unfold pv; lia).
  assert (∀ s, reads 17 (pv + Z.of_nat (length v) + 1) s [byte.of_Z 10] 13 s) as Hlf by
    (intros s; apply (silent_reads _ _ _ _ 17 [byte.of_Z 10] 13); table).
  destruct v as [|c v].
  - eapply reads_cons; [assert (nx 15 cr = Some (go [mark; write_value] 17)) as H by table; exact H|done|].
    replace (pv + 1) with (pv + Z.of_nat (length (@nil byte)) + 1) by (cbn; lia).
    replace (pv + Z.of_nat (length (@nil byte))) with pv in * by (cbn; lia). apply Hlf.
  - cbn [good_value] in Hv. apply andb_true_iff in Hv as [Hc Hv]. cbn [forallb] in Hv. apply andb_true_iff in Hv as [_ Hv].
    assert (∀ b, value_start b = true → nx 15 b = Some (go [mark] 16)) as H15 by table.
    assert (∀ b, value_char b = true → nx 16 b = Some (go [] 16)) as H16 by table.
    eapply reads_cons; [by apply H15|done|]. eapply reads_app; [eapply reads_loop; [exact H16|exact Hv]|].
    replace (pv + 1 + Z.of_nat (length v)) with (pv + Z.of_nat (length (c :: v))) by (cbn [length]; lia).
    eapply reads_cons; [assert (nx 16 cr = Some (go [write_value] 17)) as H by table; exact H|done|]. apply Hlf.
Qed.

Lemma header_section k v : good_name k = true → good_value v = true →
  section 13 (header_line (k, v)) 13
    (λ post, [CbField (header_line (k, v) ++ post) (length k) (v ++ crlf ++ post) (length v)]).
Proof.
  intros Hk Hv pre post st ts data Hq Hn. unfold data in *. clear data. set (p := Z.of_nat (length pre)).
  do 2 eexists. split_and!; [by apply header_reads|exact Hq|]. intros x.
  assert (Hn' := Hn). unfold header_line in Hn'. rewrite !length_app in Hn'. cbn [fst snd] in Hn'.
  change (length (bs ": ")) with 2%nat in Hn'.
  apply callbacks_cons; [|done]. cbn [callback_of].
  rewrite (LEN_at p _ k), (LEN_at _ _ v) by (unfold p; lia).
  assert (∀ f, element (pre ++ header_line (k, v) ++ post) p (Z.of_nat (length k)) f x =
    Ret (f (header_line (k, v) ++ post) (length k)) x) as H1.
  { intros f. apply (element_eq pre k (bs ": " ++ v ++ crlf ++ post)); try done; unfold header_line; by rewrite <- !app_assoc. }
  rewrite (bind_Ret _ _ _ _ _ (H1 _)).
  unfold p at 2. rewrite !Nat2Z.id, drop_app_length.
  apply (element_eq (pre ++ k ++ bs ": ") v (crlf ++ post)); try done.
  - unfold header_line. by rewrite <- !app_assoc.
  - unfold p. rewrite !length_app. change (length (bs ": ")) with 2%nat. lia.
Qed.

(** All of them. *)
Definition header_callbacks (hs : list (bytes * bytes)) (post : bytes) : list callback :=
  (fix go hs := match hs with
   | [] => []
   | (k, v) :: hs => CbField (header_line (k, v) ++ lines hs ++ post) (length k) (v ++ crlf ++ lines hs ++ post) (length v) :: go hs
   end) hs.

Lemma headers_section hs : Forall (λ p, good_name p.1 = true ∧ good_value p.2 = true) hs →
  section 13 (lines hs) 13 (header_callbacks hs).
Proof.
  induction 1 as [|[k v] hs [Hk Hv] _ IH]; [apply section_nil|].
  eapply section_ext; [exact (section_app _ _ _ _ _ _ _ _ (header_section k v Hk Hv) IH)|]. done.
Qed.
End sections.

(** ** The whole head *)

Section head.
Variable memory : Z.
Variable relaxed : bool.
#[local] Instance request_scanner : Scanner := http_scanner memory relaxed.
Abbreviation section := (section relaxed).

(** What the callbacks do to the request. *)
Definition does (cbs : bytes → list callback) (f : HttpRequest → HttpRequest) : Prop :=
  ∀ post P, foldl run_callback P (cbs post) = on_data f P.

Lemma does_app cbs1 b cbs2 f g : does cbs1 f → does cbs2 g → does (chain cbs1 b cbs2) (g ∘ f).
Proof. intros H1 H2 post P. unfold chain. by rewrite foldl_app, H1, H2. Qed.

Lemma does_ext cbs f g : does cbs f → (∀ d, f d = g d) → does cbs g.
Proof. intros H He post P. rewrite H. unfold on_data. by rewrite He. Qed.

Lemma take_at {A} (a b : list A) n : n = length a → take n (a ++ b) = a.
Proof. intros ->. apply take_app_length. Qed.

Lemma method_does m : m ≠ INVALID_METHOD →
  does (λ post, [CbMethod (HttpMethodToString m ++ bs " " ++ post) (length (HttpMethodToString m))]) (SetMethod m).
Proof.
  intros Hm post P. cbn [foldl run_callback]. unfold OnRequestMethod.
  pose proof (proj1 (proj2 (method_names m (bs " " ++ post) Hm))) as Hc. rewrite Hc. by rewrite bool_decide_eq_false_2.
Qed.

Lemma version_does v : v = 0x11 ∨ v = 0x10 →
  does (λ post, [CbVersion (bs "HTTP/" ++ version_text v ++ crlf ++ post) 8]) (SetVersion v).
Proof.
  intros Hv post P. cbn [foldl run_callback]. unfold OnRequestVersion, strncmp_eq.
  assert (∀ s, take 8 (c_str (bs "HTTP/" ++ version_text v ++ crlf ++ post) ++ s) = bs "HTTP/" ++ version_text v) as Hs.
  { intros s. rewrite app_assoc, c_str_app by (destruct Hv as [->| ->]; vm_compute; repeat constructor).
    rewrite <- app_assoc. apply take_at. by destruct Hv as [->| ->]. }
  rewrite !Hs. destruct Hv as [->| ->]; [by rewrite bool_decide_eq_true_2|].
  rewrite bool_decide_eq_false_2, bool_decide_eq_true_2; [done..|]. by vm_compute.
Qed.

Lemma headers_do hs : Forall (λ p, good_name p.1 = true ∧ good_value p.2 = true) hs →
  does (header_callbacks hs) (λ d, foldl (λ d p, SetHeader p.1 p.2 d) d hs).
Proof.
  induction 1 as [|[k v] hs [Hk _] _ IH]; intros post P; [by destruct P|].
  cbn [header_callbacks foldl run_callback]. unfold OnRequestHttpField.
  rewrite (proj2 (Nat.eqb_neq _ _)) by (by destruct k).
  unfold header_line at 1. cbn [fst snd]. rewrite <- !app_assoc, !take_at by done.
  exact (IH post (on_data (SetHeader k v) P)).
Qed.

(** The request that arrives. *)
Definition received (r d : HttpRequest) : HttpRequest :=
  let d := SetPath (path_ r) (SetMethod (method_ r) d) in
  let d := if bool_decide (query_ r = []) then d else SetQuery (query_ r) d in
  let d := if bool_decide (fragment_ r = []) then d else SetFragment (fragment_ r) d in
  foldl (λ d p, SetHeader p.1 p.2 d) (SetVersion (version_ r) d) (sent_headers r).

(** Printed numbers are digits, which may begin a value. *)
Lemma dec_good n : good_value (dec n) = true.
Proof.
  assert (∀ s, forallb (among [(48, 57)]) s = true → good_value s = true) as H.
  { assert (∀ b, implb (among [(48, 57)] b) (value_start b && value_char b) = true) as Hb by (apply check_bytes; vm_compute; reflexivity).
    intros [|c s] Hs; [done|]. cbn [good_value forallb] in *. apply andb_true_iff in Hs as [Hc Hs].
    pose proof (Hb c) as Hb1. rewrite Hc in Hb1. apply andb_true_iff in Hb1 as [-> ->]. cbn.
    rewrite forallb_forall in Hs |- *. intros x Hx. pose proof (Hb x) as Hx1. rewrite (Hs x Hx) in Hx1.
    by apply andb_true_iff in Hx1 as [_ ->]. }
  apply H. unfold dec. assert (∀ u, forallb (among [(48, 57)]) (bs (DecimalString.NilEmpty.string_of_uint u)) = true) as Hu.
  { intros u. induction u as [|u IH|u IH|u IH|u IH|u IH|u IH|u IH|u IH|u IH|u IH]; [done|exact IH..]. }
  unfold DecimalString.NilZero.string_of_uint. destruct (N.to_uint n); [done|apply (Hu (_ u))..].
Qed.

Lemma sent_headers_good r : sendable r → Forall (λ p, good_name p.1 = true ∧ good_value p.2 = true) (sent_headers r).
Proof.
  intros [_ _ _ _ _ Hh]. unfold sent_headers. apply Forall_app. split; [|apply Forall_app; split].
  - unfold own_connection. destruct (websocket_ r); [constructor|]. constructor; [|constructor].
    destruct (close_ r); by vm_compute.
  - unfold kept_headers. apply Forall_forall. intros p [_ Hp]%list_elem_of_filter.
    rewrite Forall_forall in Hh. by apply Hh.
  - unfold length_header. case_bool_decide; [constructor|]. constructor; [|constructor]. cbn [fst snd]. split; [by vm_compute|apply dec_good].
Qed.

Lemma target_does s q e : does (λ post, CbPath ((slash :: s) ++ prefixed [question] q ++ e :: post) (length (slash :: s))
      :: (if bool_decide (q = []) then [] else [CbQuery (q ++ e :: post) (length q)])
      ++ [CbUri ((slash :: s) ++ prefixed [question] q ++ e :: post) (length ((slash :: s) ++ prefixed [question] q))])
  (λ d, let d := SetPath (slash :: s) d in if bool_decide (q = []) then d else SetQuery q d).
Proof.
  intros post P. cbn [foldl run_callback app]. rewrite foldl_app. cbn [foldl run_callback].
  change (slash :: s ++ ?x) with ((slash :: s) ++ x). rewrite take_at by done.
  case_bool_decide; [done|]. cbn [foldl run_callback]. by rewrite take_at.
Qed.

Lemma head_section r : sendable r → ∃ cbs,
  section 1 (request_line r ++ crlf ++ lines (sent_headers r)) 13 cbs ∧ does cbs (received r).
Proof.
  intros Hr. pose proof (sent_headers_good r Hr) as Hg. destruct Hr as [[Hm1 Hm2] Hv Hp Hq Hf _].
  unfold good_path in Hp. destruct (path_ r) as [|c s] eqn:Hpath; [done|]. rewrite !andb_true_iff in Hp.
  destruct Hp as [[->%bool_decide_eq_true Hs] Hh%negb_true_iff%bool_decide_eq_false].
  assert (∃ cbs, section 3 (path_ r ++ prefixed (bs "?") (query_ r) ++ prefixed (bs "#") (fragment_ r) ++ bs " ") 4 cbs ∧
    does cbs (λ d, let d := SetPath (path_ r) d in let d := if bool_decide (query_ r = []) then d else SetQuery (query_ r) d in
      if bool_decide (fragment_ r = []) then d else SetFragment (fragment_ r) d)) as (cbs & Hsec & Hdo).
  { rewrite Hpath. change (bs "?") with [question]. change (bs "#") with [hash]. change (bs " ") with [blank].
    unfold prefixed at 2. case_bool_decide as Hf0.
    - eexists. split; [apply (target_section relaxed s (query_ r) blank 4); [done..|by left]|]. apply target_does.
    - eexists. split.
      + rewrite <- (app_assoc [hash]). rewrite (app_assoc (prefixed _ _)), (app_assoc (slash :: s)).
        eapply section_app; [apply (target_section relaxed s (query_ r) hash 20); [done..|by right]|by apply fragment_section].
      + eapply (does_app _ _ _ _ (SetFragment (fragment_ r))); [apply target_does|].
        intros post P. cbn [foldl run_callback]. by rewrite take_at. }
  eexists. split.
  - assert (request_line r ++ crlf ++ lines (sent_headers r) = (HttpMethodToString (method_ r) ++ bs " ") ++
      (path_ r ++ prefixed (bs "?") (query_ r) ++ prefixed (bs "#") (fragment_ r) ++ bs " ") ++
      (bs "HTTP/" ++ version_text (version_ r) ++ crlf) ++ lines (sent_headers r)) as ->.
    { unfold request_line. change (bs " HTTP/") with (bs " " ++ bs "HTTP/"). by rewrite <- !app_assoc. }
    eapply section_app; [by apply method_section|]. eapply section_app; [exact Hsec|].
    eapply section_app; [by apply version_section|]. by apply headers_section.
  - rewrite Hpath in Hdo. eapply does_ext.
    + eapply does_app; [by apply method_does|]. eapply does_app; [exact Hdo|].
      eapply does_app; [by apply version_does|]. by apply headers_do.
    + intros d. unfold received. by rewrite Hpath.
Qed.

(** ** Receiving it *)

Definition head_of (r : HttpRequest) : bytes := request_line r ++ crlf ++ lines (sent_headers r) ++ crlf.

Lemma exec_head r rest : sendable r → Z.of_nat (length (head_of r ++ rest)) < 2 ^ 31 → ∃ st ts cbs,
  http_exec (http_parser_init memory relaxed) (head_of r ++ rest) = (348, Z.of_nat (length (head_of r)), (st, ts), true) ∧
  cs st = 1 ∧ nread st = 0 ∧ (∀ x : http_parser, callbacks_of (head_of r ++ rest) ts x = Ret cbs x) ∧
  ∀ P, foldl run_callback P cbs = on_data (received r) P.
Proof.
  intros Hr Hn. destruct (head_section r Hr) as (cbs & Hsec & Hdo).
  set (hd := request_line r ++ crlf ++ lines (sent_headers r)) in *.
  assert (head_of r = hd ++ crlf) as Hhd by (unfold head_of, hd; by rewrite <- !app_assoc).
  rewrite Hhd in *. rewrite <- app_assoc in *.
  destruct (Hsec [] (crlf ++ rest) (http_parser_init memory relaxed) [] ltac:(done) Hn) as (st & ts & R & Q & C).
  set (p := Z.of_nat (length hd)).
  exists (set_body (p + 2) (content_len st) (set_field_start p st)), (ts ++ [THeaderDone]), (cbs (crlf ++ rest) ++ [CbHeaderDone]).
  destruct Q as (Qx & Qj & Qc & Qn). split_and!; [|done|done| |].
  - unfold http_exec. assert (is_Some (row_of http_table (cs (http_parser_init memory relaxed)))) as [x ->] by (vm_compute; eauto).
    cbn [cs uri_relaxed http_parser_init]. rewrite app_nil_l in *. erewrite exec_reads; [|exact R]. fold p.
    change crlf with [cr; byte.of_Z 10]. cbn [app exec].
    assert (next http_table (widec relaxed) 13 cr = Some (go [start_field] 18)) as -> by (destruct relaxed; vm_compute; reflexivity).
    cbn [on_way existsb into exec run_actions foldl act].
    assert (next http_table (widec relaxed) 18 (byte.of_Z 10) = Some (go [done] 348)) as -> by (destruct relaxed; vm_compute; reflexivity).
    assert (Z.of_nat (length (hd ++ [cr; byte.of_Z 10])) = p + 2) as -> by (rewrite length_app; unfold p; cbn; lia).
    cbn. rewrite Qx, Qj. cbn. unfold emit, on_parser. cbn. replace (0 + p + 1 + 1) with (p + 2) by lia. by rewrite Z.add_0_l.
  - intros x. rewrite callbacks_app. rewrite (bind_Ret _ _ _ _ _ (C x)). done.
  - intros P. by rewrite foldl_app, Hdo.
Qed.

Lemma execute_from_start data p st ts out cbs cs' : 0 < Z.of_nat (length data) < 2 ^ 31 →
  http_exec (http_parser_init memory relaxed) data = (cs', p, (st, ts), out) → cs st = 1 → nread st = 0 →
  (∀ x : http_parser, callbacks_of data ts x = Ret cbs x) →
  ∃ st', http_parser_execute data (http_parser_init memory relaxed) = Ret (Z.to_nat p, cbs) st' ∧ cs st' = cs'.
Proof.
  intros Hn Hx Hc Hnr Hcbs.
  destruct (http_parser_execute_ok (http_parser_init memory relaxed) data) as [(n & cbs' & st' & Hr & _)|[Hq _]];
    [split_and!; [done|done|done|by left]|done|lia| |done].
  exists st'. rewrite Hr. revert Hr. unfold http_parser_execute.
  rewrite (proj2 (Z.eqb_neq _ _)) by lia.
  rewrite (bind_Ret _ _ _ tt (http_parser_init memory relaxed)) by done.
  rewrite massert_true by (rewrite swrap_small by (unfold in_s; lia); apply Z.eqb_refl).
  rewrite (bind_Ret _ _ _ (http_parser_init memory relaxed) (http_parser_init memory relaxed)) by done. rewrite Hx.
  rewrite (bind_Ret _ _ _ _ _ (Hcbs _)).
  assert (http_parser_has_error st = false) as Hne by (unfold http_parser_has_error; by rewrite Hc).
  set (st3 := set_nread p (set_cs cs' st)).
  rewrite (bind_Ret _ _ _ tt st3) by (unfold modify; by rewrite Hne, Hnr).
  rewrite (bind_Ret _ _ st3 st3 st3) by done. intros H. do 5 apply massert_Ret in H.
  change (Ret (Z.to_nat (nread st3), cbs) st3 = Ret (n, cbs') st') in H. by injection H as <- <- <-.
Qed.

Lemma Execute_head r rest : sendable r → Z.of_nat (length (head_of r ++ rest)) < 2 ^ 31 →
  ∃ st, Execute new_HttpRequestParser (head_of r ++ rest) =
    Ret (mkParser st (received r (new_HttpRequest 0x11 true)) 0, length (head_of r), rest) st ∧ cs st = 348.
Proof.
  intros Hr Hn. destruct (exec_head r rest Hr Hn) as (st & ts & cbs & Hx & Hc & Hnr & Hcb & Hdo).
  assert (0 < Z.of_nat (length (head_of r ++ rest))) as Hpos by (unfold head_of; rewrite !length_app; cbn; lia).
  destruct (execute_from_start _ _ _ _ _ _ _ (conj Hpos Hn) Hx Hc Hnr Hcb) as (st' & Hr' & Hcs).
  exists st'. split; [|done]. unfold Execute. cbn [parser_ new_HttpRequestParser scan_init request_scanner http_scanner scan_execute].
  rewrite Hr', Hdo. unfold on_data. cbn. by rewrite Nat2Z.id, drop_app_length.
Qed.

Lemma headers_set hs key d : map_find (headers_ (foldl (λ d p, SetHeader p.1 p.2 d) d hs)) key =
  last_value hs key (map_find (headers_ d) key).
Proof.
  revert d. induction hs as [|[k v] hs IH]; intros d; [done|]. cbn [foldl last_value fst snd]. rewrite IH.
  unfold last_value. cbn [foldl]. f_equal. unfold SetHeader, map_set. cbn [headers_ set_headers_ fst snd].
  rewrite map_find_put. case_decide; [by destruct (map_find _ k)|done].
Qed.

Lemma set_headers_fields hs d : let d' := foldl (λ d p, SetHeader p.1 p.2 d) d hs in
  method_ d' = method_ d ∧ version_ d' = version_ d ∧ path_ d' = path_ d ∧ query_ d' = query_ d ∧
  fragment_ d' = fragment_ d ∧ body_ d' = body_ d.
Proof. revert d. induction hs as [|p hs IH]; intros d; [by split_and!|exact (IH (SetHeader p.1 p.2 d))]. Qed.

(** The request that [received] makes of a new one. *)
Lemma received_fields r : let d := received r (new_HttpRequest 0x11 true) in
  method_ d = method_ r ∧ version_ d = version_ r ∧ path_ d = path_ r ∧ query_ d = query_ r ∧
  fragment_ d = fragment_ r ∧ body_ d = [] ∧ ∀ key, map_find (headers_ d) key = last_value (sent_headers r) key None.
Proof.
  cbn zeta. unfold received. destruct (set_headers_fields (sent_headers r) (SetVersion (version_ r)
    (let d := SetPath (path_ r) (SetMethod (method_ r) (new_HttpRequest 0x11 true)) in
     let d := if bool_decide (query_ r = []) then d else SetQuery (query_ r) d in
     if bool_decide (fragment_ r = []) then d else SetFragment (fragment_ r) d))) as (H1 & H2 & H3 & H4 & H5 & H6).
  cbn zeta in *. rewrite H1, H2, H3, H4, H5, H6. do 2 case_bool_decide; split_and!; cbn; try done; intros key; by rewrite headers_set.
Qed.

Lemma sent_value r key : map_ok (headers_ r) → websocket_ r = false → ¬ key_eq key (bs "connection") →
  ¬ key_eq key (bs "content-length") → last_value (sent_headers r) key None = map_find (headers_ r) key.
Proof.
  intros Hm Hw Hc Hl. unfold sent_headers. rewrite Hw, !last_value_app, last_value_kept, (last_value_map (headers_ r)) by done.
  assert (last_value (own_connection false (close_ r)) key None = None) as ->.
  { unfold last_value, own_connection. cbn. rewrite decide_False; [done|]. intros He. by apply Hc. }
  unfold length_header. case_bool_decide; [by destruct (map_find _ _)|]. unfold last_value. cbn [foldl fst snd].
  rewrite decide_False; [by destruct (map_find _ _)|]. intros He. by apply Hl.
Qed.

Lemma sent_connection r : map_ok (headers_ r) → websocket_ r = false →
  last_value (sent_headers r) (bs "connection") None = Some (if close_ r then bs "close" else bs "keep-alive").
Proof.
  intros Hm Hw. unfold sent_headers. rewrite Hw, !last_value_app.
  assert (∀ m o, last_value (kept_headers false m) (bs "connection") o = o) as Hk.
  { intros m o. pose proof (kept_keys m) as H. unfold last_value. revert o. induction H as [|p l Hp _ IH]; intros o; [done|].
    cbn [foldl]. rewrite decide_False by done. apply IH. }
  rewrite Hk. unfold length_header. case_bool_decide; by destruct (close_ r).
Qed.

Lemma sent_length r : map_ok (headers_ r) → websocket_ r = false → map_find (headers_ r) (bs "content-length") = None →
  last_value (sent_headers r) (bs "content-length") None =
    if bool_decide (body_ r = []) then None else Some (dec (N.of_nat (length (body_ r)))).
Proof.
  intros Hm Hw Hl. unfold sent_headers. rewrite Hw, !last_value_app, last_value_kept, (last_value_map (headers_ r)), Hl by done.
  unfold length_header. case_bool_decide; [by destruct (close_ r)|]. by destruct (close_ r).
Qed.

(** ** Reading the body *)

Section recv.
Variable to_uint64 : bytes → option Z.

Lemma content_length_sent r st : sendable r → map_ok (headers_ r) → websocket_ r = false →
  map_find (headers_ r) (bs "content-length") = None →
  to_uint64 (dec (N.of_nat (length (body_ r)))) = Some (Z.of_nat (length (body_ r))) →
  GetContentLength to_uint64 (mkParser st (received r (new_HttpRequest 0x11 true)) 0) = Z.of_nat (length (body_ r)).
Proof.
  intros Hr Hm Hw Hl Hcast. unfold GetContentLength, GetAs. cbn [data_].
  destruct (received_fields r) as (_ & _ & _ & _ & _ & _ & Hh). rewrite Hh, sent_length by done.
  case_bool_decide as Hb; [by rewrite Hb|]. by rewrite Hcast.
Qed.

Lemma recv_body_sent fuel p buffer s r : pieces s → (length (stream s) < fuel)%nat →
  GetContentLength to_uint64 p = Z.of_nat (length (body_ r)) → Z.of_nat (length (body_ r)) < 2 ^ 31 →
  take (length (body_ r)) (buffer ++ stream s) = body_ r → body_ (data_ p) = [] →
  ∃ s', recv_body to_uint64 fuel p buffer s = Ret (Some (Init (if bool_decide (body_ r = []) then data_ p else SetBody (body_ r) (data_ p)))) s' ∧
    closed s' = closed s.
Proof.
  intros Hp Hf Hc Hlen Htake Hb0. unfold recv_body. rewrite Hc.
  rewrite swrap_small by (unfold in_s; lia). rewrite Nat2Z.id. case_bool_decide as Hb.
  { rewrite Hb. by exists s. }
  assert (0 < Z.of_nat (length (body_ r))) as H0 by (destruct (body_ r); [done|cbn; lia]).
  rewrite (proj2 (Z.ltb_lt _ _) H0).
  assert (length (body_ r) ≤ length (buffer ++ stream s))%nat as Hle.
  { rewrite <- Htake at 1. rewrite length_take. lia. }
  cbn zeta. destruct (Nat.eqb_spec (length (body_ r) - length buffer) 0) as [H00|H00].
  { exists s. split; [|done]. do 3 f_equal. rewrite take_app, H00, app_nil_r in Htake. by rewrite Htake. }
  destruct (ReadFixSize_ok fuel (take (length (body_ r)) buffer) (length (body_ r) - length buffer) s Hp Hf ltac:(lia))
    as [[Hn (s' & Hr & _ & _ & Hcl)]|[Hn _]].
  - rewrite (bind_Ret _ _ _ _ _ Hr). cbn beta iota. rewrite swrap_small by (unfold in_s; lia).
    rewrite (proj2 (Z.leb_gt _ _)) by lia.
    exists s'. split; [|done]. do 3 f_equal. rewrite <- take_app. by rewrite Htake.
  - rewrite length_app in Hle. lia.
Qed.

Lemma received_init r (d := received r (new_HttpRequest 0x11 true)) b : map_ok (headers_ r) → websocket_ r = false →
  let req := Init (if b : bool then d else SetBody (body_ r) d) in
  close_ req = close_ r ∧ method_ req = method_ d ∧ version_ req = version_ d ∧ path_ req = path_ d ∧ query_ req = query_ d ∧
  fragment_ req = fragment_ d ∧ body_ req = (if b then body_ d else body_ r) ∧ headers_ req = headers_ d.
Proof.
  intros Hm Hw. unfold Init. assert (∀ d', headers_ d' = headers_ d → GetHeader d' (bs "connection") [] =
    if close_ r then bs "close" else bs "keep-alive") as Hh.
  { intros d' H. unfold GetHeader. rewrite H. destruct (received_fields r) as (_ & _ & _ & _ & _ & _ & Hh).
    unfold d. by rewrite Hh, sent_connection. }
  cbn zeta. rewrite Hh by (by destruct b). rewrite bool_decide_eq_false_2 by (by destruct (close_ r)).
  destruct b, (close_ r); split_and!; done.
Qed.

(** The request that was received is the one that was sent: everything but the
    headers the connection adds, and what only the sender keeps. *)
Definition same_request (req r : HttpRequest) : Prop :=
  method_ req = method_ r ∧ version_ req = version_ r ∧ path_ req = path_ r ∧ query_ req = query_ r ∧
  fragment_ req = fragment_ r ∧ body_ req = body_ r ∧ close_ req = close_ r ∧
  ∀ key, ¬ key_eq key (bs "connection") → ¬ key_eq key (bs "content-length") →
    map_find (headers_ req) key = map_find (headers_ r) key.

Lemma received_same r : map_ok (headers_ r) → websocket_ r = false →
  let d := received r (new_HttpRequest 0x11 true) in
  same_request (Init (if bool_decide (body_ r = []) then d else SetBody (body_ r) d)) r.
Proof.
  intros Hm Hw d. destruct (received_fields r) as (F1 & F2 & F3 & F4 & F5 & F6 & F7). unfold same_request, d.
  destruct (received_init r (bool_decide (body_ r = [])) Hm Hw) as (-> & -> & -> & -> & -> & -> & -> & ->).
  split_and!; try done.
  - case_bool_decide as Hb0; [by rewrite F6, Hb0|done].
  - intros key Hk1 Hk2. rewrite F7. by apply sent_value.
Qed.

(** Once the head is read, what is left is the body. *)
Lemma RecvRequest_after_head r fuel buff_size s0 b s1 : sendable r → Z.of_nat buff_size < 2 ^ 31 →
  Read buff_size s0 = Ret (Some (head_of r ++ b)) s1 → (length (head_of r ++ b) ≤ buff_size)%nat → ∃ st,
  RecvRequest to_uint64 (S fuel) buff_size s0 =
    recv_body to_uint64 (S fuel) (mkParser st (received r (new_HttpRequest 0x11 true)) 0) b s1.
Proof.
  intros Hr Hbuf Hread Hb. assert (head_of r ≠ []) as Hne by (unfold head_of, request_line; destruct (HttpMethodToString _); done).
  destruct (Execute_head r b Hr ltac:(lia)) as (st & Hx & Hcs). exists st. unfold RecvRequest. cbn [recv_head length].
  rewrite Nat.sub_0_r. unfold mbind at 1, M_bind at 1. rewrite (bind_Ret _ _ _ _ _ Hread), app_nil_l.
  rewrite Hx.
  set (P := mkParser st _ 0). rewrite (bind_Ret _ _ s1 (P, length (head_of r), b) s1) by done. cbn beta iota.
  assert (HasError P = false) as -> by (unfold HasError, P; cbn; unfold http_parser_has_error; by rewrite Hcs).
  assert (IsFinished P = true) as -> by (unfold IsFinished, P; cbn; unfold http_parser_finish, http_parser_has_error, http_parser_is_finished; by rewrite Hcs).
  rewrite (proj2 (Nat.eqb_neq _ _)) by (rewrite length_app in Hb; destruct (head_of r); [done|cbn in Hb; lia]).
  done.
Qed.
End recv.
End head.

(** C21: a request that a client prints arrives at a server as the same request, through
    the scanner generated from the grammar, its callbacks and the loops that read,
    for every request that the grammar has and every way the bytes behind the head
    are cut: method, version, path, query, fragment, body, whether the connection is
    kept, and every header but [connection] and [content-length], by its name in any
    case.  The head must arrive in one piece, and [lexical_cast] read the length of
    the body as it was printed. *)
Theorem request_received (memory : Z) (relaxed : bool) (to_uint64 : bytes → option Z) (r : HttpRequest)
    (fuel buff_size : nat) (behind : bytes) (rest : list bytes) (more : bytes) :
  let _ := request_scanner memory relaxed in
  sendable r → map_ok (headers_ r) → websocket_ r = false → map_find (headers_ r) (bs "content-length") = None →
  to_uint64 (dec (N.of_nat (length (body_ r)))) = Some (Z.of_nat (length (body_ r))) → Z.of_nat (length (body_ r)) < 2 ^ 31 →
  (length (head_of r) ≤ buff_size)%nat → Z.of_nat buff_size < 2 ^ 31 →
  Forall (λ c, c ≠ []) rest → behind ++ concat rest = body_ r ++ more →
  (length (head_of r ++ behind ++ concat rest) < fuel)%nat →
  ∃ req s', RecvRequest to_uint64 fuel buff_size (mkSession ((head_of r ++ behind) :: rest) false) = Ret (Some req) s' ∧
    closed s' = false ∧ method_ req = method_ r ∧ version_ req = version_ r ∧ path_ req = path_ r ∧
    query_ req = query_ r ∧ fragment_ req = fragment_ r ∧ body_ req = body_ r ∧ close_ req = close_ r ∧
    ∀ key, ¬ key_eq key (bs "connection") → ¬ key_eq key (bs "content-length") →
      map_find (headers_ req) key = map_find (headers_ r) key.
Proof.
  intros sc Hr Hm Hw Hl Hcast Hlen Hhd Hbuf Hrest Hbody Hfuel.
  assert (head_of r ≠ []) as Hne by (unfold head_of, request_line; destruct (HttpMethodToString _); done).
  destruct (first_read (head_of r) behind rest buff_size Hne Hhd Hrest) as (b & s1 & Hread & Hb & Hp1 & Hc1 & Hs1).
  destruct fuel as [|fuel]; [lia|].
  destruct (RecvRequest_after_head memory relaxed to_uint64 r fuel buff_size _ b s1 Hr Hbuf Hread Hb) as [st Hst].
  unfold sc. rewrite Hst. set (P := mkParser st _ 0).
  assert (length (stream s1) < S fuel)%nat as Hf1.
  { rewrite !length_app in Hfuel. apply (f_equal length) in Hs1. rewrite !length_app in Hs1. lia. }
  destruct (recv_body_sent memory relaxed to_uint64 (S fuel) P b s1 r Hp1 Hf1) as (s' & Hbody' & Hc'); try done.
  { by apply content_length_sent. }
  { rewrite Hs1, Hbody, take_app_length. done. }
  { by destruct (received_fields r) as (_ & _ & _ & _ & _ & ? & _). }
  do 2 eexists. split; [exact Hbody'|]. split; [congruence|].
  apply (received_same r Hm Hw).
Qed.

Lemma request_received_witness : let _ := request_scanner 0 false in
  ∃ req s', RecvRequest digits 300 200 (mkSession [head_of post ++ bs "x="; bs "1HTT"] false) = Ret (Some req) s' ∧
    method_ req = POST ∧ path_ req = bs "/p" ∧ query_ req = bs "a=1" ∧ body_ req = bs "x=1" ∧
    map_find (headers_ req) (bs "HOST") = Some (bs "h").
Proof.
  destruct (request_received 0 false digits post 300 200 (bs "x=") [bs "1HTT"] (bs "HTT"))
    as (req & s' & Hr & _ & Hm & _ & Hp & Hq & _ & Hb & _ & Hh);
    [split; [done|by left|by vm_compute..|repeat constructor]|repeat constructor; by vm_compute|done..|
     vm_compute; lia|lia|repeat constructor; done|done|vm_compute; lia|].
  exists req, s'. split_and!; [exact Hr|exact Hm|exact Hp|exact Hq|exact Hb|].
  rewrite Hh; [by vm_compute|intros H; by vm_compute in H..].
Defined.
