(* ===== verification/ClientParser.v ===== *)
(** * The scanner of responses: [http/parser/httpclient_parser.rl.cc], [http/http_parser.cc]

    [httpclient_parser_init], [httpclient_parser_execute] and
    [httpclient_parser_finish] around the automaton of [ClientScanner.v], and the
    [HttpResponseParser] that its callbacks fill. *)
From stdpp Require Import list.
From S2P Require Import Prelude CLib Ragel ClientScanner HttpTypes Http HttpSession.
Local Open Scope Z_scope.

(** ** The parser *)

Record httpclient_parser := mkClientParser {
  cs : Z;
  body_start : Z;
  content_len : Z;
  status : Z;
  chunked : bool;
  chunks_done : bool;
  close : bool;
  nread : Z;
  mark_ : Z;
  field_start_ : Z;
  field_len : Z
}.

Definition httpclient_parser_start : Z := 1.
Definition httpclient_parser_first_final : Z := 120.
Definition httpclient_parser_error : Z := 0.

(** [status] keeps what the memory held. *)
Definition httpclient_parser_init (status : Z) : httpclient_parser :=
  mkClientParser httpclient_parser_start 0 (-1) status false false false 0 0 0 0.

Definition set_cs v st := mkClientParser v (body_start st) (content_len st) (status st) (chunked st) (chunks_done st)
  (close st) (nread st) (mark_ st) (field_start_ st) (field_len st).
Definition set_body_start v st := mkClientParser (cs st) v (content_len st) (status st) (chunked st) (chunks_done st)
  (close st) (nread st) (mark_ st) (field_start_ st) (field_len st).
Definition set_content_len v st := mkClientParser (cs st) (body_start st) v (status st) (chunked st) (chunks_done st)
  (close st) (nread st) (mark_ st) (field_start_ st) (field_len st).
Definition set_status v st := mkClientParser (cs st) (body_start st) (content_len st) v (chunked st) (chunks_done st)
  (close st) (nread st) (mark_ st) (field_start_ st) (field_len st).
Definition set_chunked v st := mkClientParser (cs st) (body_start st) (content_len st) (status st) v (chunks_done st)
  (close st) (nread st) (mark_ st) (field_start_ st) (field_len st).
Definition set_chunks_done v st := mkClientParser (cs st) (body_start st) (content_len st) (status st) (chunked st) v
  (close st) (nread st) (mark_ st) (field_start_ st) (field_len st).
Definition set_close v st := mkClientParser (cs st) (body_start st) (content_len st) (status st) (chunked st) (chunks_done st)
  v (nread st) (mark_ st) (field_start_ st) (field_len st).
Definition set_nread v st := mkClientParser (cs st) (body_start st) (content_len st) (status st) (chunked st) (chunks_done st)
  (close st) v (mark_ st) (field_start_ st) (field_len st).
Definition set_mark v st := mkClientParser (cs st) (body_start st) (content_len st) (status st) (chunked st) (chunks_done st)
  (close st) (nread st) v (field_start_ st) (field_len st).
Definition set_field_start v st := mkClientParser (cs st) (body_start st) (content_len st) (status st) (chunked st) (chunks_done st)
  (close st) (nread st) (mark_ st) v (field_len st).
Definition set_field_len v st := mkClientParser (cs st) (body_start st) (content_len st) (status st) (chunked st) (chunks_done st)
  (close st) (nread st) (mark_ st) (field_start_ st) v.

(** ** Actions *)

(** A call of one of the functions: where its token starts, and its length. *)
Inductive token :=
  | TReason (off len : Z)
  | TStatus (off len : Z)
  | TChunk (off len : Z)
  | TLastChunk (off len : Z)
  | TVersion (off len : Z)
  | THeaderDone
  | TField (foff flen voff vlen : Z).

Definition store : Type := httpclient_parser * list token.

(** [LEN(AT, FPC)] and a call. *)
Definition LEN (at_ p : Z) : Z := u64 (p - at_).
Definition emit (t : token) (s : store) : store := (s.1, s.2 ++ [t]).
Definition on_parser (f : httpclient_parser → httpclient_parser) (s : store) : store := (f s.1, s.2).

(** [data] is the buffer the offsets point into. *)
Definition act (data : bytes) (a : action) (p : Z) (s : store) : store :=
  let st := s.1 in
  let at_mark := drop (Z.to_nat (mark_ st)) data in
  match a with
  | start_field => on_parser (set_field_start p) s
  | write_field => on_parser (set_field_len (LEN (field_start_ st) p)) s
  | start_value => on_parser (set_mark p) s
  | write_content_len => on_parser (set_content_len (s32 (strtol 10 at_mark))) s
  | write_connection_close => on_parser (set_close true) s
  | write_value => emit (TField (field_start_ st) (field_len st) (mark_ st) (LEN (mark_ st) p)) s
  | reason_phrase => emit (TReason (mark_ st) (LEN (mark_ st) p)) s
  | status_code => emit (TStatus (mark_ st) (LEN (mark_ st) p)) (on_parser (set_status (s32 (strtol 10 at_mark))) s)
  | http_version => emit (TVersion (mark_ st) (LEN (mark_ st) p)) s
  | chunk_size =>
    let n := s32 (strtol 16 at_mark) in
    let s := on_parser (set_chunks_done (n <=? 0) ∘ set_content_len n ∘ set_chunked true) s in
    if n <=? 0 then emit (TLastChunk (mark_ st) (LEN (mark_ st) p)) s
    else emit (TChunk (mark_ st) (LEN (mark_ st) p)) s
  | trans_chunked => on_parser (set_chunked true) s
  | done => emit THeaderDone (on_parser (set_body_start (p + 1)) s)
  end.

Definition breaks (a : action) : bool := bool_decide (a = done).

(** ** Execution *)

Definition client_exec (st : httpclient_parser) (data : bytes) : Z * Z * store * bool :=
  match row_of client_table (cs st) with
  | None => (2, 0, (st, []), false)
  | Some _ => exec client_table id (act data) breaks (cs st) 0 data (st, [])
  end.

Definition httpclient_parser_has_error (st : httpclient_parser) : bool := cs st =? httpclient_parser_error.
(** Only the first of the final states counts. *)
Definition httpclient_parser_is_finished (st : httpclient_parser) : bool := cs st =? httpclient_parser_first_final.
Definition httpclient_parser_finish (st : httpclient_parser) : Z :=
  if httpclient_parser_has_error st then -1 else if httpclient_parser_is_finished st then 1 else 0.

(** ** [HttpResponseParser] *)

Record HttpResponseParser := mkResponseParser { cparser_ : httpclient_parser; cdata_ : HttpResponse; cerror_ : Z }.
Definition new_HttpResponseParser (status : Z) : HttpResponseParser :=
  mkResponseParser (httpclient_parser_init status) (new_HttpResponse 0x11 true) 0.

Definition set_cparser v p := mkResponseParser v (cdata_ p) (cerror_ p).
Definition set_cdata v p := mkResponseParser (cparser_ p) v (cerror_ p).
Definition set_cerror v p := mkResponseParser (cparser_ p) (cdata_ p) v.

Definition rsp_SetStatus v r := mkResponse v (rsp_version_ r) (rsp_close_ r) (rsp_websocket_ r) (rsp_body_ r)
  (reason_ r) (rsp_headers_ r) (rsp_cookies_ r).
Definition rsp_SetVersion v r := mkResponse (status_ r) v (rsp_close_ r) (rsp_websocket_ r) (rsp_body_ r)
  (reason_ r) (rsp_headers_ r) (rsp_cookies_ r).
Definition SetReason v r := mkResponse (status_ r) (rsp_version_ r) (rsp_close_ r) (rsp_websocket_ r) (rsp_body_ r)
  v (rsp_headers_ r) (rsp_cookies_ r).

Definition on_response (f : HttpResponse → HttpResponse) : M HttpResponseParser unit :=
  modify (λ p, set_cdata (f (cdata_ p)) p).

(** [std::string(at, length)]; it throws for more than [max_size], and beyond the data
    the buffer holds nothing that was received. *)
Definition max_size : Z := 2 ^ 63 - 1.
Definition string_at (data : bytes) (off len : Z) : M HttpResponseParser bytes :=
  if max_size <? len then throw length_error
  else if off + len <=? Z.of_nat (length data) then mret (take (Z.to_nat len) (drop (Z.to_nat off) data))
  else undef out_of_bounds.

Definition OnResponseReason (data : bytes) (off len : Z) : M HttpResponseParser unit :=
  s ← string_at data off len; on_response (SetReason s).

Definition OnResponseStatus (data : bytes) (off : Z) : M HttpResponseParser unit :=
  on_response (rsp_SetStatus (atoi (drop (Z.to_nat off) data))).

Definition OnResponseVersion (data : bytes) (off len : Z) : M HttpResponseParser unit :=
  let at_ := drop (Z.to_nat off) data in
  if strncmp_eq at_ (bs "HTTP/1.1") (Z.to_nat len) then on_response (rsp_SetVersion 0x11)
  else if strncmp_eq at_ (bs "HTTP/1.0") (Z.to_nat len) then on_response (rsp_SetVersion 0x10)
  else string_at data off len ;; modify (set_cerror 1001).

Definition OnResponseHttpField (data : bytes) (foff flen voff vlen : Z) : M HttpResponseParser unit :=
  if flen =? 0 then mret tt
  else k ← string_at data foff flen; v ← string_at data voff vlen; on_response (rsp_SetHeader k v).

Definition run_token (data : bytes) (t : token) : M HttpResponseParser unit :=
  match t with
  | TReason off len => OnResponseReason data off len
  | TStatus off _ => OnResponseStatus data off
  | TChunk _ _ | TLastChunk _ _ | THeaderDone => mret tt
  | TVersion off len => OnResponseVersion data off len
  | TField foff flen voff vlen => OnResponseHttpField data foff flen voff vlen
  end.
Definition run_tokens (data : bytes) (ts : list token) : M HttpResponseParser unit :=
  foldr (λ t k, run_token data t ;; k) (mret tt) ts.

Definition on_cparser (f : httpclient_parser → httpclient_parser) : M HttpResponseParser unit :=
  modify (λ p, set_cparser (f (cparser_ p)) p).

(** From offset 0, as [Execute] calls it, with a NUL behind the data. *)
Definition httpclient_parser_execute (data : bytes) : M HttpResponseParser Z :=
  let len := Z.of_nat (length data) in
  on_cparser (λ st, set_nread 0 (set_mark 0 (set_field_len 0 (set_field_start 0 st)))) ;;
  massert (len =? s32 len) ;;
  p ← get;
  let '(cs', off, (st, ts), _) := client_exec (cparser_ p) data in
  run_tokens data ts ;;
  on_cparser (λ _, set_nread (nread st + off) (set_cs cs' st)) ;;
  massert (nread st + off <=? len) ;;
  massert (body_start st <=? len) ;;
  mret (if negb (mark_ st <? len) || negb (field_len st <=? len) || negb (field_start_ st <? len)
        then -1 else s32 (nread st + off)).

(** How much was consumed, and what is left, moved to the front of the buffer.  The
    result -1 becomes a [size_t]: the move would begin in front of the buffer. *)
Definition Execute (data : bytes) (chunck : bool) : M HttpResponseParser (nat * bytes) :=
  (if chunck then on_cparser (λ st, httpclient_parser_init (status st)) else mret tt) ;;
  offset ← httpclient_parser_execute data;
  if offset <? 0 then undef out_of_bounds
  else mret (Z.to_nat offset, drop (Z.to_nat offset) data).

Definition IsFinished (p : HttpResponseParser) : bool := negb (httpclient_parser_finish (cparser_ p) =? 0).
Definition HasError (p : HttpResponseParser) : bool :=
  negb (cerror_ p =? 0) || httpclient_parser_has_error (cparser_ p).

(** ** Offsets stay inside the buffer *)

Definition client_edge_ok (e : Z * target action) : bool :=
  if existsb breaks (on_way e.2) then httpclient_parser_first_final <=? into e.2
  else (0 <? into e.2) && (into e.2 <? httpclient_parser_first_final).

Lemma client_edges_ok e : e ∈ edges client_table → client_edge_ok e = true.
Proof.
  intros He. assert (forallb client_edge_ok (edges client_table) = true) as H by (vm_compute; reflexivity).
  rewrite forallb_forall in H. by apply H, list_elem_of_In.
Qed.

(** A token in a buffer of [n] bytes; the name of a field begins in it. *)
Definition token_ok (n : Z) (t : token) : Prop :=
  match t with
  | TReason off len | TStatus off len | TChunk off len | TLastChunk off len | TVersion off len => inside n off len
  | THeaderDone => True
  | TField foff flen voff vlen => 0 ≤ foff < n ∧ 0 ≤ flen ≤ n ∧ inside n voff vlen
  end.

Record offsets_ok (n p : Z) (s : store) : Prop := {
  mark_in : 0 ≤ mark_ s.1 ≤ p ∧ mark_ s.1 < n;
  field_start_in : 0 ≤ field_start_ s.1 ≤ p ∧ field_start_ s.1 < n;
  field_len_in : 0 ≤ field_len s.1 ≤ n;
  tokens_in : Forall (token_ok n) s.2
}.

Lemma client_offsets_emit n p s t : offsets_ok n p s → token_ok n t → offsets_ok n p (emit t s).
Proof. intros [] Ht. split; cbn; try done. apply Forall_app; by split; [|constructor]. Qed.

Lemma client_act_offsets data n p a s : n < 2 ^ 31 → 0 ≤ p < n → offsets_ok n p s → offsets_ok n p (act data a p s).
Proof.
  intros Hn Hp Ho. pose proof Ho as [Hm Hf Hl Ht].
  destruct (distance_inside (mark_ s.1) p n ltac:(lia) ltac:(lia)) as [_ Hmark].
  destruct a; cbn; try (apply client_offsets_emit; [|by cbn]); try exact Ho; try (split; cbn; done || lia).
  - destruct (distance_inside (field_start_ s.1) p n ltac:(lia) ltac:(lia)) as [_ (? & ? & ?)].
    split; cbn; try done. unfold LEN. lia.
  - apply client_offsets_emit; [exact Ho|]. cbn. split; [lia|]. split; [done|exact Hmark].
  - case_match; (apply client_offsets_emit; [|exact Hmark]); split; cbn; done.
Qed.

Lemma client_act_frame data a p s : cs (act data a p s).1 = cs s.1 ∧ nread (act data a p s).1 = nread s.1 ∧
  (breaks a = false → body_start (act data a p s).1 = body_start s.1) ∧
  (breaks a = true → body_start (act data a p s).1 = p + 1).
Proof. destruct a; cbn; try done. by case_match. Qed.

Lemma actions_ok data n l p : n < 2 ^ 31 → 0 ≤ p < n → ∀ s, offsets_ok n p s → let s' := run_actions (act data) l p s in
  offsets_ok n p s' ∧ cs s'.1 = cs s.1 ∧ nread s'.1 = nread s.1 ∧
  (body_start s'.1 = body_start s.1 ∨ body_start s'.1 = p + 1) ∧
  (existsb breaks l = false → body_start s'.1 = body_start s.1).
Proof.
  intros Hn Hp. induction l as [|a l IH]; intros s Ho; [split_and!; by try left|].
  destruct (IH (act data a p s) (client_act_offsets _ _ _ _ _ Hn Hp Ho)) as (H1 & H2 & H3 & H4 & H5). cbn zeta in *.
  change (run_actions (act data) (a :: l) p s) with (run_actions (act data) l p (act data a p s)).
  destruct (client_act_frame data a p s) as (G1 & G2 & G3 & G4). split_and!; try congruence.
  - destruct (breaks a); [specialize (G4 eq_refl)|specialize (G3 eq_refl)]; destruct H4 as [H4|H4]; rewrite H4; tauto.
  - intros [Ha Hl]%orb_false_iff. rewrite H5, G3; done.
Qed.

(** Along a run over [n] bytes that began with [st], and where it is left. *)
Definition running (st : httpclient_parser) (n c p : Z) (s : store) : Prop :=
  offsets_ok n p s ∧ 0 < c ∧ cs s.1 = cs st ∧ nread s.1 = nread st ∧ body_start s.1 = body_start st ∧
  (cs st < httpclient_parser_first_final → c < httpclient_parser_first_final).
Definition stopped (st : httpclient_parser) (n c p : Z) (s : store) : Prop :=
  offsets_ok n p s ∧ (c = 0 ∧ body_start s.1 = body_start st ∨ httpclient_parser_first_final ≤ c) ∧
  cs s.1 = cs st ∧ nread s.1 = nread st ∧ (body_start s.1 = body_start st ∨ 0 ≤ body_start s.1 ≤ n).

Lemma client_offsets_next n p s : offsets_ok n p s → offsets_ok n (p + 1) s.
Proof. intros []. split; try done; lia. Qed.

Lemma client_run_step data st n c t p s : n < 2 ^ 31 → (c, t) ∈ edges client_table → 0 ≤ p < n → running st n c p s →
  (if existsb breaks (on_way t) then stopped st n else running st n) (into t) (p + 1) (run_actions (act data) (on_way t) p s).
Proof.
  intros Hn He Hp (Ho & Hc & Hcs & Hnr & Hb & Hf). pose proof (client_edges_ok _ He) as Hok. unfold client_edge_ok in Hok.
  cbn [fst snd] in Hok. destruct (actions_ok data n (on_way t) p Hn Hp s Ho) as (H1 & H2 & H3 & H4 & H5). cbn zeta in *.
  apply client_offsets_next in H1. destruct (existsb breaks (on_way t)); split_and!; try congruence; try lia; done.
Qed.

Lemma client_exec_ok st data (n := Z.of_nat (length data)) : n < 2 ^ 31 → 0 < n →
  mark_ st = 0 → field_start_ st = 0 → field_len st = 0 → 0 < cs st →
  let '(cs', p, s', out) := client_exec st data in
  0 ≤ p ≤ n ∧ (if out : bool then stopped st n cs' p s' else running st n cs' p s').
Proof.
  intros Hn Hn0 Hm Hfs Hfl Hc. unfold client_exec.
  assert (running st n (cs st) 0 (st, [])) as H0.
  { split_and!; try done; try lia. split; cbn; rewrite ?Hm, ?Hfs, ?Hfl; try lia; done. }
  destruct (row_of client_table (cs st)); [|destruct H0 as (? & ? & ? & ? & ? & ?); split_and!; try done; lia].
  pose proof (exec_inv client_table id (act data) breaks (running st n) (stopped st n) n
    (λ c t p s, client_run_step data st n c t p s Hn)) as H.
  specialize (H ltac:(intros ? ? ? (Ho & ? & ? & ? & ? & ?); split_and!; try done; by left) data (cs st) 0 (st, []) eq_refl ltac:(lia) H0).
  destruct (exec _ _ _ _ _ _ _ _) as [[[cs' p] s'] out]. destruct H as [Hp H]. split; [lia|by destruct out].
Qed.

(** The tokens are used; the name of a field may leave the buffer. *)
Lemma run_token_ok data n t p : n = Z.of_nat (length data) → n < 2 ^ 31 → token_ok n t →
  (∃ p', run_token data t p = Ret tt p' ∧ cparser_ p' = cparser_ p) ∨
  (run_token data t p = Undef out_of_bounds ∧ ∃ foff flen voff vlen, t = TField foff flen voff vlen ∧ n < foff + flen).
Proof.
  intros -> Hn Ht.
  assert (∀ off len, inside (Z.of_nat (length data)) off len →
    string_at data off len p = Ret (take (Z.to_nat len) (drop (Z.to_nat off) data)) p) as Hs.
  { intros off len (? & ? & ?). unfold string_at, max_size. rewrite (proj2 (Z.ltb_ge _ _)) by lia.
    by rewrite (proj2 (Z.leb_le _ _)) by lia. }
  destruct t; cbn in Ht |- *; try (left; eexists; split; reflexivity).
  - left. unfold OnResponseReason. rewrite (bind_Ret _ _ _ _ _ (Hs _ _ Ht)). by eexists.
  - left. unfold OnResponseVersion. repeat case_match; try (eexists; split; reflexivity).
    rewrite (bind_Ret _ _ _ _ _ (Hs _ _ Ht)). by eexists.
  - destruct Ht as (Hf & Hl & Hv). unfold OnResponseHttpField. case_match; [left; by eexists|].
    destruct (Z.leb_spec (foff + flen) (Z.of_nat (length data))) as [Hle|Hgt].
    + left. rewrite (bind_Ret _ _ _ _ _ (Hs foff flen ltac:(unfold inside; lia))).
      rewrite (bind_Ret _ _ _ _ _ (Hs _ _ Hv)). by eexists.
    + right. split; [|by do 4 eexists]. unfold string_at, max_size, mbind, M_bind.
      rewrite (proj2 (Z.ltb_ge _ _)) by lia. by rewrite (proj2 (Z.leb_gt _ _)) by lia.
Qed.

Lemma run_tokens_ok data n ts : n = Z.of_nat (length data) → n < 2 ^ 31 → Forall (token_ok n) ts → ∀ p,
  (∃ p', run_tokens data ts p = Ret tt p' ∧ cparser_ p' = cparser_ p) ∨
  (run_tokens data ts p = Undef out_of_bounds ∧ ∃ foff flen voff vlen, TField foff flen voff vlen ∈ ts ∧ n < foff + flen).
Proof.
  intros Hn Hn1. induction 1 as [|t ts Ht _ IH]; intros p; [left; by eexists|]. cbn [run_tokens foldr].
  destruct (run_token_ok data n t p Hn Hn1 Ht) as [(p1 & Hr & Hc)|(Hr & f & l & v & w & -> & Hlt)].
  - rewrite (bind_Ret _ _ _ _ _ Hr). destruct (IH p1) as [(p2 & Hr2 & Hc2)|(Hr2 & f & l & v & w & Hin & Hlt)]; [left|right].
    + exists p2. split; [done|congruence].
    + split; [done|]. do 4 eexists. split; [by right|exact Hlt].
  - right. split; [|do 4 eexists; split; [by left|exact Hlt]]. unfold mbind, M_bind. by rewrite Hr.
Qed.

(** A parser that can go on with another buffer. *)
Definition fresh (st : httpclient_parser) : Prop := 0 < cs st < httpclient_parser_first_final ∧ body_start st = 0.

Definition reset (st : httpclient_parser) : httpclient_parser :=
  set_nread 0 (set_mark 0 (set_field_len 0 (set_field_start 0 st))).

Lemma httpclient_parser_execute_ok data p : fresh (cparser_ p) → 0 < Z.of_nat (length data) < 2 ^ 31 →
  let st := reset (cparser_ p) in
  let '(cs', off, (st', ts), _) := client_exec st data in
  (∃ p', run_tokens data ts (set_cparser st p) = Ret tt p' ∧
     httpclient_parser_execute data p = Ret off (set_cparser (set_nread off (set_cs cs' st')) p')) ∨
  (httpclient_parser_execute data p = Undef out_of_bounds ∧ run_tokens data ts (set_cparser st p) = Undef out_of_bounds ∧
   ∃ foff flen voff vlen, TField foff flen voff vlen ∈ ts ∧ Z.of_nat (length data) < foff + flen).
Proof.
  intros [Hc Hb] Hn st. set (n := Z.of_nat (length data)) in *.
  pose proof (client_exec_ok st data (proj2 Hn) (proj1 Hn) eq_refl eq_refl eq_refl (proj1 Hc)) as Hx.
  unfold httpclient_parser_execute. fold n.
  rewrite (bind_Ret _ _ _ tt (set_cparser st p)) by done.
  rewrite massert_true by (rewrite swrap_small by (unfold in_s; lia); apply Z.eqb_refl).
  rewrite (bind_Ret _ _ _ (set_cparser st p) (set_cparser st p)) by done. cbn [cparser_ set_cparser].
  destruct (client_exec st data) as [[[cs' off] [st' ts]] out]. destruct Hx as [Hoff Hx]. fold n in Hoff, Hx.
  assert (offsets_ok n off (st', ts) ∧ nread st' = 0 ∧ 0 ≤ body_start st' ≤ n) as (Ho & Hnr & Hbs).
  { destruct out.
    - destruct Hx as (? & _ & _ & Hnr & [Hbs|Hbs]); split_and!; try done; cbn in *; lia.
    - destruct Hx as (? & _ & _ & Hnr & Hbs & _). split_and!; try done; cbn in *; lia. }
  destruct Ho as [Hm Hf Hl Ht]. cbn [fst snd] in *.
  destruct (run_tokens_ok data n ts eq_refl (proj2 Hn) Ht (set_cparser st p)) as [(p' & Hr & Hcp)|(Hr & Hex)].
  2: { right. split; [|split; [exact Hr|exact Hex]]. unfold mbind, M_bind. by rewrite Hr. }
  left. exists p'. split; [done|]. rewrite (bind_Ret _ _ _ _ _ Hr).
  rewrite (bind_Ret _ _ _ tt (set_cparser (set_nread off (set_cs cs' st')) p')) by (unfold on_cparser, modify; by rewrite Hnr).
  rewrite Hnr, Z.add_0_l. rewrite !massert_true by lia.
  rewrite (proj2 (Z.ltb_lt _ _)), (proj2 (Z.leb_le _ _)), (proj2 (Z.ltb_lt (field_start_ st') n)) by lia. cbn [negb orb].
  by rewrite swrap_small by (unfold in_s; lia).
Qed.

Lemma client_exec_states st data : fresh st → mark_ st = 0 → field_start_ st = 0 → field_len st = 0 →
  0 < Z.of_nat (length data) < 2 ^ 31 →
  let '(cs', off, (st', _), _) := client_exec st data in
  0 ≤ off ≤ Z.of_nat (length data) ∧ (cs' = 0 ∨ httpclient_parser_first_final ≤ cs' ∨ fresh (set_cs cs' st')) ∧
  (cs' = httpclient_parser_first_final → 0 < off).
Proof.
  intros [Hc Hb] Hm Hf Hl Hn. pose proof (client_exec_ok st data (proj2 Hn) (proj1 Hn) Hm Hf Hl (proj1 Hc)) as Hx.
  assert (let '(cs', off, _, _) := client_exec st data in off = 0 → cs' = 120 → False) as Hz.
  { unfold client_exec. destruct (row_of _ _); [|done].
    pose proof (exec_still client_table id (act data) breaks data (cs st) 0 (st, [])) as He.
    destruct (exec _ _ _ _ _ _ _ _) as [[[? ?] ?] ?]. destruct He as [_ He]. intros H0 H1. unfold httpclient_parser_first_final in *.
    destruct (He H0); lia. }
  destruct (client_exec st data) as [[[cs' off] [st' ts]] out]. destruct Hx as [Hoff Hx]. split; [done|].
  split; [|intros ->; destruct (decide (off = 0)) as [->|]; [|lia]; by destruct Hz].
  destruct out; destruct Hx as (_ & Hx); [tauto|]. right. right. destruct Hx as (? & _ & _ & Hbs & Hlt).
  split; cbn in *; [split; [done|apply Hlt, Hc]|congruence].
Qed.

(** What [Execute] does with a parser that can go on, or with a new chunk. *)
Lemma client_Execute_ok data chunck p : chunck = true ∨ fresh (cparser_ p) → 0 < Z.of_nat (length data) < 2 ^ 31 →
  (∃ n p', Execute data chunck p = Ret (n, drop n data) p' ∧ (n ≤ length data)%nat ∧
     (HasError p' = false → IsFinished p' = false → cs (cparser_ p') < httpclient_parser_first_final → fresh (cparser_ p')) ∧
     (HasError p' = false → IsFinished p' = true → (0 < n)%nat)) ∨
  Execute data chunck p = Undef out_of_bounds.
Proof.
  intros Hf Hn. unfold Execute.
  set (p0 := if chunck then set_cparser (httpclient_parser_init (status (cparser_ p))) p else p).
  rewrite (bind_Ret _ _ _ tt p0) by (unfold p0; by destruct chunck).
  assert (fresh (cparser_ p0)) as Hf0 by (unfold p0; destruct chunck; [done|by destruct Hf]).
  pose proof (httpclient_parser_execute_ok data p0 Hf0 Hn) as Hx. cbn zeta in Hx.
  pose proof (client_exec_states (reset (cparser_ p0)) data Hf0 eq_refl eq_refl eq_refl Hn) as Hs.
  destruct (client_exec _ _) as [[[cs' off] [st' ts]] out]. destruct Hs as (Hoff & Hs & Hpos).
  destruct Hx as [(p' & _ & Hr)|(Hr & _)]; [left|right; unfold mbind at 1, M_bind; by rewrite Hr].
  rewrite (bind_Ret _ _ _ _ _ Hr). rewrite (proj2 (Z.ltb_ge _ _)) by lia.
  do 2 eexists. split; [reflexivity|]. split; [lia|].
  unfold HasError, IsFinished, httpclient_parser_finish, httpclient_parser_has_error, httpclient_parser_is_finished. cbn.
  split; intros [_ He]%orb_false_iff; rewrite He.
  - intros _ Hlt. destruct Hs as [->|[?|[? ?]]]; [done|lia|done].
  - destruct (Z.eqb_spec cs' httpclient_parser_first_final) as [Hc|]; [|done]. specialize (Hpos Hc). lia.
Qed.

(** A response is scanned safely, in the first buffer as in every chunk: no
    assertion fails, the result is never the -1 that the caller would take for a
    length, and every token lies in the buffer, but for one: the name of a field,
    when the buffer ends before it does.  (Both happen in later buffers, and both in
    [empty_header_breaks_client].) *)
Theorem client_scan_safe data chunck p : chunck = true ∨ fresh (cparser_ p) → 0 < Z.of_nat (length data) < 2 ^ 31 →
  (∃ n p', Execute data chunck p = Ret (n, drop n data) p' ∧ (n ≤ length data)%nat) ∨
  (Execute data chunck p = Undef out_of_bounds ∧
   let st := reset (if chunck then httpclient_parser_init (status (cparser_ p)) else cparser_ p) in
   ∃ foff flen voff vlen, TField foff flen voff vlen ∈ (client_exec st data).1.2.2 ∧ Z.of_nat (length data) < foff + flen).
Proof.
  intros Hf Hn. destruct (client_Execute_ok data chunck p Hf Hn) as [(n & p' & Hr & Hle & _ & _)|Hu]; [left; eauto|right]. split; [done|].
  set (p0 := if chunck then set_cparser (httpclient_parser_init (status (cparser_ p))) p else p).
  assert (fresh (cparser_ p0)) as Hf0 by (unfold p0; destruct chunck; [done|by destruct Hf]).
  pose proof (httpclient_parser_execute_ok data p0 Hf0 Hn) as Hx. cbn zeta in *.
  replace (if chunck then _ else _) with (cparser_ p0) by (unfold p0; by destruct chunck).
  pose proof (client_exec_states (reset (cparser_ p0)) data Hf0 eq_refl eq_refl eq_refl Hn) as Hs.
  destruct (client_exec _ _) as [[[cs' off] [st' ts]] out]. destruct Hx as [(p' & _ & Hr)|(_ & _ & Hr)]; [exfalso|exact Hr].
  unfold Execute in Hu. rewrite (bind_Ret _ _ _ tt p0) in Hu by (unfold p0; by destruct chunck).
  rewrite (bind_Ret _ _ _ _ _ Hr) in Hu. by rewrite (proj2 (Z.ltb_ge _ _)) in Hu by lia.
Qed.

Lemma client_scan_safe_witness : ∃ n p', Execute (bs "HTTP/1.1 x") false (new_HttpResponseParser 3) = Ret (n, drop n (bs "HTTP/1.1 x")) p' ∧
  (n ≤ 10)%nat.
Proof.
  destruct (client_scan_safe (bs "HTTP/1.1 x") false (new_HttpResponseParser 3)) as [H|[H _]];
    [right; by split|vm_compute; by split|exact H|vm_compute in H; discriminate H].
Defined.
