(* ===== verification/HttpClient.v ===== *)
(** * Receiving responses: [http/http_connection.cc]

    [HttpConnection::RecvResponse] over the connection of [HttpSession.v]: the head,
    bodies with a length, and chunked bodies. *)
From stdpp Require Import list.
From S2P Require Import Prelude CLib Ragel ClientScanner Strings HttpTypes Http HttpSession ClientParser.

(** ** The code *)

(** Code that works on the parser alone. *)
Definition parse {A} (m : M HttpResponseParser A) (p : HttpResponseParser) : M Session (A * HttpResponseParser) := λ s,
  match m p with
  | Ret a p' => Ret (a, p') s
  | Throw e _ => Throw e s
  | Undef u => Undef u
  | NoFuel => NoFuel
  end.

Definition fail {A} : M Session (option A) := Close ;; mret None.

(** The first loop: [buffer] holds the bytes that are not consumed. *)
Fixpoint recv_response_head (fuel : nat) (buff_size : nat) (p : HttpResponseParser) (buffer : bytes)
    : M Session (option (HttpResponseParser * bytes)) :=
  match fuel with
  | 0 => λ _, NoFuel
  | S fuel =>
    r ← Read (buff_size - length buffer);
    match r with
    | None => fail
    | Some d =>
      '(_, buffer, p) ← parse (Execute (buffer ++ d) false) p;
      if HasError p then fail
      else if length buffer =? buff_size then fail
      else if IsFinished p then mret (Some (p, buffer))
      else recv_response_head fuel buff_size p buffer
    end
  end.

(** The inner loop of the chunks: the line in front of a chunk.  Every round starts
    the parser anew. *)
Fixpoint recv_chunk_head (fuel : nat) (buff_size : nat) (begin : bool) (p : HttpResponseParser) (buffer : bytes)
    : M Session (option (HttpResponseParser * bytes)) :=
  match fuel with
  | 0 => λ _, NoFuel
  | S fuel =>
    r ← (if negb begin || (length buffer =? 0)
         then r ← Read (buff_size - length buffer); mret (app buffer <$> r)
         else mret (Some buffer));
    match r with
    | None => fail
    | Some buffer =>
      '(_, buffer, p) ← parse (Execute buffer true) p;
      if HasError p then fail
      else if length buffer =? buff_size then fail
      else if IsFinished p then mret (Some (p, buffer))
      else recv_chunk_head fuel buff_size false p buffer
    end
  end.

(** What is missing of a chunk is appended to the body. *)
Fixpoint recv_left (fuel : nat) (buff_size : nat) (body : bytes) (left : Z) : M Session (option bytes) :=
  match fuel with
  | 0 => λ _, NoFuel
  | S fuel =>
    if (0 <? left)%Z then
      r ← Read (Z.to_nat (if (Z.of_nat buff_size <? left)%Z then Z.of_nat buff_size else left));
      match r with
      | None => fail
      | Some d => recv_left fuel buff_size (body ++ d) (left - Z.of_nat (length d))
      end
    else mret (Some body)
  end.

(** The data of a chunk and the line end behind it; [append] and [resize] throw for
    a negative length. *)
Definition take_chunk (fuel : nat) (buff_size : nat) (content_len : Z) (body buffer : bytes)
    : M Session (option (bytes * bytes)) :=
  let len := Z.of_nat (length buffer) in
  if (2 ^ 31 - 1 <? content_len + 2)%Z then undef signed_overflow
  else if (content_len + 2 <=? len)%Z then
    if (content_len <? 0)%Z then throw length_error
    else mret (Some (body ++ take (Z.to_nat content_len) buffer, drop (Z.to_nat (content_len + 2)) buffer))
  else
    r ← recv_left fuel buff_size (body ++ buffer) (content_len - len + 2);
    match r with
    | None => mret None
    | Some body => if length body <? 2 then throw length_error else mret (Some (take (length body - 2) body, []))
    end.

Fixpoint recv_chunks (fuel : nat) (buff_size : nat) (p : HttpResponseParser) (body buffer : bytes)
    : M Session (option (HttpResponseParser * bytes)) :=
  match fuel with
  | 0 => λ _, NoFuel
  | S fuel' =>
    r ← recv_chunk_head fuel buff_size true p buffer;
    match r with
    | None => mret None
    | Some (p, buffer) =>
      r ← take_chunk fuel buff_size (content_len (cparser_ p)) body buffer;
      match r with
      | None => mret None
      | Some (body, buffer) =>
        if chunks_done (cparser_ p) then mret (Some (p, body)) else recv_chunks fuel' buff_size p body buffer
      end
    end
  end.

Section client.
(** [lexical_cast<uint64_t>], and what [ZlibStream] makes of a compressed text. *)
Variable to_uint64 : bytes → option Z.
Variable gunzip inflate : bytes → bytes.

Definition GetContentLength (p : HttpResponseParser) : Z :=
  GetAs to_uint64 (rsp_headers_ (cdata_ p)) (bs "content-length") 0%Z.

(** A body whose length is known. *)
Definition recv_length (fuel : nat) (p : HttpResponseParser) (buffer : bytes) : M Session (option bytes) :=
  let length_ := s64 (GetContentLength p) in
  if (0 <? length_)%Z then
    let n := Z.to_nat length_ in
    let body := take n buffer in
    let left := n - length buffer in
    if left =? 0 then mret (Some body) else
    '(rt, body) ← ReadFixSize fuel body left;
    if (rt <=? 0)%Z then fail else mret (Some body)
  else mret (Some []).

(** The end: compressed bodies are unpacked. *)
Definition finish_response (rsp : HttpResponse) (body : bytes) : HttpResponse :=
  if bool_decide (body = []) then rsp else
  let content_encoding := rsp_GetHeader rsp (bs "content-encoding") [] in
  let body := if strcase_eq (c_str content_encoding) (bs "gzip") then gunzip body
              else if strcase_eq (c_str content_encoding) (bs "deflate") then inflate body
              else body in
  rsp_SetBody body rsp.

(** [memory] is what the new parser holds in [status]. *)
Definition RecvResponse (memory : Z) (fuel : nat) (buff_size : nat) : M Session (option HttpResponse) :=
  r ← recv_response_head fuel buff_size (new_HttpResponseParser memory) [];
  match r with
  | None => mret None
  | Some (p, buffer) =>
    if chunked (cparser_ p) then
      r ← recv_chunks fuel buff_size p [] buffer;
      mret ((λ '(p, body), finish_response (cdata_ p) body) <$> r)
    else
      r ← recv_length fuel p buffer;
      mret (finish_response (cdata_ p) <$> r)
  end.
End client.

(** ** Every response ends *)







Lemma Read_cases n s : pieces s → Read n s = Ret None s ∨
  ∃ d s', Read n s = Ret (Some d) s' ∧ pieces s' ∧ 0 < length d ∧ length (stream s) = length d + length (stream s').
Proof.
  intros Hp. destruct n as [|n].
  - left. destruct s as [[|[|] ?] ?]; done.
  - destruct (Read_ok (S n) s Hp ltac:(lia)) as [[_ Hr]|(d & s' & Hr & Hp' & _ & Hd & _ & Hs)]; [by left|right].
    exists d, s'. rewrite Hs, length_app. split_and!; try done. destruct d; [done|cbn; lia].
Qed.




Abbreviation left_over := (snd : HttpResponseParser * bytes → bytes).







(** *** The connection is closed only where there is no response *)







Definition response (lines : list bytes) : bytes := concat (map (λ l, l ++ crlf) lines).

(** What a server must not send, and what it must not do, as any server can.  A
    last header [Connection] without a value leaves the parser in a final state that
    does not count as finished: the next byte makes an assertion fail and the process
    abort.  [Transfer-Encoding] without a value followed by a line [chunked] makes it
    read the name of a field from behind the end of what was received.  A chunk whose
    size line is cut between two reads gets the second half of the line as its size,
    and the body is cut without an error; a size of 2^32 is taken for the end. *)
Theorem hostile_responses to_uint64 gunzip inflate memory :
  let recv ps := RecvResponse to_uint64 gunzip inflate memory 200 100 (mkSession ps false) in
  let ok := bs "HTTP/1.1 200 OK" in let chunked_ := bs "Transfer-Encoding: chunked" in
  recv [response [ok; bs "Connection:"; []]; bs "x"] = Undef assert_failed ∧
  recv [response [ok; bs "Transfer-Encoding:"; bs "chunked"]] = Undef out_of_bounds ∧
  (∃ rsp s', recv [response [ok; chunked_; []] ++ bs "1"; response [bs "0"; bs "sixteen letters."; bs "0"; []]] = Ret (Some rsp) s' ∧
     rsp_body_ rsp = []) ∧
  (∃ rsp s', recv [response [ok; chunked_; []; bs "100000000"; bs "lost"; bs "0"; []]] = Ret (Some rsp) s' ∧ rsp_body_ rsp = []).
Proof.
  cbn zeta. split_and!; [vm_compute; reflexivity..| |]; do 2 eexists; split; vm_compute; reflexivity.
Qed.
