(* ===== verification/ClientRoundtrip.v ===== *)
(** * Printed responses are received back

    [HttpResponse::ToString] of [http/http.cc] against the scanner of
    [http/parser/httpclient_parser.rl.cc], the callbacks of [http/http_parser.cc] and
    [HttpConnection::RecvResponse]; and chunked bodies. *)
From stdpp Require Import list sets.
From S2P Require Import Prelude Strings CLib Ragel ClientScanner HttpTypes Http HttpMessages HttpSession ClientParser HttpClient.
Local Open Scope Z_scope.

Abbreviation nx := (next client_table id).

(** ** Sections of a response *)

Abbreviation reads data := (reads client_table id (act data) breaks).

(** Text [s] that the automaton reads from [c] to [c'], wherever it is in the
    buffer; [f] is what its callbacks do, and [ch] whether it says that the body is
    chunked. *)
Definition section (c : Z) (s : bytes) (c' : Z) (f : HttpResponse → HttpResponse) (ch : bool) : Prop :=
  ∀ pre post st ts, let data := pre ++ s ++ post in Z.of_nat (length data) < 2 ^ 31 →
  ∃ st' new, reads data c (Z.of_nat (length pre)) (st, ts) s c' (st', ts ++ new) ∧
    chunked st' = chunked st || ch ∧ ∀ p, run_tokens data new p = Ret tt (set_cdata (f (cdata_ p)) p).

Lemma run_tokens_app data a b p p1 : run_tokens data a p = Ret tt p1 →
  run_tokens data (a ++ b) p = run_tokens data b p1.
Proof.
  revert p. induction a as [|t a IH]; intros p; cbn [run_tokens foldr app]; [by intros [= ->]|].
  unfold mbind, M_bind. destruct (run_token data t p) as [[] p2| | |]; try done. apply IH.
Qed.

Lemma rsp_section_app c a c1 f x b c2 g y : section c a c1 f x → section c1 b c2 g y → section c (a ++ b) c2 (g ∘ f) (x || y).
Proof.
  intros Ha Hb pre post st ts data Hn. unfold data in *.
  assert (pre ++ (a ++ b) ++ post = pre ++ a ++ b ++ post) as Hd by (by rewrite <- app_assoc).
  assert (pre ++ (a ++ b) ++ post = (pre ++ a) ++ b ++ post) as Hd2 by (by rewrite <- !app_assoc).
  destruct (Ha pre (b ++ post) st ts) as (st1 & n1 & R1 & K1 & T1); [by rewrite <- Hd|].
  destruct (Hb (pre ++ a) post st1 (ts ++ n1)) as (st2 & n2 & R2 & K2 & T2); [by rewrite <- Hd2|].
  exists st2, (n1 ++ n2). split_and!.
  - eapply reads_app; [rewrite Hd; exact R1|]. rewrite (app_assoc ts), Hd2. rewrite length_app, Nat2Z.inj_add in R2. exact R2.
  - by rewrite K2, K1, orb_assoc.
  - intros p. rewrite Hd. rewrite (run_tokens_app _ _ _ _ _ (T1 p)), <- Hd, Hd2. exact (T2 (set_cdata (f (cdata_ p)) p)).
Qed.

Lemma rsp_section_ext c s c' f g x : section c s c' f x → (∀ d, f d = g d) → section c s c' g x.
Proof.
  intros H He pre post st ts data Hn. destruct (H pre post st ts Hn) as (st' & new & R & K & T).
  exists st', new. split_and!; [done..|]. intros p. by rewrite T, He.
Qed.

Lemma rsp_section_nil c : section c [] c id false.
Proof.
  intros pre post st ts data Hn. exists st, []. rewrite app_nil_r, orb_false_r. split_and!; [apply reads_nil|done|].
  by intros [].
Qed.

Lemma string_at_eq (pre s post data : bytes) off len p : data = pre ++ s ++ post → off = Z.of_nat (length pre) →
  len = Z.of_nat (length s) → Z.of_nat (length data) < 2 ^ 31 → string_at data off len p = Ret s p.
Proof.
  intros -> -> -> Hn. rewrite !length_app in Hn. unfold string_at, max_size. rewrite (proj2 (Z.ltb_ge _ _)) by lia.
  rewrite (proj2 (Z.leb_le _ _)) by (rewrite !length_app; lia). by rewrite !Nat2Z.id, drop_app_length, take_app_length.
Qed.

Lemma rsp_LEN_at (k p : Z) (s : bytes) : 0 ≤ k → p = k + Z.of_nat (length s) → Z.of_nat (length s) < 2 ^ 31 →
  LEN k p = Z.of_nat (length s).
Proof. intros ? -> ?. unfold LEN. rewrite wrap_small by (unfold in_u; lia). lia. Qed.

(** A token: [mark] at its first character, the action [a] at the one behind it. *)
Lemma rsp_section_token c b s e c1 c2 a c' f : nx c b = Some (go [start_value] c1) → (∀ data p x, reads data c1 p x s c2 x) →
  nx c2 e = Some (go [a] c') → a = http_version ∨ a = status_code ∨ a = reason_phrase →
  (∀ pre post p, let data := pre ++ (b :: s) ++ e :: post in Z.of_nat (length data) < 2 ^ 31 →
     run_tokens data (act data a (Z.of_nat (length pre + length (b :: s))) (set_mark (Z.of_nat (length pre)) (cparser_ p), [])).2 p =
     Ret tt (set_cdata (f (cdata_ p)) p)) →
  section c (b :: s ++ [e]) c' f false.
Proof.
  intros Hb Hs He Ha Hf pre post st ts data Hn. unfold data in *.
  assert (pre ++ (b :: s ++ [e]) ++ post = pre ++ (b :: s) ++ (e :: post)) as Hd by (cbn; by rewrite <- app_assoc).
  rewrite Hd in *. set (k := Z.of_nat (length pre)).
  assert (∀ x, reads (pre ++ (b :: s) ++ e :: post) c k x (b :: s ++ [e]) c'
    (act (pre ++ (b :: s) ++ e :: post) a (Z.of_nat (length pre + length (b :: s))) (on_parser (set_mark k) x))) as R.
  { intros x. eapply reads_cons; [exact Hb|done|]. eapply reads_app; [exact (Hs _ (k + 1) _)|].
    replace (Z.of_nat (length pre + length (b :: s))) with (k + 1 + Z.of_nat (length s)) by (unfold k; cbn [length]; lia).
    refine (reads_one _ _ _ _ c2 _ _ e (go [a] c') He _). cbn. by destruct Ha as [->|[->| ->]]. }
  specialize (R (st, ts)). specialize (Hf pre post). cbn zeta in Hf.
  destruct Ha as [->|[->| ->]]; do 2 eexists; (split_and!; [exact R|by rewrite orb_false_r|]); intros p; specialize (Hf p Hn); exact Hf.
Qed.

(** *** The status line *)

Definition blank : byte := byte.of_Z 32.
Definition lf : byte := byte.of_Z 10.

Ltac silently := intros ? ? ?; apply silent_reads; vm_compute; reflexivity.
Ltac token_text := intros pre post p ? Hn; cbn [act emit snd fst mark_ set_mark run_tokens foldr run_token app];
  rewrite (rsp_LEN_at (Z.of_nat (length pre))) by (rewrite ?length_app in *; cbn [length] in *; lia).

Lemma rsp_version_section v : v = 0x11 ∨ v = 0x10 →
  section 1 (bs "HTTP/" ++ version_text v ++ [blank]) 16 (rsp_SetVersion v) false.
Proof.
  intros Hv. set (s := bs "TTP/" ++ version_text v).
  change (bs "HTTP/" ++ version_text v ++ [blank]) with (byte.of_Z 72 :: s ++ [blank]).
  apply (rsp_section_token _ _ _ _ 8 15 http_version); [reflexivity|destruct Hv as [->| ->]; silently|reflexivity|by left|].
  intros pre post p data Hn. cbn [act emit snd fst mark_ set_mark run_tokens foldr run_token app].
  assert (length s = 7)%nat as Hl by (by destruct Hv as [->| ->]).
  set (w := byte.of_Z 72 :: s). assert (LEN (Z.of_nat (length pre)) (Z.of_nat (length pre + length w)) = 8) as ->.
  { unfold w. rewrite (rsp_LEN_at _ _ w); unfold w; cbn [length]; rewrite ?Hl; cbn; lia. }
  unfold OnResponseVersion, strncmp_eq. unfold data. rewrite Nat2Z.id, drop_app_length.
  assert (∀ x, take (Z.to_nat 8) (c_str (w ++ blank :: post) ++ x) = w) as Ht.
  { intros x. rewrite c_str_app by (unfold w, s; destruct Hv as [->| ->]; vm_compute; repeat constructor).
    rewrite <- app_assoc. rewrite take_app_le by (unfold w; cbn [length]; rewrite Hl; cbn; lia).
    apply take_ge. unfold w. cbn [length]. rewrite Hl. cbn. lia. }
  rewrite !Ht. destruct Hv as [->| ->].
  - by rewrite bool_decide_eq_true_2.
  - rewrite bool_decide_eq_false_2, bool_decide_eq_true_2; [done..|]. by vm_compute.
Qed.

(** A status of three digits, followed by whatever is no digit. *)
Definition three_digits (v : Z) : bool :=
  match dec (Z.to_N v) with
  | [a; b; c] => bool_decide (next client_table id 16 a = Some (go [start_value] 17)) &&
      bool_decide (next client_table id 17 b = Some (go [] 17)) && bool_decide (next client_table id 17 c = Some (go [] 17)) &&
      (is_xdigit a && negb ((uchar b =? 120) || (uchar b =? 88))) &&
      (s32 (Z.min (2 ^ 63 - 1) (strtol_digits 10 0 [a; b; c; blank])) =? v)
  | _ => false
  end.

Lemma three_digits_ok v : 100 ≤ v < 1000 → three_digits v = true.
Proof.
  intros Hv. assert (forallb (λ k, three_digits (100 + Z.of_nat k)) (seq 0 900) = true) as H by (vm_compute; reflexivity).
  rewrite forallb_forall in H. specialize (H (Z.to_nat (v - 100))). rewrite Z2Nat.id in H by lia.
  replace (100 + (v - 100)) with v in H by lia. apply H, in_seq. lia.
Qed.

Lemma strtol_digits_stop base a b acc post : (∀ d, digit_value b = Some d → base ≤ d) →
  strtol_digits base acc (a ++ b :: post) = strtol_digits base acc (a ++ [b]).
Proof.
  intros Hb. revert acc. induction a as [|c a IH]; intros acc; cbn.
  - destruct (digit_value b) as [d|]; [|done]. specialize (Hb d eq_refl). by rewrite (proj2 (Z.ltb_ge _ _)) by lia.
  - destruct (digit_value c) as [d|]; [|done]. case_match; [apply IH|done].
Qed.

Lemma status_section v : 100 ≤ v < 1000 → section 16 (dec (Z.to_N v) ++ [blank]) 18 (rsp_SetStatus v) false.
Proof.
  intros Hv. pose proof (three_digits_ok v Hv) as H. unfold three_digits in H.
  destruct (dec (Z.to_N v)) as [|a [|b [|c [|]]]]; try done. rewrite !andb_true_iff, !bool_decide_eq_true in H.
  destruct H as ((((Ha & Hb) & Hc) & Hx) & Hs%Z.eqb_eq).
  change ([a; b; c] ++ [blank]) with (a :: [b; c] ++ [blank]).
  apply (rsp_section_token _ _ _ _ 17 17 status_code); [exact Ha| |reflexivity|by right; left|].
  { intros data p x. apply silent_reads. cbn [silent]. rewrite Hb. cbn [mbind option_bind on_way into silent]. by rewrite Hc. }
  intros pre post p data Hn. cbn [act emit snd fst mark_ set_mark run_tokens foldr run_token app on_parser].
  unfold OnResponseStatus, atoi. unfold data. rewrite Nat2Z.id, drop_app_length.
  destruct Hx as [Hx1 Hx2].
  change ((a :: [b; c]) ++ blank :: post) with (a :: b :: c :: blank :: post).
  rewrite strtol_plain by done. pose proof (strtol_digits_stop 10 [a; b; c] blank 0 post ltac:(done)) as Hstop.
  cbn [app] in Hstop. by rewrite Hstop, Hs.
Qed.

Definition reason_char (b : byte) : bool := negb (among [(10, 10); (13, 13)] b).
Definition good_reason (s : bytes) : bool := negb (bool_decide (s = [])) && forallb reason_char s.

Ltac table := match goal with
  | |- ∀ b, @?P b = true → _ => refine (check_next _ P _ _)
  | _ => idtac
  end; vm_compute; reflexivity.

Lemma rsp_section_then_silent c a c1 f x b c2 : section c a c1 f x → silent client_table id c1 b = Some c2 →
  section c (a ++ b) c2 f x.
Proof.
  intros Ha Hb. assert (section c1 b c2 id false) as Hb'.
  { intros pre post st ts data Hn. exists st, []. rewrite app_nil_r, orb_false_r. split_and!; [by apply silent_reads|done|by intros []]. }
  rewrite <- (orb_false_r x). eapply rsp_section_ext; [exact (rsp_section_app _ _ _ _ _ _ _ _ _ Ha Hb')|done].
Qed.

Lemma reason_section s : good_reason s = true → section 18 (s ++ crlf) 20 (SetReason s) false.
Proof.
  intros [H0 Hs]%andb_true_iff. destruct s as [|b s]; [done|]. cbn [forallb] in Hs. apply andb_true_iff in Hs as [Hb Hs].
  change crlf with ([cr] ++ [lf]). rewrite app_assoc. apply (rsp_section_then_silent _ _ 24); [|reflexivity].
  assert (∀ b, reason_char b = true → nx 18 b = Some (go [start_value] 19)) as H18 by table.
  assert (∀ b, reason_char b = true → nx 19 b = Some (go [] 19)) as H19 by table.
  apply (rsp_section_token _ _ _ _ 19 19 reason_phrase); [by apply H18| |reflexivity|by right; right|].
  { intros data p x. by eapply reads_loop. }
  intros pre post p data Hn. unfold data in *. rewrite !length_app in Hn. cbn [length] in Hn.
  cbn [act emit snd fst mark_ set_mark run_tokens foldr run_token app].
  rewrite (rsp_LEN_at _ _ (b :: s)) by (cbn [length]; lia).
  rewrite (bind_Ret _ _ _ tt (set_cdata (SetReason (b :: s) (cdata_ p)) p)); [done|]. unfold OnResponseReason.
  assert (string_at (pre ++ b :: s ++ cr :: post) (Z.of_nat (length pre)) (Z.of_nat (length (b :: s))) p = Ret (b :: s) p) as Hs'
    by (apply (string_at_eq pre (b :: s) (cr :: post)); [done..|rewrite length_app; cbn [length]; rewrite length_app; cbn; lia]).
  by rewrite (bind_Ret _ _ _ _ _ Hs').
Qed.

(** *** Headers *)

(** The states in a name, in front of a value, and in a value: they spell some names and
    values that mean something to the parser, of which only [transfer-encoding: chunked]
    has an effect on the response. *)
Definition names : list Z :=
  [21; 25; 26; 27; 28; 29; 30; 31; 32; 33; 34; 44; 45; 46; 47; 48; 49; 50; 51; 52; 53; 54; 55; 56; 57; 58; 59; 60;
   101; 102; 103; 104; 105; 106; 107; 108; 109; 110; 111].
Definition colons : list Z := [22; 35; 61; 112].
Definition values : list Z := [23; 81; 82; 83; 84; 85; 86; 87; 96; 97; 98; 99; 100; 119].

Definition te : bytes := bs "transfer-encoding".
Definition ck : bytes := bs "chunked".
Definition te_at (c : Z) : option nat := if (44 <=? c) && (c <=? 60) then Some (Z.to_nat (c - 43)) else None.
Definition ck_at (c : Z) : option nat := if (81 <=? c) && (c <=? 87) then Some (Z.to_nat (c - 80)) else None.

Definition says_chunked (p : bytes * bytes) : bool :=
  bool_decide (ToLower p.1 = te) && bool_decide (ToLower p.2 = ck).

Definition client_char (b : byte) : bool := negb (among [(10, 10); (13, 13)] b).
Definition client_start (b : byte) : bool := negb (among [(9, 13); (32, 32)] b).
(** Values that are not empty and do not begin with a blank. *)
Definition client_value (s : bytes) : bool :=
  match s with [] => false | c :: s => client_start c && forallb client_char s end.

Lemma names_class : class_ok client_table id names token_char te te_at.
Proof. apply class_check. vm_compute. reflexivity. Qed.
Lemma values_class : class_ok client_table id values client_char ck ck_at.
Proof. apply class_check. vm_compute. reflexivity. Qed.

(** The start of a line, [20], or [43] behind [connection: close]. *)
Definition line_start (c : Z) : list action := if c =? 43 then [write_connection_close; start_field] else [start_field].

Lemma name_first c b : c = 20 ∨ c = 43 → token_char b = true →
  ∃ c', nx c b = Some (go (line_start c) c') ∧ c' ∈ names ∧ te_at c' = spells te (Some 0%nat) b.
Proof. intros [->| ->]; revert b; apply steps_into_ok; vm_compute; reflexivity. Qed.

Lemma name_end c : c ∈ names → ∃ c', nx c colon = Some (go [write_field] c') ∧ c' ∈ colons ∧
  (c' = 61 ↔ te_at c = Some (length te)).
Proof.
  intros Hc. assert (forallb (λ c, match nx c colon with
    | Some t => bool_decide (on_way t = [write_field]) && bool_decide (into t ∈ colons) &&
        bool_decide (into t = 61 ↔ te_at c = Some (length te))
    | None => false end) names = true) as H by (vm_compute; reflexivity).
  rewrite forallb_forall in H. specialize (H c (proj1 (list_elem_of_In _ _) Hc)).
  destruct (nx c colon) as [[a c']|]; [|done]. rewrite !andb_true_iff, !bool_decide_eq_true in H.
  destruct H as [[Ha Hin] H]. cbn in *. subst a. by exists c'.
Qed.

Lemma colons_inv c : c ∈ colons → c = 22 ∨ c = 35 ∨ c = 61 ∨ c = 112.
Proof. intros Hc. unfold colons in Hc. set_unfold. tauto. Qed.

Lemma colon_blank c : c ∈ colons → nx c blank = Some (go [start_value] c).
Proof. by intros [->|[->|[->| ->]]]%colons_inv. Qed.

Lemma value_first c b : c ∈ colons → client_start b = true →
  ∃ c', nx c b = Some (go [start_value] c') ∧ c' ∈ values ∧
    ck_at c' = spells ck (if bool_decide (c = 61) then Some 0%nat else None) b.
Proof.
  intros [->|[->|[->| ->]]]%colons_inv; revert b; apply steps_into_ok; vm_compute; reflexivity.
Qed.

(** The end of a line: whether the header said that the body is chunked. *)
Lemma value_end c : c ∈ values → ∃ acts c1 acts2 c2, nx c cr = Some (go (acts ++ [write_value]) c1) ∧
  nx c1 lf = Some (go acts2 c2) ∧ (acts = [] ∨ acts = [write_content_len]) ∧ (c2 = 20 ∨ c2 = 43) ∧
  acts2 = if bool_decide (ck_at c = Some (length ck)) then [trans_chunked] else [].
Proof.
  intros Hc. unfold values in Hc. set_unfold.
  repeat (destruct Hc as [->|Hc]; [first [exists [], 24, [], 20; split_and!; vm_compute; auto; fail
    | exists [], 71, [trans_chunked], 20; split_and!; vm_compute; auto; fail
    | exists [], 88, [], 43; split_and!; vm_compute; auto; fail
    | exists [write_content_len], 24, [], 20; split_and!; vm_compute; auto; fail]|]). done.
Qed.

(** The states tell what the header says. *)
Lemma says_chunked_states k v c o : (c = 61 ↔ foldl (spells te) (Some 0%nat) k = Some (length te)) →
  o = foldl (spells ck) (if bool_decide (c = 61) then Some 0%nat else None) v →
  bool_decide (o = Some (length ck)) = says_chunked (k, v).
Proof.
  intros Hc ->. unfold says_chunked. cbn [fst snd]. rewrite spells_all in Hc.
  destruct (decide (c = 61)) as [H61|H61];
    [rewrite (bool_decide_eq_true_2 (c = 61)) by done|rewrite (bool_decide_eq_false_2 (c = 61)) by done].
  - rewrite (bool_decide_eq_true_2 (ToLower k = te)) by (exact (proj2 (proj1 Hc H61))). apply bool_decide_ext. rewrite spells_all, drop_0.
    split; [by intros [_ ?]|]. intros Hv. split; [lia|exact Hv].
  - rewrite (bool_decide_eq_false_2 (ToLower k = te)) by (intros H; apply H61, Hc; split; [lia|by rewrite drop_0]).
    by rewrite spells_none.
Qed.

Lemma rsp_header_section c k v : c = 20 ∨ c = 43 → good_name k = true → client_value v = true →
  ∃ c', (c' = 20 ∨ c' = 43) ∧ section c (header_line (k, v)) c' (rsp_SetHeader k v) (says_chunked (k, v)).
Proof.
  intros Hc [Hk0 Hk]%andb_true_iff Hv. destruct k as [|b k]; [done|]. destruct v as [|d v]; [done|].
  cbn [forallb] in Hk. apply andb_true_iff in Hk as [Hb Hk]. apply andb_true_iff in Hv as [Hd Hv].
  destruct (name_first c b Hc Hb) as (c1 & H1 & Hc1 & Hs1).
  destruct (class_silent _ _ _ _ _ _ names_class k c1 Hc1 Hk) as (c2 & H2 & Hc2 & Hs2).
  destruct (name_end c2 Hc2) as (c3 & H3 & Hc3 & Hte). pose proof (colon_blank c3 Hc3) as H4.
  destruct (value_first c3 d Hc3 Hd) as (c5 & H5 & Hc5 & Hs5).
  destruct (class_silent _ _ _ _ _ _ values_class v c5 Hc5 Hv) as (c6 & H6 & Hc6 & Hs6).
  destruct (value_end c6 Hc6) as (acts & c7 & acts2 & c8 & H7 & H8 & Hacts & Hc8 & Hacts2).
  exists c8. split; [done|]. intros pre post st ts data Hn. set (o := Z.of_nat (length pre)).
  set (p1 := o + Z.of_nat (length (b :: k))). set (pv := p1 + 2). set (pe := pv + Z.of_nat (length (d :: v))).
  set (cl := if c =? 43 then set_close true st else st).
  set (st1 := set_mark pv (set_mark (p1 + 1) (set_field_len (LEN o p1) (set_field_start o cl)))).
  set (tok := TField o (LEN o p1) pv (LEN pv pe)).
  assert (∀ s, reads data c7 (pe + 1) s [lf] c8 (run_actions (act data) acts2 (pe + 1) s)) as R8.
  { intros s. apply (reads_one _ _ _ _ c7 _ s lf (go acts2 c8)); [exact H8|]. rewrite Hacts2. by case_bool_decide. }
  assert (∃ st2, chunked st2 = chunked st ∧ run_actions (act data) (acts ++ [write_value]) pe (st1, ts) = (st2, ts ++ [tok])) as (st2 & Hk2 & Hr2).
  { assert (chunked st1 = chunked st) as Hc1' by (unfold st1, cl; by destruct (c =? 43)).
    destruct Hacts as [->| ->]; eexists; (split; [|reflexivity]); exact Hc1'. }
  assert (reads data c o (st, ts) (header_line (b :: k, d :: v)) c8 (run_actions (act data) acts2 (pe + 1) (st2, ts ++ [tok]))) as R.
  { unfold header_line. cbn [fst snd]. change (bs ": ") with [colon; blank]. change crlf with [cr; lf]. cbn [app].
    eapply reads_cons; [exact H1|cbn [on_way]; unfold line_start; by destruct (c =? 43)|].
    cbn [on_way into]. assert (run_actions (act data) (line_start c) o (st, ts) = (set_field_start o cl, ts)) as -> by
      (unfold line_start, cl; by destruct (c =? 43)).
    eapply reads_app; [by apply silent_reads|]. replace (o + 1 + Z.of_nat (length k)) with p1 by (unfold p1; cbn [length]; lia).
    eapply reads_cons; [exact H3|done|]. eapply reads_cons; [exact H4|done|]. eapply reads_cons; [exact H5|done|].
    eapply reads_app; [by apply silent_reads|].
    replace (p1 + 1 + 1 + 1 + Z.of_nat (length v)) with pe by (unfold pe, pv; cbn [length]; lia).
    eapply reads_cons; [exact H7|destruct Hacts as [->| ->]; done|]. 
    replace (p1 + 1 + 1) with pv by (unfold pv; lia).
    match goal with |- reads _ _ _ ?x _ _ _ => replace x with (st2, ts ++ [tok]) end. apply R8. }
  assert (bool_decide (ck_at c6 = Some (length ck)) = says_chunked (b :: k, d :: v)) as Hsays.
  { apply says_chunked_states with (c := c3).
    - rewrite Hte, Hs2, Hs1. done.
    - by rewrite Hs6, Hs5. }
  exists (if says_chunked (b :: k, d :: v) then set_chunked true st2 else st2), [tok]. split_and!.
  - rewrite Hacts2, Hsays in R. destruct (says_chunked _); exact R.
  - destruct (says_chunked _); cbn; rewrite ?Hk2; by destruct (chunked st).
  - intros p. cbn [run_tokens foldr run_token tok]. unfold OnResponseHttpField.
    assert (Hn' := Hn). unfold data, header_line in Hn'. cbn [fst snd] in Hn'.
    change (bs ": ") with [colon; blank] in Hn'. rewrite !length_app in Hn'. cbn [length] in Hn'.
    unfold tok. cbn [run_token]. unfold OnResponseHttpField.
    rewrite (rsp_LEN_at o p1 (b :: k)), (rsp_LEN_at pv pe (d :: v)) by (unfold pe, pv, p1, o; cbn [length]; lia).
    rewrite (proj2 (Z.eqb_neq _ 0)) by (cbn [length]; lia).
    assert (string_at data o (Z.of_nat (length (b :: k))) p = Ret (b :: k) p) as E1.
    { apply (string_at_eq pre (b :: k) (bs ": " ++ (d :: v) ++ crlf ++ post)); try done.
      unfold data, header_line. by rewrite <- !app_assoc. }
    assert (string_at data pv (Z.of_nat (length (d :: v))) p = Ret (d :: v) p) as E2.
    { apply (string_at_eq (pre ++ (b :: k) ++ bs ": ") (d :: v) (crlf ++ post)); try done.
      - unfold data, header_line. by rewrite <- !app_assoc.
      - unfold pv, p1, o. rewrite !length_app. change (length (bs ": ")) with 2%nat. lia. }
    rewrite (bind_Ret _ _ p tt (set_cdata (rsp_SetHeader (b :: k) (d :: v) (cdata_ p)) p)); [done|].
    rewrite (bind_Ret _ _ _ _ _ E1). by rewrite (bind_Ret _ _ _ _ _ E2).
Qed.

Definition set_all (hs : list (bytes * bytes)) (d : HttpResponse) : HttpResponse :=
  foldl (λ d p, rsp_SetHeader p.1 p.2 d) d hs.
Definition good_header (p : bytes * bytes) : Prop := good_name p.1 = true ∧ client_value p.2 = true.

Lemma rsp_headers_section hs c : c = 20 ∨ c = 43 → Forall good_header hs →
  ∃ c', (c' = 20 ∨ c' = 43) ∧ section c (lines hs) c' (set_all hs) (existsb says_chunked hs).
Proof.
  intros Hc Hhs. revert c Hc. induction Hhs as [|[k v] hs [Hk Hv] _ IH]; intros c Hc; [exists c; split; [done|apply rsp_section_nil]|].
  destruct (rsp_header_section c k v Hc Hk Hv) as (c1 & Hc1 & H1). destruct (IH c1 Hc1) as (c2 & Hc2 & H2).
  exists c2. split; [done|]. eapply rsp_section_ext; [exact (rsp_section_app _ _ _ _ _ _ _ _ _ H1 H2)|done].
Qed.

(** ** The whole head *)

Definition printed_reason (r : HttpResponse) : bytes :=
  if bool_decide (reason_ r = []) then HttpStatusToString (status_ r) else reason_ r.
Definition status_line (r : HttpResponse) : bytes :=
  bs "HTTP/" ++ version_text (rsp_version_ r) ++ bs " " ++ dec (Z.to_N (status_ r)) ++ bs " " ++ printed_reason r.
Definition rsp_head (r : HttpResponse) (hs : list (bytes * bytes)) : bytes := status_line r ++ crlf ++ lines hs ++ crlf.

(** The headers that [ToString] prints. *)
Definition cookie_headers (r : HttpResponse) : list (bytes * bytes) := map (pair (bs "Set-Cookie")) (rsp_cookies_ r).
Definition rsp_sent_headers (r : HttpResponse) : list (bytes * bytes) :=
  kept_headers (rsp_websocket_ r) (rsp_headers_ r) ++ cookie_headers r ++
  own_connection (rsp_websocket_ r) (rsp_close_ r) ++ length_header (rsp_body_ r).

Lemma rsp_ToString_head r : rsp_ToString r = rsp_head r (rsp_sent_headers r) ++ rsp_body_ r.
Proof.
  unfold rsp_ToString, rsp_head, status_line, rsp_sent_headers. fold (printed_reason r).
  rewrite dump_headers_lines, connection_line_lines, dump_body_lines, !lines_app.
  assert (lines (cookie_headers r) = concat (map (λ i, bs "Set-Cookie: " ++ i ++ crlf) (rsp_cookies_ r))) as ->.
  { unfold cookie_headers, lines. by rewrite map_map. }
  by rewrite <- !app_assoc.
Qed.

(** What can be received: HTTP 1.0 or 1.1, a status of three digits, and headers with
    values that are not empty and do not begin with a blank. *)
Record receivable (r : HttpResponse) (hs : list (bytes * bytes)) : Prop := {
  rsp_version_good : rsp_version_ r = 0x11 ∨ rsp_version_ r = 0x10;
  status_good : 100 ≤ status_ r < 1000;
  reason_good : good_reason (printed_reason r) = true;
  rsp_headers_good : Forall good_header hs
}.

(** The response that is made of it. *)
Definition rsp_received (r : HttpResponse) (hs : list (bytes * bytes)) (d : HttpResponse) : HttpResponse :=
  set_all hs (SetReason (printed_reason r) (rsp_SetStatus (status_ r) (rsp_SetVersion (rsp_version_ r) d))).

Lemma rsp_head_section r hs : receivable r hs → ∃ c, (c = 20 ∨ c = 43) ∧
  section 1 (status_line r ++ crlf ++ lines hs) c (rsp_received r hs) (existsb says_chunked hs).
Proof.
  intros []. destruct (rsp_headers_section hs 20 (or_introl eq_refl) rsp_headers_good0) as (c & Hc & Hh).
  exists c. split; [done|]. unfold status_line. rewrite <- !app_assoc.
  pose proof (rsp_section_app _ _ _ _ _ _ _ _ _ (rsp_version_section _ rsp_version_good0)
    (rsp_section_app _ _ _ _ _ _ _ _ _ (status_section _ status_good0)
      (rsp_section_app _ _ _ _ _ _ _ _ _ (reason_section _ reason_good0) Hh))) as H.
  rewrite <- !app_assoc in H. eapply rsp_section_ext; [exact H|]. done.
Qed.

Lemma head_end c data p st ts : c = 20 ∨ c = 43 → ∃ st', chunked st' = chunked st ∧ ∀ rest,
  exec client_table id (act data) breaks c p (crlf ++ rest) (st, ts) = (120, p + 2, (st', ts ++ [THeaderDone]), true).
Proof.
  intros Hc. assert (∃ acts, nx c cr = Some (go acts 3) ∧ (acts = [] ∨ acts = [write_connection_close])) as (acts & Hcr & Ha).
  { destruct Hc as [->| ->]; eexists; split; try reflexivity; [by left|by right]. }
  eexists. split; cycle 1.
  - intros rest. change crlf with [cr; lf]. cbn [app exec]. rewrite Hcr. cbn [on_way into].
    replace (existsb breaks acts) with false by (by destruct Ha as [->| ->]).
    assert (nx 3 lf = Some (go [ClientScanner.done] 120)) as -> by reflexivity.
    cbn [on_way into existsb]. change (breaks ClientScanner.done || false) with true. cbn iota.
    replace (p + 2) with (p + 1 + 1) by lia.
    replace (run_actions (act data) acts p (st, ts)) with (if bool_decide (acts = []) then st else set_close true st, ts)
      by (by destruct Ha as [->| ->]).
    reflexivity.
  - cbn. by case_bool_decide.
Qed.

Lemma client_exec_head r hs rest memory : receivable r hs → Z.of_nat (length (rsp_head r hs ++ rest)) < 2 ^ 31 →
  ∃ st ts, client_exec (httpclient_parser_init memory) (rsp_head r hs ++ rest) =
    (120, Z.of_nat (length (rsp_head r hs)), (st, ts), true) ∧ chunked st = existsb says_chunked hs ∧
  ∀ p, run_tokens (rsp_head r hs ++ rest) ts p = Ret tt (set_cdata (rsp_received r hs (cdata_ p)) p).
Proof.
  intros Hr Hn. destruct (rsp_head_section r hs Hr) as (c & Hc & Hs).
  set (s := status_line r ++ crlf ++ lines hs) in *.
  assert (rsp_head r hs ++ rest = s ++ crlf ++ rest) as Hd by (unfold rsp_head, s; by rewrite <- !app_assoc).
  destruct (Hs [] (crlf ++ rest) (httpclient_parser_init memory) []) as (st1 & ts1 & R & K & T); [cbv zeta; by rewrite app_nil_l, <- Hd|].
  rewrite app_nil_l, <- Hd in T. rewrite app_nil_l, <- Hd in R.
  destruct (head_end c (rsp_head r hs ++ rest) (Z.of_nat (length s)) st1 ts1 Hc) as (st2 & K2 & E).
  exists st2, (ts1 ++ [THeaderDone]). split; [|split].
  - unfold client_exec. change (cs (httpclient_parser_init memory)) with 1.
    assert (row_of client_table 1 ≠ None) as Hrow by done. destruct (row_of client_table 1); [|done].
    unfold Ragel.reads in R. change (Z.of_nat (length [])) with 0 in R.
    match goal with |- exec _ _ ?f _ _ _ _ ?x = _ => replace (exec client_table id f breaks 1 0 (rsp_head r hs ++ rest) x)
      with (exec client_table id f breaks 1 0 (s ++ crlf ++ rest) x) by (by rewrite <- Hd) end.
    rewrite exec_app, R. cbn iota beta.
    rewrite Z.add_0_l, E. do 3 f_equal. unfold rsp_head. fold s. rewrite !app_assoc.
    rewrite (length_app _ crlf). unfold s. rewrite !app_assoc. cbn. lia.
  - by rewrite K2, K.
  - intros p. by rewrite (run_tokens_app _ _ _ _ _ (T p)).
Qed.

Lemma rsp_Execute_head r hs rest memory : receivable r hs → Z.of_nat (length (rsp_head r hs ++ rest)) < 2 ^ 31 →
  ∃ st, Execute (rsp_head r hs ++ rest) false (new_HttpResponseParser memory) =
    Ret (length (rsp_head r hs), rest) (mkResponseParser st (rsp_received r hs (new_HttpResponse 0x11 true)) 0) ∧
  cs st = 120 ∧ chunked st = existsb says_chunked hs.
Proof.
  intros Hr Hn. destruct (client_exec_head r hs rest memory Hr Hn) as (st & ts & Hx & K & T).
  assert (0 < Z.of_nat (length (rsp_head r hs ++ rest))) as Hpos by (unfold rsp_head, status_line; rewrite !length_app; cbn; lia).
  pose proof (httpclient_parser_execute_ok _ (new_HttpResponseParser memory) ltac:(done) (conj Hpos Hn)) as He.
  change (reset (cparser_ (new_HttpResponseParser memory))) with (httpclient_parser_init memory) in He.
  cbn zeta in He. rewrite Hx in He. destruct He as [(p' & Hp' & Hr')|(_ & Hu & _)].
  - rewrite T in Hp'. injection Hp' as <-. unfold Execute. rewrite (bind_Ret _ _ _ tt (new_HttpResponseParser memory)) by done.
    rewrite (bind_Ret _ _ _ _ _ Hr'). rewrite (proj2 (Z.ltb_ge _ _)) by lia.
    eexists. split; [rewrite Nat2Z.id, drop_app_length; reflexivity|]. by cbn.
  - by rewrite T in Hu.
Qed.

(** ** The response that is received *)

Lemma set_all_fields hs d : let d' := set_all hs d in
  status_ d' = status_ d ∧ rsp_version_ d' = rsp_version_ d ∧ reason_ d' = reason_ d ∧ rsp_body_ d' = rsp_body_ d ∧
  ∀ key, map_find (rsp_headers_ d') key = last_value hs key (map_find (rsp_headers_ d) key).
Proof.
  revert d. induction hs as [|[k v] hs IH]; intros d; cbv zeta; [by split_and!|]. change (set_all ((k, v) :: hs) d) with (set_all hs (rsp_SetHeader k v d)).
  destruct (IH (rsp_SetHeader k v d)) as (-> & -> & -> & -> & Hk). split_and!; try done. intros key. rewrite Hk.
  unfold last_value. cbn [foldl fst snd]. f_equal. unfold rsp_SetHeader, map_set. cbn [rsp_headers_ rsp_set_headers_].
  rewrite map_find_put. case_decide; [by destruct (map_find _ k)|done].
Qed.

Lemma rsp_received_fields r hs : let d := rsp_received r hs (new_HttpResponse 0x11 true) in
  status_ d = status_ r ∧ rsp_version_ d = rsp_version_ r ∧ reason_ d = printed_reason r ∧ rsp_body_ d = [] ∧
  ∀ key, map_find (rsp_headers_ d) key = last_value hs key None.
Proof. exact (set_all_fields hs _). Qed.

Lemma last_value_none hs key o : Forall (λ p, ¬ key_eq p.1 key) hs → last_value hs key o = o.
Proof.
  intros H. unfold last_value. revert o. induction H as [|p hs Hp _ IH]; intros o; [done|]. cbn [foldl].
  rewrite decide_False by done. apply IH.
Qed.

Lemma rsp_sent_value r key : map_ok (rsp_headers_ r) → rsp_websocket_ r = false → ¬ key_eq key (bs "connection") →
  ¬ key_eq key (bs "content-length") → ¬ key_eq key (bs "set-cookie") →
  last_value (rsp_sent_headers r) key None = map_find (rsp_headers_ r) key.
Proof.
  intros Hm Hw Hc Hl Hs. unfold rsp_sent_headers. rewrite Hw, !last_value_app, last_value_kept, (last_value_map (rsp_headers_ r)) by done.
  assert (match map_find (rsp_headers_ r) key with Some v => Some v | None => None end = map_find (rsp_headers_ r) key) as ->
    by (by destruct (map_find _ _)).
  rewrite (last_value_none (cookie_headers r)).
  2: { unfold cookie_headers. apply Forall_forall. intros p (i & -> & _)%list_elem_of_fmap He. apply Hs. by rewrite <- He. }
  rewrite (last_value_none (own_connection _ _)) by (constructor; [|done]; cbn; intros He; by apply Hc).
  apply last_value_none. unfold length_header. case_bool_decide; [done|]. constructor; [|done]. cbn. intros He. by apply Hl.
Qed.

Lemma rsp_sent_length r : map_ok (rsp_headers_ r) → rsp_websocket_ r = false → map_find (rsp_headers_ r) (bs "content-length") = None →
  last_value (rsp_sent_headers r) (bs "content-length") None =
    if bool_decide (rsp_body_ r = []) then None else Some (dec (N.of_nat (length (rsp_body_ r)))).
Proof.
  intros Hm Hw Hl. unfold rsp_sent_headers. rewrite Hw, !last_value_app, last_value_kept, (last_value_map (rsp_headers_ r)), Hl by done.
  rewrite (last_value_none (cookie_headers r)).
  2: { unfold cookie_headers. apply Forall_forall. intros p (i & -> & _)%list_elem_of_fmap He. by vm_compute in He. }
  unfold length_header. case_bool_decide; by destruct (rsp_close_ r).
Qed.

Lemma sent_not_chunked r : existsb says_chunked (rsp_headers_ r) = false → existsb says_chunked (rsp_sent_headers r) = false.
Proof.
  intros H. apply not_true_is_false. rewrite existsb_exists. intros (p & Hp & Hs).
  unfold rsp_sent_headers in Hp. rewrite !in_app_iff in Hp. destruct Hp as [Hp|[Hp|[Hp|Hp]]].
  - assert (existsb says_chunked (rsp_headers_ r) = true) as Ht; [|congruence]. apply existsb_exists. exists p. split; [|done].
    unfold kept_headers in Hp. apply list_elem_of_In, list_elem_of_filter in Hp as [_ Hp]. by apply list_elem_of_In.
  - unfold cookie_headers in Hp. apply in_map_iff in Hp as (i & <- & _). by vm_compute in Hs.
  - unfold own_connection in Hp. destruct (rsp_websocket_ r), (rsp_close_ r); destruct Hp as [<-|[]] || destruct Hp; by vm_compute in Hs.
  - unfold length_header in Hp. case_bool_decide; [done|]. destruct Hp as [<-|[]]. unfold says_chunked in Hs. by vm_compute in Hs.
Qed.

Section recv.
Variable memory : Z.
Variable to_uint64 : bytes → option Z.
Variable gunzip inflate : bytes → bytes.

(** The body, from the buffer and from what else arrives. *)
Lemma recv_length_sent fuel p buffer s body : pieces s → (length (stream s) < fuel)%nat →
  GetContentLength to_uint64 p = Z.of_nat (length body) → Z.of_nat (length body) < 2 ^ 31 →
  take (length body) (buffer ++ stream s) = body →
  ∃ s', recv_length to_uint64 fuel p buffer s = Ret (Some body) s' ∧ closed s' = closed s.
Proof.
  intros Hp Hf Hc Hlen Htake. unfold recv_length. rewrite Hc, swrap_small by (unfold in_s; lia). rewrite Nat2Z.id.
  destruct (Z.ltb_spec 0 (Z.of_nat (length body))); [|exists s; by destruct body].
  assert (length body ≤ length (buffer ++ stream s))%nat as Hle by (rewrite <- Htake at 1; rewrite length_take; lia).
  cbn zeta. destruct (Nat.eqb_spec (length body - length buffer) 0) as [H0|H0].
  { exists s. split; [|done]. do 2 f_equal. rewrite take_app, H0, app_nil_r in Htake. by rewrite Htake. }
  destruct (ReadFixSize_ok fuel (take (length body) buffer) (length body - length buffer) s Hp Hf ltac:(lia))
    as [[Hn (s' & Hr & _ & _ & Hcl)]|[Hn _]].
  - rewrite (bind_Ret _ _ _ _ _ Hr). cbn beta iota. rewrite swrap_small by (unfold in_s; lia).
    rewrite (proj2 (Z.leb_gt _ _)) by lia. exists s'. split; [|done]. do 2 f_equal. by rewrite <- take_app, Htake.
  - rewrite length_app in Hle. lia.
Qed.

(** The first loop, when the first read gets the whole head. *)
Lemma recv_response_head_sent r hs fuel buff_size b s s1 : receivable r hs →
  Read buff_size s = Ret (Some (rsp_head r hs ++ b)) s1 → (length (rsp_head r hs ++ b) ≤ buff_size)%nat →
  Z.of_nat buff_size < 2 ^ 31 →
  ∃ st, recv_response_head (S fuel) buff_size (new_HttpResponseParser memory) [] s =
    Ret (Some (mkResponseParser st (rsp_received r hs (new_HttpResponse 0x11 true)) 0, b)) s1 ∧
    chunked st = existsb says_chunked hs ∧ (length b < buff_size)%nat.
Proof.
  intros Hr Hread Hb Hbuf.
  assert (rsp_head r hs ≠ []) as Hne by (unfold rsp_head, status_line; done).
  cbn [recv_response_head length]. rewrite Nat.sub_0_r, (bind_Ret _ _ _ _ _ Hread), app_nil_l.
  destruct (rsp_Execute_head r hs b memory Hr ltac:(lia)) as (st & Hx & Hcs & Hch).
  rewrite (bind_Ret _ _ s1 (length (rsp_head r hs), b, mkResponseParser st (rsp_received r hs (new_HttpResponse 0x11 true)) 0) s1)
    by (unfold parse; by rewrite Hx). cbn beta iota.
  set (P := mkResponseParser st _ 0).
  assert (HasError P = false) as -> by (unfold HasError, P; cbn; unfold httpclient_parser_has_error; by rewrite Hcs).
  assert (IsFinished P = true) as -> by (unfold IsFinished, P; cbn; unfold httpclient_parser_finish,
    httpclient_parser_has_error, httpclient_parser_is_finished; by rewrite Hcs).
  assert (length b < buff_size)%nat as Hlt by (rewrite length_app in Hb; destruct (rsp_head r hs); [done|cbn in Hb; lia]).
  rewrite (proj2 (Nat.eqb_neq _ _)) by lia. by exists st.
Qed.

(** What can be sent so that it arrives. *)
Record readable (buff_size : nat) (r : HttpResponse) : Prop := {
  rd_receivable : receivable r (rsp_sent_headers r);
  rd_headers : map_ok (rsp_headers_ r);
  rd_plain : rsp_websocket_ r = false;
  rd_not_chunked : existsb says_chunked (rsp_headers_ r) = false;
  rd_no_length : map_find (rsp_headers_ r) (bs "content-length") = None;
  rd_no_encoding : map_find (rsp_headers_ r) (bs "content-encoding") = None;
  rd_cast : to_uint64 (dec (N.of_nat (length (rsp_body_ r)))) = Some (Z.of_nat (length (rsp_body_ r)));
  rd_body : Z.of_nat (length (rsp_body_ r)) < 2 ^ 31;
  rd_head : (length (rsp_head r (rsp_sent_headers r)) ≤ buff_size)%nat
}.
(** The response that was received is the one that was sent. *)
Definition same_response (rsp r : HttpResponse) : Prop :=
  status_ rsp = status_ r ∧ rsp_version_ rsp = rsp_version_ r ∧ reason_ rsp = printed_reason r ∧ rsp_body_ rsp = rsp_body_ r ∧
  ∀ key, ¬ key_eq key (bs "connection") → ¬ key_eq key (bs "content-length") → ¬ key_eq key (bs "set-cookie") →
    map_find (rsp_headers_ rsp) key = map_find (rsp_headers_ r) key.

Lemma RecvResponse_sent (r : HttpResponse) (fuel buff_size : nat) (behind : bytes) (rest : list bytes) (more : bytes) :
  let hd := rsp_head r (rsp_sent_headers r) in
  readable buff_size r → Z.of_nat buff_size < 2 ^ 31 →
  Forall (λ c, c ≠ []) rest → behind ++ concat rest = rsp_body_ r ++ more →
  (length (behind ++ concat rest) < fuel)%nat →
  ∃ rsp s', RecvResponse to_uint64 gunzip inflate memory (S fuel) buff_size (mkSession ((hd ++ behind) :: rest) false) =
      Ret (Some rsp) s' ∧ closed s' = false ∧ same_response rsp r.
Proof.
  intros hd [Hr Hm Hw Hch Hl He Hcast Hlen Hhd] Hbuf Hrest Hbody Hfuel.
  assert (hd ≠ []) as Hne by (unfold hd, rsp_head, status_line; done).
  destruct (first_read hd behind rest buff_size Hne Hhd Hrest) as (b & s1 & Hread & Hb & Hp1 & Hc1 & Hs1).
  destruct (recv_response_head_sent r _ fuel buff_size b _ s1 Hr Hread Hb Hbuf) as (st & Hx & Hk & _).
  unfold RecvResponse. rewrite (bind_Ret _ _ _ _ _ Hx). cbn beta iota. cbn [cparser_]. rewrite Hk, sent_not_chunked by done.
  destruct (rsp_received_fields r (rsp_sent_headers r)) as (F1 & F2 & F3 & F4 & F5).
  set (d := rsp_received r _ _) in *. set (P := mkResponseParser st d 0).
  destruct (recv_length_sent (S fuel) P b s1 (rsp_body_ r) Hp1) as (s' & Hr' & Hc'); try done.
  - apply (f_equal length) in Hs1. rewrite !length_app in *. lia.
  - unfold GetContentLength, GetAs. cbn [cdata_ P]. rewrite F5, rsp_sent_length by done.
    case_bool_decide as Hb0; [by rewrite Hb0|]. by rewrite Hcast.
  - rewrite Hs1, Hbody. apply take_app_length.
  - rewrite (bind_Ret _ _ _ _ _ Hr'). do 2 eexists. split; [reflexivity|]. split; [congruence|]. cbn [cdata_ P].
    assert (finish_response gunzip inflate d (rsp_body_ r) = if bool_decide (rsp_body_ r = []) then d else rsp_SetBody (rsp_body_ r) d) as ->.
    { unfold finish_response, rsp_GetHeader. rewrite F5, rsp_sent_value, He by done. done. }
    assert (∀ key, ¬ key_eq key (bs "connection") → ¬ key_eq key (bs "content-length") → ¬ key_eq key (bs "set-cookie") →
      map_find (rsp_headers_ d) key = map_find (rsp_headers_ r) key) as Hkeys by (intros; rewrite F5; by apply rsp_sent_value).
    unfold same_response. case_bool_decide as Hb0; split_and!; try done. by rewrite F4, Hb0.
Qed.

(** C24: a response that a server prints arrives at a client as the same response,
    through the scanner generated from the grammar, its callbacks and the loops that
    read, however the bytes behind the head are cut: status, version, reason, body,
    and every header but those that the printing adds, by its name in any case.  The
    head must arrive in one piece, no value be empty, and the body not be declared
    chunked or compressed. *)
Theorem response_received (r : HttpResponse) (fuel buff_size : nat) (behind : bytes) (rest : list bytes) (more : bytes) :
  let hd := rsp_head r (rsp_sent_headers r) in
  receivable r (rsp_sent_headers r) → map_ok (rsp_headers_ r) → rsp_websocket_ r = false →
  existsb says_chunked (rsp_headers_ r) = false →
  map_find (rsp_headers_ r) (bs "content-length") = None → map_find (rsp_headers_ r) (bs "content-encoding") = None →
  to_uint64 (dec (N.of_nat (length (rsp_body_ r)))) = Some (Z.of_nat (length (rsp_body_ r))) →
  Z.of_nat (length (rsp_body_ r)) < 2 ^ 31 →
  (length hd ≤ buff_size)%nat → Z.of_nat buff_size < 2 ^ 31 →
  Forall (λ c, c ≠ []) rest → behind ++ concat rest = rsp_body_ r ++ more →
  (length (behind ++ concat rest) < fuel)%nat →
  rsp_ToString r = hd ++ rsp_body_ r ∧
  ∃ rsp s', RecvResponse to_uint64 gunzip inflate memory (S fuel) buff_size (mkSession ((hd ++ behind) :: rest) false) =
      Ret (Some rsp) s' ∧ closed s' = false ∧ status_ rsp = status_ r ∧ rsp_version_ rsp = rsp_version_ r ∧
    reason_ rsp = printed_reason r ∧ rsp_body_ rsp = rsp_body_ r ∧
    ∀ key, ¬ key_eq key (bs "connection") → ¬ key_eq key (bs "content-length") → ¬ key_eq key (bs "set-cookie") →
      map_find (rsp_headers_ rsp) key = map_find (rsp_headers_ r) key.
Proof.
  intros hd Hr Hm Hw Hch Hl He Hcast Hlen Hhd Hbuf Hrest Hbody Hfuel. split; [apply rsp_ToString_head|].
  by apply (RecvResponse_sent r fuel buff_size behind rest more).
Qed.
End recv.

Definition page : HttpResponse := rsp_SetHeader (bs "Server") (bs "ygw/1.0.0")
  (mkResponse 404 0x11 false false (bs "<p>gone</p>") [] [] [bs "a=b"]).

Lemma response_received_witness : ∃ rsp s',
  RecvResponse digits id id 7 300 200 (mkSession [rsp_head page (rsp_sent_headers page) ++ bs "<p>go"; bs "ne</p>HTT"] false) = Ret (Some rsp) s' ∧
  status_ rsp = 404 ∧ reason_ rsp = bs "Not Found" ∧ rsp_body_ rsp = bs "<p>gone</p>" ∧
  map_find (rsp_headers_ rsp) (bs "SERVER") = Some (bs "ygw/1.0.0").
Proof.
  destruct (response_received 7 digits id id page 299 200 (bs "<p>go") [bs "ne</p>HTT"] (bs "HTT"))
    as (_ & rsp & s' & Hr & _ & Hs & _ & Hre & Hb & Hh);
    [split; [by left|cbn; lia|by vm_compute|repeat constructor]|repeat constructor; by vm_compute|done..|
     vm_compute; lia|lia|repeat constructor; done|done|vm_compute; lia|].
  exists rsp, s'. split_and!; [exact Hr|exact Hs|exact Hre|exact Hb|].
  rewrite Hh; [by vm_compute|intros H; by vm_compute in H..].
Defined.
