(* ===== verification/ChunkedBody.v ===== *)
(** * Chunked bodies

    The loop over the chunks in [HttpConnection::RecvResponse]
    ([http/http_connection.cc]), with the scanner of the lines in front of them. *)
From stdpp Require Import list.
From S2P Require Import Prelude Strings CLib Ragel ClientScanner HttpTypes Http HttpMessages HttpSession ClientParser HttpClient.
From S2P Require Import ClientRoundtrip.
Local Open Scope Z_scope.

(** ** The line in front of a chunk *)

(** The size in hexadecimal, and the data. *)
Abbreviation chunk := (bytes * bytes)%type.
Definition hex_value (h : bytes) : Z := strtol_digits 16 0 h.
Definition good_chunk (c : chunk) : Prop :=
  c.1 ≠ [] ∧ forallb is_xdigit c.1 = true ∧ hex_value c.1 = Z.of_nat (length c.2) ∧ Z.of_nat (length c.2) + 2 < 2 ^ 31.

Lemma strtol_size h post : h ≠ [] → forallb is_xdigit h = true → hex_value h < 2 ^ 63 →
  strtol 16 (h ++ crlf ++ post) = hex_value h.
Proof.
  intros Hne Hx Hv. destruct h as [|a h]; [done|]. cbn [forallb] in Hx. apply andb_true_iff in Hx as [Ha Hx].
  change crlf with [cr; lf]. cbn [app]. rewrite strtol_plain; [|done|].
  - change (a :: h ++ cr :: lf :: post) with ((a :: h) ++ cr :: lf :: post).
    rewrite strtol_digits_end by done. unfold hex_value in *. lia.
  - destruct h as [|x h]; [done|]. cbn [forallb] in Hx. apply andb_true_iff in Hx as [Hx _].
    cbn [app]. unfold is_xdigit in Hx. lia.
Qed.

(** The parser finds the size, and stops behind the line. *)
Lemma Execute_size h d post p : good_chunk (h, d) → Z.of_nat (length (h ++ crlf ++ post)) < 2 ^ 31 →
  ∃ st, Execute (h ++ crlf ++ post) true p = Ret (length (h ++ crlf), post) (set_cparser st p) ∧
    cs st = 120 ∧ content_len st = Z.of_nat (length d) ∧ chunks_done st = bool_decide (d = []).
Proof.
  intros (Hne & Hx & Hv & Hd) Hn. cbn [fst snd] in *. set (data := h ++ crlf ++ post) in *.
  set (memory := status (cparser_ p)). set (p0 := set_cparser (httpclient_parser_init memory) p).
  assert (s32 (strtol 16 data) = Z.of_nat (length d)) as Hsize.
  { unfold data. rewrite strtol_size; [|done|done|lia]. rewrite Hv. by rewrite swrap_small by (unfold in_s; lia). }
  assert (∃ st ts, client_exec (httpclient_parser_init memory) data = (120, Z.of_nat (length (h ++ crlf)), (st, ts), true) ∧
    content_len st = Z.of_nat (length d) ∧ chunks_done st = bool_decide (d = []) ∧ ∀ q, run_tokens data ts q = Ret tt q)
    as (st & ts & Hexec & Hc & Hdone & Hts).
  { destruct h as [|a h]; [done|]. cbn [forallb] in Hx. apply andb_true_iff in Hx as [Ha Hx].
    assert (∀ b, is_xdigit b = true → nx 1 b = Some (go [start_value] 2)) as H1 by (apply check_next; vm_compute; reflexivity).
    assert (∀ b, is_xdigit b = true → nx 2 b = Some (go [] 2)) as H2 by (apply check_next; vm_compute; reflexivity).
    unfold client_exec. change (cs (httpclient_parser_init memory)) with 1.
    assert (row_of client_table 1 ≠ None) as Hrow by done. destruct (row_of client_table 1); [|done].
    set (s0 := (set_mark 0 (httpclient_parser_init memory), @nil token)).
    assert (reads data 1 0 (httpclient_parser_init memory, []) (a :: h) 2 s0) as R.
    { eapply reads_cons; [by apply H1|done|]. by eapply reads_loop. }
    unfold Ragel.reads in R.
    match goal with |- ∃ st ts, exec _ _ ?f _ _ _ _ ?x = _ ∧ _ => replace (exec client_table id f breaks 1 0 data x)
      with (exec client_table id f breaks 1 0 ((a :: h) ++ crlf ++ post) x) by done end.
    rewrite exec_app, R. cbn iota beta. set (pe := 0 + Z.of_nat (length (a :: h))).
    change crlf with [cr; lf]. cbn [app exec].
    assert (nx 2 cr = Some (go [chunk_size] 3)) as -> by reflexivity. cbn [on_way into existsb].
    change (breaks chunk_size || false) with false. cbn iota.
    assert (nx 3 lf = Some (go [ClientScanner.done] 120)) as -> by reflexivity. cbn [on_way into existsb].
    change (breaks ClientScanner.done || false) with true. cbn iota.
    cbn [run_actions foldl act s0 fst snd mark_ set_mark]. change (drop (Z.to_nat 0) data) with data. rewrite Hsize.
    assert ((Z.of_nat (length d) <=? 0) = bool_decide (d = [])) as ->.
    { case_bool_decide as Hd0; [by rewrite Hd0|]. apply Z.leb_gt. destruct d; [done|cbn; lia]. }
    replace (pe + 1 + 1) with (Z.of_nat (length ((a :: h) ++ [cr; lf]))) by (unfold pe; rewrite length_app; cbn; lia).
    case_bool_decide; do 2 eexists; (split; [reflexivity|]); by split_and!. }
  assert (0 < Z.of_nat (length data)) as Hpos by (unfold data; rewrite !length_app; cbn; lia).
  pose proof (httpclient_parser_execute_ok data p0 ltac:(done) (conj Hpos Hn)) as He.
  change (reset (cparser_ p0)) with (httpclient_parser_init memory) in He. cbn zeta in He. rewrite Hexec in He.
  destruct He as [(p' & Hp' & Hr)|(_ & Hu & _)]; [|by rewrite Hts in Hu]. rewrite Hts in Hp'. injection Hp' as <-.
  unfold Execute. rewrite (bind_Ret _ _ p tt p0) by done. rewrite (bind_Ret _ _ _ _ _ Hr).
  rewrite (proj2 (Z.ltb_ge _ _)) by lia. rewrite Nat2Z.id.
  assert (drop (length (h ++ crlf)) data = post) as -> by (unfold data; by rewrite app_assoc, drop_app_length).
  eexists. split; [reflexivity|]. by cbn.
Qed.

(** ** Cuts *)

(** A stream of chunks, cut anywhere but in the lines of the sizes: a piece is a
    sequence of atoms, whole lines and single bytes. *)
Definition size_line (h : bytes) : bytes := h ++ crlf.
Definition singles (s : bytes) : list bytes := map (λ b, [b]) s.
Definition atoms (c : chunk) : list bytes := size_line c.1 :: singles (c.2 ++ crlf).

Lemma concat_singles s : concat (singles s) = s.
Proof. induction s as [|b s IH]; [done|]. cbn. by f_equal. Qed.

Lemma length_singles s : length (singles s) = length s.
Proof. apply length_map. Qed.

(** A group of atoms in front of a stream of single bytes ends among them, or goes on
    behind them. *)
Lemma split_group g X x R : g ++ X = singles x ++ R →
  (∃ y z, x = y ++ z ∧ g = singles y ∧ X = singles z ++ R) ∨ (∃ g', g = singles x ++ g' ∧ R = g' ++ X).
Proof.
  revert x. induction g as [|a g IH]; intros x Hg; cbn in Hg; [left; by exists [], x|].
  destruct x as [|b x]; [right; by exists (a :: g)|]. cbn in Hg. injection Hg as -> Hg.
  destruct (IH x Hg) as [(y & z & -> & -> & ->)|(g' & -> & HR)]; [left|right].
  - by exists (b :: y), z.
  - by exists g'.
Qed.

Definition solid (gs : list (list bytes)) (buff_size : nat) : Prop :=
  Forall (λ g, concat g ≠ [] ∧ (length (concat g) ≤ buff_size)%nat) gs.
Definition whole (atoms : list bytes) : Prop := Forall (λ a, a ≠ []) atoms.

Lemma whole_concat g : whole g → concat g = [] → g = [].
Proof. intros Hw. destruct Hw as [|a g Ha _]; [done|]. cbn. by destruct a. Qed.

Lemma whole_app a b : whole (a ++ b) ↔ whole a ∧ whole b.
Proof. apply Forall_app. Qed.

Lemma whole_singles s : whole (singles s).
Proof. apply Forall_forall. by intros a (b & -> & _)%list_elem_of_fmap. Qed.

Abbreviation over gs cl := (mkSession (map (@concat byte) gs) cl).

(** Reading what is missing of a chunk. *)
Lemma recv_left_ok buff_size R cl : (0 < buff_size)%nat → whole R → ∀ fuel gs x body,
  solid gs buff_size → concat gs = singles x ++ R → (length x < fuel)%nat →
  ∃ gs', recv_left fuel buff_size body (Z.of_nat (length x)) (over gs cl) = Ret (Some (body ++ x)) (over gs' cl) ∧
    solid gs' buff_size ∧ concat gs' = R.
Proof.
  intros Hb HR. induction fuel as [|fuel IH]; intros gs x body Hgs Hx Hf; [lia|]. cbn [recv_left].
  destruct (Z.ltb_spec 0 (Z.of_nat (length x))) as [H0|H0].
  2: { destruct x; [|cbn in H0; lia]. exists gs. by rewrite app_nil_r. }
  destruct gs as [|g gs]; [destruct x; done|]. cbn [concat] in Hx. apply Forall_cons in Hgs as [[Hne Hcap] Hgs].
  set (n := Z.to_nat (if _ <? _ then _ else _)).
  destruct (split_group _ _ _ _ Hx) as [(y & z & -> & -> & Hgs')|(g' & -> & ->)].
  - rewrite concat_singles in *. assert (length y ≤ n)%nat as Hn by (unfold n; rewrite length_app in *; case_match; lia).
    cbn [map]. rewrite concat_singles. rewrite (bind_Ret _ _ _ _ _ (Read_whole n y (map (@concat byte) gs) cl Hne Hn)).
    rewrite length_app. replace (Z.of_nat (length y + length z) - Z.of_nat (length y)) with (Z.of_nat (length z)) by lia.
    rewrite length_app in Hf. assert (0 < length y)%nat by (destruct y; [done|cbn; lia]).
    destruct (IH gs z (body ++ y) Hgs Hgs') as (gs' & Hr & Hs & Hc); [lia|]. exists gs'. by rewrite Hr, app_assoc.
  - rewrite concat_app, concat_singles in *. rewrite length_app in Hcap.
    assert (n = length x) as Hn by (unfold n; rewrite (proj2 (Z.ltb_ge _ _)) by lia; lia).
    assert (∃ gs', Read n (over ((singles x ++ g') :: gs) cl) = Ret (Some x) (over gs' cl) ∧ solid gs' buff_size ∧
      concat gs' = g' ++ concat gs) as (gs' & Hr & Hs & Hc).
    { apply whole_app in HR as [HR _]. destruct (decide (g' = [])) as [->|Hg'].
      - exists gs. rewrite app_nil_r. split; [|done]. cbn [map]. rewrite concat_singles.
        apply Read_whole; [by destruct x|lia].
      - exists (g' :: gs). split; [|split; [|done]].
        + unfold Read, mbind, M_bind, get. cbn [net map]. rewrite concat_app, concat_singles.
          destruct (x ++ concat g') as [|c l] eqn:Hcl; [destruct x; [cbn in H0; lia|done]|]. rewrite <- Hcl.
          rewrite (proj2 (Nat.eqb_neq n 0)) by lia. rewrite Hn, take_app_length, drop_app_length.
          rewrite bool_decide_eq_false_2; [done|]. intros Hc. by apply Hg', whole_concat.
        + constructor; [|done]. split; [|lia]. intros Hc. by apply Hg', whole_concat. }
    rewrite (bind_Ret _ _ _ _ _ Hr), Z.sub_diag. destruct fuel as [|fuel]; [lia|]. cbn [recv_left]. by exists gs'.
Qed.

(** The data of a chunk and the line end behind it. *)
Lemma take_chunk_ok buff_size fuel g gs d R cl body : (0 < buff_size)%nat → whole R → solid gs buff_size →
  (length (concat g) < buff_size)%nat → g ++ concat gs = singles (d ++ crlf) ++ R →
  Z.of_nat (length d) + 2 < 2 ^ 31 → (length d + 2 < fuel)%nat →
  ∃ g' gs', take_chunk fuel buff_size (Z.of_nat (length d)) body (concat g) (over gs cl) =
    Ret (Some (body ++ d, concat g')) (over gs' cl) ∧ solid gs' buff_size ∧ g' ++ concat gs' = R ∧
    (length (concat g') < buff_size)%nat.
Proof.
  intros Hb HR Hgs Hg Hx Hd Hf. unfold take_chunk. rewrite (proj2 (Z.ltb_ge _ _)) by lia.
  assert (length (d ++ crlf) = length d + 2)%nat as Hl by (by rewrite length_app).
  destruct (split_group _ _ _ _ Hx) as [(y & z & Hyz & -> & Hgs')|(g' & -> & ->)].
  - rewrite concat_singles in *. destruct (decide (z = [])) as [->|Hz].
    + rewrite app_nil_r in Hyz. subst y. rewrite (proj2 (Z.leb_le _ _)) by lia. rewrite (proj2 (Z.ltb_ge _ _)) by lia.
      exists [], gs. rewrite Nat2Z.id, take_app_length. split; [|split; [done|split; [done|cbn; lia]]].
      rewrite drop_ge by lia. done.
    + assert (length y + length z = length d + 2)%nat as Hlen by (rewrite <- Hl, Hyz, length_app; done).
      assert (0 < length z)%nat by (destruct z; [done|cbn; lia]).
      rewrite (proj2 (Z.leb_gt _ _)) by lia.
      replace (Z.of_nat (length d) - Z.of_nat (length y) + 2) with (Z.of_nat (length z)) by lia.
      destruct (recv_left_ok buff_size R cl Hb HR fuel gs z (body ++ y) Hgs Hgs') as (gs' & Hr & Hs & Hc); [lia|].
      rewrite (bind_Ret _ _ _ _ _ Hr). rewrite <- app_assoc, <- Hyz, app_assoc.
      rewrite !length_app. change (length crlf) with 2%nat.
      rewrite (proj2 (Nat.ltb_ge _ _)) by lia. exists [], gs'. split; [|split; [done|split; [done|cbn; lia]]].
      replace (length body + length d + 2 - 2)%nat with (length (body ++ d)) by (rewrite length_app; lia).
      by rewrite take_app_length.
  - rewrite concat_app, concat_singles in *. rewrite !length_app in Hg. change (length crlf) with 2%nat in Hg.
    rewrite (proj2 (Z.leb_le _ _)) by (rewrite !length_app; cbn; lia). rewrite (proj2 (Z.ltb_ge _ _)) by lia.
    exists g', gs. rewrite Nat2Z.id. split; [|split; [done|split; [done|lia]]].
    rewrite <- app_assoc at 1. rewrite take_app_length.
    replace (Z.to_nat (Z.of_nat (length d) + 2)) with (length (d ++ crlf)) by (rewrite Hl; lia). by rewrite drop_app_length.
Qed.

(** The line in front of a chunk is found, in the buffer or in the next piece. *)
Lemma recv_chunk_head_ok buff_size fuel g gs h d R cl p : (0 < buff_size)%nat → Z.of_nat buff_size < 2 ^ 31 →
  good_chunk (h, d) → whole g → solid gs buff_size →
  (length (concat g) < buff_size)%nat → g ++ concat gs = size_line h :: R → cerror_ p = 0 →
  ∃ st g' gs', recv_chunk_head (S fuel) buff_size true p (concat g) (over gs cl) =
    Ret (Some (set_cparser st p, concat g')) (over gs' cl) ∧ content_len st = Z.of_nat (length d) ∧
    chunks_done st = bool_decide (d = []) ∧ solid gs' buff_size ∧ g' ++ concat gs' = R ∧ (length (concat g') < buff_size)%nat.
Proof.
  intros Hb Hsz Hc Hw Hgs Hg Hx Herr.
  assert (0 < length (size_line h))%nat as Hh by (unfold size_line; rewrite length_app; cbn; lia).
  assert (∃ g1 gs1, (if negb true || (length (concat g) =? 0)%nat
      then r ← Read (buff_size - length (concat g)); mret (app (concat g) <$> r) else mret (Some (concat g))) (over gs cl) =
    Ret (Some (size_line h ++ concat g1)) (over gs1 cl) ∧ solid gs1 buff_size ∧ g1 ++ concat gs1 = R ∧
    (length (size_line h ++ concat g1) ≤ buff_size)%nat) as (g1 & gs1 & Hread & Hgs1 & Hx1 & Hlen).
  { destruct g as [|a g].
    - destruct gs as [|[|a g1] gs]; [done|by apply Forall_cons in Hgs as [[? _] _]|]. cbn [app concat] in Hx.
      injection Hx as -> Hx. apply Forall_cons in Hgs as [[Hne Hcap] Hgs]. exists g1, gs.
      cbn [concat length negb orb]. rewrite Nat.sub_0_r. change (0 =? 0)%nat with true. cbn [map concat] in *. cbn iota.
      rewrite (bind_Ret _ _ _ _ _ (Read_whole _ _ _ _ Hne Hcap)). by split_and!.
    - cbn [app] in Hx. injection Hx as -> Hx. exists g, gs. cbn [concat] in *. rewrite length_app in Hg.
      rewrite (proj2 (Nat.eqb_neq _ 0)) by (rewrite length_app; lia). rewrite length_app. split_and!; try done; lia. }
  cbn [recv_chunk_head]. cbn [negb orb] in Hread. rewrite (bind_Ret _ _ _ _ _ Hread).
  unfold size_line in *. rewrite <- app_assoc in Hlen. rewrite <- app_assoc.
  destruct (Execute_size h d (concat g1) p Hc ltac:(lia)) as (st & Hr & Hcs & Hcl & Hdone).
  rewrite (bind_Ret _ _ _ (length (h ++ crlf), concat g1, set_cparser st p) (over gs1 cl)) by (unfold parse; by rewrite Hr).
  cbn beta iota. set (P := set_cparser st p).
  assert (HasError P = false) as -> by (unfold HasError, P; cbn; unfold httpclient_parser_has_error; by rewrite Hcs, Herr).
  assert (IsFinished P = true) as -> by (unfold IsFinished, P; cbn; unfold httpclient_parser_finish,
    httpclient_parser_has_error, httpclient_parser_is_finished; by rewrite Hcs).
  rewrite !length_app in Hlen. rewrite length_app in Hh.
  rewrite (proj2 (Nat.eqb_neq (length (concat g1)) buff_size)) by lia. exists st, g1, gs1. split_and!; try done. lia.
Qed.

(** The whole loop; [last] is the size of the chunk that ends it. *)
Lemma recv_chunks_ok buff_size cl last after : (0 < buff_size)%nat → Z.of_nat buff_size < 2 ^ 31 →
  good_chunk (last, []) → whole after → ∀ chunks fuel g gs p body,
  Forall (λ c, good_chunk c ∧ c.2 ≠ []) chunks → solid gs buff_size → (length (concat g) < buff_size)%nat → cerror_ p = 0 →
  g ++ concat gs = flat_map atoms chunks ++ atoms (last, []) ++ after →
  (length (flat_map atoms chunks) + 4 < fuel)%nat →
  ∃ p' g' gs', recv_chunks fuel buff_size p body (concat g) (over gs cl) =
    Ret (Some (p', body ++ flat_map snd chunks)) (over gs' cl) ∧ cdata_ p' = cdata_ p ∧ g' ++ concat gs' = after.
Proof.
  intros Hb Hsz Hlast Hafter chunks. induction chunks as [|[h d] chunks IH]; intros fuel g gs p body Hcs Hgs Hg Herr Hx Hf;
    (destruct fuel as [|fuel]; [cbn in Hf; lia|]); cbn [recv_chunks].
  - cbn [flat_map app atoms fst snd] in Hx.
    assert (whole g) as Hwg by (apply (whole_app g (concat gs)); rewrite Hx; constructor;
      [unfold size_line; by destruct last|by apply whole_app; split; [apply (whole_singles crlf)|]]).
    destruct (recv_chunk_head_ok buff_size fuel g gs last [] _ cl p Hb Hsz Hlast Hwg Hgs Hg Hx Herr)
      as (st & g1 & gs1 & Hr & Hc & Hd & Hgs1 & Hx1 & Hg1).
    rewrite (bind_Ret _ _ _ _ _ Hr). cbn beta iota. cbn [cparser_ set_cparser]. rewrite Hc, Hd.
    destruct (take_chunk_ok buff_size (S fuel) g1 gs1 [] after cl body Hb Hafter Hgs1 Hg1 Hx1) as (g2 & gs2 & Hr2 & _ & Hx2 & _);
      [cbn; lia|cbn in *; lia|].
    rewrite (bind_Ret _ _ _ _ _ Hr2). cbn beta iota. rewrite bool_decide_eq_true_2 by done.
    exists (set_cparser st p), g2, gs2. done.
  - apply Forall_cons in Hcs as [[Hc Hne] Hcs]. cbn [fst snd] in Hne.
    change (flat_map atoms ((h, d) :: chunks)) with ((size_line h :: singles (d ++ crlf)) ++ flat_map atoms chunks) in Hx, Hf.
    rewrite <- app_assoc in Hx. cbn [app] in Hx.
    set (R := flat_map atoms chunks ++ size_line last :: singles ([] ++ crlf) ++ after) in Hx.
    assert (whole R) as HR.
    { unfold R. apply whole_app. split.
      - apply Forall_flat_map, Forall_forall. intros [h' d'] _. unfold atoms. constructor; [unfold size_line; by destruct h'|apply whole_singles].
      - constructor; [unfold size_line; by destruct last|by apply whole_app; split; [apply whole_singles|]]. }
    assert (whole g) as Hwg by (apply (whole_app g (concat gs)); rewrite Hx; constructor;
      [unfold size_line; by destruct h|by apply whole_app; split; [apply whole_singles|]]).
    destruct (recv_chunk_head_ok buff_size fuel g gs h d _ cl p Hb Hsz Hc Hwg Hgs Hg Hx Herr)
      as (st & g1 & gs1 & Hr & Hcl & Hd & Hgs1 & Hx1 & Hg1).
    rewrite (bind_Ret _ _ _ _ _ Hr). cbn beta iota. cbn [cparser_ set_cparser]. rewrite Hcl, Hd.
    cbn [app length] in Hf. rewrite length_app, length_singles, length_app in Hf. change (length crlf) with 2%nat in Hf.
    destruct (take_chunk_ok buff_size (S fuel) g1 gs1 d R cl body Hb HR Hgs1 Hg1 Hx1) as (g2 & gs2 & Hr2 & Hgs2 & Hx2 & Hg2);
      [apply Hc|lia|].
    rewrite (bind_Ret _ _ _ _ _ Hr2). cbn beta iota. rewrite bool_decide_eq_false_2 by done.
    destruct (IH fuel g2 gs2 (set_cparser st p) (body ++ d) Hcs Hgs2 Hg2 Herr Hx2) as (p' & g' & gs' & Hr' & Hp' & Hx'); [lia|].
    exists p', g', gs'. rewrite Hr'. cbn [flat_map snd]. by rewrite app_assoc.
Qed.

(** C25: a chunked body is put together from the data of its chunks, whatever their
    sizes and however the sizes are written, when the stream is cut anywhere but inside
    the line of a size (where [cut_size_is_lost] applies) and each piece fits in the
    buffer; status, version, reason and headers are those of the head. *)
Theorem chunked_body_received (memory : Z) (to_uint64 : bytes → option Z) (gunzip inflate : bytes → bytes)
    (r : HttpResponse) (hs : list (bytes * bytes)) (chunks : list (bytes * bytes)) (last : bytes)
    (fuel buff_size : nat) (first : list bytes) (groups : list (list bytes)) (after : list bytes) :
  receivable r hs → existsb says_chunked hs = true → last_value hs (bs "content-encoding") None = None →
  Forall (λ c, good_chunk c ∧ c.2 ≠ []) chunks → good_chunk (last, []) → whole after →
  first ++ concat groups = flat_map atoms chunks ++ atoms (last, []) ++ after →
  (length (rsp_head r hs ++ concat first) ≤ buff_size)%nat → solid groups buff_size → Z.of_nat buff_size < 2 ^ 31 →
  (length (flat_map atoms chunks) + 5 < fuel)%nat →
  ∃ rsp s', RecvResponse to_uint64 gunzip inflate memory fuel buff_size
      (mkSession ((rsp_head r hs ++ concat first) :: map (@concat byte) groups) false) = Ret (Some rsp) s' ∧ closed s' = false ∧
    rsp_body_ rsp = flat_map snd chunks ∧ status_ rsp = status_ r ∧ rsp_version_ rsp = rsp_version_ r ∧
    reason_ rsp = printed_reason r ∧ ∀ key, map_find (rsp_headers_ rsp) key = last_value hs key None.
Proof.
  intros Hr Hch Hce Hchunks Hlast Hafter Hx Hhd Hgs Hbuf Hf. destruct fuel as [|fuel]; [lia|].
  assert (rsp_head r hs ++ concat first ≠ []) as Hne by (unfold rsp_head, status_line; done).
  destruct (recv_response_head_sent memory r hs fuel buff_size (concat first) _ _ Hr (Read_whole _ _ (map (@concat byte) groups) false Hne Hhd) Hhd Hbuf)
    as (st & Hh & Hk & Hb).
  unfold RecvResponse. rewrite (bind_Ret _ _ _ _ _ Hh). cbn beta iota. cbn [cparser_]. rewrite Hk, Hch.
  destruct (rsp_received_fields r hs) as (F1 & F2 & F3 & F4 & F5). set (d := rsp_received r hs _) in *.
  set (P := mkResponseParser st d 0).
  destruct (recv_chunks_ok buff_size false last after ltac:(lia) Hbuf Hlast Hafter chunks (S fuel) first groups P [] Hchunks Hgs Hb eq_refl Hx)
    as (p' & g' & gs' & Hr' & Hd & _); [lia|].
  rewrite (bind_Ret _ _ _ _ _ Hr'). do 2 eexists. split; [reflexivity|]. split; [done|].
  cbn [app]. rewrite Hd. change (cdata_ P) with d.
  assert (finish_response gunzip inflate d (flat_map snd chunks) =
    if bool_decide (flat_map snd chunks = []) then d else rsp_SetBody (flat_map snd chunks) d) as ->.
  { unfold finish_response, rsp_GetHeader. by rewrite F5, Hce. }
  case_bool_decide as Hb0; split_and!; try done. by rewrite F4, Hb0.
Qed.

(** A chunk of four letters and one of three, cut after the first letter and after the
    first line end. *)
Lemma chunked_body_received_witness : let hs := [(bs "Transfer-Encoding", bs "chunked")] in
  let r := new_HttpResponse 0x11 true in ∃ rsp s',
  RecvResponse digits id id 0 60 64 (mkSession
    [rsp_head r hs ++ size_line (bs "04") ++ bs "W"; bs "iki" ++ crlf; size_line (bs "3") ++ bs "ped" ++ crlf ++ size_line (bs "0") ++ crlf] false) =
    Ret (Some rsp) s' ∧ rsp_body_ rsp = bs "Wikiped".
Proof.
  cbn zeta. set (hs := [_]). set (r := new_HttpResponse _ _).
  destruct (chunked_body_received 0 digits id id r hs [(bs "04", bs "Wiki"); (bs "3", bs "ped")] (bs "0") 60 64
    [size_line (bs "04"); bs "W"] [singles (bs "iki" ++ crlf); size_line (bs "3") :: singles (bs "ped" ++ crlf) ++ size_line (bs "0") :: singles crlf] [])
    as (rsp & s' & Hr & _ & Hb & _).
  - split; [by left|by vm_compute|by vm_compute|by repeat constructor].
  - by vm_compute.
  - by vm_compute.
  - repeat constructor; done.
  - by repeat constructor.
  - constructor.
  - reflexivity.
  - vm_compute. lia.
  - apply Forall_cons; split; [|apply Forall_singleton]; (split; [discriminate|apply Nat.leb_le; reflexivity]).
  - lia.
  - vm_compute. lia.
  - exists rsp, s'. exact (conj Hr Hb).
Defined.
