(* ===== verification/HttpServer.v ===== *)
(** * The server: [http/http_server.cc]

    [SendDocument] over a file system given as a parameter, and [HandleClient], the
    loop that receives a request ([HttpSession.v]), answers it with a document or
    with a servlet ([Servlet.v]), prints the response ([Http.v]) and sends it
    ([Stream.v]). *)
From stdpp Require Import gmap list.
From S2P Require Import Prelude Strings CLib HttpTypes Http Servlet HttpSession Stream.

(** ** Documents *)

(** What the system knows of a name, a C string: [st_mode] and [st_size]; the names
    in a directory; and the content of a file that can be opened. *)
Class FileSystem := {
  fs_stat : bytes → option (Z * Z);
  fs_opendir : bytes → option (list bytes);
  fs_fopen : bytes → option bytes
}.

Definition S_IFREG : Z := 0x8000.
Definition S_IFDIR : Z := 0x4000.
Definition is_mode (kind mode : Z) : bool := bool_decide (Z.land kind mode = kind).

(** [strstr(s, "..")]. *)
Definition has_dotdot (s : bytes) : bool := match find_sub (bs "..") (c_str s) with Some _ => true | None => false end.

Definition per_size : nat := N.to_nat 4096.

Section documents.
Context `{FileSystem}.

(** The names given to the file system, in order. *)
Definition Names : Type := list bytes.
Definition stat (name : bytes) : M Names (option (Z * Z)) := modify (λ l, l ++ [c_str name]) ;; mret (fs_stat (c_str name)).
Definition opendir (name : bytes) : M Names (option (list bytes)) :=
  modify (λ l, l ++ [c_str name]) ;; mret (fs_opendir (c_str name)).
Definition OpenFile (name : bytes) : M Names (option bytes) := modify (λ l, l ++ [c_str name]) ;; mret (fs_fopen (c_str name)).
(** -1 when there is no file. *)
Definition GetFileSize (pf : option bytes) : Z :=
  match pf with Some content => s32 (Z.of_nat (length content)) | None => -1 end.

(** The reads: [rest] is the file from its position; [None] for a short read. *)
Fixpoint fread_loop (fuel : nat) (body rest : bytes) (size : nat) : M Names (option bytes) :=
  match fuel with
  | 0 => λ _, NoFuel
  | S fuel =>
    if per_size <? size then
      let d := take per_size rest in
      if length d =? per_size then fread_loop fuel (body ++ d) (drop per_size rest) (size - per_size) else mret None
    else
      let d := take size rest in
      mret (if length d =? size then Some (body ++ d) else None)
  end.

Definition lf : bytes := [byte.of_Z 10].
Definition page_head (path slash_ : bytes) : bytes :=
  bs "<!DOCTYPE html>" ++ lf ++ bs "<html>" ++ lf ++ bs " <head>" ++ lf ++ bs "  <meta charset='utf-8'>" ++ lf
  ++ bs "  <title>" ++ path ++ bs "</title>" ++ lf ++ bs "  <base href='" ++ path ++ slash_ ++ bs "'>" ++ lf
  ++ bs " </head>" ++ lf ++ bs " <body>" ++ lf ++ bs "  <h1>" ++ path ++ bs "</h1>" ++ lf ++ bs "  <ul>" ++ lf.
(** The format has quotation marks around the first [name]. *)
Definition page_entry (name : bytes) : bytes :=
  bs "    <li><a href=" ++ [byte.of_Z 34] ++ name ++ [byte.of_Z 34] ++ bs ">" ++ name ++ bs "</a>" ++ lf.
Definition listing (path : bytes) (names : list bytes) : bytes :=
  let slash_ := if bool_decide (path = []) || negb (bool_decide (last path = Some slash)) then [slash] else [] in
  page_head path slash_ ++ concat (map page_entry names) ++ bs "</ul></body></html>" ++ lf.

(** The two kinds of answers; [None] is [false]. *)
Definition send_directory (path obj_path : bytes) (rsp : HttpResponse) : M Names (option HttpResponse) :=
  d ← opendir obj_path;
  mret (match d with
        | None => None
        | Some names => Some (rsp_SetBody (listing (c_str path) names) (rsp_SetHeader (bs "Content-Type") (bs "text/html") rsp))
        end).

Definition send_file (obj_path : bytes) (st_size : Z) (rsp : HttpResponse) : M Names (option HttpResponse) :=
  if (256 * 1024 * 1024 <? st_size)%Z then mret None
  else
    fp ← OpenFile obj_path;
    let size := GetFileSize fp in
    if (size <? 0)%Z then throw length_error
    else
      body ← fread_loop (S (Z.to_nat size)) [] (default [] fp) (Z.to_nat size);
      mret (match body with
            | None => None
            | Some body => Some (rsp_SetHeader (bs "Content-Type") (GuessContentType obj_path) (rsp_SetBody body rsp))
            end).

(** What is to be sent: its name, whether it is a file, whether a directory, and
    [st]'s size. *)
Definition find_document (obj_path : bytes) (mode st_size : Z) : M Names (bytes * bool * bool * Z) :=
  let is_file_path := is_mode S_IFREG mode in
  let is_dir_path := is_mode S_IFDIR mode in
  if is_dir_path then
    let index_path := obj_path ++ bs "/index.html" in
    st ← stat index_path;
    mret (match st with
          | Some (mode, size) =>
            if is_mode S_IFREG mode then (index_path, true, false, size) else (obj_path, is_file_path, true, size)
          | None => (obj_path, is_file_path, true, st_size)
          end)
  else mret (obj_path, is_file_path, false, st_size).

Definition SendDocument (root_path : bytes) (request : HttpRequest) (rsp : HttpResponse) : M Names (option HttpResponse) :=
  let path := path_ request in
  let obj_path := root_path ++ path in
  if has_dotdot obj_path then mret None
  else
    st ← stat obj_path;
    match st with
    | None => mret None
    | Some (mode, size) =>
      '(obj_path, is_file_path, is_dir_path, size) ← find_document obj_path mode size;
      if is_dir_path : bool then send_directory path obj_path rsp
      else if is_file_path : bool then send_file obj_path size rsp
      else mret None
    end.
End documents.

(** ** The loop over the requests of a client *)

(** A client's connection: what it sends, what it is sent, and the names the server
    has given to the file system. *)
Record Client := mkClient { session : Session; wire : Wire; names : Names }.

Definition on_session {A} : M Session A → M Client A := zoom session (λ s c, mkClient s (wire c) (names c)).
Definition on_wire {A} : M Wire A → M Client A := zoom wire (λ w c, mkClient (session c) w (names c)).
Definition on_names {A} : M Names A → M Client A := zoom names (λ l c, mkClient (session c) (wire c) l).

Definition SendResponse (rsp : HttpResponse) : M Wire Z := WriteFixSize (rsp_ToString rsp).

Record HttpServer := mkServer { name_ : bytes; is_keepalive_ : bool; dispatch_ : ServletDispatch; root_path_ : bytes }.

(** [SetName] also changes the page for what is not found. *)
Definition SetName (v : bytes) (s : HttpServer) : HttpServer :=
  mkServer v (is_keepalive_ s)
    (mkDispatch (datas_ (dispatch_ s)) (globs_ (dispatch_ s)) (Some (new_NotFoundServlet v))) (root_path_ s).
Definition SetRoot (path : bytes) (s : HttpServer) : HttpServer :=
  mkServer (name_ s) (is_keepalive_ s) (dispatch_ s) path.

Section server.
Context `{Scanner} `{FileSystem}.
Variable to_uint64 : bytes → option Z.
Variable fnmatch : bytes → bytes → bool.
Variable call other : nat → HttpRequest → HttpResponse → HttpResponse.
Variable buff_size : nat.
Variable server : HttpServer.

(** The answer to one request. *)
Definition respond (req : HttpRequest) : M Names HttpResponse :=
  let rsp := rsp_SetHeader (bs "Server") (name_ server)
    (new_HttpResponse (version_ req) (close_ req || negb (is_keepalive_ server))) in
  sent ← SendDocument (root_path_ server) req rsp;
  mret (match sent with
        | Some rsp => rsp
        | None => (Dispatch_Handle fnmatch call other (dispatch_ server) req rsp).2
        end).

(** [fuel] bounds the requests and the reads of each. *)
Fixpoint handle_loop (n fuel : nat) : M Client unit :=
  match n with
  | 0 => λ _, NoFuel
  | S n =>
    req ← on_session (RecvRequest to_uint64 fuel buff_size);
    match req with
    | None => mret tt
    | Some req =>
      rsp ← on_names (respond req);
      on_wire (SendResponse rsp) ;;
      if negb (is_keepalive_ server) || close_ req then mret tt else handle_loop n fuel
    end
  end.

Definition HandleClient (fuel : nat) : M Client unit := handle_loop fuel fuel ;; on_session Close.
End server.
