(* ===== verification/HttpServerLaws.v ===== *)
(** * The server: its theorems

    Which names the server gives to the file system, what it sends for a file, that
    the loop over the requests of a client ends and what it has sent then. *)
From stdpp Require Import gmap list.
From S2P Require Import Prelude Strings CLib HttpTypes Http Servlet HttpSession Stream HttpServer.

(** ** Runs that may throw *)

(** Neither undefined nor out of fuel; [Q] of the state it ends in, with the value
    when it returns. *)
Definition ends {St A} (Q : option A → St → Prop) (r : result St A) : Prop :=
  match r with
  | Ret a s => Q (Some a) s
  | Throw e s => e = length_error ∧ Q None s
  | Undef _ | NoFuel => False
  end.

Lemma ends_bind {St A B} (m : M St A) (k : A → M St B) (P : option A → St → Prop) (Q : option B → St → Prop) s :
  ends P (m s) → (∀ s', P None s' → Q None s') → (∀ a s', P (Some a) s' → ends Q (k a s')) → ends Q ((m ≫= k) s).
Proof. unfold mbind, M_bind. destruct (m s); cbn; naive_solver. Qed.

Lemma ends_mono {St A} (P Q : option A → St → Prop) (r : result St A) : (∀ a s, P a s → Q a s) → ends P r → ends Q r.
Proof. destruct r; cbn; naive_solver. Qed.

(** ** Names *)

Lemma c_str_app_cases s t : c_str (s ++ t) = c_str s ∨ c_str (s ++ t) = c_str s ++ c_str t.
Proof.
  destruct (find_if (is_char (byte.of_Z 0)) s) as [i|] eqn:Hi.
  - left. unfold c_str. rewrite Hi. assert (find_if (is_char (byte.of_Z 0)) (s ++ t) = Some i) as ->.
    { clear -Hi. revert i Hi. induction s as [|c s IH]; intros i Hi; [done|]. cbn in *.
      destruct (is_char (byte.of_Z 0) c); [done|]. destruct (find_if _ s) as [j|]; [|done]. by rewrite (IH j). }
    apply take_app_le. clear -Hi. revert i Hi. induction s as [|c s IH]; intros i Hi; [done|]. cbn in *.
    destruct (is_char (byte.of_Z 0) c); [injection Hi as <-; lia|].
    destruct (find_if _ s) as [j|]; [|done]. injection Hi as <-. specialize (IH j eq_refl). lia.
  - right. rewrite c_str_app; [by unfold c_str at 2; rewrite Hi|].
    clear -Hi. induction s as [|c s IH]; [constructor|]. cbn in Hi. destruct (is_char (byte.of_Z 0) c) eqn:Hc; [done|].
    constructor; [done|]. apply IH. by destruct (find_if _ s).
Qed.

Definition dot : byte := byte.of_Z 46.
Lemma find_dots a c b : c ≠ dot → find_sub (bs "..") a = None → find_sub (bs "..") (c :: b) = None →
  find_sub (bs "..") (a ++ c :: b) = None.
Proof.
  intros Hc Ha Hb. induction a as [|x a IH]; [done|]. cbn [app find_sub] in Ha |- *.
  destruct (starts_with (bs "..") (x :: a)) eqn:Hs; [done|].
  assert (starts_with (bs "..") (x :: a ++ c :: b) = false) as ->.
  { change (bs "..") with [dot; dot] in *. cbn [starts_with] in *. destruct (bool_decide (dot = x)); [|done]. cbn [andb] in *.
    destruct a as [|y a]; [|done]. cbn [app starts_with]. rewrite andb_true_r. apply bool_decide_eq_false_2. by intros <-. }
  destruct (find_sub (bs "..") a); [done|]. by rewrite IH.
Qed.

Section documents.
Context `{FileSystem}.
Variable root : bytes.

(** A name below [root]: it begins with it and never goes up. *)
Definition below (n : bytes) : Prop := c_str root `prefix_of` n ∧ find_sub (bs "..") n = None.

Lemma below_obj path : has_dotdot (root ++ path) = false → below (c_str (root ++ path)).
Proof.
  unfold has_dotdot, below. intros Hd. split.
  - destruct (c_str_app_cases root path) as [->| ->]; [done|]. by eexists.
  - by destruct (find_sub (bs "..") (c_str (root ++ path))).
Qed.

Lemma below_index obj : below (c_str obj) → below (c_str (obj ++ bs "/index.html")).
Proof.
  intros [Hp Hd]. destruct (c_str_app_cases obj (bs "/index.html")) as [->| ->]; [by split|]. split.
  - by apply prefix_app_r.
  - by apply (find_dots (c_str obj) slash (bs "index.html")).
Qed.

(** The reads: all of the file, when it is as long as it said. *)
Lemma fread_loop_ok fuel : ∀ body rest size (l : Names), size < fuel →
  fread_loop fuel body rest size l = Ret (if size <=? length rest then Some (body ++ take size rest) else None) l.
Proof.
  assert (0 < per_size) as Hps by (unfold per_size; lia).
  induction fuel as [|fuel IH]; intros body rest size l Hf; [lia|]. cbn [fread_loop].
  destruct (Nat.ltb_spec per_size size) as [Hs|Hs]; rewrite length_take.
  - destruct (Nat.leb_spec size (length rest)) as [Hr|Hr].
    + rewrite (proj2 (Nat.eqb_eq _ _)) by lia. rewrite IH by lia. rewrite length_drop, (proj2 (Nat.leb_le _ _)) by lia.
      rewrite <- app_assoc, take_take_drop. by replace (per_size + (size - per_size)) with size by lia.
    + destruct (Nat.eqb_spec (per_size `min` length rest) per_size); [|done].
      rewrite IH by lia. rewrite length_drop. by rewrite (proj2 (Nat.leb_gt _ _)) by lia.
  - destruct (Nat.leb_spec size (length rest)); [by rewrite (proj2 (Nat.eqb_eq _ _)) by lia|by rewrite (proj2 (Nat.eqb_neq _ _)) by lia].
Qed.

Lemma send_file_ends obj size rsp l : ends (λ _ l', l' = l ∨ l' = l ++ [c_str obj]) (send_file obj size rsp l).
Proof.
  unfold send_file. destruct (_ <? size)%Z; [by left|].
  rewrite (bind_Ret _ _ _ (fs_fopen (c_str obj)) (l ++ [c_str obj])) by done.
  destruct (_ <? 0)%Z; [by split; [|right]|]. erewrite bind_Ret by (apply fread_loop_ok; lia). by right.
Qed.

(** The names a call gives to the file system. *)
Lemma SendDocument_names req rsp l : ends (λ _ l', ∃ ns, l' = l ++ ns ∧ Forall below ns) (SendDocument root req rsp l).
Proof.
  unfold SendDocument. set (obj := root ++ path_ req). destruct (has_dotdot obj) eqn:Hd.
  { exists []. by rewrite app_nil_r. }
  pose proof (below_obj (path_ req) Hd) as Hobj. fold obj in Hobj. pose proof (below_index obj Hobj) as Hidx.
  rewrite (bind_Ret _ _ _ (fs_stat (c_str obj)) (l ++ [c_str obj])) by done.
  destruct (fs_stat (c_str obj)) as [[mode size]|]; [|exists [c_str obj]; split; [done|by apply Forall_singleton]].
  apply (ends_bind _ _ (λ r l', ∃ ns, l' = l ++ ns ∧ Forall below ns ∧ match r with Some (o, _, _, _) => below (c_str o) | None => True end)).
  - unfold find_document. destruct (is_mode S_IFDIR mode).
    + rewrite (bind_Ret _ _ _ (fs_stat (c_str (obj ++ bs "/index.html"))) ((l ++ [c_str obj]) ++ [c_str (obj ++ bs "/index.html")])) by done.
      exists ([c_str obj] ++ [c_str (obj ++ bs "/index.html")]). rewrite app_assoc. split; [done|]. split; [by apply Forall_cons; split; [|apply Forall_singleton]|].
      destruct (fs_stat _) as [[m2 s2]|]; [destruct (is_mode _ m2)|]; done.
    + exists [c_str obj]. split; [done|]. split; [by apply Forall_singleton|done].
  - intros l' (ns & -> & Hns & _). by exists ns.
  - intros [[[o isf] isd] sz] l' (ns & -> & Hns & Ho). destruct isd; [|destruct isf].
    + exists (ns ++ [c_str o]). rewrite app_assoc. split; [done|]. apply Forall_app. split; [done|by apply Forall_singleton].
    + eapply ends_mono; [|apply send_file_ends]. intros r l' [->| ->]; [by exists ns|].
      exists (ns ++ [c_str o]). rewrite app_assoc. split; [done|]. apply Forall_app. split; [done|by apply Forall_singleton].
    + by exists ns.
Qed.
End documents.

(** ** What is sent for a file *)

Section files.
Context `{FileSystem}.
Variable root : bytes.

(** The document for a path, and its size: a regular file, or the index of a
    directory. *)
Inductive located (path : bytes) : bytes → Z → Prop :=
  | loc_file mode size : fs_stat (c_str (root ++ path)) = Some (mode, size) → is_mode S_IFDIR mode = false →
      is_mode S_IFREG mode = true → located path (root ++ path) size
  | loc_index mode size mode' size' : fs_stat (c_str (root ++ path)) = Some (mode, size) → is_mode S_IFDIR mode = true →
      fs_stat (c_str ((root ++ path) ++ bs "/index.html")) = Some (mode', size') → is_mode S_IFREG mode' = true →
      located path ((root ++ path) ++ bs "/index.html") size'.

Lemma located_send req rsp l doc size : has_dotdot (root ++ path_ req) = false → located (path_ req) doc size →
  ∃ l', SendDocument root req rsp l = send_file doc size rsp l'.
Proof.
  intros Hd Hl. unfold SendDocument. rewrite Hd. erewrite bind_Ret by reflexivity.
  destruct Hl as [mode size Hst Hdir Hreg|mode size mode' size' Hst Hdir Hst' Hreg]; rewrite Hst;
    unfold find_document; rewrite Hdir; [rewrite Hreg|]; eexists.
  - by erewrite bind_Ret by reflexivity.
  - unfold mbind at 1, M_bind at 1. erewrite bind_Ret by reflexivity. rewrite Hst', Hreg. reflexivity.
Qed.

(** A file that can be opened is sent whole, whatever its size up to 256 MiB: the
    reads in pieces of 4096 bytes put together are its content.  Its type is guessed
    from its name. *)
Theorem files_are_sent (req : HttpRequest) (rsp : HttpResponse) (l : Names) (doc : bytes) (size : Z) (content : bytes) :
  has_dotdot (root ++ path_ req) = false → located (path_ req) doc size → (size ≤ 2 ^ 28)%Z →
  fs_fopen (c_str doc) = Some content → (Z.of_nat (length content) < 2 ^ 31)%Z →
  ∃ l', SendDocument root req rsp l =
    Ret (Some (rsp_SetHeader (bs "Content-Type") (GuessContentType doc) (rsp_SetBody content rsp))) l'.
Proof.
  intros Hd Hl Hs Hc Hlen. destruct (located_send req rsp l doc size Hd Hl) as [l' ->]. unfold send_file.
  rewrite (proj2 (Z.ltb_ge _ _)) by lia. erewrite bind_Ret by reflexivity. rewrite Hc. cbn [GetFileSize default].
  rewrite swrap_small by (unfold in_s; lia). rewrite (proj2 (Z.ltb_ge _ _)) by lia. rewrite Nat2Z.id.
  erewrite bind_Ret by (apply fread_loop_ok; lia). rewrite Nat.leb_refl, firstn_all. by eexists.
Qed.

(** For a file the process may not open, [body.resize] is given -1 and throws: the
    exception leaves [HandleClient], and the client gets no answer. *)
Theorem unreadable_file_throws (req : HttpRequest) (rsp : HttpResponse) (l : Names) (doc : bytes) (size : Z) :
  has_dotdot (root ++ path_ req) = false → located (path_ req) doc size → (size ≤ 2 ^ 28)%Z → fs_fopen (c_str doc) = None →
  ∃ l', SendDocument root req rsp l = Throw length_error l'.
Proof.
  intros Hd Hl Hs Hc. destruct (located_send req rsp l doc size Hd Hl) as [l' ->]. unfold send_file.
  rewrite (proj2 (Z.ltb_ge _ _)) by lia. erewrite bind_Ret by reflexivity. rewrite Hc. by eexists.
Qed.
End files.

(** A directory with an index that cannot be opened, and a file of 5000 bytes. *)
#[local] Instance small_site : FileSystem := {
  fs_stat n := if bool_decide (n = bs "/srv/") then Some (0x41ED, 4096)%Z
               else if bool_decide (n = bs "/srv//index.html") then Some (0x8100, 12)%Z
               else if bool_decide (n = bs "/srv/a.txt") then Some (0x81A4, 5000)%Z else None;
  fs_opendir _ := None;
  fs_fopen n := if bool_decide (n = bs "/srv/a.txt") then Some (replicate (N.to_nat 5000) (byte.of_Z 65)) else None
}.

Lemma files_are_sent_witness : ∃ rsp l', SendDocument (bs "/srv") (SetPath (bs "/a.txt") (new_HttpRequest 0x11 true))
    (new_HttpResponse 0x11 false) [] = Ret (Some rsp) l' ∧ length (rsp_body_ rsp) = N.to_nat 5000 ∧
  map_find (rsp_headers_ rsp) (bs "content-type") = Some (bs "text/plain").
Proof.
  destruct (files_are_sent (bs "/srv") (SetPath (bs "/a.txt") (new_HttpRequest 0x11 true)) (new_HttpResponse 0x11 false) []
    (bs "/srv/a.txt") 5000 (replicate (N.to_nat 5000) (byte.of_Z 65))) as [l' Hl];
    [reflexivity|apply (loc_file (bs "/srv") (bs "/a.txt") 0x81A4 5000); reflexivity|lia|reflexivity|rewrite length_replicate; lia|].
  eexists _, l'. split; [exact Hl|]. split; [apply length_replicate|vm_compute; reflexivity].
Defined.

Lemma unreadable_file_throws_witness : ∃ l', SendDocument (bs "/srv") (SetPath (bs "/") (new_HttpRequest 0x11 true))
  (new_HttpResponse 0x11 false) [] = Throw length_error l'.
Proof.
  apply (unreadable_file_throws (bs "/srv") _ _ _ (bs "/srv//index.html") 12);
    [reflexivity|apply (loc_index (bs "/srv") (bs "/") 0x41ED 4096 0x8100 12); reflexivity|lia|reflexivity].
Defined.

(** ** What a call answers does not depend on the names already given *)

Definition shifted {A} (l : Names) (r : result Names A) : result Names A :=
  match r with Ret a l' => Ret a (l ++ l') | Throw e l' => Throw e (l ++ l') | Undef u => Undef u | NoFuel => NoFuel end.
Definition appends {A} (m : M Names A) : Prop := ∀ l, m l = shifted l (m []).

Lemma appends_ret {A} (a : A) : appends (mret a).
Proof. intros l. cbn. by rewrite app_nil_r. Qed.

Lemma appends_name {A} n (a : A) : appends (modify (λ l, l ++ [n]) ;; mret a).
Proof. by intros l. Qed.

Lemma appends_bind {A B} (m : M Names A) (k : A → M Names B) : appends m → (∀ a, appends (k a)) → appends (m ≫= k).
Proof.
  intros Hm Hk l. unfold mbind, M_bind. rewrite (Hm l). destruct (m []) as [a l'|e l'| |]; cbn; [|done..].
  rewrite (Hk a (l ++ l')), (Hk a l'). destruct (k a []); cbn; by rewrite <- ?app_assoc.
Qed.

Lemma appends_fread fuel : ∀ body rest size, appends (fread_loop fuel body rest size).
Proof.
  induction fuel as [|fuel IH]; intros body rest size l; [done|]. cbn [fread_loop].
  destruct (per_size <? size); [|apply appends_ret]. destruct (_ =? _); [apply IH|apply appends_ret].
Qed.

Section answers.
Context `{Scanner} `{FileSystem}.
Variable to_uint64 : bytes → option Z.
Variable fnmatch : bytes → bytes → bool.
Variable call other : nat → HttpRequest → HttpResponse → HttpResponse.
Variable server : HttpServer.

Lemma SendDocument_appends root req rsp : appends (SendDocument root req rsp).
Proof.
  unfold SendDocument. destruct (has_dotdot _); [apply appends_ret|].
  apply appends_bind; [apply appends_name|]. intros [[mode size]|]; [|apply appends_ret]. apply appends_bind.
  - unfold find_document. destruct (is_mode S_IFDIR mode); [|apply appends_ret].
    apply appends_bind; [apply appends_name|]. intros st. apply appends_ret.
  - intros [[[o isf] isd] sz]. destruct isd; [|destruct isf].
    + apply appends_bind; [apply appends_name|]. intros d. apply appends_ret.
    + unfold send_file. destruct (_ <? sz)%Z; [apply appends_ret|]. apply appends_bind; [apply appends_name|]. intros fp.
      destruct (_ <? 0)%Z; [intros l; cbn; by rewrite app_nil_r|]. apply appends_bind; [apply appends_fread|]. intros b. apply appends_ret.
    + apply appends_ret.
Qed.

(** The answer to a request: none when an exception ends the conversation. *)
Definition answer (req : HttpRequest) : option HttpResponse :=
  match respond fnmatch call other server req [] with Ret rsp _ => Some rsp | _ => None end.

Lemma respond_ends req l : ends (λ r l', r = answer req ∧ ∃ ns, l' = l ++ ns ∧ Forall (below (root_path_ server)) ns)
  (respond fnmatch call other server req l).
Proof.
  assert (appends (respond fnmatch call other server req)) as Ha.
  { apply appends_bind; [apply SendDocument_appends|]. intros sent. apply appends_ret. }
  unfold answer. rewrite (Ha l). unfold respond.
  set (rsp0 := rsp_SetHeader _ _ _). pose proof (SendDocument_names (root_path_ server) req rsp0 []) as Hn.
  unfold mbind, M_bind. destruct (SendDocument _ req rsp0 []) as [sent l'|e l'| |]; cbn in *; [|destruct Hn as [-> Hn]|done..];
    destruct Hn as (ns & -> & Hns); [|split; [done|]]; (split; [done|]); by exists ns.
Qed.

Lemma SendResponse_ok rsp c : ∃ r w' part, on_wire (SendResponse rsp) c = Ret r (mkClient (session c) w' (names c)) ∧
  sent w' = sent (wire c) ++ part ∧ part `prefix_of` rsp_ToString rsp.
Proof.
  destruct (WriteFixSize_ok (rsp_ToString rsp) (wire c)) as (r & w' & n & Hr & Hs & _).
  exists r, w', (take n (rsp_ToString rsp)). split_and!; [exact (zoom_Ret wire (λ w c, mkClient (session c) w (names c)) _ c r w' Hr)|done|]. exists (drop n (rsp_ToString rsp)). by rewrite take_drop.
Qed.

(** ** The loop *)

Variable buff_size : nat.
Hypothesis buff_ok : 0 < buff_size ∧ (Z.of_nat buff_size < 2 ^ 31)%Z.
Context `{!ScannerLaws H}.

(** [part] is a first part of the answer to [req]. *)
Definition answers (req : HttpRequest) (part : bytes) : Prop :=
  ∃ rsp, answer req = Some rsp ∧ part `prefix_of` rsp_ToString rsp.
Definition stays (req : HttpRequest) : Prop := is_keepalive_ server = true ∧ close_ req = false.

(** From [c] to [c'] these requests were answered, in order; all but the last one
    keep the connection. *)
Definition served (c c' : Client) : Prop :=
  (∃ ns, names c' = names c ++ ns ∧ Forall (below (root_path_ server)) ns) ∧
  ∃ reqs parts, sent (wire c') = sent (wire c) ++ concat parts ∧ Forall2 answers reqs parts ∧
    ∀ i req, reqs !! i = Some req → S i < length reqs → stays req.

Lemma served_nothing c c' : names c' = names c → wire c' = wire c → served c c'.
Proof.
  intros Hn Hw. split; [exists []; by rewrite app_nil_r|]. exists [], []. rewrite Hw, app_nil_r. split_and!; [done|constructor|intros i req Hi; by rewrite lookup_nil in Hi].
Qed.

Lemma served_one c c1 c' req ns part : names c1 = names c ++ ns → Forall (below (root_path_ server)) ns →
  sent (wire c1) = sent (wire c) ++ part → answers req part → (stays req ∨ wire c' = wire c1 ∧ names c' = names c1) →
  served c1 c' → served c c'.
Proof.
  intros Hn Hns Hw Ha Hst [(ns' & Hn' & Hns') (reqs & parts & Hs & H2 & Hall)]. split.
  { exists (ns ++ ns'). rewrite Hn', Hn, <- app_assoc. split; [done|]. by apply Forall_app. }
  destruct Hst as [Hst|[Hw' _]].
  - exists (req :: reqs), (part :: parts). cbn [concat]. rewrite Hs, Hw, <- app_assoc. split_and!; [done|by constructor|].
    intros [|i] r Hr Hi; [by injection Hr as <-|]. apply (Hall i); [done|cbn in Hi; lia].
  - exists [req], [part]. cbn [concat]. rewrite app_nil_r, Hw', Hw. split_and!; [done|by repeat constructor|].
    intros i r _ Hi. cbn in Hi. lia.
Qed.

Lemma handle_loop_ok n fuel : ∀ c, pieces (session c) → length (stream (session c)) < n → length (stream (session c)) < fuel →
  ends (λ _ c', served c c') (handle_loop to_uint64 fnmatch call other buff_size server n fuel c).
Proof.
  destruct buff_ok as [Hb0 Hb1]. induction n as [|n IH]; intros c Hp Hn Hf; [lia|]. cbn [handle_loop].
  destruct (RecvRequest_ok to_uint64 fuel buff_size (session c) Hp Hf Hb0 Hb1) as [[s' Hr]|(r & s' & Hr & Hres)].
  { erewrite bind_Throw by (by apply zoom_Throw). split; [done|]. by apply served_nothing. }
  erewrite bind_Ret by (by apply zoom_Ret). cbn beta. destruct r as [req|]; [|by apply served_nothing].
  destruct Hres as [Hp' Hlt]. set (c1 := mkClient s' (wire c) (names c)).
  apply (ends_bind _ _ (λ r c', r = answer req ∧ session c' = s' ∧ wire c' = wire c ∧
    ∃ ns, names c' = names c ++ ns ∧ Forall (below (root_path_ server)) ns)).
  { pose proof (respond_ends req (names c)) as He. unfold on_names, zoom, c1. cbn [names session wire].
    destruct (respond _ _ _ _ req (names c)); cbn in *; naive_solver. }
  { intros c2 (_ & _ & Hw & ns & Hns & Hb). split; [by exists ns|]. exists [], []. rewrite Hw, app_nil_r. split_and!; [done|constructor|intros i r Hi; by rewrite lookup_nil in Hi]. }
  intros rsp c2 (Ha & Hs2 & Hw2 & ns & Hns & Hb).
  destruct (SendResponse_ok rsp c2) as (rt & w' & part & Hsend & Hsent & Hpre). rewrite (bind_Ret _ _ _ _ _ Hsend).
  assert (answers req part) as Hans by (by exists rsp).
  destruct (negb (is_keepalive_ server) || close_ req) eqn:Hk.
  - cbn. apply (served_one c (mkClient (session c2) w' (names c2)) _ req ns part); [exact Hns|exact Hb|cbn; by rewrite Hsent, Hw2|exact Hans|by right|by apply served_nothing].
  - apply orb_false_iff in Hk as [Hk Hcl]. apply negb_false_iff in Hk.
    eapply ends_mono; cycle 1; [apply IH; cbn [session]; rewrite Hs2; (done || lia)|].
    intros r3 c3 Hc3. apply (served_one c (mkClient (session c2) w' (names c2)) _ req ns part); [exact Hns|exact Hb|cbn; by rewrite Hsent, Hw2|exact Hans|by left|exact Hc3].
Qed.

(** C12: the loop of [HandleClient] always ends, whatever a client sends and however
    the bytes arrive, with the connection closed unless an exception got out.  What
    was sent is, for the requests that came, in order, the answer of a document or
    of a servlet, or the first part of it when a send failed; the client or the
    server wanted the connection to stay open after each of them but the last; and
    every name given to the file system begins with the root of the documents and
    holds no step upwards. *)
Theorem HandleClient_serves (c : Client) (fuel : nat) : pieces (session c) → length (stream (session c)) < fuel →
  ends (λ r c', (r = Some tt → closed (session c') = true) ∧ served c c')
    (HandleClient to_uint64 fnmatch call other buff_size server fuel c).
Proof.
  intros Hp Hf. unfold HandleClient. apply (ends_bind _ _ (λ _ c', served c c')).
  - by apply handle_loop_ok.
  - intros c' Hc. by split.
  - intros [] c' [Hn Hs]. cbn. split; [done|]. by split.
Qed.
End answers.
