(* ===== verification/HttpConversation.v ===== *)
(** * A client and the server

    Requests that a client prints ([http/http.cc]) and sends one after the other, the
    server's loop over them ([http/http_server.cc]), and what the client is sent. *)
From stdpp Require Import gmap list.
From S2P Require Import Prelude Strings CLib HttpTypes Http HttpMessages Servlet HttpSession HttpParser HttpRoundtrip Stream HttpServer HttpServerLaws.

(** ** Receiving one of several requests *)

(** What can be sent so that it arrives: see [request_received]. *)
Record arrives (to_uint64 : bytes → option Z) (buff_size : nat) (r : HttpRequest) : Prop := {
  arr_sendable : sendable r;
  arr_headers : map_ok (headers_ r);
  arr_plain : websocket_ r = false;
  arr_no_length : map_find (headers_ r) (bs "content-length") = None;
  arr_cast : to_uint64 (dec (N.of_nat (length (body_ r)))) = Some (Z.of_nat (length (body_ r)));
  arr_body : (Z.of_nat (length (body_ r)) < 2 ^ 31)%Z;
  arr_head : length (head_of r) ≤ buff_size
}.

(** The pieces in which a request arrives: its head in one piece, with the start of
    its body. *)
Record cut := mkCut { first : bytes; others : list bytes }.
Definition cut_of (r : HttpRequest) (k : cut) : Prop := Forall (λ c, c ≠ []) (others k) ∧ first k ++ concat (others k) = body_ r.
Definition pieces_of (r : HttpRequest) (k : cut) : list bytes := (head_of r ++ first k) :: others k.

Lemma head_not_nil r : head_of r ≠ [].
Proof. unfold head_of, request_line. by destruct (HttpMethodToString _). Qed.

(** The first read, and the pieces it leaves. *)
Definition leftover (n : nat) (s : bytes) : list bytes := if bool_decide (drop n s = []) then [] else [drop n s].

Lemma leftover_nonempty n s : Forall (λ c, c ≠ []) (leftover n s).
Proof. unfold leftover. case_bool_decide; by repeat constructor. Qed.

Lemma leftover_concat n s : take n s ++ concat (leftover n s) = s.
Proof.
  unfold leftover. case_bool_decide as Hd; cbn [concat]; [|by rewrite app_nil_r, take_drop].
  rewrite app_nil_r. rewrite <- (take_drop n s) at 2. by rewrite Hd, app_nil_r.
Qed.

Lemma first_read_leaves hd behind rest n : hd ≠ [] → length hd ≤ n →
  Read n (mkSession ((hd ++ behind) :: rest) false) =
    Ret (Some (hd ++ take (n - length hd) behind)) (mkSession (leftover (n - length hd) behind ++ rest) false).
Proof.
  intros Hne Hn. unfold Read, mbind, M_bind, get. cbn [net]. destruct (hd ++ behind) as [|c l] eqn:Hc; [by destruct hd|].
  rewrite <- Hc. rewrite (proj2 (Nat.eqb_neq n 0)) by (destruct hd; [done|cbn in Hn; lia]).
  cbn. rewrite take_app, (take_ge hd), drop_app, (drop_ge hd) by done. cbn [app]. unfold leftover.
  by case_bool_decide.
Qed.

Section receive.
Variable memory : Z.
Variable relaxed : bool.
Variable to_uint64 : bytes → option Z.
Variable buff_size : nat.
Hypothesis buff_ok : (Z.of_nat buff_size < 2 ^ 31)%Z.
#[local] Instance scanner : Scanner := request_scanner memory relaxed.

(** A body that ends with a piece. *)
Lemma recv_body_exact r fuel p buffer rest later : arrives to_uint64 buff_size r → body_ (data_ p) = [] →
  GetContentLength to_uint64 p = Z.of_nat (length (body_ r)) → Forall (λ c, c ≠ []) rest → buffer ++ concat rest = body_ r →
  length (body_ r) < fuel →
  recv_body to_uint64 fuel p buffer (mkSession (rest ++ later) false) =
    Ret (Some (Init (if bool_decide (body_ r = []) then data_ p else SetBody (body_ r) (data_ p)))) (mkSession later false).
Proof.
  intros Ha Hb0 Hc Hr Hb Hf. pose proof (arr_body _ _ _ Ha) as Hlen. unfold recv_body. rewrite Hc.
  rewrite swrap_small by (unfold in_s; lia). rewrite Nat2Z.id.
  assert (length (body_ r) = length buffer + length (concat rest)) as Hl by (by rewrite <- Hb, length_app).
  assert (concat rest = [] → rest = []) as Hnil by (destruct Hr as [|c ? Hc' _]; [done|by destruct c]).
  case_bool_decide as He.
  { rewrite He in *. apply app_nil in Hb as [-> Hb]. by rewrite (Hnil Hb). }
  assert (0 < length (body_ r)) as H0 by (destruct (body_ r); [done|cbn; lia]).
  rewrite (proj2 (Z.ltb_lt _ _)) by lia. cbn zeta. rewrite take_ge by lia.
  destruct (Nat.eqb_spec (length (body_ r) - length buffer) 0) as [H00|H00].
  { assert (concat rest = []) as Hcr by (apply nil_length_inv; lia). rewrite (Hnil Hcr). rewrite Hcr, app_nil_r in Hb. by subst. }
  replace (length (body_ r) - length buffer) with (length (concat rest)) by lia.
  unfold ReadFixSize, mbind, M_bind. rewrite ReadFixSize_loop_exact by (done || lia). cbn [mret M_ret]. cbn beta iota.
  rewrite swrap_small by (unfold in_s; lia). rewrite (proj2 (Z.leb_gt _ _)) by lia. by rewrite Hb.
Qed.

(** A request that arrives in pieces of its own is received, and what follows it stays
    as it is. *)
Lemma RecvRequest_exact r k later fuel : arrives to_uint64 buff_size r → cut_of r k → length (body_ r) < fuel → ∃ req,
  RecvRequest to_uint64 fuel buff_size (mkSession (pieces_of r k ++ later) false) = Ret (Some req) (mkSession later false) ∧
  same_request req r.
Proof.
  intros Ha [Hk Hb] Hf. pose proof (arr_head _ _ _ Ha) as Hh. destruct fuel as [|fuel]; [lia|].
  pose proof (first_read_leaves (head_of r) (first k) (others k ++ later) buff_size (head_not_nil r) Hh) as Hread.
  destruct (RecvRequest_after_head memory relaxed to_uint64 r fuel buff_size _ _ _ (arr_sendable _ _ _ Ha) buff_ok Hread) as [st Hst].
  { rewrite length_app, length_take. lia. }
  eexists. split; [|apply (received_same r (arr_headers _ _ _ Ha) (arr_plain _ _ _ Ha))].
  unfold pieces_of. cbn [app]. unfold scanner. rewrite Hst, app_assoc. apply recv_body_exact; try done.
  - by destruct (received_fields r) as (_ & _ & _ & _ & _ & ? & _).
  - by apply content_length_sent; destruct Ha.
  - apply Forall_app. split; [apply leftover_nonempty|done].
  - rewrite concat_app, app_assoc, leftover_concat. done.
Qed.
End receive.

(** ** The conversation *)

(** Regular files can be opened, and are not too long. *)
Definition honest (F : FileSystem) : Prop :=
  (∀ n mode size, fs_stat n = Some (mode, size) → is_mode S_IFREG mode = true → fs_fopen n ≠ None) ∧
  (∀ n content, fs_fopen n = Some content → (Z.of_nat (length content) < 2 ^ 31)%Z).

Section conversation.
Variable memory : Z.
Variable relaxed : bool.
Context `{FS : FileSystem}.
Variable to_uint64 : bytes → option Z.
Variable fnmatch : bytes → bytes → bool.
Variable call other : nat → HttpRequest → HttpResponse → HttpResponse.
Variable buff_size : nat.
Variable server : HttpServer.
Hypothesis buff_ok : (Z.of_nat buff_size < 2 ^ 31)%Z.
Hypothesis FS_honest : honest FS.
#[local] Instance server_scanner : Scanner := request_scanner memory relaxed.

Abbreviation answer := (answer fnmatch call other server).
Abbreviation loop := (handle_loop to_uint64 fnmatch call other buff_size server).

Lemma send_file_answers obj size rsp l : fs_fopen (c_str obj) ≠ None → ∃ r l', send_file obj size rsp l = Ret r l'.
Proof.
  intros Hf. unfold send_file. destruct (_ <? size)%Z; [by do 2 eexists|]. erewrite bind_Ret by reflexivity.
  destruct (fs_fopen (c_str obj)) as [content|] eqn:Hc; [|done]. cbn [GetFileSize default].
  rewrite swrap_small by (pose proof (proj2 FS_honest _ _ Hc); unfold in_s; lia).
  rewrite (proj2 (Z.ltb_ge _ _)) by lia. erewrite bind_Ret by (apply fread_loop_ok; lia). by do 2 eexists.
Qed.

(** Every request has an answer. *)
Lemma SendDocument_answers req rsp l : ∃ r l', SendDocument (root_path_ server) req rsp l = Ret r l'.
Proof.
  unfold SendDocument. set (obj := root_path_ server ++ path_ req). destruct (has_dotdot obj); [by do 2 eexists|].
  erewrite bind_Ret by reflexivity. destruct (fs_stat (c_str obj)) as [[mode size]|] eqn:Hst; [|by do 2 eexists].
  unfold find_document. destruct (is_mode S_IFDIR mode).
  - unfold mbind at 1, M_bind at 1. erewrite bind_Ret by reflexivity. cbn [mret M_ret].
    destruct (fs_stat (c_str (obj ++ bs "/index.html"))) as [[m2 s2]|] eqn:Hst2; [|by do 2 eexists].
    destruct (is_mode S_IFREG m2) eqn:Hm2; [|by do 2 eexists].
    apply send_file_answers. by apply (proj1 FS_honest _ _ _ Hst2).
  - erewrite bind_Ret by reflexivity. cbn beta iota. destruct (is_mode S_IFREG mode) eqn:Hm; [|by do 2 eexists].
    apply send_file_answers. by apply (proj1 FS_honest _ _ _ Hst).
Qed.

Lemma respond_answers req l : ∃ rsp l', respond fnmatch call other server req l = Ret rsp l' ∧ answer req = Some rsp.
Proof.
  pose proof (respond_ends fnmatch call other server req l) as He.
  destruct (SendDocument_answers req (rsp_SetHeader (bs "Server") (name_ server)
    (new_HttpResponse (version_ req) (close_ req || negb (is_keepalive_ server)))) l) as (r & l' & Hr).
  assert (∃ rsp, respond fnmatch call other server req l = Ret rsp l') as [rsp Hrsp].
  { unfold respond. rewrite (bind_Ret _ _ _ _ _ Hr). by eexists. }
  exists rsp, l'. split; [done|]. rewrite Hrsp in He. by destruct He as [<- _].
Qed.

(** One turn of the loop. *)
Lemma loop_turn n fuel r k later w ns : arrives to_uint64 buff_size r → cut_of r k → length (body_ r) < fuel →
  ∃ req rsp w' ns', same_request req r ∧ answer req = Some rsp ∧
    (∃ part, sent w' = sent w ++ part) ∧
    (∀ m, willing (length (rsp_ToString rsp) + m) w → sent w' = sent w ++ rsp_ToString rsp ∧ willing m w') ∧
    loop (S n) fuel (mkClient (mkSession (pieces_of r k ++ later) false) w ns) =
      (if negb (is_keepalive_ server) || close_ r then mret tt else loop n fuel) (mkClient (mkSession later false) w' ns').
Proof.
  intros Ha Hk Hf. destruct (RecvRequest_exact memory relaxed to_uint64 buff_size buff_ok r k later fuel Ha Hk Hf) as (req & Hr & Hsame).
  change (scanner memory relaxed) with server_scanner in Hr.
  destruct (respond_answers req ns) as (rsp & ns' & Hrsp & Hans).
  destruct (WriteFixSize_ok (rsp_ToString rsp) w) as (rt & w' & n' & Hw & Hs & _).
  exists req, rsp, w', ns'. split; [done|]. split; [done|]. split; [by eexists|]. split.
  { intros m Hm. destruct (WriteFixSize_willing (rsp_ToString rsp) w m Hm) as (w2 & Hw2 & Hs2 & Hm2). rewrite Hw in Hw2.
    injection Hw2 as _ <-. done. }
  cbn [handle_loop]. erewrite bind_Ret by (by apply zoom_Ret). cbn beta iota.
  erewrite bind_Ret by (by apply zoom_Ret). cbn beta iota.
  erewrite bind_Ret by (by apply zoom_Ret). cbn [session wire names].
  destruct Hsame as (_ & _ & _ & _ & _ & _ & -> & _). by destruct (_ || _).
Qed.

(** What the client is sent when every byte finds room. *)
Definition printed (rsps : list HttpResponse) : bytes := concat (map rsp_ToString rsps).
Definition all_sent (rsps : list HttpResponse) (w w' : Wire) : Prop :=
  ∀ m, willing (length (printed rsps) + m) w → sent w' = sent w ++ printed rsps ∧ willing m w'.

Lemma all_sent_cons rsp rsps w w1 w' :
  (∀ m, willing (length (rsp_ToString rsp) + m) w → sent w1 = sent w ++ rsp_ToString rsp ∧ willing m w1) →
  all_sent rsps w1 w' → all_sent (rsp :: rsps) w w'.
Proof.
  unfold all_sent, printed. cbn [map concat]. intros H1 H2 m Hm. rewrite length_app, <- Nat.add_assoc in Hm.
  destruct (H1 _ Hm) as [Hs Hm1]. destruct (H2 _ Hm1) as [-> Hm2]. by rewrite Hs, <- app_assoc.
Qed.

(** The requests after which both sides keep the connection. *)
Definition kept (r : HttpRequest) : Prop := is_keepalive_ server = true ∧ close_ r = false.

Lemma loop_kept rs : ∀ ks n fuel w ns tail, Forall (arrives to_uint64 buff_size) rs → Forall2 cut_of rs ks →
  Forall (λ r, length (body_ r) < fuel) rs → Forall kept rs →
  ∃ reqs rsps w' ns', loop (length rs + n) fuel (mkClient (mkSession (concat (zip_with pieces_of rs ks) ++ tail) false) w ns) =
      loop n fuel (mkClient (mkSession tail false) w' ns') ∧
    Forall2 same_request reqs rs ∧ Forall2 (λ req rsp, answer req = Some rsp) reqs rsps ∧ all_sent rsps w w'.
Proof.
  induction rs as [|r rs IH]; intros ks n fuel w ns tail Ha Hk Hf Hc.
  - apply Forall2_nil_inv_l in Hk as ->. exists [], [], w, ns. split_and!; [done|constructor|constructor|].
    intros m Hm. by rewrite app_nil_r.
  - apply Forall2_cons_inv_l in Hk as (k & ks' & Hk & Hks & ->). apply Forall_cons in Ha as [Ha Has].
    apply Forall_cons in Hf as [Hf Hfs]. apply Forall_cons in Hc as [[Hc Hcl] Hcs]. cbn [zip_with concat length Nat.add].
    destruct (loop_turn (length rs + n) fuel r k (concat (zip_with pieces_of rs ks') ++ tail) w ns Ha Hk Hf)
      as (req & rsp & w1 & ns1 & Hsame & Hans & _ & Hw & Hrun).
    rewrite Hc, Hcl in Hrun. rewrite <- app_assoc, Hrun.
    destruct (IH ks' n fuel w1 ns1 tail) as (reqs & rsps & w' & ns' & Hr & H1 & H2 & Hall); [done..|].
    exists (req :: reqs), (rsp :: rsps), w', ns'. split_and!; [done|by constructor|by constructor|by eapply all_sent_cons].
Qed.

(** C13: a client that prints its requests and sends them one after the other, each in
    pieces of its own, its head in one of them and its body cut in any way, is sent the
    answers to them, in order and in full, and the connection is then closed: the loop of [HandleClient] with the generated scanner,
    its callbacks, the documents, the servlets and the sending.  What the server
    answers to is the request that was sent.  It is enough that both sides keep the
    connection until the last request, behind which nothing is read any more, that
    regular files can be opened, and that the kernel takes what is sent, in whatever
    pieces. *)
Theorem conversation_answered (rs : list HttpRequest) (ks : list cut) (z : HttpRequest) (kz : cut) (later : list bytes)
    (fuel : nat) (w : Wire) :
  Forall (arrives to_uint64 buff_size) (rs ++ [z]) → Forall2 cut_of (rs ++ [z]) (ks ++ [kz]) →
  Forall (λ r, length (body_ r) < fuel) (rs ++ [z]) → length rs < fuel → length rs = length ks → Forall kept rs → ¬ kept z →
  ∃ reqs rsps c', HandleClient to_uint64 fnmatch call other buff_size server fuel
      (mkClient (mkSession (concat (zip_with pieces_of rs ks) ++ pieces_of z kz ++ later) false) w []) = Ret tt c' ∧
    closed (session c') = true ∧ Forall2 same_request reqs (rs ++ [z]) ∧
    Forall2 (λ req rsp, answer req = Some rsp) reqs rsps ∧
    (willing (length (printed rsps)) w → sent (wire c') = sent w ++ printed rsps).
Proof.
  intros Ha Hk Hf Hn Hlen Hkept Hz. apply Forall_app in Ha as [Ha [Haz _]%Forall_cons]. apply Forall_app in Hf as [Hf [Hfz _]%Forall_cons].
  apply Forall2_app_inv in Hk as [Hk Hkz]; [|done]. apply Forall2_cons in Hkz as [Hkz _].
  destruct (loop_kept rs ks (fuel - length rs) fuel w [] (pieces_of z kz ++ later) Ha Hk Hf Hkept)
    as (reqs & rsps & w' & ns' & Hr & H1 & H2 & Hall).
  replace (length rs + (fuel - length rs)) with fuel in Hr by lia.
  destruct (fuel - length rs) as [|n] eqn:Hfn; [lia|].
  destruct (loop_turn n fuel z kz later w' ns' Haz Hkz Hfz) as (req & rsp & w2 & ns2 & Hsame & Hans & _ & Hw & Hrun).
  assert (negb (is_keepalive_ server) || close_ z = true) as Hend.
  { unfold kept in Hz. destruct (is_keepalive_ server), (close_ z); try done. by destruct Hz. }
  rewrite Hend in Hrun. exists (reqs ++ [req]), (rsps ++ [rsp]). eexists. split.
  { unfold HandleClient. erewrite bind_Ret; [reflexivity|]. by rewrite Hr, Hrun. }
  cbn [session closed wire]. split; [done|]. split; [apply Forall2_app; [done|apply Forall2_cons; by split]|].
  split; [apply Forall2_app; [done|apply Forall2_cons; by split]|]. unfold printed in *. rewrite map_app, concat_app, length_app.
  cbn [map concat]. rewrite app_nil_r. intros Hm. destruct (Hall _ Hm) as [Hs1 Hm1].
  destruct (Hw 0) as [Hs2 _]; [by rewrite Nat.add_0_r|]. by rewrite Hs2, Hs1, <- app_assoc.
Qed.
End conversation.

(** Bytes that come behind a request in the same read are thrown away with the
    buffer of [RecvRequest]: a second request sent without waiting for the answer to
    the first is lost. *)
Theorem pipelined_request_lost (memory : Z) (relaxed : bool) (to_uint64 : bytes → option Z) (buff_size fuel : nat)
    (r : HttpRequest) (behind : bytes) : let _ := request_scanner memory relaxed in
  arrives to_uint64 buff_size r → (Z.of_nat buff_size < 2 ^ 31)%Z → length (ToString r ++ behind) ≤ buff_size → 0 < fuel →
  ∃ req, RecvRequest to_uint64 fuel buff_size (mkSession [ToString r ++ behind] false) = Ret (Some req) (mkSession [] false) ∧
    same_request req r.
Proof.
  intros sc Ha Hb Hl Hf. destruct fuel as [|fuel]; [lia|].
  assert (ToString r ++ behind = head_of r ++ body_ r ++ behind) as He.
  { rewrite ToString_lines. unfold head_of. by rewrite <- !app_assoc. }
  rewrite He in *. pose proof (arr_head _ _ _ Ha) as Hh.
  pose proof (first_read_leaves (head_of r) (body_ r ++ behind) [] buff_size (head_not_nil r) Hh) as Hread.
  rewrite length_app in Hl. rewrite take_ge in Hread by lia.
  assert (leftover (buff_size - length (head_of r)) (body_ r ++ behind) = []) as Hleft.
  { unfold leftover. rewrite drop_ge by lia. by rewrite bool_decide_true. }
  rewrite Hleft in Hread.
  destruct (RecvRequest_after_head memory relaxed to_uint64 r fuel buff_size _ _ _ (arr_sendable _ _ _ Ha) Hb Hread) as [st Hst].
  { rewrite length_app. lia. }
  unfold sc. rewrite Hst. eexists. split; [|apply (received_same r (arr_headers _ _ _ Ha) (arr_plain _ _ _ Ha))].
  unfold recv_body. rewrite content_length_sent by (destruct Ha; done).
  pose proof (arr_body _ _ _ Ha). rewrite swrap_small by (unfold in_s; lia). rewrite Nat2Z.id.
  case_bool_decide as Hbody; [by rewrite Hbody|].
  assert (0 < length (body_ r)) by (destruct (body_ r); [done|cbn; lia]). rewrite (proj2 (Z.ltb_lt _ _)) by lia.
  cbn zeta. rewrite length_app, take_app_length. by rewrite (proj2 (Nat.eqb_eq _ 0)) by lia.
Qed.

(** ** Examples *)

(** Nothing can be found, so everything is answered by the page for that. *)
Definition empty_site : FileSystem := {| fs_stat _ := None; fs_opendir _ := None; fs_fopen _ := None |}.
Definition keeping : HttpServer := mkServer (bs "ygw/1.0.0") true new_ServletDispatch (bs "/srv").
Definition first_request : HttpRequest := set_close_ false post.
Definition last_request : HttpRequest := set_close_ true (SetPath (bs "/last") post).

Lemma example_arrives b p : good_path p = true →
  arrives digits 300 (set_close_ b (SetPath p post)) ↔ length (head_of (set_close_ b (SetPath p post))) ≤ 300.
Proof.
  intros Hp. split; [intros H; apply H|]. intros Hh. constructor; try done.
  - split; [done|by left|exact Hp|by vm_compute..|repeat constructor].
  - repeat constructor; by vm_compute.
Qed.

Lemma conversation_answered_witness : let F := empty_site in
  let w := mkWire [] (replicate 2000 7%Z) in ∃ reqs rsps c',
  HandleClient (H := request_scanner 0 false) digits (λ _ _, false) (λ _ _ r, r) (λ _ _ r, r) 300 keeping 10
    (mkClient (mkSession (concat (zip_with pieces_of [first_request] [mkCut (bs "x=") [bs "1"]])
      ++ pieces_of last_request (mkCut [] [bs "x"; bs "=1"]) ++ [bs "GET /ignored HTTP/1.1"]) false) w []) = Ret tt c' ∧
  closed (session c') = true ∧ Forall2 same_request reqs [first_request; last_request] ∧
  Forall2 (λ req rsp, answer (λ _ _, false) (λ _ _ r, r) (λ _ _ r, r) keeping req = Some rsp) reqs rsps ∧
  (willing (length (printed rsps)) w → sent (wire c') = [] ++ printed rsps).
Proof.
  intros F w. apply (conversation_answered 0 false digits (λ _ _, false) (λ _ _ r, r) (λ _ _ r, r) 300 keeping).
  - lia.
  - split; done.
  - repeat constructor; apply example_arrives; vm_compute; (done || lia).
  - repeat constructor; by vm_compute.
  - repeat constructor; vm_compute; lia.
  - cbn. lia.
  - done.
  - by repeat constructor.
  - by intros [_ ?].
Defined.

Lemma pipelined_request_lost_witness : let _ := request_scanner 0 false in
  ∃ req, RecvRequest digits 10 300 (mkSession [ToString first_request ++ bs "GET / HTTP/1.1"] false) = Ret (Some req) (mkSession [] false) ∧
    same_request req first_request.
Proof.
  apply (pipelined_request_lost 0 false digits 300 10 first_request (bs "GET / HTTP/1.1"));
    [apply (example_arrives false (bs "/p")); vm_compute; (done || lia)|lia|vm_compute; lia|lia].
Defined.

Lemma HandleClient_serves_witness : let F := empty_site in let sc := request_scanner 0 false in
  let c := mkClient (mkSession [ToString first_request; bs "GET"] false) (mkWire [] [9; 4]%Z) [] in
  ends (λ r c', (r = Some tt → closed (session c') = true) ∧ served (λ _ _, false) (λ _ _ r, r) (λ _ _ r, r) keeping c c')
    (HandleClient digits (λ _ _, false) (λ _ _ r, r) (λ _ _ r, r) 300 keeping 2000 c).
Proof.
  intros F sc c. apply (HandleClient_serves digits (λ _ _, false) (λ _ _ r, r) (λ _ _ r, r) keeping 300).
  - split; lia.
  - apply http_scanner_laws.
  - by repeat constructor.
  - vm_compute. lia.
Defined.
