(* ===== verification/ConnectionPool.v ===== *)
(** * The pool of client connections: [http/http_connection.cc]

    Idle connections wait in a list; one that is lent comes back through
    [ReleasePtr].  Whether a connection is connected, the clock, and whether a new
    connection can be made are given by the environment of a step. *)
From stdpp Require Import sets list.
From S2P Require Import Prelude.

Local Open Scope Z_scope.

(** [name] tells connections apart; [connected] is [IsConnected()]. *)
Record HttpConnection := mkConn { name : nat; create_time_ : Z; request_ : Z; connected : bool }.

(** The constructor: nothing assigns [create_time_] later. *)
Definition new_HttpConnection (name : nat) : HttpConnection := mkConn name 0 0 true.

(** [lent] are the connections that are out with their users. *)
Record HttpConnectionPool := mkPool {
  max_alive_time_ : Z;
  max_request_ : Z;
  conns_ : list HttpConnection;
  total_ : Z;
  lent : list HttpConnection
}.

Definition new_HttpConnectionPool (max_alive_time max_request : Z) : HttpConnectionPool :=
  mkPool max_alive_time max_request [] 0 [].

(** [create_time_ + max_alive_time_] on [uint64_t]. *)
Definition end_of_life (max_alive : Z) (c : HttpConnection) : Z := u64 (create_time_ c + max_alive).

(** The loop over the list: the connections to delete, the one found, the rest. *)
Fixpoint take_conn (now_ms max_alive : Z) (conns : list HttpConnection)
    : list HttpConnection * option HttpConnection * list HttpConnection :=
  match conns with
  | [] => ([], None, [])
  | conn :: conns =>
    let '(invalid, ptr, rest) := take_conn now_ms max_alive conns in
    if negb (connected conn) then (conn :: invalid, ptr, rest)
    else if now_ms <? end_of_life max_alive conn then (conn :: invalid, ptr, rest)
    else ([], Some conn, conns)
  end.

(** [connect]: the name of the new connection, or [None] when one of the steps to
    it fails.  The result is the connection, if any. *)
Definition GetConnection (now_ms : Z) (connect : option nat) (p : HttpConnectionPool)
    : option HttpConnection * HttpConnectionPool :=
  let '(invalid_conns, ptr, conns) := take_conn now_ms (max_alive_time_ p) (conns_ p) in
  let total := swrap 32 (total_ p - Z.of_nat (length invalid_conns)) in
  match ptr with
  | Some c => (Some c, mkPool (max_alive_time_ p) (max_request_ p) conns total (c :: lent p))
  | None =>
    match connect with
    | Some c => (Some (new_HttpConnection c), mkPool (max_alive_time_ p) (max_request_ p) conns
                   (swrap 32 (total + 1)) (new_HttpConnection c :: lent p))
    | None => (None, mkPool (max_alive_time_ p) (max_request_ p) conns total (lent p))
    end
  end.

(** The deleter of the [i]-th connection that is out, in the state it is in now. *)
Definition ReleasePtr (now_ms : Z) (i : nat) (p : HttpConnectionPool) : HttpConnectionPool :=
  match lent p !! i with
  | None => p
  | Some c =>
    let c := mkConn (name c) (create_time_ c) (u64 (request_ c + 1)) (connected c) in
    let out := delete i (lent p) in
    if negb (connected c) || (now_ms <=? end_of_life (max_alive_time_ p) c) || (max_request_ p <=? request_ c)
    then mkPool (max_alive_time_ p) (max_request_ p) (conns_ p) (swrap 32 (total_ p - 1)) out
    else mkPool (max_alive_time_ p) (max_request_ p) (conns_ p ++ [c]) (total_ p) out
  end.

(** ** Runs *)

Definition disconnect (c : HttpConnection) : HttpConnection := mkConn (name c) (create_time_ c) (request_ c) false.

Inductive pool_event :=
  | EGet (now_ms : Z) (connect : option nat)
  | ERelease (now_ms : Z) (i : nat)
  | EDropIdle (i : nat)      (* an idle connection is lost *)
  | EDropLent (i : nat).     (* and one that is out *)

Definition run_pool (e : pool_event) (p : HttpConnectionPool) : HttpConnectionPool :=
  match e with
  | EGet now connect => (GetConnection now connect p).2
  | ERelease now i => ReleasePtr now i p
  | EDropIdle i => mkPool (max_alive_time_ p) (max_request_ p) (alter disconnect i (conns_ p)) (total_ p) (lent p)
  | EDropLent i => mkPool (max_alive_time_ p) (max_request_ p) (conns_ p) (total_ p) (alter disconnect i (lent p))
  end.

(** The clock, which counts from 1970, is past the life of a connection. *)
Definition late (max_alive : Z) (e : pool_event) : Prop :=
  match e with EGet now _ | ERelease now _ => max_alive < now | _ => True end.

(** ** What the loop does *)

Lemma take_conn_spec now max conns : ∃ invalid rest,
  match take_conn now max conns with
  | (i, Some c, r) => i = invalid ∧ r = rest ∧ conns = invalid ++ c :: rest ∧
      connected c = true ∧ end_of_life max c ≤ now
  | (i, None, r) => i = invalid ∧ r = [] ∧ conns = invalid
  end ∧ Forall (λ c, connected c = false ∨ now < end_of_life max c) invalid.
Proof.
  induction conns as [|c conns (invalid & rest & IH & Hi)]; [by exists [], []|]. cbn.
  destruct (take_conn now max conns) as [[i ptr] r].
  assert (connected c = false ∨ now < end_of_life max c →
    ∃ invalid' rest', match (c :: i, ptr, r) with
      | (i, Some x, r) => i = invalid' ∧ r = rest' ∧ c :: conns = invalid' ++ x :: rest' ∧
          connected x = true ∧ end_of_life max x ≤ now
      | (i, None, r) => i = invalid' ∧ r = [] ∧ c :: conns = invalid'
      end ∧ Forall (λ c, connected c = false ∨ now < end_of_life max c) invalid') as Hskip.
  { intros Hc. exists (c :: invalid), rest. destruct ptr as [x|].
    - destruct IH as (-> & -> & -> & ? & ?). split; [done|by constructor].
    - destruct IH as (-> & -> & ->). split; [done|by constructor]. }
  destruct (connected c) eqn:Hc; cbn [negb]; [|apply Hskip; by left].
  destruct (Z.ltb_spec now (end_of_life max c)); [apply Hskip; by right|].
  exists [], conns. done.
Qed.

Record pool_ok (max_alive max_request : Z) (p : HttpConnectionPool) : Prop := {
  ok_alive : max_alive_time_ p = max_alive;
  ok_max : max_request_ p = max_request;
  ok_total : total_ p = swrap 32 (Z.of_nat (length (conns_ p) + length (lent p)));
  ok_time : ∀ c, c ∈ conns_ p ∨ c ∈ lent p → create_time_ c = 0;
  ok_requests : ∀ c, c ∈ conns_ p → request_ c < max_request
}.

Lemma swrap_add_l a b : swrap 32 (swrap 32 a + b) = swrap 32 (a + b).
Proof.
  unfold swrap at 2. unfold wrap. pose proof (Z.div_mod (a + 2 ^ (32 - 1)) (2 ^ 32) ltac:(done)) as Hd.
  rewrite <- (swrap_add_pow 32 _ ((a + 2 ^ (32 - 1)) / 2 ^ 32)) by done. f_equal. lia.
Qed.

Section run.
Variables max_alive max_request : Z.
Hypothesis Hma : in_u 32 max_alive.

Lemma end_of_life_0 c : create_time_ c = 0 → end_of_life max_alive c = max_alive.
Proof. intros Hc. unfold end_of_life. rewrite Hc. apply wrap_small. unfold in_u in *. lia. Qed.

(** The first connected one is found, however old it is. *)
Lemma take_conn_late now conns : max_alive < now → (∀ c, c ∈ conns → create_time_ c = 0) →
  match take_conn now max_alive conns with
  | (i, Some c, r) => conns = i ++ c :: r ∧ connected c = true ∧ Forall (λ c, connected c = false) i
  | (i, None, r) => i = conns ∧ r = [] ∧ Forall (λ c, connected c = false) conns
  end.
Proof.
  intros Hnow. induction conns as [|c conns IH]; intros Ht; [done|]. cbn [take_conn].
  rewrite end_of_life_0 by (apply Ht; by left). rewrite (proj2 (Z.ltb_ge now max_alive)) by lia.
  specialize (IH (λ x Hx, Ht x (proj2 (elem_of_cons _ _ _) (or_intror Hx)))).
  destruct (take_conn now max_alive conns) as [[i ptr] r]. destruct (connected c) eqn:Hc; cbn [negb].
  - split_and!; [done|done|constructor].
  - destruct ptr as [x|].
    + destruct IH as (-> & ? & ?). split_and!; [done|done|by constructor].
    + destruct IH as (-> & -> & ?). split_and!; [done|done|by constructor].
Qed.

Lemma Get_ok now connect p : max_alive < now → pool_ok max_alive max_request p →
  pool_ok max_alive max_request (GetConnection now connect p).2 ∧
  (∀ c rest i, conns_ p = i ++ c :: rest → connected c = true → Forall (λ c, connected c = false) i →
     (GetConnection now connect p).1 = Some c ∧ conns_ (GetConnection now connect p).2 = rest) ∧
  (Forall (λ c, connected c = false) (conns_ p) →
     (GetConnection now connect p).1 = new_HttpConnection <$> connect ∧ conns_ (GetConnection now connect p).2 = []).
Proof.
  intros Hnow [Ha Hm Ht Hc0 Hreq]. unfold GetConnection. rewrite Ha.
  pose proof (take_conn_late now (conns_ p) Hnow ltac:(intros; apply Hc0; by left)) as Hl.
  destruct (take_conn now max_alive (conns_ p)) as [[i ptr] r]. destruct ptr as [c|].
  - destruct Hl as (Hp & Hc & Hi). cbn [fst snd conns_]. split_and!.
    + split; cbn [max_alive_time_ max_request_ total_ conns_ lent]; try done.
      * rewrite Ht, Hp. unfold Z.sub. rewrite swrap_add_l. f_equal. rewrite length_app. cbn [length]. lia.
      * intros x Hx. apply Hc0. rewrite Hp. set_solver.
      * intros x Hx. apply Hreq. rewrite Hp. set_solver.
    + intros c' rest i' Hp' Hc' Hi'. rewrite Hp in Hp'.
      assert (i = i') as ->; [|by simplify_eq].
      clear -Hp' Hc Hc' Hi Hi'. revert i' Hi' Hp'. induction Hi as [|x i Hx _ IH]; intros i' Hi' Hp'.
      * destruct Hi' as [|y i' Hy]; [done|]. cbn in Hp'. simplify_eq. congruence.
      * destruct Hi' as [|y i' Hy Hi']; cbn in Hp'; simplify_eq; [congruence|]. f_equal. by apply IH.
    + rewrite Hp. intros [_ [Hx _]%Forall_cons]%Forall_app. congruence.
  - destruct Hl as (-> & -> & Hi). split_and!.
    + destruct connect as [n|]; cbn [snd]; split; cbn [max_alive_time_ max_request_ total_ conns_ lent]; try done.
      * rewrite Ht. unfold Z.sub. rewrite swrap_add_l, <- Z.add_assoc, swrap_add_l. f_equal. cbn [length]. lia.
      * intros x [Hx|[->|Hx]%elem_of_cons]; [by apply elem_of_nil in Hx|done|apply Hc0; by right].
      * intros x Hx. by apply elem_of_nil in Hx.
      * rewrite Ht. unfold Z.sub. rewrite !swrap_add_l. f_equal. cbn [length]. lia.
      * intros x [Hx|Hx]; [by apply elem_of_nil in Hx|apply Hc0; by right].
      * intros x Hx. by apply elem_of_nil in Hx.
    + intros c rest i Hp Hc _. rewrite Hp in Hi. apply Forall_app in Hi as [_ [Hx _]%Forall_cons]. congruence.
    + intros _. by destruct connect.
Qed.

Lemma Release_ok now i p : max_alive < now → pool_ok max_alive max_request p →
  pool_ok max_alive max_request (ReleasePtr now i p) ∧
  (∀ c, lent p !! i = Some c → lent (ReleasePtr now i p) = delete i (lent p) ∧
     conns_ (ReleasePtr now i p) =
       if connected c && (u64 (request_ c + 1) <? max_request)
       then conns_ p ++ [mkConn (name c) 0 (u64 (request_ c + 1)) true] else conns_ p).
Proof.
  intros Hnow [Ha Hm Ht Hc0 Hreq]. unfold ReleasePtr.
  destruct (lent p !! i) as [c|] eqn:Hi; [|by split].
  pose proof (lookup_lt_Some _ _ _ Hi) as Hlt.
  assert (length (delete i (lent p)) = (length (lent p) - 1)%nat) as Hdel by by apply length_delete.
  pose proof (Hc0 c (or_intror (list_elem_of_lookup_2 _ _ _ Hi))) as Hc.
  assert (∀ x, x ∈ delete i (lent p) → x ∈ lent p) as Hsub.
  { intros x Hx. rewrite (delete_Permutation _ _ _ Hi). by right. }
  cbv zeta. cbn [connected request_]. rewrite Ha, Hm, end_of_life_0 by done.
  rewrite (proj2 (Z.leb_gt now max_alive)) by lia. rewrite orb_false_r.
  rewrite Z.leb_antisym.
  destruct (connected c) eqn:Hcon; cbn [negb orb andb]; [destruct (Z.ltb_spec (u64 (request_ c + 1)) max_request) as [Hr|Hr]|];
    cbn [negb]; (split; [split; cbn [max_alive_time_ max_request_ total_ conns_ lent]; try done|]).
  - rewrite Ht, Hdel. f_equal. rewrite length_app. cbn [length]. lia.
  - intros x [[Hx| ->%list_elem_of_singleton]%elem_of_app|Hx]; [apply Hc0; by left|done|apply Hc0; right; by apply Hsub].
  - intros x [Hx| ->%list_elem_of_singleton]%elem_of_app; [by apply Hreq|done].
  - intros c' [= <-]. cbn [lent conns_]. by rewrite Hcon, Hc, (proj2 (Z.ltb_lt _ _) Hr).
  - rewrite Ht, Hdel. unfold Z.sub. rewrite swrap_add_l. f_equal. lia.
  - intros x [Hx|Hx]; apply Hc0; [by left|right; by apply Hsub].
  - intros c' [= <-]. cbn [lent conns_]. by rewrite Hcon, (proj2 (Z.ltb_ge _ _) Hr).
  - rewrite Ht, Hdel. unfold Z.sub. rewrite swrap_add_l. f_equal. lia.
  - intros x [Hx|Hx]; apply Hc0; [by left|right; by apply Hsub].
  - intros c' [= <-]. cbn [lent conns_]. by rewrite Hcon.
Qed.

Lemma elem_alter {A} (f : A → A) (i : nat) (l : list A) x : x ∈ alter f i l → ∃ y, y ∈ l ∧ (x = y ∨ x = f y).
Proof.
  intros [j Hj]%list_elem_of_lookup. rewrite list_lookup_alter in Hj. destruct (decide (i = j)) as [->|].
  - destruct (l !! j) as [y|] eqn:Hy; [|done]. injection Hj as <-. exists y. split; [by eapply list_elem_of_lookup_2|by right].
  - exists x. split; [by eapply list_elem_of_lookup_2|by left].
Qed.

Lemma run_pool_ok e p : late max_alive e → pool_ok max_alive max_request p →
  pool_ok max_alive max_request (run_pool e p).
Proof.
  intros Hl Hp. destruct e as [now connect|now i|i|i]; cbn in Hl.
  - by apply Get_ok.
  - by apply Release_ok.
  - destruct Hp as [Ha Hm Ht Hc0 Hreq]. split; cbn; try done; [by rewrite length_alter|..].
    + intros c [(y & Hy & [->| ->])%elem_alter|Hc]; [apply Hc0; by left|apply (Hc0 y); by left|apply Hc0; by right].
    + intros c (y & Hy & [->| ->])%elem_alter; [by apply Hreq|by apply (Hreq y)].
  - destruct Hp as [Ha Hm Ht Hc0 Hreq]. split; cbn; try done; [by rewrite length_alter|..].
    intros c [Hc|(y & Hy & [->| ->])%elem_alter]; [apply Hc0; by left|apply Hc0; by right|apply (Hc0 y); by right].
Qed.
End run.

(** ** Properties *)

(** What the pool does in every history.  It counts its connections; it hands
    out the first idle one that is still connected, in the order they came back,
    and makes a new one only when there is none; it takes one back if it is
    connected and has been used less than [max_request_] times.  How old it is
    makes no difference: [create_time_] is never set, so no connection expires. *)
Theorem pool_ignores_age (es : list pool_event) (max_alive max_request now : Z) (connect : option nat) :
  in_u 32 max_alive → Forall (late max_alive) es → max_alive < now →
  let p := foldl (λ p e, run_pool e p) (new_HttpConnectionPool max_alive max_request) es in
  total_ p = swrap 32 (Z.of_nat (length (conns_ p) + length (lent p))) ∧
  (∀ c, c ∈ conns_ p → request_ c < max_request) ∧
  (∀ c rest i, conns_ p = i ++ c :: rest → connected c = true → Forall (λ c, connected c = false) i →
     (GetConnection now connect p).1 = Some c ∧ conns_ (GetConnection now connect p).2 = rest) ∧
  (Forall (λ c, connected c = false) (conns_ p) →
     (GetConnection now connect p).1 = new_HttpConnection <$> connect) ∧
  (∀ i c, lent p !! i = Some c → lent (ReleasePtr now i p) = delete i (lent p) ∧
     conns_ (ReleasePtr now i p) =
       if connected c && (u64 (request_ c + 1) <? max_request)
       then conns_ p ++ [mkConn (name c) 0 (u64 (request_ c + 1)) true] else conns_ p).
Proof.
  intros Hma Hes Hnow p. assert (pool_ok max_alive max_request p) as Hp.
  { assert (∀ q, pool_ok max_alive max_request q →
      pool_ok max_alive max_request (foldl (λ p e, run_pool e p) q es)) as H.
    { induction Hes as [|e es He _ IH]; [done|]. intros q Hq. cbn. by apply IH, run_pool_ok. }
    apply H. split; cbn; try done; [|set_solver]. intros c [Hc|Hc]; by apply elem_of_nil in Hc. }
  destruct (Get_ok max_alive max_request Hma now connect p Hnow Hp) as (_ & Hg1 & Hg2). split_and!.
  - apply (ok_total _ _ _ Hp).
  - apply (ok_requests _ _ _ Hp).
  - exact Hg1.
  - intros Hd. by destruct (Hg2 Hd).
  - intros i. apply (Release_ok max_alive max_request Hma now i p Hnow Hp).
Qed.

(** A connection made at 100 with a life of 50 is still used at 1000. *)
Lemma pool_ignores_age_witness : let es := [EGet 100 (Some 7%nat); ERelease 160 0] in
  let p := foldl (λ p e, run_pool e p) (new_HttpConnectionPool 50 10) es in
  (GetConnection 1000 (Some 8%nat) p).1 = Some (mkConn 7 0 1 true) ∧ conns_ (GetConnection 1000 (Some 8%nat) p).2 = [].
Proof.
  intros es p.
  destruct (pool_ignores_age es 50 10 1000 (Some 8%nat)) as (_ & _ & H & _); [done|by repeat constructor|done|].
  by apply (H _ _ []).
Defined.
