(* ===== verification/ClientRequest.v ===== *)
(** * Making requests: [HttpConnection::DoRequest] and the pool's, [http/http_connection.cc]

    A request is built from a URI, headers and a body, printed and sent
    ([Stream.v]), and the response received ([HttpClient.v]).  Whether the host has an
    address and a connection to it can be made is given by the environment. *)
From stdpp Require Import list.
From S2P Require Import Prelude Strings CLib HttpTypes Http Uri HttpSession HttpClient Stream ConnectionPool.
Import Method Status.

(** ** Results *)

Inductive Error :=
  kOK | kInvalidUrl | kInvalidHost | kConnectFail | kSendCloseByPeer | kSendSocketError | kTimeout
  | kCreateSocketError | kPoolGetConnection | kPoolInvalidConnection.
#[export] Instance Error_eq_dec : EqDecision Error.
Proof. solve_decision. Defined.

(** The text of an error is not modelled. *)
Record HttpResult := mkResult { result_ : Error; response_ : option HttpResponse }.

(** ** Building the request *)

(** The loop over the headers, a sorted map of texts. *)
Fixpoint add_headers (headers : list (bytes * bytes)) (has_host : bool) (req : HttpRequest) : bool * HttpRequest :=
  match headers with
  | [] => (has_host, req)
  | (k, v) :: headers =>
    if strcase_eq (c_str k) (bs "connection") then
      add_headers headers has_host (if strcase_eq (c_str v) (bs "keep-alive") then set_close_ false req else req)
    else
      let has_host := if negb has_host && strcase_eq (c_str k) (bs "host") then negb (bool_decide (v = [])) else has_host in
      add_headers headers has_host (SetHeader k v req)
  end.

Definition with_host (host : bytes) (headers : list (bytes * bytes)) (req : HttpRequest) : HttpRequest :=
  let '(has_host, req) := add_headers headers false req in
  if has_host : bool then req else SetHeader (bs "Host") host req.

Definition make_request (method : HttpMethod) (uri : Uri) (headers : list (bytes * bytes)) (body : bytes) : HttpRequest :=
  let req := SetMethod method (HttpSession.SetFragment (uri_fragment_ uri) (HttpSession.SetQuery (uri_query_ uri)
    (HttpSession.SetPath (uri_GetPath uri) (new_HttpRequest 0x11 true)))) in
  HttpSession.SetBody body (with_host (host_ uri) headers req).

(** The pool's takes the text behind the host for the path. *)
Definition uri_text (uri : Uri) : bytes :=
  uri_GetPath uri ++ prefixed (bs "?") (uri_query_ uri) ++ prefixed (bs "#") (uri_fragment_ uri).
Definition pool_request (host vhost : bytes) (method : HttpMethod) (url : bytes) (headers : list (bytes * bytes)) (body : bytes) : HttpRequest :=
  let req := set_close_ false (SetMethod method (HttpSession.SetPath url (new_HttpRequest 0x11 true))) in
  HttpSession.SetBody body (with_host (if bool_decide (vhost = []) then host else vhost) headers req).

(** ** Sending it *)

(** A connection to a server: what it will send, and what it is sent. *)
Definition Exchange : Type := Session * Wire.

Section client.
Variable to_uint64 : bytes → option Z.
Variables gunzip inflate : bytes → bytes.
Variable memory : Z.
Variable fuel buff_size : nat.

Definition SendRequest (req : HttpRequest) : M Wire Z := WriteFixSize (ToString req).

Definition exchange (req : HttpRequest) : M Exchange HttpResult :=
  rt ← zoom snd (λ w s, (s.1, w)) (SendRequest req);
  if (rt =? 0)%Z then mret (mkResult kSendCloseByPeer None)
  else if (rt <? 0)%Z then mret (mkResult kSendSocketError None)
  else
    rsp ← zoom fst (λ t s, (t, s.2)) (RecvResponse to_uint64 gunzip inflate memory fuel buff_size);
    mret (match rsp with Some rsp => mkResult kOK (Some rsp) | None => mkResult kTimeout None end).

(** What [CreateAddress], [CreateTCP] and [Connect] come to. *)
Record Network := mkNetwork { has_address : bool; has_socket : bool; connects : bool }.

Definition DoRequest_req (net : Network) (req : HttpRequest) : M Exchange HttpResult :=
  if negb (has_address net) then mret (mkResult kInvalidHost None)
  else if negb (has_socket net) then mret (mkResult kCreateSocketError None)
  else if negb (connects net) then mret (mkResult kConnectFail None)
  else exchange req.

Definition DoRequest_uri (net : Network) (method : HttpMethod) (uri : Uri) (headers : list (bytes * bytes)) (body : bytes) :
    M Exchange HttpResult := DoRequest_req net (make_request method uri headers body).

Definition DoRequest (net : Network) (method : HttpMethod) (url : bytes) (headers : list (bytes * bytes)) (body : bytes) :
    M Exchange HttpResult := λ s,
  match Create url with
  | Ret (Some uri) _ => DoRequest_uri net method uri headers body s
  | Ret None _ => Ret (mkResult kInvalidUrl None) s
  | Throw e _ => Throw e s
  | Undef u => Undef u
  | NoFuel => NoFuel
  end.
Definition DoGet (net : Network) := DoRequest net GET.
Definition DoPost (net : Network) := DoRequest net POST.

(** The pool's: the connection that is got goes back when the function returns, as it
    is then, and [closed] by [RecvResponse] or not. *)
Definition Pool_DoRequest (now_ms now_ms' : Z) (connect : option nat) (req : HttpRequest) :
    M (HttpConnectionPool * Exchange) HttpResult := λ s,
  match GetConnection now_ms connect s.1 with
  | (None, p) => Ret (mkResult kPoolGetConnection None) (p, s.2)
  | (Some _, p) =>
    match exchange req s.2 with
    | Ret r x =>
      let p := if closed x.1 then run_pool (EDropLent 0) p else p in
      Ret r (ReleasePtr now_ms' 0 p, x)
    | Throw e x => Throw e (ReleasePtr now_ms' 0 p, x)
    | Undef u => Undef u
    | NoFuel => NoFuel
    end
  end.
End client.
