(* ===== verification/HttpExchange.v ===== *)
(** * A request and its answer

    [HttpConnection::DoRequest] ([ClientRequest.v]) at one end and
    [HttpServer::HandleClient] ([HttpServer.v]) at the other. *)
From stdpp Require Import gmap list.
From S2P Require Import Prelude Strings CLib HttpTypes Http HttpMessages Uri Servlet HttpSession HttpParser HttpRoundtrip HttpClient ClientRoundtrip Stream ConnectionPool HttpServer HttpServerLaws HttpConversation ClientRequest.
Import Method Status.

(** ** The request that is built *)

Definition is_host (h : bytes * bytes) : bool := strcase_eq (c_str h.1) (bs "host").
Definition asks_to_stay (h : bytes * bytes) : bool := is_connection h.1 && strcase_eq (c_str h.2) (bs "keep-alive").
Definition plain_headers (headers : list (bytes * bytes)) : list (bytes * bytes) := filter (λ h, is_connection h.1 = false) headers.

Lemma is_host_eq k v : is_host (k, v) = true → key_eq k (bs "host").
Proof. unfold is_host, strcase_eq, key_eq, folded. cbn [fst]. intros H%bool_decide_eq_true. by rewrite H. Qed.

Lemma host_not_connection h : is_host h = true → is_connection h.1 = false.
Proof.
  unfold is_host, is_connection, strcase_eq. intros H%bool_decide_eq_true. rewrite H. done.
Qed.

Lemma add_headers_ok headers : ∀ has_host req, let '(has, req') := add_headers headers has_host req in
  has = has_host || existsb (λ h, is_host h && negb (bool_decide (h.2 = []))) headers ∧
  (∀ key, map_find (headers_ req') key = last_value (plain_headers headers) key (map_find (headers_ req) key)) ∧
  close_ req' = close_ req && negb (existsb asks_to_stay headers) ∧
  method_ req' = method_ req ∧ version_ req' = version_ req ∧ path_ req' = path_ req ∧ query_ req' = query_ req ∧
  fragment_ req' = fragment_ req ∧ body_ req' = body_ req ∧ websocket_ req' = websocket_ req.
Proof.
  induction headers as [|[k v] headers IH]; intros has_host req; cbn [add_headers].
  { cbn. rewrite orb_false_r, andb_true_r. done. }
  unfold plain_headers. rewrite filter_cons. change (strcase_eq (c_str k) (bs "connection")) with (is_connection k).
  destruct (is_connection k) eqn:Hc; cbn [fst]; rewrite Hc.
  - rewrite decide_False by done.
    assert (is_host (k, v) = false) as Hh.
    { destruct (is_host (k, v)) eqn:Hh; [|done]. apply host_not_connection in Hh. cbn in Hh. congruence. }
    cbn [existsb]. rewrite Hh. unfold asks_to_stay at 1. cbn [fst snd]. rewrite Hc.
    destruct (strcase_eq (c_str v) (bs "keep-alive")); cbn [andb orb].
    + specialize (IH has_host (set_close_ false req)). destruct (add_headers headers has_host (set_close_ false req)) as [has req'].
      destruct IH as (? & ? & Hcl & ?). split_and!; try tauto. rewrite Hcl. cbn. by rewrite andb_false_r.
    + specialize (IH has_host req). destruct (add_headers headers has_host req) as [has req']. tauto.
  - rewrite decide_True by done. cbn [existsb]. unfold asks_to_stay at 1. cbn [fst snd]. rewrite Hc. cbn [andb orb].
    change (strcase_eq (c_str k) (bs "host")) with (is_host (k, v)).
    match goal with |- context [add_headers headers ?h (SetHeader k v req)] => set (has1 := h) end. specialize (IH has1 (SetHeader k v req)).
    destruct (add_headers headers has1 (SetHeader k v req)) as [has req']. destruct IH as (Hhas & Hf & Hcl & ?).
    split_and!; try tauto.
    + rewrite Hhas. unfold has1. destruct has_host, (is_host (k, v)); cbn; try done; by destruct (bool_decide (v = [])).
    + intros key. rewrite Hf. unfold last_value. cbn [foldl fst snd]. f_equal. unfold SetHeader, map_set. cbn [headers_ set_headers_].
      rewrite map_find_put. case_decide; [by destruct (map_find _ k)|done].
Qed.

(** Whether the headers name a host. *)
Definition names_host (headers : list (bytes * bytes)) : bool := existsb (λ h, is_host h && negb (bool_decide (h.2 = []))) headers.

Lemma with_host_ok host headers req : let req' := with_host host headers req in
  (∀ key, map_find (headers_ req') key =
     if negb (names_host headers) && bool_decide (key_eq (bs "Host") key) then Some host
     else last_value (plain_headers headers) key (map_find (headers_ req) key)) ∧
  close_ req' = close_ req && negb (existsb asks_to_stay headers) ∧
  method_ req' = method_ req ∧ version_ req' = version_ req ∧ path_ req' = path_ req ∧ query_ req' = query_ req ∧
  fragment_ req' = fragment_ req ∧ body_ req' = body_ req ∧ websocket_ req' = websocket_ req.
Proof.
  pose proof (add_headers_ok headers false req) as H. unfold with_host. destruct (add_headers headers false req) as [has req'].
  destruct H as (Hhas & Hf & ?). cbn [orb] in Hhas. fold (names_host headers) in Hhas. rewrite <- Hhas. cbn zeta.
  destruct has; cbn [negb andb]; [tauto|]. split; [|done]. intros key. unfold SetHeader, map_set. cbn [headers_ set_headers_].
  rewrite map_find_put. case_decide; [rewrite bool_decide_true by done|rewrite bool_decide_false by done; apply Hf].
  by destruct (map_find _ (bs "Host")).
Qed.

(** The request [DoRequest] builds from a URI asks for the path, query and fragment
    of the URI, with the body given; it has the headers given, the last one of each
    name, and the host of the URI when these name none; [connection] is never copied,
    and only [keep-alive] in it keeps the connection. *)
Theorem make_request_asks (method : HttpMethod) (u : Uri) (headers : list (bytes * bytes)) (body : bytes) :
  let req := make_request method u headers body in
  method_ req = method ∧ path_ req = uri_GetPath u ∧ query_ req = uri_query_ u ∧ fragment_ req = uri_fragment_ u ∧
  body_ req = body ∧ version_ req = 0x11%Z ∧ close_ req = negb (existsb asks_to_stay headers) ∧
  ∀ key, map_find (headers_ req) key =
    if negb (names_host headers) && bool_decide (key_eq (bs "Host") key) then Some (host_ u)
    else last_value (plain_headers headers) key None.
Proof.
  intros req. unfold req, make_request. set (req0 := SetMethod _ _).
  destruct (with_host_ok (host_ u) headers req0) as (Hf & Hc & Hm & Hv & Hp & Hq & Hfr & _).
  cbn [HttpSession.SetBody method_ path_ query_ fragment_ body_ version_ close_ headers_].
  rewrite Hc, Hm, Hv, Hp, Hq, Hfr. split_and!; try done.
Qed.

(** The pool puts path, query and fragment together into the path of its request,
    and the line it prints is the one a request with the three apart has. *)
Theorem pool_asks_the_same (host vhost : bytes) (method : HttpMethod) (u : Uri) (headers : list (bytes * bytes)) (body : bytes) :
  request_line (pool_request host vhost method (uri_text u) headers body) = request_line (make_request method u headers body) ∧
  close_ (pool_request host vhost method (uri_text u) headers body) = false.
Proof.
  unfold pool_request, make_request. set (r1 := set_close_ _ _). set (r2 := SetMethod method (HttpSession.SetFragment _ _)).
  destruct (with_host_ok (if bool_decide (vhost = []) then host else vhost) headers r1) as (_ & Hc & Hm & Hv & Hp & Hq & Hfr & _).
  destruct (with_host_ok (host_ u) headers r2) as (_ & _ & Hm2 & Hv2 & Hp2 & Hq2 & Hfr2 & _).
  unfold request_line. cbn [HttpSession.SetBody method_ path_ query_ fragment_ version_ close_].
  rewrite Hc, Hm, Hv, Hp, Hq, Hfr, Hm2, Hv2, Hp2, Hq2, Hfr2. split; [|done]. unfold r1, r2, uri_text. cbn. by rewrite <- !app_assoc.
Qed.

(** ** Both ends *)

Section both.
Variable memory : Z.
Variable relaxed : bool.
Context `{FS : FileSystem}.
Variable to_uint64 : bytes → option Z.
Variable fnmatch : bytes → bytes → bool.
Variable call other : nat → HttpRequest → HttpResponse → HttpResponse.
Variables gunzip inflate : bytes → bytes.
Variable buff_size : nat.
Variable server : HttpServer.
Hypothesis buff_ok : (Z.of_nat buff_size < 2 ^ 31)%Z.
Hypothesis FS_honest : honest FS.
#[local] Instance both_scanner : Scanner := request_scanner memory relaxed.

(** One exchange of a client, on a connection that takes the request and brings a
    response. *)
Lemma exchange_ok (req : HttpRequest) (rsp : HttpResponse) (fuel : nat) (behind : bytes) (rest : list bytes) (w : Wire) :
  0 < length (ToString req) → (Z.of_nat (length (ToString req)) < 2 ^ 31)%Z → willing (length (ToString req)) w →
  readable to_uint64 buff_size rsp → Forall (λ c, c ≠ []) rest → behind ++ concat rest = rsp_body_ rsp →
  length (rsp_body_ rsp) < fuel →
  ∃ r x, exchange to_uint64 gunzip inflate memory (S fuel) buff_size req
      (mkSession ((rsp_head rsp (rsp_sent_headers rsp) ++ behind) :: rest) false, w) = Ret (mkResult kOK (Some r)) x ∧
    sent x.2 = sent w ++ ToString req ∧ same_response r rsp.
Proof.
  intros H0 Hlen Hw Hrd Hrest Hbody Hf. unfold exchange, SendRequest.
  destruct (WriteFixSize_willing (ToString req) w 0) as (w' & Hs & Hsent & _); [by rewrite Nat.add_0_r|].
  erewrite bind_Ret by (by apply zoom_Ret). rewrite swrap_small by (unfold in_s; lia).
  rewrite (proj2 (Z.eqb_neq _ _)), (proj2 (Z.ltb_ge _ _)) by lia.
  destruct (RecvResponse_sent memory to_uint64 gunzip inflate rsp fuel buff_size behind rest [] Hrd buff_ok Hrest)
    as (r & s' & Hr & _ & Hsame); [by rewrite app_nil_r|by rewrite Hbody|].
  erewrite bind_Ret by (by apply zoom_Ret). by do 2 eexists.
Qed.

(** C2: a request that [DoRequest] sends and a response that [HandleClient] sends
    cross the network as what they are: the server answers to the request that was
    made, and when its answer is one a client can read, [DoRequest] returns it, status,
    reason, headers and body, with [kOK].  Both scanners are those generated from the
    grammars, and both directions may be cut into pieces anywhere behind the head. *)
Theorem request_is_answered (req : HttpRequest) (k : cut) (fuel : nat) (ws wc : Wire) (net : Network) :
  arrives to_uint64 buff_size req → cut_of req k → length (body_ req) < fuel → ¬ kept server req →
  (Z.of_nat (length (ToString req)) < 2 ^ 31)%Z → willing (length (ToString req)) wc →
  net = mkNetwork true true true →
  ∃ req' rsp c', HandleClient to_uint64 fnmatch call other buff_size server fuel
      (mkClient (mkSession (pieces_of req k) false) ws []) = Ret tt c' ∧
    same_request req' req ∧ answer fnmatch call other server req' = Some rsp ∧
    (willing (length (rsp_ToString rsp)) ws → sent (wire c') = sent ws ++ rsp_head rsp (rsp_sent_headers rsp) ++ rsp_body_ rsp) ∧
    ∀ behind rest fuel', readable to_uint64 buff_size rsp → Forall (λ c, c ≠ []) rest →
      behind ++ concat rest = rsp_body_ rsp → length (rsp_body_ rsp) < fuel' →
      ∃ r x, DoRequest_req to_uint64 gunzip inflate memory (S fuel') buff_size net req
          (mkSession ((rsp_head rsp (rsp_sent_headers rsp) ++ behind) :: rest) false, wc) = Ret (mkResult kOK (Some r)) x ∧
        sent x.2 = sent wc ++ ToString req ∧ same_response r rsp.
Proof.
  intros Ha Hk Hf Hkept Hlen Hwc ->. destruct fuel as [|fuel]; [lia|].
  destruct (loop_turn memory relaxed to_uint64 fnmatch call other buff_size server buff_ok FS_honest fuel (S fuel) req k [] ws []
    Ha Hk Hf) as (req' & rsp & w' & ns' & Hsame & Hans & _ & Hw & Hrun).
  assert (negb (is_keepalive_ server) || close_ req = true) as Hend.
  { unfold kept in Hkept. destruct (is_keepalive_ server), (close_ req); try done. by destruct Hkept. }
  rewrite Hend, app_nil_r in Hrun. exists req', rsp. eexists. split.
  { unfold HandleClient. change both_scanner with (server_scanner memory relaxed). erewrite bind_Ret by exact Hrun. reflexivity. }
  cbn [wire]. split; [done|]. split; [done|]. split.
  { intros Hws. rewrite <- rsp_ToString_head. apply (Hw 0). by rewrite Nat.add_0_r. }
  intros behind rest fuel' Hrd Hrest Hbody Hf'. unfold DoRequest_req. cbn [has_address has_socket connects negb].
  apply exchange_ok; try done. rewrite ToString_lines. unfold request_line. rewrite !length_app. cbn. lia.
Qed.
End both.

(** ** Examples *)

(** [http://h/p?a=1#f] *)
Definition small_uri : Uri := mkUri (bs "http") [] (bs "h") (bs "/p") (bs "a=1") (bs "f") 0.
Definition small_request : HttpRequest := make_request GET small_uri [(bs "Accept", bs "text/html")] (bs "hello").

Lemma small_request_arrives : arrives digits 300 small_request.
Proof.
  constructor; try done; [split; [done|by left|by vm_compute..|repeat constructor]|repeat constructor; by vm_compute|vm_compute; lia].
Qed.

(** The page for what is not found can be read. *)
Definition not_found_page : HttpResponse :=
  default (new_HttpResponse 0x11 true) (answer (H0 := empty_site) (λ _ _, false) (λ _ _ r, r) (λ _ _ r, r) keeping small_request).
Lemma not_found_readable : readable digits 300 not_found_page ∧ status_ not_found_page = 404%Z.
Proof.
  split; [|by vm_compute]. constructor; [|repeat constructor; by vm_compute|by vm_compute..|vm_compute; lia].
  split; [by left|vm_compute; split; congruence|by vm_compute|]. repeat constructor.
Qed.

Lemma request_is_answered_witness : ∃ req' rsp c',
  HandleClient (H := request_scanner 0 false) (H0 := empty_site) digits (λ _ _, false) (λ _ _ r, r) (λ _ _ r, r) 300 keeping 10
    (mkClient (mkSession (pieces_of small_request (mkCut (bs "he") [bs "ll"; bs "o"])) false) (mkWire [] (replicate 400 3%Z)) []) = Ret tt c' ∧
  same_request req' small_request ∧ answer (H0 := empty_site) (λ _ _, false) (λ _ _ r, r) (λ _ _ r, r) keeping req' = Some rsp ∧
  (readable digits 300 rsp → rsp_body_ rsp ≠ [] → length (rsp_body_ rsp) < 1000 →
   ∃ r x, DoRequest_req digits id id 0 1001 300 (mkNetwork true true true) small_request
     (mkSession [rsp_head rsp (rsp_sent_headers rsp); rsp_body_ rsp] false, mkWire [] (replicate 400 3%Z)) = Ret (mkResult kOK (Some r)) x ∧
     same_response r rsp).
Proof.
  destruct (request_is_answered 0 false digits (λ _ _, false) (λ _ _ r, r) (λ _ _ r, r) id id 300 keeping ltac:(lia) (FS := empty_site)
    ltac:(split; done) small_request (mkCut (bs "he") [bs "ll"; bs "o"]) 10 (mkWire [] (replicate 400 3%Z)) (mkWire [] (replicate 400 3%Z))
    (mkNetwork true true true)) as (req' & rsp & c' & Hr & Hsame & Hans & _ & H).
  - apply small_request_arrives.
  - split; [by repeat constructor|done].
  - vm_compute. lia.
  - by intros [_ ?].
  - by vm_compute.
  - split; [by apply Forall_replicate|]. vm_compute. lia.
  - done.
  - exists req', rsp, c'. split; [exact Hr|]. split; [exact Hsame|]. split; [exact Hans|]. intros Hrd Hne Hlen.
    assert (Forall (λ c : bytes, c ≠ []) [rsp_body_ rsp]) as Hne' by (apply Forall_singleton; exact Hne).
    assert ([] ++ concat [rsp_body_ rsp] = rsp_body_ rsp) as Hb by (exact (app_nil_r (rsp_body_ rsp))).
    destruct (H [] [rsp_body_ rsp] 1000 Hrd Hne' Hb Hlen) as (r & x & Hx & _ & Hsr).
    rewrite app_nil_r in Hx. exists r, x. split; [exact Hx|exact Hsr].
Defined.
